(* ===== verification/_CoqProject ===== *)
-Q . S2P
Prelude.v
PyFloat.v
PyData.v
Order.v
Errors.v
PyValue.v
KeyProfile.v
Ccxt.v
Gateway.v
Adapter.v
OrderPolicy.v
Confirm.v
Routing.v
Instruments.v
CcxtAdapter.v
Intervals.v
RefData.v
RefPublish.v
TradeRepo.v
Schedule.v
LiveApply.v
Service.v
Scheduler.v
Queue.v
BarFetcher.v
BarService.v
Promotion.v
Signals.v
StrategyConfig.v
Frames.v
Performance.v
Optimize.v
Exposure.v
BacktestCache.v
BacktestData.v
BacktestService.v
LiveSignal.v
VenueLimits.v
Worker.v
Capture.v
Auth.v
Credentials.v
Database.v
Sources.v
ProviderFill.v
Futu.v
Json.v
SavedCopies.v
Config.v
Repos.v
Strategies.v
Maintenance.v
Routes.v
Schedules.v
Rerun.v
InstRoutes.v
TradeRoutes.v
Wiring.v
Cli.v
Harness.v
