(* ===== verification/Prelude.v ===== *)
(** * Quant_Strategies: a verification library

    The program backtests trading strategies, promotes the good ones, and trades
    them: a scheduler wakes on bar boundaries, computes each deployment's signal
    from stored price bars, decides an order against the live position, sends it
    to a venue through ccxt, confirms it and keeps a diary.  This library
    translates the Python of that core ([src/quant]) into executable definitions
    and proves what the code promises.  Every definition keeps the name of the
    function it translates where Rocq allows it, its branches in the code's
    order, its guards and its early returns.

    ** How the parts interact

<<
    poller.drain -> sweep -> tick.run_tick -> tick._run_one        Scheduler
                                                |
    service.apply_live / dry_run / update ...   |                  Service
                         |                      |
                         +---> run_live_apply <-+                  LiveApply
                                |   |     |
        bars and signal source -+   |     +-- intent, diary        TradeRepo
        BarService <- BarFetcher    |
                                    v
                   execute: decide, place, retry, cancel           OrderPolicy
                                    |  (interface TradeAdapter)    Adapter
                                    v
                         ccxt adapter: sizes, refusals             CcxtAdapter
                          |             |            |
                    Routing      Gateway             Confirm
                          \             |
                       KeyProfile      Ccxt (client, presets, egress)

    worker_loop (claims, children, cancels) <- jobs service        Queue
          | one process per job
    worker.main -> run_optimize -> result, promotion, row          Worker, Promotion
                        |
         data: exchange bars or provider cache                     BacktestData, BacktestCache
         search: objective over the parameter space                Optimize
         engine: factors, indicators, positions, metrics           Frames, Signals, Performance
         reports: best row, walk-forward                           BacktestService
                        |
    compute_latest_position (the live signal, same engine)         LiveSignal -> LiveApply

    publisher -> Redis -> reader                                   RefPublish -> RefData
    warm pass, subscriptions -> bar service                        Capture -> BarService
    venue limits: gateway -> Redis -> edit forms                   VenueLimits
    daily fill -> fetch -> provider classes                        ProviderFill -> Sources

    login, cookie, service token -> who a route admits             Auth
    broker keys: encrypted rows -> routes, executor, account page  Credentials
    every repository -> pooled procedure calls -> error statuses   Database
    environment, parameter store -> target -> connection string    Config
    signal -> Futu OpenD orders                                    Futu
    saved provider responses -> revision report -> harness         SavedCopies <- Json, Harness

    HTTP: route table, gates, start-up                             Routes -> Auth
      strategies, jobs, event stream                               Strategies -> Queue, Repos
      deployments, market data, snapshots                          TradeRoutes -> Service, Capture
      instruments                                                  InstRoutes -> Instruments
      maintenance <- scheduled function <- schedules               Maintenance <- Schedules
    repositories: statements and parameters of each call           Repos -> Database
    replay of stored results                                       Rerun -> Queue
    start-up: brokers by app, the poller's timed loop              Wiring -> LiveApply, Scheduler
    backtest command: names, configuration, grid                   Cli -> StrategyConfig
>>

    ** Effects

    A computation is a [prog W E A]: from a world it leaves a result, [Ok] or a
    raised exception, and a world.  Statements do not look inside the world:
    what the code calls and does not define (ccxt, stored procedures, Redis,
    subprocesses, the webhook) are the operations of a class over [W] — [Ccxt],
    [TradeDb], [QueueDb], [LoopEnv], [BarStore], [PublicCcxt] and so on — the
    array libraries are classes of pure functions ([Numpy], [Pandas],
    [Reductions], [Sorting], [TPE], [PandasIO]), and a
    theorem holds for every instance unless it names a law class or a hypothesis,
    each of which its witness instantiates with a concrete world.  The laws: a queue
    lists the jobs whose current row is QUEUED and keeps the others, while a process
    that was started goes on or has ended ([QueueLaws]); the store's coverage is
    reached by what it holds ([StoreLaws]); a key comes back as the text stored under
    it ([RedisStore]); a broker keeps paper and real accounts apart ([FutuLaws]); a
    venue serves the next bars of one table from any start after the epoch
    ([serves]).  [catch], [try_else] and [finally] are the clauses of a [try]; exceptions
    are the records of [Errors], so clauses compare classes along the real
    hierarchy, and a clause that does not match lets the exception through.
    Statements about the order of effects run the code over an instrumented
    world that appends each call with its answer to a log (OrderPolicy, LiveApply,
    Scheduler, Queue, Worker, Auth, Database, Schedules, Strategies, Rerun) and speak
    of that log, not of some world: what a run read, in which order, is in its
    conclusion.

    ** Files

    - [Prelude] (this file): results, programs, [try] clauses, Python dictionaries
      as association lists, decimal text, the calculus of preserved invariants
      (hint database [preserves]), instrumented worlds, list lemmas.
    - [PyFloat], [PyData], [PyValue]: binary64 floats bit for bit and their text;
      JSON-shaped values; [.get], subscripts and coercions with what they raise.
    - [Order], [Errors], [KeyProfile]: [trade/models/], [trade/errors.py].  The
      value objects, the hierarchy, and what a venue said about an API key.
    - [Ccxt], [Gateway], [Routing], [Confirm]: [trade/brokers/ccxt/].  A gateway's
      fields are a record beside the client's world.
    - [Adapter], [CcxtAdapter]: [trade/adapters/base.py] as the class
      [TradeAdapter], and its ccxt implementation.  Clients are proved against
      the class; [CcxtAdapter] proves the contract the executor relies on.
    - [OrderPolicy]: [trade/order_policy.py], the decision table and the executor.
    - [Instruments], [RefData]: [data/instruments.py], [refdata/reader.py].
    - [TradeRepo], [Service], [Schedule], [LiveApply]: [trade/db_repo.py],
      [service.py], [schedule_policy.py] and [schedule_align.py],
      [live_apply.py] with [bar_source.py], [dry_run.py], [registry.py] and the
      alerts of [shared/notify.py].
    - [Intervals]: [shared/intervals.py].  [Scheduler]: [trade/scheduler/].
    - [Queue]: [queue/repo.py], [worker_loop.py], [wake.py] and
      [api/services/jobs.py].
    - [BarFetcher], [BarService]: [market_data/fetcher.py], [service.py] and
      [repo.py].
    - [Promotion]: [promotion/] and [queue/result_metrics.py].
    - [Signals], [StrategyConfig]: [strategy/signals.py], bisection, convictions,
      combinations, the frozen configuration and its JSON; requests of
      [schemas/backtest.py] and the configuration built from them.
    - [Frames], [Performance], [Exposure]: [strategy/indicators.py] and
      [performance.py], a column at a time; a reference instance of every class of
      array functions, for the witnesses, stands beside its laws.
    - [Optimize]: [strategy/objective.py], [optimizer.py], [walk_forward.py].
    - [BacktestCache], [BacktestData], [BacktestService]: [data/backtest_cache.py]
      and the two halves of [strategy/backtest_service.py], the series and the runs.
    - [LiveSignal]: [strategy/live_service.py].  [Worker]: [queue/worker.py].
    - [RefPublish]: [refdata/publisher.py].  [Capture]: [market_data/warm.py],
      [subscriptions.py], [series_subscr.py].  [VenueLimits]:
      [trade/venue_limits.py].
    - [Sources], [ProviderFill]: [data/sources.py], an instance of the class the
      backtest fetches through, and [data/provider_fill.py] over that fetch.
    - [Auth]: [api/auth/].  [Credentials]: [shared/secrets_crypto.py],
      [api/credentials/], [trade/account.py].  [Database]: [shared/db.py] and
      [api/exception_handlers.py].  [Config]: [shared/config.py] and
      [config/db-targets.json].
    - [Futu]: [trade/futu_trader.py].  [SavedCopies]: [data/glassnode_response.py]
      over [Json], the scanner of the standard library's [json].  [Harness]:
      [scripts/glassnode_local_harness.py].
    - [Repos]: the procedure calls of [queue/repo.py], [promotion/repo.py] and the
      repositories under [api/], beside the signatures of the procedures in
      [db/liquidbase/].  [Strategies]: [api/services/strategies.py] and the routers of
      strategies, jobs and promotions.
    - [Maintenance]: [aws/lambda/scheduled-task/], [api/admin/] and [api/scheduler/].
      [Schedules]: [scripts/sync_schedules.py] and the jobs of [config/scheduler/].
      [Rerun]: [scripts/rerun_results.py].
    - [Wiring]: what [trade/registry.py] builds at start-up, the timed loop of
      [trade/scheduler/poller.py], the probe of [shared/db.py].  [Cli]: the names,
      the configuration and the grid of [cli.py].
    - [Routes]: [api/main.py], every route with its gates, and the life of the process.
      [InstRoutes]: [schemas/inst.py] and [routers/inst.py].  [TradeRoutes]: the routers
      of deployments, market data, snapshots and backtests; the trade routes are
      written against the class [TradeService], which [build_trade_service]
      implements.

    ** What the theorems show

    - Orders.  The executor never sends a second order while an earlier failed
      one may rest ([executor_no_second_order], [executor_book_safe]); the ccxt
      adapter meets the contract this needs over any venue, and the one order that
      is sent again without a cancel is one whose create call was lost without an id
      ([ccxt_no_second_order], [submit_timeout_sent_again]); the decision is the documented table and repeated
      applies converge ([intended_action_table], [applies_converge]); the executor
      returns ([execute_total]); confirmation decides on the first terminal answer
      ([confirm_outcome]).
    - Venue sessions.  Routes move on only for an address refusal
      ([router_connect_spec]), a regional refusal is learned
      ([region_restriction_learned]), no ccxt exception crosses the gateway
      ([gateway_translates]).
    - A live cycle.  The decision, the ownership check and its intent precede every
      call of a broker ([intent_before_session]), a preview cannot trade,
      bookkeeping cannot change the outcome, preview and order read the same
      series ([LiveApply]).
    - Deployments.  Creation is gated on the owner, an update writes exactly the
      request, the kill switch writes whatever else is wrong — and the one case
      in which it does not ([TradeRepo], [Service]).
    - Scheduling.  Slots are the least or first admissible ones, [bar_starts] is
      exact, texts round trip ([Intervals]); every due row is answered, attempts
      and pauses follow their rule ([run_one_spec]), a drain repeats only after
      progress that left no row stuck, below its ceiling, and with a ceiling above
      the backlog ends with nothing owed ([drain_catches_up]).
    - Wiring.  Orders go to the very preset the bars of an app come from
      ([orders_go_where_bars_come_from]), the timed loop sweeps once per sleep
      and only while running ([steady_loop]) and leaves the poller stopped
      ([run_ends_stopped]); the command searches by default the grid the page
      does ([default_grid_is_the_drawers]).
    - Jobs.  The child bound holds, ended children are gone and no slot stays unused
      ([tick_fills_capacity]), cancellations and crashes write the right row, the head of the run order is claimed ([Queue]).
    - Bars.  Paging is exact and ends; a window whose last closed bar is stored is
      taken as it is, another is complete or short only of what the venue does not
      have ([ensure_fresh_window]); planned passes converge — and the windows and
      targets for which they do not ([BarFetcher], [BarService]).
    - Promotion is a strict order on complete metrics and not otherwise.
    - Strategies.  No position or profit depends on a later bar
      ([no_look_ahead]), every position is long, short, flat or unknown
      ([position_states]), combining follows its documented rule
      ([combine_positions_rule]), a configuration survives its JSON
      ([strategy_json_roundtrip]).
    - Searches.  The cached objective is the engine's Sharpe ratio
      ([objective_is_performance]), an exhaustive search finds the best set
      ([exhaustive_finds_best]) and its report shows that very number
      ([headline_sharpe]); a walk-forward run trains on the in-sample part alone
      ([walk_forward_trains_before_split]).
    - Series.  An exchange's series is its stored bars, spanning the range, and
      no provider's ([exchange_series_covers], [exchange_never_substituted]); what
      a refresh stores is what the cache serves ([refresh_then_read]).
    - Live and backtest agree: the signal traded is the last final position of
      the engine on the same frames ([live_is_backtest]).
    - The worker's exit code tells what the queue holds, by the log of its reads and
      writes ([worker_exit_code]); a publication reaches every reader, values JSON
      does not have as their text ([published_is_read],
      [limits_follow_publication]); a warming pass accounts for every instrument
      ([warm_pass_accounts]); a provider series is open once
      ([provider_series_open_once]).
    - Sessions.  A request is admitted as a user on a live session only, whatever
      requests ran before ([admitted_session_is_live]); a login tells nothing by
      the checks it makes ([login_pays_one_check]) and what it sets is admitted
      ([login_then_request]); a maintenance route admits two kinds of caller
      ([maintenance_admits]).
    - Keys.  What is stored is what is used ([created_keys_are_used],
      [rotation_replaces_keys]), another's key does not exist
      ([unowned_is_not_found]), a mask shows a short tail ([mask_reveals_tail])
      and an account page asks the key's own venue ([snapshot_uses_own_app]).
    - The database.  Commits and rollbacks follow what the procedure reported
      ([write_commits_reported_success], [read_closes_its_cursor]), ciphertexts
      stay out of the log ([log_hides_secrets]), every error has its status
      ([error_statuses]).
    - Providers.  Epochs, ranges and retries are the documented ones
      ([utc_epoch_of_date], [av_range_exact], [yahoo_is_retried]); a symbol is
      written for a product only on agreement of the venues
      ([provider_symbol_written], [written_rows_justified]) and each series of a
      fill is counted once ([every_series_counted]).
    - Configuration.  A process gets the settings of the target it names, and
      prod never a loopback host on the declared local port
      ([settings_are_the_targets]; a local database moved to another port is not
      recognised, [prod_on_a_moved_local_port]); the parameter
      store fills gaps only ([ssm_fills_gaps]); every connection has a timeout
      ([connection_is_bounded]).
    - The Futu trader stays in its environment ([trader_stays_in_environment]) and
      takes a signal to the position it asks for in its own account
      ([signal_reaches_target]).
    - Saved responses.  Number literals survive parsing ([literals_survive]), the
      changes reported are exactly those between the copies ([changes_exact],
      [header_diffs_exact]), and none means the same points
      ([no_revision_same_points]); a comparison of two directories exits with 0
      for agreeing copies only ([compare_exits_0]), and a suite answers every case
      ([suite_accounts]).
    - Routes.  Who gets past the gates of a route called an open endpoint, a
      maintenance endpoint with the service token, or showed a cookie that decodes
      under the service's secret to a live session ([routes_are_gated]), a path belongs to one route ([dispatch_is_unambiguous]),
      and requests are served only between a complete start and the closing of the
      pools ([pools_outlive_requests]).
    - Strategies are promoted and deleted by their owner ([lifecycle_needs_ownership])
      and a stream tells each change once ([stream_tells_changes]); a deployment of
      somebody else is a 404 from every route ([foreign_deployment_is_404]).
    - Instruments.  What the form stores is in normal form
      ([accepted_instrument_is_normal]) and what an app lists is what resolves there
      ([listed_iff_resolvable]).
    - Maintenance.  The service token goes to the API only ([token_stays_on_api]);
      a sync passes over files without a task and writes one schedule per job, to the
      function, role and group the stack names, or nothing ([sync_writes_each_job]);
      each shipped job is posted to its own endpoint, which admits it and takes its
      payload ([shipped_jobs_have_endpoints]); a replay takes exactly the versions
      from before the cutover and stays under the cap ([rerun_stays_under_cap]); every procedure call fits the signature of the
      procedure ([calls_fit_procedures]).
    - What modelling showed is stated as theorems too: the dictionary that breaks
      the provider refresh ([live_refresh_never_returns]), the sample check
      ([scoreable_sample_misses_rsi]), the outage that sticks ([outage_sticks]),
      the cut of factors by row ([walk_forward_cuts_by_row]), the header that is
      an internal error ([non_ascii_credential_raises]), the blank passwords and
      keys ([blank_password_accepted], [blank_keys_accepted]), the empty answer
      that counts as filled ([empty_answer_is_filled]), the failed query that reads
      as holding nothing ([outage_reads_as_flat]), the closing order nobody checks
      ([refused_close_is_unreported]), the quoted number ([quoted_value_accepted]), the result anybody reads
      ([foreign_result_is_served]), the replay that starts over
      ([default_cutover_starts_over]), the mapping that is echoed
      ([mapping_is_echoed]), the copy that differs from itself
      ([duplicate_fails_against_itself]), the empty series that ends the suite
      ([empty_series_ends_suite]).

    ** Loops and fuel

    - The executor recurses on its number of attempts, the code's own range.
    - [page_fuel] counts the steps of the bar period left in the range and two
      more; a page advances the cursor by at least a step, so [fetch_bars] never
      runs out (part of [fetch_bars_exact]).
    - [bar_starts] has one iteration per period in the range, which
      [bar_starts_exact] shows to be all of them; [session_slot] looks at ten
      days, the code's own bound, and [next_session_apply_slot_first] shows one
      is always found.
    - [fill_capacity] runs once per free slot and once more, and
      [tick_fills_capacity] shows the loop ends within that.
    - [bisect_loop] halves an interval of the list and is given the list's length,
      which [bisect_loop_spec] shows to be enough.
    - [json_loads] is given the length of its text, and [json_fuel_enough] shows
      that more fuel changes nothing.
    - [yf_attempts] runs over the code's own attempts, one to three.
    - The endless loops of the worker and the poller are lists of passes; the
      theorems speak of every number of them.
    - Digit and comma printing recurse on a logarithm of the number.

    ** Bounds of the model

    Floats are binary64, integers unbounded as in Python; [Decimal] is a
    coefficient and an exponent.  A datetime is its microseconds since the epoch,
    without the calendar's year range.  Log messages are not modelled, warnings
    that are sent or stored are.  Keyboard interrupts and the interpreter's own
    failures (memory, recursion depth) are not.

    Text is ASCII: [strip], [lower] and [casefold] know no other white space or
    case.  The lock of a cache is a step of its own, and [Auth] lets other
    requests run between the steps of one.

    The service behind a route is modelled, the framework's parsing of a request is
    so far as a validator of the program decides it; [dispatch] is the documented
    rule of the framework, first match in order of registration.

    Not modelled: the plots of a search and the CSV text of a report, rate limits and
    middleware, the parsing of command lines, the printing and plotting of the
    backtest command, the frontend, the bodies of the stored procedures and
    infrastructure, and the operational harness under [scripts/] that drives a local
    venue by hand: it checks a deployment from outside and keeps no state of its own.
*)
From Stdlib Require Export Ascii.
From stdpp Require Export base tactics option list gmap strings sorting.
From Stdlib Require Export ZArith Lia.

#[global] Open Scope Z_scope.

(** ** Results and effectful programs *)

(** Outcome of a Python call: a value, or a raised exception of type [E]. *)
Inductive res (E A : Type) : Type :=
| Ok (a : A)
| Raise (e : E).
Arguments Ok {E A} _.
Arguments Raise {E A} _.

(** A Python computation over a world [W]: it always leaves a world behind,
    whether it returns or raises. *)
Definition prog (W E A : Type) : Type := W → res E A * W.

#[export] Instance res_ret {E} : MRet (res E) := λ A a, Ok a.
#[export] Instance res_bind {E} : MBind (res E) := λ A B f m,
  match m with Ok a => f a | Raise e => Raise e end.
#[export] Instance prog_ret {W E} : MRet (prog W E) := λ A a w, (Ok a, w).
#[export] Instance prog_bind {W E} : MBind (prog W E) := λ A B f m w,
  match m w with
  | (Ok a, w') => f a w'
  | (Raise e, w') => (Raise e, w')
  end.

(** [raise e] *)
Definition raise {W E A} (e : E) : prog W E A := λ w, (Raise e, w).

(** The current world. *)
Definition get_state {W E} : prog W E W := λ w, (Ok w, w).

(** A pure fallible computation used inside an effectful one. *)
Definition lift_res {W E A} (r : res E A) : prog W E A := λ w, (r, w).

(** [try: m except Exception as e: h e]; a handler that does not match
    re-raises. *)
Definition catch {W E A} (m : prog W E A) (h : E → prog W E A) : prog W E A := λ w,
  match m w with
  | (Ok a, w') => (Ok a, w')
  | (Raise e, w') => h e w'
  end.

(** [try: m] with an [else:] branch [k] whose own exceptions are not caught. *)
Definition try_else {W E A B} (m : prog W E A) (k : A → prog W E B)
    (h : E → prog W E B) : prog W E B := λ w,
  match m w with
  | (Ok a, w') => k a w'
  | (Raise e, w') => h e w'
  end.

(** How [m] ended, as a value. *)
Definition attempt {W E A} (m : prog W E A) : prog W E (res E A) := λ w,
  let '(r, w') := m w in (Ok r, w').

(** [try: m finally: f] *)
Definition finally {W E A} (m : prog W E A) (f : prog W E unit) : prog W E A := λ w,
  match m w with
  | (r, w') => match f w' with
               | (Ok _, w'') => (r, w'')
               | (Raise e, w'') => (Raise e, w'')
               end
  end.

(** [m], logging the call it is and the outcome it had. *)
Definition logged {W Ev E A} (ev : res E A → Ev) (m : prog W E A)
    : prog (W * list Ev) E A := λ s,
  match m s.1 with (r, w') => (r, (w', s.2 ++ [ev r])) end.

(** [m], which leaves no event *)
Definition unlogged {W Ev E A} (m : prog W E A) : prog (W * list Ev) E A := λ s,
  let '(r, w) := m s.1 in (r, (w, s.2)).

(** [[f x for x in xs]], left to right. *)
Fixpoint for_each {W E A B} (f : A → prog W E B) (xs : list A) : prog W E (list B) :=
  match xs with
  | [] => mret []
  | x :: xs' => y ← f x; ys ← for_each f xs'; mret (y :: ys)
  end.

(** ** Python dictionaries: insertion-ordered association lists *)

Section dict.
Context {K V : Type} `{EqDecision K}.

(** [d.get(k)] *)
Fixpoint dict_get (k : K) (d : list (K * V)) : option V :=
  match d with
  | [] => None
  | (k', v) :: d' => if decide (k = k') then Some v else dict_get k d'
  end.

(** [d[k] = v]: an existing key keeps its place, a new one goes last. *)
Fixpoint dict_set (k : K) (v : V) (d : list (K * V)) : list (K * V) :=
  match d with
  | [] => [(k, v)]
  | (k', v') :: d' =>
      if decide (k = k') then (k', v) :: d' else (k', v') :: dict_set k v d'
  end.

(** [d.pop(k, None)], the remaining dictionary *)
Fixpoint dict_del (k : K) (d : list (K * V)) : list (K * V) :=
  match d with
  | [] => []
  | (k', v') :: d' => if decide (k = k') then d' else (k', v') :: dict_del k d'
  end.
End dict.

(** [{kf(x): vf(x) for x in xs}]: a later element overwrites an earlier one. *)
Definition dict_comp {A K V} `{EqDecision K} (kf : A → K) (vf : A → V) (xs : list A)
    : list (K * V) :=
  foldl (λ d x, dict_set (kf x) (vf x) d) [] xs.

(** ** Python's [sorted(xs, key=...)]: a stable sort *)

Section sorted.
Context {A : Type}.

(** [leb x y] is the negation of [key y < key x]: insertion keeps an earlier
    element before a later one with an equal key. *)
Fixpoint insert_by (leb : A → A → bool) (x : A) (l : list A) : list A :=
  match l with
  | [] => [x]
  | y :: l' => if leb x y then x :: l else y :: insert_by leb x l'
  end.

Fixpoint sorted_by (leb : A → A → bool) (l : list A) : list A :=
  match l with
  | [] => []
  | x :: l' => insert_by leb x (sorted_by leb l')
  end.
End sorted.

(** ** Text *)

(** [needle in s] *)
Fixpoint str_contains (needle s : string) : bool :=
  String.prefix needle s ||
  match s with
  | EmptyString => false
  | String _ s' => str_contains needle s'
  end.

(** [c.lower()] on ASCII *)
Definition lower_char (c : ascii) : ascii :=
  let n := N_of_ascii c in
  if ((65 <=? n) && (n <=? 90))%N then ascii_of_N (n + 32) else c.

(** [c.upper()] on ASCII *)
Definition upper_char (c : ascii) : ascii :=
  let n := N_of_ascii c in
  if ((97 <=? n) && (n <=? 122))%N then ascii_of_N (n - 32) else c.

Fixpoint str_map (f : ascii → ascii) (s : string) : string :=
  match s with
  | EmptyString => EmptyString
  | String c s' => String (f c) (str_map f s')
  end.

Definition lower : string → string := str_map lower_char.
Definition upper : string → string := str_map upper_char.

Definition is_space (c : ascii) : bool :=
  let n := N_of_ascii c in
  ((n =? 32) || ((9 <=? n) && (n <=? 13)) || ((28 <=? n) && (n <=? 31)))%N.

Fixpoint lstrip (s : string) : string :=
  match s with
  | String c s' => if is_space c then lstrip s' else s
  | EmptyString => s
  end.

Fixpoint rstrip (s : string) : string :=
  match s with
  | EmptyString => EmptyString
  | String c s' =>
      match rstrip s' with
      | EmptyString => if is_space c then EmptyString else String c EmptyString
      | t => String c t
      end
  end.

(** [s[n:]] *)
Fixpoint str_drop (n : nat) (s : string) : string :=
  match n, s with
  | S k, String _ s' => str_drop k s'
  | _, _ => s
  end.

(** [s.removeprefix(prefix)] *)
Definition removeprefix (prefix s : string) : string :=
  if String.prefix prefix s then str_drop (String.length prefix) s else s.

(** [s.endswith(suffix)] *)
Definition ends_with (suffix s : string) : bool :=
  let n := String.length s in
  let k := String.length suffix in
  (k <=? n)%nat && String.eqb (String.substring (n - k) k s) suffix.

(** [s.strip()] *)
Definition strip (s : string) : string := lstrip (rstrip s).

(** [sep.join(parts)] *)
Fixpoint join (sep : string) (parts : list string) : string :=
  match parts with
  | [] => EmptyString
  | [p] => p
  | p :: ps => p +:+ sep +:+ join sep ps
  end.

(** [s.split(c)] for a one-character separator *)
Fixpoint split_on (c : ascii) (s : string) : list string :=
  match s with
  | EmptyString => [EmptyString]
  | String a s' =>
      match split_on c s' with
      | [] => []
      | p :: ps => if Ascii.eqb a c then EmptyString :: p :: ps else String a p :: ps
      end
  end.

(** [s.partition(c)]: text before the separator, whether it was found, text
    after it. *)
Fixpoint partition_on (c : ascii) (s : string) : string * bool * string :=
  match s with
  | EmptyString => (EmptyString, false, EmptyString)
  | String a s' =>
      if Ascii.eqb a c then (EmptyString, true, s')
      else let '(p, found, q) := partition_on c s' in (String a p, found, q)
  end.

(** ** Reasoning about programs *)

(** [m] run from [w] returns into [Q] or raises into [R]. *)
Definition wp {W E A} (m : prog W E A) (Q : A → W → Prop) (R : E → W → Prop) (w : W) : Prop :=
  match m w with
  | (Ok a, w') => Q a w'
  | (Raise e, w') => R e w'
  end.

(** Every outcome of [m] keeps [P]. *)
Definition preserves {W E A} (P : W → Prop) (m : prog W E A) : Prop :=
  ∀ w, P w → P (m w).2.

(** [m] returns from every world. *)
Definition total {W E A} (m : prog W E A) : Prop :=
  ∀ w, ∃ a w', m w = (Ok a, w').

Section prog_facts.
Context {W E : Type}.

Lemma wp_ret {A} (a : A) (Q : A → W → Prop) (R : E → W → Prop) w :
  wp (mret a) Q R w ↔ Q a w.
Proof. done. Qed.

Lemma wp_raise {A} (e : E) (Q : A → W → Prop) (R : E → W → Prop) w :
  wp (raise e) Q R w ↔ R e w.
Proof. done. Qed.

Lemma wp_get_state (Q : W → W → Prop) (R : E → W → Prop) w :
  wp get_state Q R w ↔ Q w w.
Proof. done. Qed.

Lemma wp_bind {A B} (m : prog W E A) (f : A → prog W E B) Q R w :
  wp (m ≫= f) Q R w ↔ wp m (λ a, wp (f a) Q R) R w.
Proof. unfold wp, mbind, prog_bind. destruct (m w) as [[a|e] w']; reflexivity. Qed.

Lemma bind_ok {A B} (m : prog W E A) (f : A → prog W E B) w a w' :
  m w = (Ok a, w') → (m ≫= f) w = f a w'.
Proof. intros Hm. unfold mbind, prog_bind. by rewrite Hm. Qed.

Lemma bind_raise {A B} (m : prog W E A) (f : A → prog W E B) w e w' :
  m w = (Raise e, w') → (m ≫= f) w = (Raise e, w').
Proof. intros Hm. unfold mbind, prog_bind. by rewrite Hm. Qed.

(** A sequence that returns has returned from both parts. *)
Lemma bind_inv {A B} (m : prog W E A) (f : A → prog W E B) w b w' :
  (m ≫= f) w = (Ok b, w') → ∃ a w1, m w = (Ok a, w1) ∧ f a w1 = (Ok b, w').
Proof. unfold mbind, prog_bind. destruct (m w) as [[a|e] w1]; [by exists a, w1|done]. Qed.

Lemma mret_bind {A B} (a : A) (f : A → prog W E B) w : (mret a ≫= f) w = f a w.
Proof. done. Qed.

Lemma lift_bind {A B} (r : res E A) (f : A → prog W E B) w :
  (lift_res r ≫= f) w = match r with Ok a => f a w | Raise e => (Raise e, w) end.
Proof. by destruct r. Qed.

Lemma bind_assoc {A B C} (m : prog W E A) (f : A → prog W E B) (g : B → prog W E C) w :
  ((m ≫= f) ≫= g) w = (m ≫= λ a, f a ≫= g) w.
Proof. unfold mbind, prog_bind. by destruct (m w) as [[a|e] w']. Qed.

Lemma bind_ext {A B} (m : prog W E A) (f g : A → prog W E B) w :
  (∀ a w', f a w' = g a w') → (m ≫= f) w = (m ≫= g) w.
Proof. intros Hfg. unfold mbind, prog_bind. by destruct (m w) as [[a|e] w']. Qed.

Lemma wp_catch {A} (m : prog W E A) h Q R w :
  wp (catch m h) Q R w ↔ wp m Q (λ e, wp (h e) Q R) w.
Proof. unfold wp, catch. destruct (m w) as [[a|e] w']; reflexivity. Qed.

Lemma wp_try_else {A B} (m : prog W E A) (k : A → prog W E B) h Q R w :
  wp (try_else m k h) Q R w ↔ wp m (λ a, wp (k a) Q R) (λ e, wp (h e) Q R) w.
Proof. unfold wp, try_else. destruct (m w) as [[a|e] w']; reflexivity. Qed.

(** A handler that only raises leaves what returned. *)
Lemma catch_inv {A} (m : prog W E A) h w a w' : (∀ e v b v', h e v ≠ (Ok b, v')) →
  catch m h w = (Ok a, w') → m w = (Ok a, w').
Proof. intros Hh. unfold catch. destruct (m w) as [[b|e] v]; [done|]. by intros ?%Hh. Qed.

Lemma wp_mono {A} (m : prog W E A) (Q Q' : A → W → Prop) (R R' : E → W → Prop) w :
  wp m Q R w → (∀ a w', Q a w' → Q' a w') → (∀ e w', R e w' → R' e w') → wp m Q' R' w.
Proof. unfold wp. destruct (m w) as [[a|e] w']; auto. Qed.

Lemma wp_iff {A} (m : prog W E A) (Q Q' : A → W → Prop) (R R' : E → W → Prop) w :
  (∀ a w', Q a w' ↔ Q' a w') → (∀ e w', R e w' ↔ R' e w') → wp m Q R w ↔ wp m Q' R' w.
Proof. unfold wp. destruct (m w) as [[a|e] w']; auto. Qed.

Lemma wp_lift_res {A} (r : res E A) (Q : A → W → Prop) (R : E → W → Prop) w :
  wp (lift_res r) Q R w ↔ match r with Ok a => Q a w | Raise e => R e w end.
Proof. unfold wp, lift_res. destruct r; reflexivity. Qed.

Lemma wp_logged {Ev A} (ev : res E A → Ev) (m : prog W E A) Q R w tr :
  wp (logged ev m) Q R (w, tr) ↔
  wp m (λ a w', Q a (w', tr ++ [ev (Ok a)])) (λ e w', R e (w', tr ++ [ev (Raise e)])) w.
Proof. unfold wp, logged; simpl. destruct (m w) as [[a|e] w']; reflexivity. Qed.

(** Running a call and remembering what it returned. *)
Lemma wp_intro {A} (m : prog W E A) (Q : A → W → Prop) (R : E → W → Prop) w :
  (∀ a w', m w = (Ok a, w') → Q a w') → (∀ e w', m w = (Raise e, w') → R e w') →
  wp m Q R w.
Proof. unfold wp. destruct (m w) as [[a|e] w']; auto. Qed.

Lemma wp_elim {A} (m : prog W E A) (Q : A → W → Prop) (R : E → W → Prop) w :
  wp m Q R w → ∀ r w', m w = (r, w') →
  match r with Ok a => Q a w' | Raise e => R e w' end.
Proof. unfold wp. intros H r w' Hm. rewrite Hm in H. by destruct r. Qed.

(** The state after each element of a loop satisfies the loop's invariant. *)
Lemma wp_for_each {A B} (f : A → prog W E B) (I : list B → W → Prop) R xs w :
  (∀ done x w, I done w → wp (f x) (λ y, I (done ++ [y])) R w) →
  ∀ done, I done w → wp (for_each f xs) (λ ys, I (done ++ ys)) R w.
Proof.
  intros Hf. revert w. induction xs as [|x xs IH]; intros w dn HI; simpl.
  - rewrite wp_ret. by rewrite app_nil_r.
  - rewrite wp_bind. eapply wp_mono; [apply Hf, HI| |done].
    intros y w' HI'. rewrite wp_bind. eapply wp_mono; [apply IH, HI'| |done].
    intros ys w'' HI''. rewrite wp_ret. by rewrite cons_middle, app_assoc.
Qed.

Lemma for_each_length {A B} (f : A → prog W E B) xs w ys w' :
  for_each f xs w = (Ok ys, w') → length ys = length xs.
Proof.
  revert w ys. induction xs as [|x xs IH]; intros w ys; simpl.
  { intros [= <- <-]. done. }
  unfold mbind, prog_bind. destruct (f x w) as [[y|e] w1]; [|done].
  destruct (for_each f xs w1) as [[ys'|e] w2] eqn:Hr; [|done].
  intros [= <- <-]. simpl. f_equal. eauto.
Qed.

Lemma for_each_total {A B} (f : A → prog W E B) xs :
  (∀ x, total (f x)) → total (for_each f xs).
Proof.
  intros Hf. induction xs as [|x xs IH]; intros w; simpl; [by do 2 eexists|].
  unfold mbind, prog_bind.
  destruct (Hf x w) as (y & w1 & ->), (IH w1) as (ys & w2 & ->). by do 2 eexists.
Qed.
End prog_facts.

(** ** Traced programs *)

Lemma logged_eq {W Ev E A} (ev : res E A → Ev) (m : prog W E A) w tr :
  logged ev m (w, tr) = let '(r, w') := m w in (r, (w', (tr ++ [ev r])%list)).
Proof. unfold logged. cbn [fst snd]. by destruct (m w). Qed.

Lemma unlogged_eq {W Ev E A} (m : prog W E A) w (tr : list Ev) :
  unlogged m (w, tr) = let '(r, w') := m w in (r, (w', tr)).
Proof. done. Qed.

Lemma logged_bind {W Ev E A B} (ev : res E A → Ev) (m : prog W E A) (f : A → prog (W * list Ev) E B) w tr :
  (logged ev m ≫= f) (w, tr) =
  match m w with
  | (Ok a, w') => f a (w', (tr ++ [ev (Ok a)])%list)
  | (Raise e, w') => (Raise e, (w', (tr ++ [ev (Raise e)])%list))
  end.
Proof. unfold mbind, prog_bind. rewrite logged_eq. by destruct (m w) as [[a|e] w']. Qed.

Lemma unlogged_bind {W Ev E A B} (m : prog W E A) (f : A → prog (W * list Ev) E B) w tr :
  (unlogged m ≫= f) (w, tr) =
  match m w with (Ok a, w') => f a (w', tr) | (Raise e, w') => (Raise e, (w', tr)) end.
Proof. unfold mbind, prog_bind. rewrite unlogged_eq. by destruct (m w) as [[a|e] w']. Qed.

(** The order of texts is transitive. *)
Lemma string_leb_trans (s t u : string) : String.leb s t = true → String.leb t u = true → String.leb s u = true.
Proof.
  unfold String.leb. revert t u. induction s as [|a s IH]; intros [|b t] [|c u]; try done. cbn [String.compare].
  unfold Ascii.compare. specialize (IH t u).
  destruct (N.compare_spec (N_of_ascii a) (N_of_ascii b)) as [E1|E1|E1];
    destruct (N.compare_spec (N_of_ascii b) (N_of_ascii c)) as [E2|E2|E2];
    destruct (N.compare_spec (N_of_ascii a) (N_of_ascii c)) as [E3|E3|E3]; try done; try lia; auto.
Qed.

Lemma string_leb_total (s t : string) : String.leb s t = false → String.leb t s = true.
Proof. destruct (String.leb_total s t) as [->|]; done. Qed.

(** ** Invariants: what every outcome of a program keeps *)

Section preserves_facts.
Context {W E : Type} (P : W → Prop).

Lemma preserves_ret {A} (a : A) : preserves P (mret a : prog W E A).
Proof. by intros w. Qed.

Lemma preserves_raise {A} (e : E) : preserves P (raise e : prog W E A).
Proof. by intros w. Qed.

Lemma preserves_bind {A B} (m : prog W E A) (f : A → prog W E B) :
  preserves P m → (∀ a, preserves P (f a)) → preserves P (m ≫= f).
Proof.
  intros Hm Hf w Hw. specialize (Hm w Hw). unfold mbind, prog_bind.
  destruct (m w) as [[a|e] w']; [by apply Hf|done].
Qed.

Lemma preserves_catch {A} (m : prog W E A) h :
  preserves P m → (∀ e, preserves P (h e)) → preserves P (catch m h).
Proof.
  intros Hm Hh w Hw. specialize (Hm w Hw). unfold catch.
  destruct (m w) as [[a|e] w']; [done|by apply Hh].
Qed.

Lemma preserves_lift {A} (r : res E A) : preserves P (lift_res r).
Proof. by intros w. Qed.

Lemma preserves_if {A} (b : bool) (m n : prog W E A) :
  preserves P m → preserves P n → preserves P (if b then m else n).
Proof. by destruct b. Qed.

Lemma preserves_for_each {A B} (f : A → prog W E B) xs :
  (∀ x, preserves P (f x)) → preserves P (for_each f xs).
Proof.
  intros Hf. induction xs as [|x xs IH]; cbn [for_each]; [apply preserves_ret|].
  apply preserves_bind; [done|]. intros y. apply preserves_bind; [done|]. intros ys. apply preserves_ret.
Qed.
End preserves_facts.

(** One event, and none, for goals whose computation is a method of a traced
    instance. *)
Lemma wp_event {W Ev E A} (ev : res E A → Ev) (m : prog W E A) Q R w tr :
  (∀ a w', Q a (w', (tr ++ [ev (Ok a)])%list)) → (∀ e w', R e (w', (tr ++ [ev (Raise e)])%list)) →
  wp (logged ev m) Q R (w, tr).
Proof. intros HQ HR. apply wp_logged, wp_intro; auto. Qed.

Lemma wp_unlogged {W Ev E A} (m : prog W E A) Q R w (tr : list Ev) :
  (∀ a w', m w = (Ok a, w') → Q a (w', tr)) → (∀ e w', R e (w', tr)) → wp (unlogged m) Q R (w, tr).
Proof. unfold wp, unlogged. cbn [fst snd]. destruct (m w) as [[a|e] w'] eqn:E0; eauto. Qed.

(** A program run beside a log leaves it alone. *)
Lemma unlogged_quiet {W Ev E A} (tr : list Ev) (m : prog W E A) : preserves (λ s, s.2 = tr) (unlogged m).
Proof. intros [w x] Hx. rewrite unlogged_eq. by destruct (m w). Qed.

Create HintDb preserves.
#[export] Hint Resolve preserves_ret preserves_raise preserves_bind preserves_catch
  preserves_lift preserves_if preserves_for_each unlogged_quiet : preserves.

(** ** Dictionary facts *)

Section dict_facts.
Context {K V : Type} `{EqDecision K}.
Implicit Types d : list (K * V).

Lemma dict_get_set k v d : dict_get k (dict_set k v d) = Some v.
Proof.
  induction d as [|[k' v'] d IH]; simpl; [by rewrite decide_True|].
  destruct (decide (k = k')); simpl; [rewrite decide_True by done|rewrite decide_False by done]; done.
Qed.

Lemma dict_get_set_ne k k' v d : k ≠ k' → dict_get k (dict_set k' v d) = dict_get k d.
Proof.
  intros Hne. induction d as [|[k'' v''] d IH]; simpl; [by rewrite decide_False|].
  destruct (decide (k' = k'')); simpl; repeat case_decide; simplify_eq; done.
Qed.

Lemma dict_set_keys k k' v d : k' ∈ (dict_set k v d).*1 ↔ k' = k ∨ k' ∈ d.*1.
Proof.
  induction d as [|[k0 v0] d IH]; simpl.
  - rewrite list_elem_of_singleton. split; [by left|]. by intros [?|?%not_elem_of_nil].
  - case_decide as Hk; simpl; rewrite !elem_of_cons; [subst; tauto|rewrite IH; tauto].
Qed.

Lemma dict_get_key k d : dict_get k d = None ↔ k ∉ d.*1.
Proof.
  induction d as [|[k' v] d IH]; simpl.
  - split; [|done]. intros _ ?%not_elem_of_nil. done.
  - rewrite not_elem_of_cons. case_decide; [split; [done|tauto]|rewrite IH; tauto].
Qed.

Lemma dict_set_nodup k v d : NoDup d.*1 → NoDup (dict_set k v d).*1.
Proof.
  induction d as [|[k0 v0] d IH]; simpl; intros Hd; [apply NoDup_singleton|].
  case_decide as Hk; [done|]. apply NoDup_cons in Hd as [Hn Hd]. simpl. apply NoDup_cons. split; [|by apply IH].
  rewrite dict_set_keys. intros [->|?]; done.
Qed.

Lemma dict_get_nodup_elem k v d : NoDup d.*1 → (k, v) ∈ d → dict_get k d = Some v.
Proof.
  induction d as [|[k0 v0] d IH]; simpl; [by intros _ ?%not_elem_of_nil|].
  intros [Hn Hd]%NoDup_cons [[= -> ->]|Hin]%elem_of_cons; [by rewrite decide_True|].
  rewrite decide_False; [by apply IH|]. intros ->. apply Hn, list_elem_of_fmap. by exists (k0, v).
Qed.

Lemma dict_get_Some_elem k v d : dict_get k d = Some v → (k, v) ∈ d.
Proof.
  induction d as [|[k' v'] d IH]; simpl; [done|].
  case_decide; [intros [= <-]; subst; left|intros; right; auto].
Qed.

Lemma dict_del_length k d :
  length (dict_del k d) =
  match dict_get k d with Some _ => pred (length d) | None => length d end.
Proof.
  induction d as [|[k' v'] d IH]; simpl; [done|]. case_decide; simpl; [lia|].
  rewrite IH. destruct (dict_get k d) eqn:E; [|lia].
  by destruct d.
Qed.

Lemma dict_del_length_le k d : (length (dict_del k d) ≤ length d)%nat.
Proof. rewrite dict_del_length. destruct (dict_get k d); lia. Qed.

Lemma dict_set_length_le k v d : (length (dict_set k v d) ≤ S (length d))%nat.
Proof. induction d as [|[k' v'] d IH]; simpl; [done|]. case_decide; simpl; lia. Qed.

Lemma elem_of_dict_del p k d : p ∈ dict_del k d → p ∈ d.
Proof.
  induction d as [|[k' v'] d IH]; simpl; [done|].
  case_decide; [by right|]. rewrite !elem_of_cons. intros [->|?]; auto.
Qed.

Lemma NoDup_dict_del k d : NoDup d.*1 → NoDup (dict_del k d).*1.
Proof.
  induction d as [|[k' v'] d IH]; simpl; [done|]. intros [Hn Hd]%NoDup_cons.
  case_decide; [done|]. simpl. apply NoDup_cons. split; [|auto].
  intros ([k'' v''] & -> & Hin)%list_elem_of_fmap. apply Hn, list_elem_of_fmap.
  exists (k'', v''). split; [done|]. by eapply elem_of_dict_del.
Qed.

Lemma dict_get_del k d : NoDup d.*1 → dict_get k (dict_del k d) = None.
Proof.
  induction d as [|[k' v'] d IH]; simpl; [done|].
  intros [Hn Hd]%NoDup_cons. case_decide as Hk; simpl.
  - subst. destruct (dict_get k' d) eqn:E; [|done]. exfalso. apply Hn.
    apply dict_get_Some_elem in E. apply list_elem_of_fmap. by exists (k', v).
  - rewrite decide_False by done. auto.
Qed.

Lemma dict_get_del_ne k k' d : k ≠ k' → dict_get k (dict_del k' d) = dict_get k d.
Proof.
  intros Hne. induction d as [|[k'' v''] d IH]; simpl; [done|].
  destruct (decide (k' = k'')); simpl; repeat case_decide; simplify_eq; done.
Qed.

(** A comprehension maps a key to its last element. *)
Lemma dict_get_comp {A} (kf : A → K) (vf : A → V) k xs :
  dict_get k (dict_comp kf vf xs) = vf <$> last (filter (λ x, kf x = k) xs).
Proof.
  unfold dict_comp. induction xs as [|x xs IH] using rev_ind; [done|].
  rewrite foldl_snoc, filter_app, filter_cons, filter_nil.
  destruct (decide (kf x = k)) as [<-|Hne].
  - by rewrite dict_get_set, last_snoc.
  - by rewrite dict_get_set_ne, IH, app_nil_r by done.
Qed.
End dict_facts.

(** ** Sorting facts *)

Section sorted_facts.
Context {A : Type} (leb : A → A → bool).
Hypothesis leb_total : ∀ x y, leb x y = false → leb y x = true.
Hypothesis leb_trans : ∀ x y z, leb x y = true → leb y z = true → leb x z = true.

Lemma insert_by_perm x l : insert_by leb x l ≡ₚ x :: l.
Proof.
  induction l as [|y l IH]; simpl; [done|]. destruct (leb x y); [done|].
  rewrite IH. apply Permutation_swap.
Qed.

Lemma sorted_by_perm l : sorted_by leb l ≡ₚ l.
Proof. induction l as [|x l IH]; simpl; [done|]. by rewrite insert_by_perm, IH. Qed.

Lemma insert_by_sorted x l :
  StronglySorted (λ a b, leb a b = true) l →
  StronglySorted (λ a b, leb a b = true) (insert_by leb x l).
Proof.
  induction 1 as [|y l Hl IH Hy]; simpl; [by repeat constructor|].
  destruct (leb x y) eqn:E.
  - constructor; [by constructor|]. constructor; [done|].
    eapply Forall_impl; [done|]. simpl. eauto.
  - constructor; [done|]. rewrite insert_by_perm. constructor; auto.
Qed.

Lemma sorted_by_sorted l : StronglySorted (λ a b, leb a b = true) (sorted_by leb l).
Proof. induction l; simpl; [constructor|by apply insert_by_sorted]. Qed.

(** Stability: any class of mutually tied elements keeps its input order. *)
Lemma insert_by_filter (P : A → bool) x l :
  (∀ a b, P a = true → P b = true → leb a b = true) →
  filter P (insert_by leb x l) = filter P (x :: l).
Proof.
  intros HP. induction l as [|y l IH]; [done|]. simpl insert_by.
  destruct (leb x y) eqn:E; [done|]. rewrite !filter_cons, IH, filter_cons.
  destruct (decide (P y)) as [Hy|], (decide (P x)) as [Hx|]; try done.
  rewrite (HP x y) in E by (by apply Is_true_true). done.
Qed.

Lemma sorted_by_stable (P : A → bool) l :
  (∀ a b, P a = true → P b = true → leb a b = true) →
  filter P (sorted_by leb l) = filter P l.
Proof.
  intros HP. induction l as [|x l IH]; [done|]. simpl.
  rewrite insert_by_filter by done. by rewrite !filter_cons, IH.
Qed.

(** The head of a sort is no later than anything in the input. *)
Lemma sorted_by_head_least x l l' :
  sorted_by leb l = x :: l' → ∀ y, y ∈ l → leb x x = true → leb x y = true.
Proof.
  intros Hs y Hy Hxx. pose proof (sorted_by_sorted l) as Hsort. rewrite Hs in Hsort.
  rewrite <-(sorted_by_perm l), Hs, elem_of_cons in Hy.
  inversion_clear Hsort as [|? ? ? HF]. destruct Hy as [->|Hy]; [done|].
  rewrite Forall_forall in HF. auto.
Qed.
End sorted_facts.

(** ** Filters *)

(** The one element of a list that satisfies a predicate is the last that does. *)
Lemma last_unique {A} (P : A → Prop) `{∀ x, Decision (P x)} (l : list A) x :
  x ∈ l → P x → (∀ y, y ∈ l → P y → y = x) → last (filter P l) = Some x.
Proof.
  intros Hx HP Hu. destruct (last (filter P l)) as [y|] eqn:El.
  - apply last_Some_elem_of, list_elem_of_filter in El as [? ?]. f_equal. by apply Hu.
  - apply last_None in El. assert (x ∈ filter P l) as Hin by by apply list_elem_of_filter. rewrite El in Hin. by apply not_elem_of_nil in Hin.
Qed.

Lemma NoDup_fmap_inj_on {A B} (f : A → B) (l : list A) x y : NoDup (f <$> l) → x ∈ l → y ∈ l → f x = f y → x = y.
Proof.
  induction l as [|z l IH]; [intros _ Hx; by apply not_elem_of_nil in Hx|]. rewrite fmap_cons, NoDup_cons. intros [Hz Hl].
  rewrite !elem_of_cons. intros [->|Hx] [->|Hy] Hxy; [done| | |by apply IH].
  - destruct Hz. rewrite Hxy. by apply list_elem_of_fmap_2.
  - destruct Hz. rewrite <-Hxy. by apply list_elem_of_fmap_2.
Qed.

Lemma filter_none {A} (P : A → Prop) `{∀ r, Decision (P r)} (l : list A) :
  (∀ x, x ∈ l → ¬ P x) → filter P l = [].
Proof.
  induction l as [|x l IH]; intros Hl; [done|]. rewrite filter_cons_False.
  - apply IH. intros y Hy. apply Hl. by right.
  - apply Hl. left.
Qed.

Lemma filter_all {A} (P : A → Prop) `{∀ r, Decision (P r)} (l : list A) :
  (∀ x, x ∈ l → P x) → filter P l = l.
Proof.
  induction l as [|x l IH]; intros Hl; [done|]. rewrite filter_cons_True.
  - rewrite IH; [done|]. intros y Hy. apply Hl. by right.
  - apply Hl. left.
Qed.

(** ** Text facts *)

Lemma length_append s t : String.length (s +:+ t) = (String.length s + String.length t)%nat.
Proof. induction s as [|c s IH]; [done|]. simpl. by rewrite IH. Qed.

Lemma str_drop_length n s : String.length (str_drop n s) = (String.length s - n)%nat.
Proof. revert s. induction n as [|n IH]; intros [|c s]; try done. simpl. apply IH. Qed.

Lemma string_app_assoc (s t u : string) : (s +:+ t) +:+ u = s +:+ (t +:+ u).
Proof.
  induction s as [|c s IH]; [done|].
  change ((String c s +:+ t) +:+ u) with (String c ((s +:+ t) +:+ u)). by rewrite IH.
Qed.

Lemma string_app_empty (s : string) : s +:+ "" = s.
Proof.
  induction s as [|c s IH]; [done|].
  change (String c s +:+ "") with (String c (s +:+ "")). by rewrite IH.
Qed.

Lemma prefix_app (p s : string) : String.prefix p (p +:+ s) = true.
Proof.
  induction p as [|c p IH]; simpl; [by destruct s|]. by destruct (ascii_dec c c).
Qed.

Lemma removeprefix_app (p t : string) : removeprefix p (p +:+ t) = t.
Proof. unfold removeprefix. rewrite prefix_app. induction p as [|c p IH]; [done|exact IH]. Qed.

Lemma str_contains_prefix (p s : string) : str_contains p (p +:+ s) = true.
Proof. destruct p; simpl; [by destruct s|]. rewrite prefix_app. by destruct (ascii_dec _ _). Qed.

Lemma str_contains_app_r (p s t : string) :
  str_contains p t = true → str_contains p (s +:+ t) = true.
Proof.
  intros H. induction s as [|c s IH]; [done|]. simpl. by rewrite IH, orb_true_r.
Qed.

Lemma str_map_app f (s t : string) : str_map f (s +:+ t) = str_map f s +:+ str_map f t.
Proof. induction s as [|c s IH]; simpl; [done|]. by rewrite IH. Qed.

Lemma lower_app (s t : string) : lower (s +:+ t) = lower s +:+ lower t.
Proof. apply str_map_app. Qed.

Create Rewrite HintDb wp.
#[export] Hint Rewrite @wp_ret @wp_raise @wp_get_state @wp_bind @wp_catch @wp_try_else @wp_lift_res : wp.
