(* ===== verification/PyFloat.v ===== *)
(** * Python floats, and the text Python prints them as

    A Python [float] is an IEEE-754 binary64.  The specification floats of the
    Standard Library define its arithmetic bit for bit, so every comparison,
    sum and product of the modelled code is the one the interpreter computes,
    NaN, infinities and signed zeros included.  The second half of the file is
    [int()], [round()], [sum()], [float(str)] and the format specifications
    ([:g], [:.1f], [str]) the code applies to them. *)
From Stdlib Require Export Floats.SpecFloat.
From Stdlib Require Import Ascii String.
From S2P Require Import Prelude.
Local Open Scope string_scope.
Local Open Scope Z_scope.

Definition prec : Z := 53.
Definition emax : Z := 1024.

Abbreviation float := spec_float.

#[export] Instance float_eq_dec : EqDecision float.
Proof. solve_decision. Defined.

Definition fadd : float → float → float := SFadd prec emax.
Definition fsub : float → float → float := SFsub prec emax.
Definition fmul : float → float → float := SFmul prec emax.
Definition fdiv : float → float → float := SFdiv prec emax.
Definition fopp : float → float := SFopp.
Definition fabs : float → float := SFabs.

(** [x == y], [x < y], [x <= y]: false as soon as one side is NaN. *)
Definition feqb : float → float → bool := SFeqb.
Definition fltb : float → float → bool := SFltb.
Definition fleb : float → float → bool := SFleb.

Definition fzero : float := S754_zero false.

Definition is_nan (x : float) : bool :=
  match x with S754_nan => true | _ => false end.

(** [math.isfinite] *)
Definition is_finite (x : float) : bool :=
  match x with S754_zero _ | S754_finite _ _ _ => true | _ => false end.

(** Truth value of a float: only the zeros are false (NaN is true). *)
Definition ftruthy (x : float) : bool :=
  match x with S754_zero _ => false | _ => true end.

(** The float nearest to [m * 2^e], ties to even. *)
Definition of_Z2 (m e : Z) : float := binary_normalize prec emax m e false.

(** The float nearest to the integer [z]; infinite where [float(z)] raises. *)
Definition of_Z (z : Z) : float := of_Z2 z 0.

(** The float nearest to the decimal [m * 10^e]: what a literal denotes. *)
Definition of_decimal (neg : bool) (m : N) (e : Z) : float :=
  match m with
  | N0 => S754_zero neg
  | Npos m =>
      match e with
      | Zneg k =>
          let '(q, e', l) :=
            SFdiv_core_binary prec emax (Zpos m) 0 (10 ^ Zpos k) 0 in
          binary_round_aux prec emax neg q e' l
      | _ =>
          let z := Zpos m * 10 ^ e in
          of_Z2 (if neg then - z else z) 0
      end
  end.

(** ** Integers out of floats *)

(** [n / d] rounded half to even, for [0 < d]: Python's [round]. *)
Definition round_div (n d : Z) : Z :=
  let q := n / d in
  let r := n mod d in
  match 2 * r ?= d with
  | Lt => q
  | Gt => q + 1
  | Eq => if Z.even q then q else q + 1
  end.

(** Exact value of a finite float as [n / d], [0 < d]. *)
Definition ratio (s : bool) (m : positive) (e : Z) : Z * Z :=
  let n := if s then Zneg m else Zpos m in
  match e with
  | Zneg k => (n, 2 ^ Zpos k)
  | _ => (n * 2 ^ e, 1)
  end.

Inductive int_error := NaNToInt | InfToInt.

(** [round(x)]: [ValueError] on NaN, [OverflowError] on an infinity. *)
Definition round_int (x : float) : res int_error Z :=
  match x with
  | S754_zero _ => Ok 0
  | S754_nan => Raise NaNToInt
  | S754_infinity _ => Raise InfToInt
  | S754_finite s m e => let '(n, d) := ratio s m e in Ok (round_div n d)
  end.

(** [int(x)]: towards zero. *)
Definition trunc_int (x : float) : res int_error Z :=
  match x with
  | S754_zero _ => Ok 0
  | S754_nan => Raise NaNToInt
  | S754_infinity _ => Raise InfToInt
  | S754_finite s m e => let '(n, d) := ratio s m e in Ok (Z.quot n d)
  end.

(** [a / b] of two integers, rounded once; [0 < b]. *)
Definition ftruediv (a b : Z) : float :=
  if a =? 0 then fzero
  else
    let '(q, e, l) := SFdiv_core_binary prec emax (Z.abs a) 0 b 0 in
    binary_round_aux prec emax (a <? 0) q e l.

(** [math.ceil(x)] *)
Definition ceil_int (x : float) : res int_error Z :=
  match x with
  | S754_zero _ => Ok 0
  | S754_nan => Raise NaNToInt
  | S754_infinity _ => Raise InfToInt
  | S754_finite s m e => let '(n, d) := ratio s m e in Ok (- (- n / d))
  end.

(** ** [sum()] over floats

    CPython's [sum] starts from the integer 0 and, once it meets a float,
    compensates the rounding error of every addition (Neumaier). *)
Definition neumaier (acc : float * float) (x : float) : float * float :=
  let '(s, c) := acc in
  let t := fadd s x in
  let c' := if fleb (fabs x) (fabs s) then fadd c (fadd (fsub s t) x)
            else fadd c (fadd (fsub x t) s) in
  (t, c').

Definition fsum (xs : list float) : float :=
  let '(s, c) := fold_left neumaier xs (fzero, fzero) in
  if ftruthy c && is_finite c then fadd s c else s.

(** ** Decimal text *)

Definition digit_char (d : Z) : ascii := ascii_of_N (48 + Z.to_N d).

(** Decimal digits of [n] most significant first, at least [w] of them. *)
Fixpoint digits_fuel (fuel : nat) (w : Z) (n : Z) (acc : string) : string :=
  match fuel with
  | O => acc
  | S f => if (n =? 0) && (w <=? 0) then acc
           else digits_fuel f (w - 1) (n / 10) (String (digit_char (n mod 10)) acc)
  end.

(** [n] in decimal, zero-padded to [w] digits: [f"{n:0{w}d}"] for [0 <= n].
    A number has no more decimal digits than binary ones. *)
Definition pad_digits (w : Z) (n : Z) : string :=
  digits_fuel (Z.to_nat (Z.max w (Z.log2 n + 2))) (Z.max w 1) n "".

(** [str(z)] *)
Definition str_Z (z : Z) : string :=
  if z <? 0 then "-" ++ pad_digits 1 (- z) else pad_digits 1 z.

(** [n / d * 10^p] rounded half to even *)
Definition scale_round (n d p : Z) : Z :=
  if 0 <=? p then round_div (n * 10 ^ p) d else round_div n (d * 10 ^ (- p)).

Definition sign_text (s : bool) : string := if s then "-" else "".

(** [p] decimals of [|n| / d], the point included when [0 < p] *)
Definition fixed_text (p n d : Z) : string :=
  let v := scale_round n d p in
  pad_digits 1 (v / 10 ^ p) ++ (if 0 <? p then "." ++ pad_digits p (v mod 10 ^ p) else "").

(** [f"{x:.{p}f}"] *)
Definition fmt_fixed (p : Z) (x : float) : string :=
  match x with
  | S754_nan => "nan"
  | S754_infinity s => sign_text s ++ "inf"
  | S754_zero s => sign_text s ++ fixed_text p 0 1
  | S754_finite s m e => let '(n, d) := ratio false m e in sign_text s ++ fixed_text p n d
  end.

(** The [k] with [10^k <= n/d < 10^(k+1)], searched downwards from a bound. *)
Fixpoint exp10_fuel (fuel : nat) (n d k : Z) : Z :=
  match fuel with
  | O => k
  | S f =>
      let '(a, b) := if 0 <=? k then (n, d * 10 ^ k) else (n * 10 ^ (- k), d) in
      if b <=? a then k else exp10_fuel f n d (k - 1)
  end.

(** Decimal exponent of [n/d]; starts from an upper bound at most 3 too big. *)
Definition exp10 (n d : Z) : Z :=
  let l := Z.log2 n - Z.log2 d + 1 in
  exp10_fuel 400 n d (l * 30103 / 100000 + 1).

(** [k] significant digits of [n/d], and the decimal exponent of the result. *)
Definition sci_digits (k n d : Z) : Z * Z :=
  let x := exp10 n d in
  let v := scale_round n d (k - 1 - x) in
  if v =? 10 ^ k then (10 ^ (k - 1), x + 1) else (v, x).

(** Text without its trailing zeros. *)
Fixpoint strip_zeros (s : string) : string :=
  match s with
  | EmptyString => ""
  | String c s' =>
      match strip_zeros s' with
      | "" => if Ascii.eqb c "0" then "" else String c ""
      | t => String c t
      end
  end.

(** Exponent of a scientific notation: a sign and at least two digits. *)
Definition exp_text (x : Z) : string :=
  (if x <? 0 then "e-" else "e+") ++ pad_digits 2 (Z.abs x).

(** A decimal [v * 10^(x-k+1)] of [k] digits, laid out as ['g'] and [repr] do:
    scientific outside [[-4, hi)], trailing zeros dropped, [tail] when no
    fraction is left. *)
Definition layout (k hi v x : Z) (tail : string) : string :=
  if (x <? -4) || (hi <=? x) then
    let ds := pad_digits k v in
    let frac := strip_zeros (substring 1 (String.length ds) ds) in
    substring 0 1 ds ++ (match frac with "" => "" | _ => "." ++ frac end) ++ exp_text x
  else if 0 <=? x then
    let ip := if x <? k then v / 10 ^ (k - 1 - x) else v * 10 ^ (x - k + 1) in
    let frac := if x <? k - 1
                then strip_zeros (pad_digits (k - 1 - x) (v mod 10 ^ (k - 1 - x))) else "" in
    pad_digits 1 ip ++ (match frac with "" => tail | _ => "." ++ frac end)
  else "0." ++ strip_zeros (pad_digits (k - 1 - x) v).

(** [f"{x:g}"] *)
Definition fmt_g (x : float) : string :=
  match x with
  | S754_nan => "nan"
  | S754_infinity s => sign_text s ++ "inf"
  | S754_zero s => sign_text s ++ "0"
  | S754_finite s m e =>
      let '(n, d) := ratio false m e in
      let '(v, x) := sci_digits 6 n d in
      sign_text s ++ layout 6 6 v x ""
  end.

(** The shortest decimal that reads back as the float, nearest first. *)
Fixpoint shortest_fuel (fuel : nat) (k n d : Z) (f : float) : Z * Z * Z :=
  let x := exp10 n d in
  let p := k - 1 - x in
  let v := scale_round n d p in
  let back w := feqb (of_decimal false (Z.to_N w) (- p)) f in
  let other := if 0 <=? p then (if v * d <=? n * 10 ^ p then v + 1 else v - 1)
               else (if v * (d * 10 ^ (- p)) <=? n then v + 1 else v - 1) in
  match fuel with
  | O => (k, v, x)
  | S fu =>
      if back v then (k, v, x)
      else if back other then (k, other, x)
      else shortest_fuel fu (k + 1) n d f
  end.

(** [repr(x)], [str(x)] *)
Definition str_float (x : float) : string :=
  match x with
  | S754_nan => "nan"
  | S754_infinity s => sign_text s ++ "inf"
  | S754_zero s => sign_text s ++ "0.0"
  | S754_finite s m e =>
      let '(n, d) := ratio false m e in
      let '(k, v, x) := shortest_fuel 17 1 n d (S754_finite false m e) in
      let '(v, x) := if v =? 10 ^ k then (10 ^ (k - 1), x + 1) else (v, x) in
      sign_text s ++ layout k 16 v x ".0"
  end.

(** ** Facts used by the clients *)

Create Rewrite HintDb pyfloat.

Section float_facts.
Implicit Types x y : float.

Lemma shl_align_self m e : shl_align m e e = (m, e).
Proof. unfold shl_align. by rewrite Z.sub_diag. Qed.

(** A finite float plus its opposite is the positive zero. *)
Lemma fadd_fopp x : is_finite x = true → fadd x (fopp x) = fzero.
Proof.
  destruct x as [[]| | |s m e]; try done. intros _. unfold fadd, fopp; simpl.
  rewrite Z.min_id, shl_align_self. cbv [fst cond_Zopp].
  destruct s; cbn [negb]; rewrite <-?Z.opp_add_distr; by rewrite ?Z.add_opp_diag_l, ?Z.add_opp_diag_r.
Qed.

(** A finite float minus itself is the positive zero. *)
Lemma fsub_diag x : is_finite x = true → fsub x x = fzero.
Proof.
  destruct x as [[]| | |s m e]; try done. intros _. unfold fsub; simpl.
  rewrite Z.min_id, shl_align_self. cbv [fst]. by rewrite Z.sub_diag.
Qed.

Lemma fadd_fzero_l x : feqb x fzero = false → fadd fzero x = x.
Proof. by destruct x as [[]| | |]. Qed.

Lemma fabs_fopp x : fabs (fopp x) = fabs x.
Proof. by destruct x. Qed.

Lemma fopp_involutive x : fopp (fopp x) = x.
Proof. by destruct x as [[]|[]| |[]]. Qed.

Lemma fltb_fzero_fopp x : fltb (fopp x) fzero = fltb fzero x.
Proof. by destruct x as [[]|[]| |[]]. Qed.

Lemma fltb_fzero_l_fopp x : fltb fzero (fopp x) = fltb x fzero.
Proof. by destruct x as [[]|[]| |[]]. Qed.

Lemma feqb_fopp_fzero x : feqb (fopp x) fzero = feqb x fzero.
Proof. by destruct x as [[]|[]| |[]]. Qed.

Lemma is_finite_fopp x : is_finite (fopp x) = is_finite x.
Proof. by destruct x. Qed.

(** Below zero, [abs] is the opposite; above, it is the identity. *)
Lemma fabs_neg x : fltb x fzero = true → fabs x = fopp x.
Proof. by destruct x as [[]|[]| |[]]. Qed.

Lemma fabs_pos x : fltb fzero x = true → fabs x = x.
Proof. by destruct x as [[]|[]| |[]]. Qed.

Lemma fabs_fzero x : feqb x fzero = true → fabs x = fzero.
Proof. by destruct x as [[]|[]| |[]]. Qed.

Lemma fltb_fzero_fabs x :
  fltb x fzero = true ∨ fltb fzero x = true → fltb fzero (fabs x) = true.
Proof. destruct x as [[]|[]| |[]]; intros [?|?]; done. Qed.

(** Trichotomy of a number (anything but NaN) around zero. *)
Lemma fzero_trichotomy x : is_nan x = false →
  (fltb x fzero = true ∧ feqb x fzero = false ∧ fltb fzero x = false) ∨
  (fltb x fzero = false ∧ feqb x fzero = true ∧ fltb fzero x = false) ∨
  (fltb x fzero = false ∧ feqb x fzero = false ∧ fltb fzero x = true).
Proof. destruct x as [[]|[]| |[]]; try done; cbv; tauto. Qed.

Lemma fltb_asym x y : fltb x y = true → fltb y x = false.
Proof.
  unfold fltb, SFltb.
  destruct x as [[]|[]| |[] m1 e1], y as [[]|[]| |[] m2 e2]; try done; simpl;
    rewrite (Z.compare_antisym e1 e2); destruct (Z.compare e1 e2); simpl; try done;
    change (Pos.compare_cont Eq) with Pos.compare;
    rewrite (Pos.compare_antisym m1 m2); by destruct (Pos.compare m1 m2).
Qed.
End float_facts.

(** ** The order of the numbers *)

(** Where a float that is a number stands: its class by sign, then exponent and
    mantissa, mirrored below zero. *)
Definition rank (x : float) : Z * Z * Z :=
  match x with
  | S754_infinity true => (-2, 0, 0)
  | S754_finite true m e => (-1, - e, Zneg m)
  | S754_zero _ | S754_nan => (0, 0, 0)
  | S754_finite false m e => (1, e, Zpos m)
  | S754_infinity false => (2, 0, 0)
  end.

Definition below (a b : Z * Z * Z) : Prop :=
  let '(a1, a2, a3) := a in
  let '(b1, b2, b3) := b in
  a1 < b1 ∨ a1 = b1 ∧ (a2 < b2 ∨ a2 = b2 ∧ a3 < b3).

Lemma below_trans a b c : below a b → below b c → below a c.
Proof. destruct a as [[??]?], b as [[??]?], c as [[??]?]. simpl. lia. Qed.

Lemma below_irrefl a : ¬ below a a.
Proof. destruct a as [[??]?]. simpl. lia. Qed.

Lemma below_total a b : below a b ∨ a = b ∨ below b a.
Proof.
  destruct a as [[a1 a2] a3], b as [[b1 b2] b3]. simpl.
  destruct (Z.lt_trichotomy a1 b1) as [?|[->|?]]; [tauto| |tauto].
  destruct (Z.lt_trichotomy a2 b2) as [?|[->|?]]; [tauto| |tauto].
  destruct (Z.lt_trichotomy a3 b3) as [?|[->|?]]; tauto.
Qed.

Lemma fltb_below x y : is_nan x = false → is_nan y = false → fltb x y = true ↔ below (rank x) (rank y).
Proof.
  unfold fltb, SFltb, SFcompare.
  destruct x as [[]|[]| |[] m e], y as [[]|[]| |[] m' e']; intros Hx Hy; try done; simpl;
    try (split; [intros ?; lia|intros ?; try lia; done]).
  - destruct (Z.compare_spec e e') as [->|?|?]; [|split; [done|lia]|split; [lia|done]].
    change (Pos.compare_cont Eq m m') with (Pos.compare m m').
    destruct (Pos.compare_spec m m') as [->|?|?]; simpl; (split; [try done; lia|try done; lia]).
  - destruct (Z.compare_spec e e') as [->|?|?]; [|split; [lia|done]|split; [done|lia]].
    change (Pos.compare_cont Eq m m') with (Pos.compare m m').
    destruct (Pos.compare_spec m m') as [->|?|?]; simpl; (split; [try done; lia|try done; lia]).
Qed.

#[export] Hint Rewrite fabs_fopp fopp_involutive fltb_fzero_fopp fltb_fzero_l_fopp
  feqb_fopp_fzero is_finite_fopp : pyfloat.

(** ** Exact quotients *)

Lemma iter_pos_nat {A} (f : A → A) p x : SpecFloat.iter_pos f p x = Nat.iter (Pos.to_nat p) f x.
Proof.
  revert x. induction p as [p IH|p IH|]; intros x; cbn [SpecFloat.iter_pos]; [| |done].
  - rewrite !IH, <-Nat.iter_succ_r, <-Nat.iter_add. f_equal. lia.
  - rewrite !IH, <-Nat.iter_add. f_equal. lia.
Qed.

Lemma shr_1_double m : 0 <= m →
  shr_1 (Build_shr_record (2 * m) false false) = Build_shr_record m false false.
Proof. by destruct m. Qed.

Lemma shr_iter_pow m k : 0 <= m →
  Nat.iter k shr_1 (Build_shr_record (m * 2 ^ Z.of_nat k) false false) =
  Build_shr_record m false false.
Proof.
  intros Hm. induction k as [|k IH]; [by rewrite Z.mul_1_r|].
  rewrite Nat.iter_succ_r.
  replace (m * 2 ^ Z.of_nat (S k)) with (2 * (m * 2 ^ Z.of_nat k))
    by (rewrite Nat2Z.inj_succ, Z.pow_succ_r; lia).
  rewrite shr_1_double; [done|]. apply Z.mul_nonneg_nonneg; [lia|apply Z.pow_nonneg; lia].
Qed.

Lemma Zdigits2_log2 m : 0 < m → Zdigits2 m = Z.log2 m + 1.
Proof.
  destruct m as [|p|p]; [lia| |lia]. intros _.
  induction p as [p IH|p IH|]; [| |done]; simpl Zdigits2 in *.
  - rewrite Pos2Z.inj_succ, IH. change (Zpos p~1) with (2 * Zpos p + 1). rewrite Z.log2_succ_double; lia.
  - rewrite Pos2Z.inj_succ, IH. change (Zpos p~0) with (2 * Zpos p). rewrite Z.log2_double; lia.
Qed.

Lemma log2_mul_pow m k : 0 < m → 0 <= k → Z.log2 (m * 2 ^ k) = Z.log2 m + k.
Proof. intros. rewrite Z.log2_mul_pow2 by lia. lia. Qed.

(** The value a mantissa and a non-positive exponent stand for. *)
Lemma trunc_scaled q k : 0 < q → 0 <= k →
  ∀ p, Zpos p = q * 2 ^ k → trunc_int (S754_finite false p (- k)) = Ok q.
Proof.
  intros Hq Hk p Hp. unfold trunc_int, ratio. destruct k as [|k|k]; [|simpl|lia].
  - simpl. rewrite Hp, Z.pow_0_r, !Z.mul_1_r. by rewrite Z.quot_1_r.
  - rewrite Hp. f_equal. apply Z.quot_mul. lia.
Qed.

(** A mantissa that has at most 53 significant bits is shifted without loss. *)
Lemma shr_fexp_exact q k : 0 < q < 2 ^ 53 → 0 <= k <= 900 →
  ∃ j, 0 <= j <= k ∧
    shr_fexp prec emax (q * 2 ^ k) (- k) loc_Exact = (Build_shr_record (q * 2 ^ j) false false, - j).
Proof.
  intros Hq Hk. unfold shr_fexp. simpl shr_record_of_loc.
  assert (0 < 2 ^ k) by (apply Z.pow_pos_nonneg; lia).
  assert (Z.log2 q < 53) by (apply Z.log2_lt_pow2; lia).
  pose proof (Z.log2_nonneg q).
  rewrite Zdigits2_log2, log2_mul_pow by nia.
  assert (fexp prec emax (Z.log2 q + k + 1 + - k) - - k = Z.log2 q + 1 - 53 + k) as ->.
  { unfold fexp, emin, prec, emax. lia. }
  unfold shr. destruct (Z.log2 q + 1 - 53 + k) as [|n|n] eqn:Hn.
  - exists k. split; [lia|done].
  - exists (k - Zpos n). split; [lia|]. rewrite iter_pos_nat.
    replace (q * 2 ^ k) with (q * 2 ^ (k - Zpos n) * 2 ^ Z.of_nat (Pos.to_nat n)).
    + rewrite shr_iter_pow; [f_equal; lia|]. apply Z.mul_nonneg_nonneg; [lia|apply Z.pow_nonneg; lia].
    + rewrite positive_nat_Z, <-Z.mul_assoc, <-Z.pow_add_r by lia. do 2 f_equal. lia.
  - exists k. split; [lia|done].
Qed.

(** Rounding an integer of at most 53 bits, given at any scale, loses nothing. *)
Lemma round_exact q k : 0 < q < 2 ^ 53 → 0 <= k <= 900 →
  trunc_int (binary_round_aux prec emax false (q * 2 ^ k) (- k) loc_Exact) = Ok q.
Proof.
  intros Hq Hk. unfold binary_round_aux.
  destruct (shr_fexp_exact q k Hq Hk) as (j & Hj & ->). simpl.
  destruct (shr_fexp_exact q j Hq ltac:(lia)) as (i & Hi & ->). simpl.
  assert (0 < 2 ^ i) by (apply Z.pow_pos_nonneg; lia).
  destruct (q * 2 ^ i) as [|p|p] eqn:Hp; [nia| |nia].
  rewrite (proj2 (Z.leb_le _ _)); [|unfold emax, prec; lia].
  apply trunc_scaled; [lia|lia|done].
Qed.

(** [int(a / b)] of an exact multiple: no rounding is visible below [2^53]. *)
Lemma trunc_truediv_exact q d : 0 <= q < 2 ^ 53 → 0 < d →
  trunc_int (ftruediv (q * d) d) = Ok q.
Proof.
  intros Hq Hd. unfold ftruediv. destruct (Z.eqb_spec (q * d) 0) as [Hz|Hz].
  { assert (q = 0) as -> by nia. done. }
  assert (0 < q) by nia. rewrite Z.abs_eq by nia.
  rewrite (proj2 (Z.ltb_ge _ _)) by nia.
  unfold SFdiv_core_binary. rewrite !Zdigits2_log2, !Z.add_0_r by nia.
  assert (Z.log2 (q * d) - Z.log2 d <= 53).
  { pose proof (Z.log2_mul_above q d ltac:(lia) ltac:(lia)).
    assert (Z.log2 q < 53) by (apply Z.log2_lt_pow2; lia). lia. }
  assert (0 <= Z.log2 (q * d) - Z.log2 d).
  { pose proof (Z.log2_mul_below q d ltac:(lia) ltac:(lia)). pose proof (Z.log2_nonneg q). lia. }
  set (k := 53 - (Z.log2 (q * d) - Z.log2 d)).
  assert (Z.min (fexp prec emax (Z.log2 (q * d) + 1 - (Z.log2 d + 1))) (0 - 0) = - k) as ->.
  { unfold fexp, emin, prec, emax, k. lia. }
  replace (0 - 0 - - k) with k by lia.
  assert (match k with 0 => q * d | Zpos _ => Z.shiftl (q * d) k | Zneg _ => 0 end = q * 2 ^ k * d) as ->.
  { assert (0 <= k) by lia. destruct k as [|p|p] eqn:Hk; [lia| |lia].
    rewrite Z.shiftl_mul_pow2 by lia. lia. }
  pose proof (Z_div_mod (q * 2 ^ k * d) d ltac:(lia)) as Hdiv.
  destruct (Z.div_eucl (q * 2 ^ k * d) d) as [a r].
  destruct Hdiv as [Ha Hr].
  assert (∀ x, x * d = d * a + r → r = 0 ∧ a = x) as Hx.
  { intros x Hx. assert (d * (x - a) = r) by lia.
    assert (x - a = 0) by (destruct (Z.lt_trichotomy (x - a) 0) as [?|[?|?]]; [nia|done|nia]). nia. }
  destruct (Hx _ Ha) as [-> ->].
  assert (new_location d 0 = loc_Exact) as -> by (unfold new_location; by destruct (Z.even d)).
  apply round_exact; lia.
Qed.

(** On numbers, [<] is a strict weak order. *)
Lemma fltb_irrefl x : fltb x x = false.
Proof. destruct (fltb x x) eqn:E; [|done]. pose proof (fltb_asym x x E). congruence. Qed.

Lemma fltb_trans x y z : is_nan x = false → is_nan y = false → is_nan z = false →
  fltb x y = true → fltb y z = true → fltb x z = true.
Proof. intros Hx Hy Hz. rewrite !fltb_below by done. apply below_trans. Qed.

(** [y <= x] and [z <= y] give [z <= x]. *)
Lemma fltb_false_trans x y z : is_nan x = false → is_nan y = false → is_nan z = false →
  fltb x y = false → fltb y z = false → fltb x z = false.
Proof.
  intros Hx Hy Hz H1 H2. destruct (fltb x z) eqn:E; [|done].
  pose proof (proj1 (fltb_below x z Hx Hz) E) as Hb.
  destruct (below_total (rank x) (rank y)) as [Hlt|[Heq|Hlt]].
  - by rewrite (proj2 (fltb_below x y Hx Hy) Hlt) in H1.
  - rewrite Heq in Hb. by rewrite (proj2 (fltb_below y z Hy Hz) Hb) in H2.
  - pose proof (below_trans _ _ _ Hlt Hb) as Hc. by rewrite (proj2 (fltb_below y z Hy Hz) Hc) in H2.
Qed.

(** ** What rounding never makes of a number *)

Lemma shr_1_nonneg r : 0 <= shr_m r → 0 <= shr_m (shr_1 r).
Proof. destruct r as [m r s]. destruct m as [|[]|]; simpl; lia. Qed.

Lemma shr_fexp_nonneg m e l : 0 <= m → 0 <= shr_m (shr_fexp prec emax m e l).1.
Proof.
  intros Hm. unfold shr_fexp, shr.
  assert (0 <= shr_m (shr_record_of_loc m l)) as H0 by (by destruct l as [|[]]).
  destruct (fexp _ _ _ - e) as [|p|p]; simpl; [done| |done].
  rewrite iter_pos_nat. induction (Pos.to_nat p) as [|n IH]; [done|]. simpl. by apply shr_1_nonneg.
Qed.

Lemma round_not_nan s m e l : 0 <= m → is_nan (binary_round_aux prec emax s m e l) = false.
Proof.
  intros Hm. unfold binary_round_aux.
  pose proof (shr_fexp_nonneg m e l Hm) as H1. destruct (shr_fexp _ _ m e l) as [r1 e1]. simpl in H1.
  assert (0 <= round_nearest_even (shr_m r1) (loc_of_shr_record r1)) as H2.
  { unfold round_nearest_even. destruct (loc_of_shr_record r1) as [|[]]; try destruct (Z.even _); lia. }
  pose proof (shr_fexp_nonneg _ e1 loc_Exact H2) as H3. destruct (shr_fexp _ _ _ e1 loc_Exact) as [r2 e2].
  simpl in H3. destruct (shr_m r2); [done| |lia]. by destruct (_ <=? _).
Qed.

Lemma ftruediv_not_nan a b : 0 < b → is_nan (ftruediv a b) = false.
Proof.
  intros Hb. unfold ftruediv. destruct (Z.eqb_spec a 0) as [|Ha]; [done|].
  unfold SFdiv_core_binary. set (s := (0 - 0 - _)).
  assert (∀ m, 0 <= m → is_nan (let '(q, e, l) := (let '(q, r) := Z.div_eucl m b in
     (q, Z.min (fexp prec emax (Zdigits2 (Z.abs a) + 0 - (Zdigits2 b + 0))) (0 - 0), new_location b r))
     in binary_round_aux prec emax (a <? 0) q e l) = false) as Hm.
  { intros m Hm. pose proof (Z_div_mod m b ltac:(lia)) as Hd.
    destruct (Z.div_eucl m b) as [q r]. destruct Hd as [-> Hr].
    apply round_not_nan. nia. }
  destruct s; apply Hm; [lia|apply Z.shiftl_nonneg; lia|lia].
Qed.

Lemma fsub_not_nan x y : is_nan x = false → is_finite y = true → is_nan (fsub x y) = false.
Proof.
  destruct x as [[]|[]| |sx mx ex], y as [[]|[]| |sy my ey]; try done; intros _ _;
    unfold fsub, SFsub, binary_normalize, binary_round;
    destruct (_ - _) as [|p|p]; try done; destruct (shl_align _ _ _); by apply round_not_nan.
Qed.

Lemma fabs_not_nan x : is_nan x = false → is_nan (fabs x) = false.
Proof. by destruct x. Qed.

(** ** Integers as floats *)
Lemma trunc_fopp x q : trunc_int x = Ok q → trunc_int (fopp x) = Ok (- q).
Proof.
  destruct x as [s|s| |s m e]; try done; [by intros [= <-]|]. unfold fopp. cbn [SFopp]. unfold trunc_int, ratio.
  destruct e as [|e|e]; intros [= <-]; f_equal; (rewrite <-Z.quot_opp_l by (try done; apply Z.pow_nonzero; done)); f_equal; destruct s; cbn [negb]; lia.
Qed.

Lemma binary_round_opp m e : binary_round prec emax true m e = fopp (binary_round prec emax false m e).
Proof.
  unfold binary_round. destruct (shl_align _ _ _) as [mz ez]. unfold binary_round_aux.
  destruct (shr_fexp _ _ _ _ _) as [r1 e1]. destruct (shr_fexp _ _ _ _ _) as [r2 e2].
  destruct (shr_m r2); try done. by destruct (_ <=? _).
Qed.

Lemma digits2_pos_log2 p : Zpos (digits2_pos p) = Z.log2 (Zpos p) + 1.
Proof. rewrite <-Zdigits2_log2 by lia. done. Qed.

Lemma shift_pos_pow p k : Zpos (Pos.iter xO p k) = Zpos p * 2 ^ Zpos k.
Proof.
  induction k as [|k IH] using Pos.peano_ind; [cbn; lia|]. rewrite Pos.iter_succ, Pos2Z.inj_succ, Z.pow_succ_r by lia.
  change (Zpos (Pos.iter xO p k)~0) with (2 * Zpos (Pos.iter xO p k)). rewrite IH. lia.
Qed.

Lemma trunc_of_pos p : Zpos p < 2 ^ 53 → trunc_int (of_Z (Zpos p)) = Ok (Zpos p).
Proof.
  intros Hp. unfold of_Z, of_Z2, binary_normalize, binary_round.
  assert (Z.log2 (Zpos p) < 53) by (apply Z.log2_lt_pow2; lia). pose proof (Z.log2_nonneg (Zpos p)).
  assert (fexp prec emax (Zpos (digits2_pos p) + 0) = Z.log2 (Zpos p) - 52) as ->.
  { rewrite digits2_pos_log2. unfold fexp, emin, prec, emax. lia. }
  unfold shl_align. destruct (Z.log2 (Zpos p) - 52 - 0) as [|k|k] eqn:Hk; [|lia|].
  - rewrite <-(Z.mul_1_r (Zpos p)) at 1. apply (round_exact (Zpos p) 0); lia.
  - change (shift_pos k p) with (Pos.iter xO p k). rewrite shift_pos_pow.
    replace (Z.log2 (Zpos p) - 52) with (- Zpos k) by lia. apply round_exact; lia.
Qed.

(** An integer of at most 53 bits is a float and comes back. *)
Lemma trunc_of_Z z : Z.abs z < 2 ^ 53 → trunc_int (of_Z z) = Ok z.
Proof.
  destruct z as [|p|p]; intros Hz; [done|by apply trunc_of_pos|].
  change (of_Z (Zneg p)) with (binary_round prec emax true p 0). rewrite binary_round_opp.
  apply (trunc_fopp _ (Zpos p)). apply (trunc_of_pos p). lia.
Qed.
