(* ===== verification/PyData.v ===== *)
(** * Python values as data

    JSON-shaped values, their truth and their texts: what a record can hold
    before any operation on it can raise. *)
From S2P Require Import Prelude PyFloat.

#[warnings="-register-all"]
Inductive pyval :=
| VNone
| VBool (b : bool)
| VInt (z : Z)
| VFloat (f : float)
| VStr (s : string)
| VList (l : list pyval)
| VDict (d : list (string * pyval)).

(** [bool(v)] *)
Definition truthy (v : pyval) : bool :=
  match v with
  | VNone => false
  | VBool b => b
  | VInt z => negb (z =? 0)
  | VFloat f => ftruthy f
  | VStr s => negb (String.eqb s "")
  | VList l => match l with [] => false | _ => true end
  | VDict d => match d with [] => false | _ => true end
  end.

(** [v or d] *)
Definition or_else (v d : pyval) : pyval := if truthy v then v else d.

(** Name of the value's type, for error texts. *)
Definition type_name (v : pyval) : string :=
  match v with
  | VNone => "NoneType" | VBool _ => "bool" | VInt _ => "int" | VFloat _ => "float"
  | VStr _ => "str" | VList _ => "list" | VDict _ => "dict"
  end.

(** ** [repr] and [str] *)

Definition hex_digit (n : N) : ascii := ascii_of_N (if (n <? 10)%N then 48 + n else 87 + n).

(** One character inside [repr(s)], quoted with [q]. *)
Definition repr_char (q c : ascii) : string :=
  let n := N_of_ascii c in
  if Ascii.eqb c q || Ascii.eqb c "\" then String "\" (String c "")
  else if (n =? 10)%N then "\n"
  else if (n =? 13)%N then "\r"
  else if (n =? 9)%N then "\t"
  else if ((n <? 32) || (n =? 127))%N then
    String "\" (String "x" (String (hex_digit (n / 16)) (String (hex_digit (n mod 16)) "")))
  else String c "".

Definition dquote : ascii := ascii_of_N 34.

(** [repr(s)]: single quotes unless the text holds one and no double quote. *)
Definition repr_str (s : string) : string :=
  let cs := String.list_ascii_of_string s in
  let q := if existsb (Ascii.eqb "'") cs && negb (existsb (Ascii.eqb dquote) cs)
           then dquote else "'"%char in
  String q (String.concat "" (repr_char q <$> cs) +:+ String q "").

Fixpoint repr_val (v : pyval) : string :=
  match v with
  | VNone => "None"
  | VBool b => if b then "True" else "False"
  | VInt z => str_Z z
  | VFloat f => str_float f
  | VStr s => repr_str s
  | VList l => "[" +:+ join ", " (map repr_val l) +:+ "]"
  | VDict d =>
      "{" +:+ join ", " (map (λ kv, repr_str kv.1 +:+ ": " +:+ repr_val kv.2) d) +:+ "}"
  end.

(** [str(v)] *)
Definition str_val (v : pyval) : string :=
  match v with VStr s => s | _ => repr_val v end.
