(* ===== verification/Order.v ===== *)
(** * Order value objects

    [quant/trade/models/order.py] and [quant/trade/models/market.py]: the
    enumerations, the frozen dataclasses every broker layer exchanges, and the
    venue's size rules. *)
From S2P Require Import Prelude PyFloat PyData.

(** ** [models/order.py] *)

Inductive OrderSide := OBuy | OSell.

Inductive OrderType := MARKET | LIMIT.

Inductive OrderRejectReason :=
| SIZE_BELOW_MINIMUM
| IP_NOT_ALLOWED
| REGION_RESTRICTED
| KEY_READ_ONLY
| KEY_REFUSED
| INSUFFICIENT_FUNDS
| INVALID_ORDER
| VENUE_REJECTED
| NOT_ACKNOWLEDGED
| CANCEL_FAILED.

Inductive IntendedAction := BUY | SELL | HOLD | OPEN_SHORT | CLOSE_SHORT.

#[export] Instance OrderSide_eq_dec : EqDecision OrderSide.
Proof. solve_decision. Defined.
#[export] Instance OrderType_eq_dec : EqDecision OrderType.
Proof. solve_decision. Defined.
#[export] Instance OrderRejectReason_eq_dec : EqDecision OrderRejectReason.
Proof. solve_decision. Defined.
#[export] Instance IntendedAction_eq_dec : EqDecision IntendedAction.
Proof. solve_decision. Defined.

(** [OrderSide.value] *)
Definition OrderSide_value (s : OrderSide) : string :=
  match s with OBuy => "BUY" | OSell => "SELL" end.

(** [IntendedAction.value] *)
Definition IntendedAction_value (a : IntendedAction) : string :=
  match a with
  | BUY => "BUY" | SELL => "SELL" | HOLD => "HOLD"
  | OPEN_SHORT => "OPEN_SHORT" | CLOSE_SHORT => "CLOSE_SHORT"
  end.

(** [OrderRejectReason.value] *)
Definition OrderRejectReason_value (r : OrderRejectReason) : string :=
  match r with
  | SIZE_BELOW_MINIMUM => "SIZE_BELOW_MINIMUM"
  | IP_NOT_ALLOWED => "IP_NOT_ALLOWED"
  | REGION_RESTRICTED => "REGION_RESTRICTED"
  | KEY_READ_ONLY => "KEY_READ_ONLY"
  | KEY_REFUSED => "KEY_REFUSED"
  | INSUFFICIENT_FUNDS => "INSUFFICIENT_FUNDS"
  | INVALID_ORDER => "INVALID_ORDER"
  | VENUE_REJECTED => "VENUE_REJECTED"
  | NOT_ACKNOWLEDGED => "NOT_ACKNOWLEDGED"
  | CANCEL_FAILED => "CANCEL_FAILED"
  end.

(** Every member, in declaration order. *)
Definition OrderRejectReason_members : list OrderRejectReason :=
  [SIZE_BELOW_MINIMUM; IP_NOT_ALLOWED; REGION_RESTRICTED; KEY_READ_ONLY; KEY_REFUSED;
   INSUFFICIENT_FUNDS; INVALID_ORDER; VENUE_REJECTED; NOT_ACKNOWLEDGED; CANCEL_FAILED].

(** [OrderRejectReason(value)]: the member with that value, [None] where the
    lookup raises [ValueError]. *)
Definition OrderRejectReason_of_value (v : string) : option OrderRejectReason :=
  List.find (λ r, String.eqb (OrderRejectReason_value r) v) OrderRejectReason_members.

(** [_OPERATOR_FIX] *)
Definition OPERATOR_FIX : list OrderRejectReason :=
  [SIZE_BELOW_MINIMUM; IP_NOT_ALLOWED; REGION_RESTRICTED; KEY_READ_ONLY; CANCEL_FAILED].

(** [OrderRejectReason.requires_operator_fix] *)
Definition requires_operator_fix (r : OrderRejectReason) : bool :=
  bool_decide (r ∈ OPERATOR_FIX).

(** [IntendedAction.order_side] *)
Definition order_side (a : IntendedAction) : option OrderSide :=
  match a with
  | BUY | CLOSE_SHORT => Some OBuy
  | SELL | OPEN_SHORT => Some OSell
  | HOLD => None
  end.

Record OrderRequest := mkOrderRequest {
  req_symbol : string;
  req_qty : float;
  req_side : OrderSide;
  req_order_type : OrderType;
  req_limit_price : option float
}.

(** [OrderRequest(symbol=..., qty=..., side=...)] with the dataclass defaults *)
Definition market_order (symbol : string) (qty : float) (side : OrderSide) : OrderRequest :=
  mkOrderRequest symbol qty side MARKET None.

Record OrderResult := mkOrderResult {
  success : bool;
  vendor_order_id : option string;
  message : string;
  reason : option OrderRejectReason;
  raw_status : pyval;
  side : option OrderSide;
  requested_qty : option float;
  filled_qty : option float;
  avg_price : option float;
  fee : option float;
  fee_ccy : option string
}.

(** [replace(result, reason=r)] *)
Definition with_reason (o : OrderResult) (r : OrderRejectReason) : OrderResult :=
  mkOrderResult (success o) (vendor_order_id o) (message o) (Some r) (raw_status o)
    (side o) (requested_qty o) (filled_qty o) (avg_price o) (fee o) (fee_ccy o).

(** [bool(result.vendor_order_id)]: an empty id is no id. *)
Definition has_id (o : option string) : bool :=
  match o with Some "" | None => false | Some _ => true end.

(** ** [models/market.py] *)

Record MarketLimits := mkMarketLimits {
  ml_symbol : string;
  min_qty : option float;
  min_notional : option float
}.

(** [MarketLimits(symbol=s)] *)
Definition no_limits (symbol : string) : MarketLimits := mkMarketLimits symbol None None.

(** [MarketLimits.undersized]: the refusal text, or [None] when big enough. *)
Definition undersized (l : MarketLimits) (qty : float) (price : option float) : option string :=
  let notional_check :=
    match min_notional l, price with
    | Some mn, Some p =>
        let notional := fmul qty p in
        if fltb notional mn then
          Some ("notional " +:+ fmt_g notional +:+ " is below " +:+ ml_symbol l +:+
                " min notional " +:+ fmt_g mn)
        else None
    | _, _ => None
    end in
  if fleb qty fzero then None
  else match min_qty l with
       | Some mq =>
           if fltb qty mq then
             Some ("qty " +:+ fmt_g qty +:+ " is below " +:+ ml_symbol l +:+
                   " min qty " +:+ fmt_g mq)
           else notional_check
       | None => notional_check
       end.

(** ** Facts *)

Lemma OrderRejectReason_of_value_value r :
  OrderRejectReason_of_value (OrderRejectReason_value r) = Some r.
Proof. by destruct r. Qed.

Lemma requires_operator_fix_iff r :
  requires_operator_fix r = true ↔ r ∈ OPERATOR_FIX.
Proof. unfold requires_operator_fix. apply bool_decide_eq_true. Qed.

Lemma has_id_Some o : has_id o = true → ∃ s, o = Some s ∧ s ≠ "".
Proof. destruct o as [[|c s]|]; try done. intros _. by exists (String c s). Qed.

(** No size rule is broken exactly when every published one is met: the text
    is a faithful verdict. *)
Lemma undersized_None_iff l qty price :
  undersized l qty price = None ↔
  fleb qty fzero = true ∨
  (∀ mq, min_qty l = Some mq → fltb qty mq = false) ∧
  (∀ mn p, min_notional l = Some mn → price = Some p → fltb (fmul qty p) mn = false).
Proof.
  unfold undersized. destruct (fleb qty fzero); [by split; [left|]|].
  assert (∀ (b : bool) (t : string), (if b then Some t else None) = None ↔ b = false) as Hif
    by (intros [] ?; split; done).
  assert (match min_notional l, price with
          | Some mn, Some p =>
              if fltb (fmul qty p) mn then
                Some ("notional " +:+ fmt_g (fmul qty p) +:+ " is below " +:+ ml_symbol l +:+
                      " min notional " +:+ fmt_g mn) else None
          | _, _ => None end = None ↔
          ∀ mn p, min_notional l = Some mn → price = Some p → fltb (fmul qty p) mn = false)
    as Hnot.
  { destruct (min_notional l) as [mn|], price as [p|]; try by split.
    rewrite Hif. split; [by intros ? ? ? [= <-] [= <-]|eauto]. }
  destruct (min_qty l) as [mq|].
  - destruct (fltb qty mq) eqn:Hq.
    + split; [done|]. intros [|[H _]]; [done|]. by rewrite (H mq) in Hq.
    + rewrite Hnot. split; [|by intros [|[]]]. intros H. right. split; [|done].
      by intros ? [= <-].
  - rewrite Hnot. split; [by right|by intros [|[]]].
Qed.
