(* ===== verification/Errors.v ===== *)
(** * Exceptions

    One record stands for every Python exception the modelled code raises or
    catches: its class, the text [str(exc)] gives, and the attributes callers
    read off it ([status_code], [reason], [sqlstate]).  [quant/trade/errors.py]
    declares the trade classes; the built-in ones and those of other modules
    are listed with them so that [except] clauses compare classes. *)
From S2P Require Import Prelude PyFloat PyData Order.

(** Classes of the ccxt client library the gateway's [except] clauses name. *)
Inductive ccxt_class :=
| CcxtBaseError | CcxtAuthenticationError | CcxtInsufficientFunds
| CcxtInvalidOrder | CcxtOrderNotFound | CcxtBadSymbol.

#[export] Instance ccxt_class_eq_dec : EqDecision ccxt_class.
Proof. solve_decision. Defined.

Inductive exn_class :=
| CValueError | CTypeError | COverflowError | CKeyError | CIndexError | CAttributeError
| CAssertionError | CUnboundLocalError | CRuntimeError | CLookupError
| CTradeValidationError | CSymbolMappingError | CAdapterNotFoundError
| CBrokerConnectionError | CBrokerAuthError | COrderNotFoundError | CDeploymentNotFound
| CProcedureError | CStaleBarsError | CBackfillTooLargeError | CBarFetchError
| CSubscriptionError | CLiveEvaluationError
| CRateLimitError | CJobNotFound | CCancelNotAllowed | CReenqueueNotAllowed
| CStrategyNameMismatch | CUnknownPriority | CStrategyNotFound | CRedisError | CTimeoutExpired
| CBacktestError | CCacheMissError
(** [SystemExit], and [ResourceNotFoundException] of the scheduler client *)
| CSystemExit | CResourceNotFound
(** [psycopg.Error], raised by the driver *)
| CDatabaseError
(** a ccxt exception, with the library classes it is an instance of *)
| CCcxt (mro : list ccxt_class)
(** [OSError] and [FileNotFoundError], an instance of it *)
| COSError
(** any other exception *)
| COther.

#[export] Instance exn_class_eq_dec : EqDecision exn_class.
Proof. solve_decision. Defined.

Record exn := mkExn {
  exn_cls : exn_class;
  exn_msg : string;
  exn_status_code : option Z;
  exn_reason : option OrderRejectReason;
  exn_sqlstate : option string
}.

(** The class [c] derives from, directly. *)
Definition parent (c : exn_class) : option exn_class :=
  match c with
  | CTradeValidationError | CBackfillTooLargeError | CSubscriptionError | CLiveEvaluationError =>
      Some CValueError
  | CSymbolMappingError | CAdapterNotFoundError | CBrokerConnectionError =>
      Some CTradeValidationError
  | CBrokerAuthError | COrderNotFoundError => Some CBrokerConnectionError
  | CStaleBarsError | CBarFetchError | CProcedureError | CCacheMissError => Some CRuntimeError
  | CKeyError | CIndexError => Some CLookupError
  | _ => None
  end.

(** [isinstance(e, c)]; the deepest chain of [parent] has four classes. *)
Fixpoint derives (fuel : nat) (c d : exn_class) : bool :=
  if decide (c = d) then true
  else match fuel, parent c with
       | S f, Some p => derives f p d
       | _, _ => false
       end.

Definition isinstance (e : exn) (d : exn_class) : bool := derives 4 (exn_cls e) d.

(** [except ccxt.X]: membership in the exception's ccxt classes. *)
Definition is_ccxt (e : exn) (c : ccxt_class) : bool :=
  match exn_cls e with
  | CCcxt mro => bool_decide (c ∈ mro)
  | _ => false
  end.

Definition plain (c : exn_class) (msg : string) : exn := mkExn c msg None None None.

Definition ValueError : string → exn := plain CValueError.
Definition TypeError : string → exn := plain CTypeError.
Definition OverflowError : string → exn := plain COverflowError.
(** [str(exc)] of a missing text key is its [repr] *)
Definition KeyError (key : string) : exn := plain CKeyError (repr_str key).
Definition AttributeError : string → exn := plain CAttributeError.
Definition AssertionError : string → exn := plain CAssertionError.
Definition UnboundLocalError : string → exn := plain CUnboundLocalError.
Definition RuntimeError : string → exn := plain CRuntimeError.
Definition SystemExit : string → exn := plain CSystemExit.
Definition StaleBarsError : string → exn := plain CStaleBarsError.
Definition BackfillTooLargeError : string → exn := plain CBackfillTooLargeError.
Definition LiveEvaluationError : string → exn := plain CLiveEvaluationError.

(** [ProcedureError(sqlstate=...)] of [quant/shared/db.py] *)
Definition ProcedureError (sqlstate msg : string) : exn :=
  mkExn CProcedureError msg None None (Some sqlstate).

(** ** [quant/trade/errors.py] *)

Definition TradeValidationError (msg : string) (status_code : Z) : exn :=
  mkExn CTradeValidationError msg (Some status_code) None None.

Definition SymbolMappingError (msg : string) : exn :=
  mkExn CSymbolMappingError msg (Some 400) None None.

Definition AdapterNotFoundError (msg : string) : exn :=
  mkExn CAdapterNotFoundError msg (Some 400) None None.

Definition BrokerConnectionError (msg : string) (reason : option OrderRejectReason) : exn :=
  mkExn CBrokerConnectionError msg (Some 503) reason None.

Definition BrokerAuthError (msg : string) (reason : option OrderRejectReason) : exn :=
  mkExn CBrokerAuthError msg (Some 400) reason None.

Definition OrderNotFoundError (msg : string) : exn :=
  mkExn COrderNotFoundError msg (Some 503) None None.

Definition DeploymentNotFound (msg : string) : exn := plain CDeploymentNotFound msg.

(** What [int(round(x))] raises. *)
Definition int_exn (e : int_error) : exn :=
  match e with
  | NaNToInt => ValueError "cannot convert float NaN to integer"
  | InfToInt => OverflowError "cannot convert float infinity to integer"
  end.

(** A pure result with its own errors, raised as exceptions. *)
Definition res_map_exn {E A} (f : E → exn) (r : res E A) : res exn A :=
  match r with Ok a => Ok a | Raise e => Raise (f e) end.

(** ** Facts *)

(** Every broker error is a [BrokerConnectionError], so one clause catches the
    three; an authentication error is never an [OrderNotFoundError]. *)
Lemma broker_errors_derive m r :
  isinstance (BrokerConnectionError m r) CBrokerConnectionError = true ∧
  isinstance (BrokerAuthError m r) CBrokerConnectionError = true ∧
  isinstance (OrderNotFoundError m) CBrokerConnectionError = true ∧
  isinstance (BrokerAuthError m r) COrderNotFoundError = false ∧
  isinstance (BrokerConnectionError m r) COrderNotFoundError = false.
Proof. repeat split; reflexivity. Qed.
