(* ===== verification/PyValue.v ===== *)
(** * Operations on Python values

    Reading JSON-shaped data with [.get] and subscripts, and coercing it with
    [float()] and [tuple()]: ccxt responses, cached snapshots, configuration
    rows. *)
From S2P Require Import Prelude PyFloat PyData Order Errors.

(** [v.get(k)]: [None] for a missing key, [AttributeError] on a non-dict. *)
Definition get (k : string) (v : pyval) : res exn pyval :=
  match v with
  | VDict d => Ok (default VNone (dict_get k d))
  | _ => Raise (AttributeError ("'" +:+ type_name v +:+ "' object has no attribute 'get'"))
  end.

(** [v.get(k, d)] *)
Definition get_or (k : string) (d v : pyval) : res exn pyval :=
  match v with
  | VDict l => Ok (default d (dict_get k l))
  | _ => get k v
  end.

(** [v[k]] *)
Definition getitem (k : string) (v : pyval) : res exn pyval :=
  match v with
  | VDict d => match dict_get k d with
               | Some x => Ok x
               | None => Raise (KeyError k)
               end
  | _ => Raise (TypeError ("'" +:+ type_name v +:+ "' object is not subscriptable"))
  end.

(** [tuple(v)] over a JSON value *)
Definition tuple_of (v : pyval) : res exn (list pyval) :=
  match v with
  | VList l => Ok l
  | VDict d => Ok (VStr ∘ fst <$> d)
  | VStr s => Ok ((λ c, VStr (String c EmptyString)) <$> String.list_ascii_of_string s)
  | _ => Raise (TypeError ("'" +:+ type_name v +:+ "' object is not iterable"))
  end.

(** [v == s] for a text [s] *)
Definition is_str (s : string) (v : pyval) : bool :=
  match v with VStr t => String.eqb s t | _ => false end.

(** ** [float(v)] *)

Definition digit_of (c : ascii) : option Z :=
  let n := N_of_ascii c in
  if ((48 <=? n) && (n <=? 57))%N then Some (Z.of_N n - 48) else None.

(** Digits with single underscores between them: value, count and the rest. *)
Fixpoint digit_run (s : string) (acc : Z) (k : nat) : Z * nat * string :=
  match s with
  | String c s' =>
      match digit_of c with
      | Some d => digit_run s' (10 * acc + d) (S k)
      | None =>
          match s' with
          | String c' s'' =>
              match digit_of c' with
              | Some d => if Ascii.eqb c "_" && (0 <? k)%nat
                          then digit_run s'' (10 * acc + d) (S k) else (acc, k, s)
              | None => (acc, k, s)
              end
          | EmptyString => (acc, k, s)
          end
      end
  | EmptyString => (acc, k, s)
  end.

(** An optional exponent at the end of the text. *)
Definition exponent_of (s : string) : option Z :=
  match s with
  | EmptyString => Some 0
  | String c s' =>
      if Ascii.eqb (lower_char c) "e" then
        let '(neg, t) := match s' with
                         | String "-" t => (true, t)
                         | String "+" t => (false, t)
                         | _ => (false, s')
                         end in
        match digit_run t 0 0 with
        | (x, S _, EmptyString) => Some (if neg then - x else x)
        | _ => None
        end
      else None
  end.

(** [float(s)], [None] where it raises [ValueError]. *)
Definition float_of_str (s : string) : option float :=
  let s := lower (strip s) in
  let '(neg, t) := match s with
                   | String "-" t => (true, t)
                   | String "+" t => (false, t)
                   | _ => (false, s)
                   end in
  if String.eqb t "inf" || String.eqb t "infinity" then Some (S754_infinity neg)
  else if String.eqb t "nan" then Some S754_nan
  else
    let '(ip, ni, r) := digit_run t 0 0 in
    let '(m, nf, r') := match r with
                        | String "." r => digit_run r ip 0
                        | _ => (ip, O, r)
                        end in
    let bad := match r with String "." _ => (ni + nf =? 0)%nat | _ => (ni =? 0)%nat end in
    if bad then None
    else x ← exponent_of r'; Some (of_decimal neg (Z.to_N m) (x - Z.of_nat nf)).

(** [float(v)] *)
Definition float_val (v : pyval) : res exn float :=
  match v with
  | VBool b => Ok (of_Z (if b then 1 else 0))
  | VInt z => let f := of_Z z in
              if is_finite f then Ok f else Raise (OverflowError "int too large to convert to float")
  | VFloat f => Ok f
  | VStr s => match float_of_str s with
              | Some f => Ok f
              | None => Raise (ValueError ("could not convert string to float: " +:+ repr_str s))
              end
  | _ => Raise (TypeError ("float() argument must be a string or a real number, not '" +:+
                           type_name v +:+ "'"))
  end.

(** [_as_float] of the gateway: [None] for nothing, or for what [float()]
    refuses with a [TypeError] or a [ValueError]. *)
Definition as_float (v : pyval) : res exn (option float) :=
  match v with
  | VNone | VStr "" => Ok None
  | _ => match float_val v with
         | Ok f => Ok (Some f)
         | Raise e => if isinstance e CTypeError || isinstance e CValueError
                      then Ok None else Raise e
         end
  end.

(** ** Facts *)

Lemma get_dict k d : get k (VDict d) = Ok (default VNone (dict_get k d)).
Proof. done. Qed.

(** Coercion fails only by overflow. *)
Lemma as_float_raises v e : as_float v = Raise e → exn_cls e = COverflowError.
Proof.
  destruct v as [| | | |s| |]; simpl; try done.
  - destruct (is_finite _); [done|]. simpl. by intros [= <-].
  - destruct s; [done|]. by destruct (float_of_str _).
Qed.
