(* ===== verification/KeyProfile.v ===== *)
(** * API key profiles

    [quant/trade/models/key_profile.py]: what a venue said about one API key,
    the refusals that follow from it, and its JSON shape. *)
From S2P Require Import Prelude PyFloat PyData Order Errors PyValue.

(** [ApiKeyInfo]: fields are whatever JSON value the venue sent. *)
Record ApiKeyInfo := mkApiKeyInfo {
  ips : list pyval;
  kyc_region : pyval;
  read_only : pyval;
  expires_at : pyval
}.

(** [ApiKeyInfo.to_json] *)
Definition ApiKeyInfo_to_json (i : ApiKeyInfo) : pyval :=
  VDict [("ips", VList (ips i)); ("kyc_region", kyc_region i);
         ("read_only", read_only i); ("expires_at", expires_at i)].

(** [ApiKeyInfo.from_json] *)
Definition ApiKeyInfo_from_json (payload : pyval) : res exn ApiKeyInfo :=
  raw ← get "ips" payload;
  ips ← tuple_of (or_else raw (VList []));
  region ← get "kyc_region" payload;
  ro ← get "read_only" payload;
  expires ← get "expires_at" payload;
  mret (mkApiKeyInfo ips region ro expires).

Record KeyProfile := mkKeyProfile {
  kp_route : pyval;
  kp_info : option ApiKeyInfo;
  restricted_market_types : gset string
}.

(** [KeyProfile.accepted] *)
Definition accepted (route : string) (info : option ApiKeyInfo) (carrying : option KeyProfile)
    : KeyProfile :=
  mkKeyProfile (VStr route) info
    match carrying with Some p => restricted_market_types p | None => ∅ end.

(** [KeyProfile.refusal] *)
Definition refusal (p : KeyProfile) (market_type : string) : option (OrderRejectReason * string) :=
  if match kp_info p with Some i => truthy (read_only i) | None => false end then
    Some (KEY_READ_ONLY, "API key is read-only — enable trading on it at the venue")
  else if bool_decide (market_type ∈ restricted_market_types p) then
    let region := or_else match kp_info p with Some i => kyc_region i | None => VNone end
                          (VStr "unknown") in
    Some (REGION_RESTRICTED, "venue refuses " +:+ market_type +:+
            " for this account (KYC region " +:+ str_val region +:+ ")")
  else None.

(** [KeyProfile.restricting] *)
Definition restricting (p : KeyProfile) (market_type : string) : KeyProfile :=
  mkKeyProfile (kp_route p) (kp_info p) (restricted_market_types p ∪ {[market_type]}).

(** [sorted] on text: code-point order, which UTF-8 bytes keep. *)
Definition sorted_text (l : list string) : list string := sorted_by String.leb l.

(** [KeyProfile.to_json] *)
Definition KeyProfile_to_json (p : KeyProfile) : pyval :=
  VDict [("route", kp_route p);
         ("info", match kp_info p with Some i => ApiKeyInfo_to_json i | None => VNone end);
         ("restricted_market_types",
           VList (VStr <$> sorted_text (elements (restricted_market_types p))))].

(** Product names out of a JSON list; the field is only ever written as text,
    so anything else is refused as unreadable. *)
Fixpoint text_set (l : list pyval) : res exn (gset string) :=
  match l with
  | [] => mret ∅
  | VStr s :: l' => r ← text_set l'; mret ({[s]} ∪ r)
  | _ :: _ => Raise (TypeError "product name is not text")
  end.

(** [KeyProfile.from_json] *)
Definition KeyProfile_from_json (payload : pyval) : res exn KeyProfile :=
  info ← get "info" payload;
  route ← getitem "route" payload;
  info' ← (if truthy info then i ← ApiKeyInfo_from_json info; mret (Some i) else mret None);
  raw ← get "restricted_market_types" payload;
  l ← tuple_of (or_else raw (VList []));
  restricted ← text_set l;
  mret (mkKeyProfile route info' restricted).

(** ** Facts *)

Lemma text_set_str l : text_set (VStr <$> l) = Ok (list_to_set l).
Proof.
  induction l as [|s l IH]; [done|].
  change (text_set (VStr <$> s :: l)) with (r ← text_set (VStr <$> l); mret ({[s]} ∪ r)).
  by rewrite IH.
Qed.

Lemma ApiKeyInfo_json i : ApiKeyInfo_from_json (ApiKeyInfo_to_json i) = Ok i.
Proof. destruct i as [[|v l] r o e]; done. Qed.

(** A profile survives the cache: reading back what was written gives the
    same route, key information and learned restrictions. *)
Theorem KeyProfile_json_roundtrip p : KeyProfile_from_json (KeyProfile_to_json p) = Ok p.
Proof.
  destruct p as [route info types]. set (v := KeyProfile_to_json _).
  set (l := sorted_text (elements types)).
  assert (text_set (VStr <$> l) = Ok types) as Hl.
  { rewrite text_set_str. f_equal. apply set_eq. intros s.
    rewrite elem_of_list_to_set. unfold l, sorted_text. by rewrite sorted_by_perm, elem_of_elements. }
  assert (tuple_of (or_else (VList (VStr <$> l)) (VList [])) = Ok (VStr <$> l)) as Ht
    by by destruct l.
  assert (get "info" v =
    Ok match info with Some i => ApiKeyInfo_to_json i | None => VNone end) as H1 by done.
  assert (getitem "route" v = Ok route) as H2 by done.
  assert (get "restricted_market_types" v = Ok (VList (VStr <$> l))) as H3 by done.
  unfold KeyProfile_from_json. rewrite H1. cbn [mbind res_bind]. rewrite H2, H3.
  cbn [mbind res_bind]. rewrite Ht. cbn [mbind res_bind]. rewrite Hl. cbn [mbind res_bind].
  destruct info as [i|]; [|done].
  change (truthy (ApiKeyInfo_to_json i)) with true. cbn iota. by rewrite ApiKeyInfo_json.
Qed.

(** A restriction once learned is refused, and survives every reconnect. *)
Lemma restricting_refused p m route info :
  refusal (accepted route info (Some (restricting p m))) m ≠ None.
Proof.
  unfold refusal, accepted, restricting; simpl.
  destruct (match info with Some i => _ | None => _ end); [done|].
  rewrite bool_decide_eq_true_2 by set_solver. done.
Qed.

(** Every refusal is one no retry can clear. *)
Lemma refusal_needs_operator p m r t :
  refusal p m = Some (r, t) → requires_operator_fix r = true.
Proof.
  unfold refusal. intros Hr. repeat case_match; simplify_eq; done.
Qed.
