(* ===== verification/Ccxt.v ===== *)
(** * The ccxt client, venues and egress routes

    The class [Ccxt] is the third-party client the gateway drives: everything
    it does is a parameter.  On top of it, [quant/trade/brokers/ccxt/config.py]
    (what each venue does differently) and [egress.py] (ways out to a venue). *)
From S2P Require Import Prelude PyFloat PyData Order Errors PyValue KeyProfile.

(** ** The client *)

(** Constructor parameters of an exchange object. *)
Record exchange_params := mkExchangeParams {
  xp_api_key : string;
  xp_secret : string;
  xp_default_type : option string;
  xp_https_proxy : option string
}.

(** [H] is a handle on an exchange object, [X] the world it lives in. *)
Class Ccxt (H X : Type) := {
  has_exchange : string → bool;
  new_exchange : string → exchange_params → prog X exn H;
  no_fetch_currencies : H → prog X exn unit;
  enable_demo_trading : H → prog X exn unit;
  set_sandbox_mode : H → prog X exn unit;
  set_option_default_type : H → string → prog X exn unit;
  x_load_markets : H → prog X exn unit;
  x_close : H → prog X exn unit;
  x_markets : H → X → list (string * pyval);
  x_market : H → string → prog X exn pyval;
  x_fetch_balance : H → prog X exn pyval;
  x_fetch_positions : H → option (list string) → prog X exn (list pyval);
  x_create_order : H → string → string → string → float → prog X exn pyval;
  x_cancel_order : H → string → option string → prog X exn pyval;
  x_fetch_open_orders : H → option string → prog X exn (list pyval);
  x_fetch_order : H → string → string → option pyval → prog X exn pyval;
  x_fetch_ticker : H → string → prog X exn pyval;
  x_query_api : H → prog X exn pyval
}.

(** ** [config.py] *)

Record ConnectParams := mkConnectParams { cp_paper : bool; cp_demo : bool }.

(** [CcxtVenue] and its subclasses: the venue is which methods run. *)
Inductive CcxtVenue := BaseVenue | BybitVenue.

(** [wire] *)
Definition wire {H X} `{Ccxt H X} (v : CcxtVenue) (exchange : H) (params : ConnectParams)
    : prog X exn unit :=
  match v with
  | BaseVenue => if cp_paper params then set_sandbox_mode exchange else mret tt
  | BybitVenue =>
      _ ← no_fetch_currencies exchange;
      if cp_demo params then enable_demo_trading exchange
      else if cp_paper params then set_sandbox_mode exchange else mret tt
  end.

(** [auth_hint] *)
Definition auth_hint (v : CcxtVenue) (params : ConnectParams) : string :=
  match v with
  | BaseVenue => ""
  | BybitVenue =>
      if cp_demo params then
        " Demo mode uses Bybit Demo Trading (api-demo.bybit.com) — create keys on " +:+
        "www.bybit.com under Demo Trading, not testnet.bybit.com."
      else if cp_paper params then
        " Paper/testnet mode uses https://testnet.bybit.com/ — mainnet and " +:+
        "Demo Trading keys will not work. Run: " +:+
        "scripts/bybit_local_testnet.py --diagnose"
      else ""
  end.

(** [fetch_api_key_info] *)
Definition venue_api_key_info {H X} `{Ccxt H X} (v : CcxtVenue) (exchange : H)
    : prog X exn (option ApiKeyInfo) :=
  match v with
  | BaseVenue => mret None
  | BybitVenue =>
      raw ← x_query_api exchange;
      lift_res (
        result ← get "result" raw;
        let result := or_else result (VDict []) in
        ips ← get "ips" result;
        ips ← tuple_of (or_else ips (VList []));
        region ← get "kycRegion" result;
        ro ← get "readOnly" result;
        expires ← get "expiredAt" result;
        mret (Some (mkApiKeyInfo ips (or_else region VNone)
                      (VBool (String.eqb (str_val ro) "1")) (or_else expires VNone))))
  end.

Definition RET_CODE_KEY : string :=
  String dquote ("retCode" +:+ String dquote EmptyString).

(** The decimal digits a text starts with. *)
Fixpoint leading_digits (s : string) : string :=
  match s with
  | String c s' => match digit_of c with
                   | Some _ => String c (leading_digits s')
                   | None => EmptyString
                   end
  | EmptyString => EmptyString
  end.

(** [\s*:\s*(\d+)] right at the start of [s]: the digits. *)
Definition ret_code_at (s : string) : option string :=
  match lstrip s with
  | String ":" t => match leading_digits (lstrip t) with
                    | EmptyString => None
                    | ds => Some ds
                    end
  | _ => None
  end.

(** [re.search] for the quoted key retCode, a colon and digits: the digits of
    the first match. *)
Fixpoint find_ret_code (s : string) : option string :=
  match s with
  | EmptyString => None
  | String _ s' =>
      let here := if String.prefix RET_CODE_KEY s
                  then ret_code_at (String.substring (String.length RET_CODE_KEY) (String.length s) s)
                  else None in
      match here with Some ds => Some ds | None => find_ret_code s' end
  end.

(** [BybitVenue._DENIALS] *)
Definition DENIALS : list (string * OrderRejectReason) :=
  [("10010", IP_NOT_ALLOWED); ("10024", REGION_RESTRICTED)].

(** [classify_denial] *)
Definition classify_denial (v : CcxtVenue) (e : exn) : option OrderRejectReason :=
  match v with
  | BaseVenue => None
  | BybitVenue => code ← find_ret_code (exn_msg e); dict_get code DENIALS
  end.

Record CcxtExchangePreset := mkPreset {
  exchange_id : string;
  exchange_label : string;
  default_type : option string;
  default_type_by_issue : list (string * string);
  fetch_order_params : option (list (string * pyval));
  venue : CcxtVenue
}.

(** [CcxtExchangePreset.market_type] *)
Definition market_type (p : CcxtExchangePreset) : string :=
  match default_type p with
  | Some "" | None => "default"
  | Some t => t
  end.

(** [repr] of an optional text. *)
Definition repr_opt (o : option string) : string :=
  match o with Some s => repr_str s | None => "None" end.

(** [CcxtExchangePreset.default_type_for] *)
Definition default_type_for (p : CcxtExchangePreset) (issue_type : option string)
    : res exn (option string) :=
  match default_type_by_issue p with
  | [] => Ok (default_type p)
  | m =>
      match issue_type ≫= λ t, if has_id (Some t) then dict_get t m else None with
      | Some t => Ok (Some t)
      | None => Raise (ValueError (exchange_id p +:+ " has no default type for ISSUE_TYPE " +:+
                                   repr_opt issue_type))
      end
  end.

(** [CCXT_PRESETS] *)
Definition CCXT_PRESETS : list (string * CcxtExchangePreset) :=
  [("bybit", mkPreset "bybit" "Bybit" None [("spot", "spot"); ("future", "linear")]
               (Some [("acknowledged", VBool true)]) BybitVenue);
   ("binance", mkPreset "binanceusdm" "Binance" None [] None BaseVenue)].

(** ** [egress.py] *)

Record EgressRoute := mkEgressRoute { route_name : string; proxy_url : option string }.

Definition DIRECT : EgressRoute := mkEgressRoute "direct" None.

(** [EgressRoutes.env_var] *)
Definition env_var (exchange_id : string) : string := "CCXT_EGRESS_" +:+ upper exchange_id.

(** One [name=url] entry, [None] where the code warns and skips it. *)
Definition parse_egress_entry (entry : string) : option EgressRoute :=
  let '(name, sep, url) := partition_on "=" entry in
  let name := strip name in
  let url := strip url in
  if negb sep || negb (has_id (Some name)) || negb (has_id (Some url))
     || String.eqb name (route_name DIRECT)
  then None else Some (mkEgressRoute name (Some url)).

(** [EgressRoutes.from_env] on the variable's text *)
Definition parse_egress (raw : string) : list EgressRoute :=
  DIRECT :: omap parse_egress_entry
    (List.filter (λ p, has_id (Some p)) (strip <$> split_on "," raw)).

(** [EgressRoutes.from_env], given [os.getenv] *)
Definition from_env (getenv : string → option string) (exchange_id : string) : list EgressRoute :=
  parse_egress (default "" (getenv (env_var exchange_id))).

(** [r.name != name], for a cached route name of any JSON type. *)
Definition other_route (name : option pyval) (r : EgressRoute) : bool :=
  match name with
  | Some (VStr n) => negb (String.eqb (route_name r) n)
  | _ => true
  end.

(** [EgressRoutes.preferring]: a stable sort on [r.name != name]. *)
Definition preferring (routes : list EgressRoute) (name : option pyval) : list EgressRoute :=
  sorted_by (λ a b, implb (other_route name a) (other_route name b)) routes.

(** ** Facts *)

Lemma parse_egress_entry_ok e r : parse_egress_entry e = Some r →
  route_name r ≠ "direct" ∧ has_id (Some (route_name r)) = true ∧
  ∃ url, proxy_url r = Some url ∧ has_id (Some url) = true.
Proof.
  unfold parse_egress_entry. destruct (partition_on _ _) as [[n sep] u].
  destruct (has_id (Some (strip n))) eqn:Hn; rewrite ?orb_true_r; [|done].
  destruct (has_id (Some (strip u))) eqn:Hu; rewrite ?orb_true_r; [|done].
  destruct (String.eqb_spec (strip n) (route_name DIRECT)) as [|Hd]; rewrite ?orb_true_r; [done|].
  destruct sep; simpl; [|done]. intros [= <-]. split_and!; eauto.
Qed.

(** Parsing a venue's egress list: [direct] comes first and is the only
    unproxied route, whatever the variable holds. *)
Theorem parse_egress_direct_first raw :
  ∃ rest, parse_egress raw = DIRECT :: rest ∧
  Forall (λ r, route_name r ≠ "direct" ∧ is_Some (proxy_url r)) rest.
Proof.
  eexists; split; [done|]. apply Forall_forall. intros r Hr.
  apply list_elem_of_omap in Hr as (e & _ & (? & _ & u & -> & _)%parse_egress_entry_ok). eauto.
Qed.

(** Preferring a route only moves it to the front. *)
Lemma preferring_spec routes name :
  preferring routes name =
  filter (λ r, other_route name r = false) routes ++ filter (λ r, other_route name r = true) routes.
Proof.
  unfold preferring. induction routes as [|r l IH]; [done|]. simpl. rewrite IH.
  set (A := filter (λ r, other_route name r = false) l).
  set (B := filter (λ r, other_route name r = true) l).
  destruct (other_route name r) eqn:Hr.
  - rewrite (filter_cons_False (λ r, other_route name r = false)) by congruence.
    rewrite filter_cons_True by done. fold A B.
    assert (Forall (λ r, other_route name r = false) A) as HA
      by (apply Forall_forall; intros ? [? _]%list_elem_of_filter; done).
    clear IH. clearbody A. induction HA as [|a A Ha HA IHA]; simpl.
    + destruct B as [|b B'] eqn:HB; [done|]. simpl. rewrite Hr.
      assert (b ∈ B) as Hb by (rewrite HB; left).
      apply list_elem_of_filter in Hb as [Hb _]. by rewrite Hb.
    + rewrite Hr, Ha. simpl. f_equal. apply IHA. 
  - rewrite filter_cons_True by done.
    rewrite (filter_cons_False (λ r, other_route name r = true)) by congruence. fold A B.
    rewrite <-app_comm_cons. destruct (A ++ B) as [|x AB]; [done|]. simpl. by rewrite Hr.
Qed.

Lemma preferring_perm routes name : preferring routes name ≡ₚ routes.
Proof. apply sorted_by_perm. Qed.
