(* ===== verification/Gateway.v ===== *)
(** * The ccxt gateway

    [quant/trade/brokers/ccxt/gateway.py]: one keyed session over a ccxt client.
    The object's mutable fields are a record next to the client's world; every
    method is a program over it, its [except] clauses in the code's order. *)
From S2P Require Import Prelude PyFloat PyData Order Errors PyValue KeyProfile Ccxt.

Record CcxtSessionConfig := mkSession {
  api_key : string;
  api_secret : string;
  preset : CcxtExchangePreset;
  paper : bool;
  demo : bool
}.

(** [CcxtSessionConfig.connect_params] *)
Definition connect_params (c : CcxtSessionConfig) : ConnectParams :=
  mkConnectParams (paper c) (demo c).

(** [CcxtSessionConfig.public] *)
Definition public_session (p : CcxtExchangePreset) : CcxtSessionConfig :=
  mkSession "" "" p false false.

(** [BrokerSessionState] of [quant/trade/models/session.py] *)
Record BrokerSessionState := mkSessionState { bs_connected : bool; bs_message : string }.

(** The fields of [CcxtTradeGateway], and the client's world. *)
Record gateway (H X : Type) := mkGateway {
  gw_exchange : option H;
  gw_route : EgressRoute;
  gw_default_type : option string;
  gw_world : X
}.
Arguments mkGateway {H X} _ _ _ _.
Arguments gw_exchange {H X} _.
Arguments gw_route {H X} _.
Arguments gw_default_type {H X} _.
Arguments gw_world {H X} _.

(** [d.get(k)] for a key read off another response *)
Definition get_by (k v : pyval) : res exn pyval :=
  match k with
  | VStr s => get s v
  | _ => match v with
         | VDict _ => Ok VNone
         | _ => get "" v
         end
  end.

Definition opt_truthy (o : option float) : bool :=
  match o with Some f => ftruthy f | None => false end.

(** [CcxtTradeGateway._limits_of] *)
Definition limits_of (market : pyval) (symbol : string) : res exn MarketLimits :=
  limits ← get "limits" market;
  let limits := or_else limits (VDict []) in
  amount ← get "amount" limits;
  min_amount ← get "min" (or_else amount (VDict []));
  mq ← as_float min_amount;
  cost ← get "cost" limits;
  min_cost ← get "min" (or_else cost (VDict []));
  mn ← as_float min_cost;
  mret (mkMarketLimits symbol mq mn).

(** A row of [fetch_balances]. *)
Record balance_row := mkBalanceRow {
  b_code : string; b_free : option float; b_used : option float; b_total : option float
}.

(** A row of [fetch_open_positions]. *)
Record position_row := mkPositionRow {
  p_symbol : pyval; p_unified_symbol : pyval; p_qty : float; p_side : pyval;
  p_entry_price : option float; p_mark_price : option float; p_notional : option float;
  p_unrealized_pnl : option float; p_leverage : option float;
  p_liquidation_price : option float
}.

(** [for code in sorted(totals)] of [fetch_balances] *)
Fixpoint balance_rows (totals free used : pyval) (codes : list string)
    : res exn (list balance_row) :=
  match codes with
  | [] => mret []
  | code :: codes' =>
      f ← get code free; f ← as_float f;
      u ← get code used; u ← as_float u;
      t ← get code totals; t ← as_float t;
      rows ← balance_rows totals free used codes';
      mret (if opt_truthy t || opt_truthy f || opt_truthy u
            then mkBalanceRow code f u t :: rows else rows)
  end.

(** [sorted(totals)]: the keys of the dict *)
Definition sorted_codes (totals : pyval) : list string :=
  match totals with
  | VDict d => sorted_text d.*1
  | _ => []
  end.

(** The signed size of one [fetch_positions] entry, as the snapshot reads it. *)
Definition snapshot_qty (pos info : pyval) : res exn float :=
  contracts ← get "contracts" pos;
  qty ← as_float contracts;
  match qty with
  | Some q => mret q
  | None => size ← get "size" info;
            q ← as_float size;
            mret (match q with Some q => if ftruthy q then q else fzero | None => fzero end)
  end.

(** One iteration of [fetch_open_positions]; [None] is [continue]. *)
Definition position_row_of (pos : pyval) : res exn (option position_row) :=
  info ← get "info" pos;
  let info := or_else info (VDict []) in
  qty ← snapshot_qty pos info;
  if negb (ftruthy qty) then mret None
  else
    side ← get "side" pos;
    isym ← get "symbol" info;
    psym ← get "symbol" pos;
    entry ← get "entryPrice" pos; entry ← as_float entry;
    mark ← get "markPrice" pos; mark ← as_float mark;
    notional ← get "notional" pos; notional ← as_float notional;
    pnl ← get "unrealizedPnl" pos; pnl ← as_float pnl;
    lev ← get "leverage" pos; lev ← as_float lev;
    liq ← get "liquidationPrice" pos; liq ← as_float liq;
    mret (Some (mkPositionRow
      (or_else isym (or_else psym (VStr ""))) psym
      (if is_str "short" side then fopp (fabs qty) else fabs qty)
      side entry mark notional pnl lev liq)).

Fixpoint position_rows (l : list pyval) : res exn (list position_row) :=
  match l with
  | [] => mret []
  | pos :: l' =>
      row ← position_row_of pos;
      rows ← position_rows l';
      mret (match row with Some r => r :: rows | None => rows end)
  end.

(** The [for pos in positions] loop of [fetch_position_qty]. *)
Fixpoint signed_size (vendor_symbol : string) (unified : pyval) (l : list pyval) : res exn float :=
  match l with
  | [] => mret fzero
  | pos :: l' =>
      info ← get "info" pos;
      let info := or_else info (VDict []) in
      psym ← get "symbol" pos;
      isym ← get "symbol" info;
      if negb (is_str vendor_symbol psym || is_str vendor_symbol unified
               || is_str vendor_symbol isym)
      then signed_size vendor_symbol unified l'
      else
        contracts ← get "contracts" pos;
        qty ← match contracts with
              | VNone => size ← get "size" info;
                         match size with VNone => mret fzero | _ => float_val size end
              | _ => float_val contracts
              end;
        side ← get "side" pos;
        mret (if is_str "short" side then fopp (fabs qty) else qty)
  end.

(** The first quoted price of a ticker. *)
Fixpoint first_price (keys : list string) (ticker : pyval) : res exn (option float) :=
  match keys with
  | [] => mret None
  | k :: keys' =>
      val ← get k ticker;
      match val with
      | VNone => first_price keys' ticker
      | _ => f ← float_val val; mret (Some f)
      end
  end.

Section gateway.
Context {H X : Type} `{Ccxt H X}.
Variable config : CcxtSessionConfig.

Abbreviation G := (gateway H X).

Definition set_exchange (e : option H) : prog G exn unit := λ g,
  (Ok tt, mkGateway e (gw_route g) (gw_default_type g) (gw_world g)).
Definition set_route (r : EgressRoute) : prog G exn unit := λ g,
  (Ok tt, mkGateway (gw_exchange g) r (gw_default_type g) (gw_world g)).
Definition set_gw_default_type (t : option string) : prog G exn unit := λ g,
  (Ok tt, mkGateway (gw_exchange g) (gw_route g) t (gw_world g)).

(** A client call from inside the gateway. *)
Definition on_client {A} (m : prog X exn A) : prog G exn A := λ g,
  let '(r, x) := m (gw_world g) in
  (r, mkGateway (gw_exchange g) (gw_route g) (gw_default_type g) x).

(** [exchange] *)
Definition the_exchange : prog G exn H := λ g,
  match gw_exchange g with
  | Some e => (Ok e, g)
  | None => (Raise (BrokerConnectionError "exchange not connected" None), g)
  end.

(** [self.exchange.f(...)] *)
Definition call {A} (f : H → prog X exn A) : prog G exn A :=
  e ← the_exchange; on_client (f e).

(** [_build_exchange] *)
Definition build_exchange (route : EgressRoute) : prog G exn H := λ g,
  let p := preset config in
  if negb (has_exchange (exchange_id p)) then
    (Raise (BrokerConnectionError ("ccxt has no exchange class " +:+ repr_str (exchange_id p)) None), g)
  else
    let dt := match gw_default_type g with
              | Some "" | None => default_type p
              | Some t => Some t
              end in
    let params := mkExchangeParams (api_key config) (api_secret config)
                    (if has_id dt then dt else None)
                    (if has_id (proxy_url route) then proxy_url route else None) in
    (ex ← on_client (new_exchange (exchange_id p) params);
     _ ← on_client (wire (venue p) ex (connect_params config));
     mret ex) g.

(** [_auth_error] *)
Definition auth_error (e : exn) (phase : string) : exn :=
  let v := venue (preset config) in
  BrokerAuthError
    ("authentication failed during " +:+ phase +:+ ": " +:+ exn_msg e +:+ "." +:+
     auth_hint v (connect_params config))
    (Some (default KEY_REFUSED (classify_denial v e))).

(** The two [except] clauses most methods share: a refused key, then any other
    client error under the given text. *)
Definition translate {A} (phase : string) (text : string) (m : prog G exn A) : prog G exn A :=
  catch m (λ e,
    if is_ccxt e CcxtAuthenticationError then raise (auth_error e phase)
    else if is_ccxt e CcxtBaseError then
      raise (BrokerConnectionError (text +:+ exn_msg e) None)
    else raise e).

(** [disconnect] *)
Definition gw_disconnect : prog G exn unit := λ g,
  match gw_exchange g with
  | None => (Ok tt, g)
  | Some e => (_ ← catch (on_client (x_close e)) (λ _, mret tt); set_exchange None) g
  end.

(** [connect] *)
Definition gw_connect (route : EgressRoute) : prog G exn unit :=
  _ ← set_route route;
  ex ← build_exchange route;
  _ ← set_exchange (Some ex);
  catch (on_client (x_load_markets ex)) (λ e,
    if is_ccxt e CcxtAuthenticationError then
      _ ← gw_disconnect; raise (auth_error e "load_markets")
    else if is_ccxt e CcxtBaseError then
      _ ← gw_disconnect;
      raise (BrokerConnectionError ("broker unreachable during load_markets: " +:+ exn_msg e) None)
    else raise e).

(** [health] *)
Definition gw_health (g : G) : BrokerSessionState :=
  match gw_exchange g with
  | None => mkSessionState false "not connected"
  | Some _ => mkSessionState true "ok"
  end.

(** [fetch_api_key_info] *)
Definition gw_fetch_api_key_info : prog G exn (option ApiKeyInfo) :=
  translate "fetch_api_key_info" "fetch_api_key_info failed: "
    (call (venue_api_key_info (venue (preset config)))).

(** [validate_credentials] *)
Definition validate_credentials : prog G exn unit :=
  translate "fetch_balance" "broker unreachable: " (_ ← call x_fetch_balance; mret tt).

(** [pin_default_type] *)
Definition gw_pin_default_type (t : option string) : prog G exn unit :=
  _ ← set_gw_default_type t;
  g ← get_state;
  match gw_exchange g, t with
  | Some e, Some (String _ _ as t) => on_client (set_option_default_type e t)
  | _, _ => mret tt
  end.

(** [market_exists] *)
Definition market_exists (vendor_symbol : string) : prog G exn bool :=
  e ← the_exchange;
  g ← get_state;
  if bool_decide (is_Some (dict_get vendor_symbol (x_markets e (gw_world g)))) then mret true
  else catch (_ ← call (λ e, x_market e vendor_symbol); mret true)
         (λ ex, if is_ccxt ex CcxtBadSymbol then mret false else raise ex).

(** [fetch_market_limits] *)
Definition fetch_market_limits (vendor_symbol : string) : prog G exn MarketLimits := λ g,
  match gw_exchange g with
  | None => (Ok (no_limits vendor_symbol), g)
  | Some _ =>
      try_else (call (λ e, x_market e vendor_symbol))
        (λ market, lift_res (limits_of market vendor_symbol))
        (λ ex, if is_ccxt ex CcxtBadSymbol || is_ccxt ex CcxtBaseError
               then mret (no_limits vendor_symbol) else raise ex) g
  end.

(** The two keys one market is listed under in [fetch_all_market_limits]. *)
Fixpoint limits_under (keys : list pyval) (market : pyval) (out : list (string * MarketLimits))
    : res exn (list (string * MarketLimits)) :=
  match keys with
  | [] => mret out
  | VStr (String _ _ as key) :: keys' =>
      l ← limits_of market key; limits_under keys' market (dict_set key l out)
  | _ :: keys' => limits_under keys' market out
  end.

Fixpoint all_limits (dt : option string) (markets : list pyval) (out : list (string * MarketLimits))
    : res exn (list (string * MarketLimits)) :=
  match markets with
  | [] => mret out
  | market :: markets' =>
      flag ← match dt with
             | Some (String _ _ as t) => v ← get t market; mret (truthy v)
             | _ => mret true
             end;
      if negb flag then all_limits dt markets' out
      else
        i ← get "id" market;
        s ← get "symbol" market;
        out' ← limits_under [i; s] market out;
        all_limits dt markets' out'
  end.

(** [fetch_all_market_limits] *)
Definition fetch_all_market_limits : prog G exn (list (string * MarketLimits)) :=
  e ← the_exchange;
  g ← get_state;
  let dt := match gw_default_type g with
            | Some "" | None => default_type (preset config)
            | Some t => Some t
            end in
  lift_res (all_limits dt (x_markets e (gw_world g)).*2 []).

(** [create_market_order] *)
Definition create_market_order (vendor_symbol side : string) (qty : float) : prog G exn pyval :=
  catch (call (λ e, x_create_order e vendor_symbol "market" side qty)) (λ e,
    if is_ccxt e CcxtInsufficientFunds then
      raise (BrokerConnectionError ("insufficient funds: " +:+ exn_msg e) (Some INSUFFICIENT_FUNDS))
    else if is_ccxt e CcxtInvalidOrder then
      raise (BrokerConnectionError ("invalid order: " +:+ exn_msg e) (Some INVALID_ORDER))
    else if is_ccxt e CcxtAuthenticationError then raise (auth_error e "create_order")
    else if is_ccxt e CcxtBaseError then
      raise (BrokerConnectionError ("create_order failed: " +:+ exn_msg e) None)
    else raise e).

(** [cancel_order] *)
Definition gw_cancel_order (vendor_order_id : string) (vendor_symbol : option string)
    : prog G exn pyval :=
  translate "cancel_order" "cancel_order failed: "
    (call (λ e, x_cancel_order e vendor_order_id vendor_symbol)).

(** [fetch_open_orders] *)
Definition gw_fetch_open_orders (vendor_symbol : option string) : prog G exn (list pyval) :=
  translate "fetch_open_orders" "fetch_open_orders failed: "
    (call (λ e, x_fetch_open_orders e vendor_symbol)).

(** [fetch_order] *)
Definition fetch_order (vendor_order_id vendor_symbol : string) : prog G exn pyval :=
  let params := match fetch_order_params (preset config) with
                | None | Some [] => None
                | Some d => Some (VDict d)
                end in
  catch (call (λ e, x_fetch_order e vendor_order_id vendor_symbol params)) (λ e,
    if is_ccxt e CcxtOrderNotFound then
      raise (OrderNotFoundError ("order not found: " +:+ exn_msg e))
    else if is_ccxt e CcxtAuthenticationError then raise (auth_error e "fetch_order")
    else if is_ccxt e CcxtBaseError then
      raise (BrokerConnectionError ("fetch_order failed: " +:+ exn_msg e) None)
    else raise e).

(** [fetch_last_price] *)
Definition fetch_last_price (vendor_symbol : string) : prog G exn (option float) :=
  ticker ← translate "fetch_ticker" "fetch_ticker failed: "
             (call (λ e, x_fetch_ticker e vendor_symbol));
  lift_res (first_price ["last"; "close"; "bid"; "ask"] ticker).

(** [fetch_balances] *)
Definition fetch_balances : prog G exn (list balance_row) :=
  raw ← translate "fetch_balance" "fetch_balance failed: " (call x_fetch_balance);
  lift_res (
    totals ← get "total" raw;
    let totals := or_else totals (VDict []) in
    free ← get "free" raw;
    used ← get "used" raw;
    balance_rows totals (or_else free (VDict [])) (or_else used (VDict [])) (sorted_codes totals)).

(** [fetch_open_positions] *)
Definition fetch_open_positions : prog G exn (list position_row) :=
  positions ← translate "fetch_positions" "fetch_positions failed: "
                (call (λ e, x_fetch_positions e None));
  lift_res (position_rows positions).

(** [_base_balance] *)
Definition base_balance (vendor_symbol : string) : prog G exn float :=
  mr ← translate "fetch_balance" "fetch_balance failed: "
         (market ← call (λ e, x_market e vendor_symbol);
          raw ← call x_fetch_balance;
          mret (market, raw));
  lift_res (
    base ← get "base" mr.1;
    if negb (truthy base) then
      Raise (BrokerConnectionError ("no base currency for " +:+ vendor_symbol) None)
    else
      total ← get "total" mr.2;
      v ← get_by base (or_else total (VDict []));
      q ← as_float v;
      mret (match q with Some q => if ftruthy q then q else fzero | None => fzero end)).

(** [fetch_position_qty] *)
Definition fetch_position_qty (vendor_symbol : string) : prog G exn float := λ g,
  if bool_decide (gw_default_type g = Some "spot") then base_balance vendor_symbol g
  else
    (positions ← catch (call (λ e, x_fetch_positions e (Some [vendor_symbol]))) (λ e,
       if is_ccxt e CcxtBaseError then
         raise (BrokerConnectionError ("fetch_positions failed: " +:+ exn_msg e) None)
       else raise e);
     unified ← catch (m ← call (λ e, x_market e vendor_symbol); lift_res (getitem "symbol" m)) (λ e,
       if is_ccxt e CcxtBadSymbol then mret (VStr vendor_symbol) else raise e);
     lift_res (signed_size vendor_symbol unified positions)) g.
End gateway.

(** ** Facts: what a method leaves of the session *)

Section gateway_facts.
Context {H X : Type} `{Ccxt H X}.
Variable config : CcxtSessionConfig.
Implicit Types g : gateway H X.

Definition session_of g : option H * EgressRoute * option string :=
  (gw_exchange g, gw_route g, gw_default_type g).

(** A program that runs on the session without changing it. *)
Definition keeps_session {A} (m : prog (gateway H X) exn A) : Prop :=
  ∀ g, session_of (m g).2 = session_of g.

Lemma wp_on_client {A} (m : prog X exn A) Q R g :
  wp (on_client m) Q R g ↔
  wp m (λ a x, Q a (mkGateway (gw_exchange g) (gw_route g) (gw_default_type g) x))
       (λ e x, R e (mkGateway (gw_exchange g) (gw_route g) (gw_default_type g) x)) (gw_world g).
Proof. unfold wp, on_client. by destruct (m (gw_world g)) as [[a|e] x]. Qed.

Lemma keeps_on_client {A} (m : prog X exn A) : keeps_session (on_client m).
Proof. intros g. unfold on_client. by destruct (m (gw_world g)). Qed.

Lemma keeps_the_exchange : keeps_session the_exchange.
Proof. intros g. unfold the_exchange. by destruct (gw_exchange g). Qed.

Lemma keeps_lift_res {A} (r : res exn A) : keeps_session (lift_res r).
Proof. done. Qed.

Lemma keeps_ret {A} (a : A) : keeps_session (mret a).
Proof. done. Qed.

Lemma keeps_raise {A} e : keeps_session (@raise _ _ A e).
Proof. done. Qed.

Lemma keeps_get_state : keeps_session get_state.
Proof. done. Qed.

Lemma keeps_bind {A B} (m : prog _ exn A) (f : A → prog _ exn B) :
  keeps_session m → (∀ a, keeps_session (f a)) → keeps_session (m ≫= f).
Proof.
  intros Hm Hf g. unfold mbind, prog_bind. specialize (Hm g).
  destruct (m g) as [[a|e] g1]; simpl in *; [by rewrite Hf|done].
Qed.

Lemma keeps_catch {A} (m : prog _ exn A) h :
  keeps_session m → (∀ e, keeps_session (h e)) → keeps_session (catch m h).
Proof.
  intros Hm Hh g. unfold catch. specialize (Hm g).
  destruct (m g) as [[a|e] g1]; simpl in *; [done|by rewrite Hh].
Qed.

Lemma keeps_call {A} (f : H → prog X exn A) : keeps_session (call f).
Proof. apply keeps_bind; [apply keeps_the_exchange|intros; apply keeps_on_client]. Qed.
End gateway_facts.

Create HintDb session.
#[export] Hint Resolve keeps_on_client keeps_the_exchange keeps_lift_res keeps_ret keeps_raise
  keeps_get_state keeps_bind keeps_catch keeps_call : session.

(** Walks a program down to client calls that leave the session alone. *)
Ltac keeps_session :=
  repeat first
    [ progress eauto with session nocore
    | apply keeps_bind | apply keeps_catch
    | match goal with |- forall _, _ => intros ? end | case_match ].

Section gateway_errors.
Context {H X : Type} `{Ccxt H X}.
Variable config : CcxtSessionConfig.

(** No exception of the client library comes out of [m]. *)
Definition translated {A} (m : prog (gateway H X) exn A) : Prop :=
  ∀ g, wp m (λ _ _, True) (λ e _, is_ccxt e CcxtBaseError = false) g.

Lemma translate_keeps {A} phase text (m : prog (gateway H X) exn A) :
  keeps_session m → keeps_session (translate config phase text m).
Proof. intros Hm. unfold translate. apply keeps_catch; [done|]. keeps_session. Qed.

Lemma translate_translated {A} phase text (m : prog (gateway H X) exn A) :
  translated (translate config phase text m).
Proof.
  intros g. unfold translate. rewrite wp_catch. apply wp_intro; intros; [done|].
  repeat case_match; by rewrite wp_raise.
Qed.

Lemma translated_bind {A B} (m : prog (gateway H X) exn A) (f : A → prog _ exn B) :
  translated m → (∀ a, translated (f a)) → translated (m ≫= f).
Proof.
  intros Hm Hf g. rewrite wp_bind. eapply wp_mono; [apply Hm| |done]. intros a g' _. apply Hf.
Qed.

(** A pure step raises nothing of the client's. *)
Definition own_errors {A} (r : res exn A) : Prop :=
  ∀ e, r = Raise e → is_ccxt e CcxtBaseError = false.

Lemma translated_lift_res {A} (r : res exn A) : own_errors r → translated (lift_res r).
Proof. intros Hr g. rewrite wp_lift_res. destruct r; [done|by apply Hr]. Qed.

Lemma own_bind {A B} (r : res exn A) (f : A → res exn B) :
  own_errors r → (∀ a, own_errors (f a)) → own_errors (r ≫= f).
Proof. intros Hr Hf e. destruct r as [a|e']; simpl; [apply Hf|]. intros [= <-]. by apply Hr. Qed.

Lemma own_ret {A} (a : A) : own_errors (mret a).
Proof. by intros e. Qed.

Lemma own_get k v : own_errors (get k v).
Proof. intros e. destruct v; simpl; by intros [= <-]. Qed.

Lemma own_get_by k v : own_errors (get_by k v).
Proof. intros e. destruct k, v; simpl; by intros [= <-]. Qed.

Lemma own_as_float v : own_errors (as_float v).
Proof. intros e He. apply as_float_raises in He. unfold is_ccxt. by rewrite He. Qed.

Lemma own_float_val v : own_errors (float_val v).
Proof.
  intros e. destruct v; simpl; try case_match; try by intros [= <-].
Qed.

Lemma own_tuple_of v : own_errors (tuple_of v).
Proof. intros e. destruct v; simpl; by intros [= <-]. Qed.
End gateway_errors.

Create HintDb own.
#[export] Hint Resolve own_ret own_get own_get_by own_as_float own_float_val own_tuple_of : own.

Ltac own_errors :=
  repeat first
    [ progress eauto with own nocore
    | apply own_bind
    | match goal with |- forall _, _ => intros ? end | case_match ].

(** Reading a response raises nothing of the client's. *)
Section readers.
Lemma own_limits_of market s : own_errors (limits_of market s).
Proof. unfold limits_of. own_errors. Qed.

Lemma own_balance_rows totals free used codes : own_errors (balance_rows totals free used codes).
Proof. induction codes; simpl; own_errors. Qed.

Lemma own_position_rows l : own_errors (position_rows l).
Proof.
  induction l; simpl; [own_errors|].
  apply own_bind; [unfold position_row_of, snapshot_qty; own_errors|own_errors].
Qed.

Lemma own_first_price keys ticker : own_errors (first_price keys ticker).
Proof. induction keys; simpl; own_errors. Qed.

Lemma own_signed_size s u l : own_errors (signed_size s u l).
Proof. induction l; simpl; own_errors. Qed.
End readers.

Section gateway_methods.
Context {H X : Type} `{Ccxt H X}.
Variable config : CcxtSessionConfig.
Implicit Types g : gateway H X.

Lemma fetch_order_translated i s : translated (H:=H) (X:=X) (fetch_order config i s).
Proof.
  intros g. unfold fetch_order. rewrite wp_catch. apply wp_intro; intros; [done|].
  repeat case_match; by rewrite wp_raise.
Qed.

Lemma create_market_order_translated s sd q :
  translated (H:=H) (X:=X) (create_market_order config s sd q).
Proof.
  intros g. unfold create_market_order. rewrite wp_catch. apply wp_intro; intros; [done|].
  repeat case_match; by rewrite wp_raise.
Qed.

Lemma fetch_last_price_translated s : translated (H:=H) (X:=X) (fetch_last_price config s).
Proof.
  apply translated_bind; [apply translate_translated|].
  intros. apply translated_lift_res, own_first_price.
Qed.

Lemma fetch_balances_translated : translated (H:=H) (X:=X) (fetch_balances config).
Proof.
  apply translated_bind; [apply translate_translated|]. intros raw. apply translated_lift_res.
  pose proof own_balance_rows. own_errors.
Qed.

Lemma fetch_open_positions_translated : translated (H:=H) (X:=X) (fetch_open_positions config).
Proof.
  apply translated_bind; [apply translate_translated|]. intros. apply translated_lift_res, own_position_rows.
Qed.

(** [translated] with the session left as it was. *)
Lemma fetch_api_key_info_keeps : keeps_session (H:=H) (X:=X) (gw_fetch_api_key_info config).
Proof. apply translate_keeps, keeps_call. Qed.

(** ** Opening a session *)

(** The session is open on [route]. *)
Definition connected_on (route : EgressRoute) g : Prop := is_Some (gw_exchange g) ∧ gw_route g = route.

(** The documented failures of [load_markets]: ccxt exceptions. *)
Definition ccxt_load_errors : Prop := ∀ (h : H) x e x',
  x_load_markets h x = (Raise e, x') → is_ccxt e CcxtBaseError = true.

Lemma gw_disconnect_spec g :
  ∃ g', gw_disconnect g = (Ok tt, g') ∧ gw_exchange g' = None ∧ gw_route g' = gw_route g ∧
        gw_default_type g' = gw_default_type g.
Proof.
  unfold gw_disconnect. destruct (gw_exchange g) as [ex|] eqn:Hex; [|by exists g].
  unfold mbind, prog_bind, catch, on_client.
  destruct (x_close ex (gw_world g)) as [[[]|e] x]; by eexists.
Qed.

Lemma build_exchange_keeps route : keeps_session (H:=H) (X:=X) (build_exchange config route).
Proof.
  intros g. unfold build_exchange. destruct (negb _); [done|].
  match goal with |- session_of (?m g).2 = _ => assert (keeps_session m) as Hm; [|apply Hm] end.
  keeps_session.
Qed.

(** A session that could not be opened is closed, whatever the venue did. *)
Lemma gw_connect_spec route g : ccxt_load_errors → gw_exchange g = None →
  wp (gw_connect config route) (λ _ g', connected_on route g')
     (λ _ g', gw_exchange g' = None) g.
Proof.
  intros Hload Hnone. unfold gw_connect. rewrite wp_bind. unfold set_route at 1.
  unfold wp at 1; simpl. rewrite wp_bind. set (g0 := mkGateway _ _ _ _).
  pose proof (build_exchange_keeps route g0) as Hk. apply wp_intro; intros a g1 Hb; rewrite Hb in Hk;
    injection Hk; simpl in *; [|congruence].
  intros _ Hr He. rewrite wp_bind. unfold set_exchange at 1. unfold wp at 1; simpl.
  rewrite wp_catch, wp_on_client. simpl. apply wp_intro; intros r x Hl; [by split|].
  specialize (Hload _ _ _ _ Hl). rewrite Hload.
  set (g2 := mkGateway _ _ _ _). destruct (gw_disconnect_spec g2) as (g3 & Hd & He3 & _).
  destruct (is_ccxt r CcxtAuthenticationError); unfold wp, mbind, prog_bind; by rewrite Hd.
Qed.

(** What [create_market_order] makes of the client's exception. *)
Definition order_error (e : exn) : exn :=
  if is_ccxt e CcxtInsufficientFunds then
    BrokerConnectionError ("insufficient funds: " +:+ exn_msg e) (Some INSUFFICIENT_FUNDS)
  else if is_ccxt e CcxtInvalidOrder then
    BrokerConnectionError ("invalid order: " +:+ exn_msg e) (Some INVALID_ORDER)
  else if is_ccxt e CcxtAuthenticationError then auth_error config e "create_order"
  else if is_ccxt e CcxtBaseError then
    BrokerConnectionError ("create_order failed: " +:+ exn_msg e) None
  else e.

Lemma create_market_order_error s sd q h g e x :
  gw_exchange g = Some h → x_create_order h s "market" sd q (gw_world g) = (Raise e, x) →
  (create_market_order config s sd q g).1 = Raise (order_error e).
Proof.
  intros Hh Hc. unfold create_market_order, catch, call, mbind, prog_bind, the_exchange.
  rewrite Hh. unfold on_client. rewrite Hc. unfold order_error. by repeat case_match.
Qed.

(** A refused key is typed whatever the venue's text: the reason is never lost. *)
Lemma auth_error_typed e phase : is_Some (exn_reason (auth_error config e phase)).
Proof. by eexists. Qed.
End gateway_methods.

(** Nothing the client library raises crosses the gateway: from any state
    of the session and for any behaviour of the client, what comes out of an
    order, cancel, poll, price, balance, position or key call is never a ccxt
    exception, so callers need only the broker error classes. *)
Theorem gateway_translates {H X} `{Ccxt H X} config s sd q i os :
  translated (H:=H) (X:=X) (create_market_order config s sd q) ∧
  translated (H:=H) (X:=X) (gw_cancel_order config i os) ∧
  translated (H:=H) (X:=X) (gw_fetch_open_orders config os) ∧
  translated (H:=H) (X:=X) (fetch_order config i s) ∧
  translated (H:=H) (X:=X) (fetch_last_price config s) ∧
  translated (H:=H) (X:=X) (fetch_balances config) ∧
  translated (H:=H) (X:=X) (fetch_open_positions config) ∧
  translated (H:=H) (X:=X) (gw_fetch_api_key_info config) ∧
  translated (H:=H) (X:=X) (validate_credentials config).
Proof.
  split_and!; auto using create_market_order_translated, fetch_order_translated,
    fetch_last_price_translated, fetch_balances_translated, fetch_open_positions_translated;
    apply translate_translated.
Qed.
