(* ===== verification/Adapter.v ===== *)
(** * The broker interface

    [quant/trade/adapters/base.py]: what a broker session promises the order
    policy.  Clients are written and proved against the class [TradeAdapter];
    [CcxtAdapter] implements it over a ccxt gateway.  The file also holds the
    instrumented adapter that records every call with its outcome, which is
    what statements about the order of broker calls quantify over. *)
From S2P Require Import Prelude PyFloat PyData Order Errors.

(** [TradeAdapter].  [place_order] is annotated to return an [OrderResult];
    callers still test for [None], so the interface allows it. *)
Class TradeAdapter (W : Type) := {
  connect : prog W exn unit;
  disconnect : prog W exn unit;
  place_order : OrderRequest → prog W exn (option OrderResult);
  cancel_order : string → option string → prog W exn OrderResult;
  get_position_qty : string → prog W exn float;
  get_last_price : string → prog W exn (option float);
  validate_for_dry_run : string → Z → prog W exn string
}.

(** [time.sleep] *)
Class Clock (W : Type) := { sleep : float → prog W exn unit }.

(** [with adapter: body] — [__enter__] connects, [__exit__] always
    disconnects; a failed connect never reaches [__exit__]. *)
Definition with_session {W A} `{TradeAdapter W} (body : prog W exn A) : prog W exn A :=
  _ ← connect; finally body disconnect.

(** ** Recording calls *)

Inductive event :=
| EConnect (r : res exn unit)
| EDisconnect (r : res exn unit)
| EPlace (req : OrderRequest) (r : res exn (option OrderResult))
| ECancel (id : string) (symbol : option string) (r : res exn OrderResult)
| EPosition (symbol : string) (r : res exn float)
| EPrice (symbol : string) (r : res exn (option float))
| EValidate (cusip : string) (app_id : Z) (r : res exn string)
| ESleep (s : float) (r : res exn unit).

Definition traced_adapter {W} (A : TradeAdapter W) : TradeAdapter (W * list event) := {|
  connect := logged EConnect connect;
  disconnect := logged EDisconnect disconnect;
  place_order req := logged (EPlace req) (place_order req);
  cancel_order i s := logged (ECancel i s) (cancel_order i s);
  get_position_qty s := logged (EPosition s) (get_position_qty s);
  get_last_price s := logged (EPrice s) (get_last_price s);
  validate_for_dry_run c a := logged (EValidate c a) (validate_for_dry_run c a)
|}.

Definition traced_clock {W} (C : Clock W) : Clock (W * list event) := {|
  sleep s := logged (ESleep s) (sleep s)
|}.

Definition is_place (e : event) : bool :=
  match e with EPlace _ _ => true | _ => false end.

(** Orders a trace placed. *)
Definition n_placed (tr : list event) : nat := length (List.filter is_place tr).

#[global] Arguments n_placed : simpl never.

(** A broker replaying canned answers, the last one for ever: the worlds of the
    concrete runs. *)
Record script := mkScript {
  sc_positions : list float;
  sc_places : list (res exn (option OrderResult));
  sc_cancels : list (res exn OrderResult)
}.

Definition pop_answer {A} (default : A) (l : list A) : A * list A :=
  match l with
  | [] => (default, [])
  | [x] => (x, [x])
  | x :: l' => (x, l')
  end.

Definition out_of_script {A} : res exn A := Raise (RuntimeError "no answer").

Definition scripted_adapter : TradeAdapter script := {|
  connect w := (Ok tt, w);
  disconnect w := (Ok tt, w);
  place_order _ w :=
    let '(r, l) := pop_answer out_of_script (sc_places w) in
    (r, mkScript (sc_positions w) l (sc_cancels w));
  cancel_order _ _ w :=
    let '(r, l) := pop_answer out_of_script (sc_cancels w) in
    (r, mkScript (sc_positions w) (sc_places w) l);
  get_position_qty _ w :=
    let '(r, l) := pop_answer fzero (sc_positions w) in
    (Ok r, mkScript l (sc_places w) (sc_cancels w));
  get_last_price _ w := (Ok None, w);
  validate_for_dry_run c _ w := (Ok c, w)
|}.

Definition instant_clock {W} : Clock W := {| sleep _ w := (Ok tt, w) |}.

(** ** Facts *)

Lemma n_placed_app tr tr' : n_placed (tr ++ tr') = (n_placed tr + n_placed tr')%nat.
Proof. unfold n_placed. by rewrite List.filter_app, length_app. Qed.

(** A session that was opened is closed, however its body ends. *)
Lemma with_session_disconnects {W A} `{TradeAdapter W} (body : prog W exn A) w w1 :
  connect w = (Ok tt, w1) →
  ∃ r w2 rd w3, body w1 = (r, w2) ∧ disconnect w2 = (rd, w3) ∧
    (with_session body w).2 = w3.
Proof.
  intros Hc. destruct (body w1) as [r w2] eqn:Hb, (disconnect w2) as [rd w3] eqn:Hd.
  exists r, w2, rd, w3. repeat split; [done|].
  unfold with_session, mbind, prog_bind, finally. rewrite Hc, Hb, Hd. by destruct rd.
Qed.

(** A session that could not be opened runs no body. *)
Lemma with_session_refused {W A} `{TradeAdapter W} (body : prog W exn A) w e w1 :
  connect w = (Raise e, w1) → with_session body w = (Raise e, w1).
Proof. intros Hc. unfold with_session, mbind, prog_bind. by rewrite Hc. Qed.
