(* ===== verification/OrderPolicy.v ===== *)
(** * Order policy

    [quant/trade/order_policy.py]: which order a signal and a live position
    call for, and the bounded retry of that order. *)
From S2P Require Import Prelude PyFloat PyData Order Errors Adapter.

(** ** Deciding *)

(** [_FLAT_EPS = 1e-9] *)
Definition FLAT_EPS : float := of_decimal false 1 (-9).

Definition intended_action (signal position_qty : float) : res exn IntendedAction :=
  sig ← res_map_exn int_exn (round_int signal);
  let position_qty := if fleb (fabs position_qty) FLAT_EPS then fzero else position_qty in
  mret (if 0 <? sig then
          if fltb position_qty fzero then CLOSE_SHORT
          else if feqb position_qty fzero then BUY else HOLD
        else if sig =? 0 then
          if fltb fzero position_qty then SELL
          else if fltb position_qty fzero then CLOSE_SHORT else HOLD
        else
          if fltb fzero position_qty then SELL
          else if feqb position_qty fzero then OPEN_SHORT else HOLD).

Definition order_for (symbol : string) (action : IntendedAction) (qty position_qty : float)
    : option OrderRequest :=
  let place req := if fltb fzero (req_qty req) then Some req else None in
  match action with
  | HOLD => None
  | BUY => place (market_order symbol qty OBuy)
  | OPEN_SHORT => place (market_order symbol qty OSell)
  | SELL => place (market_order symbol (fabs position_qty) OSell)
  | CLOSE_SHORT => place (market_order symbol (fabs position_qty) OBuy)
  end.

(** ** One attempt, and the outcome of all of them *)

Record ApplyAttempt := mkApplyAttempt {
  at_action : IntendedAction;
  at_position_qty : float;
  at_result : option OrderResult
}.

(** [ApplyAttempt.buy_sell_cd] *)
Definition buy_sell_cd (a : ApplyAttempt) : string :=
  match at_action a with
  | HOLD => IntendedAction_value HOLD
  | act => match order_side act with
           | Some s => OrderSide_value s
           | None => IntendedAction_value act
           end
  end.

(** [ApplyAttempt.is_success_ind] *)
Definition is_success_ind (a : ApplyAttempt) : string :=
  match at_result a with
  | None => "Y"
  | Some r => if success r then "Y" else "N"
  end.

(** [ApplyAttempt.vendor_order_id] *)
Definition at_vendor_order_id (a : ApplyAttempt) : option string :=
  r ← at_result a; vendor_order_id r.

(** [ApplyAttempt.quantity] *)
Definition at_quantity (a : ApplyAttempt) (default_qty : float) : option float :=
  match at_result a with
  | None => None
  | Some r => match filled_qty r, requested_qty r with
              | Some q, _ => Some q
              | None, Some q => Some q
              | None, None => Some default_qty
              end
  end.

Record OrderRetryResult := mkOrderRetryResult {
  rr_action : IntendedAction;
  rr_position_qty : float;
  rr_result : option OrderResult;
  rr_attempts : list ApplyAttempt;
  rr_max_attempts : Z;
  rr_permanent_failure : bool
}.

(** [OrderRetryResult.no_order_message] *)
Definition no_order_message (r : OrderRetryResult) : string :=
  match rr_action r with
  | HOLD => "no order needed (HOLD)"
  | _ => "no order needed (qty resolved to 0)"
  end.

(** [OrderRetryResult.vendor_order_ids] *)
Definition vendor_order_ids (r : OrderRetryResult) : list string :=
  omap (λ a, match at_vendor_order_id a with
             | Some i => if has_id (Some i) then Some i else None
             | None => None
             end) (rr_attempts r).

(** ** [OrderRetryPolicy] *)

Record OrderRetryPolicy := mkOrderRetryPolicy { max_attempts : Z; backoff_s : float }.

Definition TRANSIENT_MARKERS : list string := ["unreachable"; "rate"; "timeout"].

Definition is_unconfirmed (result : OrderResult) : bool :=
  let msg := lower (message result) in
  str_contains "fill unconfirmed" msg || str_contains "requires manual reconciliation" msg.

Definition is_retryable (result : OrderResult) : bool :=
  if success result then false
  else match reason result with
       | Some _ => false
       | None =>
           if is_unconfirmed result then true
           else if has_id (vendor_order_id result) then true
           else existsb (λ marker, str_contains marker (lower (message result)))
                  TRANSIENT_MARKERS
       end.

(** ** [OrderRetryExecutor] *)

(** [_outcome] *)
Definition outcome (policy : OrderRetryPolicy) (action : IntendedAction) (position_qty : float)
    (result : option OrderResult) (attempts : list ApplyAttempt) : OrderRetryResult :=
  mkOrderRetryResult action position_qty result attempts (max_attempts policy)
    match result with
    | None => false
    | Some r => negb (success r) && (length attempts =? 1)%nat && negb (is_retryable r)
    end.

Section executor.
Context {W : Type} `{TradeAdapter W} `{Clock W}.
Variables (policy : OrderRetryPolicy) (vendor_symbol : string) (signal qty : float).

(** The [for attempt_num in range(1, max_attempts + 1)] loop, [fuel]
    iterations of it left; [execute] starts it with all of them. *)
Fixpoint attempt_loop (fuel : nat) (attempt_num : Z) (attempts : list ApplyAttempt)
    : prog W exn OrderRetryResult :=
  match fuel with
  | O => raise (AssertionError "unreachable — loop always returns")
  | S fuel' =>
      position_qty ← get_position_qty vendor_symbol;
      action ← lift_res (intended_action signal position_qty);
      match order_for vendor_symbol action qty position_qty with
      | None =>
          mret (outcome policy action position_qty None
                  (attempts ++ [mkApplyAttempt action position_qty None]))
      | Some req =>
          result ← place_order req;
          let finish r := mret (outcome policy action position_qty r
                                  (attempts ++ [mkApplyAttempt action position_qty r])) in
          match result with
          | None => finish None
          | Some r =>
              if success r then finish (Some r)
              else if negb (is_retryable r) then finish (Some r)
              else
                let retry :=
                  if max_attempts policy <=? attempt_num then finish (Some r)
                  else _ ← sleep (backoff_s policy);
                       attempt_loop fuel' (attempt_num + 1)
                         (attempts ++ [mkApplyAttempt action position_qty (Some r)]) in
                match vendor_order_id r with
                | Some i =>
                    if is_unconfirmed r && has_id (Some i) then
                      cancel ← cancel_order i (Some vendor_symbol);
                      if success cancel then retry
                      else finish (Some (with_reason r CANCEL_FAILED))
                    else retry
                | None => retry
                end
          end
      end
  end.

(** [OrderRetryExecutor.execute] *)
Definition execute : prog W exn OrderRetryResult :=
  attempt_loop (Z.to_nat (max_attempts policy)) 1 [].
End executor.

(** ** Specifications *)

(** What a position is worth to the policy: short, flat or long; [None] for a
    reading that is not a number. *)
Definition exposure (position_qty : float) : option comparison :=
  if is_nan position_qty then None
  else if fleb (fabs position_qty) FLAT_EPS then Some Eq
  else if fltb position_qty fzero then Some Lt else Some Gt.

(** The table in the docstring of [intended_action]. *)
Definition decision_table (signal : comparison) (position : comparison) : IntendedAction :=
  match signal, position with
  | Gt, Eq => BUY
  | Gt, Gt => HOLD
  | Gt, Lt => CLOSE_SHORT
  | Eq, Gt => SELL
  | Eq, Eq => HOLD
  | Eq, Lt => CLOSE_SHORT
  | Lt, Gt => SELL
  | Lt, Eq => OPEN_SHORT
  | Lt, Lt => HOLD
  end.

(** A book with no dust: flat is exactly zero. *)
Definition no_dust (position_qty : float) : bool :=
  feqb position_qty fzero || negb (fleb (fabs position_qty) FLAT_EPS).

(** A venue that fills every market order in full. *)
Definition fill (req : OrderRequest) (position_qty : float) : float :=
  match req_side req with
  | OBuy => fadd position_qty (req_qty req)
  | OSell => fsub position_qty (req_qty req)
  end.

(** One apply against that venue. *)
Definition apply_once (symbol : string) (signal qty position_qty : float) : float :=
  match intended_action signal position_qty with
  | Ok action =>
      match order_for symbol action qty position_qty with
      | Some req => fill req position_qty
      | None => position_qty
      end
  | Raise _ => position_qty
  end.

(** What the executor knows about the book between two calls: nothing of its
    own rests there, an order of unknown fate may, or it is done placing. *)
Inductive book := Clear | Resting (id : string) | Closed.

(** The next state after one broker call, [None] where placing or cancelling
    at that point would be unsafe.  [rests r] says that the failed result [r]
    may have left its order open. *)
Definition book_step (rests : OrderResult → bool) (b : book) (e : event) : option book :=
  match e with
  | EPlace _ r =>
      match b with
      | Clear =>
          match r with
          | Ok (Some o) =>
              if success o then Some Closed
              else match reason o, vendor_order_id o with
                   | Some _, _ => Some Closed
                   | None, Some i => if rests o then Some (Resting i) else Some Clear
                   | None, None => Some Clear
                   end
          | _ => Some Closed
          end
      | _ => None
      end
  | ECancel i _ r =>
      match b with
      | Resting i' =>
          if decide (i = i') then
            match r with
            | Ok c => if success c then Some Clear else Some Closed
            | Raise _ => Some Closed
            end
          else None
      | _ => None
      end
  | _ => Some b
  end.

Definition book_run (rests : OrderResult → bool) (b : book) (tr : list event) : option book :=
  foldl (λ ob e, b ← ob; book_step rests b e) (Some b) tr.

(** The two readings of "may still rest": what the executor itself recognises,
    and any failed order that came back with an id. *)
Definition unconfirmed_rests (o : OrderResult) : bool :=
  is_unconfirmed o && has_id (vendor_order_id o).
Definition any_id_rests (o : OrderResult) : bool := has_id (vendor_order_id o).

(** What an adapter promises when it reports a failure with an order id: it
    says why, or says that the fill is unknown. *)
Definition explained (o : OrderResult) : Prop :=
  success o = false → has_id (vendor_order_id o) = true →
  reason o ≠ None ∨ is_unconfirmed o = true.

Definition explains_failures {W} (A : TradeAdapter W) : Prop :=
  ∀ req w o w', place_order req w = (Ok (Some o), w') → explained o.

(** ** Decisions *)

#[local] Opaque FLAT_EPS.

Lemma FLAT_EPS_pos : fleb fzero FLAT_EPS = true.
Proof. vm_compute. reflexivity. Qed.

Lemma exposure_flat p : exposure p = Some Eq → fleb (fabs p) FLAT_EPS = true.
Proof. unfold exposure. by repeat case_match. Qed.

Lemma nan_not_flat p : is_nan p = true → fleb (fabs p) FLAT_EPS = false.
Proof. by destruct p. Qed.

(** The sign tests [intended_action] makes on the normalised position. *)
Lemma exposure_tests p :
  let p' := if fleb (fabs p) FLAT_EPS then fzero else p in
  match exposure p with
  | Some Lt => fltb p' fzero = true ∧ feqb p' fzero = false ∧ fltb fzero p' = false
  | Some Eq => fltb p' fzero = false ∧ feqb p' fzero = true ∧ fltb fzero p' = false
  | Some Gt => fltb p' fzero = false ∧ feqb p' fzero = false ∧ fltb fzero p' = true
  | None => fltb p' fzero = false ∧ feqb p' fzero = false ∧ fltb fzero p' = false
  end.
Proof.
  unfold exposure. destruct (is_nan p) eqn:Hn; simpl.
  { rewrite nan_not_flat by done. by destruct p. }
  destruct (fleb (fabs p) FLAT_EPS) eqn:He; [done|].
  destruct (fzero_trichotomy p Hn) as [(-> & -> & ->)|[(Hl & Heq & ?)|(-> & -> & ->)]]; [done| |done].
  exfalso. revert He. by rewrite (fabs_fzero p Heq), FLAT_EPS_pos.
Qed.

(** The decision is exactly the documented table of the rounded signal's
    sign against the position's exposure, dust counting as flat; a position
    that is not a number is never traded on, and a signal that is not finite
    raises. *)
Theorem intended_action_table signal position_qty :
  intended_action signal position_qty =
  match round_int signal with
  | Ok n => Ok (match exposure position_qty with
                | Some e => decision_table (n ?= 0) e
                | None => HOLD
                end)
  | Raise e => Raise (int_exn e)
  end.
Proof.
  unfold intended_action. destruct (round_int signal) as [n|e]; [|done]. simpl.
  pose proof (exposure_tests position_qty) as Ht. simpl in Ht.
  set (p' := if fleb _ _ then _ else _) in *. unfold mret, res_ret. f_equal.
  destruct (Z.compare_spec n 0) as [->|Hn|Hn].
  - simpl. destruct (exposure position_qty) as [[]|]; destruct Ht as (H1 & H2 & H3); by rewrite ?H1, ?H2, ?H3.
  - replace (0 <? n) with false by lia. replace (n =? 0) with false by lia.
    destruct (exposure position_qty) as [[]|]; destruct Ht as (H1 & H2 & H3); by rewrite ?H1, ?H2, ?H3.
  - replace (0 <? n) with true by lia.
    destruct (exposure position_qty) as [[]|]; destruct Ht as (H1 & H2 & H3); by rewrite ?H1, ?H2, ?H3.
Qed.

Lemma no_dust_exposure p : is_finite p = true → no_dust p = true →
  exposure p = Some Eq ∧ feqb p fzero = true ∨
  exposure p = Some Lt ∧ fltb p fzero = true ∨
  exposure p = Some Gt ∧ fltb fzero p = true.
Proof.
  intros Hf Hd. assert (is_nan p = false) as Hn by by destruct p.
  unfold exposure. rewrite Hn. unfold no_dust in Hd.
  destruct (fzero_trichotomy p Hn) as [(Hl & He & Hg)|[(Hl & He & Hg)|(Hl & He & Hg)]];
    rewrite ?Hl, ?Hg, He in *; simpl in Hd.
  - apply negb_true_iff in Hd. rewrite Hd. auto.
  - rewrite (fabs_fzero p He), FLAT_EPS_pos. auto.
  - apply negb_true_iff in Hd. rewrite Hd. auto.
Qed.

Lemma exposure_zero p : feqb p fzero = true → exposure p = Some Eq.
Proof.
  intros He. unfold exposure. rewrite (fabs_fzero p He), FLAT_EPS_pos.
  by destruct p.
Qed.

(** A quantity worth an order: finite and above the flat threshold. *)
Definition tradable_qty (qty : float) : bool :=
  is_finite qty && fltb fzero qty && negb (fleb qty FLAT_EPS).

Lemma tradable_qty_spec qty : tradable_qty qty = true →
  is_finite qty = true ∧ fltb fzero qty = true ∧ fabs qty = qty ∧
  exposure qty = Some Gt ∧ exposure (fopp qty) = Some Lt ∧ feqb qty fzero = false.
Proof.
  unfold tradable_qty. intros [[Hf Hp]%andb_true_iff He%negb_true_iff]%andb_true_iff.
  pose proof (fabs_pos qty Hp) as Ha. repeat split; try done.
  - unfold exposure. rewrite Ha, He, (fltb_asym _ _ Hp). by destruct qty.
  - unfold exposure. rewrite fabs_fopp, Ha, He, fltb_fzero_fopp, Hp. by destruct qty.
  - by destruct qty as [[]|[]| |[]].
Qed.

(** One apply of a full-filling venue, by case of the decision. *)
Lemma apply_once_cases symbol signal qty p n :
  round_int signal = Ok n → tradable_qty qty = true →
  is_finite p = true → no_dust p = true →
  apply_once symbol signal qty p =
  match n ?= 0, exposure p with
  | Gt, Some Eq => qty
  | Lt, Some Eq => fopp qty
  | Gt, Some Lt | Eq, Some Lt | Lt, Some Gt | Eq, Some Gt => fzero
  | _, _ => p
  end.
Proof.
  intros Hs (Hfq & Hq & Haq & _ & _ & Hnq)%tradable_qty_spec Hf Hd.
  unfold apply_once. rewrite intended_action_table, Hs.
  destruct (no_dust_exposure p Hf Hd) as [[-> He]|[[-> Hl]|[-> Hg]]].
  - assert (∃ s, p = S754_zero s) as [s ->] by (destruct p as [|[]| |[]]; eauto; done).
    destruct (n ?= 0); simpl; unfold order_for; simpl; rewrite ?Hq; simpl; try done;
      unfold fill; simpl; destruct qty as [[]|[]| |[]]; by try done; destruct s.
  - destruct (n ?= 0); simpl; unfold order_for; simpl; try done;
      rewrite fltb_fzero_fabs by auto; unfold fill; simpl;
      by rewrite (fabs_neg p Hl), fadd_fopp.
  - destruct (n ?= 0); simpl; unfold order_for; simpl; try done;
      rewrite fltb_fzero_fabs by auto; unfold fill; simpl;
      by rewrite (fabs_pos p Hg), fsub_diag.
Qed.

(** C3. Repeated applies converge instead of stacking: whatever the starting
    book, after two full fills of the same signal the decision is HOLD, the
    book has the exposure the signal asks for, and a position opened on the
    way is exactly the configured quantity. *)
Theorem applies_converge symbol signal qty p n :
  round_int signal = Ok n → tradable_qty qty = true →
  is_finite p = true → no_dust p = true →
  let p' := apply_once symbol signal qty (apply_once symbol signal qty p) in
  intended_action signal p' = Ok HOLD ∧ exposure p' = Some (n ?= 0) ∧
  apply_once symbol signal qty p' = p' ∧
  (p' = p ∨ p' = fzero ∨ fabs p' = qty).
Proof.
  intros Hs Hq Hf Hd p'.
  assert (exposure p' = Some (n ?= 0) ∧ (p' = p ∨ p' = fzero ∨ fabs p' = qty)) as [He Hp'].
  { destruct (tradable_qty_spec qty Hq) as (Hfq & Hpq & Haq & Hgq & Hlq & _).
    assert (no_dust qty = true) as Hdq.
    { unfold no_dust. rewrite Haq. unfold tradable_qty in Hq.
      apply andb_true_iff in Hq as [_ ->]. apply orb_true_r. }
    assert (no_dust (fopp qty) = true) as Hdoq.
    { unfold no_dust in *. by rewrite fabs_fopp, feqb_fopp_fzero. }
    assert (is_finite (fopp qty) = true) by by rewrite is_finite_fopp.
    assert (exposure fzero = Some Eq) as Hz by by apply exposure_zero.
    unfold p'. rewrite (apply_once_cases _ _ _ p n) by done.
    destruct (no_dust_exposure p Hf Hd) as [[He ?]|[[He ?]|[He ?]]]; rewrite He;
      destruct (n ?= 0) eqn:Hn;
      rewrite (apply_once_cases _ _ _ _ n) by done;
      rewrite ?Hn, ?He, ?Hz, ?Hgq, ?Hlq, ?fabs_fopp; auto. }
  split_and!; [|done| |done].
  - rewrite intended_action_table, Hs, He. by destruct (n ?= 0).
  - unfold apply_once. rewrite intended_action_table, Hs, He. by destruct (n ?= 0).
Qed.

(** ** The retry executor *)

Lemma is_retryable_reason r : is_retryable r = true → success r = false ∧ reason r = None.
Proof. unfold is_retryable. destruct (success r); [done|]. by destruct (reason r). Qed.

Lemma unconfirmed_retryable r :
  success r = false → reason r = None → is_unconfirmed r = true → is_retryable r = true.
Proof. unfold is_retryable. by intros -> -> ->. Qed.

Lemma book_run_snoc rests b tr e :
  book_run rests b (tr ++ [e]) = b' ← book_run rests b tr; book_step rests b' e.
Proof. unfold book_run. by rewrite foldl_snoc. Qed.

Definition not_resting (b : book) : Prop := match b with Resting _ => False | _ => True end.

Section executor_facts.
Context {W : Type} (A : TradeAdapter W) (C : Clock W).
Variables (policy : OrderRetryPolicy) (sym : string) (signal qty : float).

Definition traced_loop : nat → Z → list ApplyAttempt →
    prog (W * list event) exn OrderRetryResult :=
  @attempt_loop (W * list event) (traced_adapter A) (traced_clock C) policy sym signal qty.

Definition traced_execute : prog (W * list event) exn OrderRetryResult :=
  @execute (W * list event) (traced_adapter A) (traced_clock C) policy sym signal qty.

(** One unfolding of the loop, the calls recorded. *)
Lemma traced_loop_S fuel k atts Q R w tr :
  wp (traced_loop (S fuel) k atts) Q R (w, tr) ↔
  wp (get_position_qty sym) (λ p w,
    let tr := tr ++ [EPosition sym (Ok p)] in
    match intended_action signal p with
    | Raise e => R e (w, tr)
    | Ok a =>
        let finish r := Q (outcome policy a p r (atts ++ [mkApplyAttempt a p r])) in
        match order_for sym a qty p with
        | None => finish None (w, tr)
        | Some req =>
            wp (place_order req) (λ o w,
              let tr := tr ++ [EPlace req (Ok o)] in
              match o with
              | None => finish None (w, tr)
              | Some r =>
                  if success r then finish (Some r) (w, tr)
                  else if negb (is_retryable r) then finish (Some r) (w, tr)
                  else
                    let retry w tr :=
                      if max_attempts policy <=? k then finish (Some r) (w, tr)
                      else wp (sleep (backoff_s policy)) (λ _ w,
                             wp (traced_loop fuel (k + 1) (atts ++ [mkApplyAttempt a p (Some r)]))
                               Q R (w, tr ++ [ESleep (backoff_s policy) (Ok tt)]))
                           (λ e w, R e (w, tr ++ [ESleep (backoff_s policy) (Raise e)])) w in
                    match vendor_order_id r with
                    | Some i =>
                        if is_unconfirmed r && has_id (Some i) then
                          wp (cancel_order i (Some sym)) (λ c w,
                            let tr := tr ++ [ECancel i (Some sym) (Ok c)] in
                            if success c then retry w tr
                            else finish (Some (with_reason r CANCEL_FAILED)) (w, tr))
                            (λ e w, R e (w, tr ++ [ECancel i (Some sym) (Raise e)])) w
                        else retry w tr
                    | None => retry w tr
                    end
              end)
              (λ e w, R e (w, tr ++ [EPlace req (Raise e)])) w
        end
    end) (λ e w, R e (w, tr ++ [EPosition sym (Raise e)])) w.
Proof.
  unfold traced_loop at 1. cbn [attempt_loop]. rewrite wp_bind.
  etrans; [apply wp_logged|]. apply wp_iff; [intros p w1|done]. rewrite wp_bind, wp_lift_res.
  destruct (intended_action signal p) as [a|e]; [|done].
  destruct (order_for sym a qty p) as [req|]; [|done].
  rewrite wp_bind.
  etrans; [apply wp_logged|]. apply wp_iff; [intros [r|] w2|done]; [|done].
  destruct (success r); [done|]. destruct (negb (is_retryable r)); [done|].
  assert (∀ w tr,
    wp (if max_attempts policy <=? k
        then mret (outcome policy a p (Some r) (atts ++ [mkApplyAttempt a p (Some r)]))
        else _ ← sleep (Clock := traced_clock C) (backoff_s policy);
             traced_loop fuel (k + 1) (atts ++ [mkApplyAttempt a p (Some r)])) Q R (w, tr) ↔
    if max_attempts policy <=? k
    then Q (outcome policy a p (Some r) (atts ++ [mkApplyAttempt a p (Some r)])) (w, tr)
    else wp (sleep (backoff_s policy)) (λ _ w,
           wp (traced_loop fuel (k + 1) (atts ++ [mkApplyAttempt a p (Some r)]))
             Q R (w, tr ++ [ESleep (backoff_s policy) (Ok tt)]))
         (λ e w, R e (w, tr ++ [ESleep (backoff_s policy) (Raise e)])) w) as Hretry.
  { intros w3 tr3. destruct (max_attempts policy <=? k); [done|].
    rewrite wp_bind. etrans; [apply wp_logged|].
    by apply wp_iff; [intros [] w4|]. }
  destruct (vendor_order_id r) as [i|]; [|apply Hretry].
  destruct (is_unconfirmed r && has_id (Some i)); [|apply Hretry].
  rewrite wp_bind.
  etrans; [apply wp_logged|]. apply wp_iff; [intros c w3|done].
  destruct (success c); [apply Hretry|done].
Qed.
(** The book is never left resting, whatever the broker answers. *)
Definition book_safe (rests : OrderResult → bool) {X} (_ : X) (s : W * list event) : Prop :=
  ∃ b, book_run rests Clear s.2 = Some b ∧ not_resting b.

(** The book a failed, untyped order leaves. *)
Definition after_failure (rests : OrderResult → bool) (r : OrderResult) : book :=
  match vendor_order_id r with
  | Some i => if rests r then Resting i else Clear
  | None => Clear
  end.

Lemma book_safe_clear rests {X} (x : X) w tr :
  book_run rests Clear tr = Some Clear → book_safe rests x (w, tr).
Proof. intros H. by exists Clear. Qed.

Lemma book_safe_closed rests {X} (x : X) w tr e b :
  book_run rests Clear tr = Some b → book_step rests b e = Some Closed →
  book_safe rests x (w, tr ++ [e]).
Proof. intros H He. exists Closed. simpl. by rewrite book_run_snoc, H. Qed.

Lemma book_run_neutral rests b tr e :
  book_run rests Clear tr = Some b → book_step rests b e = Some b →
  book_run rests Clear (tr ++ [e]) = Some b.
Proof. intros H He. by rewrite book_run_snoc, H. Qed.

Lemma book_run_failure rests tr req r :
  book_run rests Clear tr = Some Clear → success r = false → reason r = None →
  book_run rests Clear (tr ++ [EPlace req (Ok (Some r))]) = Some (after_failure rests r).
Proof.
  intros H Hs Hr. rewrite book_run_snoc, H. simpl. rewrite Hs, Hr. unfold after_failure.
  destruct (vendor_order_id r); [|done]. by destruct (rests r).
Qed.

(** What the executor recognises as resting is what the monitor does, on the
    results this adapter produces. *)
Definition recognised (rests : OrderResult → bool) : Prop :=
  (∀ o, unconfirmed_rests o = true → rests o = true) ∧
  ∀ req w o w', place_order req w = (Ok (Some o), w') →
    success o = false → reason o = None → rests o = true → unconfirmed_rests o = true.

Lemma final_failure_safe rests {X} (x : X) w tr req r w1 w2 :
  recognised rests → book_run rests Clear tr = Some Clear →
  place_order req w1 = (Ok (Some r), w2) → success r = false → is_retryable r = false →
  book_safe rests x (w, tr ++ [EPlace req (Ok (Some r))]).
Proof.
  intros [_ Hrec] Htr Ho Hs Hret. destruct (reason r) eqn:Hr.
  { eapply book_safe_closed; [done|]. simpl. by rewrite Hs, Hr. }
  exists (after_failure rests r). split; [by apply book_run_failure|].
  unfold after_failure. destruct (vendor_order_id r); [|done].
  destruct (rests r) eqn:Hrr; [|done]. exfalso.
  specialize (Hrec _ _ _ _ Ho Hs Hr Hrr) as [? _]%andb_true_iff.
  by rewrite unconfirmed_retryable in Hret.
Qed.

Section loop_safety.
Variable rests : OrderResult → bool.
Hypothesis Hrec : recognised rests.

(** The retry tail: give up, or sleep and go round again. *)
Lemma retry_safe fuel k rr atts w tr :
  (∀ w tr, book_run rests Clear tr = Some Clear →
     wp (traced_loop fuel (k + 1) atts) (book_safe rests) (book_safe rests) (w, tr)) →
  book_run rests Clear tr = Some Clear →
  if max_attempts policy <=? k then book_safe rests (rr : OrderRetryResult) (w, tr)
  else wp (sleep (backoff_s policy)) (λ _ w,
         wp (traced_loop fuel (k + 1) atts) (book_safe rests) (book_safe rests)
           (w, tr ++ [ESleep (backoff_s policy) (Ok tt)]))
       (λ e w, book_safe rests e (w, tr ++ [ESleep (backoff_s policy) (Raise e)])) w.
Proof.
  intros IH Htr. destruct (max_attempts policy <=? k); [by apply book_safe_clear|].
  apply wp_intro; [intros [] w' _; apply IH|intros e w' _; apply book_safe_clear];
    by apply book_run_neutral.
Qed.

Lemma loop_book_safe fuel k atts w tr :
  book_run rests Clear tr = Some Clear →
  wp (traced_loop fuel k atts) (book_safe rests) (book_safe rests) (w, tr).
Proof.
  revert k atts w tr. induction fuel as [|fuel IH]; intros k atts w tr Htr.
  { by apply book_safe_clear. }
  rewrite traced_loop_S. apply wp_intro; [intros p w1 _|intros e w1 _]; cbv zeta;
    [|by apply book_safe_clear, book_run_neutral].
  apply (book_run_neutral _ _ _ (EPosition sym (Ok p))) in Htr; [|done].
  revert Htr. generalize (tr ++ [EPosition sym (Ok p)]). clear tr. intros tr Htr.
  destruct (intended_action signal p) as [a|]; [|by apply book_safe_clear].
  destruct (order_for sym a qty p) as [req|]; [|by apply book_safe_clear].
  apply wp_intro; [intros [r|] w2 Ho|intros e w2 _]; cbv zeta;
    [|by eapply book_safe_closed..].
  destruct (success r) eqn:Hs.
  { eapply book_safe_closed; [done|]. simpl. by rewrite Hs. }
  destruct (is_retryable r) eqn:Hret; cbn [negb]; [|by eapply final_failure_safe].
  destruct (is_retryable_reason r Hret) as [_ Hr].
  pose proof (book_run_failure rests tr req r Htr Hs Hr) as Hb.
  revert Hb. generalize (tr ++ [EPlace req (Ok (Some r))]). clear tr Htr. intros tr Hb.
  unfold after_failure in Hb. destruct (vendor_order_id r) as [i|] eqn:Hi;
    [|by apply retry_safe; [apply IH|]].
  assert (is_unconfirmed r && has_id (Some i) = rests r) as ->.
  { destruct Hrec as [H1 H2]. specialize (H1 r). specialize (H2 _ _ _ _ Ho Hs Hr).
    unfold unconfirmed_rests in *. rewrite Hi in *.
    destruct (is_unconfirmed r && has_id (Some i)), (rests r); naive_solver. }
  destruct (rests r); [|by apply retry_safe; [apply IH|]].
  apply wp_intro; [intros c w3 _|intros e w3 _]; cbv zeta; last first.
  { eapply book_safe_closed; [done|]. simpl. by rewrite decide_True. }
  destruct (success c) eqn:Hc.
  - apply retry_safe; [apply IH|]. rewrite book_run_snoc, Hb. simpl.
    by rewrite decide_True, Hc.
  - eapply book_safe_closed; [done|]. simpl. by rewrite decide_True, Hc.
Qed.
End loop_safety.
End executor_facts.

(** ** What the outcome says *)

(** An attempt the loop went past: its order failed in a way worth retrying. *)
Definition retried (a : ApplyAttempt) : Prop :=
  ∃ r, at_result a = Some r ∧ success r = false ∧ is_retryable r = true.

(** How a run may end on its last attempt. *)
Definition final (policy : OrderRetryPolicy) (n : nat) (last : option OrderResult) : Prop :=
  match last with
  | None => True
  | Some r => success r = true ∨ is_retryable r = false ∨ Z.of_nat n = max_attempts policy
  end.

Definition outcome_ok (policy : OrderRetryPolicy) (rr : OrderRetryResult) : Prop :=
  ∃ earlier, rr_attempts rr =
      earlier ++ [mkApplyAttempt (rr_action rr) (rr_position_qty rr) (rr_result rr)] ∧
    Forall retried earlier ∧
    Z.of_nat (length (rr_attempts rr)) ≤ max_attempts policy ∧
    final policy (length (rr_attempts rr)) (rr_result rr) ∧
    rr_max_attempts rr = max_attempts policy ∧
    (rr_permanent_failure rr = true ↔
       earlier = [] ∧ ∃ r, rr_result rr = Some r ∧ success r = false ∧ is_retryable r = false).

Lemma outcome_ok_intro policy a p result earlier :
  Forall retried earlier → Z.of_nat (S (length earlier)) ≤ max_attempts policy →
  final policy (S (length earlier)) result →
  outcome_ok policy (outcome policy a p result (earlier ++ [mkApplyAttempt a p result])).
Proof.
  intros Hr Hlen Hf. exists earlier. unfold outcome; simpl.
  rewrite length_app; simpl. replace (length earlier + 1)%nat with (S (length earlier)) by lia.
  split_and!; try done. destruct result as [r|]; simpl; [|by split; [|intros (_ & ? & ? & _)]].
  rewrite !andb_true_iff, !negb_true_iff, Nat.eqb_eq. split.
  - intros [[? [=]] ?]. split; [by apply nil_length_inv|eauto].
  - intros (-> & r' & [= <-] & ? & ?). done.
Qed.

Section outcome_facts.
Context {W : Type} `{TradeAdapter W} `{Clock W}.
Variables (policy : OrderRetryPolicy) (sym : string) (signal qty : float).

Lemma attempt_loop_outcome fuel k atts w :
  Forall retried atts → k = Z.of_nat (S (length atts)) →
  Z.of_nat fuel = max_attempts policy - Z.of_nat (length atts) →
  wp (attempt_loop policy sym signal qty fuel k atts)
    (λ rr _, outcome_ok policy rr) (λ _ _, True) w.
Proof.
  revert k atts w. induction fuel as [|fuel IH]; intros k atts w Hr Hk Hf; [done|].
  cbn [attempt_loop]. rewrite wp_bind. apply wp_intro; [intros p w1 _|done].
  rewrite wp_bind, wp_lift_res. destruct (intended_action signal p) as [a|]; [|done].
  destruct (order_for sym a qty p) as [req|]; [|by apply outcome_ok_intro; [|lia|]].
  rewrite wp_bind. apply wp_intro; [intros [r|] w2 _|done]; [|by apply outcome_ok_intro; [|lia|]].
  destruct (success r) eqn:Hs; [apply outcome_ok_intro; [done|lia|simpl; auto]|].
  destruct (is_retryable r) eqn:Hret; cbn [negb];
    [|apply outcome_ok_intro; [done|lia|simpl; auto]].
  assert (∀ w, wp (if max_attempts policy <=? k
      then mret (outcome policy a p (Some r) (atts ++ [mkApplyAttempt a p (Some r)]))
      else _ ← sleep (backoff_s policy);
           attempt_loop policy sym signal qty fuel (k + 1) (atts ++ [mkApplyAttempt a p (Some r)]))
    (λ rr _, outcome_ok policy rr) (λ _ _, True) w) as Hretry.
  { intros w3. destruct (Z.leb_spec (max_attempts policy) k).
    - apply outcome_ok_intro; [done|lia|]. right; right. lia.
    - rewrite wp_bind. apply wp_intro; [intros [] w4 _|done]. apply IH.
      + apply Forall_app_2; [done|]. constructor; [by exists r|constructor].
      + rewrite length_app; simpl; lia.
      + rewrite length_app; simpl; lia. }
  destruct (vendor_order_id r) as [i|]; [|apply Hretry].
  destruct (_ && _); [|apply Hretry]. rewrite wp_bind.
  apply wp_intro; [intros c w3 _|done]. destruct (success c); [apply Hretry|].
  assert (is_retryable (with_reason r CANCEL_FAILED) = false) as Hnr
    by by unfold is_retryable; simpl; rewrite Hs.
  (* the last attempt carries the replaced result *)
  exact (outcome_ok_intro policy a p (Some (with_reason r CANCEL_FAILED)) atts Hr
    ltac:(lia) (or_intror (or_introl Hnr))).
Qed.

Lemma attempt_loop_total fuel k atts w n :
  (∀ s, total (get_position_qty s)) → (∀ r, total (place_order r)) →
  (∀ i s, total (cancel_order i s)) → (∀ t, total (sleep t)) →
  round_int signal = Ok n → (0 < fuel)%nat → max_attempts policy < k + Z.of_nat fuel →
  ∃ rr w', attempt_loop policy sym signal qty fuel k atts w = (Ok rr, w').
Proof.
  intros Hp Ho Hc Hsl Hn. revert k atts w.
  induction fuel as [|fuel IH]; intros k atts w Hf Hk; [lia|]. cbn [attempt_loop].
  unfold mbind, prog_bind, lift_res, mret, prog_ret.
  destruct (Hp sym w) as (p & w1 & ->). rewrite intended_action_table, Hn.
  set (a := match exposure p with Some _ => _ | None => _ end).
  destruct (order_for sym a qty p) as [req|]; [|eauto].
  destruct (Ho req w1) as ([r|] & w2 & ->); [|eauto].
  destruct (success r); [eauto|]. destruct (negb (is_retryable r)); [eauto|].
  assert (∀ atts' rr w3, ∃ rr' w',
    (if max_attempts policy <=? k then λ w, (Ok rr, w)
     else λ w, match sleep (backoff_s policy) w with
               | (Ok _, w') => attempt_loop policy sym signal qty fuel (k + 1) atts' w'
               | (Raise e, w') => (Raise e, w')
               end) w3 = (Ok rr', w')) as Hretry.
  { intros atts' rr w3. destruct (Z.leb_spec (max_attempts policy) k); [eauto|].
    destruct (Hsl (backoff_s policy) w3) as ([] & w4 & ->). apply IH; lia. }
  destruct (vendor_order_id r) as [i|]; [|apply Hretry].
  destruct (_ && _); [|apply Hretry].
  destruct (Hc i (Some sym) w2) as (c & w3 & ->).
  destruct (success c); [apply Hretry|eauto].
Qed.
End outcome_facts.

Lemma n_placed_snoc tr e : n_placed (tr ++ [e]) = (n_placed tr + if is_place e then 1 else 0)%nat.
Proof. rewrite n_placed_app. unfold n_placed; simpl. by destruct (is_place e). Qed.

Section placed.
Context {W : Type} (A : TradeAdapter W) (C : Clock W).
Variables (policy : OrderRetryPolicy) (sym : string) (signal qty : float).

Definition placed_le (m : nat) {X} (_ : X) (s : W * list event) : Prop :=
  (n_placed s.2 ≤ m)%nat.

Lemma placed_le_snoc m {X} (x : X) w tr e :
  (n_placed tr + (if is_place e then 1 else 0) ≤ m)%nat → placed_le m x (w, tr ++ [e]).
Proof. unfold placed_le; simpl. by rewrite n_placed_snoc. Qed.

Lemma retry_placed m fuel k (rr : OrderRetryResult) atts w tr :
  (∀ w tr, (n_placed tr + fuel ≤ m)%nat →
     wp (traced_loop A C policy sym signal qty fuel (k + 1) atts)
       (placed_le m) (placed_le m) (w, tr)) →
  (n_placed tr + fuel ≤ m)%nat →
  if max_attempts policy <=? k then placed_le m rr (w, tr)
  else wp (sleep (backoff_s policy)) (λ _ w,
         wp (traced_loop A C policy sym signal qty fuel (k + 1) atts)
           (placed_le m) (placed_le m) (w, tr ++ [ESleep (backoff_s policy) (Ok tt)]))
       (λ e w, placed_le m e (w, tr ++ [ESleep (backoff_s policy) (Raise e)])) w.
Proof.
  intros IH Hm. destruct (max_attempts policy <=? k); [unfold placed_le; simpl; lia|].
  apply wp_intro; [intros [] w' _; apply IH; rewrite n_placed_snoc|
                   intros e w' _; apply placed_le_snoc]; simpl; lia.
Qed.

Lemma traced_loop_placed m fuel k atts w tr :
  (n_placed tr + fuel ≤ m)%nat →
  wp (traced_loop A C policy sym signal qty fuel k atts) (placed_le m) (placed_le m) (w, tr).
Proof.
  revert k atts w tr. induction fuel as [|fuel IH]; intros k atts w tr Hm.
  { change (n_placed tr ≤ m)%nat. lia. }
  rewrite traced_loop_S. apply wp_intro; [intros p w1 _|intros e w1 _]; cbv zeta;
    [|apply placed_le_snoc; simpl; lia].
  destruct (intended_action signal p) as [a|]; [|apply placed_le_snoc; simpl; lia].
  destruct (order_for sym a qty p) as [req|]; [|apply placed_le_snoc; simpl; lia].
  assert (∀ r, n_placed ((tr ++ [EPosition sym (Ok p)]) ++ [EPlace req r]) = S (n_placed tr)) as Hn
    by (intros r; rewrite !n_placed_snoc; simpl; lia).
  apply wp_intro; [intros [r|] w2 _|intros e w2 _]; cbv zeta;
    [|unfold placed_le; simpl; rewrite Hn; lia..].
  destruct (success r); [unfold placed_le; simpl; rewrite Hn; lia|].
  destruct (is_retryable r); cbn [negb]; [|unfold placed_le; simpl; rewrite Hn; lia].
  destruct (vendor_order_id r) as [i|]; [|apply retry_placed; [apply IH|rewrite Hn; lia]].
  destruct (_ && _); [|apply retry_placed; [apply IH|rewrite Hn; lia]].
  apply wp_intro; [intros c w3 _|intros e w3 _]; cbv zeta;
    [|apply placed_le_snoc; rewrite Hn; simpl; lia].
  destruct (success c); [|apply placed_le_snoc; rewrite Hn; simpl; lia].
  apply retry_placed; [apply IH|rewrite n_placed_snoc, Hn; simpl; lia].
Qed.
End placed.

(** ** Properties of the executor *)

(** Against any broker, and however the run ends: the executor places at
    most [max_attempts] orders, never places while an order it saw as
    unconfirmed has not been cancelled with success, never places after a
    fill, a typed reject, a failed cancel or an exception, cancels nothing but
    that order, and leaves no such order uncancelled. *)
Theorem executor_book_safe {W} (A : TradeAdapter W) (C : Clock W) policy sym signal qty w :
  let tr := (traced_execute A C policy sym signal qty (w, [])).2.2 in
  (∃ b, book_run unconfirmed_rests Clear tr = Some b ∧ not_resting b) ∧
  (n_placed tr ≤ Z.to_nat (max_attempts policy))%nat.
Proof.
  assert (recognised A unconfirmed_rests) as Hrec by by split.
  pose proof (loop_book_safe A C policy sym signal qty _ Hrec
    (Z.to_nat (max_attempts policy)) 1 [] w [] eq_refl) as Hs.
  pose proof (traced_loop_placed A C policy sym signal qty
    (Z.to_nat (max_attempts policy)) (Z.to_nat (max_attempts policy)) 1 [] w [] ltac:(done)) as Hn.
  unfold wp in Hs, Hn. unfold traced_execute, execute.
  change (attempt_loop policy sym signal qty) with (traced_loop A C policy sym signal qty).
  by destruct (traced_loop _ _ _ _ _ _ _ _ _ _) as [[rr|e] s].
Qed.

(** Against a broker that explains its failures, no order is placed over one
    that may rest. *)
Lemma explained_book_safe {W} (A : TradeAdapter W) (C : Clock W) policy sym signal qty w :
  explains_failures A →
  ∃ b, book_run any_id_rests Clear (traced_execute A C policy sym signal qty (w, [])).2.2 = Some b
       ∧ not_resting b.
Proof.
  intros Hex. assert (recognised A any_id_rests) as Hrec.
  { split; [by intros o [_ ?]%andb_true_iff|]. intros req w1 o w2 Ho Hs Hr Hi.
    unfold unconfirmed_rests. destruct (Hex _ _ _ _ Ho Hs Hi) as [Hx| ->]; [done|]. exact Hi. }
  pose proof (loop_book_safe A C policy sym signal qty _ Hrec
    (Z.to_nat (max_attempts policy)) 1 [] w [] eq_refl) as Hs.
  unfold wp in Hs. unfold traced_execute, execute.
  change (attempt_loop policy sym signal qty) with (traced_loop A C policy sym signal qty).
  by destruct (traced_loop _ _ _ _ _ _ _ _ _ _) as [[rr|e] s].
Qed.

(** C1. Against a broker that explains every failure it reports with an order
    id, the executor never sends a second order while any earlier one that
    failed with an id has not been cancelled with success. *)
Theorem executor_no_second_order {W} (A : TradeAdapter W) (C : Clock W) policy sym signal qty w :
  explains_failures A →
  ∃ b, book_run any_id_rests Clear (traced_execute A C policy sym signal qty (w, [])).2.2 = Some b
       ∧ not_resting b.
Proof. apply explained_book_safe. Qed.

(** With at least one attempt allowed and a broker that answers, the
    executor returns (its trailing assertion is unreachable), and the outcome
    tells the truth: every attempt but the last failed untyped and retryably,
    the last one is the reported result, the budget is respected, and the
    failure is flagged permanent exactly when the only attempt failed in a way
    no retry can clear. *)
Theorem execute_total {W} `{TradeAdapter W} `{Clock W} policy sym signal qty w n :
  (∀ s, total (get_position_qty s)) → (∀ r, total (place_order r)) →
  (∀ i s, total (cancel_order i s)) → (∀ t, total (sleep t)) →
  round_int signal = Ok n → 1 ≤ max_attempts policy →
  ∃ rr w', execute policy sym signal qty w = (Ok rr, w') ∧ outcome_ok policy rr.
Proof.
  intros Hp Ho Hc Hs Hn Hm. unfold execute.
  destruct (attempt_loop_total policy sym signal qty (Z.to_nat (max_attempts policy)) 1 [] w n)
    as (rr & w' & Hrun); try done; [lia..|].
  exists rr, w'. split; [done|].
  assert (wp (attempt_loop policy sym signal qty (Z.to_nat (max_attempts policy)) 1 [])
    (λ rr _, outcome_ok policy rr) (λ _ _, True) w) as Hwp
    by (apply attempt_loop_outcome; [constructor|done|simpl; lia]).
  unfold wp in Hwp. by rewrite Hrun in Hwp.
Qed.

(** ** Concrete runs *)

Definition lit (neg : bool) (m : N) (e : Z) : float := of_decimal neg m e.

(** A venue whose fills are never confirmed and whose cancels always succeed. *)
Definition silent_result : OrderResult :=
  mkOrderResult false (Some "42") "fill unconfirmed after 3.0s" None VNone
    (Some OBuy) None None None None None.

Definition silent_venue : TradeAdapter unit := {|
  connect w := (Ok tt, w);
  disconnect w := (Ok tt, w);
  place_order _ w := (Ok (Some silent_result), w);
  cancel_order i _ w :=
    (Ok (mkOrderResult true (Some i) "order canceled" None VNone None None None None None None), w);
  get_position_qty _ w := (Ok fzero, w);
  get_last_price _ w := (Ok None, w);
  validate_for_dry_run c _ w := (Ok c, w)
|}.

Definition three_attempts : OrderRetryPolicy := mkOrderRetryPolicy 3 (lit false 2 0).

Lemma silent_venue_explains : explains_failures silent_venue.
Proof. intros req w o w' [= <- <-] _ _. right. vm_compute. reflexivity. Qed.

(** Three unconfirmed orders, each cancelled before the next. *)
Example silent_venue_run :
  n_placed (traced_execute silent_venue instant_clock three_attempts "BTCUSDT"
              (lit false 1 0) (lit false 5 (-1)) (tt, [])).2.2 = 3%nat.
Proof. vm_compute. reflexivity. Qed.

Lemma applies_converge_witness :
  let p' := apply_once "BTCUSDT" (lit false 1 0) (lit false 5 (-1))
              (apply_once "BTCUSDT" (lit false 1 0) (lit false 5 (-1)) (lit true 3 (-1))) in
  intended_action (lit false 1 0) p' = Ok HOLD ∧ exposure p' = Some (1 ?= 0) ∧
  apply_once "BTCUSDT" (lit false 1 0) (lit false 5 (-1)) p' = p' ∧
  (p' = lit true 3 (-1) ∨ p' = fzero ∨ fabs p' = lit false 5 (-1)).
Proof.
  apply (applies_converge "BTCUSDT" (lit false 1 0) (lit false 5 (-1)) (lit true 3 (-1)) 1);
    vm_compute; reflexivity.
Defined.

Lemma executor_no_second_order_witness :
  explains_failures silent_venue ∧
  ∃ b, book_run any_id_rests Clear (traced_execute silent_venue instant_clock three_attempts
         "BTCUSDT" (lit false 1 0) (lit false 5 (-1)) (tt, [])).2.2 = Some b ∧ not_resting b.
Proof.
  split; [exact silent_venue_explains|].
  apply (executor_no_second_order silent_venue instant_clock three_attempts "BTCUSDT"
           (lit false 1 0) (lit false 5 (-1)) tt silent_venue_explains).
Defined.

Lemma execute_total_witness :
  ∃ rr w', @execute unit silent_venue instant_clock three_attempts "BTCUSDT"
             (lit false 1 0) (lit false 5 (-1)) tt = (Ok rr, w') ∧ outcome_ok three_attempts rr.
Proof.
  apply (@execute_total unit silent_venue instant_clock three_attempts "BTCUSDT"
           (lit false 1 0) (lit false 5 (-1)) tt 1);
    [intros s w|intros r w|intros i s w|intros t w|vm_compute; reflexivity|vm_compute; discriminate];
    do 2 eexists; reflexivity.
Defined.
