(* ===== verification/Confirm.v ===== *)
(** * Confirming a market order

    [quant/trade/brokers/ccxt/confirm.py]: polling [fetch_order] on a fixed
    schedule until the venue reports a terminal status.  The gateway is seen
    through the one method the function calls. *)
From S2P Require Import Prelude PyFloat PyData Order Errors PyValue Adapter.

(** [gateway.fetch_order(vendor_order_id, symbol)] *)
Class OrderSource (W : Type) := { poll_order : string → string → prog W exn pyval }.

Record FillStatus := mkFillStatus {
  fs_success : bool;
  fs_vendor_order_id : string;
  fs_message : string;
  fs_raw_status : pyval;
  fs_reason : option OrderRejectReason;
  fs_filled_qty : option float;
  fs_avg_price : option float;
  fs_fee : option float;
  fs_fee_ccy : option string
}.

(** [_fee_ccy] *)
Definition fee_ccy_of (value : pyval) : option string :=
  match value with
  | VNone => None
  | _ => let text := strip (str_val value) in
         if has_id (Some text) then Some text else None
  end.

(** [float(v) if v is not None else None] *)
Definition float_or_None (v : pyval) : res exn (option float) :=
  match v with VNone => mret None | _ => f ← float_val v; mret (Some f) end.

(** [_extract_fee] *)
Definition extract_fee (order : pyval) : res exn (option float * option string) :=
  fee ← get "fee" order;
  match fee with
  | VDict _ =>
      cost ← get "cost" fee;
      amount ← float_or_None cost;
      ccy ← get "currency" fee;
      mret (amount, fee_ccy_of ccy)
  | _ => mret (None, None)
  end.

(** [(order.get("status") or "").lower()] *)
Definition lower_status (order : pyval) : res exn string :=
  status ← get "status" order;
  match or_else status (VStr "") with
  | VStr s => mret (lower s)
  | v => Raise (AttributeError ("'" +:+ type_name v +:+ "' object has no attribute 'lower'"))
  end.

(** The statuses of an order the venue closed before it filled in full. *)
Definition is_dead (status : string) : bool :=
  existsb (String.eqb status) ["canceled"; "cancelled"; "expired"].

(** [_parse_terminal] *)
Definition parse_terminal (order : pyval) (vendor_order_id : string)
    : res exn (option FillStatus) :=
  status ← lower_status order;
  filled ← get "filled" order;
  filled ← float_val (or_else filled (VInt 0));
  avg ← get "average" order;
  avg_price ← float_or_None avg;
  fee ← extract_fee order;
  id ← get "id" order;
  let oid := match id with VNone => vendor_order_id | _ => str_val id end in
  if String.eqb status "closed" || (fltb fzero filled && is_dead status) then
    mret (Some (mkFillStatus true oid "order filled"
      (VStr (if has_id (Some status) then status else "closed"))
      None (Some filled) avg_price fee.1 fee.2))
  else if String.eqb status "rejected" || (feqb filled fzero && is_dead status) then
    mret (Some (mkFillStatus false oid
      ("order rejected status=" +:+ (if has_id (Some status) then status else "unknown"))
      (VStr status) (Some VENUE_REJECTED) None None None None))
  else mret None.

(** [_unconfirmed] *)
Definition unconfirmed (req : OrderRequest) (vendor_order_id : string) (last_status : pyval)
    (delays_s : list float) : OrderResult :=
  mkOrderResult false (Some vendor_order_id)
    ("fill unconfirmed after " +:+ fmt_fixed 1 (fsum delays_s) +:+ "s — " +:+
     "vendor_order_id=" +:+ vendor_order_id +:+ " requires manual reconciliation" +:+
     (if truthy last_status then " (last status=" +:+ repr_val last_status +:+ ")" else ""))
    None last_status (Some (req_side req)) (Some (req_qty req)) None None None None.

(** The [OrderResult] built from a terminal poll. *)
Definition filled_result (req : OrderRequest) (fill : FillStatus) : OrderResult :=
  mkOrderResult (fs_success fill) (Some (fs_vendor_order_id fill)) (fs_message fill)
    (fs_reason fill) (fs_raw_status fill) (Some (req_side req)) (Some (req_qty req))
    (fs_filled_qty fill) (fs_avg_price fill) (fs_fee fill) (fs_fee_ccy fill).

(** The [OrderResult] built from a typed connection error. *)
Definition typed_failure (req : OrderRequest) (vendor_order_id : string) (e : exn) : OrderResult :=
  mkOrderResult false (Some vendor_order_id) (exn_msg e) (exn_reason e) VNone
    (Some (req_side req)) (Some (req_qty req)) None None None None.

Section confirm.
Context {W : Type} `{OrderSource W} `{Clock W}.
Variables (req : OrderRequest) (vendor_order_id : string).

(** The [for delay in delays_s] loop: [slept] are the delays behind it. *)
Fixpoint confirm_loop (delays slept : list float) (last_status : pyval)
    : prog W exn OrderResult :=
  match delays with
  | [] => mret (unconfirmed req vendor_order_id last_status slept)
  | delay :: delays' =>
      _ ← sleep delay;
      let slept := slept ++ [delay] in
      try_else (poll_order vendor_order_id (req_symbol req))
        (λ order,
          last_status ← lift_res (get "status" order);
          fill ← lift_res (parse_terminal order vendor_order_id);
          match fill with
          | Some fill => mret (filled_result req fill)
          | None => confirm_loop delays' slept last_status
          end)
        (λ e,
          if isinstance e COrderNotFoundError then confirm_loop delays' slept last_status
          else if isinstance e CBrokerConnectionError then
            match exn_reason e with
            | Some _ => mret (typed_failure req vendor_order_id e)
            | None => mret (unconfirmed req vendor_order_id last_status slept)
            end
          else raise e)
  end.

(** [confirm_market_order] *)
Definition confirm_market_order (delays_s : list float) : prog W exn OrderResult :=
  confirm_loop delays_s [] VNone.
End confirm.

(** ** What a confirmation did *)

Inductive confirm_event :=
| CSleep (delay : float) (r : res exn unit)
| CPoll (id symbol : string) (answer : res exn pyval).

Definition traced_source {W} (S : OrderSource W) : OrderSource (W * list confirm_event) := {|
  poll_order i s := logged (CPoll i s) (poll_order i s)
|}.

Definition confirm_clock {W} (C : Clock W) : Clock (W * list confirm_event) := {|
  sleep d := logged (CSleep d) (sleep d)
|}.

(** A schedule run so far: each delay slept, then one poll. *)
Definition run_log (req : OrderRequest) (id : string) (slept : list float)
    (answers : list (res exn pyval)) : list confirm_event :=
  mjoin (zip_with (λ d a, [CSleep d (Ok tt); CPoll id (req_symbol req) a]) slept answers).

(** The order has no terminal status in this answer. *)
Definition pending (id : string) (answer : res exn pyval) : Prop :=
  match answer with
  | Ok order => parse_terminal order id = Ok None
  | Raise e => isinstance e COrderNotFoundError = true
  end.

(** The status the latest readable answer gave. *)
Definition last_seen (answers : list (res exn pyval)) : pyval :=
  foldl (λ s a, match a with Ok (VDict d) => default VNone (dict_get "status" d) | _ => s end)
    VNone answers.

(** The result [o] of a run whose earlier answers [before] were all pending,
    from its last answer, if that one was not. *)
Definition concludes (req : OrderRequest) (id : string) (slept : list float)
    (before : list (res exn pyval)) (final : option (res exn pyval)) (o : OrderResult) : Prop :=
  match final with
  | None => o = unconfirmed req id (last_seen before) slept
  | Some (Ok order) =>
      ∃ fill, parse_terminal order id = Ok (Some fill) ∧ o = filled_result req fill
  | Some (Raise e) =>
      isinstance e CBrokerConnectionError = true ∧ isinstance e COrderNotFoundError = false ∧
      o = if exn_reason e is Some _ then typed_failure req id e
          else unconfirmed req id (last_seen before) slept
  end.

(** What escapes a run: an exception of the clock, one of the source that is
    no broker error, or an answer that cannot be read. *)
Definition escapes (id : string) (e : exn) (ev : confirm_event) : Prop :=
  match ev with
  | CSleep _ r => r = Raise e
  | CPoll _ _ (Raise e') => e' = e ∧ isinstance e CBrokerConnectionError = false
  | CPoll _ _ (Ok order) => parse_terminal order id = Raise e
  end.

(** ** Facts *)

Lemma snoc_two {A} (l : list A) a b : l ++ [a; b] = (l ++ [a]) ++ [b].
Proof. by rewrite <-app_assoc. Qed.

Lemma run_log_snoc req id slept answers d a : length slept = length answers →
  run_log req id (slept ++ [d]) (answers ++ [a]) =
  run_log req id slept answers ++ [CSleep d (Ok tt); CPoll id (req_symbol req) a].
Proof.
  intros Hl. unfold run_log. rewrite zip_with_app by done. by rewrite join_app.
Qed.

Lemma last_seen_snoc answers a :
  last_seen (answers ++ [a]) =
  match a with Ok (VDict d) => default VNone (dict_get "status" d) | _ => last_seen answers end.
Proof. unfold last_seen. by rewrite foldl_snoc. Qed.

(** An order whose status cannot be read cannot be parsed either. *)
Lemma parse_terminal_get order id e :
  get "status" order = Raise e → parse_terminal order id = Raise e.
Proof. intros He. unfold parse_terminal, lower_status. by rewrite He. Qed.

(** A broker that has no such order has reported a broker error. *)
Lemma not_found_broker e :
  isinstance e COrderNotFoundError = true → isinstance e CBrokerConnectionError = true.
Proof. destruct e as [[] ? ? ? ?]; done. Qed.

Section confirm_facts.
Context {W : Type} (S : OrderSource W) (C : Clock W) (req : OrderRequest) (id : string).

Definition traced_confirm (delays slept : list float) (last_status : pyval) :
    prog (W * list confirm_event) exn OrderResult :=
  @confirm_loop _ (traced_source S) (confirm_clock C) req id delays slept last_status.

(** The outcome of a run over the schedule [delays]. *)
Definition confirmed (delays : list float) (o : OrderResult) (s : W * list confirm_event) : Prop :=
  ∃ k before final,
    (k ≤ length delays)%nat ∧ Forall (pending id) before ∧
    s.2 = run_log req id (take k delays) (before ++ option_list final) ∧
    length (before ++ option_list final) = k ∧
    (final = None → k = length delays) ∧
    concludes req id (take k delays) before final o.

Definition broken (e : exn) (s : W * list confirm_event) : Prop :=
  ∃ tr ev, s.2 = tr ++ [ev] ∧ escapes id e ev.

Lemma traced_confirm_spec delays slept before w :
  length slept = length before → Forall (pending id) before →
  wp (traced_confirm delays slept (last_seen before)) (confirmed (slept ++ delays)) broken
     (w, run_log req id slept before).
Proof.
  revert slept before w. induction delays as [|d ds IH]; intros slept before w Hl Hp.
  { unfold traced_confirm; simpl. rewrite wp_ret. exists (length slept), before, None.
    rewrite app_nil_r, firstn_all. simpl. rewrite app_nil_r. by split_and!. }
  assert (take (Datatypes.S (length slept)) (slept ++ d :: ds) = slept ++ [d]) as Htake.
  { replace (slept ++ d :: ds) with ((slept ++ [d]) ++ ds) by by rewrite <-app_assoc.
    rewrite take_app_le by (rewrite length_app; simpl; lia).
    apply take_ge. rewrite length_app; simpl; lia. }
  assert (∀ a, run_log req id slept before ++ [CSleep d (Ok tt); CPoll id (req_symbol req) a]
               = run_log req id (slept ++ [d]) (before ++ [a])) as Hlog
    by (intros a; by rewrite run_log_snoc).
  assert (∀ a w', pending id a →
    wp (traced_confirm ds (slept ++ [d]) (last_seen (before ++ [a])))
       (confirmed (slept ++ d :: ds)) broken (w', run_log req id (slept ++ [d]) (before ++ [a])))
    as Hnext.
  { intros a w' Ha. replace (slept ++ d :: ds) with ((slept ++ [d]) ++ ds) by by rewrite <-app_assoc.
    apply IH; [by rewrite !length_app, Hl|]. apply Forall_app. by repeat constructor. }
  assert (∀ a o w', concludes req id (slept ++ [d]) before (Some a) o →
    confirmed (slept ++ d :: ds) o (w', run_log req id (slept ++ [d]) (before ++ [a]))) as Hend.
  { intros a o w' Ho. exists (Datatypes.S (length slept)), before, (Some a). rewrite Htake.
    simpl. split_and!; try done; rewrite !length_app; simpl; lia. }
  unfold traced_confirm. simpl. rewrite wp_bind. apply wp_logged. apply wp_intro; intros ? w1 Hs;
    [|by eexists _, _].
  destruct a. apply wp_try_else, wp_logged.
  apply wp_intro; intros ? w2 Hf; rewrite <-app_assoc; simpl; rewrite Hlog.
  - rewrite wp_bind, wp_lift_res. rename a into order.
    destruct (get "status" order) as [st|e] eqn:Hst.
    2: { do 2 eexists. split; [by rewrite <-Hlog, snoc_two|].
         by apply parse_terminal_get. }
    rewrite wp_bind, wp_lift_res. destruct (parse_terminal order id) as [[fill|]|e] eqn:Hfill.
    + rewrite wp_ret. apply Hend. by exists fill.
    + pose proof (Hnext (Ok order) w2 Hfill) as Hn. rewrite last_seen_snoc in Hn.
      destruct order; try done. injection Hst as <-. exact Hn.
    + do 2 eexists. by split; [rewrite <-Hlog, snoc_two|].
  - destruct (isinstance e COrderNotFoundError) eqn:Hnf.
    { pose proof (Hnext (Raise e) w2 Hnf) as Hn. by rewrite last_seen_snoc in Hn. }
    destruct (isinstance e CBrokerConnectionError) eqn:Hbc.
    + destruct (exn_reason e) eqn:Hr; rewrite wp_ret; apply Hend; simpl; by rewrite Hr.
    + rewrite wp_raise. do 2 eexists. by split; [rewrite <-Hlog, snoc_two|].
Qed.
End confirm_facts.

(** C29. Confirming an order polls once after each delay of the schedule, in
    order and no further than its end, as long as the venue's answers are not
    terminal; the first that is decides.  A terminal order gives the venue's
    own verdict, a typed connection error keeps its reason, and everything
    else is reported unconfirmed with the waits that really happened.  Only an
    exception that is no broker error escapes. *)
Theorem confirm_outcome {W} (S : OrderSource W) (C : Clock W) req id delays w :
  wp (@confirm_market_order _ (traced_source S) (confirm_clock C) req id delays)
     (confirmed req id delays) (broken id) (w, []).
Proof. exact (traced_confirm_spec S C req id delays [] [] w eq_refl (Forall_nil_2 _)). Qed.

(** A confirmation that failed says why, or says that the fill is unknown. *)
Lemma unconfirmed_is_unconfirmed req id s l : str_contains "fill unconfirmed"
    (lower (message (unconfirmed req id s l))) = true.
Proof.
  unfold unconfirmed, message.
  match goal with |- context [lower ("fill unconfirmed after " +:+ ?x)] =>
    change (lower ("fill unconfirmed after " +:+ x))
      with (lower ("fill unconfirmed" +:+ (" after " +:+ x))) end.
  rewrite lower_app. apply (str_contains_prefix "fill unconfirmed").
Qed.
