(* ===== verification/Routing.v ===== *)
(** * Key routing

    [quant/trade/brokers/ccxt/routing.py]: which egress route an API key
    accepts, decided by connecting on the candidates in turn.  The profile cache
    ([RedisKeyProfiles] of [quant/trade/key_profiles.py]) is seen through the
    two operations the router calls. *)
From S2P Require Import Prelude PyFloat PyData Order Errors PyValue KeyProfile Ccxt Gateway.

(** [RedisKeyProfiles]: an unreachable or unreadable cache reads as empty, and
    a failed write is only logged. *)
Record ProfileStore (X : Type) := mkProfileStore {
  ps_get : string → prog X exn (option KeyProfile);
  ps_put : string → KeyProfile → prog X exn unit
}.
Arguments ps_get {X} _.
Arguments ps_put {X} _.

(** [KEY_PROFILE_KEY_PREFIX] *)
Definition KEY_PROFILE_KEY_PREFIX : string := "key_profile:".

(** [_environment] *)
Definition environment (session : CcxtSessionConfig) : string :=
  if demo session then "demo" else if paper session then "paper" else "live".

Section routing.
Context {H X : Type} `{Ccxt H X}.
(** [hashlib.sha256(...).hexdigest()], [os.getenv] and the router's store *)
Variables (sha256_hex : string → string) (getenv : string → option string).
Variable store : option (ProfileStore X).

Abbreviation G := (gateway H X).

(** [profile_key] *)
Definition profile_key (session : CcxtSessionConfig) : string :=
  let fingerprint := String.substring 0 16 (sha256_hex (api_key session)) in
  KEY_PROFILE_KEY_PREFIX +:+ exchange_id (preset session) +:+ ":" +:+
  environment session +:+ ":" +:+ fingerprint.

Definition store_get (key : string) : prog G exn (option KeyProfile) :=
  match store with Some s => on_client (ps_get s key) | None => mret None end.

Definition store_put (key : string) (p : KeyProfile) : prog G exn unit :=
  match store with Some s => on_client (ps_put s key p) | None => mret tt end.

(** The error raised once every route has refused the key. *)
Definition all_refused (session : CcxtSessionConfig) (refused : list string) : exn :=
  BrokerAuthError
    (exchange_label (preset session) +:+ " refused this key's source IP on every " +:+
     "egress route (" +:+ join ", " refused +:+ "). Add one of the platform's egress " +:+
     "IPs to the key's allowlist at the venue.")
    (Some IP_NOT_ALLOWED).

(** The [for route in routes] loop of [KeyRouter.connect]. *)
Fixpoint try_routes (session : CcxtSessionConfig) (cached : option KeyProfile)
    (routes : list EgressRoute) (refused : list string) : prog G exn KeyProfile :=
  match routes with
  | [] => raise (all_refused session refused)
  | route :: routes' =>
      _ ← gw_connect session route;
      try_else (gw_fetch_api_key_info session)
        (λ info,
          let profile := accepted (route_name route) info cached in
          _ ← store_put (profile_key session) profile;
          mret profile)
        (λ e,
          if isinstance e CBrokerAuthError then
            _ ← gw_disconnect;
            if negb (bool_decide (exn_reason e = Some IP_NOT_ALLOWED)) then raise e
            else try_routes session cached routes' (refused ++ [route_name route])
          else _ ← gw_disconnect; raise e)
  end.

(** The candidate routes, the cached one first. *)
Definition candidate_routes (session : CcxtSessionConfig) (cached : option KeyProfile)
    : list EgressRoute :=
  preferring (from_env getenv (exchange_id (preset session))) (kp_route <$> cached).

(** [KeyRouter.connect] *)
Definition router_connect (session : CcxtSessionConfig) : prog G exn KeyProfile :=
  cached ← store_get (profile_key session);
  try_routes session cached (candidate_routes session cached) [].

(** [KeyRouter.record_restriction] *)
Definition record_restriction (session : CcxtSessionConfig) (profile : KeyProfile)
    (market_type : string) : prog G exn KeyProfile :=
  let restricted := restricting profile market_type in
  _ ← store_put (profile_key session) restricted;
  mret restricted.

(** ** Which routes were tried *)

(** [refusals rs g g']: from [g], every route of [rs] was connected in turn,
    the key call on it was refused for the source address, and the session was
    closed; [g'] is what is left. *)
Inductive refusals (session : CcxtSessionConfig) : list EgressRoute → G → G → Prop :=
| refusals_nil g : refusals session [] g g
| refusals_cons r rs g g1 e g2 g3 g4 :
    gw_connect session r g = (Ok tt, g1) →
    gw_fetch_api_key_info session g1 = (Raise e, g2) →
    isinstance e CBrokerAuthError = true → exn_reason e = Some IP_NOT_ALLOWED →
    gw_disconnect g2 = (Ok tt, g3) →
    refusals session rs g3 g4 →
    refusals session (r :: rs) g g4.

(** Why the routes [rs] gave no session, from [g]: connecting failed, or the
    key call failed for another reason than the address, or every route refused
    the address. *)
Definition no_route (session : CcxtSessionConfig) (rs : list EgressRoute) (g : G) (e : exn) : Prop :=
  (∃ pre r post g1, rs = pre ++ r :: post ∧ refusals session pre g g1 ∧
     ((gw_connect session r g1).1 = Raise e ∨
      ∃ g2, gw_connect session r g1 = (Ok tt, g2) ∧
            (gw_fetch_api_key_info session g2).1 = Raise e ∧
            ¬ (isinstance e CBrokerAuthError = true ∧ exn_reason e = Some IP_NOT_ALLOWED)))
  ∨ (∃ g1, refusals session rs g g1 ∧ exn_reason e = Some IP_NOT_ALLOWED ∧
           isinstance e CBrokerAuthError = true).

(** The session [g'] open on the first route whose key call was answered. *)
Definition routed (session : CcxtSessionConfig) (cached : option KeyProfile)
    (rs : list EgressRoute) (g : G) (p : KeyProfile) (g' : G) : Prop :=
  ∃ pre r post g1 g2 info,
    rs = pre ++ r :: post ∧ refusals session pre g g1 ∧
    gw_connect session r g1 = (Ok tt, g2) ∧ (gw_fetch_api_key_info session g2).1 = Ok info ∧
    p = accepted (route_name r) info cached ∧ connected_on r g'.

(** ** Facts *)

Lemma refusals_closed session rs g g' :
  refusals session rs g g' → gw_exchange g = None → gw_exchange g' = None.
Proof.
  induction 1 as [|r rs g g1 e g2 g3 g4 ? ? ? ? Hd ? IH]; [done|]. intros _. apply IH.
  destruct (gw_disconnect_spec g2) as (g3' & Hd' & Hn & _). congruence.
Qed.

(** A cache whose operations return, as [RedisKeyProfiles] promises. *)
Definition store_total : Prop :=
  ∀ s, store = Some s → (∀ k, total (ps_get s k)) ∧ (∀ k p, total (ps_put s k p)).

Lemma store_put_total k p g : store_total →
  ∃ g', store_put k p g = (Ok tt, g') ∧ session_of g' = session_of g.
Proof.
  intros Ht. unfold store_put. destruct store as [s|] eqn:Es; [|by eexists].
  destruct (Ht s Es) as [_ Hp]. unfold on_client.
  destruct (Hp k p (gw_world g)) as ([] & x & ->). by eexists.
Qed.

Lemma store_get_total k g : store_total →
  ∃ c g', store_get k g = (Ok c, g') ∧ session_of g' = session_of g.
Proof.
  intros Ht. unfold store_get. destruct store as [s|] eqn:Es; [|by do 2 eexists].
  destruct (Ht s Es) as [Hg _]. unfold on_client.
  destruct (Hg k (gw_world g)) as (c & x & ->). by do 2 eexists.
Qed.

Lemma try_routes_spec session cached rs refused g :
  store_total → ccxt_load_errors (H:=H) (X:=X) → gw_exchange g = None →
  wp (try_routes session cached rs refused) (routed session cached rs g)
     (λ e g', gw_exchange g' = None ∧ no_route session rs g e) g.
Proof.
  intros Hst Hload. revert refused g. induction rs as [|r rs IH]; intros refused g Hnone; simpl.
  { rewrite wp_raise. split; [done|]. right. exists g. split_and!; by try constructor. }
  pose proof (gw_connect_spec session r g Hload Hnone) as Hc.
  rewrite wp_bind. apply wp_intro; intros a1 g1 Hg1; pose proof (wp_elim _ _ _ _ Hc _ _ Hg1) as Hc1.
  2: { split; [done|]. left. exists [], r, rs, g. split_and!; [done|constructor|].
       left. by rewrite Hg1. }
  destruct a1. pose proof (fetch_api_key_info_keeps session g1) as Hk.
  rewrite wp_try_else. apply wp_intro; intros a2 g2 Hg2; rewrite Hg2 in Hk; simpl in Hk.
  - rewrite wp_bind.
    destruct (store_put_total (profile_key session) (accepted (route_name r) a2 cached) g2 Hst)
      as (g3 & Hp & Hs). unfold wp. rewrite Hp. simpl.
    exists [], r, rs, g, g1, a2. split_and!; [done|constructor|done|by rewrite Hg2|done|].
    rewrite Hk in Hs. injection Hs. unfold connected_on. intros _ -> ->. done.
  - destruct (gw_disconnect_spec g2) as (g3 & Hd & Hn & _).
    assert (∀ e, ¬ (isinstance a2 CBrokerAuthError = true ∧ exn_reason a2 = Some IP_NOT_ALLOWED) →
            e = a2 → no_route session (r :: rs) g e) as Hother.
    { intros e Hne ->. left. exists [], r, rs, g. split_and!; [done|constructor|].
      right. exists g1. by rewrite Hg2. }
    destruct (isinstance a2 CBrokerAuthError) eqn:Hauth.
    2: { rewrite wp_bind. unfold wp. rewrite Hd. simpl. split; [done|]. apply Hother; [|done].
         by intros []. }
    rewrite wp_bind. unfold wp at 1. rewrite Hd.
    destruct (bool_decide_reflect (exn_reason a2 = Some IP_NOT_ALLOWED)) as [Hip|Hip]; simpl.
    2: { rewrite wp_raise. split; [done|]. apply Hother; [|done]. by intros []. }
    assert (∀ pre g', refusals session pre g3 g' → refusals session (r :: pre) g g') as Hmore
      by (intros; by eapply refusals_cons).
    eapply wp_mono; [by apply IH| |].
    + intros p g' (pre & r' & post & g4 & g5 & info & -> & ? & ? & ? & ? & ?).
      exists (r :: pre), r', post, g4, g5, info. by split_and!; auto.
    + intros e g' [? [(pre & r' & post & g4 & -> & ? & ?)|(g4 & ? & ?)]]; (split; [done|]).
      * left. exists (r :: pre), r', post, g4. auto.
      * right. exists g4. auto.
Qed.
End routing.

(** Connecting a key: only a refusal of the source address moves on to the
    next route.  Success leaves the session open on the first route whose key
    call was answered, with the restrictions learned earlier carried over;
    every failure leaves it closed, and no route after it was tried. *)
Theorem router_connect_spec {H X} `{Ccxt H X} sha getenv (store : option (ProfileStore X))
    session (g : gateway H X) :
  store_total store → ccxt_load_errors (H:=H) (X:=X) → gw_exchange g = None →
  ∃ cached g0, store_get store (profile_key sha session) g = (Ok cached, g0) ∧
  wp (router_connect sha getenv store session)
     (routed session cached (candidate_routes getenv session cached) g0)
     (λ e g', gw_exchange g' = None ∧
              no_route session (candidate_routes getenv session cached) g0 e) g.
Proof.
  intros Hst Hload Hnone.
  destruct (store_get_total store (profile_key sha session) g Hst) as (c & g0 & Hg & Hs).
  exists c, g0. split; [done|]. unfold router_connect. rewrite wp_bind. unfold wp at 1. rewrite Hg.
  apply try_routes_spec; [done|done|]. injection Hs. congruence.
Qed.

(** ** A venue with a pinned key

    A handle is the parameters the exchange was built with: the key works only
    through a proxy, and from any other address the venue answers with the
    source-address code. *)
Definition not_on_allowlist : exn :=
  mkExn (CCcxt [CcxtAuthenticationError; CcxtBaseError])
    ("bybit {" +:+ RET_CODE_KEY +:+ ":10010}") None None None.

#[local] Instance pinned_venue : Ccxt exchange_params unit := {|
  has_exchange i := true;
  new_exchange i p w := (Ok p, w);
  no_fetch_currencies _ w := (Ok tt, w);
  enable_demo_trading _ w := (Ok tt, w);
  set_sandbox_mode _ w := (Ok tt, w);
  set_option_default_type _ _ w := (Ok tt, w);
  x_load_markets _ w := (Ok tt, w);
  x_close _ w := (Ok tt, w);
  x_markets _ _ := [];
  x_market _ s w := (Ok (VDict [("symbol", VStr s)]), w);
  x_fetch_balance _ w := (Ok (VDict []), w);
  x_fetch_positions _ _ w := (Ok [], w);
  x_create_order _ _ _ _ _ w := (Ok (VDict [("id", VStr "7")]), w);
  x_cancel_order _ _ _ w := (Ok (VDict []), w);
  x_fetch_open_orders _ _ w := (Ok [], w);
  x_fetch_order _ _ _ _ w := (Ok (VDict [("status", VStr "closed")]), w);
  x_fetch_ticker _ _ w := (Ok (VDict []), w);
  x_query_api h w := (match xp_https_proxy h with
                      | Some _ => Ok (VDict [])
                      | None => Raise not_on_allowlist
                      end, w)
|}.

Definition bybit_session : CcxtSessionConfig :=
  mkSession "key" "secret"
    (mkPreset "bybit" "Bybit" None [] None BybitVenue) false false.

Definition one_proxy (name : string) : option string :=
  if String.eqb name "CCXT_EGRESS_BYBIT" then Some "fixed=http://proxy:3128" else None.

Definition idle : gateway exchange_params unit := mkGateway None DIRECT None tt.

Lemma router_connect_spec_witness :
  (∃ cached g0, store_get None (profile_key id bybit_session) idle = (Ok cached, g0) ∧
   wp (router_connect id one_proxy None bybit_session)
     (routed bybit_session cached (candidate_routes one_proxy bybit_session cached) g0)
     (λ e g', gw_exchange g' = None ∧
        no_route bybit_session (candidate_routes one_proxy bybit_session cached) g0 e) idle) ∧
  gw_route (router_connect id one_proxy None bybit_session idle).2
    = mkEgressRoute "fixed" (Some "http://proxy:3128").
Proof.
  split; [|vm_compute; reflexivity].
  apply (router_connect_spec id one_proxy None bybit_session idle); [done| |done].
  intros h x e x'. simpl. done.
Defined.
