(* ===== verification/Instruments.v ===== *)
(** * The instrument cache

    [quant/data/instruments.py]: products and their venue symbols, served from
    memory and reloaded from the stored procedures.  The procedures are the
    database's and a parameter. *)
From S2P Require Import Prelude PyFloat PyData Order Errors.

(** The columns of a product row the program reads. *)
Record product := mkProduct {
  product_id : Z;
  internal_cusip : string;
  issue_type : option string;
  listing_exchange : option string;
  product_ccy : option string
}.

Record xref := mkXref { x_product_id : Z; x_app_id : Z; x_vendor_symbol : string }.

(** Arguments of [create_instrument] beyond the first venue mapping. *)
Record new_product := mkNewProduct {
  np_cusip : string; np_display_nm : string; np_asset_type_id : option Z;
  np_exchange : option string; np_ccy : option string; np_description : option string;
  np_issue_type : option string
}.

(** The INST stored procedures. *)
Class InstDb (W : Type) := {
  sp_get_product : prog W exn (list product);
  sp_get_product_xref : prog W exn (list xref);
  sp_ins_product : new_product → prog W exn (Z * Z);
  sp_ins_product_xref : Z → Z → string → prog W exn (Z * Z)
}.

Record InstrumentCache := mkInstrumentCache {
  ic_products : list product;
  ic_xrefs : list xref;
  ic_by_cusip : list (string * product);
  ic_by_product_id : list (Z * product);
  ic_xref_index : list (Z * Z * string)
}.

Definition empty_cache : InstrumentCache := mkInstrumentCache [] [] [] [] [].

(** What [load_all] builds from the two result sets. *)
Definition cache_of (products : list product) (xrefs : list xref) : InstrumentCache :=
  mkInstrumentCache products xrefs
    (dict_comp internal_cusip id products)
    (dict_comp product_id id products)
    (dict_comp (λ x, (x_product_id x, x_app_id x)) x_vendor_symbol xrefs).

(** ** Lookups *)

Definition get_product_by_id (c : InstrumentCache) (i : Z) : option product :=
  dict_get i (ic_by_product_id c).

Definition get_product_by_cusip (c : InstrumentCache) (cusip : string) : option product :=
  dict_get cusip (ic_by_cusip c).

(** [get_xrefs] *)
Definition get_xrefs (c : InstrumentCache) (pid app : option Z) : list xref :=
  let keep (want : option Z) (got : Z) := match want with Some w => got =? w | None => true end in
  List.filter (λ x, keep app (x_app_id x)) (List.filter (λ x, keep pid (x_product_id x)) (ic_xrefs c)).

Definition resolve_vendor_symbol (c : InstrumentCache) (pid app : Z) : option string :=
  dict_get (pid, app) (ic_xref_index c).

Definition resolve_internal_cusip (c : InstrumentCache) (cusip : string) (app : Z) : option string :=
  p ← get_product_by_cusip c cusip; resolve_vendor_symbol c (product_id p) app.

(** ** Loading and creating *)

Section writes.
Context {W : Type} `{InstDb W}.

Definition db {A} (m : prog W exn A) : prog (InstrumentCache * W) exn A := λ s,
  let '(r, w) := m s.2 in (r, (s.1, w)).
Definition set_cache (c : InstrumentCache) : prog (InstrumentCache * W) exn unit := λ s,
  (Ok tt, (c, s.2)).
Definition get_cache : prog (InstrumentCache * W) exn InstrumentCache := λ s, (Ok s.1, s).

(** [load_all]: the two row lists are assigned as they arrive, the indexes
    once both have. *)
Definition load_all : prog (InstrumentCache * W) exn unit :=
  products ← db sp_get_product;
  c ← get_cache;
  _ ← set_cache (mkInstrumentCache products (ic_xrefs c) (ic_by_cusip c)
                   (ic_by_product_id c) (ic_xref_index c));
  xrefs ← db sp_get_product_xref;
  set_cache (cache_of products xrefs).

(** [create_instrument]; the result is the product, the app, its symbol and
    the mapping's id and version. *)
Definition create_instrument (np : new_product) (app : Z) (vendor_symbol : string)
    : prog (InstrumentCache * W) exn (product * Z * string * Z * Z) :=
  idv ← db (sp_ins_product np);
  xv ← db (sp_ins_product_xref idv.1 app vendor_symbol);
  _ ← load_all;
  c ← get_cache;
  match get_product_by_id c idv.1 with
  | None => raise (RuntimeError ("SP_INS_PRODUCT reported PRODUCT_ID " +:+ str_Z idv.1 +:+ " v" +:+
              str_Z idv.2 +:+ " but SP_GET_PRODUCT does not return it"))
  | Some p => mret (p, app, vendor_symbol, xv.1, xv.2)
  end.
End writes.

(** ** Facts *)

(** Within one snapshot, a cusip resolves to the symbol the current mapping of
    the current product gives it. *)
Lemma resolve_internal_cusip_spec products xrefs cusip app :
  resolve_internal_cusip (cache_of products xrefs) cusip app =
  p ← last (filter (λ p, internal_cusip p = cusip) products);
  x_vendor_symbol <$> last (filter (λ x, (x_product_id x, x_app_id x) = (product_id p, app)) xrefs).
Proof.
  unfold resolve_internal_cusip, get_product_by_cusip, resolve_vendor_symbol. simpl.
  rewrite dict_get_comp. destruct (last _) as [p|]; [|done]. simpl. by rewrite dict_get_comp.
Qed.

(** A product found by its cusip carries it. *)
Lemma get_product_by_cusip_cusip products xrefs cusip p :
  get_product_by_cusip (cache_of products xrefs) cusip = Some p → internal_cusip p = cusip.
Proof.
  unfold get_product_by_cusip. simpl. rewrite dict_get_comp.
  destruct (last _) as [q|] eqn:Hl; [|done]. intros [= <-].
  apply last_Some_elem_of, list_elem_of_filter in Hl. apply Hl.
Qed.
