(* ===== verification/CcxtAdapter.v ===== *)
(** * The ccxt trade adapter

    [quant/trade/brokers/ccxt/adapter.py] and the instrument lookup of
    [quant/trade/registry.py]: the implementation of [TradeAdapter] over a
    routed gateway session.  It discharges what the order policy assumes of an
    adapter. *)
From S2P Require Import Prelude PyFloat PyData Order Errors PyValue KeyProfile Ccxt Gateway.
From S2P Require Import Adapter OrderPolicy Confirm Routing Instruments.

(** [instrument_default_type] of [registry.py] *)
Definition instrument_default_type (p : CcxtExchangePreset) (instruments : InstrumentCache)
    (cusip : string) : res exn (option string) :=
  match default_type_by_issue p with
  | [] => mret None
  | _ =>
      let issue := prod ← get_product_by_cusip instruments cusip; issue_type prod in
      match default_type_for p issue with
      | Ok t => Ok t
      | Raise e => if isinstance e CValueError then Raise (TradeValidationError (exn_msg e) 400)
                   else Raise e
      end
  end.

(** The mutable fields of [CcxtTradeAdapter]. *)
Record ccxt_adapter (H X : Type) := mkCcxtAdapter {
  ca_gateway : gateway H X;
  ca_key_profile : option KeyProfile;
  ca_default_type : option string
}.
Arguments mkCcxtAdapter {H X} _ _ _.
Arguments ca_gateway {H X} _.
Arguments ca_key_profile {H X} _.
Arguments ca_default_type {H X} _.

(** [_rejected] *)
Definition rejected (req : OrderRequest) (message : string) (reason : option OrderRejectReason)
    : OrderResult :=
  mkOrderResult false None message reason VNone (Some (req_side req)) (Some (req_qty req))
    None None None None.

(** The result of a create call the venue gave no order id for. *)
Definition not_acknowledged (req : OrderRequest) (status : pyval) : OrderResult :=
  mkOrderResult false None "create_order returned no order id" (Some NOT_ACKNOWLEDGED) status
    (Some (req_side req)) (Some (req_qty req)) None None None None.

Section adapter.
Context {H X : Type} `{Ccxt H X} `{Clock (gateway H X)}.
Variables (sha256_hex : string → string) (getenv : string → option string).
Variable store : option (ProfileStore X).
Variable inst : InstrumentCache.
Variable session : CcxtSessionConfig.
Variable confirm_delays_s : list float.

Abbreviation A := (ccxt_adapter H X).

Definition on_gateway {T} (m : prog (gateway H X) exn T) : prog A exn T := λ a,
  let '(r, g) := m (ca_gateway a) in (r, mkCcxtAdapter g (ca_key_profile a) (ca_default_type a)).
Definition set_key_profile (p : option KeyProfile) : prog A exn unit := λ a,
  (Ok tt, mkCcxtAdapter (ca_gateway a) p (ca_default_type a)).
Definition set_default_type (t : option string) : prog A exn unit := λ a,
  (Ok tt, mkCcxtAdapter (ca_gateway a) (ca_key_profile a) t).

(** [connect] *)
Definition ca_connect : prog A exn unit :=
  p ← on_gateway (router_connect sha256_hex getenv store session);
  set_key_profile (Some p).

(** [disconnect] *)
Definition ca_disconnect : prog A exn unit := on_gateway gw_disconnect.

(** [health] *)
Definition ca_health (a : A) : BrokerSessionState := gw_health (ca_gateway a).

(** [_require_vendor_symbol] *)
Definition require_vendor_symbol (cusip : string) (app_id : Z) : res exn string :=
  match resolve_internal_cusip inst cusip app_id with
  | Some s => Ok s
  | None =>
      match get_product_by_cusip inst cusip with
      | None => Raise (SymbolMappingError ("unknown product internal_cusip=" +:+ repr_str cusip))
      | Some _ => Raise (SymbolMappingError ("no INST.PRODUCT_XREF for " +:+ repr_str cusip +:+
                                             " app_id=" +:+ str_Z app_id))
      end
  end.

(** [pin_instrument] *)
Definition pin_instrument (cusip : string) : prog A exn unit :=
  t ← lift_res (instrument_default_type (preset session) inst cusip);
  match t with
  | None => mret tt
  | Some t => _ ← set_default_type (Some t); on_gateway (gw_pin_default_type (Some t))
  end.

(** [_market_type] *)
Definition the_market_type (a : A) : string :=
  match ca_default_type a with
  | Some "" | None => market_type (preset session)
  | Some t => t
  end.

(** [validate_for_dry_run] *)
Definition ca_validate_for_dry_run (cusip : string) (app_id : Z) : prog A exn string :=
  vendor_symbol ← lift_res (require_vendor_symbol cusip app_id);
  _ ← pin_instrument cusip;
  _ ← on_gateway (validate_credentials session);
  listed ← on_gateway (market_exists vendor_symbol);
  if negb listed then
    raise (SymbolMappingError ("vendor symbol " +:+ repr_str vendor_symbol +:+ " not listed on " +:+
                               exchange_label (preset session)))
  else mret vendor_symbol.

(** [get_position_qty] *)
Definition ca_get_position_qty (symbol : string) : prog A exn float :=
  on_gateway (fetch_position_qty session symbol).

(** [get_balances], [get_open_positions], [get_open_orders] *)
Definition ca_get_balances : prog A exn (list balance_row) := on_gateway (fetch_balances session).
Definition ca_get_open_positions : prog A exn (list position_row) :=
  on_gateway (fetch_open_positions session).
Definition ca_get_open_orders (symbol : option string) : prog A exn (list pyval) :=
  on_gateway (gw_fetch_open_orders session symbol).

(** [get_last_price] *)
Definition ca_get_last_price (symbol : string) : prog A exn (option float) :=
  catch (on_gateway (fetch_last_price session symbol)) (λ e,
    if isinstance e CBrokerConnectionError then mret None else raise e).

(** [_undersized] *)
Definition order_undersized (req : OrderRequest) : prog A exn (option string) :=
  limits ← on_gateway (fetch_market_limits (req_symbol req));
  price ← match min_notional limits with
          | Some _ => ca_get_last_price (req_symbol req)
          | None => mret None
          end;
  mret (undersized limits (req_qty req) price).

(** [_key_refusal] *)
Definition key_refusal (a : A) : option (OrderRejectReason * string) :=
  p ← ca_key_profile a; refusal p (the_market_type a).

#[local] Instance gateway_source : OrderSource (gateway H X) := {|
  poll_order i s := fetch_order session i s
|}.

(** [place_order] once the order is allowed: submit, then confirm. *)
Definition submit (req : OrderRequest) : prog A exn OrderResult :=
  let side := match req_side req with OBuy => "buy" | OSell => "sell" end in
  try_else (on_gateway (create_market_order session (req_symbol req) side (req_qty req)))
    (λ raw,
      order_id ← lift_res (get "id" raw);
      match order_id with
      | VNone =>
          status ← lift_res (get "status" raw);
          mret (not_acknowledged req status)
      | _ => on_gateway (confirm_market_order req (str_val order_id) confirm_delays_s)
      end)
    (λ e,
      if isinstance e CBrokerConnectionError then
        a ← get_state;
        _ ← match exn_reason e, ca_key_profile a with
            | Some REGION_RESTRICTED, Some p =>
                p' ← on_gateway (record_restriction sha256_hex store session p (the_market_type a));
                set_key_profile (Some p')
            | _, _ => mret tt
            end;
        mret (rejected req (exn_msg e) (exn_reason e))
      else raise e).

(** [place_order] *)
Definition ca_place_order (req : OrderRequest) : prog A exn OrderResult :=
  a ← get_state;
  if negb (bool_decide (req_order_type req = MARKET)) then
    raise (TradeValidationError
      ("LIMIT orders not supported by the ccxt adapter — market only") 400)
  else if bool_decide (default_type_by_issue (preset session) ≠ [] ∧ ca_default_type a = None) then
    raise (TradeValidationError
      (exchange_label (preset session) +:+ " order needs the instrument ISSUE_TYPE") 400)
  else
    match key_refusal a with
    | Some (reason, message) => mret (rejected req message (Some reason))
    | None =>
        small ← order_undersized req;
        match small with
        | Some text => mret (rejected req text (Some SIZE_BELOW_MINIMUM))
        | None => submit req
        end
    end.

(** [cancel_order] *)
Definition ca_cancel_order (vendor_order_id : string) (vendor_symbol : option string)
    : prog A exn OrderResult :=
  try_else (on_gateway (gw_cancel_order session vendor_order_id vendor_symbol))
    (λ raw,
      status ← lift_res (get "status" raw);
      mret (mkOrderResult true (Some vendor_order_id) "order canceled" None status
              None None None None None None))
    (λ e,
      if isinstance e CBrokerConnectionError then
        mret (mkOrderResult false (Some vendor_order_id) (exn_msg e) None VNone
                None None None None None None)
      else raise e).

(** [CcxtTradeAdapter] as a [TradeAdapter] *)
Definition CcxtTradeAdapter : TradeAdapter A := {|
  connect := ca_connect;
  disconnect := ca_disconnect;
  place_order req := r ← ca_place_order req; mret (Some r);
  cancel_order := ca_cancel_order;
  get_position_qty := ca_get_position_qty;
  get_last_price := ca_get_last_price;
  validate_for_dry_run := ca_validate_for_dry_run
|}.
End adapter.

(** ** Every reported failure is explained *)

Lemma unconfirmed_explained req id s l : explained (unconfirmed req id s l).
Proof.
  intros _ _. right. unfold is_unconfirmed. by rewrite unconfirmed_is_unconfirmed.
Qed.

(** A terminal failure is a typed one. *)
Lemma parse_terminal_typed order id fill :
  parse_terminal order id = Ok (Some fill) → fs_success fill = false →
  fs_reason fill = Some VENUE_REJECTED.
Proof.
  unfold parse_terminal. intros Hp Hs.
  repeat match type of Hp with
  | (?m ≫= _) = _ => destruct m; [cbn [mbind res_bind] in Hp|done]
  end.
  unfold mret, res_ret in Hp.
  destruct (String.eqb a "closed" || _); [by simplify_eq/=|].
  destruct (String.eqb a "rejected" || _); by simplify_eq/=.
Qed.

Lemma confirm_loop_explained {W} `{OrderSource W} `{Clock W} req id delays slept last w :
  wp (confirm_loop req id delays slept last) (λ o _, explained o) (λ _ _, True) w.
Proof.
  revert slept last w. induction delays as [|d ds IH]; intros slept last w; simpl.
  { rewrite wp_ret. apply unconfirmed_explained. }
  rewrite wp_bind. apply wp_intro; intros; [|done].
  rewrite wp_try_else. apply wp_intro; intros r w2 _.
  - rewrite wp_bind, wp_lift_res. case_match; [|done].
    rewrite wp_bind, wp_lift_res. case_match eqn:Hp; [|done]. case_match; [|apply IH].
    rewrite wp_ret. intros Hs _. left. simpl in *. subst. by rewrite (parse_terminal_typed _ _ _ Hp).
  - case_match; [apply IH|]. case_match; [|by rewrite wp_raise].
    case_match eqn:He; rewrite wp_ret; [|apply unconfirmed_explained].
    intros _ _. left. simpl. congruence.
Qed.

Section adapter_facts.
Context {H X : Type} `{Ccxt H X} `{Clock (gateway H X)}.
Context (sha : string → string) (getenv : string → option string).
Context (store : option (ProfileStore X)) (inst : InstrumentCache).
Context (session : CcxtSessionConfig) (delays : list float).

Lemma wp_on_gateway {T} (m : prog (gateway H X) exn T) Q R a :
  wp (on_gateway m) Q R a ↔
  wp m (λ t g, Q t (mkCcxtAdapter g (ca_key_profile a) (ca_default_type a)))
       (λ e g, R e (mkCcxtAdapter g (ca_key_profile a) (ca_default_type a))) (ca_gateway a).
Proof. unfold wp, on_gateway. by destruct (m (ca_gateway a)) as [[t|e] g]. Qed.

(** An order the venue never acknowledged carries no id. *)
Lemma no_id_explained req text r st :
  explained (mkOrderResult false None text r st (Some (req_side req)) (Some (req_qty req))
               None None None None).
Proof. by intros _ ?. Qed.

Lemma submit_explained req a :
  wp (submit sha store session delays req) (λ o _, explained o) (λ _ _, True) a.
Proof.
  unfold submit. rewrite wp_try_else. apply wp_intro; intros raw a1 _.
  - rewrite wp_bind, wp_lift_res. case_match; [|done].
    assert (∀ i, wp (on_gateway (@confirm_market_order _ (gateway_source session) _ req i delays))
                   (λ o _, explained o) (λ _ (_ : ccxt_adapter H X), True) a1) as Hc.
    { intros i. rewrite wp_on_gateway. eapply wp_mono; [apply confirm_loop_explained|done|done]. }
    case_match; try apply Hc. rewrite wp_bind, wp_lift_res. case_match; [|done]. rewrite wp_ret.
    apply no_id_explained.
  - case_match; [|done]. rewrite wp_bind, wp_get_state, wp_bind.
    apply wp_intro; intros; [|done]. rewrite wp_ret. apply no_id_explained.
Qed.

Lemma place_order_explained req a :
  wp (ca_place_order sha store session delays req) (λ o _, explained o) (λ _ _, True) a.
Proof.
  unfold ca_place_order. rewrite wp_bind, wp_get_state.
  case_match; [by rewrite wp_raise|]. case_match; [by rewrite wp_raise|].
  destruct (key_refusal session a) as [[r t]|]; [rewrite wp_ret; apply no_id_explained|].
  rewrite wp_bind. apply wp_intro; intros; [|done].
  case_match; [rewrite wp_ret; apply no_id_explained|apply submit_explained].
Qed.

Lemma CcxtTradeAdapter_explains :
  explains_failures (CcxtTradeAdapter sha getenv store inst session delays).
Proof.
  intros req a o a' Hp. simpl in Hp. unfold mbind, prog_bind in Hp.
  pose proof (place_order_explained req a) as Hw. unfold wp in Hw.
  destruct (ca_place_order sha store session delays req a) as [[r|e] a1]; [|done].
  unfold mret, prog_ret in Hp. simplify_eq. exact Hw.
Qed.
End adapter_facts.

(** Where a failure that comes back without an order id and that the executor
    may send again can come from: the order passed the size check, and the
    create call raised, its text the message of the failure, or acknowledged it
    under an empty id. *)
Definition submission_lost {H X} `{Ccxt H X} `{Clock (gateway H X)} (session : CcxtSessionConfig)
    (req : OrderRequest) (a : ccxt_adapter H X) (o : OrderResult) : Prop :=
  ∃ a1 r g, order_undersized session req a = (Ok None, a1) ∧
    create_market_order session (req_symbol req)
      (match req_side req with OBuy => "buy" | OSell => "sell" end) (req_qty req) (ca_gateway a1)
      = (r, g) ∧
    match r with
    | Raise e => isinstance e CBrokerConnectionError = true ∧ exn_reason e = None ∧
                 message o = exn_msg e
    | Ok raw => ∃ v, get "id" raw = Ok v ∧ v ≠ VNone ∧ has_id (Some (str_val v)) = false
    end.

(** A confirmation the executor may retry carries the id it polled. *)
Lemma confirm_loop_id {W} `{OrderSource W} `{Clock W} req id delays slept last w :
  wp (confirm_loop req id delays slept last)
     (λ o _, is_retryable o = true → vendor_order_id o = Some id) (λ _ _, True) w.
Proof.
  revert slept last w. induction delays as [|d ds IH]; intros slept last w; simpl.
  { by rewrite wp_ret. }
  rewrite wp_bind. apply wp_intro; intros; [|done].
  rewrite wp_try_else. apply wp_intro; intros r w2 _.
  - rewrite wp_bind, wp_lift_res. case_match; [|done].
    rewrite wp_bind, wp_lift_res. case_match eqn:Hp; [|done]. case_match; [|apply IH].
    rewrite wp_ret. intros [Hs Hr]%is_retryable_reason. simpl in Hs, Hr. subst.
    by rewrite (parse_terminal_typed _ _ _ Hp Hs) in Hr.
  - case_match; [apply IH|]. case_match; [|by rewrite wp_raise].
    case_match eqn:He; rewrite wp_ret; [|done].
    intros [_ Hr]%is_retryable_reason. simpl in Hr. congruence.
Qed.

Section lost.
Context {H X : Type} `{Ccxt H X} `{Clock (gateway H X)}.
Context (sha : string → string) (store : option (ProfileStore X)).
Context (session : CcxtSessionConfig) (delays : list float).

Lemma submit_lost req a a1 :
  order_undersized session req a = (Ok None, a1) →
  wp (submit sha store session delays req)
     (λ o _, is_retryable o = true → has_id (vendor_order_id o) = false →
             submission_lost session req a o) (λ _ _, True) a1.
Proof.
  intros Hu. unfold submit. rewrite wp_try_else, wp_on_gateway.
  set (side := match req_side req with OBuy => "buy" | OSell => "sell" end).
  apply wp_intro; [intros raw g Hc|intros e g Hc].
  - rewrite wp_bind, wp_lift_res. case_match eqn:Hid; [|done].
    assert (∀ v a2, a0 = v → v ≠ VNone →
      wp (on_gateway (@confirm_market_order _ (gateway_source session) _ req (str_val v) delays))
         (λ o _, is_retryable o = true → has_id (vendor_order_id o) = false →
                 submission_lost session req a o) (λ _ (_ : ccxt_adapter H X), True) a2) as Hconf.
    { intros v a2 -> Hv. rewrite wp_on_gateway. eapply wp_mono; [apply confirm_loop_id| |done].
      intros o gg Ho Hret Hno. rewrite (Ho Hret) in Hno.
      exists a1, (Ok raw), g. split_and!; [done|exact Hc|]. by exists v. }
    case_match; try (apply Hconf; [by subst|congruence]).
    rewrite wp_bind, wp_lift_res. case_match; [|done]. rewrite wp_ret.
    by intros [_ ?]%is_retryable_reason.
  - case_match eqn:He; [|done]. rewrite wp_bind, wp_get_state, wp_bind.
    apply wp_intro; intros; [|done]. rewrite wp_ret.
    intros [_ Hr]%is_retryable_reason _. exists a1, (Raise e), g. by split_and!.
Qed.

Lemma place_order_lost req a :
  wp (ca_place_order sha store session delays req)
     (λ o _, is_retryable o = true → has_id (vendor_order_id o) = false →
             submission_lost session req a o) (λ _ _, True) a.
Proof.
  unfold ca_place_order. rewrite wp_bind, wp_get_state.
  case_match; [by rewrite wp_raise|]. case_match; [by rewrite wp_raise|].
  destruct (key_refusal session a) as [[r t]|]; [rewrite wp_ret; by intros [_ ?]%is_retryable_reason|].
  rewrite wp_bind. apply wp_intro; [intros [text|] a1 Hu|done].
  - rewrite wp_ret. by intros [_ ?]%is_retryable_reason.
  - by apply submit_lost.
Qed.
End lost.

(** C2. The adapter and the executor together: over any ccxt venue, whatever
    it answers and raises, no second order is ever placed while an earlier one
    that failed with an order id has not been cancelled with success; and an
    order that failed without an id may be sent again only when the create call
    itself raised an untyped broker error, its text the message reported, or
    acknowledged the order under an empty id: the adapter's own refusals and a
    create call that names no id are never sent again. *)
Theorem ccxt_no_second_order {H X} `{Ccxt H X} (C : Clock (ccxt_adapter H X))
    `{Clock (gateway H X)} sha getenv store inst session delays policy sym signal qty a :
  (∃ b, book_run any_id_rests Clear
          (traced_execute (CcxtTradeAdapter sha getenv store inst session delays) C
             policy sym signal qty (a, [])).2.2 = Some b ∧ not_resting b) ∧
  ∀ req a1 o a2, ca_place_order sha store session delays req a1 = (Ok o, a2) →
    is_retryable o = true → has_id (vendor_order_id o) = false → submission_lost session req a1 o.
Proof.
  split; [apply explained_book_safe, CcxtTradeAdapter_explains|].
  intros req a1 o a2 Ho. pose proof (place_order_lost sha store session delays req a1) as Hw.
  unfold wp in Hw. rewrite Ho in Hw. exact Hw.
Qed.

(** ** What a venue refused once is not sent again *)

Section restriction.
Context {H X : Type} `{Ccxt H X} `{Clock (gateway H X)}.
Context (sha : string → string) (store : option (ProfileStore X)).
Context (session : CcxtSessionConfig) (delays : list float).

(** An order for a session whose key is refused never leaves the adapter. *)
Definition refused_here (a : ccxt_adapter H X) : Prop :=
  ∀ req, req_order_type req = MARKET →
  ∃ r t, requires_operator_fix r = true ∧
    ca_place_order sha store session delays req a = (Ok (rejected req t (Some r)), a).

Lemma key_refusal_refused (a : ccxt_adapter H X) r t :
  ¬ (default_type_by_issue (preset session) ≠ [] ∧ ca_default_type a = None) →
  key_refusal session a = Some (r, t) → refused_here a.
Proof.
  intros Hpin Hk req Hm. exists r, t. split.
  - unfold key_refusal in Hk. destruct (ca_key_profile a); [|done].
    by eapply refusal_needs_operator.
  - unfold ca_place_order. unfold mbind, prog_bind, get_state.
    rewrite (bool_decide_eq_true_2 _ Hm), (bool_decide_eq_false_2 _ Hpin). simpl. by rewrite Hk.
Qed.

Lemma restricted_refused (a : ccxt_adapter H X) p :
  ∃ r, key_refusal session
         (mkCcxtAdapter (ca_gateway a) (Some (restricting p (the_market_type session a)))
            (ca_default_type a)) = Some r.
Proof.
  unfold key_refusal. simpl. change (the_market_type session _) with (the_market_type session a).
  unfold refusal, restricting. simpl. case_match; [by eexists|].
  rewrite bool_decide_eq_true_2 by set_solver. by eexists.
Qed.
End restriction.

(** When the venue refuses an order because the account's region may not
    trade the product, the adapter reports that reason and learns it: from then
    on every market order of the session is refused with a reason only an
    operator can clear, without a single call to the venue. *)
Theorem region_restriction_learned {H X} `{Ccxt H X} `{Clock (gateway H X)} sha
    (store : option (ProfileStore X)) session delays req (a : ccxt_adapter H X) p e g :
  store_total store →
  ¬ (default_type_by_issue (preset session) ≠ [] ∧ ca_default_type a = None) →
  ca_key_profile a = Some p →
  create_market_order session (req_symbol req)
    (match req_side req with OBuy => "buy" | OSell => "sell" end) (req_qty req) (ca_gateway a)
    = (Raise e, g) →
  isinstance e CBrokerConnectionError = true → exn_reason e = Some REGION_RESTRICTED →
  ∃ a', submit sha store session delays req a =
          (Ok (rejected req (exn_msg e) (Some REGION_RESTRICTED)), a') ∧
        refused_here sha store session delays a'.
Proof.
  intros Hst Hpin Hp Hc He Hr. unfold submit, try_else, on_gateway at 1. rewrite Hc, He.
  unfold mbind, prog_bind, get_state. cbn [ca_key_profile]. rewrite Hr, Hp.
  set (a1 := mkCcxtAdapter g _ _). unfold on_gateway, record_restriction, mbind, prog_bind.
  destruct (store_put_total store (profile_key sha session)
    (restricting p (the_market_type session a1)) g Hst) as (g2 & Hg2 & _).
  change (ca_gateway a1) with g. rewrite Hg2. eexists. split; [done|].
  destruct (restricted_refused session (mkCcxtAdapter g2 (Some p) (ca_default_type a)) p) as ([r t] & Hk).
  by eapply key_refusal_refused.
Qed.

(** A venue that refuses the account's region, by its documented code. *)
Definition region_denied : exn :=
  mkExn (CCcxt [CcxtAuthenticationError; CcxtBaseError])
    ("bybit {" +:+ RET_CODE_KEY +:+ ":10024}") None None None.

#[local] Instance restricted_venue : Ccxt exchange_params unit := {|
  has_exchange := has_exchange (Ccxt := pinned_venue);
  new_exchange := new_exchange (Ccxt := pinned_venue);
  no_fetch_currencies := no_fetch_currencies (Ccxt := pinned_venue);
  enable_demo_trading := enable_demo_trading (Ccxt := pinned_venue);
  set_sandbox_mode := set_sandbox_mode (Ccxt := pinned_venue);
  set_option_default_type := set_option_default_type (Ccxt := pinned_venue);
  x_load_markets := x_load_markets (Ccxt := pinned_venue);
  x_close := x_close (Ccxt := pinned_venue);
  x_markets := x_markets (Ccxt := pinned_venue);
  x_market := x_market (Ccxt := pinned_venue);
  x_fetch_balance := x_fetch_balance (Ccxt := pinned_venue);
  x_fetch_positions := x_fetch_positions (Ccxt := pinned_venue);
  x_create_order _ _ _ _ _ w := (Raise region_denied, w);
  x_cancel_order := x_cancel_order (Ccxt := pinned_venue);
  x_fetch_open_orders := x_fetch_open_orders (Ccxt := pinned_venue);
  x_fetch_order := x_fetch_order (Ccxt := pinned_venue);
  x_fetch_ticker := x_fetch_ticker (Ccxt := pinned_venue);
  x_query_api := x_query_api (Ccxt := pinned_venue)
|}.

#[local] Instance idle_clock : Clock (gateway exchange_params unit) := instant_clock.

Definition open_session : ccxt_adapter exchange_params unit :=
  mkCcxtAdapter (mkGateway (Some (mkExchangeParams "key" "secret" None None)) DIRECT None tt)
    (Some (accepted "direct" None None)) None.

Lemma region_restriction_learned_witness :
  let req := market_order "BTCUSDT" (lit false 1 0) OBuy in
  ∃ e, create_market_order bybit_session "BTCUSDT" "buy" (req_qty req) (ca_gateway open_session)
         = (Raise e, ca_gateway open_session) ∧
  ∃ a', submit id None bybit_session [] req open_session =
          (Ok (rejected req (exn_msg e) (Some REGION_RESTRICTED)), a') ∧
        refused_here id None bybit_session [] a'.
Proof.
  intros req. eexists. split; [reflexivity|].
  eapply (region_restriction_learned id None bybit_session [] req open_session);
    [done|by intros [? ?]|reflexivity|reflexivity|reflexivity|vm_compute; reflexivity].
Defined.

(** ** A create call that timed out *)

(** A venue that takes every order and then times out on the answer; its world
    is the number of orders it took. *)
Definition server_timeout : exn :=
  mkExn (CCcxt [CcxtBaseError]) "bybit Server Timeout" None None None.

#[local] Instance timing_out_venue : Ccxt exchange_params nat := {|
  has_exchange i := true;
  new_exchange i p w := (Ok p, w);
  no_fetch_currencies _ w := (Ok tt, w);
  enable_demo_trading _ w := (Ok tt, w);
  set_sandbox_mode _ w := (Ok tt, w);
  set_option_default_type _ _ w := (Ok tt, w);
  x_load_markets _ w := (Ok tt, w);
  x_close _ w := (Ok tt, w);
  x_markets _ _ := [];
  x_market _ s w := (Ok (VDict [("symbol", VStr s)]), w);
  x_fetch_balance _ w := (Ok (VDict []), w);
  x_fetch_positions _ _ w := (Ok [], w);
  x_create_order _ _ _ _ _ w := (Raise server_timeout, S w);
  x_cancel_order _ _ _ w := (Ok (VDict []), w);
  x_fetch_open_orders _ _ w := (Ok [], w);
  x_fetch_order _ _ _ _ w := (Raise server_timeout, w);
  x_fetch_ticker _ _ w := (Ok (VDict []), w);
  x_query_api _ w := (Ok (VDict []), w)
|}.

#[local] Instance timing_out_clock : Clock (gateway exchange_params nat) := instant_clock.

Definition timed_session : ccxt_adapter exchange_params nat :=
  mkCcxtAdapter (mkGateway (Some (mkExchangeParams "key" "secret" None None)) DIRECT None O)
    (Some (accepted "direct" None None)) None.

(** A submission the venue took and whose answer timed out comes back failed
    without an id, its text naming the timeout, so it is sent again: with two
    attempts allowed the venue takes two orders for one signal. *)
Example submit_timeout_sent_again :
  let '(r, (a, tr)) :=
    traced_execute (CcxtTradeAdapter id (λ _, None) None empty_cache bybit_session [])
      instant_clock (mkOrderRetryPolicy 2 fzero) "BTCUSDT" (lit false 1 0) (lit false 1 0)
      (timed_session, []) in
  gw_world (ca_gateway a) = 2%nat ∧ n_placed tr = 2%nat ∧
  existsb (λ e, match e with ECancel _ _ _ => true | _ => false end) tr = false.
Proof. vm_compute. by split_and!. Qed.
