(* ===== verification/Intervals.v ===== *)
(** * Interval arithmetic

    [quant/shared/intervals.py]: bar boundaries, apply slots and the text of a
    period.  A [timedelta] and an aware UTC [datetime] are their microseconds,
    the latter since the Unix epoch; a naive one is kept apart because the code
    refuses it.  The calendar's year range is not modelled. *)
From S2P Require Import Prelude PyFloat PyData Order Errors PyValue.

Inductive datetime := Utc (us : Z) | Naive (us : Z).

Definition SECOND : Z := 1000000.
Definition MINUTE : Z := 60 * SECOND.
Definition HOUR : Z := 60 * MINUTE.
Definition DAY : Z := 24 * HOUR.

(** ** [str(timedelta)] *)

Definition str_timedelta (us : Z) : string :=
  let days := us / DAY in
  let r := us mod DAY in
  (if days =? 0 then ""
   else str_Z days +:+ (if Z.abs days =? 1 then " day, " else " days, ")) +:+
  pad_digits 1 (r / HOUR) +:+ ":" +:+ pad_digits 2 (r mod HOUR / MINUTE) +:+ ":" +:+
  pad_digits 2 (r mod MINUTE / SECOND) +:+
  (if r mod SECOND =? 0 then "" else "." +:+ pad_digits 6 (r mod SECOND)).

(** ** [parse_period] *)

(** [\d+]: the value, how many digits, and the rest. *)
Fixpoint scan_digits (s : string) (acc : Z) (k : nat) : Z * nat * string :=
  match s with
  | String c s' => match digit_of c with
                   | Some d => scan_digits s' (10 * acc + d) (S k)
                   | None => (acc, k, s)
                   end
  | EmptyString => (acc, k, s)
  end.

(** [-?\d+] *)
Definition scan_int (s : string) : option (Z * string) :=
  let '(neg, t) := match s with String "-" t => (true, t) | _ => (false, s) end in
  match scan_digits t 0 0 with
  | (_, O, _) => None
  | (n, _, rest) => Some ((if neg then - n else n), rest)
  end.

(** [\d{1,2}] up to a character that is no digit *)
Definition scan_two (s : string) : option (Z * string) :=
  match scan_digits s 0 0 with
  | (n, 1%nat, rest) | (n, 2%nat, rest) => Some (n, rest)
  | _ => None
  end.

Definition expect (c : ascii) (s : string) : option string :=
  match s with
  | String a s' => if Ascii.eqb a c then Some s' else None
  | EmptyString => None
  end.

(** [(?:\.(?P<micros>\d+))?\s*$]: the first six decimals, padded. *)
Definition scan_micros (s : string) : option Z :=
  match s with
  | String "." t =>
      match scan_digits t 0 0 with
      | (_, O, _) => None
      | (v, k, rest) =>
          if String.eqb (lstrip rest) "" then
            let k := Z.of_nat k in
            Some (if k <=? 6 then v * 10 ^ (6 - k) else v / 10 ^ (k - 6))
          else None
      end
  | _ => if String.eqb (lstrip s) "" then Some 0 else None
  end.

(** The clock part, after [hours] were read. *)
Definition scan_clock (days hours : Z) (s : string) : option Z :=
  s ← expect ":" s;
  m ← scan_two s;
  s ← expect ":" m.2;
  sec ← scan_two s;
  micros ← scan_micros sec.2;
  Some (days * DAY + hours * HOUR + m.1 * MINUTE + sec.1 * SECOND + micros).

Definition drop_char (c : ascii) (s : string) : string := default s (expect c s).

(** [_TIMEDELTA_TEXT.match(value)], and the [timedelta] its groups make. *)
Definition match_timedelta (value : string) : option Z :=
  n ← scan_int (lstrip value);
  match n.2 with
  | String ":" _ => scan_clock 0 n.1 n.2
  | String c _ =>
      if is_space c then
        let s := lstrip n.2 in
        s ← expect "d" s; s ← expect "a" s; s ← expect "y" s;
        h ← scan_int (lstrip (drop_char "," (drop_char "s" s)));
        scan_clock n.1 h.1 h.2
      else None
  | EmptyString => None
  end.

(** What a caller may hand over as a period. *)
Inductive period_value :=
| PeriodDelta (us : Z)
| PeriodText (s : string)
| PeriodOther (type_name : string).

Definition MAX_DAYS : Z := 999999999.

Definition parse_period (value : period_value) : res exn Z :=
  period ← match value with
           | PeriodDelta us => mret us
           | PeriodText s =>
               match match_timedelta s with
               | Some us =>
                   if Z.abs (us / DAY) <=? MAX_DAYS then mret us
                   else Raise (OverflowError "days out of range for timedelta")
               | None => Raise (ValueError ("unrecognised PERIOD_LENGTH: " +:+ repr_str s))
               end
           | PeriodOther t =>
               Raise (TypeError ("PERIOD_LENGTH must be a timedelta or str, got " +:+ t))
           end;
  if period <=? 0 then
    Raise (ValueError ("PERIOD_LENGTH must be positive, got " +:+ str_timedelta period))
  else mret period.

(** ** Boundaries *)

(** [_require_utc] *)
Definition require_utc (ts : datetime) : res exn Z :=
  match ts with
  | Utc us => mret us
  | Naive _ => Raise (ValueError "timestamp must be timezone-aware UTC, got naive")
  end.

(** [as_utc] *)
Definition as_utc (ts : datetime) : Z := match ts with Utc us | Naive us => us end.

Definition ZeroDivisionError : exn := plain COther "integer division or modulo by zero".

(** [floor_to_period] *)
Definition floor_to_period (ts : datetime) (period : Z) : res exn Z :=
  elapsed ← require_utc ts;
  if period =? 0 then Raise ZeroDivisionError else mret (elapsed / period * period).

(** [last_closed_bar] *)
Definition last_closed_bar (now : datetime) (period : Z) : res exn Z :=
  f ← floor_to_period now period; mret (f - period).

(** [next_run_at] *)
Definition next_run_at (after : datetime) (period : Z) : res exn Z :=
  f ← floor_to_period after period; mret (f + period).

(** [next_apply_slot] *)
Definition next_apply_slot (after : datetime) (period offset : Z) : res exn Z :=
  if negb ((0 <=? offset) && (offset <? period)) then
    Raise (ValueError ("EXECUTE_OFFSET must be in [0, " +:+ str_timedelta period +:+ "), got " +:+
                       str_timedelta offset))
  else
    let after := as_utc after in
    f ← floor_to_period (Utc after) period;
    let candidate := f + period - offset in
    mret (if after <? candidate then candidate else candidate + period).

(** A time zone of the tz database: wall-clock microseconds of an instant, and
    the instant of a wall-clock reading. *)
Record zone := mkZone { to_wall : Z → Z; of_wall : Z → Z }.

(** [date.weekday()] of a day counted from the epoch, a Thursday *)
Definition weekday (day : Z) : Z := (day + 3) mod 7.

(** The day loop of [next_session_apply_slot]; [cursor] and the candidates are
    wall-clock readings of one zone, which Python compares as such. *)
Fixpoint session_slot (fuel : nat) (day cursor close_time offset : Z) : option Z :=
  match fuel with
  | O => None
  | S fuel' =>
      if 5 <=? weekday day then session_slot fuel' (day + 1) cursor close_time offset
      else
        let candidate := day * DAY + close_time - offset in
        if cursor <? candidate then Some candidate
        else session_slot fuel' (day + 1) cursor close_time offset
  end.

(** [next_session_apply_slot] *)
Definition next_session_apply_slot (after : datetime) (close_time : Z) (z : zone) (offset : Z)
    : res exn Z :=
  if offset <? 0 then
    Raise (ValueError ("EXECUTE_OFFSET must be >= 0, got " +:+ str_timedelta offset))
  else
    let cursor := to_wall z (as_utc after) in
    match session_slot 10 (cursor / DAY) cursor close_time offset with
    | Some candidate => mret (of_wall z candidate)
    | None => Raise (ValueError "no session close within 10 days")
    end.

(** The [while current <= end] loop of [bar_starts]. *)
Fixpoint starts_from (fuel : nat) (current end_ period : Z) : list Z :=
  match fuel with
  | O => []
  | S fuel' => if current <=? end_ then current :: starts_from fuel' (current + period) end_ period
               else []
  end.

(** [bar_starts]; for a positive period the fuel is past the last iteration. *)
Definition bar_starts (start end_ : datetime) (period : Z) : res exn (list Z) :=
  s ← require_utc start;
  e ← require_utc end_;
  f ← floor_to_period start period;
  let current := if f <? s then f + period else f in
  mret (starts_from (Z.to_nat ((e - current) / period + 1)) current e period).

(** [ccxt_timeframe] *)
Definition ccxt_timeframe (period : Z) : res exn string :=
  let seconds := Z.quot period SECOND in
  if seconds mod 604800 =? 0 then mret (str_Z (seconds / 604800) +:+ "w")
  else if seconds mod 86400 =? 0 then mret (str_Z (seconds / 86400) +:+ "d")
  else if seconds mod 3600 =? 0 then mret (str_Z (seconds / 3600) +:+ "h")
  else if seconds mod 60 =? 0 then mret (str_Z (seconds / 60) +:+ "m")
  else Raise (ValueError ("no ccxt timeframe for period " +:+ str_timedelta period)).

(** ** Reading numbers back *)

Lemma digit_of_char d : 0 <= d < 10 → digit_of (digit_char d) = Some d.
Proof.
  intros Hd. assert (∃ n, (n < 10)%nat ∧ d = Z.of_nat n) as (n & Hn & ->)
    by (exists (Z.to_nat d); lia).
  do 10 (destruct n as [|n]; [reflexivity|]). lia.
Qed.

Lemma digits_fuel_app fuel w n acc rest :
  digits_fuel fuel w n acc +:+ rest = digits_fuel fuel w n (acc +:+ rest).
Proof.
  revert w n acc. induction fuel as [|f IH]; intros w n acc; simpl; [done|].
  destruct ((n =? 0) && (w <=? 0)); [done|]. by rewrite IH.
Qed.

(** Scanning what was printed gives the number back, with at least [w] digits,
    and exactly [w] of them when they are enough. *)
Lemma scan_digits_fuel fuel w n acc a k :
  0 <= n < 10 ^ Z.of_nat fuel → w <= Z.of_nat fuel →
  ∃ len : nat, w <= Z.of_nat len ∧ (0 <= w → n < 10 ^ w → Z.of_nat len = w) ∧
    scan_digits (digits_fuel fuel w n acc) a k = scan_digits acc (a * 10 ^ Z.of_nat len + n) (k + len).
Proof.
  revert w n acc. induction fuel as [|f IH]; intros w n acc Hn Hw.
  { exists 0%nat. simpl in *. assert (n = 0) as -> by lia.
    split_and!; [lia| |by rewrite Z.mul_1_r, Z.add_0_r, Nat.add_0_r].
    intros. lia. }
  cbn [digits_fuel]. destruct ((n =? 0) && (w <=? 0)) eqn:Hc.
  { apply andb_true_iff in Hc as [->%Z.eqb_eq Hw0%Z.leb_le].
    exists 0%nat. simpl. rewrite Z.mul_1_r, Z.add_0_r, Nat.add_0_r. split_and!; [lia|lia|done]. }
  rewrite Nat2Z.inj_succ, Z.pow_succ_r in Hn by lia.
  destruct (IH (w - 1) (n / 10) (String (digit_char (n mod 10)) acc)) as (len & Hl & He & Hs);
    [split; [apply Z.div_pos; lia|apply Z.div_lt_upper_bound; lia]|lia|].
  exists (S len). rewrite Hs. cbn [scan_digits].
  rewrite digit_of_char by (apply Z.mod_pos_bound; lia).
  assert (0 <= w → n < 10 ^ w → 1 <= w) as Hw1.
  { intros. destruct (Z.eq_dec w 0) as [->|]; [|lia]. simpl in *.
    apply andb_false_iff in Hc as [Hc|Hc]; [apply Z.eqb_neq in Hc|apply Z.leb_gt in Hc]; lia. }
  split_and!; [lia| |].
  - intros Hp Hlt. specialize (Hw1 Hp Hlt). rewrite Nat2Z.inj_succ, He; [lia..|].
    apply Z.div_lt_upper_bound; [lia|]. rewrite <-Z.pow_succ_r by lia.
    by replace (Z.succ (w - 1)) with w by lia.
  - rewrite Nat2Z.inj_succ, Z.pow_succ_r by lia. f_equal; [|lia].
    pose proof (Z.div_mod n 10 ltac:(lia)).
    replace (a * (10 * 10 ^ Z.of_nat len)) with (10 * (a * 10 ^ Z.of_nat len)) by ring. lia.
Qed.

Lemma pad_scan w n rest : 0 <= n → 1 <= w →
  ∃ len : nat, w <= Z.of_nat len ∧ (n < 10 ^ w → Z.of_nat len = w) ∧
    scan_digits (pad_digits w n +:+ rest) 0 0 = scan_digits rest n len.
Proof.
  intros Hn Hw. unfold pad_digits. rewrite digits_fuel_app.
  change ("" +:+ rest) with rest. rewrite (Z.max_l w 1) by lia.
  pose proof (Z.log2_nonneg n) as Hlog.
  edestruct (scan_digits_fuel (Z.to_nat (Z.max w (Z.log2 n + 2))) w n rest 0 0)
    as (len & Hl & He & ->); [|lia|].
  - split; [done|]. rewrite Z2Nat.id by lia.
    destruct (Z.eq_dec n 0) as [->|]; [apply Z.pow_pos_nonneg; lia|].
    destruct (Z.log2_spec n ltac:(lia)) as [_ Hlt]. eapply Z.lt_le_trans; [exact Hlt|].
    etrans; [apply (Z.pow_le_mono_l 2 10); lia|apply Z.pow_le_mono_r; lia].
  - exists len. by split_and!; [|intros; apply He; [lia|]|].
Qed.

(** A text the digits of which stop at [rest]. *)
Definition no_digit (rest : string) : Prop :=
  match rest with String c _ => digit_of c = None | EmptyString => True end.

Lemma scan_stop rest n k : no_digit rest → scan_digits rest n k = (n, k, rest).
Proof. destruct rest as [|c s]; simpl; [done|]. by intros ->. Qed.

(** A text that starts with a digit is neither blank nor signed. *)
Lemma scan_digits_head s n k rest : scan_digits s 0 0 = (n, S k, rest) →
  lstrip s = s ∧ scan_int s = Some (n, rest).
Proof.
  intros Hs. assert (∃ c t d, s = String c t ∧ digit_of c = Some d) as (c & t & d & -> & Hc).
  { destruct s as [|c t]; [done|]. simpl in Hs. destruct (digit_of c) eqn:Hc; [|done]. eauto. }
  assert ((48 <=? N_of_ascii c)%N = true ∧ (N_of_ascii c <=? 57)%N = true) as [H1 H2].
  { unfold digit_of in Hc. by destruct (48 <=? N_of_ascii c)%N, (N_of_ascii c <=? 57)%N. }
  split.
  - simpl. replace (is_space c) with false; [done|]. unfold is_space.
    apply N.leb_le in H1. symmetry. rewrite !orb_false_iff, !andb_false_iff.
    rewrite !N.leb_gt, N.eqb_neq. lia.
  - unfold scan_int. assert (c ≠ "-"%char) as Hm by (intros ->; done).
    assert (match String c t with String "-" t => (true, t) | _ => (false, String c t) end
            = (false, String c t)) as Hneg.
    { destruct c as [[] [] [] [] [] [] [] []]; done. }
    rewrite Hneg, Hs. done.
Qed.

Lemma scan_pad n rest : 0 <= n → no_digit rest →
  lstrip (pad_digits 1 n +:+ rest) = pad_digits 1 n +:+ rest ∧
  scan_int (pad_digits 1 n +:+ rest) = Some (n, rest).
Proof.
  intros Hn Hr. destruct (pad_scan 1 n rest Hn ltac:(lia)) as (len & Hl & _ & Hs).
  rewrite (scan_stop rest) in Hs by done. destruct len; [lia|]. by apply scan_digits_head in Hs.
Qed.

Lemma scan_two_pad n rest : 0 <= n < 100 → no_digit rest →
  scan_two (pad_digits 2 n +:+ rest) = Some (n, rest).
Proof.
  intros Hn Hr. destruct (pad_scan 2 n rest ltac:(lia) ltac:(lia)) as (len & _ & Hl & Hs).
  unfold scan_two. rewrite Hs, scan_stop by done. specialize (Hl ltac:(lia)).
  by replace len with 2%nat by lia.
Qed.

(** ** Properties of periods *)

Ltac unfold_units := unfold DAY, HOUR, MINUTE, SECOND in *.

(** The fields of a printed period add up to it. *)
Lemma timedelta_fields us : let r := us mod DAY in
  us / DAY * DAY + r / HOUR * HOUR + r mod HOUR / MINUTE * MINUTE + r mod MINUTE / SECOND * SECOND
  + r mod SECOND = us ∧
  0 <= r / HOUR < 24 ∧ 0 <= r mod HOUR / MINUTE < 60 ∧ 0 <= r mod MINUTE / SECOND < 60 ∧
  0 <= r mod SECOND < 10 ^ 6.
Proof.
  intros r. subst r. unfold_units. change (10 ^ 6) with 1000000. change (60 * 1000000) with 60000000.
  change (60 * 60000000) with 3600000000. change (24 * 3600000000) with 86400000000.
  Z.to_euclidean_division_equations. lia.
Qed.

Lemma scan_micros_text u : 0 <= u < 10 ^ 6 →
  scan_micros (if u =? 0 then "" else "." +:+ pad_digits 6 u) = Some u.
Proof.
  intros Hu. destruct (Z.eqb_spec u 0) as [->|Hn]; [done|].
  destruct (pad_scan 6 u "" ltac:(lia) ltac:(lia)) as (len & _ & Hl & Hs).
  specialize (Hl ltac:(lia)). assert (len = 6%nat) as -> by lia.
  rewrite string_app_empty in Hs. change ("." +:+ pad_digits 6 u) with (String "." (pad_digits 6 u)).
  cbn [scan_micros]. rewrite Hs. simpl. f_equal. lia.
Qed.

Lemma no_digit_micros u :
  no_digit (if u =? 0 then "" else "." +:+ pad_digits 6 u).
Proof. by destruct (u =? 0). Qed.

Lemma scan_clock_text days h m s u :
  0 <= m < 60 → 0 <= s < 60 → 0 <= u < 10 ^ 6 →
  scan_clock days h (":" +:+ pad_digits 2 m +:+ ":" +:+ pad_digits 2 s +:+
    (if u =? 0 then "" else "." +:+ pad_digits 6 u)) =
  Some (days * DAY + h * HOUR + m * MINUTE + s * SECOND + u).
Proof.
  intros Hm Hs Hu. set (tail := if u =? 0 then _ else _).
  assert (∀ x, expect ":" (":" +:+ x) = Some x) as Hcolon by done.
  assert (∀ x, no_digit (":" +:+ x)) as Hnd by done.
  unfold scan_clock. rewrite Hcolon. cbn [mbind option_bind].
  rewrite scan_two_pad by auto with lia. cbn [mbind option_bind fst snd].
  rewrite Hcolon. cbn [mbind option_bind].
  rewrite scan_two_pad by (try lia; apply no_digit_micros). cbn [mbind option_bind fst snd].
  unfold tail. by rewrite scan_micros_text.
Qed.

(** A period survives the snapshot it is published through: the text
    Python gives a positive [timedelta] of at most a billion days parses back
    to the same period. *)
Theorem parse_period_roundtrip us :
  0 < us → us / DAY <= MAX_DAYS → parse_period (PeriodText (str_timedelta us)) = Ok us.
Proof.
  intros Hus Hmax. assert (0 <= us / DAY) as Hd by (apply Z.div_pos; unfold_units; lia).
  destruct (timedelta_fields us) as (Hsum & Hh & Hm & Hs & Hu).
  set (r := us mod DAY) in *. set (d := us / DAY) in *.
  assert (match_timedelta (str_timedelta us) = Some us) as Hmatch.
  2: { unfold parse_period. rewrite Hmatch. fold d. rewrite Z.abs_eq by done.
       rewrite (proj2 (Z.leb_le _ _) Hmax). unfold mret, res_ret. cbn [mbind res_bind].
       by rewrite (proj2 (Z.leb_gt _ _) Hus). }
  unfold str_timedelta. fold d. fold r.
  set (clock := ":" +:+ pad_digits 2 (r mod HOUR / MINUTE) +:+ ":" +:+
    pad_digits 2 (r mod MINUTE / SECOND) +:+
    (if r mod SECOND =? 0 then "" else "." +:+ pad_digits 6 (r mod SECOND))).
  assert (∀ days, scan_clock days (r / HOUR) clock = Some (days * DAY + r / HOUR * HOUR +
    r mod HOUR / MINUTE * MINUTE + r mod MINUTE / SECOND * SECOND + r mod SECOND)) as Hclock
    by (intros; by apply scan_clock_text).
  destruct (scan_pad (r / HOUR) clock ltac:(lia) eq_refl) as [Hstrip Hint].
  unfold match_timedelta. destruct (Z.eqb_spec d 0) as [Hd0|Hd0].
  - change ("" +:+ ?x) with x. rewrite Hstrip, Hint. cbn [mbind option_bind fst snd].
    change (scan_clock 0 (r / HOUR) clock = Some us). rewrite Hclock. f_equal. lia.
  - unfold str_Z. rewrite (proj2 (Z.ltb_ge d 0)) by done. rewrite !string_app_assoc.
    set (sep := if Z.abs d =? 1 then " day, " else " days, ").
    assert (∀ x, no_digit (sep +:+ x)) as Hnd by (intros; unfold sep; by destruct (Z.abs d =? 1)).
    destruct (scan_pad d (sep +:+ pad_digits 1 (r / HOUR) +:+ clock) Hd (Hnd _)) as [Hstrip2 Hint2].
    rewrite Hstrip2, Hint2. cbn [mbind option_bind fst snd].
    assert (scan_clock d (r / HOUR) clock = Some us) as Hdone by (rewrite Hclock; f_equal; lia).
    unfold sep. destruct (Z.abs d =? 1).
    + change (" day, " +:+ ?x) with (String " " ("day, " +:+ x)). cbn iota.
      change (is_space " ") with true. cbn iota.
      change (lstrip (String " " ("day, " +:+ ?x))) with ("day, " +:+ x).
      change (expect "d" ("day, " +:+ ?x)) with (Some ("ay, " +:+ x)). cbn [mbind option_bind].
      change (expect "a" ("ay, " +:+ ?x)) with (Some ("y, " +:+ x)). cbn [mbind option_bind].
      change (expect "y" ("y, " +:+ ?x)) with (Some (", " +:+ x)). cbn [mbind option_bind].
      change (lstrip (drop_char "," (drop_char "s" (", " +:+ ?x)))) with (lstrip x).
      rewrite Hstrip, Hint. exact Hdone.
    + change (" days, " +:+ ?x) with (String " " ("days, " +:+ x)). cbn iota.
      change (is_space " ") with true. cbn iota.
      change (lstrip (String " " ("days, " +:+ ?x))) with ("days, " +:+ x).
      change (expect "d" ("days, " +:+ ?x)) with (Some ("ays, " +:+ x)). cbn [mbind option_bind].
      change (expect "a" ("ays, " +:+ ?x)) with (Some ("ys, " +:+ x)). cbn [mbind option_bind].
      change (expect "y" ("ys, " +:+ ?x)) with (Some ("s, " +:+ x)). cbn [mbind option_bind].
      change (lstrip (drop_char "," (drop_char "s" ("s, " +:+ ?x)))) with (lstrip x).
      rewrite Hstrip, Hint. exact Hdone.
Qed.

(** ** Properties of boundaries *)

Section boundaries.
Variable period : Z.
Hypothesis period_pos : 0 < period.

Lemma floor_to_period_ok ts : floor_to_period (Utc ts) period = Ok (ts / period * period).
Proof. unfold floor_to_period. simpl. by rewrite (proj2 (Z.eqb_neq period 0)) by lia. Qed.

Lemma floor_bounds ts : ts / period * period <= ts < ts / period * period + period.
Proof.
  pose proof (Z.div_mod ts period ltac:(lia)). pose proof (Z.mod_pos_bound ts period period_pos). lia.
Qed.

Lemma multiple_of_floor ts : (ts / period * period) mod period = 0.
Proof. apply Z.mod_mul. lia. Qed.

(** Two boundaries at most a period apart are one or next to each other. *)
Lemma boundary_gap a b : a mod period = 0 → b mod period = 0 → a < b → a + period <= b.
Proof.
  intros Ha Hb Hab.
  pose proof (Z.div_mod a period ltac:(lia)). pose proof (Z.div_mod b period ltac:(lia)).
  assert (a / period < b / period) by (apply (Z.mul_lt_mono_pos_l period); lia).
  assert (period * (a / period + 1) <= period * (b / period)) by (apply Z.mul_le_mono_nonneg_l; lia).
  lia.
Qed.

Lemma slot_spec after offset r : 0 <= offset < period →
  next_apply_slot after period offset = Ok r →
  as_utc after < r ∧ (r + offset) mod period = 0 ∧
  ∀ s, as_utc after < s → (s + offset) mod period = 0 → r <= s.
Proof.
  intros Hoff. unfold next_apply_slot.
  rewrite (proj2 (Z.leb_le _ _) (proj1 Hoff)), (proj2 (Z.ltb_lt _ _) (proj2 Hoff)).
  cbn [negb andb]. rewrite floor_to_period_ok. cbn [mbind res_bind].
  set (now := as_utc after). pose proof (floor_bounds now) as Hb.
  pose proof (multiple_of_floor now) as Hm. set (f := now / period * period) in *.
  assert (∀ k, (f + k * period) mod period = 0) as Hk.
  { intros k. rewrite Z.mod_add by lia. exact Hm. }
  assert (∀ s b, b mod period = 0 → b <= now → now < s → (s + offset) mod period = 0 →
                 b + period <= s + offset) as Hleast.
  { intros s b Hb0 Hbn Hs Hso. apply boundary_gap; [done|done|lia]. }
  destruct (Z.ltb_spec now (f + period - offset)) as [Hlt|Hge]; intros [= <-].
  - split_and!; [lia| |intros s Hs Hso; pose proof (Hleast s f Hm ltac:(lia) Hs Hso); lia].
    replace (f + period - offset + offset) with (f + 1 * period) by lia. apply Hk.
  - split_and!; [lia| |].
    + replace (f + period - offset + period + offset) with (f + 2 * period) by lia. apply Hk.
    + intros s Hs Hso. assert ((f + period) mod period = 0) as Hm2
        by (replace (f + period) with (f + 1 * period) by lia; apply Hk).
      pose proof (boundary_gap (f + period) (s + offset) Hm2 Hso). lia.
Qed.

Lemma starts_from_spec fuel c e x : c mod period = 0 → (e - c) / period + 1 <= Z.of_nat fuel →
  x ∈ starts_from fuel c e period ↔ c <= x <= e ∧ x mod period = 0.
Proof.
  revert c. induction fuel as [|fuel IH]; intros c Hc Hf; simpl.
  { rewrite elem_of_nil. split; [done|]. intros [Hx _].
    assert (0 <= (e - c) / period) by (apply Z.div_pos; lia). lia. }
  destruct (Z.leb_spec c e) as [Hle|Hgt].
  2: { rewrite elem_of_nil. split; [done|lia]. }
  assert ((c + period) mod period = 0) as Hc'
    by (replace (c + period) with (c + 1 * period) by lia; by rewrite Z.mod_add by lia).
  rewrite elem_of_cons, IH; [|done|].
  - split; [intros [->|[]]; split; lia|].
    intros [[Hcx Hxe] Hx]. destruct (Z.eq_dec x c) as [->|Hne]; [by left|].
    right. split; [|done]. split; [|done]. apply boundary_gap; [done|done|lia].
  - replace (e - (c + period)) with (e - c + (-1) * period) by lia. rewrite Z.div_add by lia. lia.
Qed.

Lemma starts_from_sorted fuel c e : StronglySorted Z.lt (starts_from fuel c e period).
Proof.
  assert (∀ fuel c x, x ∈ starts_from fuel c e period → c <= x) as Hge.
  { clear fuel c. intros fuel. induction fuel as [|fuel IH]; intros c x; simpl;
      [by intros ?%elem_of_nil|].
    destruct (c <=? e); [|by intros ?%elem_of_nil].
    intros [->|Hx]%elem_of_cons; [lia|]. specialize (IH _ _ Hx). lia. }
  revert c. induction fuel as [|fuel IH]; intros c; simpl; [constructor|].
  destruct (c <=? e); constructor; [apply IH|].
  apply Forall_forall. intros x Hx. specialize (Hge _ _ _ Hx). lia.
Qed.
End boundaries.

(** The next apply slot is the earliest moment after now that precedes a
    bar's close by exactly the configured lead: the schedule neither skips a bar
    nor fires in the past. *)
Theorem next_apply_slot_least after period offset r :
  0 < period → 0 <= offset < period → next_apply_slot after period offset = Ok r →
  as_utc after < r ∧ (r + offset) mod period = 0 ∧
  ∀ s, as_utc after < s → (s + offset) mod period = 0 → r <= s.
Proof. intros Hp. by apply slot_spec. Qed.

Lemma bar_starts_spec start end_ period :
  0 < period →
  ∃ l, bar_starts (Utc start) (Utc end_) period = Ok l ∧ StronglySorted Z.lt l ∧
  ∀ x, x ∈ l ↔ start <= x <= end_ ∧ x mod period = 0.
Proof.
  intros Hp. unfold bar_starts. rewrite floor_to_period_ok by done. cbn [require_utc mbind res_bind].
  eexists. split; [done|]. split; [by apply starts_from_sorted|]. intros x.
  pose proof (floor_bounds period Hp start) as Hb. pose proof (multiple_of_floor period Hp start) as Hm.
  set (f := start / period * period) in *.
  set (c := if f <? start then f + period else f).
  assert (c mod period = 0 ∧ start <= c ∧ ∀ y, start <= y → y mod period = 0 → c <= y)
    as (Hc & Hsc & Hleast).
  { subst c. destruct (Z.ltb_spec f start).
    - split_and!; [|lia|].
      + replace (f + period) with (f + 1 * period) by lia. by rewrite Z.mod_add by lia.
      + intros y Hy Hym. apply boundary_gap; [done..|lia].
    - split_and!; [done|lia|lia]. }
  rewrite starts_from_spec; [|done|done|].
  - split; intros [? Hx]; (split; [|done]); [lia|]. split; [apply Hleast; [lia|done]|lia].
  - pose proof (Z.le_max_l ((end_ - c) / period + 1) 0). lia.
Qed.

(** [bar_starts] lists exactly the bar opens of the closed range, each
    once and in order, and its loop ends. *)
Theorem bar_starts_exact start end_ period :
  0 < period →
  ∃ l, bar_starts (Utc start) (Utc end_) period = Ok l ∧ StronglySorted Z.lt l ∧
  ∀ x, x ∈ l ↔ start <= x <= end_ ∧ x mod period = 0.
Proof. apply bar_starts_spec. Qed.

(** The newest bar that may be stored or traded on has closed, and the next one
    has not. *)
Lemma last_closed_bar_spec now period b : 0 < period →
  last_closed_bar (Utc now) period = Ok b →
  b mod period = 0 ∧ b + period <= now < b + 2 * period.
Proof.
  intros Hp. unfold last_closed_bar. rewrite floor_to_period_ok by done. intros [= <-].
  pose proof (floor_bounds period Hp now). split; [|lia].
  replace (now / period * period - period) with (now / period * period + (-1) * period) by lia.
  rewrite Z.mod_add by lia. by apply multiple_of_floor.
Qed.

(** Seconds a ccxt timeframe stands for. *)
Definition timeframe_seconds (s : string) : option Z :=
  n ← scan_int s;
  match n.2 with
  | "w" => Some (n.1 * 604800)
  | "d" => Some (n.1 * 86400)
  | "h" => Some (n.1 * 3600)
  | "m" => Some (n.1 * 60)
  | _ => None
  end%string.

Lemma timeframe_text n c : 0 <= n → no_digit c → scan_int (str_Z n +:+ c) = Some (n, c).
Proof.
  intros Hn Hc. unfold str_Z. rewrite (proj2 (Z.ltb_ge n 0)) by done. by apply scan_pad.
Qed.

Lemma str_Z_inj a b : 0 <= a → 0 <= b → str_Z a = str_Z b → a = b.
Proof.
  intros Ha Hb E. pose proof (timeframe_text a "" Ha I) as H1. pose proof (timeframe_text b "" Hb I) as H2.
  rewrite E, H2 in H1. congruence.
Qed.

(** A period of whole minutes has a ccxt timeframe, which stands for
    exactly that period; no other whole-second period has one. *)
Theorem ccxt_timeframe_exact seconds :
  0 < seconds →
  match ccxt_timeframe (seconds * SECOND) with
  | Ok s => timeframe_seconds s = Some seconds
  | Raise _ => seconds mod 60 ≠ 0
  end.
Proof.
  intros Hs. unfold ccxt_timeframe. rewrite Z.quot_mul by done.
  assert (∀ u c, 0 < u → seconds mod u = 0 → no_digit c → 0 <= seconds / u ∧
    scan_int (str_Z (seconds / u) +:+ c) = Some (seconds / u, c) ∧ seconds / u * u = seconds) as Hu.
  { intros u c Hu Hm Hc. assert (0 <= seconds / u) by (apply Z.div_pos; lia).
    split_and!; [done|by apply timeframe_text|]. pose proof (Z.div_mod seconds u ltac:(lia)). lia. }
  repeat match goal with
  | |- context [seconds mod ?u =? 0] => destruct (Z.eqb_spec (seconds mod u) 0) as [Hm|]
  end; simpl; [ | | | |done]; unfold timeframe_seconds;
    match goal with |- context [str_Z (seconds / ?u) +:+ ?c] =>
      destruct (Hu u c ltac:(lia) Hm eq_refl) as (_ & -> & Hmul) end;
    simpl; by rewrite Hmul.
Qed.

(** ** Sessions *)

Lemma session_slot_spec fuel day cursor close offset r :
  session_slot fuel day cursor close offset = Some r →
  ∃ k, 0 <= k < Z.of_nat fuel ∧ r = (day + k) * DAY + close - offset ∧ cursor < r ∧
       weekday (day + k) < 5 ∧
       ∀ j, 0 <= j < k → weekday (day + j) < 5 → (day + j) * DAY + close - offset <= cursor.
Proof.
  revert day. induction fuel as [|fuel IH]; intros day; simpl; [done|].
  assert (session_slot fuel (day + 1) cursor close offset = Some r →
    (weekday day < 5 → day * DAY + close - offset <= cursor) →
    ∃ k, 0 <= k < Z.of_nat (S fuel) ∧ r = (day + k) * DAY + close - offset ∧ cursor < r ∧
       weekday (day + k) < 5 ∧
       ∀ j, 0 <= j < k → weekday (day + j) < 5 → (day + j) * DAY + close - offset <= cursor) as Hnext.
  { intros Hr Hday. destruct (IH _ Hr) as (k & Hk & -> & Hc & Hw & Hj).
    exists (k + 1). replace (day + (k + 1)) with (day + 1 + k) by lia.
    split_and!; [lia|lia|done|done|done|]. intros j Hj1 Hw1.
    destruct (Z.eq_dec j 0) as [->|]; [rewrite Z.add_0_r in *; auto|].
    specialize (Hj (j - 1)). replace (day + 1 + (j - 1)) with (day + j) in Hj by lia. apply Hj; [lia|done]. }
  destruct (Z.leb_spec 5 (weekday day)); [intros Hr; apply Hnext; [done|lia]|].
  destruct (Z.ltb_spec cursor (day * DAY + close - offset)).
  - intros [= <-]. exists 0. rewrite !Z.add_0_r. split_and!; try lia.
  - intros Hr. apply Hnext; [done|lia].
Qed.

(** Ten days hold a weekday after any cursor, for a close within the day: the
    loop's bound is enough. *)
Lemma session_slot_found cursor close offset :
  0 <= close < DAY → 0 <= offset <= DAY →
  is_Some (session_slot 10 (cursor / DAY) cursor close offset).
Proof.
  assert (DAY = 86400000000) as HD by done. rewrite HD. intros Hc Ho.
  set (d := cursor / 86400000000).
  assert (cursor < d * 86400000000 + 86400000000) as Hd.
  { pose proof (Z.div_mod cursor 86400000000 ltac:(done)) as Hdm. fold d in Hdm.
    pose proof (Z.mod_pos_bound cursor 86400000000 ltac:(done)). lia. }
  assert (∀ n fuel day, d + 3 - Z.of_nat n <= day → (n + 4 < fuel)%nat → (n <= 3)%nat →
            is_Some (session_slot fuel day cursor close offset)) as Hex.
  { assert (∀ m fuel day, d + 2 <= day → 7 - weekday day <= Z.of_nat m ∨ weekday day < 5 →
              (m < fuel)%nat → is_Some (session_slot fuel day cursor close offset)) as Hlate.
    { induction m as [|m IH]; intros fuel day Hday Hw Hf; (destruct fuel as [|fuel]; [lia|]); simpl;
        pose proof (Z.mod_pos_bound (day + 3) 7 ltac:(lia)) as Hb; fold (weekday day) in Hb;
        (destruct (Z.leb_spec 5 (weekday day));
         [|rewrite (proj2 (Z.ltb_lt _ _)); [done|rewrite HD; lia]]).
      - lia.
      - apply IH; [lia| |lia]. unfold weekday in *.
        replace (day + 1 + 3) with (day + 3 + 1) by lia.
        destruct (Z.eq_dec ((day + 3) mod 7) 6) as [He|He].
        + right. rewrite <-Zplus_mod_idemp_l, He. done.
        + left. rewrite <-Zplus_mod_idemp_l. rewrite Z.mod_small; lia. }
    induction n as [|n IH]; intros fuel day Hday Hf Hn.
    - apply (Hlate 2%nat); [lia| |lia].
      pose proof (Z.mod_pos_bound (day + 3) 7 ltac:(lia)) as Hb. unfold weekday. lia.
    - destruct fuel as [|fuel]; [lia|]. simpl. repeat case_match; try done; apply IH; lia. }
  apply (Hex 3%nat); lia.
Qed.

(** A listed session's slot: for a close on the day's clock and a lead of
    at most a day, there is one within ten days; it is the configured lead before
    a weekday's close, still ahead on the venue's clock, and no earlier weekday
    of the search had one. *)
Theorem next_session_apply_slot_first after close z offset :
  0 <= close < DAY → 0 <= offset <= DAY →
  let cursor := to_wall z (as_utc after) in
  ∃ k, let slot := (cursor / DAY + k) * DAY + close - offset in
  next_session_apply_slot after close z offset = Ok (of_wall z slot) ∧
  0 <= k < 10 ∧ cursor < slot ∧ weekday (cursor / DAY + k) < 5 ∧
  ∀ j, 0 <= j < k → weekday (cursor / DAY + j) < 5 →
       (cursor / DAY + j) * DAY + close - offset <= cursor.
Proof.
  intros Hc Ho cursor. unfold next_session_apply_slot. rewrite (proj2 (Z.ltb_ge _ _) (proj1 Ho)).
  fold cursor. destruct (session_slot_found cursor close offset Hc Ho) as [r Hr]. rewrite Hr.
  destruct (session_slot_spec _ _ _ _ _ _ Hr) as (k & Hk & -> & ? & ? & ?). exists k.
  cbv zeta. split_and!; [done|lia..|done|done].
Qed.

(** ** Concrete calendars *)

Lemma parse_period_roundtrip_witness :
  str_timedelta 90061000001 = "1 day, 1:01:01.000001" ∧
  parse_period (PeriodText (str_timedelta 90061000001)) = Ok 90061000001.
Proof.
  split; [reflexivity|]. apply (parse_period_roundtrip 90061000001); [lia|].
  vm_compute. discriminate.
Defined.

(** 2026-01-02 03:04:05 UTC, hourly bars, five minutes before the close. *)
Lemma next_apply_slot_least_witness :
  let now := 1767323045 * SECOND in
  next_apply_slot (Utc now) HOUR (5 * MINUTE) = Ok (1767326100 * SECOND) ∧
  (1767326100 * SECOND + 5 * MINUTE) mod HOUR = 0.
Proof.
  intros now. split; [reflexivity|].
  apply (next_apply_slot_least (Utc now) HOUR (5 * MINUTE)); [done|done|reflexivity].
Defined.

Lemma bar_starts_exact_witness :
  bar_starts (Utc 5) (Utc 31) 10 = Ok [10; 20; 30] ∧
  ∃ l, bar_starts (Utc 5) (Utc 31) 10 = Ok l ∧ (20 ∈ l ↔ 5 <= 20 <= 31 ∧ 20 mod 10 = 0).
Proof.
  split; [reflexivity|]. destruct (bar_starts_exact 5 31 10 ltac:(lia)) as (l & Hl & _ & Hx).
  exists l. split; [exact Hl|apply Hx].
Defined.

Lemma ccxt_timeframe_exact_witness :
  0 < 14400 ∧ ccxt_timeframe (14400 * SECOND) = Ok "4h" ∧
  match ccxt_timeframe (14400 * SECOND) with
  | Ok s => timeframe_seconds s = Some 14400
  | Raise _ => 14400 mod 60 ≠ 0
  end.
Proof. split; [lia|]. split; [reflexivity|]. apply (ccxt_timeframe_exact 14400). lia. Defined.

(** A zone five hours behind UTC; Saturday 2026-01-03 noon UTC, close at 16:00. *)
Definition minus_five : zone := mkZone (λ t, t - 5 * HOUR) (λ t, t + 5 * HOUR).

Lemma next_session_apply_slot_first_witness :
  let after := Utc (1767441600 * SECOND) in
  next_session_apply_slot after (16 * HOUR) minus_five (5 * MINUTE)
    = Ok (1767646500 * SECOND) ∧
  ∃ k, next_session_apply_slot after (16 * HOUR) minus_five (5 * MINUTE)
    = Ok (of_wall minus_five ((to_wall minus_five (as_utc after) / DAY + k) * DAY + 16 * HOUR - 5 * MINUTE)).
Proof.
  intros after. split; [reflexivity|].
  destruct (next_session_apply_slot_first after (16 * HOUR) minus_five (5 * MINUTE)
    ltac:(done) ltac:(done)) as (k & Hk & _). by exists k.
Defined.
