(* ===== verification/RefData.v ===== *)
(** * Reference data

    [quant/refdata/reader.py]: catalog and policy rows served from a local copy
    of the Redis snapshot, dropped a schema at a time when its version stamp
    moves, and the typed lookups over them.  Redis and the decoding of its JSON
    payloads are parameters. *)
From S2P Require Import Prelude PyFloat PyData Order Errors PyValue Intervals.

(** [int(v)] *)
Definition int_of_str (s : string) : option Z :=
  let '(neg, t) := match strip s with
                   | String "-" t => (true, t)
                   | String "+" t => (false, t)
                   | t => (false, t)
                   end in
  match digit_run t 0 0 with
  | (n, S _, "") => Some (if neg then - n else n)
  | _ => None
  end.

Definition int_val (v : pyval) : res exn Z :=
  match v with
  | VBool b => Ok (if b then 1 else 0)
  | VInt z => Ok z
  | VFloat f => res_map_exn int_exn (trunc_int f)
  | VStr s => match int_of_str s with
              | Some z => Ok z
              | None => Raise (ValueError ("invalid literal for int() with base 10: " +:+ repr_str s))
              end
  | _ => Raise (TypeError ("int() argument must be a string, a bytes-like object or a real " +:+
                           "number, not '" +:+ type_name v +:+ "'"))
  end.

(** ** The snapshot *)

Definition cache_key (schema table : string) : string := schema +:+ ":" +:+ table.
Definition version_key (schema : string) : string := schema +:+ ":version".

(** [RedisRefData]'s local rows and the stamp each schema's were read under. *)
Record refdata := mkRefdata {
  rd_store : list (string * string * list pyval);
  rd_versions : list (string * option string)
}.

(** The Redis client, and [json.loads] of a table's payload. *)
Class RedisRows (X : Type) := {
  redis_get : string → prog X exn (option string);
  json_rows : string → res exn (list pyval)
}.

Section snapshot.
Context {X : Type} `{RedisRows X}.

Abbreviation R := (refdata * X)%type.

Definition on_redis {A} (m : prog X exn A) : prog R exn A := λ s,
  let '(r, x) := m s.2 in (r, (s.1, x)).
Definition set_refdata (d : refdata) : prog R exn unit := λ s, (Ok tt, (d, s.2)).
Definition get_refdata : prog R exn refdata := λ s, (Ok s.1, s).

(** [except redis.RedisError as exc: raise RuntimeError(...)] *)
Definition redis_read (key : string) : prog R exn (option string) :=
  catch (on_redis (redis_get key)) (λ e,
    if isinstance e CRedisError then raise (RuntimeError ("Redis unavailable: " +:+ exn_msg e))
    else raise e).

(** The stored tables of other schemas. *)
Definition drop_schema (schema : string) (store : list (string * string * list pyval)) :=
  List.filter (λ kv, negb (String.eqb kv.1.1 schema)) store.

(** [_check_version] *)
Definition check_version (schema : string) : prog R exn unit :=
  current ← redis_read (version_key schema);
  d ← get_refdata;
  if bool_decide (current = default None (dict_get schema (rd_versions d))) then mret tt
  else set_refdata (mkRefdata (drop_schema schema (rd_store d))
                      (dict_set schema current (rd_versions d))).

(** [_load_table] *)
Definition load_table (schema table : string) : prog R exn (list pyval) :=
  raw ← redis_read (cache_key schema table);
  match raw with
  | None => raise (ValueError (schema +:+ "." +:+ table +:+
                     " not in Redis — publisher may not have run yet"))
  | Some text =>
      rows ← lift_res (json_rows text);
      d ← get_refdata;
      _ ← set_refdata (mkRefdata (dict_set (schema, table) rows (rd_store d)) (rd_versions d));
      mret rows
  end.

(** [_get] *)
Definition rd_get (schema table : string) : prog R exn (list pyval) :=
  _ ← check_version schema;
  d ← get_refdata;
  rows ← match default [] (dict_get (schema, table) (rd_store d)) with
         | [] => load_table schema table
         | rows => mret rows
         end;
  match rows with
  | [] => raise (ValueError (schema +:+ "." +:+ table +:+ " is empty"))
  | _ => mret rows
  end.

(** [get], [get_config] *)
Definition rd_table (table : string) : prog R exn (list pyval) := rd_get "refdata" table.
Definition rd_config (table : string) : prog R exn (list pyval) := rd_get "config" table.
End snapshot.

(** ** Lookups over the rows *)

(** [for r in rows: if cond(r): return r] *)
Fixpoint find_row (cond : pyval → res exn bool) (rows : list pyval) : res exn (option pyval) :=
  match rows with
  | [] => mret None
  | r :: rows' => b ← cond r; if (b : bool) then mret (Some r) else find_row cond rows'
  end.

(** [r[col] == text] *)
Definition col_is (col text : string) (r : pyval) : res exn bool :=
  v ← getitem col r; mret (match v with VStr s => String.eqb s text | _ => false end).

(** [int(r[col]) == n] *)
Definition col_int_is (col : string) (n : Z) (r : pyval) : res exn bool :=
  v ← getitem col r; i ← int_val v; mret (i =? n).

Definition col_int (col : string) (r : pyval) : res exn Z := v ← getitem col r; int_val v.

Definition and_then (a b : res exn bool) : res exn bool := x ← a; if (x : bool) then b else mret false.

(** [resolve_app_id] *)
Definition resolve_app_id (apps : list pyval) (name : string) : res exn (option Z) :=
  r ← find_row (col_is "name" name) apps;
  match r with None => mret None | Some r => i ← col_int "app_id" r; mret (Some i) end.

(** [_app_metric_row] over the rows, which it reads as none when the table is
    missing *)
Definition app_metric_row (rows : res exn (list pyval)) (app_id : Z) (metric : string)
    : res exn (option pyval) :=
  match rows with
  | Ok rows => find_row (λ r, and_then (col_int_is "app_id" app_id r) (col_is "metric_nm" metric r)) rows
  | Raise e => if isinstance e CValueError then mret None else Raise e
  end.

(** [resolve_app_metric_id] *)
Definition resolve_app_metric_id (rows : res exn (list pyval)) (app_id : Z) (metric : string)
    : res exn (option Z) :=
  r ← app_metric_row rows app_id metric;
  match r with None => mret None | Some r => i ← col_int "app_metric_id" r; mret (Some i) end.

(** [resolve_metric_path] *)
Definition resolve_metric_path (rows : res exn (list pyval)) (app_id : Z) (metric : string)
    : res exn (option string) :=
  r ← app_metric_row rows app_id metric;
  match r with
  | None => mret None
  | Some r => p ← get "metric_path" r; mret (if truthy p then Some (str_val p) else None)
  end.

(** [_listing_exchange_key] *)
Definition listing_exchange_key (x : option string) : string := strip (default "" x).

(** [_parse_clock] of the snapshot's text, in microseconds after midnight; the
    components are checked as [time] checks them *)
Definition parse_clock (v : pyval) : res exn (option Z) :=
  match v with
  | VNone | VStr "" => mret None
  | _ =>
      match split_on ":" (str_val v) with
      | h :: m :: rest =>
          seconds ← match rest with
                    | [] => mret 0
                    | s :: _ => f ← float_val (VStr s); res_map_exn int_exn (trunc_int f)
                    end;
          h ← int_val (VStr h);
          m ← int_val (VStr m);
          if (0 <=? h) && (h <? 24) && (0 <=? m) && (m <? 60) && (0 <=? seconds) && (seconds <? 60)
          then mret (Some (h * HOUR + m * MINUTE + seconds * SECOND))
          else Raise (ValueError "time component out of range")
      | _ => Raise (ValueError ("unrecognised MARKET time: " +:+ repr_val v))
      end
  end.

Record calendar := mkCalendar {
  cal_listing_exchange : string;
  cal_timezone : string;
  cal_open : option Z;
  cal_close : option Z
}.

(** [_format_market_calendar] *)
Definition format_market_calendar (r : pyval) : res exn calendar :=
  x ← get "listing_exchange" r;
  tz ← getitem "bar_timezone" r;
  o ← get "market_open_time" r; o ← parse_clock o;
  c ← get "market_close_time" r; c ← parse_clock c;
  mret (mkCalendar (if truthy x then str_val x else "") (str_val tz) o c).

(** [get_market_calendar] *)
Definition get_market_calendar (rows : list pyval) (listing : option string) : res exn calendar :=
  let key := listing_exchange_key listing in
  r ← find_row (λ r, x ← get "listing_exchange" r;
                     mret (String.eqb (if truthy x then str_val x else "") key)) rows;
  match r with
  | Some r => format_market_calendar r
  | None => Raise (RuntimeError ("REFDATA.MARKET_CALENDAR missing LISTING_EXCHANGE=" +:+ repr_str key))
  end.

(** A period column, as the snapshot holds it *)
Definition period_of (v : pyval) : res exn Z :=
  parse_period (match v with VStr s => PeriodText s | _ => PeriodOther (type_name v) end).

(** [get_execute_offset] *)
Definition get_execute_offset (rows : list pyval) (app_id interval : Z) : res exn Z :=
  r ← find_row (λ r, and_then (col_int_is "app_id" app_id r)
                              (col_int_is "tm_interval_id" interval r)) rows;
  match r with
  | Some r => v ← getitem "execute_offset" r; period_of v
  | None => Raise (RuntimeError ("CONFIG.APP_APPLY_TIMING missing APP_ID=" +:+ str_Z app_id +:+
                                 " TM_INTERVAL_ID=" +:+ str_Z interval))
  end.

Definition missing_interval (interval : Z) : exn :=
  RuntimeError ("REFDATA.TM_INTERVAL missing TM_INTERVAL_ID=" +:+ str_Z interval).

(** [get_interval_period] *)
Definition get_interval_period (rows : list pyval) (interval : Z) : res exn Z :=
  r ← find_row (col_int_is "tm_interval_id" interval) rows;
  match r with
  | Some r => v ← getitem "period_length" r; period_of v
  | None => Raise (missing_interval interval)
  end.

(** [resolve_interval_id] *)
Definition resolve_interval_id (rows : list pyval) (period : Z) : res exn Z :=
  r ← find_row (λ r, v ← getitem "period_length" r; p ← period_of v; mret (p =? period)) rows;
  match r with
  | Some r => col_int "tm_interval_id" r
  | None => Raise (RuntimeError ("REFDATA.TM_INTERVAL has no row with PERIOD_LENGTH=" +:+
                                 str_timedelta period))
  end.

(** [interval_label] *)
Definition interval_label (rows : list pyval) (interval : Z) : res exn string :=
  r ← find_row (col_int_is "tm_interval_id" interval) rows;
  match r with
  | Some r => d ← get "display_name" r;
              n ← get "name" r;
              mret (str_val (or_else d (or_else n (VInt interval))))
  | None => mret (str_Z interval)
  end.

(** [interval_name] *)
Definition interval_name (rows : list pyval) (interval : Z) : res exn string :=
  r ← find_row (col_int_is "tm_interval_id" interval) rows;
  match r with
  | Some r => n ← getitem "name" r; mret (str_val n)
  | None => Raise (missing_interval interval)
  end.

(** The rows with their periods, then the ids, shortest period first. *)
Fixpoint interval_keys (rows : list pyval) : res exn (list (Z * pyval)) :=
  match rows with
  | [] => mret []
  | r :: rows' =>
      v ← getitem "period_length" r; p ← period_of v;
      ks ← interval_keys rows';
      mret ((p, r) :: ks)
  end.

Fixpoint map_res {A B} (f : A → res exn B) (l : list A) : res exn (list B) :=
  match l with
  | [] => mret []
  | x :: l' => y ← f x; ys ← map_res f l'; mret (y :: ys)
  end.

(** [interval_ids] *)
Definition interval_ids (rows : list pyval) : res exn (list Z) :=
  keyed ← interval_keys rows;
  map_res (col_int "tm_interval_id") (sorted_by (λ a b, a.1 <=? b.1) keyed).*2.

(** [resolve_queue_status_id], [resolve_queue_priority] *)
Definition resolve_named (table col : string) (rows : list pyval) (name : string) : res exn pyval :=
  r ← find_row (col_is "name" name) rows;
  match r with
  | Some r => getitem col r
  | None => Raise (RuntimeError ("REFDATA." +:+ table +:+ " missing NAME=" +:+ repr_str name))
  end.

Definition resolve_queue_status_id (rows : list pyval) (name : string) : res exn Z :=
  v ← resolve_named "QUEUE_STATUS" "queue_status_id" rows name; int_val v.

Definition resolve_queue_priority (rows : list pyval) (name : string) : res exn Z :=
  v ← resolve_named "QUEUE_PRIORITY" "priority" rows name; int_val v.

(** The [name] column. *)
Definition names_of (rows : list pyval) : res exn (list pyval) := map_res (getitem "name") rows.

Definition lists_name (name : string) (valid : list pyval) : bool :=
  existsb (λ v, match v with VStr s => String.eqb s name | _ => false end) valid.

(** [validate_schedule_status], [validate_promotion_state] *)
Definition validate_name (table : string) (rows : list pyval) (name : string) : res exn string :=
  valid ← names_of rows;
  if lists_name name valid then mret name
  else Raise (RuntimeError ("REFDATA." +:+ table +:+ " missing NAME=" +:+ repr_str name +:+
                            " (valid: " +:+ repr_val (VList valid) +:+ ")")).

(** [setting] *)
Definition setting (rows : list pyval) (name : string) : res exn string :=
  r ← find_row (col_is "setting_nm" name) rows;
  match r with
  | Some r => v ← getitem "setting_value" r; mret (str_val v)
  | None => Raise (RuntimeError ("CONFIG.SETTING missing SETTING_NM=" +:+ repr_str name))
  end.

(** [setting_int], [setting_float], [setting_floats] *)
Definition setting_int (rows : list pyval) (name : string) : res exn Z :=
  s ← setting rows name; int_val (VStr s).

Definition setting_float (rows : list pyval) (name : string) : res exn float :=
  s ← setting rows name; float_val (VStr s).

Definition setting_floats (rows : list pyval) (name : string) : res exn (list float) :=
  s ← setting rows name;
  map_res (λ part, float_val (VStr part))
    (List.filter (λ part, has_id (Some (strip part))) (split_on "," s)).

(** [get_promotion_metrics]: by priority, ties in table order *)
Definition get_promotion_metrics (rows : list pyval) : res exn (list pyval) :=
  keyed ← map_res (λ r, match r with
                        | VDict d => v ← match dict_get "priority" d with
                                         | Some v => int_val v
                                         | None => mret 999
                                         end;
                                     mret (v, r)
                        | _ => _ ← get "priority" r; mret (999, r)
                        end) rows;
  mret (sorted_by (λ a b, a.1 <=? b.1) keyed).*2.

(** [get_apply_timing]: the calendar of the listing and the offset of the broker *)
Definition get_apply_timing (calendars timings : list pyval) (app_id interval : Z) (listing : option string)
    : res exn (calendar * Z) :=
  c ← get_market_calendar calendars listing;
  offset ← get_execute_offset timings app_id interval;
  mret (c, offset).

(** [get_promotion_states], [validate_promotion_state] *)
Definition get_promotion_states (rows : list pyval) : res exn (list pyval) := names_of rows.
Definition validate_promotion_state (rows : list pyval) (name : string) : res exn string :=
  validate_name "PROMOTION_STATE" rows name.

(** A row of [get_indicator_defaults] *)
Record indicator_defaults := mkIndicatorDefaults {
  id_win_min : pyval; id_win_max : pyval; id_win_step : pyval;
  id_sig_min : option float; id_sig_max : option float; id_sig_step : option float;
  id_is_bounded_ind : pyval
}.

(** [float(r[col]) if r.get(col) is not None else None] *)
Definition float_or_none (col : string) (r : pyval) : res exn (option float) :=
  v ← get col r;
  match v with
  | VNone => mret None
  | _ => f ← float_val v; mret (Some f)
  end.

Definition defaults_of (r : pyval) : res exn indicator_defaults :=
  win_min ← get "win_min" r; win_max ← get "win_max" r; win_step ← get "win_step" r;
  sig_min ← float_or_none "sig_min" r; sig_max ← float_or_none "sig_max" r; sig_step ← float_or_none "sig_step" r;
  bounded ← get "is_bounded_ind" r;
  mret (mkIndicatorDefaults win_min win_max win_step sig_min sig_max sig_step bounded).

(** [get_indicator_defaults], keyed by method *)
Definition get_indicator_defaults (rows : list pyval) : res exn (list (string * indicator_defaults)) :=
  keyed ← map_res (λ r, d ← defaults_of r; m ← getitem "method_name" r; mret (str_val m, d)) rows;
  mret (dict_comp fst snd keyed).

(** [ping] *)
Definition rd_ping {W} (ping : prog W exn bool) : prog W exn bool :=
  catch ping (λ e, if isinstance e CRedisError then mret false else raise e).

(** ** Properties of the local copy *)

Lemma dict_get_drop_schema schema s t store :
  dict_get (s, t) (drop_schema schema store) =
  if String.eqb s schema then None else dict_get (s, t) store.
Proof.
  induction store as [|[[s' t'] rows] store IH]; simpl; [by destruct (String.eqb s schema)|].
  destruct (String.eqb_spec s' schema) as [->|Hne]; simpl.
  - rewrite IH. destruct (String.eqb_spec s schema) as [->|Hs]; [done|].
    by rewrite decide_False by congruence.
  - destruct (decide ((s, t) = (s', t'))) as [[= -> ->]|]; [|exact IH].
    by rewrite (proj2 (String.eqb_neq s' schema) Hne).
Qed.

Section copy.
Context {X : Type} `{RedisRows X}.

(** Redis holding the contents [db]: reads answer and change nothing. *)
Definition redis_holds (db : string → option string) (x : X) : Prop :=
  ∀ key, redis_get key x = (Ok (db key), x).

Lemma redis_read_holds db d x key : redis_holds db x → redis_read key (d, x) = (Ok (db key), (d, x)).
Proof. intros Hdb. unfold redis_read, catch, on_redis. simpl. by rewrite Hdb. Qed.

Lemma rd_get_cached db schema table d x rows :
  redis_holds db x → db (version_key schema) = default None (dict_get schema (rd_versions d)) →
  dict_get (schema, table) (rd_store d) = Some rows → rows ≠ [] →
  rd_get schema table (d, x) = (Ok rows, (d, x)).
Proof.
  intros Hdb Hv Hrows Hne. unfold rd_get, check_version, mbind, prog_bind, get_refdata.
  rewrite (redis_read_holds db) by done. simpl. rewrite bool_decide_eq_true_2 by done. simpl.
  rewrite Hrows. simpl. by destruct rows.
Qed.
End copy.

(** A publisher's bump is seen by the next read: it drops the local rows of
    that schema and of no other, the table asked for is served from the new
    snapshot, and it stays served from the copy until the stamp moves again. *)
Theorem refdata_follows_version {X} `{RedisRows X} db schema table d (x : X) text rows :
  redis_holds db x → db (version_key schema) ≠ default None (dict_get schema (rd_versions d)) →
  db (cache_key schema table) = Some text → json_rows text = Ok rows → rows ≠ [] →
  ∃ d', rd_get schema table (d, x) = (Ok rows, (d', x)) ∧
    (∀ s t, s ≠ schema → dict_get (s, t) (rd_store d') = dict_get (s, t) (rd_store d)) ∧
    (∀ t, t ≠ table → dict_get (schema, t) (rd_store d') = None) ∧
    rd_get schema table (d', x) = (Ok rows, (d', x)).
Proof.
  intros Hdb Hv Htext Hjson Hne.
  set (d1 := mkRefdata (drop_schema schema (rd_store d))
               (dict_set schema (db (version_key schema)) (rd_versions d))).
  set (d2 := mkRefdata (dict_set (schema, table) rows (rd_store d1)) (rd_versions d1)).
  assert (rd_get schema table (d, x) = (Ok rows, (d2, x))) as Hget.
  { unfold rd_get, check_version, mbind, prog_bind, get_refdata.
    rewrite (redis_read_holds db) by done. simpl. rewrite bool_decide_eq_false_2 by done.
    unfold set_refdata. cbn [fst snd]. fold d1. change (rd_store d1) with (drop_schema schema (rd_store d)).
    rewrite dict_get_drop_schema, String.eqb_refl. cbn [default from_option].
    unfold load_table, mbind, prog_bind. rewrite (redis_read_holds db) by done. rewrite Htext.
    unfold lift_res. rewrite Hjson. unfold get_refdata, set_refdata. cbn [fst snd]. fold d2.
    by destruct rows. }
  exists d2. split; [done|]. split_and!.
  - intros s t Hs. simpl. rewrite dict_get_set_ne by congruence. rewrite dict_get_drop_schema.
    by rewrite (proj2 (String.eqb_neq s schema) Hs).
  - intros t Ht. simpl. rewrite dict_get_set_ne by congruence.
    by rewrite dict_get_drop_schema, String.eqb_refl.
  - apply (rd_get_cached db); [done| |by simpl; rewrite dict_get_set|done].
    simpl. by rewrite dict_get_set.
Qed.

(** ** The intervals of a sweep *)

(** The sweep visits every interval once, fast cadences first. *)
Lemma interval_ids_sorted rows keyed :
  interval_keys rows = Ok keyed →
  interval_ids rows = map_res (col_int "tm_interval_id") (sorted_by (λ a b, a.1 <=? b.1) keyed).*2 ∧
  StronglySorted (λ a b, (a.1 <=? b.1) = true) (sorted_by (λ a b, a.1 <=? b.1) keyed) ∧
  (sorted_by (λ a b, a.1 <=? b.1) keyed).*2 ≡ₚ rows.
Proof.
  intros Hk. unfold interval_ids. rewrite Hk. split; [done|]. split.
  - apply sorted_by_sorted; [intros a b|intros a b c]; rewrite ?Z.leb_gt, ?Z.leb_le; lia.
  - rewrite sorted_by_perm. revert keyed Hk.
    induction rows as [|r rows IH]; intros keyed; simpl; [by intros [= <-]|].
    intros Hk. destruct (getitem "period_length" r); [|done]. simpl in Hk.
    destruct (period_of a); [|done]. simpl in Hk.
    destruct (interval_keys rows) as [ks|]; [|done]. injection Hk as <-. simpl. f_equiv. by apply IH.
Qed.

(** ** A published snapshot *)

(** Redis with one table of one schema, whose stamp is [v]. *)
#[local] Instance one_table : RedisRows string := {|
  redis_get key v :=
    (Ok (if String.eqb key "refdata:version" then Some v
         else if String.eqb key "refdata:app" then Some "app" else None), v);
  json_rows text := Ok [VDict [("name", VStr "bybit"); ("app_id", VInt 7)]]
|}.

Lemma refdata_follows_version_witness :
  let stale := mkRefdata [(("refdata", "app"), []); (("config", "setting"), [VNone])]
                 [("refdata", Some "1")] in
  let rows := [VDict [("name", VStr "bybit"); ("app_id", VInt 7)]] in
  resolve_app_id rows "bybit" = Ok (Some 7) ∧
  ∃ d', rd_get "refdata" "app" (stale, "2") = (Ok rows, (d', "2")) ∧
        dict_get ("config", "setting") (rd_store d') = Some [VNone].
Proof.
  intros stale rows. split; [reflexivity|].
  destruct (refdata_follows_version
    (λ key, if String.eqb key "refdata:version" then Some "2"
            else if String.eqb key "refdata:app" then Some "app" else None)
    "refdata" "app" stale "2" "app" rows) as (d' & Hg & Hother & _);
    [done|done|reflexivity|reflexivity|done|].
  exists d'. split; [exact Hg|]. by rewrite (Hother "config" "setting").
Defined.

(** ** What schedules and registries read of it *)

Class ReferenceData (W : Type) := {
  ref_app_id : string → prog W exn (option Z);
  ref_interval_period : Z → prog W exn Z;
  ref_execute_offset : Z → Z → prog W exn Z;
  ref_market_calendar : option string → prog W exn calendar;
  ref_interval_label : Z → prog W exn string;
  ref_setting : string → prog W exn string;
  ref_interval_ids : prog W exn (list Z)
}.

(** The reader over its snapshot. *)
#[export] Instance snapshot_reference {X} `{RedisRows X} : ReferenceData (refdata * X) := {|
  ref_app_id name := rows ← rd_table "app"; lift_res (resolve_app_id rows name);
  ref_interval_period i := rows ← rd_table "tm_interval"; lift_res (get_interval_period rows i);
  ref_execute_offset a i := rows ← rd_config "app_apply_timing"; lift_res (get_execute_offset rows a i);
  ref_market_calendar x := rows ← rd_table "market_calendar"; lift_res (get_market_calendar rows x);
  ref_interval_label i := rows ← rd_table "tm_interval"; lift_res (interval_label rows i);
  ref_setting n := rows ← rd_config "setting"; lift_res (setting rows n);
  ref_interval_ids := rows ← rd_table "tm_interval"; lift_res (interval_ids rows)
|}.
