(* ===== verification/RefPublish.v ===== *)
(** * Publishing the reference data

    [quant/refdata/publisher.py]: the tables of a schema, as its stored procedure
    lists them, written to Redis in one transaction under the schema's stamp.
    The procedures, Redis and JSON text are parameters. *)
From stdpp Require Import gmap.
From S2P Require Import Prelude PyFloat PyData Order Errors PyValue Intervals RefData.
Local Open Scope string_scope.
Local Open Scope Z_scope.

(** A column of a row as the driver gives it: a value JSON has, or one it has
    not (a [Decimal], [datetime], [time], [timedelta] or [UUID]), here its [str]. *)
Inductive db_cell := CJson (v : pyval) | CText (text : string).
Abbreviation db_row := (list (string * db_cell)).

(** [_discover_tables] and [SP_GET_ENUM] *)
Class SchemaDb (X : Type) := {
  discover_tables : string → prog X exn (list string);
  sp_get_enum : string → string → prog X exn (list db_row)
}.

(** A queued command of a pipeline. *)
Inductive redis_command := RSet (key value : string) | RDel (key : string) | RIncr (key : string).

(** The Redis client, and [json.dumps(rows, default=str)] of a table's rows. *)
Class RedisPipe (X : Type) := {
  (** the keys that begin with a text *)
  scan_keys : string → prog X exn (list string);
  (** a transaction *)
  execute_pipe : list redis_command → prog X exn unit;
  publish_channel : string → string → prog X exn unit;
  rows_dumps : list db_row → string
}.

Definition invalidate_channel (schema : string) : string := schema +:+ ":invalidate".

Section publish.
Context {X : Type} `{SchemaDb X} `{RedisPipe X}.

(** The snapshot: a table whose procedure fails is empty. *)
Fixpoint load_tables (schema : string) (tables : list string) (snapshot : list (string * list db_row))
    : prog X exn (list (string * list db_row)) :=
  match tables with
  | [] => mret snapshot
  | table :: tables' =>
      rows ← attempt (sp_get_enum schema table);
      load_tables schema tables'
        (dict_set table (match rows with Ok rows => rows | Raise _ => [] end) snapshot)
  end.

(** The stored keys of tables the schema no longer has. *)
Definition stale_keys (schema : string) (snapshot : list (string * list db_row)) (keys : list string) : list string :=
  List.filter (λ key,
    let table := removeprefix (schema +:+ ":") key in
    negb (bool_decide (is_Some (dict_get table snapshot)) || String.eqb table "version" || String.eqb table "invalidate"))
    keys.

(** [publish] *)
Definition publish (schema : string) : prog X exn Z :=
  if negb (String.eqb schema "refdata" || String.eqb schema "config") then
    raise (ValueError ("unknown snapshot schema " +:+ repr_str schema))
  else
    tables ← discover_tables schema;
    snapshot ← load_tables schema tables [];
    keys ← scan_keys (schema +:+ ":");
    _ ← execute_pipe (map (λ tr, RSet (cache_key schema tr.1) (rows_dumps tr.2)) snapshot ++
                      map RDel (stale_keys schema snapshot keys) ++ [RIncr (version_key schema)])%list;
    _ ← catch (publish_channel (invalidate_channel schema) "*")
          (λ e, if isinstance e CRedisError then mret tt else raise e);
    mret (Z.of_nat (length snapshot)).

(** [publish_all] *)
Definition publish_all : prog X exn Z :=
  a ← publish "refdata"; b ← publish "config"; mret (a + b).
End publish.

(** ** What is published is what is read *)

(** The effect of a command on the stored texts; [INCR] of a text that is no
    number fails the transaction. *)
Definition apply_command (db : string → option string) (c : redis_command) : string → option string :=
  match c with
  | RSet k v => λ key, if decide (key = k) then Some v else db key
  | RDel k => λ key, if decide (key = k) then None else db key
  | RIncr k => λ key, if decide (key = k) then
                        match db k with
                        | None => Some "1"
                        | Some t => match scan_int t with Some (n, "") => Some (str_Z (n + 1)) | _ => Some t end
                        end
                      else db key
  end.

(** A row after [json.dumps(default=str)] and [json.loads]: the values JSON has
    come back as they were, every other one as its text. *)
Definition read_cell (c : db_cell) : pyval := match c with CJson v => v | CText s => VStr s end.
Definition read_row (r : db_row) : pyval := VDict (map (λ kc, (kc.1, read_cell kc.2)) r).

(** Redis as a store of texts: reads and scans see it, a transaction applies its
    commands in order, nothing else changes it, and the rows of a procedure come
    back from their text with what JSON has no value for as text. *)
Class RedisStore (X : Type) `{RedisRows X} `{SchemaDb X} `{RedisPipe X} := {
  stored : X → string → option string;
  read_stored x : redis_holds (stored x) x;
  execute_stored cs x x' : execute_pipe cs x = (Ok tt, x') → ∀ key, stored x' key = foldl apply_command (stored x) cs key;
  scan_stored p x keys x' : scan_keys p x = (Ok keys, x') →
    (∀ key, stored x' key = stored x key) ∧
    ∀ key, key ∈ keys ↔ String.prefix p key = true ∧ stored x key ≠ None;
  discover_keeps s x key : stored (discover_tables s x).2 key = stored x key;
  enum_keeps s t x key : stored (sp_get_enum s t x).2 key = stored x key;
  channel_keeps c m x key : stored (publish_channel c m x).2 key = stored x key;
  rows_survive s t x rows : (sp_get_enum s t x).1 = Ok rows →
    json_rows (rows_dumps rows) = Ok (map read_row rows);
  no_rows_survive : json_rows (rows_dumps []) = Ok []
}.

Lemma cache_key_inj schema t t' : cache_key schema t = cache_key schema t' → t = t'.
Proof.
  unfold cache_key. intros E. apply (f_equal (removeprefix (schema +:+ ":"))) in E.
  rewrite <-!string_app_assoc in E. by rewrite !removeprefix_app in E.
Qed.

Lemma cache_key_prefix schema t : String.prefix (schema +:+ ":") (cache_key schema t) = true.
Proof. unfold cache_key. rewrite <-string_app_assoc. apply prefix_app. Qed.

(** Reading back what a list of sets wrote. *)
Lemma apply_sets schema (snapshot : list (string * list db_row)) (dumps : list db_row → string) db table :
  NoDup snapshot.*1 →
  foldl apply_command db (map (λ tr, RSet (cache_key schema tr.1) (dumps tr.2)) snapshot) (cache_key schema table)
  = match dict_get table snapshot with Some rows => Some (dumps rows) | None => db (cache_key schema table) end.
Proof.
  revert db. induction snapshot as [|[t rows] snapshot IH]; intros db Hnd; [done|]. cbn [fmap list_fmap] in Hnd.
  apply NoDup_cons in Hnd as [Hnin Hnd]. cbn [map foldl fst snd dict_get]. rewrite IH by done.
  destruct (decide (table = t)) as [->|Hne].
  - assert (dict_get t snapshot = None) as -> by (by apply dict_get_key).
    cbn. by rewrite decide_True.
  - destruct (dict_get table snapshot); [done|]. cbn. rewrite decide_False; [done|]. by intros E%cache_key_inj.
Qed.

Lemma apply_dels db keys key :
  foldl apply_command db (map RDel keys) key = if decide (key ∈ keys) then None else db key.
Proof.
  revert db. induction keys as [|k keys IH]; intros db; cbn [map foldl].
  { by rewrite decide_False by apply not_elem_of_nil. }
  rewrite IH. cbn. destruct (decide (key ∈ keys)).
  - rewrite decide_True; [done|by right].
  - destruct (decide (key = k)) as [->|]; [by rewrite decide_True by left|].
    rewrite decide_False; [done|]. by intros [?|?]%elem_of_cons.
Qed.

(** A reader's stamp of a schema is one Redis has already held. *)
Definition seen_stamp (schema : string) (d : refdata) (db : string → option string) : Prop :=
  let stamp := default None (dict_get schema (rd_versions d)) in
  match db (version_key schema) with
  | None => stamp = None
  | Some t => ∃ n, t = str_Z n ∧ 0 <= n ∧ (stamp = None ∨ ∃ k, stamp = Some (str_Z k) ∧ 0 <= k <= n)
  end.

(** A new key goes to the end of a dictionary. *)
Lemma dict_set_fresh {V} k (v : V) (d : list (string * V)) : k ∉ d.*1 → dict_set k v d = (d ++ [(k, v)])%list.
Proof.
  induction d as [|[k' v'] d IH]; intros Hk; [done|]. cbn [fmap list_fmap fst] in Hk. apply not_elem_of_cons in Hk as [Hne Hk].
  cbn [dict_set app]. rewrite decide_False by done. by rewrite IH.
Qed.

Section republish.
Context {X : Type} `{RedisStore X}.

Lemma attempt_enum_keeps s t x r x' key : attempt (sp_get_enum s t) x = (Ok r, x') → stored x' key = stored x key.
Proof. unfold attempt. rewrite <-(enum_keeps s t x key). destruct (sp_get_enum s t x). by intros [= _ <-]. Qed.

(** The procedure's answers, one per table in turn, each from where the one
    before left off. *)
Inductive asked_in_turn (schema : string) : list string → X → list (string * res exn (list db_row)) → X → Prop :=
| asked_nothing x : asked_in_turn schema [] x [] x
| asked_table table tables x r x1 answers x2 :
    sp_get_enum schema table x = (r, x1) → asked_in_turn schema tables x1 answers x2 →
    asked_in_turn schema (table :: tables) x ((table, r) :: answers) x2.

(** The rows a failed or an answering procedure leaves in the snapshot. *)
Definition kept (r : res exn (list db_row)) : list db_row := match r with Ok rows => rows | Raise _ => [] end.

Lemma kept_survives schema tables x answers x' : asked_in_turn schema tables x answers x' →
  ∀ table r, dict_get table answers = Some r → json_rows (rows_dumps (kept r)) = Ok (map read_row (kept r)).
Proof.
  induction 1 as [|t tables x r x1 answers x2 Hr _ IH]; [done|]. intros table r'. cbn [dict_get].
  case_decide; [|apply IH]. intros [= <-]. destruct r as [rows|e]; [|apply no_rows_survive].
  apply (rows_survive schema t x). by rewrite Hr.
Qed.

Lemma load_tables_spec schema tables snapshot x snapshot' x' :
  load_tables schema tables snapshot x = (Ok snapshot', x') → NoDup snapshot.*1 → NoDup tables →
  (∀ t, t ∈ tables → t ∉ snapshot.*1) →
  (∀ key, stored x' key = stored x key) ∧ NoDup snapshot'.*1 ∧
  ∃ answers, asked_in_turn schema tables x answers x' ∧ length snapshot' = (length snapshot + length tables)%nat ∧
    ∀ t, dict_get t snapshot' = match dict_get t answers with Some r => Some (kept r) | None => dict_get t snapshot end.
Proof.
  revert snapshot x. induction tables as [|t tables IH]; intros snapshot x; cbn [load_tables].
  - intros [= <- <-] Hnd _ _. split_and!; [done..|]. exists []. split; [constructor|]. split; [cbn; lia|done].
  - intros (r & x1 & Hr & Hrest)%bind_inv Hnd [Hnin Hnd']%NoDup_cons Hnew.
    assert (t ∉ snapshot.*1) as Ht by (apply Hnew; left).
    destruct (IH _ _ Hrest (dict_set_nodup _ _ _ Hnd) Hnd') as (Hk & Hnd2 & answers & Ha & Hlen & Hget).
    { intros t' Ht' [->|Hin]%dict_set_keys; [done|]. by apply (Hnew t'); [right|]. }
    assert (sp_get_enum schema t x = (r, x1)) as He
      by (unfold attempt in Hr; destruct (sp_get_enum schema t x); by injection Hr as <- <-).
    split_and!; [|done|].
    + intros key. rewrite Hk. by eapply attempt_enum_keeps.
    + exists ((t, r) :: answers). split; [by econstructor|]. split.
      { rewrite Hlen, dict_set_fresh by done. rewrite length_app. cbn. lia. }
      intros t'. rewrite Hget. cbn [dict_get]. destruct (decide (t' = t)) as [->|Hne].
      * assert (dict_get t answers = None) as ->; [|by rewrite dict_get_set].
        apply dict_get_key. intros Hin. apply Hnin. clear -Ha Hin. induction Ha; [by apply not_elem_of_nil in Hin|].
        cbn in Hin. apply elem_of_cons in Hin as [->|Hin]; [left|right; auto].
      * by rewrite dict_get_set_ne.
Qed.

Lemma asked_names schema tables x answers x' : asked_in_turn schema tables x answers x' → answers.*1 = tables.
Proof. induction 1 as [|t tables x r x1 answers x2 Hr _ IH]; [done|]. by rewrite fmap_cons, IH. Qed.

(** The texts after a publication. *)
Lemma publish_stored schema x n x' : publish schema x = (Ok n, x') →
  (∀ tables x0, discover_tables schema x = (Ok tables, x0) → NoDup tables ∧ "version" ∉ tables ∧ "invalidate" ∉ tables) →
  ∃ tables x0 answers x1,
    discover_tables schema x = (Ok tables, x0) ∧ asked_in_turn schema tables x0 answers x1 ∧
    n = Z.of_nat (length tables) ∧
    (∀ table, table ≠ "version" → table ≠ "invalidate" →
       stored x' (cache_key schema table) = (λ r, rows_dumps (kept r)) <$> dict_get table answers) ∧
    stored x' (version_key schema) = apply_command (stored x) (RIncr (version_key schema)) (version_key schema).
Proof.
  unfold publish. destruct (negb _); [done|].
  intros (tables & x0 & Ht & (snapshot & x1 & Hs & (keys & x2 & Hk & Hp)%bind_inv)%bind_inv)%bind_inv Hnames.
  apply bind_inv in Hp as ([] & x3 & He & (u & x4 & Hc & [= <- <-])%bind_inv).
  destruct (Hnames _ _ Ht) as (Hndt & Hnv & _).
  destruct (load_tables_spec _ _ _ _ _ _ Hs (NoDup_nil_2 (A:=string)) Hndt) as (Hkeep & Hnd & answers & Hask & Hlen & Hget);
    [by intros t _ ?%not_elem_of_nil|].
  destruct (scan_stored _ _ _ _ Hk) as [Hkeep2 Hkeys].
  assert (∀ t, dict_get t snapshot = kept <$> dict_get t answers) as Hsnap
    by (intros t; rewrite Hget; by destruct (dict_get t answers)).
  assert (∀ key, stored x2 key = stored x key) as Hx2.
  { intros key. rewrite Hkeep2, Hkeep. pose proof (discover_keeps schema x key) as Hd. by rewrite Ht in Hd. }
  assert (∀ key, stored x4 key = stored x3 key) as Hx4.
  { intros key. unfold catch in Hc. pose proof (channel_keeps (invalidate_channel schema) "*" x3 key) as Hch.
    destruct (publish_channel _ _ x3) as [[[]|e] x5]; [by injection Hc as _ <-|].
    destruct (isinstance e CRedisError); [by injection Hc as _ <-|done]. }
  exists tables, x0, answers, x1. do 2 (split; [done|]). split; [by rewrite Hlen|].
  assert (∀ k, k ∈ stale_keys schema snapshot keys ↔
    k ∈ keys ∧ dict_get (removeprefix (schema +:+ ":") k) snapshot = None ∧
    removeprefix (schema +:+ ":") k ≠ "version" ∧ removeprefix (schema +:+ ":") k ≠ "invalidate") as Hstale.
  { intros k. unfold stale_keys. rewrite list_elem_of_In, filter_In, <-list_elem_of_In, negb_true_iff, !orb_false_iff,
      !String.eqb_neq, bool_decide_eq_false, <-eq_None_not_Some. tauto. }
  pose proof (execute_stored _ _ _ He) as Hex. split.
  - intros table Hv Hi. rewrite Hx4, Hex, !foldl_app. cbn [foldl]. unfold apply_command at 1. unfold version_key.
    change (schema +:+ ":version") with (cache_key schema "version").
    rewrite decide_False by (by intros E%cache_key_inj). rewrite apply_dels, (apply_sets schema _ _ _ table Hnd).
    replace ((λ r, rows_dumps (kept r)) <$> dict_get table answers) with (rows_dumps <$> dict_get table snapshot)
      by (rewrite Hsnap; by destruct (dict_get table answers)).
    assert (removeprefix (schema +:+ ":") (cache_key schema table) = table) as Hrem.
    { unfold cache_key. rewrite <-string_app_assoc. apply removeprefix_app. }
    destruct (dict_get table snapshot) as [rows|] eqn:E.
    + rewrite decide_False; [done|]. rewrite Hstale, Hrem, E. by intros (_ & ? & _).
    + destruct (decide _) as [Hin|Hnin]; [done|]. rewrite Hx2.
      destruct (stored x (cache_key schema table)) eqn:Es; [|done]. exfalso. apply Hnin. rewrite Hstale, Hrem.
      split_and!; [|done..]. apply Hkeys. split; [apply cache_key_prefix|]. rewrite Hkeep.
      pose proof (discover_keeps schema x (cache_key schema table)) as Hd. rewrite Ht in Hd. cbn in Hd. by rewrite Hd, Es.
  - rewrite Hx4, Hex, !foldl_app. cbn [foldl].
    assert (foldl apply_command (foldl apply_command (stored x2) (map (λ tr, RSet (cache_key schema tr.1) (rows_dumps tr.2)) snapshot))
              (map RDel (stale_keys schema snapshot keys)) (version_key schema) = stored x (version_key schema)) as Hsame.
    { rewrite apply_dels. change (version_key schema) with (cache_key schema "version").
      rewrite decide_False; [|rewrite Hstale; unfold cache_key; rewrite <-string_app_assoc, removeprefix_app; by intros (_ & _ & ? & _)].
      rewrite (apply_sets schema _ _ _ "version" Hnd). rewrite Hsnap, (proj2 (dict_get_key _ _)); [apply Hx2|by rewrite (asked_names _ _ _ _ _ Hask)]. }
    cbn [apply_command]. rewrite !decide_True by done. by rewrite Hsame.
Qed.
End republish.

(** A table absent from Redis or stored without rows is refused by a reader that
    sees a new stamp. *)
Lemma rd_get_refused {X} `{RedisRows X} db schema table d (x : X) :
  redis_holds db x → db (version_key schema) ≠ default None (dict_get schema (rd_versions d)) →
  (db (cache_key schema table) = None ∨ ∃ text, db (cache_key schema table) = Some text ∧ json_rows text = Ok []) →
  ∃ d' m, rd_get schema table (d, x) = (Raise (ValueError m), (d', x)).
Proof.
  intros Hdb Hv Habs. unfold rd_get, check_version, mbind, prog_bind, get_refdata.
  rewrite (redis_read_holds db) by done. simpl. rewrite bool_decide_eq_false_2 by done.
  unfold set_refdata. cbn [fst snd rd_store]. rewrite dict_get_drop_schema, String.eqb_refl. cbn [default from_option].
  unfold load_table, mbind, prog_bind. rewrite (redis_read_holds db) by done.
  destruct Habs as [->|(text & -> & Hrows)]; [by eexists _, _|]. unfold lift_res. rewrite Hrows. by eexists _, _.
Qed.

Lemma publish_new_stamp {X} `{RedisStore X} schema d (x x' : X) : seen_stamp schema d (stored x) →
  stored x' (version_key schema) = apply_command (stored x) (RIncr (version_key schema)) (version_key schema) →
  stored x' (version_key schema) ≠ default None (dict_get schema (rd_versions d)).
Proof.
  unfold seen_stamp. cbn [apply_command]. rewrite decide_True by done. intros Hseen ->.
  destruct (stored x (version_key schema)) as [t|]; [|by rewrite Hseen].
  destruct Hseen as (n & -> & Hn & Hstamp). pose proof (timeframe_text n "" Hn I) as Hscan.
  rewrite string_app_empty in Hscan. rewrite Hscan. destruct Hstamp as [->|(k & -> & Hk)]; [done|].
  intros [= E%str_Z_inj]; lia.
Qed.

(** C27. What is published is what is read: once a schema is published, whose
    tables have distinct names other than the stamp's, a reader that follows its
    stamps, whatever it still holds, answers every table with the rows its
    procedure gave when it was asked in turn, what JSON has no value for (dates,
    times, intervals, decimals) as its text, and refuses a table that was dropped
    or whose procedure failed or gave none. *)
Theorem published_is_read {X} `{RedisStore X} schema (x x' : X) n d :
  publish schema x = (Ok n, x') → seen_stamp schema d (stored x) →
  (∀ tables x0, discover_tables schema x = (Ok tables, x0) → NoDup tables ∧ "version" ∉ tables ∧ "invalidate" ∉ tables) →
  ∃ tables x0 answers x1,
    discover_tables schema x = (Ok tables, x0) ∧ asked_in_turn schema tables x0 answers x1 ∧
    n = Z.of_nat (length tables) ∧
    ∀ table, table ≠ "version" → table ≠ "invalidate" →
      match dict_get table answers with
      | Some (Ok (r :: rows)) =>
          ∃ d', rd_get schema table (d, x') = (Ok (read_row r :: map read_row rows), (d', x'))
      | _ => ∃ d' m, rd_get schema table (d, x') = (Raise (ValueError m), (d', x'))
      end.
Proof.
  intros Hp Hseen Hnames. destruct (publish_stored _ _ _ _ Hp Hnames) as (tables & x0 & answers & x1 & Ht & Hask & Hn & Htab & Hver).
  exists tables, x0, answers, x1. do 3 (split; [done|]). intros table Hv Hi.
  pose proof (publish_new_stamp _ _ _ _ Hseen Hver) as Hnew.
  pose proof (Htab table Hv Hi) as Htext. pose proof (read_stored x') as Hholds.
  pose proof (kept_survives _ _ _ _ _ Hask table) as Hjson. destruct (dict_get table answers) as [r|]; cbn in Htext.
  2: { eapply rd_get_refused; [done..|]. by left. }
  specialize (Hjson r eq_refl). destruct r as [[|r rows]|e]; cbn [kept] in *.
  - eapply rd_get_refused; [done..|]. right. by eexists.
  - destruct (refdata_follows_version (stored x') schema table d x' _ (read_row r :: map read_row rows) Hholds Hnew Htext Hjson ltac:(done))
      as (d' & Hget & _). by exists d'.
  - eapply rd_get_refused; [done..|]. right. by eexists.
Qed.

(** ** A store and a catalog *)

Module Store.
(** A row with an interval, which JSON has no value for. *)
Definition hourly : list db_row :=
  [[("name", CJson (VStr "1h")); ("tm_interval_id", CJson (VInt 7)); ("period_length", CText "1:00:00")]].
Definition hourly_read : list pyval :=
  [VDict [("name", VStr "1h"); ("tm_interval_id", VInt 7); ("period_length", VStr "1:00:00")]].

Definition apply (x : gmap string string) (c : redis_command) : gmap string string :=
  match c with
  | RSet k v => <[k := v]> x
  | RDel k => delete k x
  | RIncr k => match x !! k with
               | None => <[k := "1"]> x
               | Some t => match scan_int t with Some (n, "") => <[k := str_Z (n + 1)]> x | _ => x end
               end
  end.

#[global] Instance rows : RedisRows (gmap string string) := {|
  redis_get key x := (Ok (x !! key), x);
  json_rows text := if String.eqb text "[]" then Ok [] else Ok hourly_read
|}.

(** Two tables, of which one fails to load. *)
#[global] Instance db : SchemaDb (gmap string string) := {|
  discover_tables _ x := (Ok ["tm_interval"; "indicator"], x);
  sp_get_enum _ t x := (if String.eqb t "tm_interval" then Ok hourly else Raise (RuntimeError "down"), x)
|}.

#[global] Instance pipe : RedisPipe (gmap string string) := {|
  scan_keys p x := (Ok (filter (λ k, String.prefix p k = true) (map_to_list x).*1), x);
  execute_pipe cs x := (Ok tt, foldl apply x cs);
  publish_channel _ _ x := (Raise (plain CRedisError "no subscriber"), x);
  rows_dumps rows := match rows with [] => "[]" | _ => "hourly" end
|}.

Definition contents (x : gmap string string) (key : string) : option string := x !! key.

Lemma commands_ext cs (f g : string → option string) key : (∀ k, f k = g k) →
  foldl apply_command f cs key = foldl apply_command g cs key.
Proof.
  revert f g. induction cs as [|c cs IH]; intros f g Hfg; [apply Hfg|]. cbn [foldl]. apply IH.
  intros k. destruct c; cbn; by rewrite ?Hfg.
Qed.

Lemma apply_contents x c key : contents (apply x c) key = apply_command (contents x) c key.
Proof.
  unfold contents. destruct c as [k v|k|k]; cbn [apply apply_command];
    destruct (decide (key = k)) as [->|Hk].
  - apply lookup_insert_eq.
  - by apply lookup_insert_ne.
  - apply lookup_delete_eq.
  - by apply lookup_delete_ne.
  - destruct (x !! k) as [t|] eqn:E; [|apply lookup_insert_eq].
    destruct (scan_int t) as [[n [|]]|]; [apply lookup_insert_eq|done..].
  - destruct (x !! k) as [t|] eqn:E; [|by apply lookup_insert_ne].
    destruct (scan_int t) as [[n [|]]|]; [by apply lookup_insert_ne|done..].
Qed.

Lemma execute_contents cs x key : contents (foldl apply x cs) key = foldl apply_command (contents x) cs key.
Proof.
  revert x. induction cs as [|c cs IH]; intros x; [done|]. cbn [foldl]. rewrite IH.
  apply commands_ext. intros k. apply apply_contents.
Qed.

#[global] Instance store : RedisStore (gmap string string).
Proof.
  refine {| stored := contents |}.
  - done.
  - intros cs x x' [= <-]. apply execute_contents.
  - intros p x keys x' [= <- <-]. split; [done|]. intros key. rewrite list_elem_of_filter, list_elem_of_fmap.
    unfold contents. split.
    + intros (Hp & [k v] & -> & Hkv). apply elem_of_map_to_list in Hkv. cbn in *. by rewrite Hkv.
    + intros (Hp & Hx). split; [done|]. destruct (x !! key) as [v|] eqn:E; [|done].
      exists (key, v). split; [done|by apply elem_of_map_to_list].
  - done.
  - done.
  - done.
  - intros s t x rows. cbn. destruct (String.eqb t "tm_interval"); by intros [= <-].
  - done.
Defined.
End Store.

(** A publication that drops a table: a reader of an older stamp. *)
Lemma published_is_read_witness :
  let x : gmap string string := <["refdata:version" := "4"]> (<["refdata:old" := "hourly"]> ∅) in
  let d := mkRefdata [("refdata", "old", Store.hourly_read)] [("refdata", Some "3")] in
  ∃ x', publish "refdata" x = (Ok 2, x') ∧
    (∃ d', rd_get "refdata" "tm_interval" (d, x') = (Ok Store.hourly_read, (d', x'))) ∧
    (∃ d' m, rd_get "refdata" "indicator" (d, x') = (Raise (ValueError m), (d', x'))) ∧
    ∃ d' m, rd_get "refdata" "old" (d, x') = (Raise (ValueError m), (d', x')).
Proof.
  intros x d. assert ((publish "refdata" x).1 = Ok 2) as Hr by reflexivity.
  destruct (publish "refdata" x) as [r x'] eqn:E. cbn in Hr. subst r.
  exists x'. split; [reflexivity|].
  assert (seen_stamp "refdata" d (stored x)) as Hseen.
  { exists 4. split; [reflexivity|]. split; [lia|]. right. exists 3. split; [reflexivity|lia]. }
  destruct (published_is_read "refdata" x x' 2 d E Hseen) as (tables & x0 & answers & x1 & Ht & Hask & _ & Hread).
  { intros tables x0 [= <- _]. split; [by apply (bool_decide_unpack _)|]. split; by apply (bool_decide_unpack _). }
  injection Ht as <- <-.
  inversion Hask as [|t1 ts1 y1 r1 y2 ans1 y3 Hr1 Hask1]; subst. injection Hr1 as <- <-.
  inversion Hask1 as [|t2 ts2 z1 r2 z2 ans2 z3 Hr2 Hask2]; subst. injection Hr2 as <- <-.
  inversion Hask2; subst.
  split_and!.
  - exact (Hread "tm_interval" ltac:(done) ltac:(done)).
  - exact (Hread "indicator" ltac:(done) ltac:(done)).
  - exact (Hread "old" ltac:(done) ltac:(done)).
Defined.
