(* ===== verification/TradeRepo.v ===== *)
(** * The TRADE repository

    [quant/trade/db_repo.py] with the rows of [quant/schemas/deployments.py]
    and [quant/schemas/apply.py]: every write validates who is asking before it
    calls a stored procedure.  The procedures themselves are the database's and
    come in as the class [TradeDb].  A timestamp is its microseconds since the
    Unix epoch, a UUID its text. *)
From S2P Require Import Prelude PyFloat PyData Order Errors PyValue.

(** ** Rows *)

(** A [Decimal]: an integer coefficient and a power of ten. *)
Record decimal := mkDecimal { dec_coeff : Z; dec_exp : Z }.

(** [Decimal(s)] for a plain or exponent literal, [None] for the special values. *)
Definition decimal_of_str (s : string) : option decimal :=
  let '(neg, t) := match s with
                   | String "-" t => (true, t)
                   | String "+" t => (false, t)
                   | _ => (false, s)
                   end in
  let '(ip, ni, r) := digit_run t 0 0 in
  let '(m, nf, r') := match r with String "." r => digit_run r ip 0 | _ => (ip, O, r) end in
  if (ni + nf =? 0)%nat then None
  else x ← exponent_of r'; Some (mkDecimal (if neg then - m else m) (x - Z.of_nat nf)).

(** The default context's precision. *)
Definition DECIMAL_PREC : Z := 28.

(** Number of decimal digits of a coefficient. *)
Definition coeff_digits (c : Z) : Z := Z.of_nat (String.length (pad_digits 1 (Z.abs c))).

(** [a * b], rounded half to even to the context's precision. *)
Definition decimal_mul (a b : decimal) : decimal :=
  let c := dec_coeff a * dec_coeff b in
  let e := dec_exp a + dec_exp b in
  let drop := coeff_digits c - DECIMAL_PREC in
  if drop <=? 0 then mkDecimal c e
  else
    let q := round_div (Z.abs c) (10 ^ drop) in
    let q := if c <? 0 then - q else q in
    if coeff_digits q <=? DECIMAL_PREC then mkDecimal q (e + drop)
    else mkDecimal (Z.quot q 10) (e + drop + 1).

(** [float(d)] *)
Definition float_of_decimal (d : decimal) : float :=
  of_decimal (dec_coeff d <? 0) (Z.to_N (Z.abs (dec_coeff d))) (dec_exp d).

Inductive DeploymentStatus := CREATED | ACTIVE | PAUSED | STOPPED.

#[export] Instance DeploymentStatus_eq_dec : EqDecision DeploymentStatus.
Proof. solve_decision. Defined.

Record DeploymentRow := mkDeploymentRow {
  deployment_id : string;
  deployment_vid : Z;
  app_user_id : string;
  strategy_id : string;
  strategy_vid : Z;
  api_credential_id : Z;
  app_id : Z;
  dep_cusip : string;
  qty : decimal;
  is_paper_ind : string;
  is_enabled_ind : string;
  deployment_status : DeploymentStatus;
  schedule_tm_interval_id : option Z;
  row_min_qty : option float
}.

(** The arguments of [write_deployment]. *)
Record deployment_write := mkDeploymentWrite {
  dw_deployment_id : string;
  dw_app_user_id : string;
  dw_strategy_id : string;
  dw_strategy_vid : Z;
  dw_api_credential_id : Z;
  dw_app_id : Z;
  dw_internal_cusip : string;
  dw_qty : decimal;
  dw_is_paper_ind : string;
  dw_is_enabled_ind : string;
  dw_deployment_status : DeploymentStatus;
  dw_user_id : string;
  dw_schedule_tm_interval_id : option Z;
  dw_initial_scheduled_ts : option Z
}.

(** A row of [SP_GET_MISSED_DUE_DEPLOYMENTS]. *)
Record due_row := mkDueRow {
  due_deployment : DeploymentRow;
  due_user_id : string;
  next_scheduled_ts : Z
}.

Record strategy_row := mkStrategyRow {
  st_user_id : string; st_logical_delete_ind : option string; st_config_json : pyval
}.

Record credential_row := mkCredentialRow {
  cr_is_active_ind : string; cr_app_user_id : string; cr_app_id : Z
}.

(** What [sp_get_deployment_check] returns. *)
Record deployment_check := mkDeploymentCheck { dc_app_user_id : string; dc_app_id : Z }.

Record execution_event := mkExecutionEvent {
  ee_app_user_id : string; ee_deployment_id : string; ee_deployment_vid : Z;
  ee_buy_sell_cd : string; ee_is_success_ind : string; ee_user_id : string;
  ee_signal_value : option float; ee_quantity : option float;
  ee_vendor_order_id : option string; ee_transact_at : option Z; ee_position_qty : option float
}.

Record intent := mkIntent {
  in_app_user_id : string; in_deployment_id : string; in_deployment_vid : Z;
  in_tm_interval_id : Z; in_bar_timestamp : Z; in_bar_source : string;
  in_signal_value : float; in_target_qty : option decimal; in_transact_at : Z; in_user_id : string
}.

Record schedule_status := mkScheduleStatus {
  ss_deployment_schedule_id : string; ss_deployment_id : string; ss_deployment_vid : Z;
  ss_status : string; ss_scheduled_ts : option Z; ss_user_id : string
}.

Record transaction := mkTransaction {
  tx_app_user_id : string; tx_deployment_id : string; tx_app_id : Z; tx_internal_cusip : string;
  tx_buy_sell_cd : string; tx_trans_ccy_cd : string; tx_user_id : string;
  tx_vendor_symbol : option string; tx_quantity : option float; tx_price : option float;
  tx_notional_amt : option float; tx_fee_amt : option float; tx_fee_ccy_cd : option string;
  tx_vendor_order_id : option string
}.

(** The stored procedures, the strategy and credential reads of the owning
    repositories, and the [SCHEDULE_STATUS] catalog. *)
Class TradeDb (W : Type) := {
  db_ins_deployment : deployment_write → prog W exn unit;
  db_get_deployment : string → option string → option Z → prog W exn (list DeploymentRow);
  db_deployment_check : string → option Z → prog W exn (option deployment_check);
  db_missed_due : Z → prog W exn (list due_row);
  db_ins_schedule_status : schedule_status → prog W exn unit;
  db_ins_execution_event : execution_event → prog W exn unit;
  db_ins_intent : intent → prog W exn unit;
  db_ins_transaction : transaction → prog W exn unit;
  db_get_intent : string → option string → Z → prog W exn (list intent);
  db_get_execution_event : string → option string → Z → prog W exn (list execution_event);
  db_get_transaction : string → option string → Z → prog W exn (list transaction);
  db_get_strategy : string → Z → prog W exn (list strategy_row);
  db_credential_check : Z → prog W exn (option credential_row);
  db_validate_schedule_status : string → prog W exn string
}.

(** ** Argument checks *)

(** [_require] on a text argument; the other arguments are typed and never
    [None]. *)
Definition require_text (value name : string) : res exn unit :=
  if has_id (Some (strip value)) then mret tt
  else Raise (TradeValidationError (name +:+ " is required") 400).

(** [_require_all], in the order of its keywords *)
Fixpoint require_all (fields : list (string * string)) : res exn unit :=
  match fields with
  | [] => mret tt
  | (name, value) :: fields' => _ ← require_text value name; require_all fields'
  end.

(** [_clamp_limit] *)
Definition clamp_limit (limit ceiling : Z) : Z := Z.max 1 (Z.min limit ceiling).

Section repo.
Context {W : Type} `{TradeDb W}.

Definition refuse {A} (msg : string) (status : Z) : prog W exn A :=
  raise (TradeValidationError msg status).

(** ** Ownership *)

(** [_fetch_strategy] *)
Definition fetch_strategy (sid : string) (vid : Z) : prog W exn (option strategy_row) :=
  rows ← db_get_strategy sid vid; mret (head rows).

(** [strategy_owned_by] *)
Definition strategy_owned_by (sid : string) (vid : Z) (user : string) : prog W exn strategy_row :=
  row ← fetch_strategy sid vid;
  match row with
  | None => refuse "strategy_id / strategy_vid not found" 404
  | Some r =>
      if negb (String.eqb (st_user_id r) user) then
        refuse "strategy does not belong to user" 403
      else if bool_decide (st_logical_delete_ind r = Some "Y") then
        refuse "strategy is logically deleted" 400
      else mret r
  end.

(** [_assert_credential_usable] *)
Definition assert_credential_usable (cred_id : Z) (user : string) (app : Z)
    : prog W exn credential_row :=
  cred ← db_credential_check cred_id;
  match cred with
  | None => refuse "API credential not found or not current" 404
  | Some c =>
      if negb (String.eqb (cr_is_active_ind c) "Y") then
        refuse "API credential is not active" 400
      else if negb (String.eqb (cr_app_user_id c) user) then
        refuse "API credential does not belong to user" 403
      else if negb (cr_app_id c =? app) then
        refuse "app_id does not match API credential" 400
      else mret c
  end.

(** [_fetch_deployment_version], [_fetch_current_deployment] *)
Definition fetch_deployment_version (dep : string) (vid : Z) : prog W exn (option deployment_check) :=
  db_deployment_check dep (Some vid).
Definition fetch_current_deployment (dep : string) : prog W exn (option deployment_check) :=
  db_deployment_check dep None.

(** [_assert_owner] *)
Definition assert_owner (dep : deployment_check) (user : string) : prog W exn unit :=
  if String.eqb (dc_app_user_id dep) user then mret tt
  else refuse "deployment does not belong to user" 403.

(** [_owned_deployment_version] *)
Definition owned_deployment_version (dep : string) (vid : Z) (user : string)
    : prog W exn deployment_check :=
  d ← fetch_deployment_version dep vid;
  match d with
  | None => refuse "deployment not found" 404
  | Some d => _ ← assert_owner d user; mret d
  end.

(** ** Validation of each write *)

(** [validate_create_deployment] *)
Definition validate_create_deployment (w : deployment_write) (confirm_live : bool)
    : prog W exn unit :=
  _ ← lift_res (require_all [("internal_cusip", dw_internal_cusip w);
                             ("is_paper_ind", dw_is_paper_ind w);
                             ("is_enabled_ind", dw_is_enabled_ind w);
                             ("user_id", dw_user_id w)]);
  if String.eqb (dw_is_paper_ind w) "N" && negb confirm_live then
    refuse "Live trading requires explicit confirmation — set confirm_live=true" 400
  else
    _ ← assert_credential_usable (dw_api_credential_id w) (dw_app_user_id w) (dw_app_id w);
    _ ← strategy_owned_by (dw_strategy_id w) (dw_strategy_vid w) (dw_app_user_id w);
    current ← fetch_current_deployment (dw_deployment_id w);
    match current with
    | Some c => if String.eqb (dc_app_user_id c) (dw_app_user_id w) then mret tt
                else refuse "deployment_id does not belong to user" 403
    | None => mret tt
    end.

(** [validate_dry_run] *)
Definition validate_dry_run (user sid : string) (vid cred app : Z) (cusip : string)
    : prog W exn strategy_row :=
  _ ← lift_res (require_all [("internal_cusip", cusip)]);
  _ ← assert_credential_usable cred user app;
  strategy_owned_by sid vid user.

(** [validate_execution_event] *)
Definition validate_execution_event (e : execution_event) : prog W exn unit :=
  _ ← lift_res (require_all [("buy_sell_cd", ee_buy_sell_cd e);
                             ("is_success_ind", ee_is_success_ind e); ("user_id", ee_user_id e)]);
  _ ← owned_deployment_version (ee_deployment_id e) (ee_deployment_vid e) (ee_app_user_id e);
  mret tt.

(** [validate_transaction] *)
Definition validate_transaction (t : transaction) : prog W exn unit :=
  _ ← lift_res (require_all [("internal_cusip", tx_internal_cusip t);
                             ("buy_sell_cd", tx_buy_sell_cd t);
                             ("trans_ccy_cd", tx_trans_ccy_cd t); ("user_id", tx_user_id t)]);
  dep ← fetch_current_deployment (tx_deployment_id t);
  match dep with
  | None => refuse "deployment not found or not current" 404
  | Some d =>
      _ ← assert_owner d (tx_app_user_id t);
      if dc_app_id d =? tx_app_id t then mret tt
      else refuse "app_id does not match deployment" 400
  end.

(** [validate_schedule_status] *)
Definition validate_schedule_status (s : schedule_status) : prog W exn unit :=
  _ ← lift_res (require_all [("status", ss_status s); ("user_id", ss_user_id s)]);
  _ ← catch (db_validate_schedule_status (ss_status s)) (λ e,
        if isinstance e CRuntimeError
        then refuse ("status must be one of " +:+ exn_msg e) 400 else raise e);
  if String.eqb (ss_status s) "PENDING" && bool_decide (ss_scheduled_ts s = None) then
    refuse "scheduled_ts is required when status is PENDING — it is the next due time" 400
  else
    dep ← fetch_deployment_version (ss_deployment_id s) (ss_deployment_vid s);
    match dep with
    | None => refuse "deployment not found" 404
    | Some _ => mret tt
    end.

(** [validate_intent] *)
Definition validate_intent (i : intent) : prog W exn unit :=
  _ ← lift_res (require_all [("bar_source", in_bar_source i); ("user_id", in_user_id i)]);
  _ ← owned_deployment_version (in_deployment_id i) (in_deployment_vid i) (in_app_user_id i);
  mret tt.

(** ** Writes *)

(** [write_deployment] *)
Definition write_deployment (w : deployment_write) : prog W exn DeploymentRow :=
  _ ← db_ins_deployment w;
  rows ← db_get_deployment (dw_app_user_id w) (Some (dw_deployment_id w)) None;
  match rows with
  | [] => raise (RuntimeError ("SP_INS_DEPLOYMENT succeeded but SP_GET returned no row: " +:+
                               dw_deployment_id w))
  | r :: _ => mret r
  end.

(** [sp_ins_deployment] *)
Definition sp_ins_deployment (w : deployment_write) (confirm_live : bool)
    : prog W exn DeploymentRow :=
  _ ← validate_create_deployment w confirm_live; write_deployment w.

(** [sp_ins_execution_event]; [now] is the clock's reading for a row without a
    time. *)
Definition sp_ins_execution_event (now : Z) (e : execution_event) : prog W exn unit :=
  _ ← validate_execution_event e;
  db_ins_execution_event
    (mkExecutionEvent (ee_app_user_id e) (ee_deployment_id e) (ee_deployment_vid e)
       (ee_buy_sell_cd e) (ee_is_success_ind e) (ee_user_id e) (ee_signal_value e)
       (ee_quantity e) (ee_vendor_order_id e) (Some (default now (ee_transact_at e)))
       (ee_position_qty e)).

(** [sp_ins_intent] *)
Definition sp_ins_intent (i : intent) : prog W exn unit :=
  _ ← validate_intent i; db_ins_intent i.

(** [sp_ins_deployment_schedule_status] *)
Definition sp_ins_deployment_schedule_status (s : schedule_status) : prog W exn unit :=
  _ ← validate_schedule_status s; db_ins_schedule_status s.

(** [sp_ins_transaction] *)
Definition sp_ins_transaction (t : transaction) : prog W exn unit :=
  _ ← validate_transaction t; db_ins_transaction t.

(** ** Reads *)

Definition sp_get_deployment (user : string) (dep : option string) (vid : option Z)
    : prog W exn (list DeploymentRow) := db_get_deployment user dep vid.

Definition sp_get_missed_due_deployments (tm_interval_id : Z) : prog W exn (list due_row) :=
  db_missed_due tm_interval_id.

Definition sp_get_intent (user : string) (dep : option string) (limit : Z)
    : prog W exn (list intent) := db_get_intent user dep (clamp_limit limit 200).

Definition sp_get_execution_event (user : string) (dep : option string) (limit : Z)
    : prog W exn (list execution_event) := db_get_execution_event user dep (clamp_limit limit 200).

Definition sp_get_transaction (user : string) (dep : option string) (limit : Z)
    : prog W exn (list transaction) := db_get_transaction user dep (clamp_limit limit 200).
End repo.

(** ** Who may create a deployment *)

Definition nonblank (s : string) : bool := has_id (Some (strip s)).

(** The rule [validate_create_deployment] enforces, on the rows it reads. *)
Definition create_allowed (w : deployment_write) (confirm_live : bool)
    (cred : option credential_row) (strategies : list strategy_row)
    (current : option deployment_check) : bool :=
  forallb nonblank [dw_internal_cusip w; dw_is_paper_ind w; dw_is_enabled_ind w; dw_user_id w] &&
  (negb (String.eqb (dw_is_paper_ind w) "N") || confirm_live) &&
  match cred with
  | Some c => String.eqb (cr_is_active_ind c) "Y" && String.eqb (cr_app_user_id c) (dw_app_user_id w)
              && (cr_app_id c =? dw_app_id w)
  | None => false
  end &&
  match strategies with
  | r :: _ => String.eqb (st_user_id r) (dw_app_user_id w) &&
              negb (bool_decide (st_logical_delete_ind r = Some "Y"))
  | [] => false
  end &&
  match current with
  | Some d => String.eqb (dc_app_user_id d) (dw_app_user_id w)
  | None => true
  end.

(** The three reads, answered without a change of state. *)
Definition create_reads {W} `{TradeDb W} (w : deployment_write) (s : W)
    (cred : option credential_row) (strategies : list strategy_row)
    (current : option deployment_check) : Prop :=
  db_credential_check (dw_api_credential_id w) s = (Ok cred, s) ∧
  db_get_strategy (dw_strategy_id w) (dw_strategy_vid w) s = (Ok strategies, s) ∧
  db_deployment_check (dw_deployment_id w) None s = (Ok current, s).

Lemma require_all_spec fields :
  require_all fields =
  if forallb (λ f, nonblank f.2) fields then Ok tt
  else Raise (TradeValidationError
    (default "" (head (fst <$> List.filter (λ f, negb (nonblank f.2)) fields)) +:+ " is required") 400).
Proof.
  induction fields as [|[n v] l IH]; [done|]. simpl. unfold require_text, nonblank in *.
  by destruct (has_id (Some (strip v))).
Qed.

(** C17. A deployment is written only for its rightful owner: it takes a
    confirmed or paper mode, an active credential of the user for the app, an
    undeleted strategy of the user, and no deployment of that id belonging to
    someone else; any other request raises a validation error and writes
    nothing. *)
Theorem create_gated {W} `{TradeDb W} w confirm_live s cred strategies current :
  create_reads w s cred strategies current →
  if create_allowed w confirm_live cred strategies current
  then sp_ins_deployment w confirm_live s = write_deployment w s
  else ∃ e, sp_ins_deployment w confirm_live s = (Raise e, s) ∧ exn_cls e = CTradeValidationError.
Proof.
  intros (Hc & Hst & Hd). unfold sp_ins_deployment, validate_create_deployment, create_allowed.
  unfold mbind, prog_bind, lift_res. rewrite require_all_spec.
  change (forallb (λ f, nonblank f.2) _) with
    (forallb nonblank [dw_internal_cusip w; dw_is_paper_ind w; dw_is_enabled_ind w; dw_user_id w]).
  destruct (forallb nonblank _); [|by eexists]. simpl andb.
  destruct (String.eqb (dw_is_paper_ind w) "N"), confirm_live; try (by eexists); simpl.
  all: unfold assert_credential_usable, strategy_owned_by, fetch_strategy, fetch_current_deployment,
    mbind, prog_bind; rewrite Hc.
  all: destruct cred as [c|]; [|by eexists].
  all: destruct (String.eqb (cr_is_active_ind c) "Y"); [|by eexists].
  all: destruct (String.eqb (cr_app_user_id c) (dw_app_user_id w)); [|by eexists].
  all: destruct (cr_app_id c =? dw_app_id w); [|by eexists].
  all: simpl; unfold mret, prog_ret; rewrite Hst.
  all: destruct strategies as [|r l]; [by eexists|]; simpl.
  all: destruct (String.eqb (st_user_id r) (dw_app_user_id w)); [|by eexists]; simpl.
  all: destruct (bool_decide (st_logical_delete_ind r = Some "Y")); [by eexists|]; simpl.
  all: rewrite Hd; destruct current as [d|]; [|done].
  all: destruct (String.eqb (dc_app_user_id d) (dw_app_user_id w)); [done|by eexists].
Qed.

(** One user's database, with nothing in it but what creating needs. *)
#[local] Instance tiny_db : TradeDb unit := {|
  db_ins_deployment _ w := (Ok tt, w);
  db_get_deployment _ _ _ w := (Ok [], w);
  db_deployment_check _ _ w := (Ok None, w);
  db_missed_due _ w := (Ok [], w);
  db_ins_schedule_status _ w := (Ok tt, w);
  db_ins_execution_event _ w := (Ok tt, w);
  db_ins_intent _ w := (Ok tt, w);
  db_ins_transaction _ w := (Ok tt, w);
  db_get_intent _ _ _ w := (Ok [], w);
  db_get_execution_event _ _ _ w := (Ok [], w);
  db_get_transaction _ _ _ w := (Ok [], w);
  db_get_strategy _ _ w := (Ok [mkStrategyRow "user" None VNone], w);
  db_credential_check _ w := (Ok (Some (mkCredentialRow "Y" "user" 11)), w);
  db_validate_schedule_status s w := (Ok s, w)
|}.

Definition live_write : deployment_write :=
  mkDeploymentWrite "dep" "user" "strat" 1 7 11 "BTC.crypto" (mkDecimal 1 (-3)) "N" "Y" CREATED
    "user" None None.

Lemma create_gated_witness :
  create_reads live_write tt (Some (mkCredentialRow "Y" "user" 11))
    [mkStrategyRow "user" None VNone] None ∧
  ∃ e, sp_ins_deployment live_write false tt = (Raise e, tt) ∧ exn_cls e = CTradeValidationError.
Proof.
  assert (create_reads live_write tt (Some (mkCredentialRow "Y" "user" 11))
    [mkStrategyRow "user" None VNone] None) as Hr by (split_and!; reflexivity).
  split; [exact Hr|]. exact (create_gated live_write false tt _ _ _ Hr).
Defined.
