(* ===== verification/Schedule.v ===== *)
(** * Schedule policy and alignment

    [quant/trade/schedule_policy.py] (which cadence a strategy may be scheduled
    on) and [quant/trade/schedule_align.py] (when a schedule is seeded). *)
From S2P Require Import Prelude PyFloat PyData Order Errors PyValue Intervals RefData TradeRepo.

(** ** [schedule_policy.py] *)

(** [fitted_interval_id] *)
Definition fitted_interval_id (config_json : pyval) : res exn Z :=
  interval ← get "tm_interval_id" (or_else config_json (VDict []));
  match interval with
  | VNone => Raise (TradeValidationError
      ("strategy config has no tm_interval_id — it must name the interval " +:+
       "its parameters were fitted on") 400)
  | v => int_val v
  end.

(** [UpdateDeploymentRequest]: a field is absent, or set, perhaps to null. *)
Record UpdateDeploymentRequest := mkUpdate {
  up_enabled : option bool;
  up_deployment_status : option DeploymentStatus;
  up_schedule : option (option Z);
  up_qty : option (option decimal)
}.

(** [should_realign_schedule] *)
Definition should_realign_schedule (current : DeploymentRow) (req : UpdateDeploymentRequest) : bool :=
  let scheduled := bool_decide (schedule_tm_interval_id current ≠ None) in
  match up_schedule req with
  | Some (Some i) => bool_decide (Some i ≠ schedule_tm_interval_id current)
  | _ => false
  end
  || (bool_decide (up_enabled req = Some true) &&
      negb (String.eqb (is_enabled_ind current) "Y") && scheduled)
  || (bool_decide (up_deployment_status req = Some ACTIVE) &&
      bool_decide (deployment_status current = PAUSED) && scheduled).

Section schedule.
Context {W : Type} `{ReferenceData W}.

(** [require_fitted_interval] *)
Definition require_fitted_interval (wanted : option Z) (fitted : Z) : prog W exn unit :=
  match wanted with
  | None => mret tt
  | Some i =>
      if i =? fitted then mret tt
      else
        w ← ref_interval_label i;
        f ← ref_interval_label fitted;
        raise (TradeValidationError
          ("cannot schedule this deployment on " +:+ w +:+ ": its strategy was fitted " +:+
           "on " +:+ f +:+ " bars, and the schedule decides which bars the live " +:+
           "signal is computed from. Use " +:+ f +:+ ", or leave the schedule manual.") 400)
  end.

(** The tz database *)
Variable tz : string → zone.

(** [compute_initial_scheduled_ts] from the moment [moment] *)
Definition compute_initial_scheduled_ts (app_id interval : Z) (listing : option string) (moment : Z)
    : prog W exn Z :=
  period ← ref_interval_period interval;
  offset ← ref_execute_offset app_id interval;
  cal ← ref_market_calendar listing;
  lift_res match cal_close cal with
           | Some close =>
               if DAY <=? period
               then next_session_apply_slot (Utc moment) close (tz (cal_timezone cal)) offset
               else next_apply_slot (Utc moment) period offset
           | None => next_apply_slot (Utc moment) period offset
           end.
End schedule.

(** ** Facts *)

(** A cadence other than the fitted one is never let through. *)
Lemma require_fitted_interval_ok {W} `{ReferenceData W} wanted fitted w w' :
  require_fitted_interval wanted fitted w = (Ok tt, w') →
  wanted = None ∨ wanted = Some fitted.
Proof.
  destruct wanted as [i|]; [|by left]. simpl. destruct (Z.eqb_spec i fitted) as [->|]; [by right|].
  unfold mbind, prog_bind. destruct (ref_interval_label i w) as [[a|e] w1]; [|done].
  by destruct (ref_interval_label fitted w1) as [[b|e] w2].
Qed.

(** A new schedule is seeded for a moment still to come. *)
Lemma initial_scheduled_ts_continuous {W} `{ReferenceData W} tz app_id interval listing moment w r w' :
  compute_initial_scheduled_ts tz app_id interval listing moment w = (Ok r, w') →
  (∀ x cal s s', ref_market_calendar x s = (Ok cal, s') → cal_close cal = None) →
  (∀ i p s s', ref_interval_period i s = (Ok p, s') → 0 < p) →
  moment < r.
Proof.
  unfold compute_initial_scheduled_ts, mbind, prog_bind. intros Hc Hcal Hper.
  destruct (ref_interval_period interval w) as [[period|] w1] eqn:Hp; [|done].
  destruct (ref_execute_offset app_id interval w1) as [[offset|] w2]; [|done].
  destruct (ref_market_calendar listing w2) as [[cal|] w3] eqn:Hm; [|done].
  unfold lift_res in Hc. rewrite (Hcal _ _ _ _ Hm) in Hc. injection Hc as Hc _.
  assert (0 <= offset < period) as Hoff.
  { unfold next_apply_slot in Hc. destruct (Z.leb_spec 0 offset), (Z.ltb_spec offset period); done. }
  destruct (slot_spec period (Hper _ _ _ _ Hp) (Utc moment) offset r Hoff Hc) as [Hlt _]. exact Hlt.
Qed.
