(* ===== verification/LiveApply.v ===== *)
(** * Live apply

    [quant/trade/live_apply.py]: one cycle of a deployment — signal, intent,
    order, diary, alert — with the signal source of [bar_source.py], the dry run
    of [dry_run.py] and the alerts of [quant/shared/notify.py].  The signal
    engine, the credential vault and the webhook are seen through the operations
    they offer; the brokers are [TradeAdapter]s. *)
From S2P Require Import Prelude PyFloat PyData Order Errors PyValue Ccxt Instruments RefData.
From S2P Require Import Adapter OrderPolicy TradeRepo Schedule.

(** ** What the cycle calls *)

(** A bar loader: the venue's bars of one interval. *)
Record bar_loader := mkBarLoader { bl_app_id : Z; bl_tm_interval_id : Z }.

Class ApplyEnv (W : Type) := {
  now_us : prog W exn Z;
  utc_text : prog W exn string;
  decrypt_credential : string → Z → prog W exn (option (string * string));
  fetch_result_payload : string → Z → prog W exn pyval;
  compute_latest_position : pyval → pyval → option bar_loader → prog W exn (float * string);
  post_webhook : string → string → prog W exn unit
}.

(** A broker factory: keys and mode to a connected-on-demand adapter. *)
Definition factory (W : Type) : Type := string → string → bool → prog W exn (TradeAdapter W).

(** [AdapterRegistry._by_app_id] *)
Definition registry (W : Type) : Type := list (Z * factory W).

(** [has_adapter], [register] and [create] of [quant/trade/registry.py] *)
Definition has_adapter {W} (r : registry W) (app_id : Z) : bool :=
  bool_decide (is_Some (dict_get app_id r)).

Definition register {W} (r : registry W) (app_id : Z) (f : factory W) : registry W :=
  dict_set app_id f r.

Definition create {W} (r : registry W) (app_id : Z) (key secret : string) (paper : bool)
    : prog W exn (TradeAdapter W) :=
  match dict_get app_id r with
  | None => raise (AdapterNotFoundError ("no adapter registered for app_id=" +:+ str_Z app_id))
  | Some f => f key secret paper
  end.

Section registry_lookup.
Context {W : Type} `{ReferenceData W}.

(** [ccxt_apps] over the presets *)
Fixpoint ccxt_apps (presets : list (string * CcxtExchangePreset))
    : prog W exn (list (Z * CcxtExchangePreset)) :=
  match presets with
  | [] => mret []
  | (name, p) :: presets' =>
      i ← ref_app_id name;
      rest ← ccxt_apps presets';
      mret (match i with Some i => (i, p) :: rest | None => rest end)
  end.

(** [preset_for_app] *)
Definition preset_for_app (app_id : Z) : prog W exn (option CcxtExchangePreset) :=
  apps ← ccxt_apps CCXT_PRESETS;
  mret (snd <$> List.find (λ a, a.1 =? app_id) apps).

(** [exchange_id_for_app] *)
Definition exchange_id_for_app (app_id : Z) : prog W exn (option string) :=
  p ← preset_for_app app_id; mret (exchange_id <$> p).
End registry_lookup.

(** ** [notify.py] *)

(** [prefix_alert] *)
Definition prefix_alert (category message : string) : string :=
  let tag := "[" +:+ category +:+ "]" in
  if String.prefix tag message then message else tag +:+ " " +:+ message.

(** [SlackNotifier.send] with a webhook, [LoggingNotifier.send] without *)
Definition notify {W} `{ApplyEnv W} (webhook : option string) (message : string) : prog W exn unit :=
  match webhook with
  | Some url => catch (post_webhook url message) (λ _, mret tt)
  | None => mret tt
  end.

(** [title_for_apply_failure] *)
Definition title_for_apply_failure (is_permanent : bool) : string :=
  if is_permanent then "Live apply failed (permanent rejection)"
  else "Live apply failed after retries — manual reconciliation required".

Definition NL : string := String (ascii_of_N 10) "".

(** [format_apply_failure], with the moment already rendered *)
Definition format_apply_failure (ts title dep sid : string) (svid : Z) (symbol : string)
    (signal : float) (action : string) (qty : float) (paper : bool)
    (attempt_count max_attempts : Z) (last_message : string) (ids : list string) : string :=
  prefix_alert "TRADE"
    ("*" +:+ title +:+ "*" +:+ NL +:+
     "• time: `" +:+ ts +:+ "`" +:+ NL +:+
     "• deployment: `" +:+ dep +:+ "` (" +:+ (if paper then "paper" else "live") +:+ ")" +:+ NL +:+
     "• strategy: `" +:+ sid +:+ "` v" +:+ str_Z svid +:+ NL +:+
     "• symbol: `" +:+ symbol +:+ "` signal=" +:+ str_float signal +:+ " action=" +:+ action +:+
     " qty=" +:+ str_float qty +:+ NL +:+
     "• attempts: " +:+ str_Z attempt_count +:+ "/" +:+ str_Z max_attempts +:+ NL +:+
     "• vendor_order_ids: " +:+ (match ids with [] => "(none)" | _ => join ", " ids end) +:+ NL +:+
     "• last error: " +:+ last_message).

(** ** [bar_source.py] *)

Section source.
Context {W : Type} `{ReferenceData W}.
(** whether a price bar factory is configured *)
Variable has_price_bars : bool.

(** [PriceBarServiceFactory.for_app], as far as it decides: an app without a
    venue is refused. *)
Definition for_app (app_id : Z) : prog W exn unit :=
  p ← preset_for_app app_id;
  match p with
  | Some _ => mret tt
  | None => raise (TradeValidationError
      ("no market data venue for app_id=" +:+ str_Z app_id +:+ " — cannot price a " +:+
       "scheduled deployment without bars from the exchange it trades on") 400)
  end.

(** [resolve_signal_source] *)
Definition resolve_signal_source (app_id : Z) (schedule : option Z) (fitted : Z) (what : string)
    : prog W exn (option bar_loader * string * Z) :=
  venue ← exchange_id_for_app app_id;
  let on_venue (interval : Z) :=
    if negb has_price_bars then
      raise (TradeValidationError
        (what +:+ " needs exchange bars on interval " +:+ str_Z interval +:+
         " but no price bar source is configured") 400)
    else
      _ ← for_app app_id;
      mret (Some (mkBarLoader app_id interval),
            "price_bar:" +:+ default "None" venue, interval) in
  match schedule, venue with
  | None, None => mret (None, "provider", fitted)
  | None, Some _ => on_venue fitted
  | Some i, _ => on_venue i
  end.
End source.

(** ** The cycle *)

Record SignalRead := mkSignalRead {
  sr_signal : float; sr_bar_source : string; sr_bar_timestamp : Z; sr_tm_interval_id : Z
}.

Record ApplyReport := mkApplyReport {
  ar_deployment_id : string;
  ar_deployment_vid : Z;
  ar_action : IntendedAction;
  ar_vendor_symbol : string;
  ar_signal : float;
  ar_position_qty : float;
  ar_order_success : option bool;
  ar_vendor_order_id : option string;
  ar_filled_qty : option float;
  ar_avg_price : option float;
  ar_fee : option float;
  ar_fee_ccy : option string;
  ar_message : string;
  ar_reject_reason : option OrderRejectReason;
  ar_bar_source : string
}.

Section live_apply.
Context {W : Type} `{ApplyEnv W} `{TradeDb W} `{ReferenceData W} `{Clock W}.
(** [datetime.fromisoformat], as an instant or a naive reading *)
Variable fromisoformat : string → res exn Intervals.datetime.
Variables (inst : InstrumentCache) (brokers : registry W) (has_price_bars : bool).
Variables (policy : OrderRetryPolicy) (webhook : option string).

(** [data_as_of.strip().replace("Z", "+00:00")] *)
Fixpoint replace_Z (s : string) : string :=
  match s with
  | String "Z" s' => "+00:00" +:+ replace_Z s'
  | String c s' => String c (replace_Z s')
  | EmptyString => EmptyString
  end.

(** [_as_utc] *)
Definition bar_time (data_as_of : string) : res exn Z :=
  t ← fromisoformat (replace_Z (strip data_as_of)); mret (Intervals.as_utc t).

(** A [LiveEvaluationError] reported as a validation error *)
Definition evaluation_error {A} (m : prog W exn A) : prog W exn A :=
  catch m (λ e, if isinstance e CLiveEvaluationError
                then raise (TradeValidationError (exn_msg e) 400) else raise e).

(** [_compute_signal] *)
Definition compute_signal (d : DeploymentRow) : prog W exn SignalRead :=
  rows ← db_get_strategy (strategy_id d) (strategy_vid d);
  match rows with
  | [] => raise (TradeValidationError
      ("strategy " +:+ strategy_id d +:+ " v" +:+ str_Z (strategy_vid d) +:+ " not found") 404)
  | row :: _ =>
      payload ← fetch_result_payload (strategy_id d) (strategy_vid d);
      let config := st_config_json row in
      fitted ← lift_res (fitted_interval_id config);
      src ← resolve_signal_source has_price_bars (app_id d) (schedule_tm_interval_id d) fitted
              ("deployment " +:+ deployment_id d);
      sig ← evaluation_error (compute_latest_position config payload src.1.1);
      ts ← lift_res (bar_time sig.2);
      mret (mkSignalRead sig.1 src.1.2 ts src.2)
  end.

(** [_report] *)
Definition report_of (d : DeploymentRow) (o : OrderRetryResult) (vendor_symbol : string)
    (signal : float) (bar_source : string) : ApplyReport :=
  let r := rr_result o in
  mkApplyReport (deployment_id d) (deployment_vid d) (rr_action o) vendor_symbol signal
    (rr_position_qty o) (success <$> r) (r ≫= vendor_order_id) (r ≫= filled_qty)
    (r ≫= avg_price) (r ≫= fee) (r ≫= fee_ccy)
    (match r with Some r => message r | None => no_order_message o end) (r ≫= reason) bar_source.

(** The diary row of one attempt. *)
Definition attempt_event (user_id app_user : string) (d : DeploymentRow) (signal qty : float)
    (tick_at : Z) (a : ApplyAttempt) : execution_event :=
  mkExecutionEvent app_user (deployment_id d) (deployment_vid d) (buy_sell_cd a)
    (is_success_ind a) user_id (Some signal) (at_quantity a qty) (at_vendor_order_id a)
    (Some tick_at) (Some (at_position_qty a)).

(** [_audit_attempts] *)
Fixpoint audit_attempts (user_id app_user : string) (d : DeploymentRow) (signal qty : float)
    (tick_at : Z) (attempts : list ApplyAttempt) : prog W exn unit :=
  match attempts with
  | [] => mret tt
  | a :: attempts' =>
      _ ← catch (sp_ins_execution_event tick_at (attempt_event user_id app_user d signal qty tick_at a))
                (λ _, mret tt);
      audit_attempts user_id app_user d signal qty tick_at attempts'
  end.

(** [_settlement_ccy] *)
Definition settlement_ccy (cusip : string) : prog W exn string :=
  match get_product_by_cusip inst cusip ≫= product_ccy with
  | Some (String _ _ as c) => mret c
  | _ => ref_setting "fallback_settlement_ccy"
  end.

(** [_write_transaction] *)
Definition write_transaction (user_id app_user : string) (d : DeploymentRow)
    (action : IntendedAction) (vendor_symbol : string) (r : OrderResult) : prog W exn unit :=
  match order_side action, filled_qty r with
  | Some side, Some filled =>
      let notional := fmul filled <$> avg_price r in
      catch
        (ccy ← settlement_ccy (dep_cusip d);
         sp_ins_transaction
           (mkTransaction app_user (deployment_id d) (app_id d) (dep_cusip d)
              (OrderSide_value side) ccy user_id (Some vendor_symbol) (Some filled)
              (avg_price r) notional (fee r) (fee_ccy r) (vendor_order_id r)))
        (λ _, mret tt)
  | _, _ => mret tt
  end.

(** [_send_failure_alert] *)
Definition send_failure_alert (d : DeploymentRow) (o : OrderRetryResult) (vendor_symbol : string)
    (signal qty : float) (r : OrderResult) : prog W exn unit :=
  ts ← utc_text;
  notify webhook
    (format_apply_failure ts (title_for_apply_failure (rr_permanent_failure o))
       (deployment_id d) (strategy_id d) (strategy_vid d) vendor_symbol signal
       (IntendedAction_value (rr_action o)) qty (String.eqb (is_paper_ind d) "Y")
       (Z.of_nat (length (rr_attempts o))) (rr_max_attempts o) (message r) (vendor_order_ids o)).

(** Everything [run] does before a broker session exists: the gates, the
    signal, and the intent row. *)
Definition prepare (app_user user_id : string) (d : DeploymentRow)
    : prog W exn (Z * (string * string) * SignalRead) :=
  tick_at ← now_us;
  if negb (has_adapter brokers (app_id d)) then
    raise (AdapterNotFoundError ("no broker adapter registered for app_id=" +:+ str_Z (app_id d)))
  else
    keys ← decrypt_credential app_user (api_credential_id d);
    match keys with
    | None => raise (TradeValidationError "API credential not found or cannot decrypt" 404)
    | Some keys =>
        decision ← compute_signal d;
        _ ← sp_ins_intent
              (mkIntent app_user (deployment_id d) (deployment_vid d) (sr_tm_interval_id decision)
                 (sr_bar_timestamp decision) (sr_bar_source decision) (sr_signal decision)
                 ((λ s, decimal_mul s (qty d)) <$> decimal_of_str (str_float (sr_signal decision)))
                 tick_at user_id);
        mret (tick_at, keys, decision)
    end.

(** The body of [with adapter:]. *)
Definition trade (app_user user_id : string) (d : DeploymentRow) (tick_at : Z)
    (decision : SignalRead) (adapter : TradeAdapter W) : prog W exn ApplyReport :=
  let q := float_of_decimal (qty d) in
  vendor_symbol ← validate_for_dry_run (dep_cusip d) (app_id d);
  outcome ← execute policy vendor_symbol (sr_signal decision) q;
  _ ← audit_attempts user_id app_user d (sr_signal decision) q tick_at (rr_attempts outcome);
  let report := report_of d outcome vendor_symbol (sr_signal decision) (sr_bar_source decision) in
  match rr_result outcome with
  | None => mret report
  | Some r =>
      _ ← (if success r
           then write_transaction user_id app_user d (rr_action outcome) vendor_symbol r
           else send_failure_alert d outcome vendor_symbol (sr_signal decision) q r);
      mret report
  end.

(** [LiveApplyOrchestrator.run] *)
Definition live_apply_run (app_user : string) (d : DeploymentRow) (user_id : string)
    : prog W exn ApplyReport :=
  p ← prepare app_user user_id d;
  adapter ← create brokers (app_id d) p.1.2.1 p.1.2.2 (String.eqb (is_paper_ind d) "Y");
  @with_session _ _ adapter (trade app_user user_id d p.1.1 p.2 adapter).

(** ** The dry run *)

Record DryRunRequest := mkDryRunRequest {
  dr_strategy_id : string; dr_strategy_vid : Z; dr_api_credential_id : Z; dr_app_id : Z;
  dr_internal_cusip : string; dr_qty : decimal; dr_paper : bool
}.

Record DryRunReport := mkDryRunReport {
  dp_request : DryRunRequest;
  dp_vendor_symbol : string;
  dp_signal : float;
  dp_intended_side : IntendedAction;
  dp_position_qty : float;
  dp_data_as_of : string;
  dp_notional : option float;
  dp_bar_source : string
}.

(** [_broker_report] *)
Definition broker_report (req : DryRunRequest) (signal : float) (data_as_of bar_source : string)
    (adapter : TradeAdapter W) : prog W exn DryRunReport :=
  vendor_symbol ← validate_for_dry_run (dr_internal_cusip req) (dr_app_id req);
  position_qty ← get_position_qty vendor_symbol;
  intended ← lift_res (intended_action signal position_qty);
  price ← get_last_price vendor_symbol;
  mret (mkDryRunReport req vendor_symbol signal intended position_qty data_as_of
          (fmul (float_of_decimal (dr_qty req)) <$> price) bar_source).

(** [run_dry_run] *)
Definition run_dry_run (app_user : string) (req : DryRunRequest) : prog W exn DryRunReport :=
  row ← validate_dry_run app_user (dr_strategy_id req) (dr_strategy_vid req)
          (dr_api_credential_id req) (dr_app_id req) (dr_internal_cusip req);
  if negb (has_adapter brokers (dr_app_id req)) then
    raise (AdapterNotFoundError ("no broker adapter registered for app_id=" +:+ str_Z (dr_app_id req)))
  else
    keys ← decrypt_credential app_user (dr_api_credential_id req);
    match keys with
    | None => raise (TradeValidationError "API credential not found or not owned" 404)
    | Some keys =>
        payload ← fetch_result_payload (dr_strategy_id req) (dr_strategy_vid req);
        fitted ← lift_res (fitted_interval_id (st_config_json row));
        src ← resolve_signal_source has_price_bars (dr_app_id req) None fitted
                ("dry run of strategy " +:+ dr_strategy_id req);
        sig ← evaluation_error (compute_latest_position (st_config_json row) payload src.1.1);
        adapter ← create brokers (dr_app_id req) keys.1 keys.2 (dr_paper req);
        @with_session _ _ adapter (broker_report req sig.1 sig.2 src.1.2 adapter)
    end.
End live_apply.

(** ** Facts *)

Section source_facts.
Context {W : Type} `{ReferenceData W}.

Lemma resolve_on_venue has_price_bars app_id schedule fitted what w v w1 :
  schedule = None ∨ schedule = Some fitted →
  exchange_id_for_app app_id w = (Ok (Some v), w1) →
  resolve_signal_source has_price_bars app_id schedule fitted what w =
  resolve_signal_source has_price_bars app_id None fitted what w.
Proof.
  intros Hs Hv. unfold resolve_signal_source, mbind, prog_bind. rewrite Hv.
  by destruct Hs as [->| ->].
Qed.

(** A scheduled app without a venue is refused, never priced off other bars. *)
Lemma resolve_without_venue app_id i fitted what w w1 w2 :
  exchange_id_for_app app_id w = (Ok None, w1) → preset_for_app app_id w1 = (Ok None, w2) →
  ∃ e, resolve_signal_source true app_id (Some i) fitted what w = (Raise e, w2) ∧
       exn_cls e = CTradeValidationError.
Proof.
  intros Hv Hp. unfold resolve_signal_source, mbind, prog_bind. rewrite Hv. simpl.
  unfold for_app, mbind, prog_bind. rewrite Hp. by eexists.
Qed.
End source_facts.

Section apply_facts.
Context {W : Type} `{ApplyEnv W} `{TradeDb W} `{ReferenceData W} `{Clock W}.
Context (iso : string → res exn Intervals.datetime) (inst : InstrumentCache).
Context (brokers : registry W) (bars : bool) (policy : OrderRetryPolicy) (webhook : option string).

Lemma notify_total m : total (notify webhook m).
Proof.
  intros w. unfold notify. destruct webhook as [u|]; [|by do 2 eexists].
  unfold catch. destruct (post_webhook u m w) as [[[]|e] w']; by do 2 eexists.
Qed.

Lemma audit_attempts_total u a d s q t l : total (audit_attempts u a d s q t l).
Proof.
  induction l as [|x l IH]; intros w; simpl; [by do 2 eexists|].
  unfold mbind, prog_bind, catch.
  destruct (sp_ins_execution_event _ _ w) as [[[]|e] w1]; apply IH.
Qed.

Lemma write_transaction_total u a d act s r : total (write_transaction inst u a d act s r).
Proof.
  intros w. unfold write_transaction. destruct (order_side act), (filled_qty r); try by do 2 eexists.
  unfold catch. match goal with |- context [match ?m w with _ => _ end] => destruct (m w) as [[[]|e] w1] end;
    by do 2 eexists.
Qed.

Lemma send_failure_alert_total d o s sg q r : total (utc_text (W := W)) →
  total (send_failure_alert webhook d o s sg q r).
Proof.
  intros Hu w. unfold send_failure_alert, mbind, prog_bind.
  destruct (Hu w) as (t & w1 & ->). apply notify_total.
Qed.

(** Once the executor has answered, the cycle reports that answer. *)
Lemma trade_reports app_user user_id d tick_at decision (A : TradeAdapter W) sym outcome w w1 w2 :
  total (utc_text (W := W)) →
  validate_for_dry_run (dep_cusip d) (app_id d) w = (Ok sym, w1) →
  execute policy sym (sr_signal decision) (float_of_decimal (qty d)) w1 = (Ok outcome, w2) →
  ∃ w3, trade inst policy webhook app_user user_id d tick_at decision A w =
    (Ok (report_of d outcome sym (sr_signal decision) (sr_bar_source decision)), w3).
Proof.
  intros Hu Hv He. unfold trade, mbind, prog_bind. rewrite Hv, He.
  destruct (audit_attempts_total user_id app_user d (sr_signal decision)
    (float_of_decimal (qty d)) tick_at (rr_attempts outcome) w2) as ([] & w3 & ->).
  destruct (rr_result outcome) as [r|]; [|by eexists].
  destruct (success r).
  - destruct (write_transaction_total user_id app_user d (rr_action outcome) sym r w3) as ([] & w4 & ->).
    by eexists.
  - destruct (send_failure_alert_total d outcome sym (sr_signal decision)
      (float_of_decimal (qty d)) r Hu w3) as ([] & w4 & ->). by eexists.
Qed.

(** Where the series a signal is computed on comes from. *)
Lemma resolve_signal_source_cases app_id schedule fitted what w loader src interval w1 :
  resolve_signal_source bars app_id schedule fitted what w = (Ok (loader, src, interval), w1) →
  interval = default fitted schedule ∧
  (loader = None ∧ schedule = None ∧ src = "provider" ∨
   loader = Some (mkBarLoader app_id interval) ∧ ∃ venue, src = "price_bar:" +:+ venue).
Proof.
  unfold resolve_signal_source. intros (venue & w2 & _ & E)%bind_inv.
  destruct schedule as [i|], venue as [v|]; [| | |by injection E as <- <- <-; auto];
    (destruct bars; [|done]); cbn [negb] in E; apply bind_inv in E as ([] & w3 & _ & E); injection E as <- <- <- <-;
    eauto.
Qed.
End apply_facts.

(** ** Disarmed brokers *)

(** The same broker with its trading calls removed. *)
Definition disarm {W} (A : TradeAdapter W) : TradeAdapter W := {|
  connect := connect;
  disconnect := disconnect;
  place_order _ := raise (AssertionError "disarmed");
  cancel_order _ _ := raise (AssertionError "disarmed");
  get_position_qty := get_position_qty;
  get_last_price := get_last_price;
  validate_for_dry_run := validate_for_dry_run
|}.

Definition disarmed {W} (r : registry W) : registry W :=
  prod_map id (λ f : factory W, λ k s p, A ← f k s p; mret (disarm A)) <$> r.

Lemma dict_get_disarmed {W} (r : registry W) i :
  dict_get i (disarmed r) = (λ f : factory W, λ k s p, A ← f k s p; mret (disarm A)) <$> dict_get i r.
Proof.
  induction r as [|[j f] r IH]; simpl; [done|]. by case_decide.
Qed.

(** ** Properties *)

(** A preview prices what the order will: for a broker whose venue serves
    bars, a deployment that is manual or on its strategy's fitted interval and
    the dry run of that strategy resolve the same series, the same interval and
    the same label. *)
Theorem signal_source_agrees {W} `{ReferenceData W} has_price_bars app_id schedule fitted what w v w1 :
  schedule = None ∨ schedule = Some fitted →
  exchange_id_for_app app_id w = (Ok (Some v), w1) →
  resolve_signal_source has_price_bars app_id schedule fitted what w =
  resolve_signal_source has_price_bars app_id None fitted what w.
Proof. apply resolve_on_venue. Qed.

(** ** The log of a cycle *)

(** What a cycle asks of the database, the vault, the signal engine and the
    brokers, each call with its answer. *)
Inductive apply_event :=
| ANow (r : res exn Z)
| ADecrypt (app_user : string) (credential_id : Z) (r : res exn (option (string * string)))
| AStrategy (strategy_id : string) (strategy_vid : Z) (r : res exn (list strategy_row))
| APayload (strategy_id : string) (strategy_vid : Z) (r : res exn pyval)
| ASignal (config payload : pyval) (loader : option bar_loader) (r : res exn (float * string))
| ACheck (deployment_id : string) (deployment_vid : option Z) (r : res exn (option deployment_check))
| AIntent (i : intent) (r : res exn unit)
| ABroker (call : string).

Section traced_cycle.
Context {W : Type} `{ApplyEnv W} `{TradeDb W} `{ReferenceData W} `{Clock W}.
Abbreviation T := (W * list apply_event)%type.

#[local] Instance traced_apply_env : ApplyEnv T := {|
  now_us := logged ANow now_us;
  utc_text := unlogged utc_text;
  decrypt_credential u i := logged (ADecrypt u i) (decrypt_credential u i);
  fetch_result_payload s v := logged (APayload s v) (fetch_result_payload s v);
  compute_latest_position c p l := logged (ASignal c p l) (compute_latest_position c p l);
  post_webhook u m := unlogged (post_webhook u m)
|}.

#[local] Instance traced_trade_db : TradeDb T := {|
  db_ins_deployment x := unlogged (db_ins_deployment x);
  db_get_deployment u d v := unlogged (db_get_deployment u d v);
  db_deployment_check d v := logged (ACheck d v) (db_deployment_check d v);
  db_missed_due t := unlogged (db_missed_due t);
  db_ins_schedule_status x := unlogged (db_ins_schedule_status x);
  db_ins_execution_event x := unlogged (db_ins_execution_event x);
  db_ins_intent i := logged (AIntent i) (db_ins_intent i);
  db_ins_transaction x := unlogged (db_ins_transaction x);
  db_get_intent u d l := unlogged (db_get_intent u d l);
  db_get_execution_event u d l := unlogged (db_get_execution_event u d l);
  db_get_transaction u d l := unlogged (db_get_transaction u d l);
  db_get_strategy s v := logged (AStrategy s v) (db_get_strategy s v);
  db_credential_check i := unlogged (db_credential_check i);
  db_validate_schedule_status x := unlogged (db_validate_schedule_status x)
|}.

#[local] Instance unlogged_reference : ReferenceData T := {|
  ref_app_id n := unlogged (ref_app_id n);
  ref_interval_period i := unlogged (ref_interval_period i);
  ref_execute_offset i j := unlogged (ref_execute_offset i j);
  ref_market_calendar n := unlogged (ref_market_calendar n);
  ref_interval_label i := unlogged (ref_interval_label i);
  ref_setting n := unlogged (ref_setting n);
  ref_interval_ids := unlogged ref_interval_ids
|}.

#[local] Instance unlogged_clock : Clock T := {| sleep d := unlogged (sleep d) |}.

(** The same broker, every call of it in the log. *)
Definition traced_broker (A : TradeAdapter W) : TradeAdapter T := {|
  connect := logged (λ _, ABroker "connect") connect;
  disconnect := logged (λ _, ABroker "disconnect") disconnect;
  place_order o := logged (λ _, ABroker "place_order") (place_order o);
  cancel_order i s := logged (λ _, ABroker "cancel_order") (cancel_order i s);
  get_position_qty s := logged (λ _, ABroker "get_position_qty") (get_position_qty s);
  get_last_price s := logged (λ _, ABroker "get_last_price") (get_last_price s);
  validate_for_dry_run c i := logged (λ _, ABroker "validate_for_dry_run") (validate_for_dry_run c i)
|}.

(** The same brokers: building an adapter is in the log too. *)
Definition traced_brokers (r : registry W) : registry T :=
  prod_map id (λ f : factory W, λ k s p,
    A ← logged (λ _, ABroker "create") (f k s p); mret (traced_broker A)) <$> r.

Lemma has_adapter_traced r app_id : has_adapter (traced_brokers r) app_id = has_adapter r app_id.
Proof.
  unfold has_adapter. apply bool_decide_ext. induction r as [|[j f] r IH]; simpl; [done|].
  case_decide; [by rewrite !is_Some_alt|exact IH].
Qed.

Definition no_broker (evs : list apply_event) : Prop :=
  forallb (λ ev, match ev with ABroker _ => false | _ => true end) evs = true.

Context (iso : string → res exn Intervals.datetime) (inst : InstrumentCache).
Context (brokers : registry W) (bars : bool) (policy : OrderRetryPolicy) (webhook : option string).

(** A refusal whose log shows no call of a broker. *)
Definition stopped (tr : list apply_event) (_ : exn) (s : T) : Prop :=
  ∃ evs, s.2 = (tr ++ evs)%list ∧ no_broker evs.

(** The log of a cycle's decision: the clock, the user's keys, the strategy,
    its result, and the signal. *)
Definition decided (app_user : string) (d : DeploymentRow) tick_at keys row rows payload fitted
    (decision : SignalRead) (evs : list apply_event) : Prop :=
  ∃ loader as_of,
    fitted_interval_id (st_config_json row) = Ok fitted ∧
    bar_time iso as_of = Ok (sr_bar_timestamp decision) ∧
    sr_tm_interval_id decision = default fitted (schedule_tm_interval_id d) ∧
    (loader = None ∧ schedule_tm_interval_id d = None ∧ sr_bar_source decision = "provider" ∨
     loader = Some (mkBarLoader (app_id d) (sr_tm_interval_id decision)) ∧
     ∃ venue, sr_bar_source decision = "price_bar:" +:+ venue) ∧
    evs = [ANow (Ok tick_at); ADecrypt app_user (api_credential_id d) (Ok (Some keys));
           AStrategy (strategy_id d) (strategy_vid d) (Ok (row :: rows));
           APayload (strategy_id d) (strategy_vid d) (Ok payload);
           ASignal (st_config_json row) payload loader (Ok (sr_signal decision, as_of))].

Lemma for_app_unlogged tr i : preserves (λ s : T, s.2 = tr) (preset_for_app i).
Proof.
  unfold preset_for_app. apply preserves_bind; [|auto with preserves].
  induction CCXT_PRESETS as [|[name p] presets IH]; simpl; [auto with preserves|].
  apply preserves_bind; [apply unlogged_quiet|auto with preserves].
Qed.

Lemma resolve_unlogged i schedule fitted what priced tr :
  preserves (λ s : T, s.2 = tr) (resolve_signal_source priced i schedule fitted what).
Proof.
  unfold resolve_signal_source, exchange_id_for_app.
  apply preserves_bind; [apply preserves_bind; [apply for_app_unlogged|auto with preserves]|].
  intros venue. cbv zeta. destruct schedule, venue; [| | |auto with preserves]; (apply preserves_if;
    [auto with preserves|]; apply preserves_bind; [|auto with preserves]; unfold for_app;
    apply preserves_bind; [apply for_app_unlogged|intros [p|]; auto with preserves]).
Qed.

(** [compute_signal], event by event. *)
Lemma compute_signal_traced d Q w tr :
  (∀ row rows payload fitted loader as_of decision w',
     fitted_interval_id (st_config_json row) = Ok fitted →
     bar_time iso as_of = Ok (sr_bar_timestamp decision) →
     sr_tm_interval_id decision = default fitted (schedule_tm_interval_id d) →
     (loader = None ∧ schedule_tm_interval_id d = None ∧ sr_bar_source decision = "provider" ∨
      loader = Some (mkBarLoader (app_id d) (sr_tm_interval_id decision)) ∧
      ∃ venue, sr_bar_source decision = "price_bar:" +:+ venue) →
     Q decision (w', (tr ++ [AStrategy (strategy_id d) (strategy_vid d) (Ok (row :: rows));
                             APayload (strategy_id d) (strategy_vid d) (Ok payload);
                             ASignal (st_config_json row) payload loader (Ok (sr_signal decision, as_of))])%list)) →
  wp (compute_signal iso bars d) Q (stopped tr) (w, tr).
Proof.
  intros HQ. unfold compute_signal. rewrite wp_bind.
  apply wp_event; [intros rows w1|intros e w1; by eexists].
  destruct rows as [|row rows]; [by eexists|]. rewrite wp_bind.
  apply wp_event; [intros payload w2|intros e w2; rewrite <-app_assoc; by eexists].
  rewrite <-app_assoc. cbv zeta. rewrite wp_bind, wp_lift_res.
  destruct (fitted_interval_id (st_config_json row)) as [fitted|e] eqn:Hf; [|by eexists].
  rewrite wp_bind. set (tr2 := (tr ++ _)%list).
  apply wp_intro; [intros [[loader src] interval] [w3 tr3] Hs|intros e [w3 tr3] Hs];
    pose proof (resolve_unlogged (app_id d) (schedule_tm_interval_id d) fitted ("deployment " +:+ deployment_id d)
      bars tr2 (w2, tr2) eq_refl) as Hq; rewrite Hs in Hq; simpl in Hq; subst tr3; [|by eexists].
  apply resolve_signal_source_cases in Hs as [Hi Hl]. rewrite wp_bind. unfold evaluation_error.
  rewrite wp_catch.
  apply wp_event; [intros [sig as_of] w4|intros e w4; destruct (isinstance e CLiveEvaluationError);
    unfold tr2; rewrite wp_raise, <-app_assoc; by eexists].
  unfold tr2. rewrite wp_bind, wp_lift_res, <-app_assoc. cbn [fst snd].
  destruct (bar_time iso as_of) as [ts|e] eqn:Ht; [|by eexists].
  rewrite wp_ret. by eapply (HQ row rows payload fitted loader as_of (mkSignalRead sig src ts interval)).
Qed.

(** [prepare], event by event. *)
Lemma prepare_traced app_user user_id d w tr :
  wp (prepare iso (traced_brokers brokers) bars app_user user_id d)
     (λ p s, ∃ row rows payload fitted evs dep, has_adapter brokers (app_id d) = true ∧
        dc_app_user_id dep = app_user ∧ decided app_user d p.1.1 p.1.2 row rows payload fitted p.2 evs ∧
        s.2 = (tr ++ evs ++ [ACheck (deployment_id d) (Some (deployment_vid d)) (Ok (Some dep));
          AIntent (mkIntent app_user (deployment_id d) (deployment_vid d) (sr_tm_interval_id p.2)
                     (sr_bar_timestamp p.2) (sr_bar_source p.2) (sr_signal p.2)
                     ((λ x, decimal_mul x (qty d)) <$> decimal_of_str (str_float (sr_signal p.2)))
                     p.1.1 user_id) (Ok tt)])%list)
     (stopped tr) (w, tr).
Proof.
  unfold prepare. rewrite wp_bind.
  apply wp_event; [intros tick_at w1|intros e w1; by eexists].
  rewrite has_adapter_traced. destruct (has_adapter brokers (app_id d)); [|by eexists]. cbn [negb].
  rewrite wp_bind.
  apply wp_event; [intros [keys|] w2|intros e w2]; rewrite <-app_assoc; [|by eexists..].
  rewrite wp_bind. set (tr2 := (tr ++ _)%list).
  assert (∀ e s, stopped tr2 e s → stopped tr e s) as Hstop.
  { intros e s (evs & Hs & Hq). unfold tr2 in Hs. rewrite <-app_assoc in Hs. eexists. split; [exact Hs|exact Hq]. }
  eapply wp_mono; [apply compute_signal_traced|exact (λ p s H, H)|exact Hstop].
  intros row rows payload fitted loader as_of decision w3 Hf Ht Hi Hl. unfold tr2. rewrite <-app_assoc.
  set (evs := (([_] ++ _) ++ _)%list).
  assert (decided app_user d tick_at keys row rows payload fitted decision evs) as Hdec by by exists loader, as_of.
  assert (no_broker evs) as Hq by done.
  assert (∀ x, no_broker x → no_broker (evs ++ x)) as Happ
    by (intros x Hx; unfold no_broker; by rewrite forallb_app, Hq).
  clearbody evs. rewrite wp_bind. unfold sp_ins_intent, validate_intent, owned_deployment_version,
    fetch_deployment_version. rewrite !wp_bind, wp_lift_res. destruct (require_all _) as [[]|e]; [|by exists evs].
  rewrite !wp_bind. cbn [in_deployment_id in_deployment_vid in_app_user_id].
  apply wp_event; [intros [dep|] w4|intros e w4]; rewrite <-app_assoc; [|eexists; split; [done|by apply Happ]..].
  rewrite wp_bind. unfold assert_owner.
  destruct (String.eqb_spec (dc_app_user_id dep) app_user) as [Ho|]; [|eexists; split; [done|by apply Happ]].
  rewrite !wp_ret. apply wp_event; [intros [] w5|intros e w5]; rewrite <-!app_assoc.
  2: { eexists. split; [done|by apply Happ]. }
  rewrite wp_ret. by exists row, rows, payload, fitted, evs, dep.
Qed.
End traced_cycle.

(** C14. No broker is called before the intent of the cycle is on record.  Over
    the log of a cycle's calls, either it stops with no call of a broker, not
    even to build its adapter, or the log starts, without one, with exactly the
    decision (the user's keys, the strategy, its stored result, the signal on the
    bars the deployment is priced on), then the deployment version found to be
    the user's, then the accepted intent of this deployment, bar, signal and
    signed quantity, and only then the adapter is built and its session trades on
    that very decision. *)
Theorem intent_before_session {W} `{ApplyEnv W} `{TradeDb W} `{ReferenceData W} `{Clock W}
    iso inst brokers bars policy webhook app_user d user_id (w : W) tr :
  let trade_on tick_at decision A :=
    @trade _ traced_apply_env traced_trade_db unlogged_reference unlogged_clock inst policy webhook
      app_user user_id d tick_at decision A in
  let run := @live_apply_run _ traced_apply_env traced_trade_db unlogged_reference unlogged_clock
      iso inst (traced_brokers brokers) bars policy webhook app_user d user_id (w, tr) in
  (∃ e w' evs, run = (Raise e, (w', (tr ++ evs)%list)) ∧ no_broker evs) ∨
  (∃ tick_at keys row rows payload fitted decision evs dep w1,
     has_adapter brokers (app_id d) = true ∧ dc_app_user_id dep = app_user ∧
     decided iso app_user d tick_at keys row rows payload fitted decision evs ∧
     run = (A ← create (traced_brokers brokers) (app_id d) keys.1 keys.2 (String.eqb (is_paper_ind d) "Y");
            @with_session _ _ A (trade_on tick_at decision A))
           (w1, (tr ++ evs ++
              [ACheck (deployment_id d) (Some (deployment_vid d)) (Ok (Some dep));
               AIntent (mkIntent app_user (deployment_id d) (deployment_vid d) (sr_tm_interval_id decision)
                 (sr_bar_timestamp decision) (sr_bar_source decision) (sr_signal decision)
                 ((λ x, decimal_mul x (qty d)) <$> decimal_of_str (str_float (sr_signal decision)))
                 tick_at user_id) (Ok tt)])%list)).
Proof.
  intros trade_on run. subst run. unfold live_apply_run.
  pose proof (prepare_traced iso brokers bars app_user user_id d w tr) as Hp. unfold wp in Hp.
  destruct (prepare _ _ _ _ _ _ (w, tr)) as [[[[tick_at keys] decision]|e] [w1 tr1]] eqn:E; simpl in Hp.
  - rewrite (bind_ok _ _ _ _ _ E). right.
    destruct Hp as (row & rows & payload & fitted & evs & dep & Ha & Ho & Hd & ->).
    by exists tick_at, keys, row, rows, payload, fitted, decision, evs, dep, w1.
  - rewrite (bind_raise _ _ _ _ _ E). left. destruct Hp as (evs & Hs & Hq). simpl in Hs. subst tr1.
    by exists e, w1, evs.
Qed.

(** C30. Once the executor has answered, the cycle reports exactly that answer,
    whatever happens to the diary, the transaction row, the settlement currency
    or the alert: a filled order is never turned into an error by bookkeeping. *)
Theorem apply_reports_outcome {W} `{ApplyEnv W} `{TradeDb W} `{ReferenceData W} `{Clock W}
    iso inst brokers bars policy webhook app_user d user_id w t keys dec w1 (A : TradeAdapter W) w2
    w3 sym w4 outcome w5 :
  prepare iso brokers bars app_user user_id d w = (Ok (t, keys, dec), w1) →
  create brokers (app_id d) keys.1 keys.2 (String.eqb (is_paper_ind d) "Y") w1 = (Ok A, w2) →
  connect w2 = (Ok tt, w3) →
  validate_for_dry_run (dep_cusip d) (app_id d) w3 = (Ok sym, w4) →
  execute policy sym (sr_signal dec) (float_of_decimal (qty d)) w4 = (Ok outcome, w5) →
  total (disconnect (W := W)) → total (utc_text (W := W)) →
  ∃ w6, live_apply_run iso inst brokers bars policy webhook app_user d user_id w =
        (Ok (report_of d outcome sym (sr_signal dec) (sr_bar_source dec)), w6).
Proof.
  intros Hp Hc Hconn Hv He Hd Hu.
  destruct (trade_reports inst policy webhook app_user user_id d t dec A sym outcome w3 w4 w5 Hu Hv He)
    as (w6 & Ht).
  destruct (Hd w6) as ([] & w7 & Hw7). exists w7.
  unfold live_apply_run, mbind, prog_bind. rewrite Hp. cbn [fst snd]. rewrite Hc.
  unfold with_session, mbind, prog_bind, finally. by rewrite Hconn, Ht, Hw7.
Qed.

(** A dry run cannot trade: it behaves the same, in its result and in every
    effect, when the brokers it may use have no working order or cancel call. *)
Theorem dry_run_cannot_trade {W} `{ApplyEnv W} `{TradeDb W} `{ReferenceData W} (C : Clock W)
    brokers bars app_user req w :
  run_dry_run (disarmed brokers) bars app_user req w = run_dry_run brokers bars app_user req w.
Proof.
  unfold run_dry_run. apply bind_ext. intros row w1.
  unfold has_adapter. rewrite dict_get_disarmed.
  rewrite (bool_decide_ext _ (is_Some (dict_get (dr_app_id req) brokers))) by apply fmap_is_Some.
  case_match; [done|]. apply bind_ext. intros [keys|] w2; [|done].
  do 4 (apply bind_ext; intros ? ?).
  unfold create. rewrite dict_get_disarmed. destruct (dict_get _ brokers) as [f|]; [|done]. simpl.
  unfold mbind, prog_bind. destruct (f _ _ _ _) as [[A|e] w7]; done.
Qed.

(** ** A cycle whose bookkeeping fails *)

Definition db_down : exn := ProcedureError "57014" "canceling statement".

(** The user owns everything, and only the intent row can be written. *)
#[local] Instance failing_diary : TradeDb script := {|
  db_ins_deployment _ w := (Raise db_down, w);
  db_get_deployment _ _ _ w := (Ok [], w);
  db_deployment_check _ _ w := (Ok (Some (mkDeploymentCheck "user" 11)), w);
  db_missed_due _ w := (Ok [], w);
  db_ins_schedule_status _ w := (Raise db_down, w);
  db_ins_execution_event _ w := (Raise db_down, w);
  db_ins_intent _ w := (Ok tt, w);
  db_ins_transaction _ w := (Raise db_down, w);
  db_get_intent _ _ _ w := (Ok [], w);
  db_get_execution_event _ _ _ w := (Ok [], w);
  db_get_transaction _ _ _ w := (Ok [], w);
  db_get_strategy _ _ w :=
    (Ok [mkStrategyRow "user" None (VDict [("tm_interval_id", VInt 2)])], w);
  db_credential_check _ w := (Ok None, w);
  db_validate_schedule_status s w := (Ok s, w)
|}.

#[local] Instance two_catalogs : ReferenceData script := {|
  ref_app_id name w := (Ok (if String.eqb name "bybit" then Some 11 else None), w);
  ref_interval_period _ w := (Ok Intervals.HOUR, w);
  ref_execute_offset _ _ w := (Ok Intervals.MINUTE, w);
  ref_market_calendar _ w := (Ok (mkCalendar "" "UTC" None None), w);
  ref_interval_label i w := (Ok (str_Z i), w);
  ref_setting _ w := (Raise (RuntimeError "no setting"), w);
  ref_interval_ids w := (Ok [2], w)
|}.

#[local] Instance long_signal : ApplyEnv script := {|
  now_us w := (Ok 1700000000000000, w);
  utc_text w := (Ok "2023-11-14 22:13:20 UTC", w);
  decrypt_credential _ _ w := (Ok (Some ("key", "secret")), w);
  fetch_result_payload _ _ w := (Ok VNone, w);
  compute_latest_position _ _ _ w := (Ok (lit false 1 0, "2023-11-14 22:00:00"), w);
  post_webhook _ _ w := (Raise (RuntimeError "down"), w)
|}.

#[local] Instance script_clock : Clock script := instant_clock.

Definition hourly_row : DeploymentRow :=
  mkDeploymentRow "dep" 3 "user" "strat" 1 7 11 "BTC.crypto" (mkDecimal 1 (-3)) "N" "Y" ACTIVE
    (Some 2) None.

Definition filled_order : OrderResult :=
  mkOrderResult true (Some "9") "order filled" None (VStr "closed") (Some OBuy)
    (Some (lit false 1 (-3))) (Some (lit false 1 (-3))) (Some (lit false 30000 0)) None None.

(** A flat book and a venue that fills. *)
Definition filling_venue : script := mkScript [fzero] [Ok (Some filled_order)] [].

Definition one_broker : registry script := [(11, λ _ _ _ w, (Ok scripted_adapter, w))].

Definition noon (_ : string) : res exn Intervals.datetime := Ok (Intervals.Naive 0).

Lemma signal_source_agrees_witness :
  exchange_id_for_app 11 filling_venue = (Ok (Some "bybit"), filling_venue) ∧
  resolve_signal_source true 11 (Some 2) 2 "d" filling_venue =
  resolve_signal_source true 11 None 2 "d" filling_venue.
Proof.
  split; [reflexivity|].
  apply (signal_source_agrees true 11 (Some 2) 2 "d" filling_venue "bybit" filling_venue);
    [by right|reflexivity].
Defined.

Lemma apply_reports_outcome_witness :
  ∃ report w6,
    live_apply_run noon (cache_of [] []) one_broker true three_attempts (Some "url") "user"
      hourly_row "user" filling_venue = (Ok report, w6) ∧
    ar_order_success report = Some true ∧ ar_vendor_order_id report = Some "9".
Proof.
  destruct (prepare noon one_broker true "user" "user" hourly_row filling_venue) as [r w1] eqn:Hp.
  vm_compute in Hp. injection Hp as <- <-.
  edestruct (apply_reports_outcome noon (cache_of [] []) one_broker true three_attempts (Some "url")
    "user" hourly_row "user" filling_venue) as (w6 & Hr);
    [vm_compute; reflexivity|reflexivity|reflexivity|reflexivity|vm_compute; reflexivity| | |].
  - intros w. by do 2 eexists.
  - intros w. by do 2 eexists.
  - do 2 eexists. split; [exact Hr|]. by split.
Defined.
