(* ===== verification/Service.v ===== *)
(** * Deployments

    [quant/trade/service.py]: creating, changing, stopping and applying a
    deployment, over the repository, the reference data, the instrument cache
    and the venue's cached order sizes. *)
From S2P Require Import Prelude PyFloat PyData Order Errors PyValue Ccxt Instruments Intervals.
From S2P Require Import RefData CcxtAdapter Adapter OrderPolicy TradeRepo Schedule LiveApply.

(** What the service calls beyond its repositories: the cached venue rules
    ([RedisVenueLimits.get]), the clock and [uuid4]. *)
Class ServiceEnv (W : Type) := {
  cached_limits : Z → string → option string → prog W exn MarketLimits;
  service_now : prog W exn Z;
  uuid4 : prog W exn string
}.

(** [CreateDeploymentRequest] *)
Record CreateDeploymentRequest := mkCreate {
  cd_deployment_id : option string;
  cd_strategy_id : string;
  cd_strategy_vid : Z;
  cd_api_credential_id : Z;
  cd_app_id : Z;
  cd_internal_cusip : string;
  cd_qty : decimal;
  cd_paper : bool;
  cd_confirm_live : bool;
  cd_enabled : bool;
  cd_deployment_status : DeploymentStatus;
  cd_schedule_tm_interval_id : option Z
}.

Definition ind (b : bool) : string := if b then "Y" else "N".

Section service.
Context {W : Type} `{ServiceEnv W} `{TradeDb W} `{ReferenceData W}.
Variables (inst : InstrumentCache) (tz : string → zone).
(** [LiveApplyOrchestrator.run] *)
Variable live_apply : string → DeploymentRow → string → prog W exn ApplyReport.

(** [_venue_limits] *)
Definition venue_limits (app_id : Z) (cusip : string) : prog W exn MarketLimits :=
  match resolve_internal_cusip inst cusip app_id with
  | None => mret (no_limits cusip)
  | Some vendor_symbol =>
      p ← preset_for_app app_id;
      default_type ← match p with
                     | Some p => lift_res (instrument_default_type p inst cusip)
                     | None => mret None
                     end;
      cached_limits app_id vendor_symbol default_type
  end.

(** [_fitted_interval_id] *)
Definition strategy_interval (app_user sid : string) (vid : Z) : prog W exn Z :=
  row ← strategy_owned_by sid vid app_user;
  lift_res (fitted_interval_id (st_config_json row)).

(** [_listing_exchange] *)
Definition listing_exchange_of (cusip : string) : option string :=
  x ← get_product_by_cusip inst cusip ≫= listing_exchange;
  if has_id (Some x) then Some x else None.

(** [_require_tradable_qty] *)
Definition require_tradable_qty (app_id : Z) (cusip : string) (q : decimal) : prog W exn unit :=
  limits ← venue_limits app_id cusip;
  match undersized limits (float_of_decimal q) None with
  | Some text => raise (TradeValidationError text 400)
  | None => mret tt
  end.

Definition with_min_qty (d : DeploymentRow) (m : option float) : DeploymentRow :=
  mkDeploymentRow (deployment_id d) (deployment_vid d) (app_user_id d) (strategy_id d)
    (strategy_vid d) (api_credential_id d) (app_id d) (dep_cusip d) (qty d) (is_paper_ind d)
    (is_enabled_ind d) (deployment_status d) (schedule_tm_interval_id d) m.

(** [_row] *)
Definition service_row (raw : DeploymentRow) : prog W exn DeploymentRow :=
  limits ← venue_limits (app_id raw) (dep_cusip raw);
  mret (with_min_qty raw (min_qty limits)).

(** The first due time of a schedule, seeded now. *)
Definition seed_schedule (app_id : Z) (cusip : string) (interval : Z) : prog W exn Z :=
  moment ← service_now;
  compute_initial_scheduled_ts tz app_id interval (listing_exchange_of cusip) moment.

(** [create_deployment] *)
Definition create_deployment (app_user user_id : string) (req : CreateDeploymentRequest)
    : prog W exn DeploymentRow :=
  fitted ← strategy_interval app_user (cd_strategy_id req) (cd_strategy_vid req);
  _ ← require_fitted_interval (cd_schedule_tm_interval_id req) fitted;
  _ ← require_tradable_qty (cd_app_id req) (cd_internal_cusip req) (cd_qty req);
  id ← match cd_deployment_id req with Some i => mret i | None => uuid4 end;
  ts ← match cd_schedule_tm_interval_id req with
       | Some i => t ← seed_schedule (cd_app_id req) (cd_internal_cusip req) i; mret (Some t)
       | None => mret None
       end;
  row ← sp_ins_deployment
          (mkDeploymentWrite id app_user (cd_strategy_id req) (cd_strategy_vid req)
             (cd_api_credential_id req) (cd_app_id req) (cd_internal_cusip req) (cd_qty req)
             (ind (cd_paper req)) (ind (cd_enabled req)) (cd_deployment_status req) user_id
             (cd_schedule_tm_interval_id req) ts)
          (cd_confirm_live req);
  service_row row.

(** [schedule_options] *)
Definition schedule_options (app_user sid : string) (vid : Z) : prog W exn (list Z) :=
  i ← strategy_interval app_user sid vid; mret [i].

(** [get_deployment] *)
Definition get_deployment (app_user dep : string) : prog W exn DeploymentRow :=
  rows ← sp_get_deployment app_user (Some dep) None;
  match rows with
  | [] => raise (DeploymentNotFound dep)
  | r :: _ => service_row r
  end.

(** [list_deployments] *)
Definition list_deployments (app_user : string) : prog W exn (list DeploymentRow) :=
  rows ← sp_get_deployment app_user None None; for_each service_row rows.

(** The row a change to [current] writes: only what the arguments set differs. *)
Definition rewrite_row (app_user dep : string) (current : DeploymentRow) (q : decimal)
    (enabled : string) (status : DeploymentStatus) (schedule : option Z) (ts : option Z)
    : deployment_write :=
  mkDeploymentWrite dep app_user (strategy_id current) (strategy_vid current)
    (api_credential_id current) (app_id current) (dep_cusip current) q (is_paper_ind current)
    enabled status app_user schedule ts.

(** The status a change leaves: enabling a paused deployment resumes it. *)
Definition next_status (current : DeploymentRow) (req : UpdateDeploymentRequest)
    : DeploymentStatus :=
  let status := default (deployment_status current) (up_deployment_status req) in
  if bool_decide (up_enabled req = Some true) && bool_decide (up_deployment_status req = None)
     && bool_decide (status = PAUSED)
  then ACTIVE else status.

(** [update_deployment] *)
Definition update_deployment (app_user dep : string) (req : UpdateDeploymentRequest)
    : prog W exn DeploymentRow :=
  current ← get_deployment app_user dep;
  _ ← match up_schedule req with
      | Some wanted =>
          fitted ← strategy_interval app_user (strategy_id current) (strategy_vid current);
          require_fitted_interval wanted fitted
      | None => mret tt
      end;
  let schedule := default (schedule_tm_interval_id current) (up_schedule req) in
  q ← match up_qty req with
      | Some None => raise (TradeValidationError "qty must be greater than 0" 400)
      | Some (Some q) => _ ← require_tradable_qty (app_id current) (dep_cusip current) q; mret q
      | None => mret (qty current)
      end;
  ts ← match schedule with
       | Some i => if should_realign_schedule current req
                   then t ← seed_schedule (app_id current) (dep_cusip current) i; mret (Some t)
                   else mret None
       | None => mret None
       end;
  row ← write_deployment
          (rewrite_row app_user dep current q
             (match up_enabled req with Some e => ind e | None => is_enabled_ind current end)
             (next_status current req) schedule ts);
  service_row row.

(** [stop_deployment] *)
Definition stop_deployment (app_user dep : string) : prog W exn DeploymentRow :=
  current ← get_deployment app_user dep;
  if bool_decide (deployment_status current = STOPPED) then mret current
  else
    row ← write_deployment
            (rewrite_row app_user dep current (qty current) "N" STOPPED
               (schedule_tm_interval_id current) None);
    service_row row.

(** [apply_deployment] *)
Definition service_apply (app_user dep : string) : prog W exn ApplyReport :=
  d ← get_deployment app_user dep;
  if negb (String.eqb (is_enabled_ind d) "Y") then
    raise (TradeValidationError "deployment is disabled (kill switch)" 400)
  else live_apply app_user d app_user.

(** [list_execution_events], [list_transactions] *)
Definition list_execution_events (app_user : string) (dep : option string) (limit : Z)
    : prog W exn (list execution_event) :=
  _ ← match dep with Some d => _ ← get_deployment app_user d; mret tt | None => mret tt end;
  sp_get_execution_event app_user dep limit.

Definition list_transactions (app_user : string) (dep : option string) (limit : Z)
    : prog W exn (list transaction) :=
  _ ← match dep with Some d => _ ← get_deployment app_user d; mret tt | None => mret tt end;
  sp_get_transaction app_user dep limit.
End service.

(** ** Facts *)

Section service_facts.
Context {W : Type} `{ServiceEnv W} `{TradeDb W} `{ReferenceData W}.
Context (inst : InstrumentCache) (tz : string → zone).

(** A change of the kill switch alone seeds no schedule. *)
Lemma disable_realigns_nothing current :
  should_realign_schedule current (mkUpdate (Some false) None None None) = false.
Proof. done. Qed.

(** What a successful change of cadence has established. *)
Lemma schedule_gate app_user sid vid wanted w w' :
  (fitted ← strategy_interval app_user sid vid; require_fitted_interval wanted fitted) w = (Ok tt, w') →
  wanted = None ∨ ∃ fitted w1, strategy_interval app_user sid vid w = (Ok fitted, w1) ∧ wanted = Some fitted.
Proof.
  unfold mbind at 1, prog_bind at 1.
  destruct (strategy_interval app_user sid vid w) as [[fitted|] w1] eqn:Hs; [|done].
  intros [->| ->]%require_fitted_interval_ok; [by left|]. right. by exists fitted, w1.
Qed.

(** An instrument the venue's session cannot be pinned to makes its limits
    unreadable, and with them the row. *)
Lemma service_row_unmapped raw vendor p e w w1 :
  resolve_internal_cusip inst (dep_cusip raw) (app_id raw) = Some vendor →
  preset_for_app (app_id raw) w = (Ok (Some p), w1) →
  instrument_default_type p inst (dep_cusip raw) = Raise e →
  service_row inst raw w = (Raise e, w1).
Proof.
  intros Hr Hp Hd. unfold service_row, venue_limits. rewrite Hr.
  unfold mbind, prog_bind. rewrite Hp. unfold lift_res. by rewrite Hd.
Qed.

(** What the kill switch cannot reach: a deployment whose instrument the
    venue's preset has no market type for cannot be stopped, although stopping
    trades nothing.  Reading it derives its venue minimums, and that refusal ends
    the call before any write. *)
Theorem stop_blocked_by_issue_type app_user dep raw rows vendor p e w w0 w1 :
  sp_get_deployment app_user (Some dep) None w = (Ok (raw :: rows), w0) →
  resolve_internal_cusip inst (dep_cusip raw) (app_id raw) = Some vendor →
  preset_for_app (app_id raw) w0 = (Ok (Some p), w1) →
  instrument_default_type p inst (dep_cusip raw) = Raise e →
  stop_deployment inst app_user dep w = (Raise e, w1).
Proof.
  intros Hg Hr Hp Hd. unfold stop_deployment, get_deployment.
  apply bind_raise. rewrite (bind_ok _ _ _ _ _ Hg). by eapply service_row_unmapped.
Qed.
End service_facts.

(** C16. The kill switch: once the deployment can be read, disabling it writes
    it disabled with every other field the one it had (its paper or live mode,
    quantity, status and cadence among them) and passes no further gate; stopping
    writes it disabled and stopped and otherwise as it was, and is a no-op on a
    stopped one; and a disabled deployment is never handed to the live apply. *)
Theorem kill_switch {W} `{ServiceEnv W} `{TradeDb W} `{ReferenceData W} inst tz live app_user dep
    current w w1 :
  get_deployment inst app_user dep w = (Ok current, w1) →
  let write enabled status :=
    (row ← write_deployment
       {| dw_deployment_id := dep; dw_app_user_id := app_user;
          dw_strategy_id := strategy_id current;
          dw_strategy_vid := strategy_vid current;
          dw_api_credential_id := api_credential_id current;
          dw_app_id := app_id current; dw_internal_cusip := dep_cusip current;
          dw_qty := qty current; dw_is_paper_ind := is_paper_ind current;
          dw_is_enabled_ind := enabled; dw_deployment_status := status;
          dw_user_id := app_user;
          dw_schedule_tm_interval_id := schedule_tm_interval_id current;
          dw_initial_scheduled_ts := None |};
     service_row inst row) w1 in
  update_deployment inst tz app_user dep (mkUpdate (Some false) None None None) w =
    write "N" (deployment_status current) ∧
  stop_deployment inst app_user dep w =
    (if bool_decide (deployment_status current = STOPPED) then (Ok current, w1) else write "N" STOPPED) ∧
  (is_enabled_ind current ≠ "Y" →
   service_apply inst live app_user dep w =
     (Raise (TradeValidationError "deployment is disabled (kill switch)" 400), w1)).
Proof.
  intros Hg write. split_and!.
  - unfold update_deployment. rewrite (bind_ok _ _ _ _ _ Hg). cbn [up_schedule up_qty up_enabled].
    rewrite !mret_bind. unfold write. change (default ?x None) with x.
    by destruct (schedule_tm_interval_id current).
  - unfold stop_deployment. rewrite (bind_ok _ _ _ _ _ Hg). by case_bool_decide.
  - intros Hn. unfold service_apply. rewrite (bind_ok _ _ _ _ _ Hg).
    by rewrite (proj2 (String.eqb_neq _ _) Hn).
Qed.

(** A change writes what the request sets and nothing else: the row keeps
    every field the request omits, a cadence is only ever cleared or set to the
    one the strategy was fitted on, a quantity is never cleared, and the schedule
    is seeded anew exactly when a scheduled deployment is rescheduled, enabled or
    resumed. *)
Theorem update_writes_request {W} `{ServiceEnv W} `{TradeDb W} `{ReferenceData W} inst tz app_user
    dep req w row w' :
  update_deployment inst tz app_user dep req w = (Ok row, w') →
  ∃ current w1 q ts w2 raw w3,
    get_deployment inst app_user dep w = (Ok current, w1) ∧
    write_deployment
      {| dw_deployment_id := dep; dw_app_user_id := app_user;
         dw_strategy_id := strategy_id current;
         dw_strategy_vid := strategy_vid current;
         dw_api_credential_id := api_credential_id current;
         dw_app_id := app_id current; dw_internal_cusip := dep_cusip current;
         dw_qty := q; dw_is_paper_ind := is_paper_ind current;
         dw_is_enabled_ind := match up_enabled req with Some e => ind e | None => is_enabled_ind current end;
         dw_deployment_status := next_status current req; dw_user_id := app_user;
         dw_schedule_tm_interval_id := default (schedule_tm_interval_id current) (up_schedule req);
         dw_initial_scheduled_ts := ts |} w2
      = (Ok raw, w3) ∧
    match up_qty req with Some x => x = Some q | None => q = qty current end ∧
    (∀ i, up_schedule req = Some (Some i) →
       ∃ s, (strategy_interval app_user (strategy_id current) (strategy_vid current) s).1 = Ok i) ∧
    (is_Some ts ↔ should_realign_schedule current req = true ∧
       default (schedule_tm_interval_id current) (up_schedule req) ≠ None).
Proof.
  unfold update_deployment. intros Hu.
  destruct (get_deployment inst app_user dep w) as [[current|] w1] eqn:Hg;
    [rewrite (bind_ok _ _ _ _ _ Hg) in Hu|by rewrite (bind_raise _ _ _ _ _ Hg) in Hu].
  set (gate := match up_schedule req with Some _ => _ | None => _ end) in Hu.
  destruct (gate w1) as [[[]|] wa] eqn:Hgate;
    [rewrite (bind_ok _ _ _ _ _ Hgate) in Hu|by rewrite (bind_raise _ _ _ _ _ Hgate) in Hu].
  set (quantity := match up_qty req with Some _ => _ | None => _ end) in Hu.
  destruct (quantity wa) as [[q|] wb] eqn:Hq;
    [rewrite (bind_ok _ _ _ _ _ Hq) in Hu|by rewrite (bind_raise _ _ _ _ _ Hq) in Hu].
  set (schedule := default (schedule_tm_interval_id current) (up_schedule req)) in *.
  set (seed := match schedule with Some _ => _ | None => _ end) in Hu.
  destruct (seed wb) as [[ts|] wc] eqn:Hts;
    [rewrite (bind_ok _ _ _ _ _ Hts) in Hu|by rewrite (bind_raise _ _ _ _ _ Hts) in Hu].
  match type of Hu with (?m ≫= _) _ = _ => destruct (m wc) as [[raw|] wd] eqn:Hw;
    [|by rewrite (bind_raise _ _ _ _ _ Hw) in Hu] end.
  exists current, w1, q, ts, wc, raw, wd. split_and!; [done|done| | |].
  - subst quantity. destruct (up_qty req) as [[q'|]|]; [| done|by injection Hq].
    unfold mbind, prog_bind in Hq. destruct (require_tradable_qty _ _ _ _ wa) as [[[]|] ?]; [|done].
    by injection Hq as ->.
  - intros i Hi. subst gate. rewrite Hi in Hgate.
    destruct (schedule_gate _ _ _ _ _ _ Hgate) as [|(fitted & w4 & Hf & [= ->])]; [done|].
    exists w1. by rewrite Hf.
  - subst seed. fold schedule. clearbody schedule. destruct schedule as [i|].
    + destruct (should_realign_schedule current req).
      * unfold mbind, prog_bind in Hts. destruct (seed_schedule _ _ _ _ _ wb) as [[t|] ?]; [|done].
        injection Hts as <- _. split; [done|by eexists].
      * injection Hts as <- _. split; [by intros []|by intros []].
    + injection Hts as <- _. split; [by intros []|by intros []].
Qed.

(** ** One stored deployment *)

#[local] Existing Instance two_catalogs.

(** The database of one user with one hourly deployment; what was written last
    is the world. *)
#[local] Instance one_deployment : TradeDb script := {|
  db_ins_deployment _ w := (Ok tt, w);
  db_get_deployment _ _ _ w := (Ok [hourly_row], w);
  db_deployment_check := db_deployment_check (TradeDb := failing_diary);
  db_missed_due := db_missed_due (TradeDb := failing_diary);
  db_ins_schedule_status := db_ins_schedule_status (TradeDb := failing_diary);
  db_ins_execution_event := db_ins_execution_event (TradeDb := failing_diary);
  db_ins_intent := db_ins_intent (TradeDb := failing_diary);
  db_ins_transaction := db_ins_transaction (TradeDb := failing_diary);
  db_get_intent := db_get_intent (TradeDb := failing_diary);
  db_get_execution_event := db_get_execution_event (TradeDb := failing_diary);
  db_get_transaction := db_get_transaction (TradeDb := failing_diary);
  db_get_strategy := db_get_strategy (TradeDb := failing_diary);
  db_credential_check := db_credential_check (TradeDb := failing_diary);
  db_validate_schedule_status := db_validate_schedule_status (TradeDb := failing_diary)
|}.

#[local] Instance no_rules : ServiceEnv script := {|
  cached_limits _ s _ w := (Ok (no_limits s), w);
  service_now w := (Ok 1700000000000000, w);
  uuid4 w := (Ok "new", w)
|}.

Definition no_instruments : InstrumentCache := cache_of [] [].
Definition utc_zone (_ : string) : zone := mkZone id id.

Lemma kill_switch_witness :
  get_deployment no_instruments "user" "dep" filling_venue = (Ok hourly_row, filling_venue) ∧
  update_deployment no_instruments utc_zone "user" "dep" (mkUpdate (Some false) None None None) filling_venue
  = (row ← write_deployment
       {| dw_deployment_id := "dep"; dw_app_user_id := "user";
          dw_strategy_id := strategy_id hourly_row;
          dw_strategy_vid := strategy_vid hourly_row;
          dw_api_credential_id := api_credential_id hourly_row;
          dw_app_id := app_id hourly_row; dw_internal_cusip := dep_cusip hourly_row;
          dw_qty := qty hourly_row; dw_is_paper_ind := is_paper_ind hourly_row;
          dw_is_enabled_ind := "N";
          dw_deployment_status := deployment_status hourly_row; dw_user_id := "user";
          dw_schedule_tm_interval_id := schedule_tm_interval_id hourly_row;
          dw_initial_scheduled_ts := None |};
     service_row no_instruments row) filling_venue.
Proof.
  assert (get_deployment no_instruments "user" "dep" filling_venue = (Ok hourly_row, filling_venue))
    as Hg by (vm_compute; reflexivity).
  pose proof (kill_switch (W := script) no_instruments utc_zone) as Hk.
  specialize (Hk (λ _ _ _ w, (Raise db_down, w)) "user" "dep" hourly_row filling_venue filling_venue Hg).
  cbv zeta in Hk. split; [exact Hg|exact (proj1 Hk)].
Defined.

Definition rescale : UpdateDeploymentRequest :=
  mkUpdate None None (Some (Some 2)) (Some (Some (mkDecimal 5 (-3)))).

Lemma update_writes_request_witness :
  update_deployment no_instruments utc_zone "user" "dep" rescale filling_venue
    = (Ok hourly_row, filling_venue) ∧
  ∃ (current : DeploymentRow) (q : decimal), Some (mkDecimal 5 (-3)) = Some q.
Proof.
  assert (update_deployment no_instruments utc_zone "user" "dep" rescale filling_venue
          = (Ok hourly_row, filling_venue)) as Hu by (vm_compute; reflexivity).
  split; [exact Hu|].
  pose proof (update_writes_request (W := script) no_instruments utc_zone) as Hw.
  specialize (Hw "user" "dep" rescale filling_venue hourly_row filling_venue Hu).
  destruct Hw as (current & _ & q & _ & _ & _ & _ & _ & _ & Hq & _).
  exists current, q. exact Hq.
Defined.

(** An instrument the venue lists under an issue type its preset does not map. *)
Definition odd_instrument : InstrumentCache :=
  cache_of [mkProduct 1 "BTC.crypto" (Some "BOND") None None] [mkXref 1 11 "BTCUSDT"].

Lemma stop_blocked_by_issue_type_witness :
  ∃ e, exn_cls e = CTradeValidationError ∧
       stop_deployment odd_instrument "user" "dep" filling_venue = (Raise e, filling_venue).
Proof.
  eexists. split; cycle 1.
  - eapply (stop_blocked_by_issue_type (W := script) odd_instrument "user" "dep" hourly_row []);
      vm_compute; reflexivity.
  - reflexivity.
Defined.
