(* ===== verification/Scheduler.v ===== *)
(** * The schedule: tick, sweep and drain

    [quant/trade/scheduler/tick.py], [sweep.py] and [poller.py].  A tick applies
    every deployment due on one interval and moves or pauses its schedule; a
    sweep visits every interval; the poller's drain repeats the sweep until
    nothing moves. *)
From S2P Require Import Prelude PyFloat PyData Order Errors PyValue Adapter TradeRepo.

(** ** What the tick reads off an apply report

    The apply is injected, so the report is seen through [getattr]: each
    attribute is whatever value it holds, [VNone] when missing.  An
    [OrderRejectReason] is a [StrEnum] member, that is its text. *)
Record report := mkReport {
  rp_position_qty : pyval;
  rp_order_success : pyval;
  rp_message : option string;
  rp_reject_reason : pyval
}.

(** [_position_of] *)
Definition position_of (r : report) : res exn (option float) :=
  match rp_position_qty r with
  | VNone => mret None
  | qty => match float_val qty with
           | Ok f => mret (Some f)
           | Raise e => if isinstance e CTypeError || isinstance e CValueError
                        then mret None else Raise e
           end
  end.

(** [_reject_reason_of] *)
Definition reject_reason_of (r : report) : option OrderRejectReason :=
  match rp_reject_reason r with
  | VStr s => OrderRejectReason_of_value s
  | _ => None
  end.

(** [_reject_reason_of_exception] *)
Definition reject_reason_of_exception (e : exn) : option OrderRejectReason := exn_reason e.

Record OrderFailure := mkOrderFailure {
  of_message : string; of_reason : option OrderRejectReason
}.

(** [_failed_order] *)
Definition failed_order (r : report) : option OrderFailure :=
  match rp_order_success r with
  | VBool false =>
      Some (mkOrderFailure
        (match rp_message r with Some "" | None => "order failed" | Some m => m end)
        (reject_reason_of r))
  | _ => None
  end.

Inductive TickOutcome := T_APPLIED | T_PAUSED | T_ABANDONED | T_STUCK.

#[export] Instance TickOutcome_eq_dec : EqDecision TickOutcome.
Proof. solve_decision. Defined.

Record TickResult := mkTickResult {
  tr_deployment_id : string;
  tr_outcome : TickOutcome;
  tr_attempt : Z;
  tr_error : option string;
  tr_position_qty : option float
}.

Record TickReport := mkTickReport { tm_interval_id : Z; results : list TickResult }.

(** [TickReport.due] *)
Definition due (r : TickReport) : nat := length (results r).

(** The outcomes that moved a cursor. *)
Definition moved (o : TickOutcome) : bool :=
  match o with T_APPLIED | T_ABANDONED => true | T_PAUSED | T_STUCK => false end.

(** [TickReport.advanced] *)
Definition advanced (r : TickReport) : nat :=
  length (List.filter (λ t, moved (tr_outcome t)) (results r)).

(** What the tick calls: the injected apply, and three methods of the
    repository. *)
Class TickEnv (W : Type) := {
  apply_deployment : string → string → prog W exn report;
  missed_due : Z → prog W exn (list due_row);
  pause_write : deployment_write → prog W exn unit;
  schedule_write : schedule_status → prog W exn unit
}.

(** The row [_auto_pause] writes. *)
Definition paused_row (row : due_row) : deployment_write :=
  let d := due_deployment row in
  mkDeploymentWrite (deployment_id d) (app_user_id d) (strategy_id d) (strategy_vid d)
    (api_credential_id d) (app_id d) (dep_cusip d) (qty d) (is_paper_ind d) "N" PAUSED
    (due_user_id row) (schedule_tm_interval_id d) None.

(** The row [_advance] writes: the next interval, not a recomputed time. *)
Definition advanced_row (row : due_row) : schedule_status :=
  let d := due_deployment row in
  mkScheduleStatus (deployment_id d) (deployment_id d) (deployment_vid d) "PENDING"
    (Some (next_scheduled_ts row)) (due_user_id row).

Section tick.
Context {W : Type} `{TickEnv W} `{Clock W}.
Variables (max_attempts : Z) (retry_backoff_s : float).

(** [_advance] *)
Definition advance (row : due_row) (outcome : TickOutcome) (attempt : Z) (error : option string)
    (position_qty : option float) : prog W exn TickResult :=
  let id := deployment_id (due_deployment row) in
  try_else (schedule_write (advanced_row row))
    (λ _, mret (mkTickResult id outcome attempt error position_qty))
    (λ e, mret (mkTickResult id T_STUCK attempt (Some (exn_msg e)) position_qty)).

(** [_auto_pause] *)
Definition auto_pause (row : due_row) (attempt : Z) (error : string) : prog W exn TickResult :=
  try_else (pause_write (paused_row row))
    (λ _, mret (mkTickResult (deployment_id (due_deployment row)) T_PAUSED attempt (Some error) None))
    (λ e, advance row T_ABANDONED attempt
            (Some (error +:+ "; pause failed: " +:+ exn_msg e)) None).

(** The [for attempt in range(1, max_attempts + 1)] loop of [_run_one], [fuel]
    iterations left; [last] is the attempt and the error of the one before. *)
Fixpoint run_attempts (fuel : nat) (attempt : Z) (last : option (Z * string)) (row : due_row)
    : prog W exn TickResult :=
  match fuel with
  | O => match last with
         | Some (attempt, error) => auto_pause row attempt error
         | None => raise (UnboundLocalError
             "cannot access local variable 'attempt' where it is not associated with a value")
         end
  | S fuel' =>
      let d := due_deployment row in
      let failed error reason :=
        if match reason with Some r => requires_operator_fix r | None => false end then
          auto_pause row attempt error
        else
          _ ← (if attempt <? max_attempts then sleep retry_backoff_s else mret tt);
          run_attempts fuel' (attempt + 1) (Some (attempt, error)) row in
      try_else (apply_deployment (app_user_id d) (deployment_id d))
        (λ report,
          match failed_order report with
          | None => position ← lift_res (position_of report);
                    advance row T_APPLIED attempt None position
          | Some failure => failed (of_message failure) (of_reason failure)
          end)
        (λ e, failed (exn_msg e) (reject_reason_of_exception e))
  end.

(** [_run_one] *)
Definition run_one (row : due_row) : prog W exn TickResult :=
  run_attempts (Z.to_nat max_attempts) 1 None row.

(** [run_interval] *)
Definition run_interval (interval : Z) : prog W exn TickReport :=
  rows ← missed_due interval;
  rs ← for_each run_one rows;
  mret (mkTickReport interval rs).

(** ** [sweep.py] *)

(** [ScheduleSweeper.sweep] over the intervals REFDATA lists; a failed interval
    is skipped for this pass. *)
Fixpoint sweep_intervals (intervals : list Z) : prog W exn (list TickReport) :=
  match intervals with
  | [] => mret []
  | i :: intervals' =>
      here ← catch (r ← run_interval i; mret [r]) (λ _, mret []);
      rest ← sweep_intervals intervals';
      mret (here ++ rest)
  end.

Definition sweep (settle_s : float) (interval_ids : prog W exn (list Z))
    : prog W exn (list TickReport) :=
  _ ← (if ftruthy settle_s then sleep settle_s else mret tt);
  ids ← interval_ids;
  sweep_intervals ids.
End tick.

(** [ScheduleSweeper.has_stuck] *)
Definition has_stuck (reports : list TickReport) : bool :=
  existsb (λ r, existsb (λ t, bool_decide (tr_outcome t = T_STUCK)) (results r)) reports.

(** ** [poller.py] *)

Section poller.
Context {W : Type}.
(** [poll_once]: one sweep *)
Variable poll_once : prog W exn (list TickReport).

Definition total_advanced (reports : list TickReport) : nat :=
  sum_list (advanced <$> reports).

(** [SchedulePoller.drain], [passes] of its loop left. *)
Fixpoint drain_loop (passes : nat) (advanced_total : nat) : prog W exn nat :=
  match passes with
  | O => mret advanced_total
  | S passes' =>
      reports ← poll_once;
      if has_stuck reports then mret advanced_total
      else
        let n := total_advanced reports in
        if (n =? 0)%nat then mret advanced_total
        else drain_loop passes' (advanced_total + n)
  end.

Definition drain (max_drain_passes : Z) : prog W exn nat :=
  drain_loop (Z.to_nat max_drain_passes) 0.
End poller.

(** ** What one row's tick did *)

Inductive tick_event :=
| TApply (user dep : string) (r : res exn report)
| TPause (w : deployment_write) (r : res exn unit)
| TAdvance (s : schedule_status) (r : res exn unit)
| TSleep (t : float) (r : res exn unit).

Definition traced_env {W} (E : TickEnv W) : TickEnv (W * list tick_event) := {|
  apply_deployment u d := logged (TApply u d) (apply_deployment u d);
  missed_due i := λ s, let '(r, w) := missed_due i s.1 in (r, (w, s.2));
  pause_write w := logged (TPause w) (pause_write w);
  schedule_write s := logged (TAdvance s) (schedule_write s)
|}.

Definition tick_clock {W} (C : Clock W) : Clock (W * list tick_event) := {|
  sleep t := logged (TSleep t) (sleep t)
|}.

(** The failure an apply ended in: its message and the typed reason. *)
Definition apply_failure (answer : res exn report) : option (string * option OrderRejectReason) :=
  match answer with
  | Ok r => (λ f, (of_message f, of_reason f)) <$> failed_order r
  | Raise e => Some (exn_msg e, exn_reason e)
  end.

Definition needs_operator (reason : option OrderRejectReason) : bool :=
  match reason with Some r => requires_operator_fix r | None => false end.

(** A failure another attempt of the same pass may clear. *)
Definition retried_apply (answer : res exn report) : Prop :=
  ∃ m r, apply_failure answer = Some (m, r) ∧ needs_operator r = false.

(** Applies that failed, each followed by the backoff. *)
Definition retry_log (row : due_row) (backoff : float) (failed : list (res exn report))
    : list tick_event :=
  mjoin ((λ a, [TApply (app_user_id (due_deployment row)) (deployment_id (due_deployment row)) a;
                TSleep backoff (Ok tt)]) <$> failed).

(** The version an exhausted or refused row is written as: paused and
    disabled, and in everything else the deployment the row was due for; no
    schedule time is given. *)
Definition pauses (row : due_row) (w : deployment_write) : Prop :=
  let d := due_deployment row in
  dw_is_enabled_ind w = "N" ∧ dw_deployment_status w = PAUSED ∧
  dw_deployment_id w = deployment_id d ∧ dw_app_user_id w = app_user_id d ∧
  dw_strategy_id w = strategy_id d ∧ dw_strategy_vid w = strategy_vid d ∧
  dw_api_credential_id w = api_credential_id d ∧ dw_app_id w = app_id d ∧
  dw_internal_cusip w = dep_cusip d ∧ dw_qty w = qty d ∧ dw_is_paper_ind w = is_paper_ind d ∧
  dw_user_id w = due_user_id row ∧
  dw_schedule_tm_interval_id w = schedule_tm_interval_id d ∧ dw_initial_scheduled_ts w = None.

(** The row that moves the cursor: pending at the next time the due row names,
    under the schedule of this deployment's version. *)
Definition moves_cursor (row : due_row) (s : schedule_status) : Prop :=
  let d := due_deployment row in
  ss_status s = "PENDING" ∧ ss_scheduled_ts s = Some (next_scheduled_ts row) ∧
  ss_deployment_schedule_id s = deployment_id d ∧ ss_deployment_id s = deployment_id d ∧
  ss_deployment_vid s = deployment_vid d ∧ ss_user_id s = due_user_id row.

(** How the schedule was left once the pass was over: the writes made for this
    row after its last apply, and the outcome, error and position they amount
    to.  The first argument is the position after a success, or the error of the
    failure the pass ended with. *)
Inductive closed_with (row : due_row)
    : option float + string → list tick_event → TickOutcome → option string → option float → Prop :=
| closed_applied s p :
    moves_cursor row s → closed_with row (inl p) [TAdvance s (Ok tt)] T_APPLIED None p
| closed_stuck s p e :
    moves_cursor row s → closed_with row (inl p) [TAdvance s (Raise e)] T_STUCK (Some (exn_msg e)) p
| closed_paused w error :
    pauses row w → closed_with row (inr error) [TPause w (Ok tt)] T_PAUSED (Some error) None
| closed_abandoned w s error e :
    pauses row w → moves_cursor row s →
    closed_with row (inr error) [TPause w (Raise e); TAdvance s (Ok tt)] T_ABANDONED
      (Some (error +:+ "; pause failed: " +:+ exn_msg e)) None
| closed_wedged w s error e e' :
    pauses row w → moves_cursor row s →
    closed_with row (inr error) [TPause w (Raise e); TAdvance s (Raise e')] T_STUCK
      (Some (exn_msg e')) None.

(** What a last apply leaves to close the row with. *)
Definition ended (answer : res exn report) (last : option float + string) : Prop :=
  match apply_failure answer, last with
  | Some (m, _), inr error => error = m
  | None, inl p => match answer with Ok rep => position_of rep = Ok p | Raise _ => False end
  | _, _ => False
  end.

(** The whole pass over one row. *)
Definition ticked (max_attempts : Z) (backoff : float) (row : due_row) (t : TickResult)
    (tr : list tick_event) : Prop :=
  ∃ failed final last closing,
    tr = retry_log row backoff failed ++
         TApply (app_user_id (due_deployment row)) (deployment_id (due_deployment row)) final
         :: closing ∧
    Forall retried_apply failed ∧
    tr_attempt t = Z.of_nat (length failed) + 1 ∧ tr_attempt t <= max_attempts ∧
    tr_deployment_id t = deployment_id (due_deployment row) ∧
    ended final last ∧
    closed_with row last closing (tr_outcome t) (tr_error t) (tr_position_qty t) ∧
    (∀ m r, apply_failure final = Some (m, r) →
            needs_operator r = true ∨ tr_attempt t = max_attempts).

(** What escapes a pass: the clock's own exception, or a position too large for
    a float. *)
Definition tick_escapes (e : exn) (tr : list tick_event) : Prop :=
  ∃ before ev, tr = before ++ [ev] ∧
  match ev with
  | TSleep _ r => r = Raise e
  | TApply _ _ (Ok rep) => position_of rep = Raise e
  | _ => False
  end.

(** ** Facts *)

Lemma retry_log_snoc row b failed a :
  retry_log row b (failed ++ [a]) =
  retry_log row b failed ++
  [TApply (app_user_id (due_deployment row)) (deployment_id (due_deployment row)) a; TSleep b (Ok tt)].
Proof. unfold retry_log. by rewrite fmap_app, join_app. Qed.

Section tick_facts.
Context {W : Type} (E : TickEnv W) (C : Clock W) (max_attempts : Z) (backoff : float).
Implicit Types s : W * list tick_event.

Definition t_advance := @advance _ (traced_env E).
Definition t_auto_pause := @auto_pause _ (traced_env E).
Definition t_run_attempts := @run_attempts _ (traced_env E) (tick_clock C) max_attempts backoff.

Lemma advanced_row_moves row : moves_cursor row (advanced_row row).
Proof. done. Qed.

Lemma paused_row_pauses row : pauses row (paused_row row).
Proof. done. Qed.

#[local] Hint Resolve advanced_row_moves paused_row_pauses : core.

Lemma t_advance_spec row outcome attempt error pos R w tr :
  wp (t_advance row outcome attempt error pos)
     (λ t s, ∃ r, s.2 = tr ++ [TAdvance (advanced_row row) r] ∧ tr_attempt t = attempt ∧
        tr_deployment_id t = deployment_id (due_deployment row) ∧ tr_position_qty t = pos ∧
        tr_outcome t = match r with Ok _ => outcome | Raise _ => T_STUCK end ∧
        tr_error t = match r with Ok _ => error | Raise e => Some (exn_msg e) end) R (w, tr).
Proof.
  unfold t_advance, advance. apply wp_try_else, wp_logged.
  apply wp_intro; intros a w' _; apply wp_ret; eexists; by split_and!.
Qed.

Lemma t_auto_pause_spec row attempt error R w tr :
  wp (t_auto_pause row attempt error)
     (λ t s, ∃ closing, s.2 = tr ++ closing ∧ tr_attempt t = attempt ∧
        tr_deployment_id t = deployment_id (due_deployment row) ∧
        closed_with row (inr error) closing (tr_outcome t) (tr_error t) (tr_position_qty t)) R (w, tr).
Proof.
  unfold t_auto_pause, auto_pause. apply wp_try_else, wp_logged. apply wp_intro; intros a w' _.
  - apply wp_ret. destruct a. eexists. split_and!; try done. by constructor.
  - eapply wp_mono; [apply t_advance_spec| |intros ? ? H; exact H].
    intros t s (r & -> & Ha & Hd & Hp & Ho & He). eexists. rewrite <-app_assoc. split_and!; [done..|].
    rewrite Ho, He, Hp. destruct r as [[]|e]; by constructor.
Qed.

(** One more step of the loop, after [failed] attempts. *)
Lemma t_run_attempts_spec row fuel failed w :
  Z.of_nat fuel + Z.of_nat (length failed) = max_attempts → (0 < fuel)%nat →
  Forall retried_apply failed → ∀ last,
  wp (t_run_attempts fuel (Z.of_nat (length failed) + 1) last row)
     (λ t s, ticked max_attempts backoff row t s.2) (λ e s, tick_escapes e s.2)
     (w, retry_log row backoff failed).
Proof.
  revert failed w. induction fuel as [|fuel IH]; intros failed w Hn Hpos Hf last; [lia|].
  set (d := due_deployment row).
  assert (∀ answer m r w', apply_failure answer = Some (m, r) →
    wp (if needs_operator r then t_auto_pause row (Z.of_nat (length failed) + 1) m
        else _ ← (if Z.of_nat (length failed) + 1 <? max_attempts
                  then @sleep _ (tick_clock C) backoff else mret tt);
             t_run_attempts fuel (Z.of_nat (length failed) + 1 + 1)
               (Some (Z.of_nat (length failed) + 1, m)) row)
       (λ t s, ticked max_attempts backoff row t s.2) (λ e s, tick_escapes e s.2)
       (w', retry_log row backoff failed ++ [TApply (app_user_id d) (deployment_id d) answer]))
    as Hfail.
  { intros answer m r w' Ha.
    assert (needs_operator r = true ∨ Z.of_nat (length failed) + 1 = max_attempts →
      wp (t_auto_pause row (Z.of_nat (length failed) + 1) m)
       (λ t s, ticked max_attempts backoff row t s.2) (λ e s, tick_escapes e s.2)
       (w', retry_log row backoff failed ++ [TApply (app_user_id d) (deployment_id d) answer]))
      as Hpause.
    { intros Hwhy. eapply wp_mono; [apply t_auto_pause_spec| |intros ? ? Hx; exact Hx].
      intros t s (closing & Hs & Hatt & Hid & Hc). exists failed, answer, (inr m), closing.
      rewrite Hs, <-app_assoc, Hatt. unfold ended. rewrite Ha. split_and!; try done; [lia|]. by intros ? ? [= <- <-]. }
    destruct (needs_operator r) eqn:Hop; [by apply Hpause; left|].
    destruct (Z.ltb_spec (Z.of_nat (length failed) + 1) max_attempts).
    - apply wp_bind, wp_logged. apply wp_intro; intros u w2 _.
      + destruct u. rewrite <-app_assoc. simpl.
        replace (Z.of_nat (length failed) + 1 + 1) with (Z.of_nat (length (failed ++ [answer])) + 1)
          by (rewrite length_app; simpl; lia).
        pose proof (retry_log_snoc row backoff failed answer) as Hl. fold d in Hl. rewrite <-Hl.
        apply IH; [rewrite length_app; simpl; lia|lia|].
        apply Forall_app. split; [done|]. constructor; [by exists m, r|done].
      + do 2 eexists. by split.
    - apply wp_bind, wp_ret. destruct fuel; [|lia]. apply Hpause. right. lia. }
  unfold t_run_attempts. simpl. apply wp_try_else, wp_logged. fold d.
  apply wp_intro; intros a w' _.
  - destruct (failed_order a) as [fail|] eqn:Hfo.
    + apply (Hfail (Ok a) (of_message fail) (of_reason fail)). simpl. by rewrite Hfo.
    + apply wp_bind, wp_lift_res. destruct (position_of a) as [p|e] eqn:Hp.
      * eapply wp_mono; [apply t_advance_spec| |intros ? ? Hx; exact Hx].
        intros t s (r & Hs & Hatt & Hid & Hpos' & Ho & He).
        exists failed, (Ok a), (inl p), [TAdvance (advanced_row row) r].
        rewrite Hs, <-app_assoc, Hatt. unfold ended. simpl. rewrite Hfo.
        split_and!; try done; [lia|]. rewrite Ho, He, Hpos'. destruct r as [[]|e]; by constructor.
      * do 2 eexists. by split.
  - apply (Hfail (Raise a) (exn_msg a) (exn_reason a)). done.
Qed.
End tick_facts.

(** ** Properties *)

(** C15. One due deployment, for any apply, repository and venue, when at least
    one attempt is configured: the pass applies it at most [max_attempts] times,
    stopping at the first success or the first refusal only an operator can
    clear; a success writes the cursor at the row's next time, an exhausted
    budget writes the deployment paused and disabled and otherwise unchanged and
    leaves the cursor alone unless that write fails, and the outcome, error and
    position reported are exactly those of the writes that happened.  Nothing the
    apply or the repository raises escapes; what does is an exception of the
    clock, or a reported position that no float can hold. *)
Theorem run_one_spec {W} (E : TickEnv W) (C : Clock W) max_attempts backoff row w :
  1 <= max_attempts →
  wp (@run_one _ (traced_env E) (tick_clock C) max_attempts backoff row)
     (λ t s, ticked max_attempts backoff row t s.2) (λ e s, tick_escapes e s.2) (w, []).
Proof.
  intros Hmax. unfold run_one.
  apply (t_run_attempts_spec E C max_attempts backoff row (Z.to_nat max_attempts) [] w);
    simpl; [lia|lia|constructor].
Qed.

Section robust.
Context {W : Type} `{TickEnv W} `{Clock W}.
Variables (max_attempts : Z) (backoff : float).

Lemma advance_total row o a e p : total (advance row o a e p).
Proof.
  intros w. unfold advance, try_else. destruct (schedule_write _ w) as [[u|x] w']; by do 2 eexists.
Qed.

Lemma auto_pause_total row a e : total (auto_pause row a e).
Proof.
  intros w. unfold auto_pause, try_else. destruct (pause_write _ w) as [[u|x] w'];
    [by do 2 eexists|apply advance_total].
Qed.

(** Reports whose position is a number or unreadable, as [ApplyReport]'s is. *)
Definition readable_reports : Prop := ∀ u d w r w',
  apply_deployment u d w = (Ok r, w') → ∃ p, position_of r = Ok p.

Lemma run_attempts_total fuel attempt last row :
  (∀ t, total (sleep t)) → readable_reports → (fuel = 0%nat → last ≠ None) →
  total (run_attempts max_attempts backoff fuel attempt last row).
Proof.
  intros Hs Hr. revert attempt last. induction fuel as [|fuel IH]; intros attempt last Hl w; simpl.
  { destruct last as [[]|]; [apply auto_pause_total|by destruct Hl]. }
  assert (∀ m r w1, ∃ t w2,
    (if match r with Some r => requires_operator_fix r | None => false end
     then auto_pause row attempt m
     else _ ← (if attempt <? max_attempts then sleep backoff else mret tt);
          run_attempts max_attempts backoff fuel (attempt + 1) (Some (attempt, m)) row) w1
    = (Ok t, w2)) as Hf.
  { intros m r w1. destruct (match r with Some r => _ | None => _ end); [apply auto_pause_total|].
    unfold mbind, prog_bind. destruct (attempt <? max_attempts).
    - destruct (Hs backoff w1) as (u & w2 & ->). by apply IH.
    - by apply IH. }
  unfold try_else. destruct (apply_deployment _ _ w) as [[rep|e] w1] eqn:Ha; [|apply Hf].
  destruct (failed_order rep); [apply Hf|].
  destruct (Hr _ _ _ _ _ Ha) as [p Hp]. unfold mbind, prog_bind, lift_res. rewrite Hp.
  apply advance_total.
Qed.

Lemma run_one_total row : 1 <= max_attempts → (∀ t, total (sleep t)) → readable_reports →
  total (run_one max_attempts backoff row).
Proof. intros. apply run_attempts_total; try done. lia. Qed.

Lemma sweep_intervals_total intervals : total (sweep_intervals max_attempts backoff intervals).
Proof.
  induction intervals as [|i l IH]; intros w; simpl; [by do 2 eexists|].
  unfold mbind, prog_bind, catch, mret, prog_ret.
  destruct (run_interval max_attempts backoff i w) as [[r|e] w1];
    destruct (IH w1) as (rs & w2 & ->); by do 2 eexists.
Qed.
End robust.

(** A pass over an interval answers for every due row, in order, whatever
    happened to the others; and a sweep returns however its intervals fail. *)
Theorem tick_answers_every_row {W} `{TickEnv W} `{Clock W} max_attempts backoff i w rows w1 l :
  1 <= max_attempts → (∀ t, total (sleep t)) → readable_reports (W := W) →
  missed_due i w = (Ok rows, w1) →
  (∃ r w2, run_interval max_attempts backoff i w = (Ok r, w2) ∧ due r = length rows ∧
           tm_interval_id r = i) ∧
  total (sweep_intervals max_attempts backoff l).
Proof.
  intros Hm Hs Hr Hd. split; [|apply sweep_intervals_total].
  unfold run_interval, mbind, prog_bind. rewrite Hd.
  destruct (for_each_total (run_one max_attempts backoff) rows
    (λ row, run_one_total _ _ row Hm Hs Hr) w1) as (rs & w2 & Hrs). rewrite Hrs.
  do 2 eexists. split_and!; [done| |done]. by eapply for_each_length.
Qed.

(** What a sweep reported: a row left stuck, and the number of rows whose
    cursor moved. *)
Definition row_stuck (reports : list TickReport) : Prop :=
  ∃ r t, r ∈ reports ∧ t ∈ results r ∧ tr_outcome t = T_STUCK.

Definition rows_moved (reports : list TickReport) : nat :=
  length (filter (λ t, tr_outcome t = T_APPLIED ∨ tr_outcome t = T_ABANDONED) (reports ≫= results)).

Lemma has_stuck_row reports : has_stuck reports = true ↔ row_stuck reports.
Proof.
  unfold has_stuck, row_stuck. rewrite existsb_exists. split.
  - intros (r & Hr%list_elem_of_In & (t & Ht%list_elem_of_In & Hs%bool_decide_eq_true)%existsb_exists). eauto.
  - intros (r & t & Hr & Ht & Hs). exists r. rewrite list_elem_of_In in Hr. split; [done|].
    apply existsb_exists. exists t. rewrite list_elem_of_In in Ht. split; [done|]. by apply bool_decide_eq_true.
Qed.

Lemma no_stuck_row reports : has_stuck reports = false ↔ ¬ row_stuck reports.
Proof. rewrite <-has_stuck_row. by destruct (has_stuck reports). Qed.

Lemma total_advanced_rows reports : total_advanced reports = rows_moved reports.
Proof.
  unfold total_advanced, rows_moved. induction reports as [|r reports IH]; [done|].
  rewrite fmap_cons. cbn [mbind list_bind sum_list]. rewrite filter_app, length_app.
  change (mbind results reports) with (reports ≫= results) in *. simpl. rewrite IH. f_equal.
  unfold advanced. induction (results r) as [|t ts IHt]; [done|]. rewrite filter_cons. cbn [List.filter].
  case_decide; destruct (tr_outcome t); cbn [moved length]; rewrite ?IHt; try lia; naive_solver.
Qed.

(** A sweep that reports every advance it makes: [owed] is the number of
    intervals the schedules are behind. *)
Definition honest_sweep {W} (poll : prog W exn (list TickReport)) (owed : W → nat) : Prop :=
  ∀ w, ∃ reports w', poll w = (Ok reports, w') ∧ ¬ row_stuck reports ∧
       (rows_moved reports + owed w' = owed w)%nat ∧
       ((0 < owed w)%nat → (0 < rows_moved reports)%nat).

Lemma drain_loop_honest {W} (poll : prog W exn (list TickReport)) owed passes done_ w :
  honest_sweep poll owed → (owed w < passes)%nat →
  ∃ w', drain_loop poll passes done_ w = (Ok (done_ + owed w)%nat, w') ∧ owed w' = 0%nat.
Proof.
  intros Hh. revert done_ w. induction passes as [|passes IH]; intros done_ w Hlt; [lia|].
  destruct (Hh w) as (reports & w1 & Hp & Hstuck%no_stuck_row & Hadv & Hpos). simpl.
  unfold mbind, prog_bind. rewrite Hp, Hstuck, total_advanced_rows.
  destruct (Nat.eqb_spec (rows_moved reports) 0) as [Hz|Hz].
  - exists w1. replace (owed w) with 0%nat in * by lia. by rewrite Nat.add_0_r; split; [|lia].
  - destruct (IH (done_ + rows_moved reports)%nat w1) as (w2 & Hd & Ho); [lia|].
    exists w2. rewrite Hd. split; [|done]. do 2 f_equal. lia.
Qed.

(** A pass worth repeating: something moved and nothing is stuck. *)
Definition productive (reports : list TickReport) : Prop :=
  ¬ row_stuck reports ∧ (0 < rows_moved reports)%nat.

(** The passes a drain made, and what it returns for them. *)
Definition drained (passes start : nat) (log : list (res exn (list TickReport))) (total : nat)
    : Prop :=
  ∃ pre stop, log = (Ok <$> pre) ++ (Ok <$> stop) ∧ Forall productive pre ∧
    total = (start + sum_list (rows_moved <$> pre))%nat ∧
    match stop with
    | [] => length pre = passes
    | [r] => (length pre < passes)%nat ∧ (row_stuck r ∨ rows_moved r = 0%nat)
    | _ => False
    end.

(** A drain sweeps again only after a pass that moved a cursor and left
    none stuck, never more often than its ceiling, and returns the advances of
    those passes. *)
Lemma drain_loop_log {W} (poll : prog W exn (list TickReport)) passes start w tr :
  wp (drain_loop (logged id poll) passes start)
     (λ total s, ∃ log, s.2 = tr ++ log ∧ drained passes start log total)
     (λ e s, ∃ pre, s.2 = tr ++ (Ok <$> pre) ++ [Raise e] ∧ Forall productive pre ∧ (length pre < passes)%nat)
     (w, tr).
Proof.
  revert start w tr. induction passes as [|passes IH]; intros start w tr; simpl.
  { apply wp_ret. exists []. rewrite app_nil_r. split; [done|]. exists [], []. by split_and!. }
  apply wp_bind, wp_logged, wp_intro; intros r w1 _; [|exists []; split_and!; [done|constructor|simpl; lia]].
  assert (row_stuck r ∨ rows_moved r = 0%nat →
    ∃ log, tr ++ [id (Ok r)] = tr ++ log ∧ drained (S passes) start log start) as Hstop.
  { intros Hr. exists [Ok r]. split; [done|]. exists [], [r]. simpl. split_and!; try done; lia. }
  destruct (has_stuck r) eqn:Hs; [apply wp_ret, Hstop; left; by apply has_stuck_row|].
  apply no_stuck_row in Hs. rewrite total_advanced_rows.
  destruct (Nat.eqb_spec (rows_moved r) 0) as [Hz|Hz]; [by apply wp_ret, Hstop; right|].
  assert (productive r) as Hprod by (split; [done|lia]).
  eapply wp_mono; [apply IH| |].
  - intros total s (log & Hl & pre & stop & -> & Hpre & -> & Hend).
    exists (Ok r :: (Ok <$> pre) ++ (Ok <$> stop)). rewrite Hl, <-app_assoc. split; [done|].
    exists (r :: pre), stop. split_and!; [done|by constructor|rewrite fmap_cons; simpl; lia|].
    destruct stop as [|x [|]]; simpl; [lia| |done]. destruct Hend. split; [lia|done].
  - intros e s (pre & -> & Hpre & Hlen). exists (r :: pre). rewrite <-app_assoc.
    split_and!; [done|by constructor|simpl; lia].
Qed.


(** ** Concrete schedules *)

(** A backlog per deployment: a pass applies one interval of each that is
    behind. *)
Definition backlog_poll : prog (list nat) exn (list TickReport) := λ w,
  (Ok [mkTickReport 1
        ((λ _, mkTickResult "d" T_APPLIED 1 None None) <$> filter (λ n, n ≠ 0%nat) w)],
   pred <$> w).

Lemma backlog_honest : honest_sweep backlog_poll sum_list.
Proof.
  intros w. do 2 eexists. split; [done|]. rewrite <-no_stuck_row, <-total_advanced_rows.
  assert (∀ l : list nat, total_advanced [mkTickReport 1
    ((λ _, mkTickResult "d" T_APPLIED 1 None None) <$> filter (λ n, n ≠ 0%nat) l)]
    = length (filter (λ n, n ≠ 0%nat) l)) as Hl.
  { intros l. unfold total_advanced, advanced. simpl. rewrite Nat.add_0_r.
    induction (filter _ l) as [|x l' IH]; [done|]. rewrite fmap_cons. simpl. by rewrite IH. }
  rewrite Hl. split_and!.
  - simpl. rewrite orb_false_r. by induction (filter _ w).
  - induction w as [|n w IH]; [done|]. rewrite filter_cons, fmap_cons.
    destruct (decide (n ≠ 0%nat)); simpl length; simpl sum_list; lia.
  - induction w as [|n w IH]; simpl; [lia|]. rewrite filter_cons.
    destruct (decide (n ≠ 0%nat)); simpl; [lia|]. intros. apply IH. lia.
Qed.


(** A row whose venue refuses the size of its orders. *)
Definition some_row : due_row :=
  mkDueRow (mkDeploymentRow "dep" 3 "user" "strat" 1 7 11 "BTC.crypto" (mkDecimal 1 (-3))
              "N" "Y" ACTIVE (Some 2) None) "user" 1700003600000000.

Definition undersized_env : TickEnv nat := {|
  apply_deployment _ _ w :=
    (Ok (mkReport (VFloat fzero) (VBool false) (Some "qty too small") (VStr "SIZE_BELOW_MINIMUM")), S w);
  missed_due _ w := (Ok [some_row], w);
  pause_write _ w := (Ok tt, w);
  schedule_write _ w := (Ok tt, w)
|}.

Lemma run_one_spec_witness :
  let run := @run_one _ (traced_env undersized_env) (tick_clock instant_clock) 3 fzero some_row in
  1 <= 3 ∧
  wp run (λ t s, ticked 3 fzero some_row t s.2) (λ e s, tick_escapes e s.2) (0%nat, []) ∧
  (run (0%nat, [])).2.1 = 1%nat.
Proof.
  intros run. split; [lia|]. split; [|vm_compute; reflexivity].
  apply (run_one_spec undersized_env instant_clock 3 fzero some_row 0%nat). lia.
Defined.

Lemma tick_answers_every_row_witness :
  ∃ r w2, @run_interval _ undersized_env instant_clock 3 fzero 2 0%nat = (Ok r, w2) ∧ due r = 1%nat.
Proof.
  destruct (@tick_answers_every_row _ undersized_env instant_clock 3 fzero 2 0%nat [some_row] 0%nat [])
    as ((r & w2 & Hr & Hd & _) & _); [lia| | |reflexivity|].
  - intros t w. by do 2 eexists.
  - intros u d w r w'. intros [= <- _]. by eexists.
  - by exists r, w2.
Defined.
