(* ===== verification/Queue.v ===== *)
(** * The backtest queue

    [quant/queue/repo.py], [worker_loop.py], [wake.py] and
    [quant/api/services/jobs.py]: jobs are versioned rows, a long-lived loop
    claims and supervises them, and the API enqueues and cancels them.  The
    stored procedures, the subprocesses and Redis are parameters. *)
From S2P Require Import Prelude PyFloat PyData Order Errors PyValue.

(** ** [repo.py] *)

Record queue_row := mkQueueRow {
  qr_queue_id : string;
  qr_queue_vid : Z;
  qr_strategy_id : string;
  qr_strategy_vid : Z;
  qr_priority : Z;
  qr_user_id : string;
  qr_status_id : Z;
  qr_status : string;
  qr_transact_from_ts : Z;
  qr_error_text : option string
}.

(** The filters of [sp_get_queue]. *)
Record queue_filter := mkQueueFilter {
  qf_queue_id : option string;
  qf_status_id : option Z;
  qf_user_id : option string;
  qf_limit : Z
}.

(** The arguments of [sp_ins_queue]. *)
Record queue_write := mkQueueWrite {
  qw_queue_id : string;
  qw_strategy_id : string;
  qw_strategy_vid : Z;
  qw_status_id : Z;
  qw_priority : Z;
  qw_user_id : string;
  qw_error_text : option string
}.

Class QueueDb (W : Type) := {
  sp_get_queue : queue_filter → prog W exn (list queue_row);
  sp_ins_queue : queue_write → prog W exn unit;
  sp_ins_strategy : string → pyval → string → prog W exn (string * Z);
  sp_get_queued_count : string → Z → prog W exn Z;
  sp_get_result : option string → option (string * Z) → prog W exn (option pyval)
}.

(** The sort key's order: priority, then enqueue time. *)
Definition runs_before (a b : queue_row) : bool :=
  (qr_priority a <? qr_priority b) ||
  ((qr_priority a =? qr_priority b) && (qr_transact_from_ts a <=? qr_transact_from_ts b)).

(** [in_run_order] *)
Definition in_run_order (rows : list queue_row) : list queue_row := sorted_by runs_before rows.

Fixpoint position_in (qid : string) (i : Z) (rows : list queue_row) : Z :=
  match rows with
  | [] => 0
  | r :: rows' => if String.eqb (qr_queue_id r) qid then i else position_in qid (i + 1) rows'
  end.

(** The row a state change writes, the job's identity taken from its row. *)
Definition transition (r : queue_row) (status_id : Z) (error : option string) : queue_write :=
  mkQueueWrite (qr_queue_id r) (qr_strategy_id r) (qr_strategy_vid r) status_id (qr_priority r)
    (qr_user_id r) error.

Section repo.
Context {W : Type} `{QueueDb W}.

(** [list_for_user] *)
Definition list_for_user (user : string) (limit : Z) : prog W exn (list queue_row) :=
  sp_get_queue (mkQueueFilter None None (Some user) limit).

(** [queued_position] *)
Definition queued_position (qid : string) (queued_id : Z) : prog W exn Z :=
  rows ← sp_get_queue (mkQueueFilter None (Some queued_id) None 500);
  mret (position_in qid 1 (in_run_order rows)).

(** [get_active] *)
Definition get_active (qid : string) (user : option string) : prog W exn (option queue_row) :=
  rows ← sp_get_queue (mkQueueFilter (Some qid) None user 50);
  mret (last rows).

(** [fetch_result_payload]; [loads] is [json.loads] *)
Definition queue_result_payload (loads : string → res exn pyval) (sid : string) (vid : Z)
    : prog W exn pyval :=
  result ← sp_get_result None (Some (sid, vid));
  match result with
  | None => mret VNone
  | Some r =>
      if negb (truthy r) then mret VNone
      else
        p ← lift_res (get "payload_json" r);
        if negb (truthy p) then mret VNone
        else match p with VStr s => lift_res (loads s) | _ => mret p end
  end.

(** [WorkerLoopRepo.list_by_status] *)
Definition list_by_status (status_id : Z) : prog W exn (list queue_row) :=
  sp_get_queue (mkQueueFilter None (Some status_id) None 1000).

(** [WorkerLoopRepo.claim_next] *)
Definition claim_next (queued_id running_id : Z) : prog W exn (option queue_row) :=
  rows ← list_by_status queued_id;
  match in_run_order rows with
  | [] => mret None
  | row :: _ => _ ← sp_ins_queue (transition row running_id None); mret (Some row)
  end.

(** [WorkerLoopRepo.mark_terminal] *)
Definition mark_terminal (row : queue_row) (status_id : Z) (error : option string) : prog W exn unit :=
  sp_ins_queue (transition row status_id error).
End repo.

(** ** [worker_loop.py] *)

(** What the loop calls beyond the repository: subprocesses, the monotonic
    clock, the status catalog, the wake-up list, and whether a stop signal has
    arrived since the loop last looked at [_running] (its handler is [stop]). *)
Class LoopEnv (W P : Type) := {
  spawn : string → prog W exn P;
  poll : P → prog W exn (option Z);
  terminate : P → prog W exn unit;
  kill : P → prog W exn unit;
  wait : P → Z → prog W exn unit;
  monotonic : prog W exn float;
  status_id : string → prog W exn Z;
  pop_wake : Z → prog W exn bool;
  stop_signal : prog W exn bool
}.

(** The mutable fields of [WorkerLoop]: a child per claimed job, with its start
    and the row it was claimed from. *)
Record loop_state (P : Type) := mkLoop {
  active : list (string * (P * float * queue_row));
  running : bool
}.
Arguments mkLoop {P} _ _.
Arguments active {P} _.
Arguments running {P} _.

Definition CANCEL_GRACE_S : Z := 10.
Definition DRAIN_TIMEOUT_S : Z := 30.
Definition BLPOP_TIMEOUT_S : Z := 30.
Definition DEFAULT_JOB_TIMEOUT_S : Z := 6000.

Section loop.
Context {W P : Type} `{QueueDb W} `{LoopEnv W P}.
Variables (max_concurrent job_timeout_s : Z).

Abbreviation L := (loop_state P * W)%type.

Definition env {A} (m : prog W exn A) : prog L exn A := λ s,
  let '(r, w) := m s.2 in (r, (s.1, w)).
Definition get_active_children : prog L exn (list (string * (P * float * queue_row))) := λ s,
  (Ok (active s.1), s).
Definition set_active (a : list (string * (P * float * queue_row))) : prog L exn unit := λ s,
  (Ok tt, (mkLoop a (running s.1), s.2)).
Definition set_running (b : bool) : prog L exn unit := λ s, (Ok tt, (mkLoop (active s.1) b, s.2)).

(** [stop] *)
Definition stop : prog L exn unit := set_running false.

Definition read_running : prog L exn bool := λ s, (Ok (running s.1), s).

(** [self._running], after the handler of a pending signal has run *)
Definition get_running : prog L exn bool :=
  signalled ← env stop_signal;
  _ ← (if (signalled : bool) then stop else mret tt);
  read_running.

(** [self._active.pop(qid)] *)
Definition drop_child (qid : string) : prog L exn unit :=
  a ← get_active_children; set_active (dict_del qid a).

(** [recover_stale] *)
Fixpoint fail_rows (failed_id : Z) (rows : list queue_row) : prog L exn unit :=
  match rows with
  | [] => mret tt
  | r :: rows' =>
      _ ← env (mark_terminal r failed_id (Some "worker_loop restarted while job was running"));
      fail_rows failed_id rows'
  end.

Definition recover_stale : prog L exn Z :=
  running_id ← env (status_id "RUNNING");
  failed_id ← env (status_id "FAILED");
  rows ← env (list_by_status running_id);
  _ ← fail_rows failed_id rows;
  mret (Z.of_nat (length rows)).

(** The exit codes of the children that have ended. *)
Fixpoint finished_children (children : list (string * (P * float * queue_row)))
    : prog L exn (list (string * Z)) :=
  match children with
  | [] => mret []
  | (qid, (p, _, _)) :: children' =>
      code ← env (poll p);
      rest ← finished_children children';
      mret (match code with Some c => (qid, c) :: rest | None => rest end)
  end.

(** One finished child of [_reap_children]. *)
Definition reap_one (qid : string) (code : Z) : prog L exn unit :=
  _ ← drop_child qid;
  if code =? 0 then mret tt
  else
    latest ← env (get_active qid None);
    running_id ← env (status_id "RUNNING");
    match latest with
    | Some r =>
        if negb (qr_status_id r =? running_id) then mret tt
        else
          failed_id ← env (status_id "FAILED");
          env (mark_terminal r failed_id (Some ("worker crashed exit=" +:+ str_Z code)))
    | None => mret tt
    end.

Fixpoint reap_all (finished : list (string * Z)) : prog L exn unit :=
  match finished with
  | [] => mret tt
  | (qid, code) :: finished' => _ ← reap_one qid code; reap_all finished'
  end.

(** [_reap_children] *)
Definition reap_children : prog L exn unit :=
  children ← get_active_children;
  finished ← finished_children children;
  reap_all finished.

(** [proc.wait(timeout=t)], and whether it ran out *)
Definition wait_timeout (p : P) (t : Z) : prog L exn bool :=
  catch (_ ← env (wait p t); mret false) (λ e,
    if isinstance e CTimeoutExpired then mret true else raise e).

(** One child of [_enforce_timeouts]; [failed_id] is resolved at most once. *)
Definition expire_one (now : float) (failed_id : option Z) (qid : string) : prog L exn (option Z) :=
  children ← get_active_children;
  match dict_get qid children with
  | None => raise (KeyError qid)
  | Some (p, start, row) =>
      code ← env (poll p);
      match code with
      | Some _ => mret failed_id
      | None =>
          if fltb (fsub now start) (of_Z job_timeout_s) then mret failed_id
          else
            _ ← env (kill p);
            _ ← wait_timeout p 5;
            id ← match failed_id with Some i => mret i | None => env (status_id "FAILED") end;
            _ ← env (mark_terminal row id
                       (Some ("job exceeded " +:+ str_Z job_timeout_s +:+ "s timeout")));
            _ ← drop_child qid;
            mret (Some id)
      end
  end.

Fixpoint expire_all (now : float) (failed_id : option Z) (qids : list string) : prog L exn unit :=
  match qids with
  | [] => mret tt
  | q :: qids' => f ← expire_one now failed_id q; expire_all now f qids'
  end.

(** [_enforce_timeouts] *)
Definition enforce_timeouts : prog L exn unit :=
  now ← env monotonic;
  children ← get_active_children;
  expire_all now None children.*1.

(** [_stop_child] *)
Definition stop_child (p : P) : prog L exn unit :=
  _ ← env (terminate p);
  late ← wait_timeout p CANCEL_GRACE_S;
  if negb late then mret tt
  else _ ← env (kill p); _ ← wait_timeout p 5; mret tt.

(** One requested row of [_enforce_cancels]. *)
Definition cancel_one (cancelled_id : Z) (row : queue_row) : prog L exn unit :=
  children ← get_active_children;
  _ ← match dict_get (qr_queue_id row) children with
      | Some (p, _, _) => _ ← drop_child (qr_queue_id row); stop_child p
      | None => mret tt
      end;
  env (mark_terminal row cancelled_id None).

Fixpoint cancel_all (cancelled_id : Z) (rows : list queue_row) : prog L exn unit :=
  match rows with
  | [] => mret tt
  | r :: rows' => _ ← cancel_one cancelled_id r; cancel_all cancelled_id rows'
  end.

(** [_enforce_cancels] *)
Definition enforce_cancels : prog L exn unit :=
  requested_id ← env (status_id "CANCEL_REQUESTED");
  rows ← env (list_by_status requested_id);
  match rows with
  | [] => mret tt
  | _ => cancelled_id ← env (status_id "CANCELLED"); cancel_all cancelled_id rows
  end.

(** [_try_claim_and_spawn] *)
Definition try_claim_and_spawn : prog L exn bool :=
  queued_id ← env (status_id "QUEUED");
  running_id ← env (status_id "RUNNING");
  job ← env (claim_next queued_id running_id);
  match job with
  | None => mret false
  | Some row =>
      p ← env (spawn (qr_queue_id row));
      start ← env monotonic;
      a ← get_active_children;
      _ ← set_active (dict_set (qr_queue_id row) (p, start, row) a);
      mret true
  end.

(** The filling loop of [tick]: [None] when [fuel] iterations were not enough. *)
Fixpoint fill_capacity (fuel : nat) : prog L exn (option unit) :=
  match fuel with
  | O => mret None
  | S fuel' =>
      r ← get_running;
      a ← get_active_children;
      if r && (Z.of_nat (length a) <? max_concurrent) then
        more ← try_claim_and_spawn;
        if (more : bool) then fill_capacity fuel' else mret (Some tt)
      else mret (Some tt)
  end.

(** [tick] *)
Definition tick (fuel : nat) : prog L exn (option unit) :=
  _ ← reap_children;
  _ ← enforce_cancels;
  _ ← enforce_timeouts;
  fill_capacity fuel.

(** [_drain] *)
Fixpoint drain_children (children : list (string * (P * float * queue_row))) : prog L exn unit :=
  match children with
  | [] => mret tt
  | (_, (p, _, _)) :: children' =>
      late ← wait_timeout p DRAIN_TIMEOUT_S;
      _ ← (if (late : bool) then env (kill p) else mret tt);
      drain_children children'
  end.

Definition drain_loop_children : prog L exn unit :=
  a ← get_active_children; drain_children a.

(** [wait_for_wake] *)
Definition wait_for_wake (timeout : Z) : prog L exn bool :=
  catch (env (pop_wake timeout)) (λ e,
    if isinstance e CRedisError then mret false else raise e).

(** The loop of [run]: [None] when a stop did not arrive within [passes]. *)
Fixpoint run_passes (fuel passes : nat) : prog L exn (option unit) :=
  match passes with
  | O => mret None
  | S passes' =>
      r ← get_running;
      if negb r then mret (Some tt)
      else
        filled ← tick fuel;
        match filled with
        | None => mret None
        | Some _ =>
            r' ← get_running;
            if negb r' then mret (Some tt)
            else _ ← wait_for_wake BLPOP_TIMEOUT_S; run_passes fuel passes'
        end
  end.

(** [run] *)
Definition run (fuel passes : nat) : prog L exn (option unit) :=
  _ ← set_running true;
  _ ← recover_stale;
  stopped ← run_passes fuel passes;
  match stopped with
  | None => mret None
  | Some _ => _ ← drain_loop_children; mret (Some tt)
  end.
End loop.

(** ** [jobs.py] *)

(** What the service calls beyond the repository; [wake] is [publish_wake]'s
    push. *)
Class JobsEnv (W : Type) := {
  job_status : string → prog W exn Z;
  interval_name_of : Z → prog W exn string;
  max_queued_per_user : prog W exn Z;
  queue_priority : string → prog W exn Z;
  new_queue_id : prog W exn string;
  push_wake : prog W exn unit
}.

Record EnqueueRequest := mkEnqueue {
  eq_strategy_nm : string; eq_config_json : pyval; eq_priority : string
}.

Record EnqueueResponse := mkEnqueued { en_queue_id : string; en_queue_pos : Z }.

Definition RateLimitError (limit : Z) : exn :=
  plain CRateLimitError ("rate_limited: at most " +:+ str_Z limit +:+ " QUEUED jobs per user").

(** [_CANCEL_TARGET] *)
Definition CANCEL_TARGET : list (string * string) :=
  [("QUEUED", "CANCELLED"); ("RUNNING", "CANCEL_REQUESTED")].

(** Text before the first occurrence of [sep]. *)
Fixpoint before (sep s : string) : string :=
  if String.prefix sep s then ""
  else match s with
       | EmptyString => ""
       | String c s' => String c (before sep s')
       end.

Section jobs.
Context {W : Type} `{QueueDb W} `{JobsEnv W}.
(** [int(v)] of a configuration value *)
Variable int_of : pyval → res exn Z.

(** [publish_wake] *)
Definition publish_wake : prog W exn unit :=
  catch push_wake (λ e, if isinstance e CRedisError then mret tt else raise e).

(** [_assert_cadence_in_name] *)
Definition assert_cadence_in_name (req : EnqueueRequest) : prog W exn unit :=
  v ← lift_res (get "tm_interval_id" (eq_config_json req));
  match v with
  | VNone => raise (plain CStrategyNameMismatch
      ("config_json.tm_interval_id is required — it selects the bars " +:+
       "the run is fitted on, and the strategy name is built from it"))
  | _ =>
      i ← lift_res (int_of v);
      cadence ← interval_name_of i;
      if ends_with (":" +:+ cadence) (before " ← " (eq_strategy_nm req)) then mret tt
      else raise (plain CStrategyNameMismatch
        ("strategy_nm " +:+ repr_str (eq_strategy_nm req) +:+ " does not name its cadence " +:+
         repr_str cadence +:+ " — expected the traded leg to end ':" +:+ cadence +:+ "'. " +:+
         "A name and a config describing different series would fork " +:+
         "the lineage. Reload the page to pick up the current client"))
  end.

(** The per-user cap both submissions check. *)
Definition check_quota (user : string) (queued_id : Z) : prog W exn unit :=
  max_queued ← max_queued_per_user;
  n ← sp_get_queued_count user queued_id;
  if max_queued <=? n then raise (RateLimitError max_queued) else mret tt.

(** The row a submission writes, and where it stands. *)
Definition submit_job (w : queue_write) : prog W exn EnqueueResponse :=
  _ ← sp_ins_queue w;
  _ ← publish_wake;
  pos ← queued_position (qw_queue_id w) (qw_status_id w);
  mret (mkEnqueued (qw_queue_id w) pos).

(** [enqueue] *)
Definition enqueue (user : string) (req : EnqueueRequest) : prog W exn EnqueueResponse :=
  _ ← assert_cadence_in_name req;
  queued_id ← job_status "QUEUED";
  _ ← check_quota user queued_id;
  priority ← catch (queue_priority (eq_priority req)) (λ e,
    if isinstance e CRuntimeError then raise (plain CUnknownPriority (exn_msg e)) else raise e);
  s ← sp_ins_strategy (eq_strategy_nm req) (eq_config_json req) user;
  qid ← new_queue_id;
  submit_job (mkQueueWrite qid s.1 s.2 queued_id priority user None).

(** [get] *)
Definition get_job (user qid : string) : prog W exn (queue_row * option pyval) :=
  row ← get_active qid (Some user);
  match row with
  | None => raise (plain CJobNotFound qid)
  | Some r =>
      result ← sp_get_result (Some qid) None;
      match result with
      | None => mret (r, None)
      | Some v => p ← lift_res (get "payload_json" v); mret (r, Some p)
      end
  end.

(** [cancel] *)
Definition cancel (user qid : string) : prog W exn queue_row :=
  row ← get_active qid (Some user);
  match row with
  | None => raise (plain CJobNotFound qid)
  | Some r =>
      match dict_get (qr_status r) CANCEL_TARGET with
      | None => raise (plain CCancelNotAllowed
          ("job " +:+ qid +:+ " is in terminal state " +:+ repr_str (qr_status r)))
      | Some target_name =>
          target ← job_status target_name;
          _ ← sp_ins_queue (mkQueueWrite qid (qr_strategy_id r) (qr_strategy_vid r) target
                              (qr_priority r) user None);
          _ ← publish_wake;
          latest ← get_active qid (Some user);
          mret (default r latest)
      end
  end.

(** [reenqueue] *)
Definition reenqueue (user qid : string) : prog W exn EnqueueResponse :=
  row ← get_active qid (Some user);
  match row with
  | None => raise (plain CJobNotFound qid)
  | Some r =>
      if negb (existsb (String.eqb (qr_status r)) ["FAILED"; "CANCELLED"]) then
        raise (plain CReenqueueNotAllowed
          ("job " +:+ qid +:+ " cannot be re-enqueued from state " +:+ repr_str (qr_status r)))
      else
        queued_id ← job_status "QUEUED";
        _ ← check_quota user queued_id;
        new_id ← new_queue_id;
        submit_job (mkQueueWrite new_id (qr_strategy_id r) (qr_strategy_vid r) queued_id
                      (qr_priority r) user None)
  end.

(** [snapshot_status] *)
Definition snapshot_status (user qid : string)
    : prog W exn (option (string * Z * string * Z * option string)) :=
  row ← get_active qid (Some user);
  mret ((λ r, (qr_queue_id r, qr_queue_vid r, qr_status r, qr_status_id r, qr_error_text r))
          <$> row).
End jobs.

(** ** The run order *)

Lemma runs_before_total a b : runs_before a b = false → runs_before b a = true.
Proof. unfold runs_before. lia. Qed.

Lemma runs_before_trans a b c :
  runs_before a b = true → runs_before b c = true → runs_before a c = true.
Proof. unfold runs_before. lia. Qed.

Lemma runs_before_refl a : runs_before a a = true.
Proof. unfold runs_before. lia. Qed.

Lemma in_run_order_perm rows : in_run_order rows ≡ₚ rows.
Proof. apply sorted_by_perm. Qed.

Lemma in_run_order_sorted rows :
  StronglySorted (λ a b, runs_before a b = true) (in_run_order rows).
Proof. apply sorted_by_sorted; eauto using runs_before_total, runs_before_trans. Qed.

(** The position found is the index of the row, when ids are unique. *)
Lemma position_in_app qid i pre r rows :
  qr_queue_id r = qid → qid ∉ qr_queue_id <$> pre →
  position_in qid i (pre ++ r :: rows) = i + Z.of_nat (length pre).
Proof.
  intros Hr. revert i. induction pre as [|x pre IH]; intros i Hpre; simpl.
  - rewrite (proj2 (String.eqb_eq _ _) Hr). lia.
  - rewrite fmap_cons, not_elem_of_cons in Hpre. destruct Hpre as [Hx Hpre].
    destruct (String.eqb_spec (qr_queue_id x) qid) as [Heq|_]; [by subst|].
    rewrite IH by done. lia.
Qed.

(** The head of the queue.  When the table lists [rows] as QUEUED, [claim_next]
    finds no job exactly when there is none, and otherwise takes a listed job no
    listed job should run before, the one whose [queued_position] in that listing
    is 1, and its one write moves that job's own row to RUNNING. *)
Theorem claim_takes_first {W} `{QueueDb W} queued_id running_id w rows w1 :
  list_by_status queued_id w = (Ok rows, w1) →
  match claim_next queued_id running_id w with
  | (Ok None, w2) => rows = [] ∧ w2 = w1
  | (Ok (Some row), w2) =>
      row ∈ rows ∧ (∀ y, y ∈ rows → runs_before row y = true) ∧
      position_in (qr_queue_id row) 1 (in_run_order rows) = 1 ∧
      sp_ins_queue (transition row running_id None) w1 = (Ok tt, w2)
  | (Raise e, w2) =>
      ∃ row, row ∈ rows ∧ sp_ins_queue (transition row running_id None) w1 = (Raise e, w2)
  end.
Proof.
  intros Hrows. unfold claim_next. rewrite (bind_ok _ _ _ _ _ Hrows).
  pose proof (in_run_order_perm rows) as Hperm.
  destruct (in_run_order rows) as [|row rest] eqn:Hs; simpl.
  { split; [|done]. by apply Permutation_nil. }
  assert (row ∈ rows) as Hin by (rewrite <-Hperm; left).
  destruct (sp_ins_queue (transition row running_id None) w1) as [[[]|e] w2] eqn:Hw.
  - rewrite (bind_ok _ _ _ _ _ Hw). repeat split; try done.
    + intros y Hy. eapply sorted_by_head_least; eauto using runs_before_total, runs_before_trans, runs_before_refl.
    + by rewrite String.eqb_refl.
  - rewrite (bind_raise _ _ _ _ _ Hw). eauto.
Qed.

Lemma sorted_count_before {A} (R : A → A → bool) pre x post :
  StronglySorted (λ a b, R a b = true) (pre ++ x :: post) →
  (∀ y, y ∈ post → R y x = true → False) → R x x = true →
  length (filter (λ y, R y x = true) (pre ++ x :: post)) = S (length pre).
Proof.
  intros Hs Hpost Hx. rewrite filter_app, filter_cons_True, length_app by done. simpl.
  assert (filter (λ y, R y x = true) post = []) as ->.
  { clear Hs. induction post as [|y post IH]; [done|]. rewrite filter_cons_False.
    - apply IH. intros z Hz. apply Hpost. by right.
    - intros Hyx. by apply (Hpost y); [left|]. }
  assert (filter (λ y, R y x = true) pre = pre) as ->.
  { clear Hpost. induction pre as [|y pre IH]; [done|].
    simpl in Hs. inversion_clear Hs as [|? ? Hs' Hy].
    rewrite filter_cons_True; [by rewrite IH|].
    rewrite Forall_forall in Hy. apply Hy. rewrite elem_of_app, elem_of_cons. auto. }
  simpl. lia.
Qed.

(** The position a user is shown.  In any listing whose jobs have distinct
    ids and do not tie, the position of a listed job is the number of listed jobs
    that should run no later than it (itself included): 1-indexed, counting
    exactly lower priority numbers and then earlier enqueues. *)
Theorem queued_position_counts rows r :
  r ∈ rows → NoDup (qr_queue_id <$> rows) →
  (∀ y, y ∈ rows → runs_before y r = true → runs_before r y = true → y = r) →
  position_in (qr_queue_id r) 1 (in_run_order rows) =
  Z.of_nat (length (filter (λ y, runs_before y r = true) rows)).
Proof.
  intros Hr Hnd Htie. pose proof (in_run_order_perm rows) as Hperm.
  pose proof (in_run_order_sorted rows) as Hsort.
  rewrite <-Hperm in Hr. rewrite <-Hperm in Hnd.
  assert (length (filter (λ y, runs_before y r = true) rows) =
          length (filter (λ y, runs_before y r = true) (in_run_order rows))) as ->
    by (apply Permutation_length; by rewrite Hperm).
  assert (∀ y, y ∈ in_run_order rows → y ∈ rows) as Hsub by (intros y; by rewrite Hperm).
  clear Hperm. apply list_elem_of_split in Hr as (pre & post & Hl). rewrite Hl in *.
  rewrite fmap_app, fmap_cons, NoDup_app, NoDup_cons in Hnd.
  destruct Hnd as (_ & Hpre & Hpost & _).
  rewrite position_in_app; [|done|intros Hin; apply (Hpre _ Hin); left].
  rewrite (sorted_count_before runs_before); [lia|done| |apply runs_before_refl].
  intros y Hy Hyr. apply Hpost. apply list_elem_of_fmap. exists y. split; [|done].
  rewrite (Htie y); [done|apply Hsub; rewrite elem_of_app, elem_of_cons; auto|done|].
  assert (StronglySorted (λ a b, runs_before a b = true) (r :: post)) as Hs.
  { clear -Hsort. induction pre as [|z pre IH]; [done|]. apply IH. by inversion Hsort. }
  inversion_clear Hs as [|? ? ? HF]. rewrite Forall_forall in HF. auto.
Qed.

(** ** Capacity *)

(** What the loop relies on of the queue table, the status catalog and the
    processes.  A job is [waiting] while its current row is QUEUED and [started]
    once it was moved on; only a QUEUED write can take a started job back, which
    the loop never makes.  A process that has [ended] stays so and a poll of it
    answers its exit code. *)
Class QueueLaws (W P : Type) `{QueueDb W} `{LoopEnv W P} := {
  started : W → string → Prop;
  waiting : W → string → Prop;
  ended : W → P → Prop;
  code_of : string → Z;
  status_codes n w i w' : status_id n w = (Ok i, w') → i = code_of n;
  codes_differ n : n ∈ ["RUNNING"; "FAILED"; "CANCELLED"] → code_of n ≠ code_of "QUEUED";
  queued_listing_fresh w rows w' :
    sp_get_queue (mkQueueFilter None (Some (code_of "QUEUED")) None 1000) w = (Ok rows, w') →
    ∀ r, r ∈ rows → ¬ started w' (qr_queue_id r);
  queued_listing_complete w w' :
    sp_get_queue (mkQueueFilter None (Some (code_of "QUEUED")) None 1000) w = (Ok [], w') →
    ∀ q, ¬ waiting w' q;
  running_write_starts x w w' :
    sp_ins_queue x w = (Ok tt, w') → qw_status_id x = code_of "RUNNING" → started w' (qw_queue_id x);
  poll_ended p w r w' : ended w p → poll p w = (Ok r, w') → r ≠ None;
  poll_keeps_ended p p' : preserves (λ w, ended w p') (poll p);
  reads_keep f q : preserves (λ w, started w q) (sp_get_queue f);
  writes_keep x q : qw_status_id x ≠ code_of "QUEUED" → preserves (λ w, started w q) (sp_ins_queue x);
  spawn_keep i q : preserves (λ w, started w q) (spawn i);
  poll_keep p q : preserves (λ w, started w q) (poll p);
  terminate_keep p q : preserves (λ w, started w q) (terminate p);
  kill_keep p q : preserves (λ w, started w q) (kill p);
  wait_keep p t q : preserves (λ w, started w q) (wait p t);
  clock_keep q : preserves (λ w, started w q) monotonic;
  status_keep n q : preserves (λ w, started w q) (status_id n);
  signal_keep q : preserves (λ w, started w q) stop_signal
}.

(** What a program keeps, as its specification. *)
Lemma wp_keeps {S E A} (I : S → Prop) (m : prog S E A) Q R s :
  preserves I m → I s → (∀ a s', I s' → Q a s') → (∀ e s', I s' → R e s') → wp m Q R s.
Proof. intros Hm Hs HQ HR. specialize (Hm s Hs). unfold wp. destruct (m s) as [[a|e] s']; auto. Qed.

Lemma dict_set_fresh_length {K V} `{EqDecision K} (k : K) (v : V) d :
  dict_get k d = None → length (dict_set k v d) = S (length d).
Proof. induction d as [|[k' v'] d IH]; simpl; [done|]. case_decide; [done|]. simpl. auto. Qed.

Lemma elem_of_dict_set {K V} `{EqDecision K} (k : K) (v : V) d c :
  c ∈ dict_set k v d → c.1 = k ∨ c ∈ d.
Proof.
  induction d as [|[k' v'] d IH]; simpl; [by intros ->%list_elem_of_singleton; left|].
  case_decide; subst; rewrite !elem_of_cons; intros [->|Hc]; auto.
  destruct (IH Hc); auto.
Qed.

Lemma dict_get_None_elem {K V} `{EqDecision K} (k : K) (d : list (K * V)) :
  (∀ c, c ∈ d → c.1 ≠ k) → dict_get k d = None.
Proof.
  intros Hd. destruct (dict_get k d) as [v|] eqn:E; [|done].
  apply dict_get_Some_elem, Hd in E. done.
Qed.

Section capacity.
Context {W P : Type} `{QueueLaws W P}.
Variables (max_concurrent job_timeout_s : Z).

(** Every supervised job has been started, each under its own id, and [n] bounds
    their number. *)
Definition supervising (n : nat) (s : loop_state P * W) : Prop :=
  (∀ c, c ∈ active s.1 → started s.2 c.1) ∧ NoDup (active s.1).*1 ∧ (length (active s.1) ≤ n)%nat.

Section tending.
(** The children that are left of an earlier moment, the table then, and the jobs
    a child may have been added for. *)
Context (left : list (string * (P * float * queue_row))) (before : W) (added : string → Prop).

(** Since then children were only dropped, or added for such jobs. *)
Definition tended (s : loop_state P * W) : Prop :=
  (∀ c, c ∈ active s.1 → started s.2 c.1) ∧ NoDup (active s.1).*1 ∧
  (∀ c, c ∈ active s.1 → c ∈ left ∨ added c.1) ∧
  (∀ q, started before q → started s.2 q).

Definition tending (n : nat) (s : loop_state P * W) : Prop := tended s ∧ (length (active s.1) ≤ n)%nat.

Lemma tending_supervising n s : tending n s → supervising n s.
Proof. by intros [(? & ? & _) ?]. Qed.

Lemma tended_world l w w' : (∀ q, started w q → started w' q) → tended (l, w) → tended (l, w').
Proof. intros Hq (Hs & Hnd & Hc & Hb). split_and!; auto. Qed.

Lemma tending_env {A} (m : prog W exn A) n :
  (∀ q, preserves (λ w, started w q) m) → preserves (tending n) (env (P:=P) m).
Proof.
  intros Hm [l w] [Ht Hn]. unfold env. simpl. destruct (m w) as [r w'] eqn:Hw. simpl.
  split; [|done]. eapply tended_world; [|exact Ht]. intros q Hq. specialize (Hm q w Hq). by rewrite Hw in Hm.
Qed.

Lemma tending_drop q n : preserves (tending n) (drop_child (W:=W) (P:=P) q).
Proof.
  intros [[a b] w] [(Hs & Hnd & Hc & Hb) Hn]. simpl in *. split; [split_and!|]; simpl in *.
  - intros c Hin. apply Hs. exact (elem_of_dict_del _ _ _ Hin).
  - by apply NoDup_dict_del.
  - intros c Hin. apply Hc. exact (elem_of_dict_del _ _ _ Hin).
  - exact Hb.
  - pose proof (dict_del_length_le q a). lia.
Qed.

Lemma tending_children n : preserves (tending n) (get_active_children (W:=W) (P:=P)).
Proof. intros s Hs. exact Hs. Qed.

(** A status the loop resolves is the catalog's. *)
Lemma tending_status {A} name (f : Z → prog (loop_state P * W) exn A) n :
  preserves (tending n) (f (code_of name)) → preserves (tending n) (i ← env (status_id name); f i).
Proof.
  intros Hf s Hs. pose proof (tending_env (status_id name) n (status_keep name) s Hs) as Hk.
  unfold mbind, prog_bind. unfold env in *. destruct (status_id name s.2) as [[i|e] w'] eqn:E; [|exact Hk].
  apply status_codes in E as ->. by apply Hf.
Qed.

Lemma tending_mark r name e n : name ∈ ["RUNNING"; "FAILED"; "CANCELLED"] →
  preserves (tending n) (env (P:=P) (mark_terminal (W:=W) r (code_of name) e)).
Proof. intros Hn. apply tending_env. intros q'. apply writes_keep. by apply codes_differ. Qed.

#[local] Hint Resolve tending_env tending_drop tending_children
  reads_keep spawn_keep poll_keep terminate_keep kill_keep wait_keep clock_keep status_keep : preserves.

Ltac tend := repeat first
  [ solve [eauto with preserves nocore]
  | apply tending_mark; solve [set_solver]
  | apply tending_status
  | apply preserves_bind; [|intros ?]
  | apply preserves_catch; [|intros ?]
  | case_match ].

Lemma tending_get_active q u n : preserves (tending n) (env (P:=P) (get_active (W:=W) q u)).
Proof. apply tending_env. intros q'. unfold get_active. tend. Qed.
#[local] Hint Resolve tending_get_active : preserves.

Lemma tending_wait p t n : preserves (tending n) (wait_timeout (W:=W) (P:=P) p t).
Proof. unfold wait_timeout. tend. Qed.
#[local] Hint Resolve tending_wait : preserves.

Lemma tending_finished children n : preserves (tending n) (finished_children (W:=W) (P:=P) children).
Proof. induction children as [|[q [[p t] r]] cs IH]; simpl; tend. Qed.

(** [reap_one] after the child was dropped. *)
Lemma tending_crash q code n : preserves (tending n)
  (if code =? 0 then mret tt
   else
     latest ← env (W:=W) (P:=P) (get_active q None);
     running_id ← env (status_id "RUNNING");
     match latest with
     | Some r =>
         if negb (qr_status_id r =? running_id) then mret tt
         else
           failed_id ← env (status_id "FAILED");
           env (mark_terminal r failed_id (Some ("worker crashed exit=" +:+ str_Z code)))
     | None => mret tt
     end).
Proof. tend. Qed.

Lemma tending_reap_one q c n : preserves (tending n) (reap_one (W:=W) (P:=P) q c).
Proof. unfold reap_one. apply preserves_bind; [apply tending_drop|intros _; apply tending_crash]. Qed.

Lemma tending_reap_all l n : preserves (tending n) (reap_all (W:=W) (P:=P) l).
Proof. induction l as [|[q c] l IH]; simpl; [tend|]. apply preserves_bind; [apply tending_reap_one|done]. Qed.

Lemma tending_cancel_all rows n : preserves (tending n) (cancel_all (W:=W) (P:=P) (code_of "CANCELLED") rows).
Proof. induction rows as [|r rows IH]; simpl; unfold cancel_one, stop_child; tend. Qed.

Lemma tending_cancels n : preserves (tending n) (enforce_cancels (W:=W) (P:=P)).
Proof.
  unfold enforce_cancels, list_by_status. apply tending_status. apply preserves_bind; [tend|]. intros [|row rows]; [tend|].
  apply tending_status, tending_cancel_all.
Qed.

(** The FAILED identifier is resolved once and handed on. *)
Lemma tending_expire_one now failed_id qid n s : default (code_of "FAILED") failed_id = code_of "FAILED" → tending n s →
  wp (expire_one (W:=W) (P:=P) job_timeout_s now failed_id qid)
     (λ f s', default (code_of "FAILED") f = code_of "FAILED" ∧ tending n s') (λ _, tending n) s.
Proof.
  intros Hf Hs. unfold expire_one. rewrite wp_bind. unfold wp at 1. simpl.
  destruct (dict_get qid (active s.1)) as [[[p start] row]|]; [|by rewrite wp_raise].
  apply wp_bind, (wp_keeps (tending n)); [tend|done| |done]. intros code s1 Hs1.
  destruct code as [c|]; [by rewrite wp_ret|]. destruct (fltb _ _); [by rewrite wp_ret|].
  apply wp_bind, (wp_keeps (tending n)); [tend|done| |done]. intros [] s2 Hs2.
  apply wp_bind, (wp_keeps (tending n)); [tend|done| |done]. intros b s3 Hs3.
  apply wp_bind. eapply (wp_mono _ (λ i s', i = code_of "FAILED" ∧ tending n s') _ (λ _, tending n)); [| |done].
  { destruct failed_id as [i|]; [rewrite wp_ret; simpl in Hf; by subst|].
    pose proof (tending_env (status_id "FAILED") n (status_keep "FAILED") s3 Hs3) as Hk.
    unfold wp, env in *. destruct (status_id "FAILED" s3.2) as [[i|e] w'] eqn:E; [|done].
    by apply status_codes in E. }
  intros i s4 [-> Hs4].
  apply wp_bind, (wp_keeps (tending n)); [tend|done| |done]. intros [] s5 Hs5.
  apply wp_bind, (wp_keeps (tending n)); [tend|done| |done]. intros [] s6 Hs6. by rewrite wp_ret.
Qed.

Lemma tending_expire_all now failed_id qids n s : default (code_of "FAILED") failed_id = code_of "FAILED" → tending n s →
  wp (expire_all (W:=W) (P:=P) job_timeout_s now failed_id qids) (λ _, tending n) (λ _, tending n) s.
Proof.
  revert failed_id s. induction qids as [|q qids IH]; intros f s Hf Hs; simpl; [by rewrite wp_ret|].
  apply wp_bind. eapply wp_mono; [by apply tending_expire_one| |done]. intros f' s' [Hf' Hs']. by apply IH.
Qed.

Lemma tending_timeouts n s : tending n s →
  wp (enforce_timeouts (W:=W) (P:=P) job_timeout_s) (λ _, tending n) (λ _, tending n) s.
Proof.
  intros Hs. unfold enforce_timeouts.
  apply wp_bind, (wp_keeps (tending n)); [tend|done| |done]. intros now s1 Hs1.
  apply wp_bind. unfold wp at 1. simpl. by apply tending_expire_all.
Qed.

(** ** Claiming *)

(** The same children, in a table the loop went on with. *)
Definition same_children (s s' : loop_state P * W) : Prop := tended s' ∧ active s'.1 = active s.1.

(** One more child, or the same children and no job QUEUED. *)
Definition claimed (s : loop_state P * W) (more : bool) (s' : loop_state P * W) : Prop :=
  tended s' ∧
  if more then length (active s'.1) = S (length (active s.1))
  else active s'.1 = active s.1 ∧ ∀ q, ¬ waiting s'.2 q.

(** An environment call inside a claim: the children are untouched. *)
Lemma wp_env_claim {A} (m : prog W exn A) Q s0 s :
  (∀ q, preserves (λ w, started w q) m) → same_children s0 s →
  (∀ a w', m s.2 = (Ok a, w') → same_children s0 (s.1, w') → Q a (s.1, w')) →
  wp (env (P:=P) m) Q (λ _, same_children s0) s.
Proof.
  intros Hm [Hs Ha] HQ. unfold wp, env. destruct s as [l w]. simpl in *. destruct (m w) as [r w'] eqn:Hw.
  assert (same_children s0 (l, w')) as Hs'.
  { split; [|done]. eapply tended_world; [|exact Hs]. intros q Hq. specialize (Hm q w Hq). by rewrite Hw in Hm. }
  destruct r as [a|e]; [by apply HQ|done].
Qed.

Lemma claim_next_keeps queued_id q : preserves (λ w, started w q) (claim_next queued_id (code_of "RUNNING")).
Proof.
  unfold claim_next, list_by_status. apply preserves_bind; [apply reads_keep|].
  intros rows. destruct (in_run_order rows); [apply preserves_ret|].
  apply preserves_bind; [apply writes_keep, codes_differ; left|intros _; apply preserves_ret].
Qed.

Lemma claim_next_spec w :
  match claim_next (code_of "QUEUED") (code_of "RUNNING") w with
  | (Ok None, w') => ∀ q, ¬ waiting w' q
  | (Ok (Some r), w') =>
      started w' (qr_queue_id r) ∧
      ∃ w1, (∀ q, started w q → started w1 q) ∧ ¬ started w1 (qr_queue_id r)
  | _ => True
  end.
Proof.
  unfold claim_next, list_by_status.
  destruct (sp_get_queue (mkQueueFilter None (Some (code_of "QUEUED")) None 1000) w) as [[rows|e] w1] eqn:Hr;
    [rewrite (bind_ok _ _ _ _ _ Hr)|by rewrite (bind_raise _ _ _ _ _ Hr)].
  pose proof (in_run_order_perm rows) as Hperm.
  destruct (in_run_order rows) as [|r rest]; simpl.
  { apply Permutation_nil in Hperm as ->. by eapply queued_listing_complete. }
  destruct (sp_ins_queue (transition r (code_of "RUNNING") None) w1) as [[[]|e] w2] eqn:Hw;
    [rewrite (bind_ok _ _ _ _ _ Hw)|by rewrite (bind_raise _ _ _ _ _ Hw)].
  split; [by eapply running_write_starts in Hw|]. exists w1. split.
  - intros q Hq. pose proof (reads_keep (mkQueueFilter None (Some (code_of "QUEUED")) None 1000) q w Hq) as Hk. by rewrite Hr in Hk.
  - eapply queued_listing_fresh; [done|]. rewrite <-Hperm. left.
Qed.

Lemma try_claim_spec s :
  (∀ q, ¬ started before q → added q) → tended s →
  wp (try_claim_and_spawn (W:=W) (P:=P)) (claimed s) (λ _, same_children s) s.
Proof.
  intros Hadd Hs. unfold try_claim_and_spawn.
  apply wp_bind, wp_env_claim; [intros q; apply status_keep|done|]. intros qi w1 Hq%status_codes H1'. subst qi.
  apply wp_bind, wp_env_claim; [intros q; apply status_keep|done|]. simpl. intros ri w2 Hr%status_codes H2. subst ri.
  apply wp_bind, wp_env_claim; [intros q; apply claim_next_keeps|done|].
  simpl. intros job w3 Hjob H3. pose proof (claim_next_spec w2) as Hcl. rewrite Hjob in Hcl.
  destruct job as [row|]; [|rewrite wp_ret; split; [apply H3|by split]].
  destruct Hcl as (Hst & w' & Hk & Hfresh).
  apply wp_bind, wp_env_claim; [intros q; apply spawn_keep|done|]. simpl. intros p w4 Hp H4.
  apply wp_bind, wp_env_claim; [intros q; apply clock_keep|done|]. simpl. intros t w5 Ht [(H5 & Hnd & Hc & Hb) _].
  unfold wp. simpl in *. unfold claimed. simpl. split; [split_and!|]; simpl.
  - intros c Hin. apply elem_of_dict_set in Hin as [->|Hin]; [|by apply H5].
    pose proof (spawn_keep (qr_queue_id row) (qr_queue_id row) w3 Hst) as Hk4. rewrite Hp in Hk4.
    pose proof (clock_keep (qr_queue_id row) w4 Hk4) as Hk5. by rewrite Ht in Hk5.
  - by apply dict_set_nodup.
  - intros c Hin. apply elem_of_dict_set in Hin as [->|Hin]; [|by apply Hc].
    right. apply Hadd. intros Hbefore. by apply Hfresh, Hk, H2.
  - exact Hb.
  - apply dict_set_fresh_length, dict_get_None_elem. intros c Hin Heq.
    apply Hfresh. rewrite <-Heq. apply Hk. by apply (proj1 (proj1 H2)).
Qed.

Lemma get_running_spec s :
  tended s →
  wp (get_running (W:=W) (P:=P)) (λ r s', same_children s s' ∧ r = running s'.1)
    (λ _, same_children s) s.
Proof.
  intros Hs. unfold get_running. apply wp_bind, wp_env_claim; [intros q; apply signal_keep|done|].
  intros [|] w1 _ H1'; (split; [done|done]).
Qed.

(** Why filling stops: a stop was requested, capacity is reached, or no job is
    QUEUED. *)
Definition filled (s : loop_state P * W) : Prop :=
  running s.1 = false ∨ max_concurrent <= Z.of_nat (length (active s.1)) ∨ ∀ q, ¬ waiting s.2 q.

Lemma fill_capacity_spec fuel s :
  (∀ q, ¬ started before q → added q) → tending (Z.to_nat max_concurrent) s →
  (Z.to_nat max_concurrent - length (active s.1) < fuel)%nat →
  wp (fill_capacity (W:=W) (P:=P) max_concurrent fuel)
    (λ r s', tending (Z.to_nat max_concurrent) s' ∧ r = Some tt ∧ filled s')
    (λ _, tending (Z.to_nat max_concurrent)) s.
Proof.
  intros Hadd. revert s. induction fuel as [|fuel IH]; intros s [Hs Hn] Hf; [lia|].
  simpl. apply wp_bind. eapply wp_mono; [by apply get_running_spec| |].
  2: { intros e s1 [Hs1 Ha1]. split; [done|]. by rewrite Ha1. }
  intros r s1 [[Hs1 Ha1] Hr]. apply wp_bind. unfold wp at 1. simpl. rewrite Ha1 in *.
  destruct (r && _) eqn:Hgo.
  2: { rewrite wp_ret. split; [split; [done|by rewrite Ha1]|]. split; [done|].
       unfold filled. rewrite Ha1. subst r. destruct (running s1.1); [right; left; lia|by left]. }
  apply wp_bind. eapply wp_mono; [by apply try_claim_spec| |].
  - intros [] s2 [Hs2 Hl]; simpl in Hl; rewrite Ha1 in Hl; [apply IH; [split; [done|]|]; lia|].
    destruct Hl as [Ha2 Hw0]. rewrite wp_ret. split; [split; [done|]|split; [done|]].
    + by rewrite Ha2.
    + right. by right.
  - intros e s2 [Hs2 Ha2]. split; [done|]. by rewrite Ha2, Ha1.
Qed.
End tending.

(** ** Reaping *)

Lemma tending_start added s n : supervising n s → tending (active s.1) s.2 added n s.
Proof. intros (Hs & Hnd & Hn). split; [split_and!|]; auto. Qed.

(** Every child that had ended is polled as finished. *)
Lemma finished_children_polled children s :
  wp (finished_children (W:=W) (P:=P) children)
     (λ fin s', s'.1 = s.1 ∧ ∀ c, c ∈ children → ended s.2 c.2.1.1 → c.1 ∈ fin.*1) (λ _ _, True) s.
Proof.
  revert s. induction children as [|[q [[p t] row]] children IH]; intros s; simpl.
  { rewrite wp_ret. split; [done|]. by intros c ?%not_elem_of_nil. }
  apply wp_bind. unfold wp at 1, env. destruct (poll p s.2) as [[code|e] w1] eqn:Hp; [|done].
  apply wp_bind. eapply wp_mono; [apply IH| |done]. intros rest s2 [Hl Hrest]. rewrite wp_ret.
  assert (∀ c, c ∈ children → ended s.2 c.2.1.1 → c.1 ∈ rest.*1) as Hold.
  { intros c Hc He. apply (Hrest c Hc). simpl. pose proof (poll_keeps_ended p c.2.1.1 s.2 He) as Hk. by rewrite Hp in Hk. }
  simpl in Hl. destruct code as [code|]; (split; [done|]); intros c [->|Hc]%elem_of_cons He; simpl; auto.
  - left.
  - right. auto.
  - by destruct (poll_ended _ _ _ _ He Hp).
Qed.

(** A step that only drops children, from a child's removal on. *)
Lemma reap_one_drops q code s n : supervising n s →
  wp (reap_one (W:=W) (P:=P) q code)
     (λ _ s', supervising n s' ∧ ∀ c, c ∈ active s'.1 → c ∈ active s.1 ∧ c.1 ≠ q) (λ _ _, True) s.
Proof.
  intros Hsup. unfold reap_one, drop_child. rewrite !wp_bind. unfold wp at 1. simpl. unfold wp at 1. simpl.
  set (s1 := (mkLoop (dict_del q (active s.1)) (running s.1), s.2) : loop_state P * W).
  assert (supervising n s1 ∧ ∀ c, c ∈ active s1.1 → c ∈ active s.1 ∧ c.1 ≠ q) as [Hs1 Hdel].
  { destruct Hsup as (Hst & Hnd & Hn). unfold supervising, s1; simpl. split; [split_and!|].
    - intros c Hc. apply Hst. exact (elem_of_dict_del _ _ _ Hc).
    - by apply NoDup_dict_del.
    - pose proof (dict_del_length_le q (active s.1)). lia.
    - intros c Hc. split; [exact (elem_of_dict_del _ _ _ Hc)|]. intros <-.
      assert (c.1 ∉ (dict_del c.1 (active s.1)).*1) as Hno by by apply dict_get_key, dict_get_del.
      apply Hno, list_elem_of_fmap. by exists c. }
  pose proof (tending_start (λ _, False) s1 n Hs1) as Ht. clearbody s1.
  apply (wp_keeps (tending (active s1.1) s1.2 (λ _, False) n)); [apply tending_crash|exact Ht| |done].
  intros [] s2 Hs2. split; [by eapply tending_supervising|]. intros c Hc. apply Hdel.
  destruct Hs2 as [(_ & _ & Hleft & _) _]. by destruct (Hleft c Hc).
Qed.

Lemma reap_all_drops fin s n : supervising n s →
  wp (reap_all (W:=W) (P:=P) fin)
     (λ _ s', supervising n s' ∧ ∀ c, c ∈ active s'.1 → c ∈ active s.1 ∧ c.1 ∉ fin.*1) (λ _ _, True) s.
Proof.
  revert s. induction fin as [|[q code] fin IH]; intros s Hs; simpl.
  { rewrite wp_ret. split; [done|]. intros c Hc. split; [done|apply not_elem_of_nil]. }
  apply wp_bind. eapply wp_mono; [by apply reap_one_drops| |done]. intros [] s1 [Hs1 H1'].
  eapply wp_mono; [by apply IH| |done]. intros [] s2 [Hs2 H2]. split; [done|].
  intros c Hc. destruct (H2 c Hc) as [Hc1 Hn]. destruct (H1' c Hc1). split; [done|].
  by apply not_elem_of_cons.
Qed.

(** Reaping leaves no child that had ended. *)
Lemma reap_children_drops s n : supervising n s →
  wp (reap_children (W:=W) (P:=P))
     (λ _ s', ∀ c, c ∈ active s'.1 → c ∈ active s.1 ∧ ¬ ended s.2 c.2.1.1) (λ _ _, True) s.
Proof.
  intros Hs. unfold reap_children. apply wp_bind. unfold wp at 1. simpl.
  assert (wp (finished_children (W:=W) (P:=P) (active s.1))
    (λ fin s', supervising n s' ∧ s'.1 = s.1 ∧ ∀ c, c ∈ active s.1 → ended s.2 c.2.1.1 → c.1 ∈ fin.*1) (λ _ _, True) s) as Hfin.
  { pose proof (finished_children_polled (active s.1) s) as Hf.
    pose proof (tending_finished (active s.1) s.2 (λ _, False) (active s.1) n s (tending_start _ _ _ Hs)) as Hk.
    unfold wp in *. destruct (finished_children (active s.1) s) as [[fin|e] s1]; [|done].
    split; [by eapply tending_supervising|done]. }
  apply wp_bind. eapply wp_mono; [exact Hfin| |done]. intros fin s1 (Hs1 & Hl & Hended).
  eapply wp_mono; [by apply reap_all_drops| |done]. intros [] s2 [_ H2] c Hc.
  destruct (H2 c Hc) as [Hc1 Hn]. rewrite Hl in Hc1. split; [done|]. intros He. by apply Hn, Hended.
Qed.

(** C31. One tick.  If every supervised job has been started, each under its own
    id, and there are at most [max_concurrent] children, the same holds however the
    tick ends.  With fuel for one more claim than there are slots the filling loop
    never runs out.  A tick that returns supervises no child whose process had ended
    when it began, and left no slot unused while a job was QUEUED and no stop was
    requested. *)
Theorem tick_fills_capacity fuel s :
  supervising (Z.to_nat max_concurrent) s → (Z.to_nat max_concurrent < fuel)%nat →
  wp (tick (W:=W) (P:=P) max_concurrent job_timeout_s fuel)
    (λ r s', supervising (Z.to_nat max_concurrent) s' ∧ r = Some tt ∧ filled s' ∧
             ∀ c, c ∈ active s.1 → c ∈ active s'.1 → ¬ ended s.2 c.2.1.1)
    (λ _, supervising (Z.to_nat max_concurrent)) s.
Proof.
  intros Hs Hf. unfold tick. set (n := Z.to_nat max_concurrent) in *.
  set (fresh q := ¬ started s.2 q).
  assert (preserves (tending (active s.1) s.2 fresh n) (reap_children (W:=W) (P:=P))) as Hreap.
  { unfold reap_children. apply preserves_bind; [apply tending_children|]. intros a.
    apply preserves_bind; [apply tending_finished|]. intros l. apply tending_reap_all. }
  apply wp_bind. pose proof (Hreap s (tending_start fresh s n Hs)) as Hk. pose proof (reap_children_drops s n Hs) as Hdead.
  unfold wp at 1. unfold wp in Hdead. destruct (reap_children s) as [[[]|e] s1] eqn:E1;
    [|exact (tending_supervising _ _ _ _ _ Hk)].
  assert (tending (active s1.1) s.2 fresh n s1) as Hs1.
  { destruct Hk as [(Hst & Hnd & _ & Hb) Hn]. split; [split_and!|]; auto. }
  clear Hk. apply wp_bind, (wp_keeps (tending (active s1.1) s.2 fresh n)); [apply tending_cancels|exact Hs1| |].
  2: { intros e s' Hs'. exact (tending_supervising _ _ _ _ _ Hs'). }
  intros [] s2 Hs2. apply wp_bind. eapply wp_mono; [by apply tending_timeouts| |].
  2: { intros e s' Hs'. exact (tending_supervising _ _ _ _ _ Hs'). }
  intros [] s3 Hs3. eapply wp_mono; [apply (fill_capacity_spec (active s1.1) s.2 fresh); [by intros|exact Hs3|unfold n in *; lia]| |].
  2: { intros e s' Hs'. exact (tending_supervising _ _ _ _ _ Hs'). }
  intros r s4 (Hs4 & -> & Hfill). split_and!; [exact (tending_supervising _ _ _ _ _ Hs4)|done|done|].
  intros c Hc Hc4. destruct Hs4 as [(_ & _ & Hleft & _) _]. destruct (Hleft c Hc4) as [Hin|Hnew].
  - by apply (Hdead c Hin).
  - destruct Hs as [Hst _]. by destruct (Hnew (Hst c Hc)).
Qed.
End capacity.

(** ** What the loop writes, and when *)

(** The calls of a tick with their outcomes. *)
Inductive queue_event (P : Type) : Type :=
| QRead (f : queue_filter) (r : res exn (list queue_row))
| QWrote (x : queue_write) (r : res exn unit)
| QStatus (n : string) (r : res exn Z)
| QPolled (p : P) (r : res exn (option Z))
| QTerminated (p : P) (r : res exn unit)
| QKilled (p : P) (r : res exn unit)
| QWaited (p : P) (t : Z) (r : res exn unit)
| QCounted (u : string) (i : Z) (r : res exn Z)
| QCap (r : res exn Z)
| QOther (r : res exn unit).
Arguments QRead {P} _ _.
Arguments QWrote {P} _ _.
Arguments QStatus {P} _ _.
Arguments QPolled {P} _ _.
Arguments QTerminated {P} _ _.
Arguments QKilled {P} _ _.
Arguments QWaited {P} _ _ _.
Arguments QCounted {P} _ _ _.
Arguments QCap {P} _.
Arguments QOther {P} _.

Definition res_unit {A} (r : res exn A) : res exn unit :=
  match r with Ok _ => Ok tt | Raise e => Raise e end.

(** The exception a call raised. *)
Definition failure {P} (e : queue_event P) : option exn :=
  match e with
  | QRead _ (Raise x) | QWrote _ (Raise x) | QStatus _ (Raise x) | QPolled _ (Raise x)
  | QTerminated _ (Raise x) | QKilled _ (Raise x) | QWaited _ _ (Raise x) | QCounted _ _ (Raise x)
  | QCap (Raise x) | QOther (Raise x) => Some x
  | _ => None
  end.

Section traced.
Context {W P : Type} `{QueueDb W} `{LoopEnv W P}.

#[local] Instance traced_queue : QueueDb (W * list (queue_event P)) := {|
  sp_get_queue f := logged (QRead f) (sp_get_queue f);
  sp_ins_queue x := logged (QWrote x) (sp_ins_queue x);
  sp_ins_strategy n c u := logged (λ r, QOther (res_unit r)) (sp_ins_strategy n c u);
  sp_get_queued_count u i := logged (QCounted u i) (sp_get_queued_count u i);
  sp_get_result q s := logged (λ r, QOther (res_unit r)) (sp_get_result q s)
|}.

#[local] Instance traced_host : LoopEnv (W * list (queue_event P)) P := {|
  spawn i := logged (λ r, QOther (res_unit r)) (spawn i);
  poll p := logged (QPolled p) (poll p);
  terminate p := logged (QTerminated p) (terminate p);
  kill p := logged (QKilled p) (kill p);
  wait p t := logged (QWaited p t) (wait p t);
  monotonic := logged (λ r, QOther (res_unit r)) monotonic;
  status_id n := logged (QStatus n) (status_id n);
  pop_wake t := logged (λ r, QOther (res_unit r)) (pop_wake t);
  stop_signal := logged (λ r, QOther (res_unit r)) stop_signal
|}.

Definition traced_cancels : prog (loop_state P * (W * list (queue_event P))) exn unit :=
  enforce_cancels.
Definition traced_reap : prog (loop_state P * (W * list (queue_event P))) exn unit :=
  reap_children.

(** After [tr] came [evs], the last of them a call that raised [e]. *)
Definition broke (tr : list (queue_event P)) (e : exn)
    (s : loop_state P * (W * list (queue_event P))) : Prop :=
  ∃ evs ev, s.2.2 = tr ++ evs ++ [ev] ∧ failure ev = Some e.

Lemma broke_app tr evs e s : broke (tr ++ evs) e s → broke tr e s.
Proof. intros (evs' & ev & Hs & Hf). exists (evs ++ evs'), ev. by rewrite Hs, <-!app_assoc. Qed.

Lemma wp_broke {A} (m : prog (loop_state P * (W * list (queue_event P))) exn A) Q tr evs s :
  wp m Q (broke (tr ++ evs)) s → wp m Q (broke tr) s.
Proof. intros Hm. eapply wp_mono; [exact Hm|done|intros e s'; apply broke_app]. Qed.

(** One traced call: it returns and is logged, or its own exception ends the
    trace. *)
Lemma wp_env_traced {A} (f : res exn A → queue_event P) (m : prog W exn A) Q l w tr :
  (∀ e, failure (f (Raise e)) = Some e) →
  (∀ a w', m w = (Ok a, w') → Q a (l, (w', tr ++ [f (Ok a)]))) →
  wp (env (P:=P) (logged f m)) Q (broke tr) (l, (w, tr)).
Proof.
  intros Hf HQ. unfold wp, env, logged. simpl. destruct (m w) as [[a|e] w'] eqn:Hw; simpl.
  - by apply HQ.
  - exists [], (f (Raise e)). by split; [|apply Hf].
Qed.

(** The calls that stop a child: SIGTERM, the grace period, and SIGKILL when the
    child outlived it. *)
Inductive stopping (p : P) : list (queue_event P) → Prop :=
| stopped_in_time : stopping p [QTerminated p (Ok tt); QWaited p CANCEL_GRACE_S (Ok tt)]
| stopped_late e r :
    isinstance e CTimeoutExpired = true →
    match r with Ok _ => True | Raise e' => isinstance e' CTimeoutExpired = true end →
    stopping p [QTerminated p (Ok tt); QWaited p CANCEL_GRACE_S (Raise e);
                QKilled p (Ok tt); QWaited p 5 r].

Lemma wait_timeout_spec p t l w tr :
  wp (wait_timeout p t)
    (λ late s', ∃ r w', s' = (l, (w', tr ++ [QWaited p t r])) ∧
       match r with Ok _ => late = false
       | Raise e => late = true ∧ isinstance e CTimeoutExpired = true end)
    (broke tr) (l, (w, tr)).
Proof.
  unfold wait_timeout. apply wp_catch, wp_bind. unfold wp at 1, env. simpl. unfold logged. simpl.
  destruct (wait p t w) as [[[]|e] w']; simpl.
  - rewrite wp_ret. by exists (Ok tt), w'.
  - destruct (isinstance e CTimeoutExpired) eqn:He.
    + rewrite wp_ret. by exists (Raise e), w'.
    + rewrite wp_raise. by exists [], (QWaited p t (Raise e)).
Qed.

Lemma stop_child_spec p l w tr :
  wp (stop_child p) (λ _ s', ∃ evs w', s' = (l, (w', tr ++ evs)) ∧ stopping p evs)
    (broke tr) (l, (w, tr)).
Proof.
  unfold stop_child. apply wp_bind, wp_env_traced; [done|]. intros [] w1 _.
  apply wp_bind. apply (wp_broke _ _ tr [QTerminated p (Ok tt)]).
  eapply wp_mono; [apply wait_timeout_spec| |done].
  intros late s' (r & w2 & -> & Hr). destruct r as [[]|e].
  - subst late. change (if negb false then _ else _) with (mret (M:=prog (loop_state P * (W * list (queue_event P))) exn) tt).
    rewrite wp_ret. eexists _, w2. rewrite <-app_assoc. split; [done|constructor].
  - destruct Hr as [-> He]. simpl. rewrite <-app_assoc. simpl.
    apply (wp_broke _ _ tr [QTerminated p (Ok tt); QWaited p CANCEL_GRACE_S (Raise e)]).
    apply wp_bind, wp_env_traced; [done|]. intros [] w3 _.
    apply wp_bind. eapply wp_broke, wp_mono; [apply wait_timeout_spec| |done].
    intros late s' (r & w4 & -> & Hr). rewrite wp_ret. eexists _, w4. rewrite <-!app_assoc.
    split; [done|]. apply stopped_late; [done|]. destruct r; [done|by destruct Hr].
Qed.
(** [cancelled cid children rows evs children']: [evs] honours the requests [rows]
    in order, each child stopped before its row is written. *)
Inductive cancelled (cid : Z) :
  list (string * (P * float * queue_row)) → list queue_row → list (queue_event P) →
  list (string * (P * float * queue_row)) → Prop :=
| cancelled_nil c : cancelled cid c [] [] c
| cancelled_idle c r rows evs c' :
    dict_get (qr_queue_id r) c = None → cancelled cid c rows evs c' →
    cancelled cid c (r :: rows) (QWrote (transition r cid None) (Ok tt) :: evs) c'
| cancelled_child c r rows p t row stop evs c' :
    dict_get (qr_queue_id r) c = Some (p, t, row) → stopping p stop →
    cancelled cid (dict_del (qr_queue_id r) c) rows evs c' →
    cancelled cid c (r :: rows) (stop ++ QWrote (transition r cid None) (Ok tt) :: evs) c'.

Lemma cancelled_gone cid c rows evs c' :
  cancelled cid c rows evs c' → NoDup c.*1 →
  (∀ q, dict_get q c = None → dict_get q c' = None) ∧
  ∀ r, r ∈ rows → dict_get (qr_queue_id r) c' = None.
Proof.
  induction 1 as [|c r rows evs c' Hidle Hc IH|c r rows p t row stop evs c' Hg Hs Hc IH]; intros Hnd.
  - split; [done|]. by intros r ?%not_elem_of_nil.
  - destruct (IH Hnd) as [IH1 IH2]. split; [done|]. intros r' [->|Hr']%elem_of_cons; auto.
  - destruct IH as [IH1 IH2]; [by apply NoDup_dict_del|]. split.
    + intros q Hq. apply IH1. destruct (decide (q = qr_queue_id r)) as [->|Hne];
        [by apply dict_get_del|by rewrite dict_get_del_ne].
    + intros r' [->|Hr']%elem_of_cons; [by apply IH1, dict_get_del|auto].
Qed.

Lemma wp_get_children {Q R} (l : loop_state P) (s : W * list (queue_event P)) :
  Q (active l) (l, s) → wp get_active_children Q R (l, s).
Proof. done. Qed.

Lemma cancel_all_spec cid rows l w tr :
  wp (cancel_all cid rows)
    (λ _ s', ∃ evs c' w', s' = (mkLoop c' (running l), (w', tr ++ evs)) ∧
                          cancelled cid (active l) rows evs c')
    (broke tr) (l, (w, tr)).
Proof.
  revert l w tr. induction rows as [|r rows IH]; intros l w tr; simpl.
  { rewrite wp_ret. exists [], (active l), w. rewrite app_nil_r. split; [by destruct l|constructor]. }
  apply wp_bind. unfold cancel_one. apply wp_bind, wp_get_children.
  destruct (dict_get (qr_queue_id r) (active l)) as [[[p t] row]|] eqn:Hg; apply wp_bind.
  - apply wp_bind. unfold wp at 1. simpl.
    eapply wp_mono; [apply stop_child_spec| |done]. intros _ s' (stop & w1 & -> & Hstop).
    eapply wp_broke. apply wp_env_traced; [done|]. intros [] w2 _.
    eapply wp_mono; [apply IH| |intros e s'; rewrite <-app_assoc; apply broke_app]. intros _ s' (evs & c' & w3 & -> & Hc). simpl in *.
    eexists _, c', w3. rewrite <-!app_assoc. split; [done|]. by eapply cancelled_child.
  - rewrite wp_ret. apply wp_env_traced; [done|]. intros [] w2 _.
    eapply wp_broke, wp_mono; [apply IH| |done]. intros _ s' (evs & c' & w3 & -> & Hc). simpl in *.
    eexists _, c', w3. rewrite <-!app_assoc. split; [done|]. by constructor.
Qed.

(** Honouring cancellations.  Unless a call it makes raises (then that call is
    the last of the tick's step), the step reads the CANCEL_REQUESTED rows, and for
    each in order stops the job's child, by SIGTERM and after the grace period by
    SIGKILL, before it writes the row CANCELLED; a request without a child is
    written outright.  Afterwards no requested job is supervised. *)
Theorem enforce_cancels_spec l w tr :
  wp traced_cancels
    (λ _ s', ∃ req rows evs c' w',
       s' = (mkLoop c' (running l),
             (w', tr ++ QStatus "CANCEL_REQUESTED" (Ok req)
                     :: QRead (mkQueueFilter None (Some req) None 1000) (Ok rows) :: evs)) ∧
       match rows with
       | [] => evs = [] ∧ c' = active l
       | _ => ∃ cid evs', evs = QStatus "CANCELLED" (Ok cid) :: evs' ∧
                          cancelled cid (active l) rows evs' c'
       end ∧
       (NoDup (active l).*1 → ∀ r, r ∈ rows → dict_get (qr_queue_id r) c' = None))
    (broke tr) (l, (w, tr)).
Proof.
  unfold traced_cancels, enforce_cancels, list_by_status.
  apply wp_bind, wp_env_traced; [done|]. intros req w1 _.
  apply wp_broke with (evs := [QStatus "CANCEL_REQUESTED" (Ok req)]).
  apply wp_bind, wp_env_traced; [done|]. intros rows w2 _.
  destruct rows as [|r rows].
  { rewrite wp_ret. exists req, [], [], (active l), w2. rewrite <-app_assoc.
    split; [by destruct l|]. split; [done|].
    by intros _ r ?%not_elem_of_nil. }
  eapply wp_broke, wp_bind, wp_env_traced; [done|]. intros cid w3 _.
  eapply wp_broke, wp_mono; [apply cancel_all_spec| |done].
  intros _ s' (evs & c' & w4 & -> & Hc). exists req, (r :: rows), (QStatus "CANCELLED" (Ok cid) :: evs), c', w4.
  split; [by rewrite <-!app_assoc|]. split; [by eexists _, _|].
  intros Hnd. by apply (cancelled_gone _ _ _ _ _ Hc).
Qed.
(** What handling one finished child does: nothing on exit 0; otherwise its row
    is read again, and only a row still RUNNING is failed. *)
Inductive reaped (q : string) (code : Z) : list (queue_event P) → Prop :=
| reaped_clean : code = 0 → reaped q code []
| reaped_settled rows rid :
    code ≠ 0 → (∀ r, last rows = Some r → qr_status_id r ≠ rid) →
    reaped q code [QRead (mkQueueFilter (Some q) None None 50) (Ok rows);
                   QStatus "RUNNING" (Ok rid)]
| reaped_crashed rows r rid fid :
    code ≠ 0 → last rows = Some r → qr_status_id r = rid →
    reaped q code [QRead (mkQueueFilter (Some q) None None 50) (Ok rows);
                   QStatus "RUNNING" (Ok rid); QStatus "FAILED" (Ok fid);
                   QWrote (transition r fid (Some ("worker crashed exit=" +:+ str_Z code))) (Ok tt)].

Lemma reap_one_spec q code l w tr :
  wp (reap_one q code)
    (λ _ s', ∃ evs w', s' = (mkLoop (dict_del q (active l)) (running l), (w', tr ++ evs)) ∧
                       reaped q code evs)
    (broke tr) (l, (w, tr)).
Proof.
  unfold reap_one. apply wp_bind. unfold wp at 1. simpl.
  destruct (Z.eqb_spec code 0) as [->|Hc].
  { rewrite wp_ret. exists [], w. rewrite app_nil_r. by split; [|constructor]. }
  apply wp_bind. unfold get_active.
  unfold wp at 1, env, mbind, prog_bind. simpl. unfold logged. simpl.
  destruct (sp_get_queue _ w) as [[rows|e] w1]; simpl; [|by eexists [], _].
  eapply wp_broke, wp_bind, wp_env_traced; [done|]. intros rid w2 _.
  destruct (last rows) as [r|] eqn:Hl.
  2: { rewrite wp_ret. eexists _, w2. rewrite <-app_assoc. split; [done|].
       apply reaped_settled; [done|]. by rewrite Hl. }
  destruct (Z.eqb_spec (qr_status_id r) rid) as [Hr|Hr]; simpl.
  2: { rewrite wp_ret. eexists _, w2. rewrite <-app_assoc. split; [done|].
       apply reaped_settled; [done|]. rewrite Hl. by intros ? [= <-]. }
  eapply wp_broke, wp_bind, wp_env_traced; [done|]. intros fid w3 _.
  eapply wp_broke, wp_env_traced; [done|]. intros [] w4 _.
  eexists _, w4. rewrite <-!app_assoc. split; [done|]. by eapply reaped_crashed.
Qed.

Lemma reap_all_spec finished l w tr :
  wp (reap_all finished)
    (λ _ s', ∃ evss w', s' = (mkLoop (foldl (λ c f, dict_del f.1 c) (active l) finished) (running l),
                              (w', tr ++ concat evss)) ∧
                        Forall2 (λ f evs, reaped f.1 f.2 evs) finished evss)
    (broke tr) (l, (w, tr)).
Proof.
  revert l w tr. induction finished as [|[q code] fs IH]; intros l w tr; simpl.
  { rewrite wp_ret. exists [], w. rewrite app_nil_r. split; [by destruct l|constructor]. }
  apply wp_bind. eapply wp_mono; [apply reap_one_spec| |done].
  intros _ s' (evs & w1 & -> & Hr).
  eapply wp_broke, wp_mono; [apply IH| |done]. intros _ s' (evss & w2 & -> & Hall).
  exists (evs :: evss), w2. simpl. rewrite app_assoc. split; [done|]. by constructor.
Qed.

(** The ids and codes of the children a round of polls found finished. *)
Fixpoint found_finished (children : list (string * (P * float * queue_row)))
    (codes : list (option Z)) : list (string * Z) :=
  match children, codes with
  | (q, _) :: children', Some c :: codes' => (q, c) :: found_finished children' codes'
  | _ :: children', None :: codes' => found_finished children' codes'
  | _, _ => []
  end.

Definition polls (children : list (string * (P * float * queue_row))) (codes : list (option Z))
    : list (queue_event P) :=
  zip_with (λ c code, QPolled c.2.1.1 (Ok code)) children codes.

Lemma finished_children_spec children l w tr :
  wp (finished_children children)
    (λ fs s', ∃ codes w', s' = (l, (w', tr ++ polls children codes)) ∧
                          length codes = length children ∧ fs = found_finished children codes)
    (broke tr) (l, (w, tr)).
Proof.
  revert w tr. induction children as [|[q [[p t] r]] cs IH]; intros w tr; simpl.
  { rewrite wp_ret. exists [], w. by rewrite app_nil_r. }
  apply wp_bind, wp_env_traced; [done|]. intros code w1 _.
  eapply wp_broke, wp_bind, wp_mono; [apply IH| |done]. intros fs s' (codes & w2 & -> & Hl & ->).
  rewrite wp_ret. exists (code :: codes), w2. simpl. rewrite Hl, <-app_assoc.
  split; [done|]. split; [done|]. by destruct code.
Qed.

(** Reaping.  The step polls every child once and drops exactly those with an
    exit code.  A child that crashed has its row read again, and a row is failed
    only if that reading found it RUNNING, so a terminal row a worker wrote before
    crashing is never replaced.  A raising call ends the step. *)
Theorem reap_children_spec l w tr :
  wp traced_reap
    (λ _ s', ∃ codes evss w',
       let finished := found_finished (active l) codes in
       length codes = length (active l) ∧
       s' = (mkLoop (foldl (λ c f, dict_del f.1 c) (active l) finished) (running l),
             (w', tr ++ polls (active l) codes ++ concat evss)) ∧
       Forall2 (λ f evs, reaped f.1 f.2 evs) finished evss)
    (broke tr) (l, (w, tr)).
Proof.
  unfold traced_reap, reap_children. apply wp_bind, wp_get_children, wp_bind.
  eapply wp_mono; [apply finished_children_spec| |done].
  intros fs s' (codes & w1 & -> & Hl & ->).
  eapply wp_broke, wp_mono; [apply reap_all_spec| |done].
  intros _ s' (evss & w2 & -> & Hall). exists codes, evss, w2. by rewrite app_assoc.
Qed.
End traced.

(** ** What a user's commands write *)

(** The rows a run of calls wrote. *)
Definition written {P} (evs : list (queue_event P)) : list queue_write :=
  omap (λ e, match e with QWrote x _ => Some x | _ => None end) evs.

Section commands.
Context {W : Type} `{QueueDb W} `{JobsEnv W}.

#[local] Existing Instance traced_queue.

#[local] Instance traced_jobs : JobsEnv (W * list (queue_event unit)) := {|
  job_status n := logged (QStatus n) (job_status n);
  interval_name_of i := logged (λ r, QOther (res_unit r)) (interval_name_of i);
  max_queued_per_user := logged QCap max_queued_per_user;
  queue_priority n := logged (λ r, QOther (res_unit r)) (queue_priority n);
  new_queue_id := logged (λ r, QOther (res_unit r)) new_queue_id;
  push_wake := logged QOther push_wake
|}.

Abbreviation T := (W * list (queue_event unit))%type.

Definition traced_cancel (user qid : string) : prog T exn queue_row := cancel user qid.
Definition traced_reenqueue (user qid : string) : prog T exn EnqueueResponse :=
  reenqueue user qid.

(** Calls that write nothing. *)
Definition silent {A} (m : prog T exn A) : Prop :=
  ∀ w tr, wp m (λ _ s, ∃ evs, s.2 = tr ++ evs ∧ written evs = [])
               (λ _ s, ∃ evs, s.2 = tr ++ evs ∧ written evs = []) (w, tr).

Lemma silent_logged {A} (f : res exn A → queue_event unit) (m : prog W exn A) :
  (∀ r, written [f r] = []) → silent (logged f m).
Proof.
  intros Hf w tr. apply wp_logged, wp_intro; intros; (eexists; split; [done|apply Hf]).
Qed.

Lemma written_app {P} (l1 l2 : list (queue_event P)) : written (l1 ++ l2) = written l1 ++ written l2.
Proof. apply omap_app. Qed.

(** The log of a cancellation: at most one row, the job's own, written after the
    user's reading of the job found it QUEUED or RUNNING. *)
Definition cancel_log (user qid : string) (tr : list (queue_event unit)) (s : T) : Prop :=
  ∃ evs, s.2 = tr ++ evs ∧
    (written evs = [] ∨
     ∃ rows row name target rest,
       evs = QRead (mkQueueFilter (Some qid) None (Some user) 50) (Ok rows)
             :: QStatus name (Ok target) :: rest ∧
       last rows = Some row ∧
       (qr_status row = "QUEUED" ∧ name = "CANCELLED" ∨
        qr_status row = "RUNNING" ∧ name = "CANCEL_REQUESTED") ∧
       written evs = [mkQueueWrite qid (qr_strategy_id row) (qr_strategy_vid row) target
                        (qr_priority row) user None]).

(** The log of a re-submission: at most one row, under a new id, written after the
    reading found the job FAILED or CANCELLED and the user below the cap. *)
Definition reenqueue_log (user qid : string) (tr : list (queue_event unit)) (s : T) : Prop :=
  ∃ evs, s.2 = tr ++ evs ∧
    (written evs = [] ∨
     ∃ rows row queued cap n new_id rest,
       evs = QRead (mkQueueFilter (Some qid) None (Some user) 50) (Ok rows)
             :: QStatus "QUEUED" (Ok queued) :: QCap (Ok cap)
             :: QCounted user queued (Ok n) :: rest ∧
       last rows = Some row ∧ (qr_status row = "FAILED" ∨ qr_status row = "CANCELLED") ∧
       n < cap ∧
       written evs = [mkQueueWrite new_id (qr_strategy_id row) (qr_strategy_vid row) queued
                        (qr_priority row) user None]).

(** Running one logged call: whatever it answers goes on the trace. *)
Lemma wp_step {A} (f : res exn A → queue_event unit) (m : prog W exn A) Q R w tr :
  (∀ a w', Q a (w', tr ++ [f (Ok a)])) → (∀ e w', R e (w', tr ++ [f (Raise e)])) →
  wp (logged f m) Q R (w, tr).
Proof. intros HQ HR. apply wp_logged, wp_intro; auto. Qed.

(** The tail of a submission or cancellation: a wake, and a reading. *)
Lemma silent_bind {A B} (m : prog T exn A) (f : A → prog T exn B) :
  silent m → (∀ a, silent (f a)) → silent (m ≫= f).
Proof.
  intros Hm Hf w tr. apply wp_bind. eapply wp_mono; [apply Hm| |done].
  intros a [w1 tr1] (evs & Htr & Hw). simpl in Htr. subst tr1.
  eapply wp_mono; [apply Hf| |]; intros ? [w2 tr2] (evs2 & Htr2 & Hw2); simpl in *; subst;
    (exists (evs ++ evs2); rewrite written_app, Hw, Hw2, app_assoc; done).
Qed.

Lemma silent_ret {A} (a : A) : silent (mret a).
Proof. intros w tr. exists []. by rewrite app_nil_r. Qed.

Lemma silent_wake : silent publish_wake.
Proof.
  intros w tr. unfold publish_wake. apply wp_catch, wp_step; [by intros; eexists|].
  intros e w'. case_match; by eexists.
Qed.

Lemma silent_read f : silent (sp_get_queue f).
Proof. by apply silent_logged. Qed.

(** The tail both commands share. *)
Lemma silent_tail {A B} f (g : list queue_row → A) (k : A → B) :
  silent (_ ← publish_wake; x ← (rows ← sp_get_queue f; mret (g rows)); mret (k x)).
Proof.
  apply silent_bind; [apply silent_wake|]. intros _.
  apply silent_bind; [|intros; apply silent_ret].
  apply silent_bind; [apply silent_read|intros; apply silent_ret].
Qed.

Ltac stop_here := eexists; split; [by rewrite <-?app_assoc|by left].

Lemma wp_last_write {A} x (k : unit → prog T exn A) w tr :
  (∀ a, silent (k a)) →
  let post := λ s : T, ∃ r rest, s.2 = tr ++ QWrote x r :: rest ∧ written rest = [] in
  wp (sp_ins_queue x ≫= k) (λ _, post) (λ _, post) (w, tr).
Proof.
  intros Hk post. apply wp_bind, wp_step; [|by intros; eexists _, []].
  intros a w1. eapply wp_mono; [apply Hk| |]; intros ? [w2 tr2] (evs & Htr & Hw);
    simpl in *; subst; (eexists _, evs; by rewrite <-app_assoc).
Qed.

Lemma cancel_logs user qid w tr :
  wp (traced_cancel user qid) (λ _, cancel_log user qid tr) (λ _, cancel_log user qid tr) (w, tr).
Proof.
  unfold traced_cancel, cancel, get_active.
  apply wp_bind, wp_bind, wp_step; [|by intros; stop_here]. intros rows w1. apply wp_ret.
  destruct (last rows) as [row|] eqn:Hl; [|rewrite wp_raise; stop_here].
  destruct (dict_get _ CANCEL_TARGET) as [name|] eqn:Hn; [|rewrite wp_raise; stop_here].
  apply wp_bind, wp_step; [|by intros; stop_here]. intros target w2.
  assert (∀ s, (∃ r rest, s.2 = ((tr ++ [QRead (mkQueueFilter (Some qid) None (Some user) 50) (Ok rows)])
                 ++ [QStatus name (Ok target)]) ++ QWrote (mkQueueWrite qid (qr_strategy_id row)
                 (qr_strategy_vid row) target (qr_priority row) user None) r :: rest ∧
                 written rest = []) → cancel_log user qid tr s) as Hend.
  { intros s (r & rest & Hs & Hw). eexists. split; [by rewrite Hs, <-!app_assoc|]. right.
    exists rows, row, name, target. eexists. split; [done|]. split; [done|]. split.
    - unfold CANCEL_TARGET in Hn. simpl in Hn. repeat case_decide; simplify_eq; auto.
    - simpl. by rewrite Hw. }
  eapply wp_mono; [apply wp_last_write|by intros; apply Hend|by intros; apply Hend].
  intros _. apply silent_tail.
Qed.

Lemma reenqueue_logs user qid w tr :
  wp (traced_reenqueue user qid) (λ _, reenqueue_log user qid tr) (λ _, reenqueue_log user qid tr)
    (w, tr).
Proof.
  unfold traced_reenqueue, reenqueue, get_active, check_quota, submit_job.
  apply wp_bind, wp_bind, wp_step; [|by intros; stop_here]. intros rows w1. apply wp_ret.
  destruct (last rows) as [row|] eqn:Hl; [|rewrite wp_raise; stop_here].
  destruct (existsb _ _) eqn:Hst; simpl; [|rewrite wp_raise; stop_here].
  apply wp_bind, wp_step; [|by intros; stop_here]. intros queued w2.
  apply wp_bind, wp_bind, wp_step; [|by intros; stop_here]. intros cap w3.
  apply wp_bind, wp_step; [|by intros; stop_here]. intros n w4.
  destruct (Z.leb_spec cap n) as [Hcap|Hcap]; [rewrite wp_raise; stop_here|]. apply wp_ret.
  apply wp_bind, wp_step; [|by intros; stop_here]. intros new_id w5.
  eapply wp_mono; [apply wp_last_write| |];
    [|intros ? s (r & rest & Hs & Hw)..].
  { intros _. apply silent_tail. }
  all: eexists; split; [by rewrite Hs, <-!app_assoc|]; right;
    exists rows, row, queued, cap, n, new_id; eexists; split; [done|]; split; [done|];
    split; [|split; [done|simpl; by rewrite Hw]];
    simpl in Hst; rewrite !orb_true_iff, !String.eqb_eq in Hst;
    destruct Hst as [Hst|[Hst|Hst]]; [by left|by right|done].
Qed.

(** What a user's commands on an existing job write, however they end.
    Cancelling writes at most one row, for the user's own job, and only after
    reading it QUEUED (then CANCELLED) or RUNNING (then CANCEL_REQUESTED, for the
    loop to honour).  Re-enqueueing writes at most one row, a QUEUED one under a new
    id with the same strategy version, and only for a job read as FAILED or
    CANCELLED by a user counted below the cap. *)
Theorem job_commands_gated user qid w tr :
  wp (traced_cancel user qid) (λ _, cancel_log user qid tr) (λ _, cancel_log user qid tr) (w, tr) ∧
  wp (traced_reenqueue user qid) (λ _, reenqueue_log user qid tr) (λ _, reenqueue_log user qid tr)
    (w, tr).
Proof. split; [apply cancel_logs|apply reenqueue_logs]. Qed.
End commands.

(** ** A concrete table *)

(** Every write is taken, the latest first; a job's status is its latest one.  With
    it go the processes that have ended. *)
Definition small_table : Type := list (string * Z) * list string.

Definition row_in (st : Z) (q : string) : queue_row :=
  mkQueueRow q 1 "s" 1 0 "u" st (if st =? 0 then "QUEUED" else "OTHER") 0 None.
Definition queued_job : string → queue_row := row_in 0.

(** The current rows a filter lets through. *)
Definition listed_in (f : queue_filter) (d : list (string * Z)) : list queue_row :=
  omap (λ q, st ← dict_get q d;
             if bool_decide (default st (qf_status_id f) = st ∧ default q (qf_queue_id f) = q)
             then Some (row_in st q) else None) (remove_dups d.*1).

#[local] Instance small_queue : QueueDb small_table := {|
  sp_get_queue f := λ w, (Ok (listed_in f w.1), w);
  sp_ins_queue x := λ w, (Ok tt, ((qw_queue_id x, qw_status_id x) :: w.1, w.2));
  sp_ins_strategy _ _ _ := mret ("s", 1);
  sp_get_queued_count _ _ := mret 0;
  sp_get_result _ _ := mret None
|}.

Definition small_code (n : string) : Z :=
  if String.eqb n "QUEUED" then 0 else if String.eqb n "RUNNING" then 1
  else if String.eqb n "FAILED" then 2 else 3.

#[local] Instance small_host : LoopEnv small_table string := {|
  spawn q := mret q;
  poll p := λ w, (Ok (if bool_decide (p ∈ w.2) then Some 0 else None), w);
  terminate _ := mret tt;
  kill _ := mret tt;
  wait _ _ := mret tt;
  monotonic := mret fzero;
  status_id n := mret (small_code n);
  pop_wake _ := mret false;
  stop_signal := mret false
|}.

Lemma listed_in_status f d r : r ∈ listed_in f d → ∀ st, qf_status_id f = Some st →
  dict_get (qr_queue_id r) d = Some st.
Proof.
  unfold listed_in. intros (q & _ & Hr)%list_elem_of_omap st Hst. destruct (dict_get q d) as [st'|] eqn:E; [|done].
  simpl in Hr. case_bool_decide as Hb; [|done]. injection Hr as <-. rewrite Hst in Hb. simpl in *. by destruct Hb as [<- _].
Qed.

#[local] Instance small_laws : QueueLaws small_table string.
Proof.
  refine {| started := λ w q, ∃ st, dict_get q w.1 = Some st ∧ st ≠ 0; waiting := λ w q, dict_get q w.1 = Some 0;
            ended := λ w p, p ∈ w.2; code_of := small_code |};
    try by intros; intros w Hw.
  - by intros n w i w' [= <- <-].
  - intros n. rewrite !elem_of_cons. by intros [->|[->|[->|?%not_elem_of_nil]]].
  - intros w rows w' [= <- <-] r Hr (st & Hst & Hne). rewrite (listed_in_status _ _ _ Hr 0 eq_refl) in Hst.
    injection Hst as <-. done.
  - intros w w' [= Hnil <-] q Hq. assert (row_in 0 q ∈ listed_in (mkQueueFilter None (Some 0) None 1000) w.1) as Hin.
    { unfold listed_in. apply list_elem_of_omap. exists q. rewrite Hq. simpl. rewrite bool_decide_eq_true_2 by done.
      split; [|done]. apply elem_of_remove_dups. apply dict_get_Some_elem in Hq. apply list_elem_of_fmap. by exists (q, 0). }
    change (small_code "QUEUED") with 0 in Hnil. rewrite Hnil in Hin. by apply not_elem_of_nil in Hin.
  - intros x w w' [= <-] Hx. exists 1. simpl. rewrite decide_True by done. by rewrite Hx.
  - intros p w r w' Hp [= <- _]. by rewrite bool_decide_eq_true_2.
  - intros x q Hx w (st & Hst & Hne). simpl. case_decide as Hd; [|by exists st]. exists (qw_status_id x). by split.
Defined.

(** A slot for each of two jobs, of which one has ended, and two more waiting. *)
Definition busy_loop : loop_state string * small_table :=
  (mkLoop [("a", ("a", fzero, queued_job "a")); ("d", ("d", fzero, queued_job "d"))] true,
   ([("a", 1); ("d", 1); ("b", 0); ("c", 0)], ["d"])).

Lemma tick_fills_capacity_witness :
  let '(r, s') := tick (W:=small_table) (P:=string) 2 6000 3 busy_loop in
  r = Ok (Some tt) ∧ (active s'.1).*1 = ["a"; "b"] ∧
  wp (tick (W:=small_table) (P:=string) 2 6000 3)
    (λ r s', supervising (Z.to_nat 2) s' ∧ r = Some tt ∧ filled 2 s' ∧
             ∀ c, c ∈ active busy_loop.1 → c ∈ active s'.1 → ¬ ended busy_loop.2 c.2.1.1)
    (λ _, supervising (Z.to_nat 2)) busy_loop.
Proof.
  split; [vm_compute; reflexivity|]. split; [vm_compute; reflexivity|].
  apply tick_fills_capacity; [|vm_compute; lia]. split; [|split].
  - intros c. simpl. rewrite !elem_of_cons. intros [->|[->|?%not_elem_of_nil]]; [by exists 1..|done].
  - apply (bool_decide_unpack _). vm_compute. done.
  - simpl. lia.
Defined.

Definition two_waiting : small_table := ([("b", 0); ("c", 0)], []).

Lemma claim_takes_first_witness :
  (claim_next 0 1 two_waiting).1 = Ok (Some (queued_job "b")) ∧
  match claim_next 0 1 two_waiting with
  | (Ok None, w2) => [queued_job "b"; queued_job "c"] = [] ∧ w2 = two_waiting
  | (Ok (Some row), w2) =>
      row ∈ [queued_job "b"; queued_job "c"] ∧
      (∀ y, y ∈ [queued_job "b"; queued_job "c"] → runs_before row y = true) ∧
      position_in (qr_queue_id row) 1 (in_run_order [queued_job "b"; queued_job "c"]) = 1 ∧
      sp_ins_queue (transition row 1 None) two_waiting = (Ok tt, w2)
  | (Raise e, w2) =>
      ∃ row, row ∈ [queued_job "b"; queued_job "c"] ∧
             sp_ins_queue (transition row 1 None) two_waiting = (Raise e, w2)
  end.
Proof. split; [reflexivity|]. apply claim_takes_first. reflexivity. Defined.

Definition early : queue_row := mkQueueRow "e" 1 "s" 1 5 "u" 0 "QUEUED" 10 None.
Definition late : queue_row := mkQueueRow "l" 1 "s" 1 5 "u" 0 "QUEUED" 20 None.

Lemma queued_position_counts_witness :
  position_in "l" 1 (in_run_order [late; early]) =
    Z.of_nat (length (filter (λ y, runs_before y late = true) [late; early])) ∧
  position_in "l" 1 (in_run_order [late; early]) = 2.
Proof.
  split; [|reflexivity]. apply (queued_position_counts [late; early] late); [left| |].
  - apply (bool_decide_unpack _). vm_compute. done.
  - intros y Hy H1 H2. rewrite !elem_of_cons in Hy. destruct Hy as [->|[->|Hy]]; [done|done|].
    by apply not_elem_of_nil in Hy.
Defined.
