(* ===== verification/BarFetcher.v ===== *)
(** * Public bars of a venue

    [quant/market_data/fetcher.py]: reading OHLCV bars page by page from an
    exchange, and the symbols it prints.  The ccxt client is a parameter. *)
From S2P Require Import Prelude PyFloat PyData Order Errors PyValue Intervals RefData.

(** ** The client *)

(** What the code reads of a market ccxt lists. *)
Record market := mkMarket {
  mk_id : option string;
  mk_active : bool;
  mk_type : option string;
  mk_base : option string;
  mk_quote : option string;
  mk_created : option Z
}.

(** [H] is a handle on an exchange object, [X] the world it lives in. *)
Class PublicCcxt (H X : Type) := {
  pc_has_class : string → bool;
  pc_new : string → option string → prog X exn H;
  pc_set_default_type : H → string → prog X exn unit;
  pc_load_markets : H → prog X exn (list market);
  pc_market : H → string → prog X exn market;
  pc_fetch_ohlcv : H → string → string → Z → Z → prog X exn (list (list pyval))
}.

(** ** Data *)

Record OhlcvBar := mkBar {
  bar_timestamp : Z;
  open_px : float; high_px : float; low_px : float; close_px : float;
  volume : float
}.

Record VenueMarket := mkVenueMarket {
  vm_vendor_symbol : string;
  vm_base : option string;
  vm_quote : option string;
  vm_market_types : list string
}.

Definition BarFetchError : string → exn := plain CBarFetchError.
Definition PAGE_LIMIT : Z := 1000.

(** [int(dt.timestamp() * 1000)] of an instant in microseconds *)
Definition to_ms (us : Z) : res exn Z :=
  res_map_exn int_exn (trunc_int (fmul (ftruediv us 1000000) (of_Z 1000))).

(** [datetime.fromtimestamp(ms / 1000, tz=UTC)]: the fraction of a second is
    rounded to the microsecond. *)
Definition from_ms (ms : Z) : res exn Z :=
  let d := ftruediv ms 1000 in
  s ← res_map_exn int_exn (trunc_int d);
  us ← res_map_exn int_exn (round_int (fmul (fsub d (of_Z s)) (of_Z 1000000)));
  mret (s * 1000000 + us).

(** [row[i]] *)
Definition item (i : nat) (row : list pyval) : res exn pyval :=
  match row !! i with
  | Some v => Ok v
  | None => Raise (plain CIndexError "list index out of range")
  end.

(** The bar of one OHLCV row. *)
Definition bar_of (ts_ms : Z) (row : list pyval) : res exn OhlcvBar :=
  t ← from_ms ts_ms;
  o ← (v ← item 1 row; float_val v);
  h ← (v ← item 2 row; float_val v);
  l ← (v ← item 3 row; float_val v);
  c ← (v ← item 4 row; float_val v);
  v ← (v ← item 5 row; float_val v);
  mret (mkBar t o h l c v).

(** The rows of a page inside [[cursor, until]]. *)
Fixpoint page_bars (cursor_ms until_ms : Z) (batch : list (list pyval)) : res exn (list OhlcvBar) :=
  match batch with
  | [] => mret []
  | row :: batch' =>
      ts_ms ← (v ← item 0 row; int_val v);
      if (ts_ms <? cursor_ms) || (until_ms <? ts_ms) then page_bars cursor_ms until_ms batch'
      else
        b ← bar_of ts_ms row;
        bs ← page_bars cursor_ms until_ms batch';
        mret (b :: bs)
  end.

(** ** The fetcher *)

Record CcxtBarFetcher (H : Type) := mkFetcher {
  bf_exchange_id : string;
  bf_default_type : option string;
  bf_exchange : option H
}.
Arguments mkFetcher {H} _ _ _.
Arguments bf_exchange_id {H} _.
Arguments bf_default_type {H} _.
Arguments bf_exchange {H} _.

Definition nonempty (s : option string) : option string :=
  match s with Some "" => None | _ => s end.

Section fetcher.
Context {H X : Type} `{PublicCcxt H X}.

Abbreviation F := (CcxtBarFetcher H * X)%type.

(** A call of the client. *)
Definition on_client {A} (m : prog X exn A) : prog F exn A := λ s,
  let '(r, x) := m s.2 in (r, (s.1, x)).

(** [self._exchange = ...] *)
Definition keep_client (h : H) : prog F exn H := λ s,
  (Ok h, (mkFetcher (bf_exchange_id s.1) (bf_default_type s.1) (Some h), s.2)).

(** [exchange]: the client, built on first use. *)
Definition the_client : prog F exn H :=
  s ← get_state;
  match bf_exchange s.1 with
  | Some h => mret h
  | None =>
      if negb (pc_has_class (bf_exchange_id s.1)) then
        raise (BarFetchError ("ccxt has no exchange class " +:+ repr_str (bf_exchange_id s.1)))
      else
        h ← on_client (pc_new (bf_exchange_id s.1) (nonempty (bf_default_type s.1)));
        keep_client h
  end.

(** [_apply_default_type] *)
Definition apply_default_type (t : option string) : prog F exn unit :=
  match nonempty t with
  | None => mret tt
  | Some t => h ← the_client; on_client (pc_set_default_type h t)
  end.

(** [_fetch_page] *)
Definition fetch_page (vendor_symbol timeframe : string) (since_ms limit : Z) (t : option string)
    : prog F exn (list (list pyval)) :=
  _ ← apply_default_type t;
  catch (h ← the_client; on_client (pc_fetch_ohlcv h vendor_symbol timeframe since_ms limit)) (λ e,
    if is_ccxt e CcxtBadSymbol then
      raise (BarFetchError ("unknown symbol " +:+ repr_str vendor_symbol +:+ ": " +:+ exn_msg e))
    else if is_ccxt e CcxtBaseError then
      raise (BarFetchError ("fetch_ohlcv failed for " +:+ repr_str vendor_symbol +:+ ": " +:+ exn_msg e))
    else raise e).

(** The paging loop of [fetch_bars]: [None] when [fuel] pages were not enough. *)
Fixpoint fetch_pages (fuel : nat) (vendor_symbol timeframe : string) (cursor_ms until_ms step_ms : Z)
    (t : option string) : prog F exn (option (list OhlcvBar)) :=
  match fuel with
  | O => mret None
  | S fuel' =>
      if until_ms <? cursor_ms then mret (Some [])
      else
        batch ← fetch_page vendor_symbol timeframe cursor_ms PAGE_LIMIT t;
        match last batch with
        | None => mret (Some [])
        | Some newest =>
            bars ← lift_res (page_bars cursor_ms until_ms batch);
            newest_ms ← lift_res (v ← item 0 newest; int_val v);
            if newest_ms <? cursor_ms then mret (Some bars)
            else
              rest ← fetch_pages fuel' vendor_symbol timeframe (newest_ms + step_ms) until_ms step_ms t;
              mret (app bars <$> rest)
        end
  end.

(** One page more than the periods the range spans. *)
Definition page_fuel (cursor_ms until_ms step_ms : Z) : nat :=
  Z.to_nat ((until_ms - cursor_ms) / step_ms + 2).

(** [fetch_bars]; for a period of at least a millisecond the fuel is past the last
    page. *)
Definition fetch_bars (vendor_symbol : string) (period since until : Z) (t : option string)
    : prog F exn (list OhlcvBar) :=
  if until <? since then mret []
  else
    timeframe ← lift_res (ccxt_timeframe period);
    step_ms ← lift_res (res_map_exn int_exn (trunc_int (fmul (ftruediv period 1000000) (of_Z 1000))));
    until_ms ← lift_res (to_ms until);
    cursor_ms ← lift_res (to_ms since);
    bars ← fetch_pages (page_fuel cursor_ms until_ms step_ms) vendor_symbol timeframe
             cursor_ms until_ms step_ms t;
    match bars with
    | Some bars => mret bars
    | None => raise (AssertionError "out of pages")
    end.

(** [_listing_ms] *)
Definition listing_ms (vendor_symbol : string) (t : option string) : prog F exn (option Z) :=
  created ← catch
    (h ← the_client;
     _ ← on_client (pc_load_markets h);
     _ ← apply_default_type t;
     h ← the_client;
     m ← on_client (pc_market h vendor_symbol);
     mret (mk_created m)) (λ _, mret None);
  mret (match created with Some 0 => None | c => c end).

(** [earliest_bar] *)
Definition earliest_bar (vendor_symbol : string) (period : Z) (t : option string)
    : prog F exn (option Z) :=
  listed ← listing_ms vendor_symbol t;
  match listed with
  | None => mret None
  | Some ms =>
      timeframe ← lift_res (ccxt_timeframe period);
      batch ← fetch_page vendor_symbol timeframe ms 1 t;
      match batch with
      | [] => mret None
      | row :: _ =>
          first ← lift_res (v ← item 0 row; int_val v);
          us ← lift_res (from_ms first);
          mret (Some us)
      end
  end.

(** [by_id] of [venue_symbols]: the listable markets under each id. *)
Definition by_id (markets : list market) : list (string * list market) :=
  foldl (λ d m,
    if negb (mk_active m) || bool_decide (mk_type m = Some "option") then d
    else match nonempty (mk_id m) with
         | Some raw => dict_set raw (default [] (dict_get raw d) ++ [m]) d
         | None => d
         end) [] markets.

(** The tickers of the markets a venue lists. *)
Definition listed_symbols (markets : list market) : list VenueMarket :=
  (λ g : string * list market,
     mkVenueMarket g.1 (head g.2 ≫= mk_base) (head g.2 ≫= mk_quote)
       (sorted_by String.leb (remove_dups (omap (λ m, nonempty (mk_type m)) g.2))))
    <$> sorted_by (λ a b : string * list market, String.leb a.1 b.1) (by_id markets).

(** [venue_symbols] *)
Definition venue_symbols : prog F exn (list VenueMarket) :=
  markets ← catch (h ← the_client; on_client (pc_load_markets h)) (λ e,
    if is_ccxt e CcxtBaseError then
      s ← get_state;
      raise (BarFetchError ("could not list markets on " +:+ bf_exchange_id s.1 +:+ ": " +:+ exn_msg e))
    else raise e);
  mret (listed_symbols markets).
End fetcher.

(** ** Paging *)

(** The open time of a row, in milliseconds. *)
Definition row_ms (row : list pyval) : Z :=
  match (v ← item 0 row; int_val v) with Ok z => z | Raise _ => 0 end.

(** A row the code can read as a bar. *)
Definition readable (row : list pyval) : Prop :=
  (v ← item 0 row; int_val v) = Ok (row_ms row) ∧ ∃ b, bar_of (row_ms row) row = Ok b.

(** Rows in order, at least a period apart. *)
Definition spaced (step : Z) : list (list pyval) → Prop :=
  StronglySorted (λ a b, row_ms a + step <= row_ms b).

Lemma spaced_filter step (P : list pyval → Prop) `{∀ r, Decision (P r)} l :
  spaced step l → spaced step (filter P l).
Proof.
  induction 1 as [|r l Hl IH Hr]; [constructor|]. rewrite filter_cons.
  destruct (decide (P r)); [|done]. constructor; [done|]. apply Forall_forall.
  intros x [_ Hx]%list_elem_of_filter. rewrite Forall_forall in Hr. auto.
Qed.

(** What is past a row of a spaced table is what follows it. *)
Lemma spaced_after step a x b : 1 <= step → spaced step (a ++ x :: b) →
  filter (λ r, row_ms x + step <= row_ms r) (a ++ x :: b) = b.
Proof.
  intros Hstep Hs. induction a as [|y a IH]; simpl in *.
  - inversion_clear Hs as [|? ? ? HF]. rewrite Forall_forall in HF.
    rewrite filter_cons_False by lia. by apply filter_all.
  - inversion_clear Hs as [|? ? Hs' HF]. rewrite Forall_forall in HF.
    rewrite filter_cons_False; [by apply IH|].
    specialize (HF x ltac:(rewrite elem_of_app, elem_of_cons; auto)). lia.
Qed.

Lemma page_bars_spec cursor until batch :
  Forall readable batch → Forall (λ r, cursor <= row_ms r) batch →
  ∃ bars, page_bars cursor until batch = Ok bars ∧
    Forall2 (λ r b, bar_of (row_ms r) r = Ok b) (filter (λ r, row_ms r <= until) batch) bars.
Proof.
  induction batch as [|r batch IH]; intros Hr Hc.
  { exists []. split; [done|constructor]. }
  inversion_clear Hr as [|? ? [Hts (b & Hb)] Hr']. inversion_clear Hc as [|? ? Hrc Hc'].
  destruct (IH Hr' Hc') as (bars & Hbars & Hall). cbn [page_bars].
  unfold mbind at 1, res_bind at 1. rewrite Hts. rewrite (proj2 (Z.ltb_ge _ _) Hrc). simpl.
  destruct (Z.ltb_spec until (row_ms r)).
  - exists bars. by rewrite filter_cons_False by lia.
  - exists (b :: bars). rewrite filter_cons_True by lia. unfold mbind, res_bind.
    rewrite Hb, Hbars. split; [done|]. by constructor.
Qed.

Section paging.
Context {H X : Type} `{PublicCcxt H X}.
Variables (vendor_symbol timeframe : string) (step : Z) (t : option string).
Hypothesis step_pos : 1 <= step.

(** A venue that serves [table]: [client h x] says that [h] is a client of the
    exchange, [selected h x] that its product type is the one asked for.  Selecting
    works, no type asked for is the client's own, and from any start after the epoch
    a page holds the next bars of the table, at most the limit.  (Without a start
    ccxt answers the newest page, which is why none is promised for 0.) *)
Record serves (client selected : H → X → Prop) (table : list (list pyval)) : Prop := {
  selecting h x ty : nonempty t = Some ty → client h x →
    ∃ x', pc_set_default_type h ty x = (Ok tt, x') ∧ selected h x';
  unselected h x : nonempty t = None → client h x → selected h x;
  page h x since : selected h x → 0 < since →
    ∃ x', pc_fetch_ohlcv h vendor_symbol timeframe since PAGE_LIMIT x
          = (Ok (take (Z.to_nat PAGE_LIMIT) (filter (λ r, since <= row_ms r) table)), x') ∧ client h x'
}.

(** A fetcher with a client, or one whose exchange ccxt has a class for and whose
    client can be built. *)
Definition usable (client : H → X → Prop) (s : CcxtBarFetcher H * X) : Prop :=
  match bf_exchange s.1 with
  | Some h => client h s.2
  | None => pc_has_class (bf_exchange_id s.1) = true ∧
      ∃ h x', pc_new (bf_exchange_id s.1) (nonempty (bf_default_type s.1)) s.2 = (Ok h, x') ∧ client h x'
  end.

Lemma the_client_usable client s : usable client s →
  ∃ h s', the_client (H:=H) (X:=X) s = (Ok h, s') ∧ bf_exchange s'.1 = Some h ∧ client h s'.2.
Proof.
  unfold usable, the_client. unfold mbind, prog_bind, get_state. destruct (bf_exchange s.1) as [h|] eqn:E.
  - intros Hc. by exists h, s.
  - intros (Hcls & h & x' & Hn & Hc). rewrite Hcls. cbn [negb]. unfold on_client. rewrite Hn.
    by eexists h, _.
Qed.

Lemma fetch_page_served client selected table since s : serves client selected table → usable client s → 0 < since →
  ∃ s', fetch_page (H:=H) (X:=X) vendor_symbol timeframe since PAGE_LIMIT t s =
    (Ok (take (Z.to_nat PAGE_LIMIT) (filter (λ r, since <= row_ms r) table)), s') ∧ usable client s'.
Proof.
  intros [Hsel Hun Hpage] Hu Hpos. unfold fetch_page.
  assert (∃ s1, apply_default_type (H:=H) (X:=X) t s = (Ok tt, s1) ∧
    (usable client s1 ∧ nonempty t = None ∨ ∃ h, bf_exchange s1.1 = Some h ∧ selected h s1.2)) as (s1 & E1 & Hs1).
  { unfold apply_default_type. destruct (nonempty t) as [ty|] eqn:Et; [|exists s; auto].
    destruct (the_client_usable client s Hu) as (h & s1 & Ec & Hx & Hc). rewrite (bind_ok _ _ _ _ _ Ec).
    destruct (Hsel h s1.2 ty eq_refl Hc) as (x' & Es & Hs'). unfold on_client. rewrite Es.
    exists (s1.1, x'). split; [done|]. right. by exists h. }
  rewrite (bind_ok _ _ _ _ _ E1). unfold catch.
  assert (∃ h s2, the_client (H:=H) (X:=X) s1 = (Ok h, s2) ∧ bf_exchange s2.1 = Some h ∧ selected h s2.2) as (h & s2 & Ec & Hx & Hs2).
  { destruct Hs1 as [[Hu1 Et]|(h & Hx & Hs)].
    - destruct (the_client_usable client s1 Hu1) as (h & s2 & Ec & Hx & Hc). exists h, s2. auto.
    - exists h, s1. split; [|done]. unfold the_client, mbind, prog_bind, get_state. by rewrite Hx. }
  rewrite (bind_ok _ _ _ _ _ Ec). destruct (Hpage h s2.2 since Hs2 Hpos) as (x' & Ep & Hc). unfold on_client. rewrite Ep.
  exists (s2.1, x'). split; [done|]. unfold usable. cbn [fst snd]. by rewrite Hx.
Qed.

Lemma enough_pages cursor cursor' until fuel : cursor <= until → cursor + step <= cursor' →
  (page_fuel cursor until step ≤ S fuel)%nat → (page_fuel cursor' until step ≤ fuel)%nat ∨
  until < cursor' ∧ (1 ≤ fuel)%nat.
Proof.
  intros Hc Hc' Hf. unfold page_fuel in *.
  assert (0 <= (until - cursor) / step) by (apply Z.div_pos; lia).
  destruct (Z_lt_le_dec until cursor') as [Hlt|Hle]; [right; lia|left].
  assert ((until - cursor') / step <= (until - cursor) / step - 1); [|lia].
  replace ((until - cursor) / step - 1) with ((until - cursor + (-1) * step) / step)
    by (rewrite Z.div_add; lia).
  apply Z.div_le_mono; lia.
Qed.

Lemma fetch_pages_past fuel cursor until s : (1 ≤ fuel)%nat → until < cursor →
  fetch_pages (H:=H) (X:=X) fuel vendor_symbol timeframe cursor until step t s = (Ok (Some []), s).
Proof.
  intros Hf Hc. destruct fuel as [|fuel]; [lia|]. simpl.
  by rewrite (proj2 (Z.ltb_lt _ _) Hc).
Qed.

(** However the venue answers, the cursor moves a period a page. *)
Lemma fetch_pages_ends fuel cursor until s : (page_fuel cursor until step ≤ fuel)%nat →
  (1 ≤ fuel)%nat →
  (fetch_pages (H:=H) (X:=X) fuel vendor_symbol timeframe cursor until step t s).1 ≠ Ok None.
Proof.
  revert cursor s. induction fuel as [|fuel IH]; intros cursor s Hf H1; [lia|].
  simpl. destruct (Z.ltb_spec until cursor) as [|Hc]; [done|].
  unfold mbind, prog_bind. destruct (fetch_page _ _ _ _ _ s) as [[batch|e] s1]; [|done].
  destruct (last batch) as [newest|]; [|done]. unfold lift_res at 1.
  destruct (page_bars cursor until batch) as [bars|e]; [|done]. unfold lift_res at 1.
  destruct (res_bind _ _) as [newest_ms|e]; [|done].
  destruct (Z.ltb_spec newest_ms cursor) as [|Hn]; [done|].
  destruct (enough_pages cursor (newest_ms + step) until fuel Hc ltac:(lia) Hf) as [Hf'|[Hp H1']].
  - destruct fuel as [|fuel'].
    + exfalso. unfold page_fuel in *. assert (0 <= (until - cursor) / step) by (apply Z.div_pos; lia). lia.
    + specialize (IH (newest_ms + step) s1 Hf' ltac:(lia)).
      destruct (fetch_pages (S fuel') _ _ _ _ _ _ s1) as [[[rest|]|e] s2]; simpl in *; congruence.
  - by rewrite (fetch_pages_past fuel _ _ s1 H1' Hp).
Qed.

(** Against a venue that serves [table], the pages together hold exactly its bars
    of the range. *)
Lemma fetch_pages_complete client selected table fuel cursor until s :
  serves client selected table → usable client s → 0 < cursor → Forall readable table → spaced step table →
  (page_fuel cursor until step ≤ fuel)%nat → (1 ≤ fuel)%nat →
  ∃ bars s', fetch_pages (H:=H) (X:=X) fuel vendor_symbol timeframe cursor until step t s
             = (Ok (Some bars), s') ∧
    Forall2 (λ r b, bar_of (row_ms r) r = Ok b)
      (filter (λ r, row_ms r <= until) (filter (λ r, cursor <= row_ms r) table)) bars.
Proof.
  intros Hserve Hus Hcur Hread Hspace. revert cursor s Hus Hcur.
  induction fuel as [|fuel IH]; intros cursor s Hus Hcur Hf H1; [lia|].
  destruct (Z_lt_le_dec until cursor) as [Hp|Hc].
  { exists [], s. rewrite fetch_pages_past by lia. split; [done|].
    rewrite filter_none; [constructor|]. intros r [Hr _]%list_elem_of_filter. lia. }
  simpl. rewrite (proj2 (Z.ltb_ge _ _) Hc).
  destruct (fetch_page_served client selected table cursor s Hserve Hus Hcur) as (s1 & Hpage & Hus1). rewrite (bind_ok _ _ _ _ _ Hpage).
  set (R := filter (λ r, cursor <= row_ms r) table) in *.
  set (batch := take (Z.to_nat PAGE_LIMIT) R).
  assert (spaced step R) as HspR by by apply spaced_filter.
  assert (∀ r, r ∈ R → readable r ∧ cursor <= row_ms r) as HR.
  { intros r [Hr Hin]%list_elem_of_filter. rewrite Forall_forall in Hread. auto. }
  assert (∀ r, r ∈ batch → r ∈ R) as Hsub.
  { intros r Hin. rewrite <-(take_drop (Z.to_nat PAGE_LIMIT) R), elem_of_app. by left. }
  destruct (page_bars_spec cursor until batch) as (bars & Hbars & Hall).
  { apply Forall_forall. intros r Hr. by apply HR, Hsub. }
  { apply Forall_forall. intros r Hr. by apply HR, Hsub. }
  destruct (last batch) as [x|] eqn:Hlast.
  - apply last_Some in Hlast as (a & Ha).
    assert (R = a ++ x :: drop (Z.to_nat PAGE_LIMIT) R) as HRs.
    { rewrite cons_middle, app_assoc, <-Ha. symmetry. apply take_drop. }
    assert (x ∈ R) as Hx by (apply Hsub; rewrite Ha, elem_of_app, list_elem_of_singleton; by right).
    destruct (HR x Hx) as [[Hts _] Hxc].
    unfold mbind at 1, prog_bind at 1, lift_res at 1. rewrite Hbars.
    unfold mbind at 1, prog_bind at 1, lift_res at 1. rewrite Hts.
    rewrite (proj2 (Z.ltb_ge _ _) Hxc).
    assert (filter (λ r, row_ms x + step <= row_ms r) table = drop (Z.to_nat PAGE_LIMIT) R) as Hrest.
    { rewrite HRs in HspR. rewrite <-(spaced_after step a x _ step_pos HspR), <-HRs. unfold R.
      rewrite list_filter_filter. apply list_filter_iff. intros r. split; [lia|]. intros [? _]. done. }
    assert (∃ rest s', fetch_pages (H:=H) (X:=X) fuel vendor_symbol timeframe (row_ms x + step) until step t s1
             = (Ok (Some rest), s') ∧
             Forall2 (λ r b, bar_of (row_ms r) r = Ok b)
               (filter (λ r, row_ms r <= until) (drop (Z.to_nat PAGE_LIMIT) R)) rest)
      as (rest & s' & Hpages & Hall').
    { rewrite <-Hrest.
      destruct (enough_pages cursor (row_ms x + step) until fuel Hc ltac:(lia) Hf) as [Hf'|[Hp H1']].
      - apply IH; [done|lia|done|].
        unfold page_fuel in Hf. assert (0 <= (until - cursor) / step) by (apply Z.div_pos; lia). lia.
      - exists [], s1. rewrite fetch_pages_past by done. split; [done|].
        rewrite filter_none; [constructor|]. intros r [Hr _]%list_elem_of_filter. lia. }
    exists (bars ++ rest), s'. rewrite (bind_ok _ _ _ _ _ Hpages). split; [done|].
    rewrite <-(take_drop (Z.to_nat PAGE_LIMIT) R), filter_app. by apply Forall2_app.
  - apply last_None in Hlast. exists [], s1. split; [done|].
    assert (R = []) as ->; [|constructor].
    destruct R as [|r R']; [done|]. done.
Qed.
End paging.

(** C32. Paging is exact.  Whatever the venue answers, the paging loop ends within
    the pages its range allows.  Against a venue that serves, from any start after
    the epoch, the next bars of a table whose rows are at least a period apart, a
    fetcher whose client exists or can be built returns precisely the bars of that
    table inside the range, oldest first: no page break loses or repeats one. *)
Theorem fetch_bars_exact {H X} `{PublicCcxt H X} vendor_symbol timeframe period since until step c u t :
  since <= until → ccxt_timeframe period = Ok timeframe →
  res_map_exn int_exn (trunc_int (fmul (ftruediv period 1000000) (of_Z 1000))) = Ok step →
  1 <= step → to_ms since = Ok c → to_ms until = Ok u → c <= u →
  (∀ s, (fetch_pages (H:=H) (X:=X) (page_fuel c u step) vendor_symbol timeframe c u step t s).1
        ≠ Ok None) ∧
  ∀ client selected table s, serves (H:=H) (X:=X) vendor_symbol timeframe t client selected table →
    usable client s → 0 < c → Forall readable table → spaced step table →
    ∃ bars s', fetch_bars (H:=H) (X:=X) vendor_symbol period since until t s = (Ok bars, s') ∧
      Forall2 (λ r b, bar_of (row_ms r) r = Ok b)
        (filter (λ r, row_ms r <= u) (filter (λ r, c <= row_ms r) table)) bars.
Proof.
  intros Hr Htf Hstep Hpos Hc Hu Hcu.
  assert (1 ≤ page_fuel c u step)%nat as Hfuel.
  { unfold page_fuel. assert (0 <= (u - c) / step) by (apply Z.div_pos; lia). lia. }
  split; [intros s; by apply fetch_pages_ends|].
  intros client selected table s Hserve Hus Hc0 Hread Hspace.
  destruct (fetch_pages_complete vendor_symbol timeframe step t Hpos client selected table
              (page_fuel c u step) c u s) as (bars & s' & Hpages & Hall); try done.
  exists bars, s'. split; [|done]. unfold fetch_bars.
  rewrite (proj2 (Z.ltb_ge _ _) Hr), Htf, Hstep, Hu, Hc.
  unfold lift_res. do 4 (unfold mbind at 1, prog_bind at 1).
  by rewrite (bind_ok _ _ _ _ _ Hpages).
Qed.

(** ** A venue with three days of bars *)

Definition day_row (d : Z) : list pyval :=
  VInt (d * 86400000) :: replicate 5 (VFloat (of_Z (100 + d))).

Definition three_days : list (list pyval) := [day_row 19000; day_row 19001; day_row 19002].

(** The world is the product type the client is set to; only perpetual bars are
    kept, for one exchange, and without a start the newest are answered. *)
#[local] Instance archive : PublicCcxt unit (option string) := {|
  pc_has_class i := String.eqb i "bybit";
  pc_new _ ty _ := (Ok tt, ty);
  pc_set_default_type _ ty _ := (Ok tt, Some ty);
  pc_load_markets _ := mret [];
  pc_market _ _ := raise (KeyError "market");
  pc_fetch_ohlcv _ _ _ since limit := λ w,
    (Ok (if bool_decide (w = Some "swap") then
           if since <=? 0 then drop (length three_days - Z.to_nat limit) three_days
           else take (Z.to_nat limit) (filter (λ r, since <= row_ms r) three_days)
         else []), w)
|}.

Lemma archive_serves :
  serves (H:=unit) (X:=option string) "BTCUSDT" "1d" (Some "swap") (λ _ _, True) (λ _ w, w = Some "swap") three_days.
Proof.
  split.
  - intros h x ty [= <-] _. by eexists.
  - done.
  - intros h x since -> Hpos. exists (Some "swap"). split; [|done]. simpl. by rewrite (proj2 (Z.leb_gt _ _) Hpos).
Qed.

Lemma fetch_bars_exact_witness :
  let s := (mkFetcher "bybit" None None, None) in
  usable (λ _ _, True) s ∧ ¬ usable (λ _ _, True) (mkFetcher "nowhere" None None, None : option string) ∧
  ∃ bars s', fetch_bars (H:=unit) (X:=option string) "BTCUSDT" DAY (19001 * DAY) (19002 * DAY) (Some "swap") s = (Ok bars, s') ∧
    bar_timestamp <$> bars = [19001 * DAY; 19002 * DAY] ∧
    Forall2 (λ r b, bar_of (row_ms r) r = Ok b) [day_row 19001; day_row 19002] bars.
Proof.
  intros s. assert (usable (H:=unit) (λ _ _, True) s) as Hus by (split; [done|by eexists _, _]).
  split; [exact Hus|]. split; [by intros [? _]|].
  destruct (fetch_bars_exact (H:=unit) (X:=option string) "BTCUSDT" "1d" DAY (19001 * DAY) (19002 * DAY)
    86400000 (19001 * 86400000) (19002 * 86400000) (Some "swap")) as [_ Hex];
    [vm_compute; done|vm_compute; reflexivity|vm_compute; reflexivity|lia|vm_compute; reflexivity
    |vm_compute; reflexivity|lia|].
  destruct (Hex (λ _ _, True) (λ _ w, w = Some "swap") three_days s archive_serves Hus) as (bars & s' & Hb & Hall).
  - lia.
  - repeat constructor; eexists; vm_compute; reflexivity.
  - repeat constructor; vm_compute; done.
  - exists bars, s'. split; [exact Hb|]. split; [|exact Hall].
    vm_compute in Hb. by injection Hb as <- _.
Defined.
