(* ===== verification/BarService.v ===== *)
(** * Stored bars and the windows signals are computed on

    [quant/market_data/service.py] and [repo.py]: which bars are
    needed, fetching the missing ones, storing them, and refusing a window that
    cannot be completed.  The stored procedures are a parameter; the venue is an
    interface, which [BarFetcher] implements for ccxt. *)
From S2P Require Import Prelude PyFloat PyData Order Errors PyValue Instruments Intervals RefData.
From S2P Require Import TradeRepo BarFetcher.

(** ** Text of instants *)

(** Year, month and day of a day counted from the epoch. *)
Definition civil (day : Z) : Z * Z * Z :=
  let z := day + 719468 in
  let era := z / 146097 in
  let doe := z mod 146097 in
  let yoe := (doe - doe / 1460 + doe / 36524 - doe / 146096) / 365 in
  let doy := doe - (365 * yoe + yoe / 4 - yoe / 100) in
  let mp := (5 * doy + 2) / 153 in
  let m := if mp <? 10 then mp + 3 else mp - 9 in
  (yoe + era * 400 + (if m <=? 2 then 1 else 0), m, doy - (153 * mp + 2) / 5 + 1).

(** [str(dt.date())] *)
Definition str_date (us : Z) : string :=
  let '(y, m, d) := civil (us / DAY) in
  pad_digits 4 y +:+ "-" +:+ pad_digits 2 m +:+ "-" +:+ pad_digits 2 d.

(** [str(dt)] of a UTC instant *)
Definition str_utc (us : Z) : string :=
  let s := us mod DAY in
  let micros := s mod SECOND in
  str_date us +:+ " " +:+ pad_digits 2 (s / HOUR) +:+ ":" +:+ pad_digits 2 (s / MINUTE mod 60) +:+
  ":" +:+ pad_digits 2 (s / SECOND mod 60) +:+
  (if micros =? 0 then "" else "." +:+ pad_digits 6 micros) +:+ "+00:00".

(** Digits, most significant first, with a comma every three. *)
Fixpoint commas_fuel (fuel : nat) (n : Z) : string :=
  match fuel with
  | O => str_Z n
  | S fuel' => if n <? 1000 then str_Z n
               else commas_fuel fuel' (n / 1000) +:+ "," +:+ pad_digits 3 (n mod 1000)
  end.

(** [f"{n:,}"] of a natural number *)
Definition fmt_commas (n : Z) : string := commas_fuel (Z.to_nat (Z.log2 n)) n.

(** ** Data *)

(** A row of [MARKET_DATA.PRICE_BAR]. *)
Record bar_row := mkBarRow {
  br_timestamp : Z;
  br_open : decimal; br_high : decimal; br_low : decimal; br_close : decimal;
  br_volume : decimal
}.

(** The key of a series: instrument, interval and source. *)
Record series := mkSeries { s_cusip : string; s_interval : Z; s_app : Z }.

(** A row of the pipeline's frame, indexed by its time. *)
Record frame_row := mkFrameRow {
  fr_datetime : Z;
  fr_price : float; fr_factor : float;
  fr_open : float; fr_high : float; fr_low : float; fr_close : float; fr_volume : float
}.

Record SyncResult := mkSyncResult {
  sy_instruments : Z; sy_inserted : Z; sy_failures : list (string * string)
}.

Record BackfillResult := mkBackfillResult {
  bk_start : Z; bk_end : Z; bk_expected : Z; bk_missing : Z; bk_inserted : Z;
  bk_unfilled : list Z
}.

(** [is_continuous] *)
Definition is_continuous (r : BackfillResult) : bool :=
  match bk_unfilled r with [] => true | _ => false end.

(** [oldest_unfilled] *)
Definition oldest_unfilled (r : BackfillResult) : option Z := head (bk_unfilled r).

Record BackfillPlan := mkPlan {
  pl_start : option Z; pl_end : option Z; pl_bars : Z; pl_passes_remaining : Z; pl_target : Z
}.

(** [is_complete] *)
Definition is_complete (p : BackfillPlan) : bool :=
  match pl_start p with None => true | Some _ => false end.

Definition UNIQUE_VIOLATION : string := "23505".
Definition MAX_BACKFILL_BARS : Z := 10000.
(** [_MIN_WINDOW_COVERAGE] *)
Definition MIN_WINDOW_COVERAGE : float := of_decimal false 8 (-1).

(** The stored procedures; a coverage row holds the oldest and newest time of the
    same rows, so both or neither. *)
Class BarStore (W : Type) := {
  sp_price_bar_coverage : series → prog W exn (option (option (Z * Z)));
  sp_get_price_bar : series → Z → Z → prog W exn (list bar_row);
  sp_ins_price_bar : series → OhlcvBar → prog W exn unit
}.

(** [BarFetcher], what the service needs of a venue, and the clock. *)
Class BarSource (W : Type) := {
  src_fetch_bars : string → Z → Z → Z → option string → prog W exn (list OhlcvBar);
  src_earliest_bar : string → Z → option string → prog W exn (option Z);
  src_venue_symbols : prog W exn (list VenueMarket);
  utc_now : prog W exn Z
}.

(** The ccxt fetcher is such a source. *)
Definition ccxt_source {H X} `{PublicCcxt H X} (now : prog (CcxtBarFetcher H * X) exn Z)
    : BarSource (CcxtBarFetcher H * X) := {|
  src_fetch_bars := fetch_bars;
  src_earliest_bar := earliest_bar;
  src_venue_symbols := venue_symbols;
  utc_now := now
|}.

(** ** Frames *)

(** A row of [_ohlcv_frame]. *)
Definition frame_of_bar (b : OhlcvBar) : frame_row :=
  mkFrameRow (bar_timestamp b) (close_px b) (close_px b) (open_px b) (high_px b) (low_px b)
    (close_px b) (volume b).

(** [float] of the columns of a stored row. *)
Definition bar_of_row (r : bar_row) : OhlcvBar :=
  mkBar (br_timestamp r) (float_of_decimal (br_open r)) (float_of_decimal (br_high r))
    (float_of_decimal (br_low r)) (float_of_decimal (br_close r)) (float_of_decimal (br_volume r)).

(** [sort_index] *)
Definition sort_index : list frame_row → list frame_row :=
  sorted_by (λ a b, fr_datetime a <=? fr_datetime b).

(** [_ohlcv_frame] *)
Definition ohlcv_frame (bars : list OhlcvBar) : list frame_row := sort_index (frame_of_bar <$> bars).

(** ** [PriceBarService] *)

(** [{bar.bar_timestamp: bar for bar in bars}] *)
Definition by_timestamp (bars : list OhlcvBar) : list (Z * OhlcvBar) :=
  dict_comp bar_timestamp id bars.

(** [min(fetched)] of a dictionary with entries *)
Definition min_key (fetched : list (Z * OhlcvBar)) : option Z :=
  match fetched with
  | [] => None
  | (t, _) :: rest => Some (foldl Z.min t rest.*1)
  end.

(** Boundaries without a fetched bar. *)
Definition unfilled_of (missing : list Z) (fetched : list (Z * OhlcvBar)) : list Z :=
  filter (λ t, dict_get t fetched = None) missing.

(** [_reject_incomplete] *)
Definition reject_incomplete (k : series) (missing : list Z) (fetched : list (Z * OhlcvBar)) (newest : Z)
    : res exn unit :=
  match unfilled_of missing fetched with
  | [] => mret tt
  | (oldest :: _) as unfilled =>
      let holes := match min_key fetched with
                   | Some earliest => filter (λ t, earliest < t) unfilled
                   | None => []
                   end in
      if negb (bool_decide (holes = [])) || bool_decide (newest ∈ unfilled) then
        Raise (StaleBarsError
          ("exchange did not return " +:+ str_Z (Z.of_nat (length unfilled)) +:+ " bar(s) for " +:+
           repr_str (s_cusip k) +:+ " (oldest missing " +:+ str_utc oldest +:+
           ", newest closed bar " +:+ str_utc newest +:+ ") — refusing " +:+
           "to compute a signal on an incomplete window"))
      else mret tt
  end.

Section service.
Context {W : Type} `{BarStore W} `{BarSource W} `{ReferenceData W}.
Context (instruments : InstrumentCache) (default_type_for : option (string → res exn (option string))).

(** [require_arg] on the one text argument *)
Definition require_cusip (k : series) : res exn unit :=
  match strip (s_cusip k) with
  | "" => Raise (ValueError "internal_cusip is required")
  | _ => mret tt
  end.

(** [PriceBarRepo.get_coverage] *)
Definition get_coverage (k : series) : prog W exn (option (Z * Z)) :=
  _ ← lift_res (require_cusip k);
  row ← sp_price_bar_coverage k;
  mret (mjoin row).

(** [PriceBarRepo.get_bars] *)
Definition get_bars (k : series) (range_start range_end : Z) : prog W exn (list bar_row) :=
  _ ← lift_res (require_cusip k);
  sp_get_price_bar k range_start range_end.

(** [PriceBarRepo.ins_bar] *)
Definition ins_bar (k : series) (b : OhlcvBar) : prog W exn unit :=
  _ ← lift_res (require_cusip k);
  sp_ins_price_bar k b.

(** [now or datetime.now(UTC)] *)
Definition moment (now : option datetime) : prog W exn datetime :=
  match now with
  | Some d => mret d
  | None => us ← utc_now; mret (Utc us)
  end.

(** [_default_type] *)
Definition default_type (cusip : string) : res exn (option string) :=
  match default_type_for with None => mret None | Some f => f cusip end.

(** [_vendor_symbol] *)
Definition vendor_symbol_of (k : series) : res exn string :=
  match resolve_internal_cusip instruments (s_cusip k) (s_app k) with
  | Some s => mret s
  | None => Raise (StaleBarsError ("no INST.PRODUCT_XREF mapping for " +:+ repr_str (s_cusip k) +:+
                                   " on app " +:+ str_Z (s_app k)))
  end.

(** [_fetch] *)
Definition fetch (k : series) (period since until : Z) : prog W exn (list (Z * OhlcvBar)) :=
  symbol ← lift_res (vendor_symbol_of k);
  t ← lift_res (default_type (s_cusip k));
  bars ← src_fetch_bars symbol period since until t;
  mret (by_timestamp bars).

(** [find_gaps] *)
Definition find_gaps (k : series) (start end_ : Z) : prog W exn (list Z) :=
  period ← ref_interval_period (s_interval k);
  expected ← lift_res (bar_starts (Utc start) (Utc end_) period);
  rows ← get_bars k start end_;
  mret (filter (λ t, t ∉ br_timestamp <$> rows) expected).

(** [_insert] *)
Definition insert_bar (k : series) (b : OhlcvBar) : prog W exn bool :=
  catch (_ ← ins_bar k b; mret true) (λ e,
    if isinstance e CProcedureError then
      if bool_decide (exn_sqlstate e = Some UNIQUE_VIOLATION) then mret false else raise e
    else raise e).

(** [_store] *)
Fixpoint store_bars (k : series) (missing : list Z) (fetched : list (Z * OhlcvBar)) (inserted : Z)
    : prog W exn Z :=
  match missing with
  | [] => mret inserted
  | t :: missing' =>
      match dict_get t fetched with
      | None => store_bars k missing' fetched inserted
      | Some b =>
          ok ← insert_bar k b;
          store_bars k missing' fetched (if (ok : bool) then inserted + 1 else inserted)
      end
  end.

(** [ensure_fresh] *)
Definition ensure_fresh (k : series) (lookback : Z) (now : option datetime) : prog W exn Z :=
  if lookback <? 1 then
    raise (ValueError ("lookback must be at least 1, got " +:+ str_Z lookback))
  else
    period ← ref_interval_period (s_interval k);
    now ← moment now;
    newest ← lift_res (last_closed_bar now period);
    let window_start := newest - period * (lookback - 1) in
    coverage ← get_coverage k;
    if match coverage with Some (_, stored_max) => newest <=? stored_max | None => false end then
      mret 0
    else
      missing ← find_gaps k window_start newest;
      match missing with
      | [] => mret 0
      | since :: _ =>
          fetched ← fetch k period since newest;
          _ ← lift_res (reject_incomplete k missing fetched newest);
          store_bars k missing fetched 0
      end.

(** The loop of [sync]. *)
Fixpoint sync_all (tm_interval_id lookback : Z) (now : option datetime) (pairs : list (string * Z))
    (seen : list (string * Z)) (inserted : Z) (failures : list (string * string))
    : prog W exn SyncResult :=
  match pairs with
  | [] => mret (mkSyncResult (Z.of_nat (length seen)) inserted failures)
  | (cusip, app) :: pairs' =>
      if bool_decide ((cusip, app) ∈ seen) then
        sync_all tm_interval_id lookback now pairs' seen inserted failures
      else
        outcome ← catch
          (n ← ensure_fresh (mkSeries cusip tm_interval_id app) lookback now; mret (inl n))
          (λ e, mret (inr (exn_msg e)));
        match outcome with
        | inl n => sync_all tm_interval_id lookback now pairs' ((cusip, app) :: seen) (inserted + n) failures
        | inr msg => sync_all tm_interval_id lookback now pairs' ((cusip, app) :: seen) inserted
                       (dict_set cusip msg failures)
        end
  end.

(** [sync] *)
Definition sync (pairs : list (string * Z)) (tm_interval_id lookback : Z) (now : option datetime)
    : prog W exn SyncResult :=
  sync_all tm_interval_id lookback now pairs [] 0 [].

(** [int(span / period)] of two durations *)
Definition whole_periods (span period : Z) : res exn Z :=
  if period =? 0 then Raise ZeroDivisionError
  else res_map_exn int_exn (trunc_int (ftruediv span period)).

(** [backfill] *)
Definition backfill (k : series) (start : datetime) (end_ : option datetime) (now : option datetime)
    : prog W exn BackfillResult :=
  period ← ref_interval_period (s_interval k);
  let start := as_utc start in
  end_ ← match end_ with
         | Some d => mret (as_utc d)
         | None => now ← moment now; lift_res (last_closed_bar now period)
         end;
  if end_ <? start then
    raise (ValueError ("start " +:+ str_utc start +:+ " is after end " +:+ str_utc end_))
  else
    n ← lift_res (whole_periods (end_ - start) period);
    if MAX_BACKFILL_BARS <? n + 1 then
      raise (BackfillTooLargeError
        (str_date start +:+ " to " +:+ str_date end_ +:+ " is " +:+ fmt_commas (n + 1) +:+
         " bar(s) at this interval, over the " +:+ fmt_commas MAX_BACKFILL_BARS +:+
         " one fill may span. Backfill is a single blocking request, so a range this size " +:+
         "would time out and store nothing. Fill to " +:+
         str_date (start + period * (MAX_BACKFILL_BARS - 1)) +:+
         " first, or capture this series at a coarser interval"))
    else
      missing ← find_gaps k start end_;
      expected ← lift_res (bar_starts (Utc start) (Utc end_) period);
      let expected := Z.of_nat (length expected) in
      match missing with
      | [] => mret (mkBackfillResult start end_ expected 0 0 [])
      | since :: _ =>
          fetched ← fetch k period since end_;
          inserted ← store_bars k missing fetched 0;
          mret (mkBackfillResult start end_ expected (Z.of_nat (length missing)) inserted
                  (unfilled_of missing fetched))
      end.

(** [stored_bounds] *)
Definition stored_bounds (k : series) : prog W exn (option (Z * Z)) := get_coverage k.

(** [-(-a // b)] *)
Definition ceil_div (a b : Z) : Z := - (- a / b).

(** [plan_backfill] *)
Definition plan_backfill (k : series) (target : datetime) (now : option datetime)
    : prog W exn BackfillPlan :=
  period ← ref_interval_period (s_interval k);
  let target := as_utc target in
  now ← moment now;
  last_closed ← lift_res (last_closed_bar now period);
  let nothing_to_do := mkPlan None None 0 0 target in
  if last_closed <? target then mret nothing_to_do
  else
    bounds ← stored_bounds k;
    match match bounds with
          | None => Some last_closed
          | Some (first_bar, _) => if first_bar <=? target then None else Some (first_bar - period)
          end with
    | None => mret nothing_to_do
    | Some end_ =>
        let start := Z.max target (end_ - period * (MAX_BACKFILL_BARS - 1)) in
        bars ← lift_res (whole_periods (end_ - start) period);
        outstanding ← lift_res (whole_periods (end_ - target) period);
        mret (mkPlan (Some start) (Some end_) (bars + 1)
                (ceil_div (outstanding + 1) MAX_BACKFILL_BARS) target)
    end.

(** [venue_depth] *)
Definition venue_depth (k : series) (now : option datetime) : prog W exn (option Z * option Z) :=
  period ← ref_interval_period (s_interval k);
  symbol ← lift_res (vendor_symbol_of k);
  t ← lift_res (default_type (s_cusip k));
  earliest ← src_earliest_bar symbol period t;
  match earliest with
  | None => mret (None, None)
  | Some e =>
      now ← moment now;
      now ← match now with
            | Utc us => mret us
            | Naive _ => raise (TypeError "can't subtract offset-naive and offset-aware datetimes")
            end;
      n ← lift_res (whole_periods (now - e) period);
      mret (Some e, Some (n + 1))
  end.

(** [read_bars] *)
Definition read_bars (k : series) (start end_ : Z) : prog W exn (list frame_row) :=
  rows ← get_bars k start end_;
  mret (ohlcv_frame (bar_of_row <$> rows)).

(** [_append_forming] *)
Definition append_forming (bars : list frame_row) (k : series) (period forming_open : Z)
    : prog W exn (list frame_row) :=
  fetched ← fetch k period forming_open forming_open;
  match dict_get forming_open fetched with
  | None => raise (StaleBarsError
      ("exchange did not return the still-forming bar at " +:+ str_utc forming_open +:+
       " for " +:+ repr_str (s_cusip k) +:+ " — refusing to trade on the previous close"))
  | Some b =>
      let frame := ohlcv_frame [b] in
      mret (match bars with [] => frame | _ => sort_index (bars ++ frame) end)
  end.

(** [load_window] *)
Definition load_window (k : series) (lookback : Z) (now : option datetime) (include_forming : bool)
    : prog W exn (list frame_row) :=
  _ ← ensure_fresh k lookback now;
  period ← ref_interval_period (s_interval k);
  now ← moment now;
  newest ← lift_res (last_closed_bar now period);
  let n_closed := if include_forming then lookback - 1 else lookback in
  bars ← if 1 <=? n_closed then read_bars k (newest - period * (n_closed - 1)) newest else mret [];
  bars ← if include_forming then
           forming_open ← lift_res (floor_to_period now period);
           append_forming bars k period forming_open
         else mret bars;
  required ← lift_res (res_map_exn int_exn (ceil_int (fmul (of_Z lookback) MIN_WINDOW_COVERAGE)));
  if Z.of_nat (length bars) <? required then
    raise (StaleBarsError
      ("only " +:+ str_Z (Z.of_nat (length bars)) +:+ " of " +:+ str_Z lookback +:+
       " bar(s) available for " +:+ repr_str (s_cusip k) +:+ " on interval " +:+
       str_Z (s_interval k) +:+ " (need at least " +:+ str_Z required +:+
       ") — too little history to compute a comparable signal"))
  else mret bars.
End service.

(** ** What the table keeps *)

(** What the service relies on of the table: [stored] are the bar times of a
    series; reading reports only those, an insert that succeeds or conflicts means
    the bar is there, and nothing the service calls removes one. *)
Class StoreLaws (W : Type) `{BarStore W} `{BarSource W} `{ReferenceData W} := {
  stored : W → series → Z → Prop;
  period_of : Z → Z;
  period_reads i w p w' : ref_interval_period i w = (Ok p, w') → p = period_of i;
  listed_stored k a b w rows w' : sp_get_price_bar k a b w = (Ok rows, w') →
    ∀ t, t ∈ br_timestamp <$> rows → stored w' k t;
  inserted_stored k b w w' : sp_ins_price_bar k b w = (Ok tt, w') → stored w' k (bar_timestamp b);
  coverage_stored k w row oldest last w' : sp_price_bar_coverage k w = (Ok row, w') →
    mjoin row = Some (oldest, last) → stored w' k oldest ∧ stored w' k last;
  conflict_stored k b w e w' : sp_ins_price_bar k b w = (Raise e, w') →
    exn_sqlstate e = Some UNIQUE_VIOLATION → stored w' k (bar_timestamp b);
  coverage_keeps c k t : preserves (λ w, stored w k t) (sp_price_bar_coverage c);
  reading_keeps c a b k t : preserves (λ w, stored w k t) (sp_get_price_bar c a b);
  insert_keeps c b k t : preserves (λ w, stored w k t) (sp_ins_price_bar c b);
  fetch_keeps s p a b d k t : preserves (λ w, stored w k t) (src_fetch_bars s p a b d);
  clock_keeps k t : preserves (λ w, stored w k t) utc_now;
  period_keeps i k t : preserves (λ w, stored w k t) (ref_interval_period i)
}.

Lemma by_timestamp_keys bars t : t ∈ (by_timestamp bars).*1 ↔ t ∈ bar_timestamp <$> bars.
Proof.
  unfold by_timestamp, dict_comp. induction bars as [|b bars IH] using rev_ind; [done|].
  rewrite foldl_snoc, dict_set_keys, IH, fmap_app, elem_of_app. simpl.
  rewrite list_elem_of_singleton. tauto.
Qed.

(** An entry's key is its bar's time. *)
Lemma by_timestamp_get bars t b : dict_get t (by_timestamp bars) = Some b → bar_timestamp b = t.
Proof.
  unfold by_timestamp. rewrite dict_get_comp. unfold fmap, option_fmap, option_map.
  destruct (last _) as [x|] eqn:Hl; [|done]. intros [= <-].
  apply last_Some_elem_of in Hl. by apply list_elem_of_filter in Hl as [? _].
Qed.

Lemma foldl_min_le x l y : y = x ∨ y ∈ l → foldl Z.min x l <= y.
Proof.
  revert x y. induction l as [|z l IH]; intros x y Hy; simpl.
  - destruct Hy as [->|Hy]; [lia|by apply not_elem_of_nil in Hy].
  - pose proof (IH (Z.min x z) (Z.min x z) (or_introl eq_refl)).
    destruct Hy as [->|[->|Hy]%elem_of_cons]; [lia|lia|]. apply IH. by right.
Qed.

Lemma foldl_min_in x l : foldl Z.min x l = x ∨ foldl Z.min x l ∈ l.
Proof.
  revert x. induction l as [|z l IH]; intros x; simpl; [by left|].
  destruct (IH (Z.min x z)) as [Hx|Hx]; [|right; by right].
  rewrite Hx. destruct (Z.min_spec x z) as [[_ ->]|[_ ->]]; [by left|right; left].
Qed.

(** The least key is the time of a fetched bar, and no bar is earlier. *)
Lemma min_key_spec fetched e : min_key fetched = Some e →
  e ∈ fetched.*1 ∧ ∀ t, t ∈ fetched.*1 → e <= t.
Proof.
  destruct fetched as [|[t0 b] rest]; [done|]. simpl. intros [= <-]. split.
  - rewrite elem_of_cons. apply foldl_min_in.
  - intros t. rewrite elem_of_cons. apply foldl_min_le.
Qed.

(** A window that was not refused: a boundary left unfilled precedes every bar the
    venue sent, and the newest one is not left out. *)
Lemma reject_incomplete_ok k missing bars newest :
  reject_incomplete k missing (by_timestamp bars) newest = Ok tt →
  ∀ t, t ∈ missing → dict_get t (by_timestamp bars) = None →
    t ≠ newest ∧ ∀ b, b ∈ bars → t < bar_timestamp b.
Proof.
  unfold reject_incomplete. set (unfilled := unfilled_of missing (by_timestamp bars)).
  intros Hok t Ht Hn. assert (t ∈ unfilled) as Hin by (apply list_elem_of_filter; done).
  destruct unfilled as [|t0 rest] eqn:Hu; [by apply not_elem_of_nil in Hin|].
  destruct (_ || _) eqn:Hb in Hok; [done|]. clear Hok.
  apply orb_false_iff in Hb as [Hholes Hnewest]. apply bool_decide_eq_false in Hnewest.
  split; [by intros ->; apply Hnewest|]. intros b Hbin.
  assert (bar_timestamp b ∈ (by_timestamp bars).*1) as Hkey.
  { apply by_timestamp_keys, list_elem_of_fmap. by exists b. }
  destruct (min_key (by_timestamp bars)) as [e|] eqn:He.
  2: { destruct (by_timestamp bars) as [|[]]; [|done]. simpl in Hkey. by apply not_elem_of_nil in Hkey. }
  destruct (min_key_spec _ _ He) as [Hein Hle].
  apply negb_false_iff, bool_decide_eq_true in Hholes.
  assert (¬ e < t) as Hge.
  { intros Hlt. assert (t ∈ filter (λ t, e < t) (t0 :: rest)) as Hf by (by apply list_elem_of_filter).
    rewrite Hholes in Hf. by apply not_elem_of_nil in Hf. }
  assert (t ≠ e) as Hne by (intros ->; by apply dict_get_key in Hn).
  specialize (Hle _ Hkey). lia.
Qed.

Section fresh.
Context {W : Type} `{StoreLaws W}.
Context (instruments : InstrumentCache) (default_type_for : option (string → res exn (option string))).
Implicit Types k : series.

#[local] Hint Resolve coverage_keeps reading_keeps insert_keeps fetch_keeps clock_keeps period_keeps
  : preserves.

Ltac keep := repeat first
  [ solve [eauto with preserves nocore]
  | apply preserves_bind; [|intros ?]
  | apply preserves_catch; [|intros ?]
  | case_match ].

Lemma insert_bar_keeps c b k t : preserves (λ w, stored w k t) (insert_bar c b).
Proof. unfold insert_bar, ins_bar. keep. Qed.

Lemma insert_bar_stored k b w ok w' :
  insert_bar k b w = (Ok ok, w') → stored w' k (bar_timestamp b).
Proof.
  unfold insert_bar, ins_bar, catch.
  unfold mbind at 1, prog_bind at 1. unfold mbind at 1, prog_bind at 1. unfold lift_res.
  unfold require_cusip. destruct (strip (s_cusip k)); [done|].
  - destruct (sp_ins_price_bar k b w) as [[[]|e] w1] eqn:Hi; simpl.
    + intros [= <- <-]. by eapply inserted_stored.
    + destruct (isinstance e CProcedureError); [|done]. case_bool_decide as He; [|done].
      intros [= <- <-]. by eapply conflict_stored.
Qed.

(** Storing leaves every missing boundary the venue answered stored. *)
Lemma store_bars_stored k missing bars n w m w' :
  store_bars k missing (by_timestamp bars) n w = (Ok m, w') →
  (∀ t, stored w k t → stored w' k t) ∧
  ∀ t, t ∈ missing → dict_get t (by_timestamp bars) ≠ None → stored w' k t.
Proof.
  revert n w. induction missing as [|t missing IH]; intros n w; simpl.
  { intros [= <- <-]. split; [done|]. by intros t ?%not_elem_of_nil. }
  destruct (dict_get t (by_timestamp bars)) as [b|] eqn:Hb.
  - unfold mbind, prog_bind. destruct (insert_bar k b w) as [[ok|e] w1] eqn:Hi; [|done].
    intros Hrest. destruct (IH _ _ Hrest) as [Hk Hs]. split.
    + intros t' Ht'. apply Hk. pose proof (insert_bar_keeps k b k t' w Ht') as Hp. by rewrite Hi in Hp.
    + intros t' [->|Hin]%elem_of_cons Hne; [|by apply Hs]. apply Hk.
      apply insert_bar_stored in Hi. by rewrite (by_timestamp_get _ _ _ Hb) in Hi.
  - intros Hrest. destruct (IH _ _ Hrest) as [Hk Hs]. split; [done|].
    intros t' [->|Hin]%elem_of_cons Hne; [done|by apply Hs].
Qed.

(** What the service calls never removes a bar. *)
Lemma find_gaps_keeps c a b k t : preserves (λ w, stored w k t) (find_gaps c a b).
Proof. unfold find_gaps, get_bars. keep. Qed.

Lemma fetch_keeps_stored c p a b k t :
  preserves (λ w, stored w k t) (fetch instruments default_type_for c p a b).
Proof. unfold fetch. keep. Qed.

(** A boundary of the range that is not reported missing is stored. *)
Lemma find_gaps_spec k a b w missing w' :
  let period := period_of (s_interval k) in
  0 < period → find_gaps k a b w = (Ok missing, w') →
  ∀ t, a <= t <= b → t mod period = 0 → t ∈ missing ∨ stored w' k t.
Proof.
  intros period Hpos. unfold find_gaps. unfold mbind at 1, prog_bind at 1.
  destruct (ref_interval_period _ w) as [[p|e] wp] eqn:Hp; [|done].
  apply period_reads in Hp. fold period in Hp. subst p.
  unfold mbind at 1, prog_bind at 1, lift_res at 1.
  destruct (bar_starts_spec a b period Hpos) as (expected & -> & _ & Hexp).
  unfold get_bars. unfold mbind at 1, prog_bind at 1. unfold mbind at 1, prog_bind at 1, lift_res.
  destruct (require_cusip k) as [[]|e]; [|done].
  destruct (sp_get_price_bar k a b wp) as [[rows|e] w1] eqn:Hr; [|done].
  intros [= <- <-] t Ht Hm. rewrite list_elem_of_filter.
  destruct (decide (t ∈ br_timestamp <$> rows)) as [Hin|Hin].
  - right. by eapply listed_stored.
  - left. split; [done|]. by apply Hexp.
Qed.

(** The window of [lookback] boundaries up to the newest closed bar. *)
Definition in_window (period newest lookback t : Z) : Prop :=
  newest - period * (lookback - 1) <= t <= newest ∧ t mod period = 0.

Lemma filled_window k period newest lookback since rest w missing w1 w' n :
  period = period_of (s_interval k) → 0 < period →
  newest mod period = 0 → 1 <= lookback →
  find_gaps k (newest - period * (lookback - 1)) newest w = (Ok missing, w1) → missing = since :: rest →
  (fetched ← fetch instruments default_type_for k period since newest;
   _ ← lift_res (reject_incomplete k missing fetched newest);
   store_bars k missing fetched 0) w1 = (Ok n, w') →
  ∃ symbol t0 answer wf, vendor_symbol_of instruments k = Ok symbol ∧ default_type default_type_for (s_cusip k) = Ok t0 ∧
    src_fetch_bars symbol period since newest t0 w1 = (Ok answer, wf) ∧
    stored w' k newest ∧
    ∀ t, in_window period newest lookback t →
      stored w' k t ∨ ∀ b, b ∈ answer → t < bar_timestamp b.
Proof.
  intros Hper Hpos Hnew Hlook Hgaps Hmiss. unfold mbind at 1, prog_bind at 1.
  destruct (fetch _ _ k period since newest w1) as [[fetched|e] w2] eqn:Hf; [|done].
  assert (∀ t, stored w1 k t → stored w2 k t) as Hkeep2.
  { intros t Ht. pose proof (fetch_keeps_stored k period since newest k t w1 Ht) as Hp. by rewrite Hf in Hp. }
  revert Hf. unfold fetch.
  unfold mbind at 1, prog_bind at 1, lift_res at 1. destruct (vendor_symbol_of _ _) as [symbol|] eqn:Hsym; [|done].
  unfold mbind at 1, prog_bind at 1, lift_res at 1. destruct (default_type _ _) as [t0|] eqn:Ht0; [|done].
  unfold mbind at 1, prog_bind at 1.
  destruct (src_fetch_bars symbol period since newest t0 w1) as [[answer|] wf] eqn:Hsrc; [|done].
  intros [= <- <-].
  unfold mbind at 1, prog_bind at 1, lift_res at 1.
  destruct (reject_incomplete _ _ _ _) as [[]|] eqn:Hrej; [|done]. intros Hstore.
  destruct (store_bars_stored _ _ _ _ _ _ _ Hstore) as [Hkeep Hst].
  pose proof (reject_incomplete_ok _ _ _ _ Hrej) as Hok.
  assert (∀ t, in_window period newest lookback t → t ∈ missing ∨ stored w' k t) as Hwin.
  { intros t [Ht Hm]. rewrite Hper in Hm, Hpos. rewrite Hper in Hgaps.
    destruct (find_gaps_spec k _ _ _ _ _ Hpos Hgaps t) as [?|?]; [|done|by left|right; auto].
    by rewrite <-Hper. }
  exists symbol, t0, answer, wf. split_and!; [done|done|done| |].
  - destruct (Hwin newest) as [Hin|]; [split; [nia|done]| |done].
    destruct (dict_get newest (by_timestamp answer)) eqn:Hg; [apply Hst; congruence|].
    by destruct (Hok newest Hin Hg).
  - intros t Ht. destruct (Hwin t Ht) as [Hin|]; [|by left].
    destruct (dict_get t (by_timestamp answer)) eqn:Hg; [left; apply Hst; congruence|].
    right. by apply Hok.
Qed.

(** What a refresh did, from its own reads: the coverage already reached the last
    closed bar, and nothing else was looked at; or it did not, and every boundary of
    the window is stored, or the venue was asked for the bars from the oldest
    missing one on, the last closed bar is stored, and what still lacks precedes
    every bar the venue sent. *)
Definition refreshed k (lookback us : Z) (w : W) (n : Z) (w' : W) : Prop :=
  let period := period_of (s_interval k) in
  let newest := us / period * period - period in
  1 <= lookback ∧
  ∃ w0 coverage w1, ref_interval_period (s_interval k) w = (Ok period, w0) ∧ get_coverage k w0 = (Ok coverage, w1) ∧
  ((∃ oldest last, coverage = Some (oldest, last) ∧ newest <= last ∧ n = 0 ∧ w' = w1) ∨
   (∀ oldest last, coverage = Some (oldest, last) → last < newest) ∧
   ∃ missing w2, find_gaps k (newest - period * (lookback - 1)) newest w1 = (Ok missing, w2) ∧
   (missing = [] ∧ n = 0 ∧ w' = w2 ∧ (∀ t, in_window period newest lookback t → stored w' k t) ∨
    ∃ since rest symbol t0 answer w3, missing = since :: rest ∧
      vendor_symbol_of instruments k = Ok symbol ∧ default_type default_type_for (s_cusip k) = Ok t0 ∧
      src_fetch_bars symbol period since newest t0 w2 = (Ok answer, w3) ∧ stored w' k newest ∧
      ∀ t, in_window period newest lookback t → stored w' k t ∨ ∀ b, b ∈ answer → t < bar_timestamp b)).

Lemma newest_mod us period : 0 < period → (us / period * period - period) mod period = 0.
Proof.
  intros Hpos. replace (us / period * period - period) with ((us / period - 1) * period) by lia.
  apply Z.mod_mul. lia.
Qed.

Lemma ensure_fresh_refreshed k lookback us w n w' :
  0 < period_of (s_interval k) →
  ensure_fresh instruments default_type_for k lookback (Some (Utc us)) w = (Ok n, w') →
  refreshed k lookback us w n w'.
Proof.
  unfold refreshed. set (period := period_of (s_interval k)). set (newest := us / period * period - period).
  intros Hpos. unfold ensure_fresh. destruct (Z.ltb_spec lookback 1) as [|Hlook]; [done|].
  intros (p & w0 & Hp & Hrest)%bind_inv. pose proof (period_reads _ _ _ _ Hp) as Hper. fold period in Hper. subst p.
  revert Hrest. unfold moment. rewrite mret_bind, lift_bind. unfold last_closed_bar.
  rewrite floor_to_period_ok by done. cbn [mbind res_bind mret res_ret]. fold newest.
  intros (c & w1 & Hc & Hrest)%bind_inv. split; [done|]. exists w0, c, w1. split; [done|]. split; [done|].
  destruct (match c with Some (_, stored_max) => newest <=? stored_max | None => false end) eqn:Hcov.
  { left. destruct c as [[oldest last]|]; [|done]. injection Hrest as <- <-.
    exists oldest, last. split_and!; [done|lia|done|done]. }
  right. split; [intros oldest last ->; lia|].
  apply bind_inv in Hrest as (missing & w2 & Hg & Hrest). exists missing, w2. split; [done|].
  destruct missing as [|since rest].
  - left. injection Hrest as <- <-. split_and!; [done..|]. intros t [Ht Hm].
    by destruct (find_gaps_spec k _ _ _ _ _ Hpos Hg t Ht Hm) as [?%not_elem_of_nil|?].
  - right. destruct (filled_window k period newest lookback since rest w1 (since :: rest) w2 w' n)
      as (symbol & t0 & answer & w3 & Hsym & Ht0 & Hsrc & Hst & Hall); try done; [by apply newest_mod|].
    by exists since, rest, symbol, t0, answer, w3.
Qed.

(** A series is fresh once its last closed bar, or a later one, is stored. *)
Definition window_fresh k (lookback us : Z) (w' : W) : Prop :=
  let period := period_of (s_interval k) in
  ∃ last, us / period * period - period <= last ∧ stored w' k last.

Lemma ensure_fresh_fills k lookback us w n w' :
  0 < period_of (s_interval k) →
  ensure_fresh instruments default_type_for k lookback (Some (Utc us)) w = (Ok n, w') →
  window_fresh k lookback us w'.
Proof.
  intros Hpos Hrun. unfold window_fresh. set (period := period_of (s_interval k)) in *.
  set (newest := us / period * period - period).
  destruct (ensure_fresh_refreshed k lookback us w n w' Hpos Hrun) as (Hlook & w0 & c & w1 & _ & Hc & Hcases).
  fold period newest in Hcases.
  assert (in_window period newest lookback newest) as Hin by (split; [nia|by apply newest_mod]).
  destruct Hcases as [(oldest & last & -> & Hle & _ & ->)|(_ & missing & w2 & _ & [(_ & _ & _ & Hall)|Hfetched])].
  - exists last. split; [done|]. unfold get_coverage in Hc.
    apply bind_inv in Hc as (? & v & Hv & Hc). unfold lift_res in Hv. injection Hv as _ <-.
    apply bind_inv in Hc as (row & v & Hrow & Hc). injection Hc as Hc <-. by eapply coverage_stored.
  - exists newest. split; [lia|]. by apply Hall.
  - destruct Hfetched as (since & rest & symbol & t0 & answer & w3 & _ & _ & _ & _ & Hst & _). exists newest. split; [lia|done].
Qed.


(** Bars once stored stay, whatever the service does. *)
Lemma ensure_fresh_keeps c lookback now k t :
  preserves (λ w, stored w k t) (ensure_fresh instruments default_type_for c lookback now).
Proof.
  assert (∀ missing fetched n, preserves (λ w, stored w k t) (store_bars c missing fetched n)) as Hstore.
  { induction missing as [|t' missing IH]; intros fetched n; cbn [store_bars]; [intros w; exact id|].
    destruct (dict_get t' fetched); [|apply IH]. apply preserves_bind; [apply insert_bar_keeps|]. intros ok. apply IH. }
  pose proof (λ a b, find_gaps_keeps c a b k t) as Hgaps. pose proof (λ p a b, fetch_keeps_stored c p a b k t) as Hfetch.
  unfold ensure_fresh, moment, get_coverage. keep.
Qed.

Lemma sync_keeps i lookback now pairs k t :
  preserves (λ w, stored w k t) (sync instruments default_type_for pairs i lookback now).
Proof.
  unfold sync. generalize (@nil (string * Z)) as seen, 0 as n, (@nil (string * string)) as failures.
  induction pairs as [|[cusip app] pairs IH]; intros seen n failures; cbn [sync_all]; [intros w; exact id|].
  case_bool_decide; [apply IH|]. apply preserves_bind; [|intros [m|msg]; apply IH].
  pose proof (ensure_fresh_keeps (mkSeries cusip i app) lookback now k t). keep.
Qed.

Lemma window_fresh_keeps k lookback us w w' :
  (∀ t, stored w k t → stored w' k t) → window_fresh k lookback us w → window_fresh k lookback us w'.
Proof.
  intros Hk (last & Hle & Hl). exists last. auto.
Qed.

(** A batch settles each of its instruments: a failure is reported, or the window
    is fresh when the batch ends. *)
Lemma sync_settles i lookback us pairs w : 0 < period_of i →
  ∃ r w', sync instruments default_type_for pairs i lookback (Some (Utc us)) w = (Ok r, w') ∧
    ∀ cusip app, (cusip, app) ∈ pairs →
      is_Some (dict_get cusip (sy_failures r)) ∨ window_fresh (mkSeries cusip i app) lookback us w'.
Proof.
  intros Hpos. unfold sync.
  assert (∀ seen n failures, (∀ cusip app, (cusip, app) ∈ seen →
      is_Some (dict_get cusip failures) ∨ window_fresh (mkSeries cusip i app) lookback us w) →
    ∃ r w', sync_all instruments default_type_for i lookback (Some (Utc us)) pairs seen n failures w = (Ok r, w') ∧
      ∀ cusip app, (cusip, app) ∈ seen ∨ (cusip, app) ∈ pairs →
        is_Some (dict_get cusip (sy_failures r)) ∨ window_fresh (mkSeries cusip i app) lookback us w') as Hloop.
  { revert w. induction pairs as [|[cusip app] pairs IH]; intros w seen n failures Hseen; cbn [sync_all].
    { eexists _, w. split; [reflexivity|]. intros c a [Hc|?%not_elem_of_nil]; [by apply Hseen|done]. }
    case_bool_decide as Hin.
    { destruct (IH w seen n failures Hseen) as (r & w' & Hr & Hall). exists r, w'. split; [done|].
      intros c a [Hc|[[= -> ->]|Hc]%elem_of_cons]; apply Hall; auto. }
    assert (∀ k w1 r1, ensure_fresh instruments default_type_for (mkSeries cusip i app) lookback (Some (Utc us)) w = (r1, w1) →
      window_fresh k lookback us w → window_fresh k lookback us w1) as Hkeep.
    { intros k w1 r1 E. apply window_fresh_keeps. intros t Ht.
      pose proof (ensure_fresh_keeps (mkSeries cusip i app) lookback (Some (Utc us)) k t w Ht) as Hp. by rewrite E in Hp. }
    unfold mbind, prog_bind, catch.
    destruct (ensure_fresh instruments default_type_for (mkSeries cusip i app) lookback (Some (Utc us)) w) as [[m|e] w1] eqn:E;
      cbn [mret prog_ret].
    - destruct (IH w1 ((cusip, app) :: seen) (n + m) failures) as (r & w' & Hr & Hall).
      { intros c a [[= -> ->]|Hc]%elem_of_cons; [right; by eapply ensure_fresh_fills|].
        destruct (Hseen c a Hc) as [|Hf]; [by left|right; by eapply Hkeep]. }
      exists r, w'. split; [done|]. intros c a Hc. apply Hall. rewrite !elem_of_cons in *. tauto.
    - destruct (IH w1 ((cusip, app) :: seen) n (dict_set cusip (exn_msg e) failures)) as (r & w' & Hr & Hall).
      { intros c a [[= -> ->]|Hc]%elem_of_cons; [left; by rewrite dict_get_set|].
        destruct (decide (c = cusip)) as [->|Hne]; [left; by rewrite dict_get_set|].
        rewrite dict_get_set_ne by done. destruct (Hseen c a Hc) as [|Hf]; [by left|right; by eapply Hkeep]. }
      exists r, w'. split; [done|]. intros c a Hc. apply Hall. rewrite !elem_of_cons in *. tauto. }
  destruct (Hloop [] 0 []) as (r & w' & Hr & Hall); [by intros c a ?%not_elem_of_nil|].
  exists r, w'. split; [done|]. intros c a Hc. apply Hall. by right.
Qed.
End fresh.

(** ** Planning a fill *)

Section planning.
Context {W : Type} `{BarStore W} `{BarSource W} `{ReferenceData W}.
Context (instruments : InstrumentCache) (default_type_for : option (string → res exn (option string))).
Implicit Types k : series.

(** How [whole_periods] counts the boundaries between two of them. *)
Lemma whole_periods_exact q period : 0 < period → 0 <= q < 2 ^ 53 →
  whole_periods (q * period) period = Ok q.
Proof.
  intros Hp Hq. unfold whole_periods. rewrite (proj2 (Z.eqb_neq _ _)) by lia.
  by rewrite trunc_truediv_exact.
Qed.

(** The plan for a gap that ends at [end_], [n] periods after the target. *)
Definition plan_to (period target n : Z) : BackfillPlan :=
  let end_ := target + n * period in
  let start := Z.max target (end_ - period * (MAX_BACKFILL_BARS - 1)) in
  mkPlan (Some start) (Some end_) (Z.min n (MAX_BACKFILL_BARS - 1) + 1)
    (ceil_div (n + 1) MAX_BACKFILL_BARS) target.

(** The newest boundary the gap can end at. *)
Definition gap_end (period last_closed : Z) (bounds : option (Z * Z)) : Z :=
  match bounds with None => last_closed | Some (first, _) => first - period end.

Lemma plan_backfill_to k period target us n bounds w w0 w1 :
  let last_closed := us / period * period - period in
  ref_interval_period (s_interval k) w = (Ok period, w0) → get_coverage k w0 = (Ok bounds, w1) →
  0 < period → target <= last_closed → 0 <= n < 2 ^ 53 →
  gap_end period last_closed bounds = target + n * period →
  plan_backfill k (Utc target) (Some (Utc us)) w = (Ok (plan_to period target n), w1).
Proof.
  intros last_closed Hp Hc Hpos Ht Hn He. unfold plan_backfill.
  rewrite (bind_ok _ _ _ _ _ Hp). unfold moment. rewrite mret_bind, lift_bind.
  unfold last_closed_bar. rewrite floor_to_period_ok by done. cbn [mbind res_bind mret res_ret].
  fold last_closed. cbn [as_utc]. rewrite (proj2 (Z.ltb_ge _ _) Ht).
  unfold stored_bounds. rewrite (bind_ok _ _ _ _ _ Hc).
  assert (match bounds with
          | None => Some last_closed
          | Some (first_bar, _) => if first_bar <=? target then None else Some (first_bar - period)
          end = Some (target + n * period)) as ->.
  { unfold gap_end in He. destruct bounds as [[first ?]|]; [|by rewrite He].
    rewrite (proj2 (Z.leb_gt _ _)) by nia. by rewrite He. }
  set (end_ := target + n * period).
  set (start := Z.max target (end_ - period * (MAX_BACKFILL_BARS - 1))).
  assert (end_ - start = Z.min n (MAX_BACKFILL_BARS - 1) * period) as ->.
  { unfold start, end_, MAX_BACKFILL_BARS. destruct (Z.min_spec n (10000 - 1)) as [[? ->]|[? ->]]; nia. }
  rewrite lift_bind, whole_periods_exact by (unfold MAX_BACKFILL_BARS; lia).
  assert (end_ - target = n * period) as -> by (unfold end_; lia).
  by rewrite lift_bind, whole_periods_exact.
Qed.

Lemma plan_backfill_done k period target us first last w w0 w1 :
  ref_interval_period (s_interval k) w = (Ok period, w0) →
  get_coverage k w0 = (Ok (Some (first, last)), w1) → 0 < period →
  target <= us / period * period - period → first <= target →
  plan_backfill k (Utc target) (Some (Utc us)) w = (Ok (mkPlan None None 0 0 target), w1).
Proof.
  intros Hp Hc Hpos Ht Hf. unfold plan_backfill.
  rewrite (bind_ok _ _ _ _ _ Hp). unfold moment. rewrite mret_bind, lift_bind.
  unfold last_closed_bar. rewrite floor_to_period_ok by done. cbn [mbind res_bind mret res_ret as_utc].
  rewrite (proj2 (Z.ltb_ge _ _) Ht). unfold stored_bounds. rewrite (bind_ok _ _ _ _ _ Hc).
  by rewrite (proj2 (Z.leb_le _ _) Hf).
Qed.

(** A deep fill in stages. *)
Theorem plan_backfill_converges k period target us us' n bounds last w w0 w1 v v0 v1 :
  ref_interval_period (s_interval k) w = (Ok period, w0) → get_coverage k w0 = (Ok bounds, w1) →
  0 < period → target <= us / period * period - period → us <= us' → 0 <= n < 2 ^ 53 →
  gap_end period (us / period * period - period) bounds = target + n * period →
  ∃ p start end_, plan_backfill k (Utc target) (Some (Utc us)) w = (Ok p, w1) ∧
    pl_start p = Some start ∧ pl_end p = Some end_ ∧ target <= start <= end_ ∧
    end_ = gap_end period (us / period * period - period) bounds ∧
    pl_bars p * period = end_ - start + period ∧ pl_bars p <= MAX_BACKFILL_BARS ∧
    (ref_interval_period (s_interval k) v = (Ok period, v0) →
     get_coverage k v0 = (Ok (Some (start, last)), v1) →
     ∃ p', plan_backfill k (Utc target) (Some (Utc us')) v = (Ok p', v1) ∧
       pl_passes_remaining p' = pl_passes_remaining p - 1 ∧
       (is_complete p' = true ↔ pl_passes_remaining p = 1)).
Proof.
  intros Hp Hc Hpos Ht Hus Hn He.
  assert (us / period * period - period <= us' / period * period - period) as Hus'.
  { pose proof (Z.div_le_mono us us' period Hpos Hus). nia. }
  exists (plan_to period target n). eexists _, _.
  split; [by apply (plan_backfill_to _ _ _ _ _ bounds _ w0)|].
  split; [done|]. split; [done|]. rewrite He. simpl.
  unfold MAX_BACKFILL_BARS. destruct (Z_lt_le_dec n 10000) as [Hlt|Hge].
  - rewrite (Z.min_l n) by lia. rewrite (Z.max_l target) by nia.
    split; [nia|]. split; [done|]. split; [nia|]. split; [lia|]. intros Hp' Hc'.
    eexists. split; [eapply (plan_backfill_done _ period _ _ target); [done|done|done|lia|lia]|].
    assert (ceil_div (n + 1) 10000 = 1) as ->; [|done].
    unfold ceil_div. assert (- (n + 1) / 10000 = -1); [|lia].
    symmetry. apply (Z.div_unique _ _ _ (10000 - (n + 1))); lia.
  - rewrite (Z.min_r n) by lia. rewrite (Z.max_r target) by nia.
    split; [nia|]. split; [done|]. split; [lia|]. split; [lia|]. intros Hp' Hc'.
    exists (plan_to period target (n - 10000)).
    split; [eapply (plan_backfill_to _ _ _ _ _ (Some (_, last)) _ v0); [done|exact Hc'|done|lia|lia|simpl; lia]|].
    simpl. unfold MAX_BACKFILL_BARS, ceil_div.
    replace (- (n - 10000 + 1)) with (- (n + 1) + 1 * 10000) by lia. rewrite Z.div_add by lia.
    assert (- (n + 1) / 10000 <= -2) by (apply Z.lt_succ_r, Z.div_lt_upper_bound; lia).
    split; [lia|]. split; [done|lia].
Qed.

(** A target off the grid is never reached. *)
Theorem plan_stuck_off_grid k period target us now first last p w w0 w1 v v0 :
  ref_interval_period (s_interval k) w = (Ok period, w0) →
  get_coverage k w0 = (Ok (Some (first, last)), w1) →
  0 < period → target <= us / period * period - period →
  target < first < target + period →
  plan_backfill k (Utc target) (Some (Utc us)) w = (Ok p, w1) →
  ref_interval_period (s_interval k) v = (Ok period, v0) →
  is_complete p = false ∧ pl_start p = Some target ∧ pl_end p = Some (first - period) ∧
  ∃ e, isinstance e CValueError = true ∧
    backfill instruments default_type_for k (Utc target) (Some (Utc (first - period))) now v
    = (Raise e, v0).
Proof.
  intros Hp Hc Hpos Ht Hfirst Hplan Hp'.
  assert (pl_start p = Some target ∧ pl_end p = Some (first - period)) as [Hs He].
  { revert Hplan. unfold plan_backfill.
    rewrite (bind_ok _ _ _ _ _ Hp). unfold moment. rewrite mret_bind, lift_bind.
    unfold last_closed_bar. rewrite floor_to_period_ok by done. cbn [mbind res_bind mret res_ret as_utc].
    rewrite (proj2 (Z.ltb_ge _ _) Ht). unfold stored_bounds. rewrite (bind_ok _ _ _ _ _ Hc).
    rewrite (proj2 (Z.leb_gt _ _)) by lia. rewrite lift_bind.
    destruct (whole_periods _ period); [|done]. rewrite lift_bind.
    destruct (whole_periods _ period); [|done]. intros [= <-]. simpl. split; [|done].
    f_equal. unfold MAX_BACKFILL_BARS. nia. }
  unfold is_complete. rewrite Hs. do 3 (split; [done|]).
  eexists (ValueError _). split; [reflexivity|]. unfold backfill. rewrite (bind_ok _ _ _ _ _ Hp').
  cbn [as_utc]. rewrite mret_bind. rewrite (proj2 (Z.ltb_lt _ _)) by lia. done.
Qed.
End planning.

(** ** What a served window may lack *)

Lemma ohlcv_frame_times bars : fr_datetime <$> ohlcv_frame bars ≡ₚ bar_timestamp <$> bars.
Proof.
  unfold ohlcv_frame, sort_index. rewrite (sorted_by_perm _ (frame_of_bar <$> bars)).
  by rewrite <-list_fmap_compose.
Qed.

Section holes.
Context {W : Type} `{BarStore W} `{BarSource W} `{ReferenceData W}.
Context (instruments : InstrumentCache) (default_type_for : option (string → res exn (option string))).

(** The window a signal is computed on may have holes.  Once the newest closed
    bar is stored, a window is served as soon as the count of its stored bars
    reaches the required share: no boundary inside it is checked and the venue is
    not asked, so whatever boundary is missing is missing from the frame. *)
Theorem load_window_trusts_newest k lookback us period required oldest last rows w w0 w1 w2 w3 :
  let newest := us / period * period - period in
  1 <= lookback → 0 < period →
  ref_interval_period (s_interval k) w = (Ok period, w0) →
  get_coverage k w0 = (Ok (Some (oldest, last)), w1) → newest <= last →
  ref_interval_period (s_interval k) w1 = (Ok period, w2) →
  get_bars k (newest - period * (lookback - 1)) newest w2 = (Ok rows, w3) →
  ceil_int (fmul (of_Z lookback) MIN_WINDOW_COVERAGE) = Ok required →
  required <= Z.of_nat (length rows) →
  ∃ frame, load_window instruments default_type_for k lookback (Some (Utc us)) false w
           = (Ok frame, w3) ∧
    ∀ t, t ∉ br_timestamp <$> rows → t ∉ fr_datetime <$> frame.
Proof.
  intros newest Hlook Hpos Hp Hc Hlast Hp' Hrows Hreq Hlen.
  assert (ensure_fresh instruments default_type_for k lookback (Some (Utc us)) w = (Ok 0, w1)) as Hfresh.
  { unfold ensure_fresh. rewrite (proj2 (Z.ltb_ge _ _) Hlook), (bind_ok _ _ _ _ _ Hp).
    unfold moment. rewrite mret_bind, lift_bind. unfold last_closed_bar.
    rewrite floor_to_period_ok by done. cbn [mbind res_bind mret res_ret]. fold newest.
    rewrite (bind_ok _ _ _ _ _ Hc). by rewrite (proj2 (Z.leb_le _ _) Hlast). }
  exists (ohlcv_frame (bar_of_row <$> rows)). split.
  - unfold load_window. rewrite (bind_ok _ _ _ _ _ Hfresh), (bind_ok _ _ _ _ _ Hp').
    unfold moment. rewrite mret_bind, lift_bind. unfold last_closed_bar.
    rewrite floor_to_period_ok by done. cbn [mbind res_bind mret res_ret]. fold newest.
    rewrite (proj2 (Z.leb_le _ _) Hlook). unfold read_bars.
    assert ((rows ← get_bars k (newest - period * (lookback - 1)) newest;
             mret (ohlcv_frame (bar_of_row <$> rows))) w2
            = (Ok (ohlcv_frame (bar_of_row <$> rows)), w3)) as Hread
      by by rewrite (bind_ok _ _ _ _ _ Hrows).
    rewrite (bind_ok _ _ _ _ _ Hread), mret_bind, Hreq. cbn [res_map_exn].
    rewrite lift_bind, (proj2 (Z.ltb_ge _ _)); [done|].
    assert (length (ohlcv_frame (bar_of_row <$> rows)) = length rows) as ->; [|done].
    pose proof (Permutation_length (ohlcv_frame_times (bar_of_row <$> rows))) as Hl.
    by rewrite !length_fmap in Hl.
  - intros t Ht. rewrite ohlcv_frame_times, <-list_fmap_compose. exact Ht.
Qed.
End holes.

(** ** A table of daily bars *)

(** The world is the stored times of one series; the venue serves every day from
    [listed] on. *)
Definition listed : Z := 19000 * DAY.
Definition flat_bar (t : Z) : OhlcvBar := mkBar t fzero fzero fzero fzero fzero.
Definition flat_row (t : Z) : bar_row :=
  let d := mkDecimal 0 0 in mkBarRow t d d d d d.
Definition btc : series := mkSeries "BTC.crypto" 1 11.

#[local] Instance day_store : BarStore (list Z) := {|
  sp_price_bar_coverage _ w :=
    (Ok (match w with [] => None | t :: w' => Some (Some (foldl Z.min t w', foldl Z.max t w')) end), w);
  sp_get_price_bar _ a b w := (Ok (flat_row <$> filter (λ t, a <= t ∧ t <= b) w), w);
  sp_ins_price_bar _ b w := (Ok tt, bar_timestamp b :: w)
|}.

#[local] Instance day_venue : BarSource (list Z) := {|
  src_fetch_bars _ p a b _ w :=
    (Ok (flat_bar <$> starts_from (Z.to_nat ((b - a) / DAY + 1)) (Z.max a listed) b DAY), w);
  src_earliest_bar _ _ _ w := (Ok (Some listed), w);
  src_venue_symbols w := (Ok [], w);
  utc_now w := (Ok 0, w)
|}.

#[local] Instance daily : ReferenceData (list Z) := {|
  ref_app_id _ w := (Ok (Some 11), w);
  ref_interval_period _ w := (Ok DAY, w);
  ref_execute_offset _ _ w := (Ok 0, w);
  ref_market_calendar _ w := (Ok (mkCalendar "" "UTC" None None), w);
  ref_interval_label i w := (Ok (str_Z i), w);
  ref_setting _ w := (Raise (RuntimeError "no setting"), w);
  ref_interval_ids w := (Ok [1], w)
|}.

Lemma foldl_min_elem t w : foldl Z.min t w ∈ t :: w.
Proof.
  revert t. induction w as [|x w IH]; intros t; [left|]. cbn [foldl]. specialize (IH (Z.min t x)).
  apply elem_of_cons in IH as [->|?]; [|by do 2 right]. destruct (Z.min_spec t x) as [[_ ->]|[_ ->]]; [left|right; left].
Qed.

Lemma foldl_max_elem t w : foldl Z.max t w ∈ t :: w.
Proof.
  revert t. induction w as [|x w IH]; intros t; [left|]. cbn [foldl]. specialize (IH (Z.max t x)).
  apply elem_of_cons in IH as [->|?]; [|by do 2 right]. destruct (Z.max_spec t x) as [[_ ->]|[_ ->]]; [right; left|left].
Qed.

#[local] Instance day_laws : StoreLaws (list Z).
Proof.
  refine {| stored := λ w _ t, t ∈ w; period_of := λ _, DAY |}; try (intros; intros w Hw; exact Hw).
  - intros i w p w' [= <- _]. done.
  - intros k a b w rows w' [= <- <-] t. rewrite <-list_fmap_compose, list_elem_of_fmap.
    intros (t' & -> & [_ Ht]%list_elem_of_filter). exact Ht.
  - intros k b w w' [= <-]. left.
  - intros k w row oldest last w' [= <- <-]. destruct w as [|t w]; [done|]. intros [= <- <-].
    split; [apply foldl_min_elem|apply foldl_max_elem].
  - done.
  - intros c b k t w Hw. by right.
Defined.

Definition btc_listed : InstrumentCache :=
  cache_of [mkProduct 1 "BTC.crypto" None None None] [mkXref 1 11 "BTCUSDT"].


(** Five days with the middle one missing. *)
Definition holed : list Z := [19003 * DAY; 19002 * DAY; 19000 * DAY; 18999 * DAY].

Lemma load_window_trusts_newest_witness :
  ∃ frame, load_window btc_listed None btc 5 (Some (Utc (19004 * DAY))) false holed = (Ok frame, holed) ∧
           19001 * DAY ∉ fr_datetime <$> frame.
Proof.
  assert (get_coverage btc holed = (Ok (Some (18999 * DAY, 19003 * DAY)), holed)) as Hc
    by (vm_compute; reflexivity).
  assert (get_bars btc (19004 * DAY / DAY * DAY - DAY - DAY * (5 - 1)) (19004 * DAY / DAY * DAY - DAY) holed
          = (Ok (flat_row <$> holed), holed)) as Hr by (vm_compute; reflexivity).
  assert (ceil_int (fmul (of_Z 5) MIN_WINDOW_COVERAGE) = Ok 4) as Hq by (vm_compute; reflexivity).
  assert (19004 * DAY / DAY * DAY - DAY <= 19003 * DAY) as Hl by (vm_compute; discriminate).
  pose proof (load_window_trusts_newest (W := list Z) btc_listed None btc 5 (19004 * DAY) DAY 4
    (18999 * DAY) (19003 * DAY) (flat_row <$> holed) holed holed holed holed holed) as Hw.
  cbv zeta in Hw. specialize (Hw ltac:(lia) ltac:(vm_compute; reflexivity)).
  specialize (Hw eq_refl Hc Hl eq_refl Hr Hq ltac:(vm_compute; discriminate)).
  destruct Hw as (frame & Hload & Hmiss).
  exists frame. split; [exact Hload|]. apply Hmiss.
  apply (bool_decide_unpack _). vm_compute. done.
Defined.

(** A fill of 10,002 days takes two passes. *)
Lemma plan_backfill_converges_witness :
  ∃ p start, plan_backfill btc (Utc 0) (Some (Utc (10003 * DAY))) [] = (Ok p, []) ∧
    pl_start p = Some start ∧ pl_bars p <= MAX_BACKFILL_BARS ∧
    (get_coverage btc [start; start + 9999 * DAY] =
       (Ok (Some (start, start + 9999 * DAY)), [start; start + 9999 * DAY]) →
     ∃ p', plan_backfill btc (Utc 0) (Some (Utc (10003 * DAY))) [start; start + 9999 * DAY]
           = (Ok p', [start; start + 9999 * DAY]) ∧
           pl_passes_remaining p' = pl_passes_remaining p - 1).
Proof.
  assert (0 < DAY) as Hd by (vm_compute; reflexivity).
  assert (0 <= 10003 * DAY / DAY * DAY - DAY) as Ht by (vm_compute; discriminate).
  assert (gap_end DAY (10003 * DAY / DAY * DAY - DAY) None = 0 + 10002 * DAY) as He
    by (vm_compute; reflexivity).
  assert (0 <= 10002 < 2 ^ 53) as Hn by lia.
  pose proof (plan_backfill_converges (W := list Z) btc DAY 0 (10003 * DAY) (10003 * DAY) 10002 None) as Hc.
  destruct (Hc (3 * DAY + 9999 * DAY) [] [] [] [3 * DAY; 3 * DAY + 9999 * DAY]
    [3 * DAY; 3 * DAY + 9999 * DAY] [3 * DAY; 3 * DAY + 9999 * DAY]
    eq_refl eq_refl Hd Ht (Z.le_refl _) Hn He)
    as (p & start & end_ & Hp & Hs & _ & _ & _ & _ & Hb & Hnext).
  assert (Some start = Some (3 * DAY)) as [= ->].
  { rewrite <-Hs. clear -Hp. vm_compute in Hp. injection Hp as <-. vm_compute. reflexivity. }
  exists p, (3 * DAY). split; [exact Hp|]. split; [exact Hs|]. split; [exact Hb|].
  intros Hcov. destruct (Hnext eq_refl Hcov) as (p' & Hp' & Hpass & _). exists p'. by split.
Defined.

(** A target at noon of a daily series. *)
Lemma plan_stuck_off_grid_witness :
  let p := mkPlan (Some (19000 * DAY + 12 * HOUR)) (Some (19000 * DAY)) 1 1 (19000 * DAY + 12 * HOUR) in
  plan_backfill btc (Utc (19000 * DAY + 12 * HOUR)) (Some (Utc (19004 * DAY))) [19002 * DAY; 19001 * DAY]
    = (Ok p, [19002 * DAY; 19001 * DAY]) ∧
  is_complete p = false ∧
  ∃ e, isinstance e CValueError = true ∧
    backfill btc_listed None btc (Utc (19000 * DAY + 12 * HOUR)) (Some (Utc (19001 * DAY - DAY))) None []
    = (Raise e, []).
Proof.
  intros p.
  assert (plan_backfill btc (Utc (19000 * DAY + 12 * HOUR)) (Some (Utc (19004 * DAY)))
    [19002 * DAY; 19001 * DAY] = (Ok p, [19002 * DAY; 19001 * DAY])) as Hp by (vm_compute; reflexivity).
  split; [exact Hp|].
  assert (get_coverage btc [19002 * DAY; 19001 * DAY]
          = (Ok (Some (19001 * DAY, 19002 * DAY)), [19002 * DAY; 19001 * DAY])) as Hcov
    by (vm_compute; reflexivity).
  assert (19000 * DAY + 12 * HOUR <= 19004 * DAY / DAY * DAY - DAY) as Ht by (vm_compute; discriminate).
  assert (19000 * DAY + 12 * HOUR < 19001 * DAY < 19000 * DAY + 12 * HOUR + DAY) as Hf
    by (split; vm_compute; reflexivity).
  pose proof (plan_stuck_off_grid (W := list Z) btc_listed None btc DAY (19000 * DAY + 12 * HOUR)
    (19004 * DAY) None (19001 * DAY) (19002 * DAY) p) as Hs.
  destruct (Hs [19002 * DAY; 19001 * DAY] [19002 * DAY; 19001 * DAY] [19002 * DAY; 19001 * DAY] [] []
    eq_refl Hcov ltac:(vm_compute; reflexivity) Ht Hf Hp eq_refl) as (Hc & _ & _ & Hb).
  split; [exact Hc|exact Hb].
Defined.
