(* ===== verification/Promotion.v ===== *)
(** * Promotion of backtested strategies

    [quant/promotion/evaluate.py] and [repo.py], and the result columns of
    [quant/queue/result_metrics.py]: whether a finished run becomes the best
    version of its strategy.  The stored procedures are a parameter. *)
From S2P Require Import Prelude PyFloat PyData Order Errors PyValue RefData.

(** ** [evaluate.py] *)

Definition PROMOTED : string := "PROMOTED".
Definition KEPT : string := "KEPT".
Definition DEMOTED : string := "DEMOTED".
Definition REJECTED : string := "REJECTED".

Record GateResult := mkGate {
  g_name : pyval; g_metric_key : string; g_passed : bool;
  g_value : option float; g_threshold : option float
}.

Record PromotionDecision := mkDecision {
  pd_outcome : string; pd_gate_results : list GateResult; pd_compared_vid : option Z
}.

(** [_finite] *)
Definition finite (v : pyval) : res exn (option float) :=
  match v with
  | VBool _ | VNone => mret None
  | _ => match float_val v with
         | Ok f => mret (if is_finite f then Some f else None)
         | Raise e => if isinstance e CTypeError || isinstance e CValueError then mret None
                      else Raise e
         end
  end.

(** [v.get(k) or {}] *)
Definition get_dict_or (k : string) (v : pyval) : res exn pyval :=
  x ← get k v; mret (if truthy x then x else VDict []).

(** [_finite((v.get(section) or {}).get(key))] *)
Definition metric_in (section key : string) (v : pyval) : res exn (option float) :=
  s ← get_dict_or section v; x ← get key s; finite x.

(** [_extract_metric] *)
Definition extract_metric (payload : pyval) (metric_key : string) : res exn (option float) :=
  perf ← get_dict_or "performance" payload;
  if String.eqb metric_key "OOS Sharpe Ratio" then
    wf ← get_dict_or "walk_forward" payload;
    metric_in "oos_metrics" "Sharpe Ratio" wf
  else if String.eqb metric_key "Sharpe Excess" then
    strategy ← metric_in "strategy_metrics" "Sharpe Ratio" perf;
    buy_hold ← metric_in "buy_hold_metrics" "Sharpe Ratio" perf;
    mret (match strategy, buy_hold with
          | Some s, Some b => Some (fsub s b)
          | _, _ => None
          end)
  else metric_in "strategy_metrics" metric_key perf.

(** [_compare] *)
Definition compare (a b : float) (direction : string) : Z :=
  let gt x y := if fltb y x then 1 else 0 in
  if String.eqb direction "lower_is_better" then gt b a - gt a b else gt a b - gt b a.

(** [_meets_threshold] *)
Definition meets_threshold (value : option float) (threshold : float) (direction : string) : bool :=
  match value with Some v => 0 <=? compare v threshold direction | None => false end.

(** The columns of a [CONFIG.PROMOTION_METRIC] row; [requirement_type] and
    [threshold] may be absent, and a row without a [name] is named by its key. *)
Record metric := mkMetric {
  m_requirement_type : string; m_metric_key : string; m_name : pyval;
  m_threshold : option pyval; m_direction : string
}.

(** [_group_by_type(metrics).get(t, [])] *)
Definition of_type (t : string) (metrics : list metric) : list metric :=
  List.filter (λ m, String.eqb (m_requirement_type m) t) metrics.

(** [_evaluate_hard] *)
Fixpoint evaluate_hard (payload : pyval) (hard : list metric) : res exn (list GateResult) :=
  match hard with
  | [] => mret []
  | m :: hard' =>
      match m_threshold m with
      | None => evaluate_hard payload hard'
      | Some t =>
          v ← extract_metric payload (m_metric_key m);
          threshold ← float_val t;
          gates ← evaluate_hard payload hard';
          mret (mkGate (m_name m) (m_metric_key m) (meets_threshold v threshold (m_direction m))
                  v (Some threshold) :: gates)
      end
  end.

(** [_evaluate_soft] *)
Fixpoint evaluate_soft (new_payload best_payload : pyval) (soft : list metric) : res exn string :=
  match soft with
  | [] => mret KEPT
  | m :: soft' =>
      new_val ← extract_metric new_payload (m_metric_key m);
      best_val ← extract_metric best_payload (m_metric_key m);
      match new_val, best_val with
      | None, _ => evaluate_soft new_payload best_payload soft'
      | Some _, None => mret PROMOTED
      | Some n, Some b =>
          let cmp := compare n b (m_direction m) in
          if cmp =? 0 then evaluate_soft new_payload best_payload soft'
          else mret (if 0 <? cmp then PROMOTED else KEPT)
      end
  end.

Definition all_passed (gates : list GateResult) : bool := forallb g_passed gates.

(** [passes_hard_gates] *)
Definition passes_hard_gates (payload : pyval) (metrics : list metric) : res exn bool :=
  gates ← evaluate_hard payload (of_type "HARD" metrics); mret (all_passed gates).

(** [evaluate_promotion] *)
Definition evaluate_promotion (new_payload : pyval) (best_payload : option pyval)
    (metrics : list metric) (is_current_best : bool) (best_vid : option Z) (strategy_vid : Z)
    : res exn PromotionDecision :=
  match metrics with
  | [] => mret (mkDecision REJECTED [] best_vid)
  | _ =>
      gates ← evaluate_hard new_payload (of_type "HARD" metrics);
      if is_current_best then
        if strategy_vid =? 1 then mret (mkDecision KEPT gates None)
        else mret (mkDecision (if all_passed gates then KEPT else DEMOTED) gates None)
      else if negb (all_passed gates) then mret (mkDecision REJECTED gates best_vid)
      else
        outcome ← match best_payload with
                  | None => mret PROMOTED
                  | Some best => evaluate_soft new_payload best (of_type "SOFT" metrics)
                  end;
        mret (mkDecision outcome gates best_vid)
  end.

(** ** [result_metrics.py] *)

(** [_metric_value] *)
Definition metric_value (v : pyval) : res exn (option float) :=
  match v with
  | VNone => mret None
  | _ => match float_val v with
         | Ok f => mret (if is_finite f then Some f else None)
         | Raise e => if isinstance e CTypeError || isinstance e CValueError then mret None
                      else Raise e
         end
  end.

Definition RESULT_KEYS : list string :=
  ["Total Return"; "Annualized Return"; "Sharpe Ratio"; "Max Drawdown"; "Calmar Ratio"].

(** [_read_metrics] *)
Definition read_metrics (metrics : pyval) : res exn (list (option float)) :=
  let src := if truthy metrics then metrics else VDict [] in
  map_res (λ k, x ← get k src; metric_value x) RESULT_KEYS.

(** [extract_shredded_metrics]: the five strategy columns, then buy-and-hold's. *)
Definition extract_shredded_metrics (payload : pyval)
    : res exn (list (option float) * list (option float)) :=
  perf ← get_dict_or "performance" payload;
  strat ← (x ← get "strategy_metrics" perf; read_metrics x);
  bh ← (x ← get "buy_hold_metrics" perf; read_metrics x);
  mret (strat, bh).

(** ** [repo.py] *)

(** A strategy version marked best. *)
Record best_row := mkBest { b_strategy_vid : Z }.

(** The row [sp_ins_promotion] writes. *)
Record promotion_write := mkPromotionWrite {
  pw_queue_id : string; pw_strategy_id : string; pw_strategy_vid : Z; pw_outcome : string;
  pw_compared_vid : option Z; pw_gates : option (list GateResult); pw_user_id : string
}.

Class PromotionDb (W : Type) := {
  promotion_metrics : prog W exn (list metric);
  best_versions : string → prog W exn (list best_row);
  result_payload : string → Z → prog W exn (option pyval);
  promotion_states : prog W exn (list pyval);
  sp_promote_strategy : string → option Z → string → prog W exn unit;
  sp_ins_promotion : promotion_write → prog W exn unit
}.

Section repo.
Context {W : Type} `{PromotionDb W}.

(** [_apply] *)
Definition apply_decision (d : PromotionDecision) (sid : string) (vid : Z) (user qid : string)
    : prog W exn unit :=
  _ ← (if String.eqb (pd_outcome d) DEMOTED || String.eqb (pd_outcome d) PROMOTED then
         sp_promote_strategy sid (if String.eqb (pd_outcome d) PROMOTED then Some vid else None) user
       else mret tt);
  sp_ins_promotion (mkPromotionWrite qid sid vid (pd_outcome d) (pd_compared_vid d)
    (match pd_gate_results d with [] => None | gs => Some gs end) user).

(** [run] *)
Definition promotion_run (sid : string) (vid : Z) (user : string) (payload : pyval) (qid : string)
    : prog W exn PromotionDecision :=
  metrics ← promotion_metrics;
  best_rows ← best_versions sid;
  let best := head best_rows in
  let is_current_best := match best with Some b => b_strategy_vid b =? vid | None => false end in
  best_payload ← match best with
                 | Some b => if is_current_best then mret None else result_payload sid (b_strategy_vid b)
                 | None => mret None
                 end;
  d ← lift_res (evaluate_promotion payload best_payload metrics is_current_best
                  (b_strategy_vid <$> best) vid);
  states ← promotion_states;
  _ ← lift_res (validate_name "PROMOTION_STATE" states (pd_outcome d));
  _ ← apply_decision d sid vid user qid;
  mret d.
End repo.

(** ** Ranking *)

(** The order a direction ranks values by. *)
Definition ahead (direction : string) (a b : float) : Prop :=
  if String.eqb direction "lower_is_better" then below (rank a) (rank b) else below (rank b) (rank a).

Lemma compare_spec a b d : is_nan a = false → is_nan b = false →
  (0 < compare a b d ↔ ahead d a b) ∧ (compare a b d = 0 ↔ rank a = rank b).
Proof.
  intros Ha Hb. unfold compare, ahead.
  pose proof (fltb_below a b Ha Hb) as Hab. pose proof (fltb_below b a Hb Ha) as Hba.
  pose proof (below_total (rank a) (rank b)) as Htot.
  pose proof (below_irrefl (rank a)) as Hia. pose proof (below_irrefl (rank b)) as Hib.
  pose proof (below_trans (rank a) (rank b) (rank a)) as Htr.
  assert (rank a = rank b → ¬ below (rank a) (rank b) ∧ ¬ below (rank b) (rank a)) as Heq
    by (intros ->; done).
  destruct (String.eqb d _), (fltb a b), (fltb b a); split; split; intros ?; try lia; intuition congruence.
Qed.

Section ranking.
Implicit Types (a b c : pyval) (soft : list metric).

(** A payload that reports every metric it is ranked by. *)
Definition reports soft (p : pyval) : Prop :=
  Forall (λ m, ∃ f, extract_metric p (m_metric_key m) = Ok (Some f) ∧ is_nan f = false) soft.

Definition reported (p : pyval) (m : metric) : float :=
  match extract_metric p (m_metric_key m) with Ok (Some f) => f | _ => fzero end.

(** The candidate [a] would replace the best version [b]. *)
Definition beats soft a b : Prop := evaluate_soft a b soft = Ok PROMOTED.

(** One metric of a ranking: ahead decides, equal ranks pass on. *)
Lemma beats_cons m soft a b : reports (m :: soft) a → reports (m :: soft) b →
  beats (m :: soft) a b ↔
  ahead (m_direction m) (reported a m) (reported b m) ∨
  rank (reported a m) = rank (reported b m) ∧ beats soft a b.
Proof.
  unfold reports. rewrite !Forall_cons. intros [(x & Hx & Hnx) _] [(y & Hy & Hny) _].
  unfold beats, reported. cbn [evaluate_soft]. rewrite Hx, Hy. cbn [mbind res_bind].
  destruct (compare_spec x y (m_direction m) Hnx Hny) as [Hlt Heq].
  destruct (Z.eqb_spec (compare x y (m_direction m)) 0) as [Hz|Hz].
  - rewrite <-Hlt, <-Heq, Hz. split; [by right|]. by intros [?|[_ ?]].
  - rewrite <-Heq, <-Hlt. destruct (Z.ltb_spec 0 (compare x y (m_direction m))).
    + split; [by left|done].
    + split; [done|]. intros [?|[? _]]; [lia|done].
Qed.

Lemma reports_tail m soft p : reports (m :: soft) p → reports soft p.
Proof. unfold reports. rewrite Forall_cons. tauto. Qed.

Lemma ahead_trans d x y z : ahead d x y → ahead d y z → ahead d x z.
Proof. unfold ahead. case_match; eauto using below_trans. Qed.

Lemma ahead_irrefl d x : ¬ ahead d x x.
Proof. unfold ahead. case_match; apply below_irrefl. Qed.

Lemma ahead_rank d x x' y y' : rank x = rank x' → rank y = rank y' → ahead d x y → ahead d x' y'.
Proof. unfold ahead. by intros -> ->. Qed.

Lemma beats_irrefl soft a : reports soft a → ¬ beats soft a a.
Proof.
  induction soft as [|m soft IH]; intros Ha; [done|].
  rewrite beats_cons by done. intros [?%ahead_irrefl|[_ ?]]; [done|].
  eapply IH; [by eapply reports_tail|done].
Qed.

Lemma beats_trans soft a b c : reports soft a → reports soft b → reports soft c →
  beats soft a b → beats soft b c → beats soft a c.
Proof.
  induction soft as [|m soft IH]; intros Ha Hb Hc; [done|].
  rewrite !beats_cons by done. intros [Hab|[Hab Hab']] [Hbc|[Hbc Hbc']].
  - left. by eapply ahead_trans.
  - left. by eapply ahead_rank.
  - left. by eapply ahead_rank.
  - right. split; [by rewrite Hab|]. apply IH; eauto using reports_tail.
Qed.
End ranking.

(** Two runs that each report one of two metrics better, one of them missing. *)
Definition run_metrics (ms : list (string * pyval)) : pyval :=
  VDict [("performance", VDict [("strategy_metrics", VDict ms)])].

Definition higher (key : string) : metric :=
  mkMetric "SOFT" key (VStr key) None "higher_is_better".

Definition two_metrics : list metric := [higher "Sharpe Ratio"; higher "Calmar Ratio"].
Definition without_sharpe : pyval := run_metrics [("Calmar Ratio", VFloat (of_Z 2))].
Definition with_sharpe : pyval :=
  run_metrics [("Sharpe Ratio", VFloat (of_Z 1)); ("Calmar Ratio", VFloat (of_Z 1))].

(** Ranking a candidate against the best version.  Among runs that report every
    ranked metric, replacing the best is a strict order, so no sequence of
    promotions returns to a version it left.  A run may also lack a metric, and
    then there are two that each replace the other. *)
Theorem soft_ranking_strict soft :
  (∀ a, reports soft a → ¬ beats soft a a) ∧
  (∀ a b c, reports soft a → reports soft b → reports soft c →
     beats soft a b → beats soft b c → beats soft a c) ∧
  (∀ a b, reports soft a → reports soft b → beats soft a b → ¬ beats soft b a) ∧
  (beats two_metrics without_sharpe with_sharpe ∧ beats two_metrics with_sharpe without_sharpe).
Proof.
  split; [exact (beats_irrefl soft)|]. split; [exact (beats_trans soft)|].
  split; [|split; vm_compute; reflexivity].
  intros a b Ha Hb Hab Hba. apply (beats_irrefl soft a Ha). by eapply (beats_trans soft a b a).
Qed.
