(* ===== verification/Signals.v ===== *)
(** * Trading signals

    [quant/strategy/signals.py]: from an indicator column to positions, and from
    several factors' positions to one.  A one-dimensional array is the list of
    its elements and an operator of numpy applied to arrays is the IEEE operation
    on each element; the functions of the library that are more than that
    ([np.column_stack], [np.sign], [np.argmax]) are parameters. *)
From S2P Require Import Prelude PyFloat PyData Errors PyValue.
Local Open Scope string_scope.
Local Open Scope Z_scope.

Definition fone : float := of_Z 1.
Definition fminus_one : float := of_Z (-1).
Definition fhalf : float := of_decimal false 5 (-1).
Definition fnan : float := S754_nan.
Definition fminus_inf : float := S754_infinity true.

(** A two-dimensional float array: its rows, all of [shape1] elements. *)
Record array2 := mkArray2 { shape1 : nat; rows : list (list float) }.

(** What the code asks of numpy beyond elementwise operators. *)
Class Numpy := {
  np_column_stack : list (list float) → res exn array2;
  np_sign : float → float;
  (** one row of [np.argmax(_, axis=1)] *)
  np_argmax : list float → res exn nat
}.

(** ** Columns, masks and broadcasting *)

(** [m[:, j]] *)
Definition column (j : nat) (m : array2) : list float := map (λ r, nth j r fnan) (rows m).

(** The array whose columns are [cols], of [n] rows. *)
Definition of_columns (n : nat) (cols : list (list float)) : array2 :=
  mkArray2 (length cols) (map (λ i, map (λ c, nth i c fnan) cols) (seq 0 n)).

(** [m[:, 1:]] *)
Definition drop_column (m : array2) : array2 :=
  mkArray2 (pred (shape1 m)) (map (drop 1) (rows m)).

(** [xs[mask]] of a boolean mask *)
Definition mask_select {A} (mask : list bool) (xs : list A) : res exn (list A) :=
  if (length mask =? length xs)%nat then Ok (map snd (filter (λ p, p.1 = true) (zip mask xs)))
  else Raise (plain CIndexError "boolean index did not match indexed array").

(** [xs[mask] = values], the values in the order of the selected places *)
Fixpoint mask_set (mask : list bool) (values xs : list float) : list float :=
  match mask, xs with
  | b :: mask', x :: xs' =>
      if b then match values with
                | v :: values' => v :: mask_set mask' values' xs'
                | [] => x :: mask_set mask' [] xs'
                end
      else x :: mask_set mask' values xs'
  | _, _ => xs
  end.

(** [xs[mask] = v] *)
Definition mask_fill (mask : list bool) (v : float) (xs : list float) : list float :=
  zip_with (λ (b : bool) x, if b then v else x) mask xs.

Definition any : list bool → bool := existsb id.

(** The two selections brought to the shape of [a] and [b] together: a single
    column stretches to the width of the other. *)
Definition broadcast (wa wb : nat) (a b : list (list float)) : res exn (list (list float * list float)) :=
  if (wa =? wb)%nat then Ok (zip a b)
  else if (wb =? 1)%nat then Ok (zip a (map (λ r, repeat (nth 0 r fnan) wa) b))
  else if (wa =? 1)%nat then Ok (zip (map (λ r, repeat (nth 0 r fnan) wb) a) b)
  else Raise (ValueError "operands could not be broadcast together").

(** ** [bisect] *)

(** The loop of [bisect.bisect_right], at most as many rounds as the list is long. *)
Fixpoint bisect_loop (fuel : nat) (a : list float) (x : float) (lo hi : nat) : nat :=
  match fuel with
  | O => lo
  | S fuel' =>
      if (lo <? hi)%nat then
        let mid := ((lo + hi) / 2)%nat in
        if fltb x (nth mid a fnan) then bisect_loop fuel' a x lo mid
        else bisect_loop fuel' a x (S mid) hi
      else lo
  end.

Definition bisect_right (a : list float) (x : float) : nat := bisect_loop (length a) a x 0 (length a).

Definition insort (a : list float) (x : float) : list float :=
  let i := bisect_right a x in take i a ++ x :: drop i a.

(** ** Combining positions *)

(** The inner loop of [_conviction]: one column of [pctile], from the readings
    [seen] so far. *)
Fixpoint pctile_column (seen col : list float) : list float :=
  match col with
  | [] => []
  | value :: col' =>
      if is_nan value then fhalf :: pctile_column seen col'
      else
        let seen := insort seen value in
        (if (length seen <=? 1)%nat then fhalf
         else ftruediv (Z.of_nat (bisect_right seen value)) (Z.of_nat (length seen)))
          :: pctile_column seen col'
  end.

Section combine.
Context `{Numpy}.

Definition _conviction (strengths : list (list float)) : res exn array2 :=
  raw ← np_column_stack strengths;
  let pctile := of_columns (length (rows raw))
                  (map (λ j, pctile_column [] (column j raw)) (seq 0 (shape1 raw))) in
  mret (mkArray2 (shape1 raw) (map (map (λ p, fabs (fsub p fhalf))) (rows pctile))).

Definition _strongest_sign (signs conviction : array2) (selected : list bool) : res exn (list float) :=
  s ← mask_select selected (rows signs);
  c ← mask_select selected (rows conviction);
  pairs ← broadcast (shape1 signs) (shape1 conviction) s c;
  let masked := map (λ p, zip_with (λ sgn cv, if negb (feqb sgn fzero) then cv else fminus_inf) p.1 p.2)
                  pairs in
  winner ← mapM np_argmax masked;
  mret (zip_with (λ r w, nth w r fnan) s winner).

Definition all_are (v : float) (signs : array2) : list bool := map (forallb (feqb v)) (rows signs).
Definition any_is (v : float) (signs : array2) : list bool := map (existsb (feqb v)) (rows signs).

(** Elementwise operators on boolean arrays *)
Definition band : list bool → list bool → list bool := zip_with andb.
Definition bnot : list bool → list bool := map negb.

(** [np.where(mask, x, y)] of a scalar [x] and an array [y] *)
Definition where_ (mask : list bool) (x : float) (y : list float) : list float := mask_fill mask x y.

Definition _combine_and (signs : array2) (nan_mask : list bool) (conviction : option array2)
    : res exn (list float) :=
  let all_positive := all_are fone signs in
  let all_negative := all_are fminus_one signs in
  let combined := where_ all_positive fone
                    (where_ all_negative fminus_one (map (λ _, fzero) (rows signs))) in
  match conviction with
  | None => mret combined
  | Some conviction =>
      let disagree := band (band (band (any_is fone signs) (any_is fminus_one signs))
                              (bnot (any_is fzero signs))) (bnot nan_mask) in
      if any disagree then
        values ← _strongest_sign signs conviction disagree;
        mret (mask_set disagree values combined)
      else mret combined
  end.

Definition _combine_or (signs : array2) (conviction : option array2) : res exn (list float) :=
  let any_positive := any_is fone signs in
  let any_negative := any_is fminus_one signs in
  let conflict := band any_positive any_negative in
  let combined := where_ (band any_positive (bnot conflict)) fone
                    (where_ (band any_negative (bnot conflict)) fminus_one
                       (map (λ _, fzero) (rows signs))) in
  match conviction with
  | Some conviction =>
      if any conflict then
        values ← _strongest_sign signs conviction conflict;
        mret (mask_set conflict values combined)
      else mret (mask_fill conflict fone combined)
  | None => mret (mask_fill conflict fone combined)
  end.

Definition _combine_filter (stacked signs : array2) (nan_mask : list bool)
    (strengths : option (list (list float))) : res exn (list float) :=
  let gate := map (λ x, negb (feqb x fzero)) (column 0 signs) in
  let gated := λ direction, mask_fill (bnot gate) fzero direction in
  if (shape1 signs =? 2)%nat then mret (gated (column 1 stacked))
  else
    conviction ← match strengths with
                 | None => mret None
                 | Some strengths => c ← _conviction (drop 1 strengths); mret (Some c)
                 end;
    direction ← _combine_and (drop_column signs) nan_mask conviction;
    mret (gated direction).

Definition combine_positions (positions : list (list float)) (conjunction : string)
    (strengths : option (list (list float))) : res exn (list float) :=
  match positions with
  | [] => Raise (ValueError "positions list must not be empty")
  | [p] => mret p
  | _ =>
      let conj := upper conjunction in
      if negb (existsb (String.eqb conj) ["AND"; "OR"; "FILTER"]) then
        Raise (ValueError ("conjunction must be 'AND', 'OR', or 'FILTER', got '" +:+ conjunction +:+ "'"))
      else
        stacked ← np_column_stack positions;
        let nan_mask := map (existsb is_nan) (rows stacked) in
        let signs := mkArray2 (shape1 stacked) (map (map np_sign) (rows stacked)) in
        combined ←
          (if String.eqb conj "FILTER" then _combine_filter stacked signs nan_mask strengths
           else
             conviction ← match strengths with
                          | None => mret None
                          | Some strengths => c ← _conviction strengths; mret (Some c)
                          end;
             if String.eqb conj "AND" then _combine_and signs nan_mask conviction
             else _combine_or signs conviction);
        mret (mask_fill nan_mask fnan combined)
  end.
End combine.

(** ** Signal directions *)

(** The public methods of [SignalDirection]. *)
Inductive signal_func :=
| momentum_band_signal | reversion_band_signal
| momentum_bounded_signal | reversion_bounded_signal
| momentum_band_signal_long_only | reversion_band_signal_long_only
| momentum_bounded_signal_long_only | reversion_bounded_signal_long_only.

#[export] Instance signal_func_eq_dec : EqDecision signal_func.
Proof. solve_decision. Defined.

Definition signal_func_name (f : signal_func) : string :=
  match f with
  | momentum_band_signal => "momentum_band_signal"
  | reversion_band_signal => "reversion_band_signal"
  | momentum_bounded_signal => "momentum_bounded_signal"
  | reversion_bounded_signal => "reversion_bounded_signal"
  | momentum_band_signal_long_only => "momentum_band_signal_long_only"
  | reversion_band_signal_long_only => "reversion_band_signal_long_only"
  | momentum_bounded_signal_long_only => "momentum_bounded_signal_long_only"
  | reversion_bounded_signal_long_only => "reversion_bounded_signal_long_only"
  end.

Definition signal_funcs : list signal_func :=
  [momentum_band_signal; reversion_band_signal; momentum_bounded_signal; reversion_bounded_signal;
   momentum_band_signal_long_only; reversion_band_signal_long_only;
   momentum_bounded_signal_long_only; reversion_bounded_signal_long_only].

(** [getattr(SignalDirection, name, None)] *)
Definition signal_func_of (name : string) : option signal_func :=
  List.find (λ f, String.eqb (signal_func_name f) name) signal_funcs.

(** [position[np.isnan(data_col)] = np.nan] over [position] computed element by
    element *)
Definition unless_nan (position : float → float) (data_col : list float) : list float :=
  map (λ x, if is_nan x then fnan else position x) data_col.

Definition _long_only (position : list float) : list float :=
  map (λ x, if fltb x fzero then fzero else x) position.

Definition momentum_band (data_col : list float) (signal : float) : list float :=
  unless_nan (λ x, if fltb signal x then fone
                   else if fltb x (fopp signal) then fminus_one else fzero) data_col.

Definition reversion_band (data_col : list float) (signal : float) : list float :=
  unless_nan (λ x, if fltb x (fopp signal) then fone
                   else if fltb signal x then fminus_one else fzero) data_col.

Definition momentum_bounded (data_col : list float) (signal : float) : list float :=
  let lower := fsub (of_Z 100) signal in
  unless_nan (λ x, if fltb signal x then fone
                   else if fltb x lower then fminus_one else fzero) data_col.

Definition reversion_bounded (data_col : list float) (signal : float) : list float :=
  let lower := fsub (of_Z 100) signal in
  unless_nan (λ x, if fltb x lower then fone
                   else if fltb signal x then fminus_one else fzero) data_col.

Definition call_signal (f : signal_func) (data_col : list float) (signal : float) : list float :=
  match f with
  | momentum_band_signal => momentum_band data_col signal
  | reversion_band_signal => reversion_band data_col signal
  | momentum_bounded_signal => momentum_bounded data_col signal
  | reversion_bounded_signal => reversion_bounded data_col signal
  | momentum_band_signal_long_only => _long_only (momentum_band data_col signal)
  | reversion_band_signal_long_only => _long_only (reversion_band data_col signal)
  | momentum_bounded_signal_long_only => _long_only (momentum_bounded data_col signal)
  | reversion_bounded_signal_long_only => _long_only (reversion_bounded data_col signal)
  end.

(** ** What the parameters promise *)

Class NumpyLaws `{Numpy} := {
  column_stack_equal n cols : cols ≠ [] → Forall (λ c, length c = n) cols →
    np_column_stack cols = Ok (of_columns n cols);
  sign_positive x : fltb fzero x = true → np_sign x = fone;
  sign_negative x : fltb x fzero = true → np_sign x = fminus_one;
  sign_zero x : feqb x fzero = true → np_sign x = fzero;
  sign_nan : np_sign fnan = fnan;
  (** the first of the greatest elements *)
  argmax_greatest xs : xs ≠ [] → Forall (λ x, is_nan x = false) xs →
    ∃ i v, np_argmax xs = Ok i ∧ xs !! i = Some v ∧
      (∀ j x, xs !! j = Some x → fltb v x = false) ∧
      (∀ j x, (j < i)%nat → xs !! j = Some x → fltb x v = true)
}.

(** ** [bisect] finds the place *)

Section bisect.
Implicit Types (a : list float) (x y : float).

Definition numbers a : Prop := Forall (λ y, is_nan y = false) a.
Definition ascending a : Prop := StronglySorted (λ y z, fltb z y = false) a.

Lemma ascending_lookup a i j y z : ascending a → (i < j)%nat →
  a !! i = Some y → a !! j = Some z → fltb z y = false.
Proof.
  intros Hs. revert i j. induction Hs as [|b a Hs IH Hb]; intros i j Hij Hi Hj; [done|].
  destruct i as [|i], j as [|j]; simpl in *; try lia; simplify_eq.
  - rewrite Forall_lookup in Hb. by eapply Hb.
  - eapply (IH i j); [lia|done..].
Qed.

Lemma bisect_loop_spec fuel a x lo hi : numbers a → ascending a → is_nan x = false →
  (lo <= hi <= length a)%nat → (hi - lo <= fuel)%nat →
  (∀ i y, (i < lo)%nat → a !! i = Some y → fltb x y = false) →
  (∀ i y, (hi <= i)%nat → a !! i = Some y → fltb x y = true) →
  let k := bisect_loop fuel a x lo hi in
  (k <= length a)%nat ∧
  (∀ i y, (i < k)%nat → a !! i = Some y → fltb x y = false) ∧
  (∀ i y, (k <= i)%nat → a !! i = Some y → fltb x y = true).
Proof.
  intros Hn Hs Hx. revert lo hi. induction fuel as [|fuel IH]; intros lo hi Hb Hf Hl Hh; cbn [bisect_loop].
  { assert (lo = hi) as -> by lia. split; [lia|done]. }
  destruct (Nat.ltb_spec lo hi) as [Hlt|]; [|assert (lo = hi) as -> by lia; split; [lia|done]].
  set (mid := ((lo + hi) / 2)%nat). cbv zeta.
  assert (lo <= mid < hi)%nat as Hmid.
  { unfold mid. pose proof (Nat.div_mod (lo + hi) 2). pose proof (Nat.mod_upper_bound (lo + hi) 2). lia. }
  destruct (lookup_lt_is_Some_2 a mid) as [m Hm]; [lia|].
  pose proof (proj1 (Forall_lookup _ _) Hn) as Hna.
  change (∀ i y, a !! i = Some y → is_nan y = false) in Hna.
  rewrite (nth_lookup_Some a mid fnan m Hm).
  destruct (fltb x m) eqn:E; apply IH; try lia; try done.
  - intros i y Hi Hy. destruct (decide (i = mid)) as [->|]; [congruence|].
    pose proof (ascending_lookup a mid i m y Hs ltac:(lia) Hm Hy) as Hym.
    destruct (fltb x y) eqn:E2; [done|].
    pose proof (fltb_false_trans x y m Hx (Hna _ _ Hy) (Hna _ _ Hm) E2 Hym). congruence.
  - intros i y Hi Hy. destruct (decide (i = mid)) as [->|]; [congruence|].
    pose proof (ascending_lookup a i mid y m Hs ltac:(lia) Hy Hm) as Hym.
    exact (fltb_false_trans x m y Hx (Hna _ _ Hm) (Hna _ _ Hy) E Hym).
Qed.

Definition at_most x (y : float) : Prop := fltb x y = false.
#[export] Instance at_most_dec x y : Decision (at_most x y).
Proof. unfold at_most. apply _. Defined.

(** The readings a value is no smaller than. *)
Definition count_at_most a x : nat := length (filter (at_most x) a).

Lemma bisect_right_spec a x : numbers a → ascending a → is_nan x = false →
  filter (at_most x) a = take (bisect_right a x) a ∧
  Forall (λ y, fltb x y = true) (drop (bisect_right a x) a) ∧
  bisect_right a x = count_at_most a x.
Proof.
  intros Hn Hs Hx.
  destruct (bisect_loop_spec (length a) a x 0 (length a)) as (Hk & Hlo & Hhi); try done; try lia.
  { intros i y Hi Hy. apply lookup_lt_Some in Hy. lia. }
  fold (bisect_right a x) in Hk, Hlo, Hhi. set (k := bisect_right a x) in *.
  assert (Forall (at_most x) (take k a)) as Ht.
  { apply Forall_lookup. intros i y [Hy Hi]%lookup_take_Some. by eapply Hlo. }
  assert (Forall (λ y, fltb x y = true) (drop k a)) as Hd.
  { apply Forall_lookup. intros i y Hy. rewrite lookup_drop in Hy. eapply Hhi; [|exact Hy]. lia. }
  assert (filter (at_most x) a = take k a) as Hf.
  { rewrite <-(take_drop k a) at 1. rewrite filter_app.
    rewrite (filter_all (at_most x) (take k a)) by (by apply Forall_forall).
    rewrite (filter_none (at_most x) (drop k a)), app_nil_r; [done|].
    intros y Hy. rewrite Forall_forall in Hd. unfold at_most. by rewrite (Hd y Hy). }
  split_and!; [done|done|]. unfold count_at_most. rewrite Hf, length_take. lia.
Qed.
End bisect.

Section ranks.
Implicit Types (a : list float) (x : float).

Lemma bisect_right_le a x : (bisect_right a x <= length a)%nat.
Proof.
  unfold bisect_right. assert (∀ fuel lo hi, (lo <= hi <= length a)%nat →
    (bisect_loop fuel a x lo hi <= length a)%nat) as Hb; [|apply Hb; lia].
  intros fuel. induction fuel as [|fuel IH]; intros lo hi Hh; cbn [bisect_loop]; [lia|].
  destruct (Nat.ltb_spec lo hi); [|lia]. cbv zeta.
  pose proof (Nat.div_mod (lo + hi) 2). pose proof (Nat.mod_upper_bound (lo + hi) 2).
  destruct (fltb _ _); apply IH; lia.
Qed.

Lemma insort_permutation a x : insort a x ≡ₚ x :: a.
Proof.
  unfold insort. rewrite <-Permutation_middle. by rewrite take_drop.
Qed.

Lemma insort_ascending a x : numbers a → ascending a → is_nan x = false → ascending (insort a x).
Proof.
  intros Hn Hs Hx. destruct (bisect_right_spec a x Hn Hs Hx) as (Hf & Hd & _).
  unfold insort, ascending in *. set (k := bisect_right a x) in *.
  rewrite <-(take_drop k a), StronglySorted_app in Hs. destruct Hs as (Hc & Hl & Hr).
  rewrite Forall_forall in Hd.
  assert (∀ y, y ∈ take k a → fltb x y = false) as Ht.
  { intros y Hy. rewrite <-Hf in Hy. by apply list_elem_of_filter in Hy as [? _]. }
  apply StronglySorted_app. split_and!; [|done|].
  - intros y z Hy [->|Hz]%elem_of_cons; [by apply Ht|by apply Hc].
  - constructor; [done|]. apply Forall_forall. intros y Hy. by apply fltb_asym, Hd.
Qed.
End ranks.

(** ** Percentile ranks

    The rank of a reading among those before it, without the sorted list the
    loop keeps. *)

Definition numbers_of (l : list float) : list float := filter (λ y, is_nan y = false) l.

Definition percentile (prior : list float) (v : float) : float :=
  if is_nan v then fhalf
  else if (length prior =? 0)%nat then fhalf
  else ftruediv (Z.of_nat (count_at_most (prior ++ [v]) v)) (Z.of_nat (S (length prior))).

(** How far a factor's [i]-th reading is from the median of those up to it. *)
Definition conviction_at (strength : list float) (i : nat) : float :=
  fabs (fsub (percentile (numbers_of (take i strength)) (nth i strength fnan)) fhalf).

Lemma percentile_permutation p q v : p ≡ₚ q → percentile p v = percentile q v.
Proof.
  intros Hp. unfold percentile, count_at_most.
  rewrite (Permutation_length Hp). do 4 f_equal. by rewrite Hp.
Qed.

Lemma pctile_column_spec seen col i v : numbers seen → ascending seen → col !! i = Some v →
  pctile_column seen col !! i = Some (percentile (seen ++ numbers_of (take i col)) v).
Proof.
  revert seen i. induction col as [|c col IH]; intros seen i Hn Hs Hi; [done|].
  cbn [pctile_column]. destruct (is_nan c) eqn:Hc.
  - destruct i as [|i]; simpl in Hi |- *.
    + injection Hi as <-. unfold percentile. by rewrite Hc.
    + rewrite IH by done. f_equal. unfold numbers_of. by rewrite filter_cons_False by congruence.
  - assert (numbers (insort seen c)) as Hn'.
    { unfold numbers. rewrite insort_permutation. by constructor. }
    pose proof (insort_ascending seen c Hn Hs Hc) as Hs'.
    pose proof (insort_permutation seen c) as Hp.
    destruct i as [|i]; simpl in Hi |- *.
    + injection Hi as <-. f_equal. unfold percentile. rewrite Hc. unfold numbers_of. rewrite filter_nil, app_nil_r.
      destruct (bisect_right_spec (insort seen c) c Hn' Hs' Hc) as (_ & _ & Hcount).
      assert (count_at_most (insort seen c) c = count_at_most (seen ++ [c]) c) as Hcc.
      { unfold count_at_most. by rewrite Hp, (Permutation_app_comm seen [c]). }
      rewrite Hcount, Hcc, (Permutation_length Hp). by destruct seen.
    + rewrite IH by done. f_equal. apply percentile_permutation.
      unfold numbers_of. rewrite (filter_cons_True (λ y, is_nan y = false) c) by done.
      rewrite Hp. simpl. by rewrite Permutation_middle.
Qed.

(** ** Arrays as rows *)

Section arrays.
Context {A : Type}.

Lemma map_nth_seq (l : list A) d : map (λ i, nth i l d) (seq 0 (length l)) = l.
Proof.
  induction l as [|x l IH]; [done|]. simpl. f_equal. rewrite <-seq_shift, map_map. apply IH.
Qed.

Lemma nth_map_lt {B} (f : A → B) l i d e : (i < length l)%nat → nth i (map f l) e = f (nth i l d).
Proof.
  intros Hi. rewrite (nth_indep _ e (f d)) by (by rewrite List.length_map). apply map_nth.
Qed.

Lemma zip_with_maps {B C D} (f : B → C → D) (g : A → B) (h : A → C) l :
  zip_with f (map g l) (map h l) = map (λ x, f (g x) (h x)) l.
Proof. induction l as [|x l IH]; [done|]. simpl. by rewrite IH. Qed.
End arrays.

Lemma column_of_columns n cols j : Forall (λ c, length c = n) cols → (j < length cols)%nat →
  column j (of_columns n cols) = nth j cols [].
Proof.
  intros Hn Hj. unfold column, of_columns. simpl. rewrite map_map.
  assert (length (nth j cols []) = n) as Hl by (rewrite Forall_forall in Hn; apply Hn, list_elem_of_In, nth_In, Hj).
  rewrite <-(map_nth_seq (nth j cols []) fnan). rewrite Hl. apply map_ext. intros i.
  by rewrite (nth_map_lt _ cols j []).
Qed.

Section conviction.
Context `{NumpyLaws}.

Lemma pctile_column_length seen col : length (pctile_column seen col) = length col.
Proof. revert seen. induction col as [|c col IH]; intros seen; simpl; [done|]. destruct (is_nan c); simpl; by rewrite IH. Qed.

Lemma conviction_rows n strengths : strengths ≠ [] → Forall (λ c, length c = n) strengths →
  _conviction strengths
  = Ok (mkArray2 (length strengths)
          (map (λ i, map (λ s, conviction_at s i) strengths) (seq 0 n))).
Proof.
  intros Hne Hn. unfold _conviction. rewrite (column_stack_equal n) by done. simpl. f_equal.
  f_equal. rewrite List.length_map, length_seq, map_map.
  apply map_ext_in. intros i Hi%in_seq. rewrite map_map, map_map.
  assert (map (λ s, conviction_at s i) strengths
          = map (λ j, conviction_at (nth j strengths []) i) (seq 0 (length strengths))) as ->
    by (rewrite <-(map_nth_seq strengths []) at 1; by rewrite map_map).
  apply map_ext_in.
  intros j Hj%in_seq. rewrite column_of_columns by (done || lia). unfold conviction_at.
  set (s := nth j strengths []).
  assert (length s = n) as Hl by (rewrite Forall_forall in Hn; apply Hn, list_elem_of_In, nth_In; lia).
  destruct (lookup_lt_is_Some_2 s i) as [v Hv]; [lia|].
  pose proof (pctile_column_spec [] s i v) as Hp. simpl in Hp.
  rewrite (nth_lookup_Some _ _ _ _ (Hp ltac:(constructor) ltac:(constructor) Hv)).
  by rewrite (nth_lookup_Some _ _ _ _ Hv).
Qed.
End conviction.

(** ** Row by row

    Every array of a combination is an image of the rows' indices, so the whole
    of it is one function of a row. *)

Section masks.
Context {I : Type}.
Implicit Types (p : I → bool) (l : list I).

Lemma mask_select_map {A} p (f : I → A) l :
  mask_select (map p l) (map f l) = Ok (map f (List.filter p l)).
Proof.
  unfold mask_select. rewrite !List.length_map, Nat.eqb_refl. f_equal.
  induction l as [|i l IH]; [done|]. simpl. rewrite filter_cons. simpl.
  destruct (p i); simpl; by rewrite IH.
Qed.

Lemma mask_set_map p (g h : I → float) l :
  mask_set (map p l) (map g (List.filter p l)) (map h l) = map (λ i, if p i then g i else h i) l.
Proof. induction l as [|i l IH]; [done|]. simpl. destruct (p i); simpl; by rewrite IH. Qed.

Lemma mask_fill_map p v (h : I → float) l :
  mask_fill (map p l) v (map h l) = map (λ i, if p i then v else h i) l.
Proof. apply zip_with_maps. Qed.

Lemma any_map p l : any (map p l) = false → ∀ i, i ∈ l → p i = false.
Proof.
  induction l as [|j l IH]; simpl; intros Ha i Hi; [by apply not_elem_of_nil in Hi|].
  apply orb_false_iff in Ha as [Hj Hl]. apply elem_of_cons in Hi as [->|Hi]; [done|by apply IH].
Qed.

Lemma map_eq_in {A B} (f g : A → B) (l : list A) : (∀ x, x ∈ l → f x = g x) → map f l = map g l.
Proof. intros Hf. apply map_ext_in. intros x Hx. apply Hf. by apply list_elem_of_In. Qed.
End masks.

(** Operations on images of the row indices become one image. *)
Ltac rowwise :=
  repeat first [rewrite map_map | rewrite zip_with_maps | rewrite mask_fill_map].

Lemma Ok_bind {E A B} (a : A) (f : A → res E B) : (Ok a ≫= f) = f a.
Proof. done. Qed.

Lemma bind_Ok {E A B} (m : res E A) (f : A → res E B) b :
  (m ≫= f) = Ok b → ∃ a, m = Ok a ∧ f a = Ok b.
Proof. destruct m as [a|e]; [by exists a|done]. Qed.

Ltac res_simpl := repeat (rewrite Ok_bind; cbv beta zeta).

Section rules.
Context `{NumpyLaws}.

(** The position of the most convicted factor that is not flat. *)
Definition winner_of (s c : list float) : nat :=
  match np_argmax (zip_with (λ sgn cv, if negb (feqb sgn fzero) then cv else fminus_inf) s c) with
  | Ok k => k
  | Raise _ => O
  end.

Definition strongest (s c : list float) : float := nth (winner_of s c) s fnan.

Definition and_row (s : list float) (nan : bool) (c : option (list float)) : float :=
  let agreed := if forallb (feqb fone) s then fone
                else if forallb (feqb fminus_one) s then fminus_one else fzero in
  match c with
  | Some c => if existsb (feqb fone) s && existsb (feqb fminus_one) s
                 && negb (existsb (feqb fzero) s) && negb nan
              then strongest s c else agreed
  | None => agreed
  end.

Definition or_row (s : list float) (c : option (list float)) : float :=
  let p := existsb (feqb fone) s in
  let n := existsb (feqb fminus_one) s in
  if p && n then match c with Some c => strongest s c | None => fone end
  else if p then fone else if n then fminus_one else fzero.

Definition filter_row (r s : list float) (nan : bool) (c : option (list float)) : float :=
  if negb (negb (feqb (nth 0 s fnan) fzero)) then fzero
  else if (length r =? 2)%nat then nth 1 r fnan else and_row (drop 1 s) nan (drop 1 <$> c).

Definition combine_row (conj : string) (r : list float) (c : option (list float)) : float :=
  let s := map np_sign r in
  let nan := existsb is_nan r in
  if nan then fnan
  else if String.eqb conj "FILTER" then filter_row r s nan c
  else if String.eqb conj "AND" then and_row s nan c
  else or_row s c.

(** The [i]-th readings of all factors. *)
Definition row_at (cols : list (list float)) (i : nat) : list float := map (λ c, nth i c fnan) cols.

Definition convictions_at (strengths : list (list float)) (i : nat) : list float :=
  map (λ s, conviction_at s i) strengths.

Lemma conviction_not_nan s i : is_nan (conviction_at s i) = false.
Proof.
  unfold conviction_at. apply fabs_not_nan, fsub_not_nan; [|reflexivity].
  unfold percentile. destruct (is_nan (nth i s fnan)); [done|]. destruct (_ =? _)%nat; [done|].
  apply ftruediv_not_nan. lia.
Qed.

Lemma masked_numbers s c : numbers c →
  numbers (zip_with (λ sgn cv, if negb (feqb sgn fzero) then cv else fminus_inf) s c).
Proof.
  intros Hc. revert s. induction Hc as [|x c Hx Hc IH]; intros [|y s]; try constructor; [|apply IH].
  by destruct (negb _).
Qed.

Lemma argmax_rows (g : nat → list float) l : (∀ i, i ∈ l → g i ≠ [] ∧ numbers (g i)) →
  mapM np_argmax (map g l)
  = Ok (map (λ i, match np_argmax (g i) with Ok k => k | Raise _ => O end) l).
Proof.
  induction l as [|i l IH]; intros Hg; [done|]. cbn [map mapM].
  destruct (Hg i) as [Hne Hn]; [left|].
  destruct (argmax_greatest (g i) Hne Hn) as (k & v & Hk & _). rewrite Hk.
  rewrite Ok_bind. rewrite IH by (intros; apply Hg; by right).
  reflexivity.
Qed.

Lemma strongest_sign_rows w (s c : nat → list float) (p : nat → bool) l : (0 < w)%nat →
  (∀ i, i ∈ l → length (s i) = w ∧ length (c i) = w ∧ numbers (c i)) →
  _strongest_sign (mkArray2 w (map s l)) (mkArray2 w (map c l)) (map p l)
  = Ok (map (λ i, strongest (s i) (c i)) (List.filter p l)).
Proof.
  intros Hw Hl. unfold _strongest_sign. cbn [rows shape1]. rewrite !mask_select_map.
  rewrite !Ok_bind.
  unfold broadcast. rewrite Nat.eqb_refl. rewrite Ok_bind.
  cbv zeta. rewrite zip_with_maps, map_map. cbn [fst snd].
  rewrite argmax_rows.
  - rewrite Ok_bind. rewrite zip_with_maps. reflexivity.
  - intros i Hi. apply list_elem_of_In, filter_In in Hi as [Hi _].
    destruct (Hl i) as (Hs & Hc & Hn); [by apply list_elem_of_In|].
    split; [|by apply masked_numbers].
    intros E%(f_equal length). rewrite length_zip_with in E. simpl in E. lia.
Qed.

(** Arrays of [w] columns over the rows of [l], with or without convictions. *)
Definition fits (w : nat) (s : nat → list float) (c : option (nat → list float)) (l : list nat) : Prop :=
  (0 < w)%nat ∧ ∀ i, i ∈ l → length (s i) = w ∧
    match c with Some c => length (c i) = w ∧ numbers (c i) | None => True end.

Definition rows_of (w : nat) (c : option (nat → list float)) (l : list nat) : option array2 :=
  (λ c, mkArray2 w (map c l)) <$> c.

Lemma combine_and_rows w s nan c l : fits w s c l →
  _combine_and (mkArray2 w (map s l)) (map nan l) (rows_of w c l)
  = Ok (map (λ i, and_row (s i) (nan i) ((λ c, c i) <$> c)) l).
Proof.
  intros [Hw Hl]. unfold _combine_and, all_are, any_is, band, bnot, where_. cbn [rows].
  rowwise.
  destruct c as [c|]; [|reflexivity]. cbn [rows_of fmap option_fmap option_map].
  cbv zeta. destruct (any _) eqn:Hany.
  - rewrite (strongest_sign_rows w s c) by (done || (intros i Hi; destruct (Hl i Hi) as (?&?&?); done)).
    rewrite Ok_bind. cbv beta. by rewrite mask_set_map.
  - pose proof (any_map _ _ Hany) as Hno. cbv beta in Hno. unfold mret, res_ret. f_equal.
    apply map_eq_in. intros i Hi. unfold and_row. by rewrite (Hno i Hi).
Qed.

Lemma combine_or_rows w s c l : fits w s c l →
  _combine_or (mkArray2 w (map s l)) (rows_of w c l)
  = Ok (map (λ i, or_row (s i) ((λ c, c i) <$> c)) l).
Proof.
  intros [Hw Hl]. unfold _combine_or, any_is, band, bnot, where_. cbn [rows].
  rowwise.
  assert (∀ p n : bool, (if p && negb (p && n) then fone else if n && negb (p && n) then fminus_one else fzero)
          = if p && n then fzero else if p then fone else if n then fminus_one else fzero) as Hb
    by (by intros [] []).
  destruct c as [c|]; cbn [rows_of fmap option_fmap option_map]; cbv zeta.
  2: { unfold mret, res_ret. f_equal. apply map_eq_in. intros i _. unfold or_row. rewrite Hb.
       by destruct (existsb (feqb fone) (s i)), (existsb (feqb fminus_one) (s i)). }
  destruct (any _) eqn:Hany.
  - rewrite (strongest_sign_rows w s c) by (done || (intros i Hi; destruct (Hl i Hi) as (?&?&?); done)).
    rewrite Ok_bind. cbv beta. rewrite mask_set_map. unfold mret, res_ret. f_equal.
    apply map_eq_in. intros i _. unfold or_row. rewrite Hb.
    by destruct (existsb (feqb fone) (s i)), (existsb (feqb fminus_one) (s i)).
  - pose proof (any_map _ _ Hany) as Hno. cbv beta in Hno. unfold mret, res_ret. f_equal.
    apply map_eq_in. intros i Hi. unfold or_row. rewrite Hb. specialize (Hno i Hi).
    by destruct (existsb (feqb fone) (s i)), (existsb (feqb fminus_one) (s i)).
Qed.

(** Columns of [n] readings each, and as many indicator columns as positions
    when there are any. *)
Definition well_shaped (n : nat) (positions : list (list float))
    (strengths : option (list (list float))) : Prop :=
  (2 <= length positions)%nat ∧ Forall (λ c, length c = n) positions ∧
  match strengths with
  | Some ss => length ss = length positions ∧ Forall (λ c, length c = n) ss
  | None => True
  end.

Lemma convictions_numbers ss i : numbers (convictions_at ss i).
Proof. apply Forall_map, Forall_forall. intros s _. apply conviction_not_nan. Qed.

Lemma conviction_of n k strengths : (k < length strengths)%nat → Forall (λ c, length c = n) strengths →
  _conviction (drop k strengths)
  = Ok (mkArray2 (length strengths - k) (map (λ i, drop k (convictions_at strengths i)) (seq 0 n))).
Proof.
  intros Hk Hn. rewrite (conviction_rows n).
  - rewrite length_drop. do 2 f_equal. apply map_ext. intros i. unfold convictions_at. by rewrite skipn_map.
  - intros E%(f_equal length). rewrite length_drop in E. simpl in E. lia.
  - by apply Forall_drop.
Qed.

Lemma combine_filter_rows n w stacked s nan strengths : (2 <= w)%nat → (∀ i, length (s i) = w) →
  (∀ i, length (stacked i) = w) →
  match strengths with Some ss => length ss = w ∧ Forall (λ c, length c = n) ss | None => True end →
  _combine_filter (mkArray2 w (map stacked (seq 0 n))) (mkArray2 w (map s (seq 0 n)))
    (map nan (seq 0 n)) strengths
  = Ok (map (λ i, filter_row (stacked i) (s i) (nan i) ((λ ss, convictions_at ss i) <$> strengths)) (seq 0 n)).
Proof.
  intros Hw Hs Hst Hss. unfold _combine_filter, column, bnot, drop_column. cbn [rows shape1]. rowwise.
  destruct (Nat.eqb_spec w 2) as [->|Hw2].
  { unfold mret, res_ret. f_equal. rowwise. apply map_eq_in. intros i _.
    unfold filter_row. by rewrite Hst. }
  set (c := (λ ss i, drop 1 (convictions_at ss i)) <$> strengths).
  assert ((match strengths with
           | Some ss => c ← _conviction (drop 1 ss); mret (Some c)
           | None => mret None
           end) = Ok (rows_of (pred w) c (seq 0 n))) as ->.
  { unfold c, rows_of. destruct strengths as [ss|]; [|reflexivity]. destruct Hss as [Hl Hn].
    rewrite (conviction_of n) by (done || lia). rewrite Ok_bind. simpl. by rewrite Hl, Nat.sub_1_r. }
  rewrite Ok_bind. rewrite (combine_and_rows (pred w) (λ i, drop 1 (s i)) nan c).
  - rewrite Ok_bind. unfold mret, res_ret. f_equal. rowwise. apply map_eq_in. intros i _.
    unfold filter_row. rewrite Hst. destruct (Nat.eqb_spec w 2) as [|_]; [done|].
    unfold c. by destruct strengths.
  - split; [lia|]. intros i _. rewrite length_drop, Hs. split; [lia|].
    unfold c. destruct strengths as [ss|]; simpl; [|done]. destruct Hss as [Hl _].
    split; [|apply Forall_drop, convictions_numbers].
    unfold convictions_at. rewrite length_drop, List.length_map, Hl. lia.
Qed.

Lemma combine_positions_rows n positions conjunction strengths : well_shaped n positions strengths →
  existsb (String.eqb (upper conjunction)) ["AND"; "OR"; "FILTER"] = true →
  combine_positions positions conjunction strengths
  = Ok (map (λ i, combine_row (upper conjunction) (row_at positions i)
                    ((λ ss, convictions_at ss i) <$> strengths)) (seq 0 n)).
Proof.
  intros (Hlen & Hn & Hss) Hconj.
  assert (∃ p q ps, positions = p :: q :: ps) as (p & q & ps & Hp)
    by (destruct positions as [|p [|q ps]]; simpl in Hlen; try lia; eauto).
  unfold combine_positions. rewrite Hp. rewrite <-Hp. cbv zeta. rewrite Hconj. cbn [negb].
  rewrite (column_stack_equal n) by (done || by rewrite Hp). rewrite Ok_bind. cbv zeta.
  set (w := length positions) in *. set (conj := upper conjunction) in *.
  change (of_columns n positions) with (mkArray2 w (map (row_at positions) (seq 0 n))).
  cbn [rows shape1]. rowwise.
  set (s := λ i, map np_sign (row_at positions i)).
  assert (∀ i, length (s i) = w) as Hs by (intros i; unfold s, row_at; by rewrite !List.length_map).
  set (nan := λ i, existsb is_nan (row_at positions i)).
  set (c := (λ ss i, convictions_at ss i) <$> strengths).
  assert (String.eqb conj "FILTER" = false →
    (match strengths with Some ss => c ← _conviction ss; mret (Some c) | None => mret None end)
    = Ok (rows_of w c (seq 0 n))) as Hconv.
  { intros _. unfold c, rows_of. destruct strengths as [ss|]; [|reflexivity]. destruct Hss as [Hl Hns].
    pose proof (conviction_of n 0 ss ltac:(lia) Hns) as Hc.
    change (drop 0 ss) with ss in Hc. rewrite Hc, Ok_bind, Nat.sub_0_r. by rewrite <-Hl. }
  assert (fits w s c (seq 0 n)) as Hfits.
  { split; [lia|]. intros i _. split; [done|]. unfold c. destruct strengths as [ss|]; simpl; [|done].
    split; [|apply convictions_numbers]. unfold convictions_at. rewrite List.length_map. by destruct Hss. }
  assert (∀ rule, (∀ i, (nan i = false → rule i = combine_row conj (row_at positions i)
                              ((λ ss, convictions_at ss i) <$> strengths))) →
    map (λ i, if nan i then fnan else rule i) (seq 0 n)
    = map (λ i, combine_row conj (row_at positions i) ((λ ss, convictions_at ss i) <$> strengths)) (seq 0 n))
    as Hfin.
  { intros rule Hrule. apply map_eq_in. intros i _. destruct (nan i) eqn:E; [|by apply Hrule].
    unfold combine_row. unfold nan in E. by rewrite E. }
  destruct (String.eqb conj "FILTER") eqn:Hf; [|rewrite Hconv, Ok_bind by done; destruct (String.eqb conj "AND") eqn:Ha].
  - change (map (row_at positions) (seq 0 n)) with (map (row_at positions) (seq 0 n)).
    rewrite (combine_filter_rows n w (row_at positions) s nan) by
      (done || (intros i; unfold row_at; by rewrite List.length_map)).
    rewrite Ok_bind. unfold mret, res_ret. rowwise. f_equal. apply Hfin.
    intros i E. unfold combine_row, nan in *. by rewrite E, Hf.
  - rewrite combine_and_rows by done. rewrite Ok_bind. unfold mret, res_ret. rowwise. f_equal. apply Hfin.
    intros i E. unfold combine_row, nan in *. rewrite E, Hf, Ha. unfold c. by destruct strengths.
  - rewrite combine_or_rows by done. rewrite Ok_bind. unfold mret, res_ret. rowwise. f_equal. apply Hfin.
    intros i E. unfold combine_row, nan in *. rewrite E, Hf, Ha. unfold c. by destruct strengths.
Qed.
End rules.

(** ** What a combined position means *)

(** A position: long, short, flat or unknown. *)
Definition position_value (x : float) : Prop := x ∈ [fone; fminus_one; fzero; fnan].

(** [v] is the position of the first of the most convicted factors that are not
    flat. *)
Definition strongest_of (r c : list float) (v : float) : Prop :=
  ∃ i ci, r !! i = Some v ∧ c !! i = Some ci ∧ v ≠ fzero ∧
    ∀ j x cj, r !! j = Some x → c !! j = Some cj → x ≠ fzero →
      fltb ci cj = false ∧ ((j < i)%nat → fltb cj ci = true).

(** [AND]: all agree, a flat factor vetoes, a pure conflict is flat or goes to
    the strongest. *)
Definition agreement (r : list float) (c : option (list float)) (v : float) : Prop :=
  (Forall (λ x, x = fone) r ∧ v = fone) ∨
  (Forall (λ x, x = fminus_one) r ∧ v = fminus_one) ∨
  (fzero ∈ r ∧ v = fzero) ∨
  ((fzero ∉ r) ∧ fone ∈ r ∧ fminus_one ∈ r ∧
   match c with Some c => strongest_of r c v | None => v = fzero end).

(** [OR]: any factor that signals, a conflict is long or goes to the strongest. *)
Definition disjunction (r : list float) (c : option (list float)) (v : float) : Prop :=
  (fone ∈ r ∧ (fminus_one ∉ r) ∧ v = fone) ∨
  ((fone ∉ r) ∧ fminus_one ∈ r ∧ v = fminus_one) ∨
  ((fone ∉ r) ∧ (fminus_one ∉ r) ∧ v = fzero) ∨
  (fone ∈ r ∧ fminus_one ∈ r ∧
   match c with Some c => strongest_of r c v | None => v = fone end).

(** [FILTER]: the first factor opens or closes the gate. *)
Definition gated (r : list float) (c : option (list float)) (v : float) : Prop :=
  match r with
  | g :: r' =>
      (g = fzero ∧ v = fzero) ∨
      (g ≠ fzero ∧ match r' with [d] => v = d | _ => agreement r' (drop 1 <$> c) v end)
  | [] => False
  end.

Definition combined (conj : string) (r : list float) (c : option (list float)) (v : float) : Prop :=
  if decide (fnan ∈ r) then v = fnan
  else if String.eqb conj "FILTER" then gated r c v
  else if String.eqb conj "AND" then agreement r c v
  else disjunction r c v.

Section meaning.
Context `{NumpyLaws}.

(** A known position. *)
Definition known (x : float) : Prop := x ∈ [fone; fminus_one; fzero].

Lemma known_cases x : known x → x = fone ∨ x = fminus_one ∨ x = fzero.
Proof. unfold known. rewrite !elem_of_cons, elem_of_nil. tauto. Qed.

Lemma sign_known x : known x → np_sign x = x.
Proof.
  intros [->|[->| ->]]%known_cases; [by apply sign_positive|by apply sign_negative|by apply sign_zero].
Qed.

Lemma signs_known r : Forall known r → map np_sign r = r.
Proof. induction 1 as [|x r Hx Hr IH]; [done|]. simpl. by rewrite IH, sign_known. Qed.

(** On known positions float equality is equality. *)
Lemma feqb_known a x : known a → known x → feqb a x = bool_decide (x = a).
Proof. by intros [->|[->| ->]]%known_cases [->|[->| ->]]%known_cases. Qed.

Lemma existsb_known a r : known a → Forall known r → existsb (feqb a) r = bool_decide (a ∈ r).
Proof.
  intros Ha. induction 1 as [|x r Hx Hr IH]; [done|]. simpl. rewrite IH, feqb_known by done.
  rewrite <-bool_decide_or. apply bool_decide_ext. rewrite elem_of_cons.
  split; (intros [->|?]; [by left|by right]).
Qed.

Lemma forallb_known a r : known a → Forall known r →
  forallb (feqb a) r = true ↔ Forall (λ x, x = a) r.
Proof.
  intros Ha. induction 1 as [|x r Hx Hr IH]; [done|]. simpl.
  rewrite andb_true_iff, IH, feqb_known, bool_decide_eq_true, Forall_cons by done. tauto.
Qed.

Lemma strongest_known r c : Forall known r → length c = length r →
  Forall (λ x, fltb fminus_inf x = true) c → (∃ x, x ∈ r ∧ x ≠ fzero) →
  strongest_of r c (strongest r c).
Proof.
  intros Hr Hl Hc (y & [jy Hjy]%list_elem_of_lookup & Hy0).
  set (mask := λ sgn cv, if negb (feqb sgn fzero) then cv else fminus_inf).
  assert (∀ j x cj, r !! j = Some x → c !! j = Some cj → zip_with mask r c !! j = Some (mask x cj)) as Hz.
  { intros j x cj Hx Hcj. by rewrite lookup_zip_with, Hx, Hcj. }
  assert (∀ x cj, known x → x ≠ fzero → mask x cj = cj) as Hnz.
  { intros x cj Hx Hx0. unfold mask. rewrite feqb_known by (done || by repeat constructor).
    destruct (bool_decide_reflect (fzero = x)); [done|]. done. }
  rewrite Forall_lookup in Hr. rewrite Forall_lookup in Hc.
  destruct (argmax_greatest (zip_with mask r c)) as (k & v & Hk & Hv & Hmax & Hfirst).
  { intros E. apply (f_equal length) in E. rewrite length_zip_with in E. apply lookup_lt_Some in Hjy. simpl in E. lia. }
  { apply masked_numbers, Forall_lookup. intros i x Hx. specialize (Hc i x Hx). by destruct x. }
  assert (strongest r c = nth k r fnan) as ->.
  { unfold strongest, winner_of. fold mask. by rewrite Hk. }
  destruct (lookup_zip_with_Some mask r c k v) as [Hd _]. destruct (Hd Hv) as (x & ck & -> & Hx & Hck).
  rewrite (nth_lookup_Some _ _ _ _ Hx).
  destruct (lookup_lt_is_Some_2 c jy) as [cy Hcy]; [rewrite Hl; by eapply lookup_lt_Some|].
  assert (x ≠ fzero) as Hx0.
  { intros ->. specialize (Hmax jy _ (Hz _ _ _ Hjy Hcy)).
    rewrite (Hnz y cy) in Hmax by eauto. change (mask fzero ck) with fminus_inf in Hmax.
    rewrite (Hc _ _ Hcy) in Hmax. done. }
  rewrite (Hnz x ck) in Hmax, Hfirst by eauto.
  exists k, ck. split_and!; try done. intros j z cj Hj Hcj Hz0. specialize (Hz _ _ _ Hj Hcj).
  rewrite (Hnz z cj) in Hz by eauto. split; [by apply (Hmax j)|]. intros Hlt. by apply (Hfirst j).
Qed.

(** As many convictions as factors, all above minus infinity. *)
Definition convinced (r : list float) (c : option (list float)) : Prop :=
  match c with
  | Some c => length c = length r ∧ Forall (λ x, fltb fminus_inf x = true) c
  | None => True
  end.

Lemma one_known : known fone ∧ known fminus_one ∧ known fzero.
Proof. split_and!; by repeat constructor. Qed.

Lemma all_same a r : Forall known r → (∀ b, known b → b ≠ a → b ∉ r) → Forall (λ x, x = a) r.
Proof.
  intros Hr Ho. rewrite Forall_forall in Hr. apply Forall_forall. intros x Hx.
  destruct (decide (x = a)) as [|Hne]; [done|]. by destruct (Ho x (Hr x Hx) Hne).
Qed.

Lemma not_all_same a b r : b ∈ r → b ≠ a → Forall known r → known a → forallb (feqb a) r = false.
Proof.
  intros Hb Hne Hr Ha. apply not_true_iff_false. rewrite forallb_known, Forall_forall by done. auto.
Qed.

Lemma and_row_agreement r c : Forall known r → r ≠ [] → convinced r c →
  agreement r c (and_row r false c).
Proof.
  intros Hr Hne Hc. destruct one_known as (H1 & Hm & Hz).
  unfold and_row, agreement. rewrite !existsb_known by done. cbn [negb]. rewrite andb_true_r.
  destruct (decide (fzero ∈ r)) as [Hin|Hn0].
  { do 2 right. left. split; [done|]. rewrite (bool_decide_eq_true_2 (fzero ∈ r)) by done.
    cbn [negb]. rewrite andb_false_r. rewrite !(not_all_same _ fzero) by done. by destruct c. }
  rewrite (bool_decide_eq_false_2 (fzero ∈ r)) by done. cbn [negb]. rewrite andb_true_r.
  destruct (decide (fone ∈ r)) as [Hi1|Hn1], (decide (fminus_one ∈ r)) as [Him|Hnm].
  - do 3 right. rewrite !bool_decide_eq_true_2 by done. cbn [andb].
    rewrite (not_all_same fone fminus_one), (not_all_same fminus_one fone) by done.
    split_and!; try done. destruct c as [c|]; [|done]. destruct Hc. apply strongest_known; eauto.
  - left. rewrite (bool_decide_eq_false_2 (fminus_one ∈ r)), andb_false_r by done.
    assert (Forall (λ x, x = fone) r) as Ha.
    { apply all_same; [done|]. by intros b [->|[->| ->]]%known_cases. }
    rewrite (proj2 (forallb_known fone r H1 Hr) Ha). by destruct c.
  - right. left. rewrite (bool_decide_eq_false_2 (fone ∈ r)) by done. cbn [andb].
    assert (Forall (λ x, x = fminus_one) r) as Ha.
    { apply all_same; [done|]. by intros b [->|[->| ->]]%known_cases. }
    rewrite (proj2 (forallb_known fminus_one r Hm Hr) Ha), (not_all_same fone fminus_one) by done.
    by destruct c.
  - destruct Hr as [|x r Hx]; [done|].
    apply known_cases in Hx as [->|[->| ->]]; [destruct Hn1|destruct Hnm|destruct Hn0]; left.
Qed.

Lemma or_row_disjunction r c : Forall known r → convinced r c → disjunction r c (or_row r c).
Proof.
  intros Hr Hc. destruct one_known as (H1 & Hm & Hz).
  unfold or_row, disjunction. rewrite !existsb_known by done.
  repeat case_bool_decide; cbn [andb].
  - do 3 right. split_and!; try done. destruct c as [c|]; [|done]. destruct Hc. apply strongest_known; eauto.
  - by left.
  - right. by left.
  - do 2 right. by left.
Qed.

Lemma filter_row_gated r c : Forall known r → (2 <= length r)%nat → convinced r c →
  gated r c (filter_row r r false c).
Proof.
  intros Hr Hl Hc. destruct r as [|g [|d r]]; simpl in Hl; try lia.
  destruct (proj1 (Forall_cons _ _ _) Hr) as [Hg Hr']. unfold filter_row, gated. cbn [nth length].
  rewrite negb_involutive.
  assert (feqb g fzero = bool_decide (g = fzero)) as ->.
  { by apply known_cases in Hg as [->|[->| ->]]. }
  case_bool_decide; [by left|]. right. split; [done|].
  destruct r as [|e r]; [done|]. cbn [Nat.eqb].
  apply and_row_agreement; [done|done|]. destruct c as [c|]; [|done].
  destruct Hc as [Hlc Hc]. destruct c as [|x c]; [done|]. injection Hlc as Hlc.
  split; [exact Hlc|]. by destruct (proj1 (Forall_cons _ _ _) Hc).
Qed.

Lemma convictions_convinced ss positions i : length ss = length positions →
  convinced (row_at positions i) (Some (convictions_at ss i)).
Proof.
  intros Hl. unfold convinced, row_at, convictions_at. rewrite !List.length_map. split; [done|].
  apply Forall_map, Forall_forall. intros s _. pose proof (conviction_not_nan s i) as Hn.
  unfold conviction_at in *. by destruct (fsub _ _).
Qed.

Lemma combine_row_combined conj r c : Forall position_value r → (2 <= length r)%nat →
  convinced r c → combined conj r c (combine_row conj r c).
Proof.
  intros Hr Hl Hc. unfold combined, combine_row.
  assert (existsb is_nan r = bool_decide (fnan ∈ r)) as ->.
  { clear Hl Hc. induction Hr as [|x r Hx Hr IH]; [done|]. simpl. rewrite IH.
    rewrite (bool_decide_ext (fnan ∈ x :: r) (x = fnan ∨ fnan ∈ r)).
    - rewrite bool_decide_or. f_equal. unfold position_value in Hx.
      rewrite !elem_of_cons in Hx. by destruct Hx as [->|[->|[->|[->|[]%elem_of_nil]]]].
    - rewrite elem_of_cons. split; (intros [->|?]; [by left|by right]). }
  case_decide as Hd; [by rewrite bool_decide_eq_true_2|]. rewrite bool_decide_eq_false_2 by done.
  assert (Forall known r) as Hk.
  { rewrite Forall_forall in Hr |- *. intros x Hx. specialize (Hr x Hx). unfold position_value in Hr.
    unfold known. rewrite !elem_of_cons in *.
    destruct Hr as [->|[->|[->|[->|[]%elem_of_nil]]]]; auto. by destruct Hd. }
  rewrite signs_known by done.
  destruct (String.eqb conj "FILTER"); [by apply filter_row_gated|].
  destruct (String.eqb conj "AND"); [|by apply or_row_disjunction].
  apply and_row_agreement; try done. intros ->. simpl in Hl. lia.
Qed.

(** C9. A combined position is the documented one: unknown where any factor is
    unknown; for AND only what all factors agree on, a flat factor vetoing and a
    pure conflict going to the factor whose reading is furthest from its median
    so far, or to flat without readings; for OR any factor that signals; for
    FILTER the others where the first is not flat. *)
Theorem combine_positions_rule n positions conjunction strengths :
  well_shaped n positions strengths → Forall (Forall position_value) positions →
  existsb (String.eqb (upper conjunction)) ["AND"; "OR"; "FILTER"] = true →
  ∃ out, combine_positions positions conjunction strengths = Ok out ∧ length out = n ∧
    ∀ i v, out !! i = Some v →
      combined (upper conjunction) (row_at positions i) ((λ ss, convictions_at ss i) <$> strengths) v.
Proof.
  intros Hsh Hv Hconj. rewrite (combine_positions_rows n) by done. eexists. split; [done|].
  rewrite List.length_map, length_seq. split; [done|]. intros i v Hi.
  change (map ?f ?l) with (f <$> l) in Hi. apply list_lookup_fmap_Some in Hi as (j & -> & Hj).
  apply lookup_seq in Hj as [-> Hj]. destruct Hsh as (Hl & Hn & Hss).
  apply combine_row_combined.
  - apply Forall_map, Forall_forall. intros c Hc. rewrite Forall_forall in Hv, Hn.
    specialize (Hv c Hc). rewrite Forall_lookup in Hv.
    destruct (lookup_lt_is_Some_2 c i) as [x Hx]; [rewrite (Hn c Hc); lia|].
    rewrite (nth_lookup_Some _ _ _ _ Hx). by apply (Hv i).
  - unfold row_at. by rewrite List.length_map.
  - destruct strengths as [ss|]; [|done]. by apply convictions_convinced; destruct Hss.
Qed.
End meaning.

(** ** A concrete library

    The parameters as numpy documents them, to run the definitions on. *)

Definition ref_column_stack (cols : list (list float)) : res exn array2 :=
  match cols with
  | [] => Raise (ValueError "need at least one array to concatenate")
  | c :: _ =>
      if forallb (λ d, (length d =? length c)%nat) cols then Ok (of_columns (length c) cols)
      else Raise (ValueError "all the input array dimensions except for the concatenation axis must match")
  end.

Definition ref_sign (x : float) : float :=
  if fltb fzero x then fone else if fltb x fzero then fminus_one
  else if is_nan x then fnan else fzero.

Fixpoint ref_argmax_from (best : nat) (v : float) (i : nat) (xs : list float) : nat :=
  match xs with
  | [] => best
  | x :: xs => if fltb v x then ref_argmax_from i x (S i) xs else ref_argmax_from best v (S i) xs
  end.

Definition ref_argmax (xs : list float) : res exn nat :=
  match xs with
  | [] => Raise (ValueError "attempt to get argmax of an empty sequence")
  | x :: xs => Ok (ref_argmax_from 0 x 1 xs)
  end.

Definition numpy_ref : Numpy :=
  {| np_column_stack := ref_column_stack; np_sign := ref_sign; np_argmax := ref_argmax |}.

Lemma ref_argmax_from_spec all best v i xs : numbers all → drop i all = xs → (best < i)%nat →
  all !! best = Some v →
  (∀ j x, (j < i)%nat → all !! j = Some x → fltb v x = false ∧ ((j < best)%nat → fltb x v = true)) →
  let k := ref_argmax_from best v i xs in
  ∃ w, all !! k = Some w ∧
    ∀ j x, all !! j = Some x → fltb w x = false ∧ ((j < k)%nat → fltb x w = true).
Proof.
  intros Hn. unfold numbers in Hn. rewrite Forall_lookup in Hn.
  revert best v i. induction xs as [|y xs IH]; intros best v i Hd Hbi Hb Hinv; simpl.
  - exists v. split; [done|]. intros j x Hx. apply Hinv; [|done].
    apply lookup_lt_Some in Hx. apply (f_equal length) in Hd. rewrite length_drop in Hd. simpl in Hd. lia.
  - assert (all !! i = Some y) as Hy by (by rewrite <-(Nat.add_0_r i), <-lookup_drop, Hd).
    assert (drop (S i) all = xs) as Hd' by (by rewrite <-Nat.add_1_r, <-drop_drop, Hd).
    destruct (fltb v y) eqn:E.
    + apply IH; [done|lia|done|]. intros j x Hj Hx. destruct (decide (j = i)) as [->|Hne].
      { simplify_eq. split; [apply fltb_irrefl|lia]. }
      destruct (Hinv j x) as [Hvx _]; [lia|done|].
      assert (fltb x y = true) as Hxy.
      { destruct (fltb x y) eqn:E2; [done|].
        pose proof (fltb_false_trans v x y (Hn _ _ Hb) (Hn _ _ Hx) (Hn _ _ Hy) Hvx E2). congruence. }
      split; [by apply fltb_asym|done].
    + apply IH; [done|lia|done|]. intros j x Hj Hx. destruct (decide (j = i)) as [->|Hne].
      { simplify_eq. split; [done|lia]. }
      apply Hinv; [lia|done].
Qed.

#[export] Instance numpy_ref_laws : @NumpyLaws numpy_ref.
Proof.
  split; simpl.
  - intros n cols Hne Hn. destruct cols as [|c cols]; [done|]. unfold ref_column_stack.
    assert (length c = n) as Hc by (by inversion Hn).
    rewrite (proj2 (forallb_forall _ _)), Hc; [done|].
    intros d Hd%list_elem_of_In. rewrite Forall_forall in Hn. rewrite (Hn d Hd), Hc. apply Nat.eqb_refl.
  - intros x Hx. unfold ref_sign. by rewrite Hx.
  - intros x Hx. unfold ref_sign. by rewrite (fltb_asym _ _ Hx), Hx.
  - intros x Hx. by destruct x as [[]|[]| |[] ? ?].
  - done.
  - intros [|x xs] Hne Hn; [done|].
    destruct (ref_argmax_from_spec (x :: xs) 0 x 1 xs) as (w & Hw & Hmax); try done; try lia.
    { intros [|j] y Hj Hy; [|lia]. simplify_eq/=. split; [apply fltb_irrefl|lia]. }
    exists (ref_argmax_from 0 x 1 xs), w. split_and!; [done|done| |].
    + intros j y Hy. by apply (Hmax j).
    + intros j y Hj Hy. by apply (Hmax j y).
Qed.

Lemma combine_positions_rule_witness :
  let positions := [[fone; fone; fminus_one; fnan]; [fone; fminus_one; fzero; fone]] in
  let strengths := [[of_Z 3; of_Z 5; of_Z 1; of_Z 2]; [of_Z 2; of_Z 9; of_Z 4; of_Z 3]] in
  ∃ out, @combine_positions numpy_ref positions "and" (Some strengths) = Ok out ∧ length out = 4%nat ∧
    ∀ i v, out !! i = Some v →
      combined "AND" (row_at positions i) (Some (convictions_at strengths i)) v.
Proof.
  intros positions strengths.
  assert (well_shaped 4 positions (Some strengths)) as Hsh by (split_and!; [simpl; lia|repeat constructor..]).
  assert (Forall (Forall position_value) positions) as Hv.
  { apply (bool_decide_unpack _). vm_compute. exact I. }
  exact (@combine_positions_rule numpy_ref numpy_ref_laws 4 positions "and" (Some strengths) Hsh Hv eq_refl).
Defined.
