(* ===== verification/StrategyConfig.v ===== *)
(** * Strategies and their JSON

    The data model and serialisation of [quant/strategy/signals.py], the requests
    of [quant/schemas/backtest.py] a configuration is built from, and the
    configuration builders of [quant/strategy/backtest_service.py] and
    [live_service.py].  The clock, fresh identifiers and the validation of a
    request's JSON are parameters.

    A text field of a JSON document is read as a text; Python would carry a value
    of another type along to the lookup that fails on it. *)
From S2P Require Import Prelude PyFloat PyData Errors PyValue RefData Signals.
Local Open Scope string_scope.
Local Open Scope Z_scope.

(** ** The data model *)

Record SubStrategy := mkSubStrategy {
  ss_indicator_name : string;
  ss_signal_func_name : string;
  ss_window : Z;
  ss_signal : float;
  ss_data_column : string;
  ss_internal_cusip : option string
}.

Record StrategyConfig := mkStrategyConfig {
  sc_internal_cusip : string;
  sc_indicator_name : string;
  sc_signal_func : signal_func;
  sc_trading_period : Z;
  sc_strategy_id : string;
  sc_name : string;
  sc_conjunction : string;
  sc_substrategies : list SubStrategy
}.

(** [SubStrategy.resolve_signal_func] *)
Definition resolve_sub_signal (sub : SubStrategy) : res exn signal_func :=
  match signal_func_of (ss_signal_func_name sub) with
  | Some f => Ok f
  | None => Raise (AttributeError ("type object 'SignalDirection' has no attribute '" +:+
                                   ss_signal_func_name sub +:+ "'"))
  end.

(** [StrategyConfig.single] with a fresh [strategy_id] *)
Definition single (strategy_id internal_cusip indicator_name : string) (f : signal_func)
    (trading_period window : Z) (signal : float) (data_column : string) : StrategyConfig :=
  mkStrategyConfig internal_cusip indicator_name f trading_period strategy_id "" "AND"
    [mkSubStrategy indicator_name (signal_func_name f) window signal data_column None].

(** [get_internal_cusips] *)
Definition get_internal_cusips (c : StrategyConfig) : gset string :=
  {[ sc_internal_cusip c ]} ∪ list_to_set (omap ss_internal_cusip (sc_substrategies c)).

(** [get_substrategies] *)
Definition get_substrategies (c : StrategyConfig) : list SubStrategy :=
  match sc_substrategies c with
  | [] => [mkSubStrategy (sc_indicator_name c) (signal_func_name (sc_signal_func c)) 0 fzero "factor" None]
  | subs => subs
  end.

(** ** JSON *)

Definition text_of (v : pyval) : res exn string :=
  match v with
  | VStr s => Ok s
  | _ => Raise (TypeError ("expected str, got " +:+ type_name v))
  end.

Definition optional_text (v : pyval) : res exn (option string) :=
  match v with VNone => Ok None | _ => s ← text_of v; mret (Some s) end.

(** [subs = doc.get("substrategies") or []], iterated *)
Definition list_of (v : pyval) : res exn (list pyval) := tuple_of (or_else v (VList [])).

(** The first eight characters. *)
Definition short_id (s : string) : string := String.substring 0 8 s.

(** [_auto_name] *)
Definition auto_name (c : StrategyConfig) : string :=
  sc_internal_cusip c +:+ "_strategy_" +:+ short_id (sc_strategy_id c).

Definition nonempty (s : string) : bool := negb (String.eqb s "").

Definition sub_to_json (i : Z) (s : SubStrategy) : pyval :=
  VDict ([("id", VInt (i + 1)); ("indicator", VStr (ss_indicator_name s));
          ("signal_func", VStr (ss_signal_func_name s)); ("window", VInt (ss_window s));
          ("signal", VFloat (ss_signal s)); ("data_column", VStr (ss_data_column s))] ++
         match ss_internal_cusip s with
         | Some c => if nonempty c then [("internal_cusip", VStr c)] else []
         | None => []
         end).

(** [strategy_to_json] at the time [created_at] *)
Definition strategy_to_json (created_at : string) (config : StrategyConfig)
    (params : option Z * option float) : res exn pyval :=
  subs ←
    match sc_substrategies config, params with
    | [], (Some window, Some signal) =>
        Ok [mkSubStrategy (sc_indicator_name config) (signal_func_name (sc_signal_func config))
              window signal "v" None]
    | [], _ => Raise (ValueError ("window and signal required for legacy StrategyConfig " +:+
                                  "without substrategies"))
    | subs, _ => Ok subs
    end;
  let name := if nonempty (sc_name config) then sc_name config else auto_name config in
  mret (VDict
    [("strategy_id", VStr (sc_strategy_id config)); ("name", VStr name); ("version", VInt 1);
     ("created_at", VStr created_at); ("internal_cusip", VStr (sc_internal_cusip config));
     ("conjunction", VStr (sc_conjunction config));
     ("trading_period", VInt (sc_trading_period config));
     ("substrategies", VList (imap (λ i s, sub_to_json (Z.of_nat i) s) subs))]).

Definition sub_from_json (s : pyval) : res exn SubStrategy :=
  indicator ← (v ← getitem "indicator" s; text_of v);
  func ← (v ← getitem "signal_func" s; text_of v);
  window ← (v ← getitem "window" s; int_val v);
  signal ← (v ← getitem "signal" s; float_val v);
  column ← (v ← get_or "data_column" (VStr "v") s; text_of v);
  cusip ← (v ← get "internal_cusip" s; optional_text v);
  mret (mkSubStrategy indicator func window signal column cusip).

(** [config_from_json] *)
Definition config_from_json (doc : pyval) : res exn StrategyConfig :=
  internal ← (v ← get "internal_cusip" doc;
              if truthy v then mret v else get "ticker" doc);
  if negb (truthy internal) then Raise (ValueError "CONFIG_JSON missing internal_cusip")
  else
    subs_raw ← (v ← get "substrategies" doc; list_of v);
    match subs_raw with
    | [] => Raise (ValueError "CONFIG_JSON has no substrategies")
    | _ =>
        subs ← mapM sub_from_json subs_raw;
        match subs with
        | [] => Raise (ValueError "CONFIG_JSON has no substrategies")
        | first :: _ =>
            f ← resolve_sub_signal first;
            cusip ← text_of internal;
            period ← (v ← get_or "trading_period" (VInt 365) doc; int_val v);
            strategy_id ← (v ← get_or "strategy_id" (VStr "") doc; mret (str_val v));
            name ← (v ← get_or "name" (VStr "") doc; text_of v);
            conjunction ← (v ← get_or "conjunction" (VStr "AND") doc; text_of v);
            mret (mkStrategyConfig cusip (ss_indicator_name first) f period strategy_id name
                    conjunction subs)
        end
    end.

(** Window and signal of a search: one pair, or one of each per factor. *)
Inductive params :=
| Scalar (window : Z) (signal : float)
| PerFactor (windows : list Z) (signals : list float).

(** [params_from_strategy_json] *)
Definition params_from_strategy_json (doc : pyval) : res exn params :=
  subs ← (v ← getitem "substrategies" doc; tuple_of v);
  let window s := (v ← getitem "window" s; int_val v) in
  let signal s := (v ← getitem "signal" s; float_val v) in
  match subs with
  | [s] => w ← window s; x ← signal s; mret (Scalar w x)
  | _ => ws ← mapM window subs; xs ← mapM signal subs; mret (PerFactor ws xs)
  end.

(** ** Signal functions by the user's names *)

(** [next((r for r in rows if r[col] == name), None)] *)
Fixpoint row_named (col name : string) (rows : list pyval) : res exn (option pyval) :=
  match rows with
  | [] => mret None
  | r :: rows' =>
      v ← getitem col r;
      if is_str name v then mret (Some r) else row_named col name rows'
  end.

(** [resolve_signal_func] *)
Definition resolve_signal_func (signal_name indicator_name : string)
    (indicator_rows signal_type_rows : list pyval) : res exn signal_func :=
  ind ← row_named "method_name" indicator_name indicator_rows;
  match ind with
  | None => Raise (ValueError ("Unknown indicator: " +:+ indicator_name))
  | Some ind =>
      b ← get "is_bounded_ind" ind;
      sig ← row_named "name" signal_name signal_type_rows;
      match sig with
      | None => Raise (ValueError ("Unknown signal type: " +:+ signal_name))
      | Some sig =>
          v ← getitem (if is_str "Y" b then "func_name_bounded" else "func_name_band") sig;
          func_name ← text_of v;
          match signal_func_of func_name with
          | Some f => Ok f
          | None => Raise (ValueError ("SignalDirection has no method '" +:+ func_name +:+ "'"))
          end
      end
  end.

(** ** Requests *)

Record RangeParam := mkRange { rp_min : float; rp_max : float; rp_step : float }.

Record FactorConfig := mkFactor {
  fc_symbol : option string;
  fc_vendor_symbol : option string;
  fc_data_source : option string;
  fc_data_column : string;
  fc_indicator : string;
  fc_strategy : string;
  fc_window_range : RangeParam;
  fc_signal_range : RangeParam
}.

(** What [OptimizeRequest] and its siblings share and the core reads. *)
Record OptimizeRequest := mkOptimize {
  rq_symbol : string;
  rq_start : string;
  rq_end : string;
  rq_trading_period : Z;
  rq_fee_bps : float;
  rq_data_source : string;
  rq_tm_interval_id : Z;
  rq_refresh_dataset : bool;
  rq_factors : list FactorConfig;
  rq_conjunction : option string;
  rq_walk_forward : bool;
  rq_split_ratio : float
}.

(** [range(a, b, step)] of a non-zero step *)
Definition py_range (a b step : Z) : list Z :=
  let n := if 0 <? step then (b - a + step - 1) / step else (a - b - step - 1) / - step in
  (λ i, a + Z.of_nat i * step) <$> seq 0 (Z.to_nat n).

(** [RangeParam.to_values(as_int=True)] *)
Definition to_int_values (r : RangeParam) : res exn (list Z) :=
  let int x := res_map_exn int_exn (trunc_int x) in
  a ← int (rp_min r);
  b ← int (rp_max r);
  s ← int (rp_step r);
  if s =? 0 then Raise (ValueError "range() arg 3 must not be zero")
  else mret (py_range a (b + 1) s).

(** [RangeParam.to_values()], [np_arange] the library's *)
Definition to_float_values (np_arange : float → float → float → list float) (r : RangeParam) : list float :=
  np_arange (rp_min r) (fadd (rp_max r) (fdiv (rp_step r) (of_Z 2))) (rp_step r).

(** [_build_param_ranges]: one pair of axes per factor. *)
Definition build_param_ranges (np_arange : float → float → float → list float) (factors : list FactorConfig)
    : res exn (list (list Z * list float)) :=
  mapM (λ f, ws ← to_int_values (fc_window_range f);
             mret (ws, to_float_values np_arange (fc_signal_range f))) factors.

(** [BacktestError(detail, status_code=status)] *)
Definition BacktestError (detail : string) (status : Z) : exn :=
  mkExn CBacktestError detail (Some status) None None.

(** [x or y] of optional texts *)
Definition text_or (x y : option string) : option string :=
  match x with Some s => if nonempty s then x else y | None => y end.

Definition truthy_text (x : option string) : bool := match x with Some s => nonempty s | None => false end.

(** The product a factor is read from. *)
Definition factor_cusip (f : FactorConfig) : option string :=
  if truthy_text (fc_symbol f) || truthy_text (fc_vendor_symbol f)
  then text_or (fc_vendor_symbol f) (fc_symbol f) else None.

(** [build_config] over the catalog rows, with a fresh [strategy_id]. *)
Definition build_config (strategy_id : string) (indicator_rows signal_type_rows : list pyval)
    (req : OptimizeRequest) : res exn StrategyConfig :=
  if (2 <=? length (rq_factors req))%nat && negb (truthy_text (rq_conjunction req)) then
    Raise (BacktestError "`conjunction` is required when more than one factor is provided." 422)
  else
    substrategies ← mapM (λ f,
      func ← resolve_signal_func (fc_strategy f) (fc_indicator f) indicator_rows signal_type_rows;
      mret (mkSubStrategy (fc_indicator f) (signal_func_name func) 0 fzero (fc_data_column f)
              (factor_cusip f))) (rq_factors req);
    match rq_factors req with
    | [] => Raise (plain CIndexError "list index out of range")
    | first :: _ =>
        first_func ← resolve_signal_func (fc_strategy first) (fc_indicator first)
                       indicator_rows signal_type_rows;
        mret (mkStrategyConfig (rq_symbol req) (fc_indicator first) first_func
                (rq_trading_period req) strategy_id ""
                (default "AND" (text_or (rq_conjunction req) (Some "AND"))) substrategies)
    end.

(** ** The configuration a deployment is evaluated with *)

(** [OptimizeResult.params_from_best] *)
Definition params_from_best (best : list (string * pyval)) : res exn params :=
  let item k := getitem k (VDict best) in
  match dict_get "window" best with
  | Some w => w ← int_val w; s ← (v ← item "signal"; float_val v); mret (Scalar w s)
  | None =>
      let n := length (filter (λ p, String.prefix "window_" p.1 = true) best) in
      if (n =? 0)%nat then Raise (ValueError "best params missing window/signal keys")
      else
        ws ← mapM (λ i, v ← item ("window_" +:+ str_Z (Z.of_nat i)); int_val v) (seq 0 n);
        xs ← mapM (λ i, v ← item ("signal_" +:+ str_Z (Z.of_nat i)); float_val v) (seq 0 n);
        mret (PerFactor ws xs)
  end.

Section live.
(** [OptimizeRequest.model_validate] *)
Variable model_validate : pyval → res exn OptimizeRequest.
Variables indicator_rows signal_type_rows : list pyval.
Variable strategy_id : string.

(** [_resolve_config_and_params] *)
Definition resolve_config_and_params (config_json : list (string * pyval)) (result_payload : option pyval)
    : res exn (StrategyConfig * params * option OptimizeRequest) :=
  match dict_get "factors" config_json with
  | Some _ =>
      req ← model_validate (VDict config_json);
      config ← build_config strategy_id indicator_rows signal_type_rows req;
      best ← match result_payload with
             | None => mret VNone
             | Some payload => get "best" payload
             end;
      if negb (truthy best) then
        Raise (LiveEvaluationError "no optimization result found for strategy — run backtest first")
      else
        match (match best with
               | VDict d => params_from_best d
               | _ => Raise (TypeError "argument is not a mapping")
               end) with
        | Ok p => Ok (config, p, Some req)
        | Raise e =>
            if isinstance e CValueError
            then Raise (LiveEvaluationError ("result payload missing best params: " +:+ exn_msg e))
            else Raise e
        end
  | None =>
      config ← config_from_json (VDict config_json);
      p ← params_from_strategy_json (VDict config_json);
      mret (config, p, None)
  end.
End live.

(** [_data_sources]: the provider each symbol is read from. *)
Definition data_sources (config : StrategyConfig) (optimize_req : option OptimizeRequest)
    : res exn (list (string * string)) :=
  match optimize_req with
  | None =>
      Raise (LiveEvaluationError ("strategy " +:+ repr_str (sc_internal_cusip config) +:+
        " names no data_source — it was saved without one. Re-run the backtest from the form so the "
        +:+ "provider is recorded with the strategy"))
  | Some req =>
      let default_source := rq_data_source req in
      mret (foldl (λ sources f,
        let cusip := default (sc_internal_cusip config)
                       (text_or (fc_vendor_symbol f)
                          (text_or (fc_symbol f) (Some (sc_internal_cusip config)))) in
        match dict_get cusip sources with
        | Some _ => sources
        | None => dict_set cusip (default default_source (text_or (fc_data_source f) (Some default_source)))
                    sources
        end) [(sc_internal_cusip config, default_source)] (rq_factors req))
  end.

(** ** Lookback *)

(** [_max_window] *)
Definition max_window (p : params) : res exn Z :=
  match p with
  | Scalar w _ => Ok w
  | PerFactor (w :: ws) _ => Ok (foldl Z.max w ws)
  | PerFactor [] _ => Raise (ValueError "max() iterable argument is empty")
  end.

(** [live_lookback_days] *)
Definition live_lookback_days (max_window trading_period : Z) : Z :=
  Z.max (max_window * 3 + 60) (Z.min trading_period 400).

(** [live_lookback_bars] *)
Definition live_lookback_bars (p : params) : res exn Z := w ← max_window p; mret (w * 3 + 60).

(** [build_data_dict_for_signal] up to loading: the primary first, the others in
    the order of their names. *)
Definition symbols_to_load (config : StrategyConfig) : list string :=
  sc_internal_cusip config ::
  sorted_by (λ s t, negb (String.ltb t s))
    (elements (get_internal_cusips config ∖ {[ sc_internal_cusip config ]})).

(** ** Round trip *)

Lemma sub_roundtrip i s : ss_internal_cusip s ≠ Some "" → sub_from_json (sub_to_json i s) = Ok s.
Proof.
  intros Hc. destruct s as [a b w x col [c|]]; [|reflexivity]. simpl in Hc.
  unfold sub_to_json. cbn [ss_internal_cusip].
  assert (nonempty c = true) as ->; [|reflexivity].
  unfold nonempty. destruct (String.eqb_spec c ""); [congruence|done].
Qed.

Lemma subs_roundtrip (g : nat → Z) subs : Forall (λ s, ss_internal_cusip s ≠ Some "") subs →
  mapM sub_from_json (imap (λ i s, sub_to_json (g i) s) subs) = Ok subs.
Proof.
  revert g. induction subs as [|s subs IH]; intros g Hs; [done|].
  destruct (proj1 (Forall_cons _ _ _) Hs) as [Hc Hs']. cbn [imap mapM].
  rewrite sub_roundtrip by done. rewrite Ok_bind.
  pose proof (IH (λ i, g (S i)) Hs') as E. unfold compose. rewrite E. reflexivity.
Qed.

(** What a saved strategy is read back as: its own name or the generated one. *)
Definition saved (c : StrategyConfig) : StrategyConfig :=
  mkStrategyConfig (sc_internal_cusip c) (sc_indicator_name c) (sc_signal_func c)
    (sc_trading_period c) (sc_strategy_id c)
    (if nonempty (sc_name c) then sc_name c else auto_name c) (sc_conjunction c) (sc_substrategies c).

(** The parameters a strategy carries on its substrategies. *)
Definition own_params (c : StrategyConfig) : params :=
  match sc_substrategies c with
  | [s] => Scalar (ss_window s) (ss_signal s)
  | subs => PerFactor (map ss_window subs) (map ss_signal subs)
  end.

(** A configuration whose top-level fields are its first substrategy's. *)
Definition coherent (c : StrategyConfig) : Prop :=
  ∃ first rest, sc_substrategies c = first :: rest ∧
    sc_indicator_name c = ss_indicator_name first ∧
    signal_func_of (ss_signal_func_name first) = Some (sc_signal_func c) ∧
    sc_internal_cusip c ≠ "" ∧
    Forall (λ s, ss_internal_cusip s ≠ Some "") (sc_substrategies c).

Lemma sub_fields (g : nat → Z) subs :
  mapM (λ s, v ← getitem "window" s; int_val v) (imap (λ i s, sub_to_json (g i) s) subs)
    = Ok (map ss_window subs) ∧
  mapM (λ s, v ← getitem "signal" s; float_val v) (imap (λ i s, sub_to_json (g i) s) subs)
    = Ok (map ss_signal subs).
Proof.
  revert g. induction subs as [|s subs IH]; intros g; [done|]. cbn [imap mapM map].
  destruct (IH (λ i, g (S i))) as [E1 E2]. unfold compose. by rewrite E1, E2.
Qed.

(** What a search request builds is such a configuration. *)
Lemma built_coherent strategy_id indicator_rows signal_type_rows req c :
  build_config strategy_id indicator_rows signal_type_rows req = Ok c → rq_symbol req ≠ "" → coherent c.
Proof.
  unfold build_config. intros Hb Hs. destruct (_ && _); [done|].
  destruct (mapM _ (rq_factors req)) as [subs|] eqn:Em; [|done]. rewrite Ok_bind in Hb.
  destruct (rq_factors req) as [|f fs]; [done|].
  destruct (resolve_signal_func _ _ _ _) as [func|] eqn:Ef; [|done]. rewrite Ok_bind in Hb. injection Hb as <-.
  assert (∀ fs subs, mapM (λ f, func ← resolve_signal_func (fc_strategy f) (fc_indicator f) indicator_rows signal_type_rows;
      mret (mkSubStrategy (fc_indicator f) (signal_func_name func) 0 fzero (fc_data_column f) (factor_cusip f))) fs
      = Ok subs → Forall (λ s, ss_internal_cusip s ≠ Some "") subs) as Hall.
  { clear. induction fs as [|f fs IH]; intros subs; cbn [mapM]; [by intros [= <-]|].
    destruct (resolve_signal_func _ _ _ _) as [func|]; [|done]. rewrite !Ok_bind.
    destruct (mapM _ fs) as [subs'|]; [|done]. intros [= <-]. constructor; [|by apply IH]. cbn [ss_internal_cusip].
    unfold factor_cusip, text_or, truthy_text, nonempty. destruct (fc_vendor_symbol f) as [v|], (fc_symbol f) as [y|]; cbn;
      repeat match goal with |- context [String.eqb ?t ""] => destruct (String.eqb_spec t "") end; cbn; congruence. }
  pose proof (Hall _ _ Em) as Hcusips. cbn [mapM] in Em. rewrite Ef in Em. rewrite !Ok_bind in Em.
  destruct (mapM _ fs) as [subs'|]; [|done]. injection Em as <-. eexists _, subs'. split_and!; [done|done| |done|done].
  by destruct func.
Qed.

Lemma read_back c created_at p : coherent c →
  ∃ doc, strategy_to_json created_at c p = Ok doc ∧
    config_from_json doc = Ok (saved c) ∧
    params_from_strategy_json doc = Ok (own_params c).
Proof.
  intros (first & rest & Hsubs & Hind & Hf & Hc & Hss).
  unfold strategy_to_json. rewrite Hsubs. rewrite Ok_bind. rewrite <-Hsubs. eexists. split; [done|].
  set (subs := imap (λ i s, sub_to_json (Z.of_nat i) s) (sc_substrategies c)).
  assert (subs = sub_to_json 0 first :: imap (λ i s, sub_to_json (Z.of_nat (S i)) s) rest) as Hjson
    by (unfold subs; by rewrite Hsubs).
  set (doc := VDict _). destruct (sub_fields Z.of_nat (sc_substrategies c)) as [Hw Hx].
  fold subs in Hw, Hx. split.
  - unfold config_from_json.
    assert ((v ← get "internal_cusip" doc; if truthy v then mret v else get "ticker" doc)
            = Ok (VStr (sc_internal_cusip c))) as ->.
    { change (get "internal_cusip" doc) with (Ok (E:=exn) (VStr (sc_internal_cusip c))).
      rewrite Ok_bind. simpl. by rewrite (proj2 (String.eqb_neq _ _) Hc). }
    rewrite Ok_bind. simpl (truthy _). rewrite (proj2 (String.eqb_neq _ _) Hc). cbn [negb].
    assert ((v ← get "substrategies" doc; list_of v) = Ok subs) as ->.
    { change (get "substrategies" doc) with (Ok (E:=exn) (VList subs)).
      rewrite Ok_bind. unfold list_of, or_else. by rewrite Hjson. }
    rewrite Ok_bind. rewrite Hjson at 1. unfold subs. rewrite (subs_roundtrip Z.of_nat) by done.
    rewrite Ok_bind. rewrite Hsubs at 1. unfold resolve_sub_signal. rewrite Hf, Ok_bind.
    unfold saved. rewrite Hind. reflexivity.
  - unfold params_from_strategy_json, own_params.
    change (getitem "substrategies" doc) with (Ok (E:=exn) (VList subs)).
    rewrite !Ok_bind. unfold tuple_of. rewrite Ok_bind. cbv zeta. rewrite Hw, Hx.
    rewrite Hjson, Hsubs. by destruct rest.
Qed.

Lemma written_again c created_at p : coherent c →
  strategy_to_json created_at (saved c) p = strategy_to_json created_at c p.
Proof.
  intros (first & rest & Hsubs & _ & _ & Hc & _). unfold strategy_to_json, saved. cbn [sc_substrategies]. rewrite Hsubs, !Ok_bind.
  cbn [sc_name sc_strategy_id sc_internal_cusip sc_conjunction sc_trading_period]. destruct (nonempty (sc_name c)) eqn:En; [by rewrite En|].
  assert (nonempty (auto_name c) = true) as ->; [|done]. unfold nonempty, auto_name. by destruct (sc_internal_cusip c).
Qed.


