(* ===== verification/Frames.v ===== *)
(** * Series, indicators and factor frames

    [quant/strategy/indicators.py] and the [FactorFrames] of
    [quant/strategy/performance.py].  A data frame is its index, as stamps, and
    its columns in order; arithmetic on aligned series is the IEEE operation on
    each pair of elements.  The window functions of pandas are parameters. *)
From S2P Require Import Prelude PyFloat PyData Errors PyValue Signals StrategyConfig.
Local Open Scope string_scope.
Local Open Scope Z_scope.

Record frame := mkFrame { f_index : list Z; f_columns : list (string * list float) }.

(** A series: labels and values. *)
Record pseries := mkSeries { s_index : list Z; s_values : list float }.

Class Pandas := {
  rolling_mean : Z → list float → res exn (list float);
  rolling_std : Z → list float → res exn (list float);
  rolling_max : Z → list float → res exn (list float);
  rolling_min : Z → list float → res exn (list float);
  (** [.ewm(span=_, adjust=False).mean()] *)
  ewm_mean : Z → list float → res exn (list float);
  pct_change : list float → list float;
  (** [series.reindex(index)] *)
  reindex : pseries → list Z → res exn (list float)
}.

(** [data[name]] *)
Definition get_column (f : frame) (name : string) : res exn (list float) :=
  match dict_get name (f_columns f) with
  | Some c => Ok c
  | None => Raise (KeyError name)
  end.

(** [data[name] = values] *)
Definition set_column (f : frame) (name : string) (values : list float) : frame :=
  mkFrame (f_index f) (dict_set name values (f_columns f)).

Definition has_column (f : frame) (name : string) : bool :=
  match dict_get name (f_columns f) with Some _ => true | None => false end.

(** [xs.diff(1)] *)
Definition diff (xs : list float) : list float :=
  zip_with fsub xs (fnan :: xs).

(** [series.dropna()] *)
Definition dropna (s : pseries) : pseries :=
  let kept := filter (λ p, is_nan p.2 = false) (zip (s_index s) (s_values s)) in
  mkSeries (map fst kept) (map snd kept).

Section indicators.
Context `{Pandas}.

Definition get_sma (data : frame) (period : Z) : res exn pseries :=
  factor ← get_column data "factor";
  sma ← rolling_mean period factor;
  mret (mkSeries (f_index data) sma).

Definition get_ema (data : frame) (period : Z) : res exn pseries :=
  factor ← get_column data "factor";
  ema ← ewm_mean period factor;
  mret (mkSeries (f_index data) ema).

Definition get_rsi (data : frame) (period : Z) : res exn pseries :=
  factor ← get_column data "factor";
  let delta := dropna (mkSeries (f_index data) (diff factor)) in
  let up := map (λ x, if fltb x fzero then fzero else x) (s_values delta) in
  let down := map (λ x, if fltb fzero x then fzero else x) (s_values delta) in
  roll_up1 ← rolling_mean period up;
  roll_down1 ← rolling_mean period (map fabs down);
  let RS1 := zip_with fdiv roll_up1 roll_down1 in
  let rsi := map (λ r, fsub (of_Z 100) (fdiv (of_Z 100) (fadd fone r))) RS1 in
  mret (mkSeries (s_index delta) rsi).

Definition get_bollinger_band (data : frame) (period : Z) : res exn pseries :=
  factor ← get_column data "factor";
  sma ← rolling_mean period factor;
  rstd ← rolling_std period factor;
  mret (mkSeries (f_index data) (zip_with fdiv (zip_with fsub factor sma) rstd)).

Definition get_stochastic_oscillator (data : frame) (period : Z) : res exn pseries :=
  high_col ← get_column data "High";
  high ← rolling_max period high_col;
  low_col ← get_column data "Low";
  low ← rolling_min period low_col;
  close ← get_column data "Close";
  let k := zip_with fdiv (map (fmul (of_Z 100)) (zip_with fsub close low)) (zip_with fsub high low) in
  d ← rolling_mean period k;
  mret (mkSeries (f_index data) d).

(** [TechnicalAnalysis(data)] *)
Definition technical_analysis (data : frame) : res exn frame :=
  if has_column data "factor" then Ok data
  else Raise (ValueError "DataFrame must contain a 'factor' column").

(** [TechnicalAnalysis.indicator] *)
Definition indicator (data : frame) (name : string) (period : Z) : res exn (list float) :=
  s ← match name with
      | "get_sma" => get_sma data period
      | "get_ema" => get_ema data period
      | "get_rsi" => get_rsi data period
      | "get_bollinger_band" => get_bollinger_band data period
      | "get_stochastic_oscillator" => get_stochastic_oscillator data period
      | _ => Raise (AttributeError ("'TechnicalAnalysis' object has no attribute '" +:+ name +:+ "'"))
      end;
  reindex s (f_index data).

(** ** [FactorFrames] *)

Definition all_frames := list (string * frame).

Definition get_frame (all : all_frames) (cusip : string) : res exn frame :=
  match dict_get cusip all with Some f => Ok f | None => Raise (KeyError cusip) end.

Definition main_frame (all : all_frames) (config : StrategyConfig) : res exn frame :=
  get_frame all (sc_internal_cusip config).

Definition MIN_COVERAGE : float := of_decimal false 80 (-2).

(** The product a substrategy's factor is read from. *)
Definition sub_cusip (config : StrategyConfig) (sub : SubStrategy) : string :=
  default (sc_internal_cusip config) (text_or (ss_internal_cusip sub) (Some (sc_internal_cusip config))).

(** [coverage] of [_require_coverage] *)
Definition coverage (main factor_df : frame) : float :=
  let main_dates : gset Z := list_to_set (f_index main) in
  let factor_dates : gset Z := list_to_set (f_index factor_df) in
  let missing := main_dates ∖ factor_dates in
  if bool_decide (main_dates = ∅) then fone
  else fsub fone (ftruediv (Z.of_nat (size missing)) (Z.of_nat (size main_dates))).

(** [f"{x:.0%}"] *)
Definition fmt_percent (x : float) : string := fmt_fixed 0 (fmul x (of_Z 100)) +:+ "%".

(** [_require_coverage] *)
Definition require_coverage (main factor_df : frame) (factor_cusip main_cusip : string) : res exn unit :=
  let dates (f : frame) := str_Z (Z.of_nat (size (list_to_set (f_index f) : gset Z))) in
  let c := coverage main factor_df in
  if fltb c MIN_COVERAGE then
    Raise (ValueError ("Factor '" +:+ factor_cusip +:+ "' covers only " +:+ fmt_percent c +:+
      " of main product '" +:+ main_cusip +:+ "' dates (" +:+ dates factor_df +:+ " vs " +:+
      dates main +:+ " trading days). Cannot use a product with fewer trading days as a factor " +:+
      "for a product with more trading days."))
  else Ok tt.

(** [FactorFrames.factor] *)
Definition factor (all : all_frames) (config : StrategyConfig) (main : frame) (sub : SubStrategy)
    : res exn (list float) :=
  let cusip := sub_cusip config sub in
  sub_df ← get_frame all cusip;
  _ ← (if String.eqb cusip (sc_internal_cusip config) then Ok tt
       else require_coverage main sub_df cusip (sc_internal_cusip config));
  c ← get_column sub_df (ss_data_column sub);
  reindex (mkSeries (f_index sub_df) c) (f_index main).

(** [FactorFrames.single_factor_frame] *)
Definition single_factor_frame (all : all_frames) (config : StrategyConfig) (main : frame) : res exn frame :=
  match get_substrategies config with
  | [] => Raise (plain CIndexError "list index out of range")
  | sub :: _ =>
      let cusip := sub_cusip config sub in
      own ← (if String.eqb cusip (sc_internal_cusip config) then
               f ← get_frame all cusip; mret (has_column f (ss_data_column sub))
             else mret true);
      if (own : bool) then
        values ← factor all config main sub;
        mret (set_column main "factor" values)
      else mret main
  end.
End indicators.

(** ** Agreement up to a bar

    Two series agree up to [k] when their first [k] elements do.  What respects
    agreement for every [k] cannot see the future. *)

Definition agree {A} (k : nat) (xs ys : list A) : Prop := ∀ i, (i < k)%nat → xs !! i = ys !! i.

#[export] Instance agree_equivalence {A} k : Equivalence (@agree A k).
Proof.
  split.
  - intros xs i _. done.
  - intros xs ys Hxy i Hi. symmetry. by apply Hxy.
  - intros xs ys zs H1 H2 i Hi. by rewrite H1, H2.
Qed.

Lemma agree_take {A} k (xs ys : list A) : agree k xs ys ↔ take k xs = take k ys.
Proof.
  split.
  - intros Ha. apply list_eq. intros i. destruct (decide (i < k)%nat).
    + rewrite !lookup_take_lt by done. by apply Ha.
    + by rewrite !lookup_take_ge by lia.
  - intros Ht i Hi. by rewrite <-(lookup_take_lt xs k i), <-(lookup_take_lt ys k i), Ht by done.
Qed.

Lemma agree_map {A B} (f : A → B) k xs ys : agree k xs ys → agree k (map f xs) (map f ys).
Proof. intros Ha i Hi. change (map f ?l) with (f <$> l). by rewrite !list_lookup_fmap, Ha. Qed.

Lemma agree_zip_with {A B C} (f : A → B → C) k xs xs' ys ys' :
  agree k xs xs' → agree k ys ys' → agree k (zip_with f xs ys) (zip_with f xs' ys').
Proof. intros Hx Hy i Hi. by rewrite !lookup_zip_with, Hx, Hy. Qed.

#[export] Instance map_agree {A B} (f : A → B) k : Proper (agree k ==> agree k) (map f).
Proof. intros xs ys. apply agree_map. Qed.

#[export] Instance zip_with_agree {A B C} (f : A → B → C) k :
  Proper (agree k ==> agree k ==> agree k) (zip_with f).
Proof. intros xs xs' Hx ys ys' Hy. by apply agree_zip_with. Qed.

Lemma agree_cons {A} (x : A) k xs ys : agree k xs ys → agree k (x :: xs) (x :: ys).
Proof. intros Ha [|i] Hi; [done|]. simpl. apply Ha. lia. Qed.

Lemma agree_le {A} k m (xs ys : list A) : (m <= k)%nat → agree k xs ys → agree m xs ys.
Proof. intros Hm Ha i Hi. apply Ha. lia. Qed.

(** A fallible operation on a series that keeps its length and respects agreement. *)
Definition windowed (f : list float → res exn (list float)) : Prop :=
  (∀ xs ys, f xs = Ok ys → length ys = length xs) ∧
  (∀ k xs xs' ys ys', agree k xs xs' → f xs = Ok ys → f xs' = Ok ys' → agree k ys ys').

(** The value at a label, missing where there is none. *)
Definition value_at (s : pseries) (d : Z) : float :=
  default fnan (dict_get d (zip (s_index s) (s_values s))).

(** What pandas documents of the parameters: window functions look back, and
    reindexing looks labels up. *)
Class PandasLaws `{Pandas} := {
  rolling_mean_windowed w : windowed (rolling_mean w);
  rolling_std_windowed w : windowed (rolling_std w);
  rolling_max_windowed w : windowed (rolling_max w);
  rolling_min_windowed w : windowed (rolling_min w);
  ewm_mean_windowed w : windowed (ewm_mean w);
  pct_change_windowed : windowed (λ xs, Ok (pct_change xs));
  reindex_unique s idx : NoDup (s_index s) → length (s_values s) = length (s_index s) →
    reindex s idx = Ok (map (value_at s) idx)
}.

(** A frame pandas would accept: unique labels, columns as long as the index. *)
Definition frame_ok (f : frame) : Prop :=
  NoDup (f_index f) ∧ ∀ name c, dict_get name (f_columns f) = Some c → length c = length (f_index f).

(** Frames with the same first [k] rows. *)
Definition frames_agree (k : nat) (f g : frame) : Prop :=
  agree k (f_index f) (f_index g) ∧
  ∀ name c d, dict_get name (f_columns f) = Some c → dict_get name (f_columns g) = Some d → agree k c d.

Lemma agree_diff k xs ys : agree k xs ys → agree k (diff xs) (diff ys).
Proof. intros Ha. unfold diff. apply agree_zip_with; [done|]. by apply agree_cons. Qed.

(** Two runs whose results, when both end well, are related. *)
Definition both {A B} (R : A → B → Prop) (m : res exn A) (m' : res exn B) : Prop :=
  ∀ a b, m = Ok a → m' = Ok b → R a b.

Lemma both_ret {A B} (R : A → B → Prop) a b : R a b → both R (mret a) (mret b).
Proof. intros Hr x y [= <-] [= <-]. done. Qed.

Lemma both_bind {A B C D} (R : A → B → Prop) (S : C → D → Prop) m m'
    (F : A → res exn C) (F' : B → res exn D) :
  both R m m' → (∀ a b, R a b → both S (F a) (F' b)) → both S (m ≫= F) (m' ≫= F').
Proof.
  intros Hm HF c d Hc Hd. destruct m as [a|], m' as [b|]; try done. by eapply HF; [apply Hm|..].
Qed.

Lemma both_raise {A B} (R : A → B → Prop) e m' : both R (Raise e) m'.
Proof. intros a b. done. Qed.

Lemma both_impl {A B} (R S : A → B → Prop) m m' : (∀ a b, R a b → S a b) → both R m m' → both S m m'.
Proof. intros Hi Hm a b Ha Hb. apply Hi. by apply Hm. Qed.

Section labels.
Implicit Types (idx : list Z) (vals : list float).

Lemma dict_get_zip idx vals i d v : NoDup idx → idx !! i = Some d → vals !! i = Some v →
  dict_get d (zip idx vals) = Some v.
Proof.
  intros Hn. revert idx Hn vals. induction i as [|i IH]; intros [|x idx] Hn [|y vals] Hd Hv; try done; simpl in *.
  - simplify_eq. by rewrite decide_True.
  - apply NoDup_cons in Hn as [Hx Hn]. rewrite decide_False; [by apply IH|].
    intros ->. apply Hx. by eapply list_elem_of_lookup_2.
Qed.

Lemma dict_get_zip_None idx vals d : d ∉ idx → dict_get d (zip idx vals) = None.
Proof.
  revert vals. induction idx as [|x idx IH]; intros [|y vals] Hd; try done; simpl.
  apply not_elem_of_cons in Hd as [Hx Hd]. rewrite decide_False by done. by apply IH.
Qed.

Lemma value_at_lookup idx vals i d v : NoDup idx → idx !! i = Some d → vals !! i = Some v →
  value_at (mkSeries idx vals) d = v.
Proof. intros Hn Hd Hv. unfold value_at. simpl. by rewrite (dict_get_zip idx vals i d v). Qed.

Lemma values_at_own idx vals : NoDup idx → length vals = length idx →
  map (value_at (mkSeries idx vals)) idx = vals.
Proof.
  intros Hn Hl. apply list_eq. intros i. change (map ?f ?l) with (f <$> l). rewrite list_lookup_fmap.
  destruct (idx !! i) as [d|] eqn:Hd; simpl.
  - destruct (lookup_lt_is_Some_2 vals i) as [v Hv]; [rewrite Hl; by eapply lookup_lt_Some|].
    rewrite Hv. f_equal. by eapply value_at_lookup.
  - symmetry. apply lookup_ge_None. rewrite Hl. by apply lookup_ge_None.
Qed.

(** Known readings and their labels, as one filtered list. *)
Definition known_pairs idx vals : list (Z * float) := filter (λ p, is_nan p.2 = false) (zip idx vals).

Lemma known_pairs_labels idx vals : NoDup idx → NoDup (map fst (known_pairs idx vals)).
Proof.
  intros Hn. unfold known_pairs. revert vals. induction Hn as [|x idx Hx Hn IH]; intros [|y vals]; try constructor.
  simpl. rewrite filter_cons. case_decide; [|apply IH]. simpl. constructor; [|apply IH].
  intros Hin. apply Hx. change (map ?f ?l) with (f <$> l) in Hin.
  apply list_elem_of_fmap in Hin as ([z v] & -> & Hz). apply list_elem_of_filter in Hz as [_ Hz].
  by apply elem_of_zip_l in Hz.
Qed.

(** Labels among the first [k] find the same value in two series whose known
    readings come from series that agree up to [k]. *)
Lemma known_pairs_agree k idx idx' vals vals' : agree k idx idx' → agree k vals vals' →
  ∃ m (common : list (Z * float)), (known_pairs idx vals = common ++ drop m (known_pairs idx vals))%list ∧
    (known_pairs idx' vals' = common ++ drop m (known_pairs idx' vals'))%list ∧ length common = m ∧
    common = known_pairs (take k idx) (take k vals).
Proof.
  intros Hi Hv. exists (length (known_pairs (take k idx) (take k vals))), (known_pairs (take k idx) (take k vals)).
  assert (∀ j w, known_pairs j w = (known_pairs (take k j) (take k w)
          ++ drop (length (known_pairs (take k j) (take k w))) (known_pairs j w))%list) as Hsplit.
  { intros j w. unfold known_pairs. rewrite <-zip_with_take. set (L := zip j w).
    assert (filter (λ p, is_nan p.2 = false) L = (filter (λ p, is_nan p.2 = false) (take k L)
            ++ filter (λ p, is_nan p.2 = false) (drop k L))%list) as HL
      by (by rewrite <-filter_app, take_drop).
    rewrite HL. by rewrite drop_app_length. }
  split_and!; [apply Hsplit| |done|done].
  apply agree_take in Hi, Hv. rewrite Hi, Hv at 1. rewrite Hi, Hv. apply Hsplit.
Qed.
End labels.

Section causality.
Context `{PandasLaws}.
Implicit Types (f g : frame) (s : pseries).

(** A series with unique labels and a value for each. *)
Definition series_ok s : Prop := NoDup (s_index s) ∧ length (s_values s) = length (s_index s).

Lemma known_pairs_in idx vals d v : (d, v) ∈ known_pairs idx vals →
  ∃ i, idx !! i = Some d ∧ vals !! i = Some v.
Proof.
  unfold known_pairs. intros [_ [i Hi]%list_elem_of_lookup]%list_elem_of_filter.
  rewrite lookup_zip_with in Hi. exists i.
  destruct (idx !! i), (vals !! i); by simplify_eq/=.
Qed.

Lemma known_labels_agree k idx idx' vals vals' ys ys' d i :
  let K := known_pairs idx vals in
  let K' := known_pairs idx' vals' in
  NoDup idx → NoDup idx' → agree k idx idx' → agree k vals vals' → (i < k)%nat → idx !! i = Some d →
  length ys = length K → length ys' = length K' →
  (∀ m, agree m (map snd K) (map snd K') → agree m ys ys') →
  value_at (mkSeries (map fst K) ys) d = value_at (mkSeries (map fst K') ys') d.
Proof.
  intros K K' Hn Hn' Hidx Hvals Hik Hd Hl Hl' HF.
  destruct (known_pairs_agree k idx idx' vals vals' Hidx Hvals) as (m & common & HK & HK' & Hm & Hcommon).
  fold K in HK. fold K' in HK'.
  assert (∀ A (f : Z * float → A), agree m (map f K) (map f K')) as Hag.
  { intros A f j Hj. rewrite HK, HK', !map_app. by rewrite !lookup_app_l by (rewrite List.length_map; lia). }
  pose proof (known_pairs_labels idx vals Hn) as HnK. pose proof (known_pairs_labels idx' vals' Hn') as HnK'.
  fold K in HnK. fold K' in HnK'.
  destruct (decide (d ∈ map fst common)) as [Hin|Hout].
  - apply list_elem_of_lookup in Hin as [j Hj].
    assert (j < m)%nat as Hjm by (apply lookup_lt_Some in Hj; rewrite List.length_map in Hj; lia).
    assert (map fst K !! j = Some d) as HjK by (rewrite HK, map_app; by apply lookup_app_l_Some).
    destruct (lookup_lt_is_Some_2 ys j) as [v Hv].
    { rewrite Hl. apply lookup_lt_Some in HjK. by rewrite List.length_map in HjK. }
    rewrite (value_at_lookup _ _ j d v HnK HjK Hv).
    rewrite (Hag Z fst j Hjm) in HjK. rewrite (HF m (Hag float snd) j Hjm) in Hv.
    by rewrite (value_at_lookup _ _ j d v HnK' HjK Hv).
  - assert (∀ idx2 vals2, NoDup idx2 → idx2 !! i = Some d →
      known_pairs (take k idx2) (take k vals2) = common → d ∉ map fst (known_pairs idx2 vals2)) as Hno.
    { intros idx2 vals2 Hn2 Hd2 Hc2 Hin. change (map ?f ?l) with (f <$> l) in Hin.
      apply list_elem_of_fmap in Hin as ([z v] & -> & Hz). simpl in *.
      pose proof (known_pairs_in _ _ _ _ Hz) as (j & Hj & Hv).
      pose proof (NoDup_lookup _ _ _ _ Hn2 Hj Hd2) as ->.
      apply Hout. rewrite <-Hc2. change (map ?f ?l) with (f <$> l). apply list_elem_of_fmap. exists (z, v). split; [done|].
      apply list_elem_of_filter in Hz as [Hnan _]. apply list_elem_of_filter. split; [done|].
      apply list_elem_of_lookup. exists i. rewrite lookup_zip_with, !lookup_take_lt, Hj by done. simpl. by rewrite Hv. }
    unfold value_at. simpl.
    assert (known_pairs (take k idx') (take k vals') = common) as Hcommon'.
    { rewrite Hcommon. by rewrite (proj1 (agree_take _ _ _) Hidx), (proj1 (agree_take _ _ _) Hvals). }
    rewrite !dict_get_zip_None; [done| |].
    + by apply (Hno idx' vals'); [|rewrite <-(Hidx i Hik)|].
    + by apply (Hno idx vals).
Qed.

(** What a series computed by an indicator shows at the labels of the frame. *)
Definition reads (f : frame) s : list float := map (value_at s) (f_index f).

Definition own_series (f : frame) s : Prop := s_index s = f_index f ∧ length (s_values s) = length (f_index f).

Lemma reads_own f s : NoDup (f_index f) → own_series f s → reads f s = s_values s.
Proof. destruct s as [idx vals]. intros Hn [E Hl]. simpl in *. subst. by apply values_at_own. Qed.

Section two_frames.
Context (k : nat) (f g : frame).
Context (Hf : frame_ok f) (Hg : frame_ok g) (Hfg : frames_agree k f g).

(** Columns of the two frames that agree. *)
Definition cols_agree (c d : list float) : Prop :=
  agree k c d ∧ length c = length (f_index f) ∧ length d = length (f_index g).

(** Series over the two frames that show the same before [k]. *)
Definition series_agree s s' : Prop := series_ok s ∧ series_ok s' ∧ agree k (reads f s) (reads g s').

Lemma get_columns name : both cols_agree (get_column f name) (get_column g name).
Proof.
  unfold get_column. intros c d Hc Hd.
  destruct (dict_get name (f_columns f)) eqn:E1; [|done]. destruct (dict_get name (f_columns g)) eqn:E2; [|done].
  simplify_eq. split_and!; [by eapply Hfg|by eapply Hf|by eapply Hg].
Qed.

Lemma windows op c d : windowed op → cols_agree c d → both cols_agree (op c) (op d).
Proof.
  intros [Hl Hc] (Ha & H1 & H2) y z Hy Hz.
  split_and!; [by eapply Hc|rewrite (Hl _ _ Hy); done|rewrite (Hl _ _ Hz); done].
Qed.

Lemma zip_with_cols (op : float → float → float) c d c' d' : cols_agree c d → cols_agree c' d' →
  cols_agree (zip_with op c c') (zip_with op d d').
Proof.
  intros (Ha & H1 & H2) (Ha' & H1' & H2'). unfold cols_agree. rewrite !length_zip_with.
  split_and!; [by apply agree_zip_with|lia|lia].
Qed.

Lemma map_cols (op : float → float) c d : cols_agree c d → cols_agree (map op c) (map op d).
Proof.
  intros (Ha & H1 & H2). unfold cols_agree. rewrite !List.length_map. split_and!; [by apply agree_map|done|done].
Qed.

Lemma own_series_agree c d : cols_agree c d →
  series_agree (mkSeries (f_index f) c) (mkSeries (f_index g) d).
Proof.
  intros (Ha & H1 & H2). pose proof (proj1 Hf) as Hnf. pose proof (proj1 Hg) as Hng.
  unfold series_agree, series_ok. rewrite (reads_own f), (reads_own g) by done. done.
Qed.

Create HintDb causal.
Hint Resolve rolling_mean_windowed rolling_std_windowed rolling_max_windowed rolling_min_windowed
  ewm_mean_windowed zip_with_cols map_cols own_series_agree : causal.

(** Runs two computations over the frames in step. *)
Ltac in_step :=
  repeat (eapply both_bind; [first [apply get_columns | eapply windows; [solve [auto with causal]|solve [auto with causal]]]
         |let c := fresh "c" in let d := fresh "d" in let Hcd := fresh "Hcd" in intros c d Hcd; cbv beta zeta]);
  try (apply both_ret; auto with causal).

Lemma sma_agree w : both series_agree (get_sma f w) (get_sma g w).
Proof. unfold get_sma. in_step. Qed.

Lemma ema_agree w : both series_agree (get_ema f w) (get_ema g w).
Proof. unfold get_ema. in_step. Qed.

Lemma bollinger_agree w : both series_agree (get_bollinger_band f w) (get_bollinger_band g w).
Proof. unfold get_bollinger_band. in_step. Qed.

Lemma stochastic_agree w : both series_agree (get_stochastic_oscillator f w) (get_stochastic_oscillator g w).
Proof. unfold get_stochastic_oscillator. in_step. Qed.

(** Window functions over the known readings alone. *)
Lemma known_windows op (h h' : float → float) c d y z : windowed op → agree k c d →
  let K := known_pairs (f_index f) c in
  let K' := known_pairs (f_index g) d in
  op (map h' (map h (map snd K))) = Ok y → op (map h' (map h (map snd K'))) = Ok z →
  length y = length K ∧ length z = length K' ∧
  ∀ m, agree m (map snd K) (map snd K') → agree m y z.
Proof.
  intros [Hl Hc] Ha K K' Hy Hz.
  split_and!; [rewrite (Hl _ _ Hy)|rewrite (Hl _ _ Hz)|]; try by rewrite !List.length_map.
  intros m Hm. eapply Hc; [|exact Hy|exact Hz]. by do 2 apply agree_map.
Qed.

Lemma rsi_agree w : both series_agree (get_rsi f w) (get_rsi g w).
Proof.
  unfold get_rsi. eapply both_bind; [apply get_columns|]. intros c d (Hc & Hc1 & Hc2). cbv beta zeta.
  cbn [dropna s_index s_values]. fold (known_pairs (f_index f) (diff c)). fold (known_pairs (f_index g) (diff d)).
  apply agree_diff in Hc. intros s s' Hs Hs'. unfold mbind in Hs, Hs'.
  set (K := known_pairs (f_index f) (diff c)) in *. set (K' := known_pairs (f_index g) (diff d)) in *.
  destruct (rolling_mean w (map _ (map snd K))) as [u|] eqn:Hu; [|done].
  destruct (rolling_mean w (map fabs _)) as [v|] eqn:Hv; [|done].
  destruct (rolling_mean w (map _ (map snd K'))) as [u'|] eqn:Hu'; [|done].
  destruct (rolling_mean w (map fabs (map _ (map snd K')))) as [v'|] eqn:Hv'; [|done].
  rewrite <-(map_id (map _ (map snd K))) in Hu. rewrite <-(map_id (map _ (map snd K'))) in Hu'.
  destruct (known_windows (rolling_mean w) _ _ _ _ u u' (rolling_mean_windowed w) Hc Hu Hu') as (Lu & Lu' & Au).
  destruct (known_windows (rolling_mean w) _ _ _ _ v v' (rolling_mean_windowed w) Hc Hv Hv') as (Lv & Lv' & Av).
  fold K in Lu, Lv, Au, Av. fold K' in Lu', Lv', Au, Av.
  injection Hs as <-. injection Hs' as <-. split_and!.
  - split; [apply known_pairs_labels, Hf|]. simpl. rewrite !List.length_map, length_zip_with. lia.
  - split; [apply known_pairs_labels, Hg|]. simpl. rewrite !List.length_map, length_zip_with. lia.
  - intros i Hi. unfold reads. change (map (value_at ?x) ?l) with (value_at x <$> l).
    rewrite !list_lookup_fmap, <-(proj1 Hfg i Hi). destruct (f_index f !! i) as [lab|] eqn:Hlab; [|done].
    simpl. f_equal. apply (known_labels_agree k _ _ _ _ _ _ lab i); try done; try apply Hf; try apply Hg; try apply Hfg.
    + rewrite List.length_map, length_zip_with, Lu, Lv. apply Nat.min_id.
    + rewrite List.length_map, length_zip_with, Lu', Lv'. apply Nat.min_id.
    + intros m Hm. apply agree_map, agree_zip_with; [by apply Au|by apply Av].
Qed.

(** Every indicator sees only the bars before. *)
Lemma indicator_agree name w : both cols_agree (indicator f name w) (indicator g name w).
Proof.
  unfold indicator. eapply (both_bind series_agree).
  - repeat match goal with
    | |- both _ (match ?x with _ => _ end) _ => destruct x
    end; first [apply both_raise | apply sma_agree | apply ema_agree | apply rsi_agree
               | apply bollinger_agree | apply stochastic_agree].
  - intros s s' ([Hn Hl] & [Hn' Hl'] & Ha). rewrite !reindex_unique by done. apply both_ret.
    fold (reads f s) (reads g s'). split_and!; [done|unfold reads; by rewrite List.length_map..].
Qed.
End two_frames.
End causality.

(** ** Concrete window functions

    Every function below computes each element from the elements up to it, which
    is all the laws ask of the library. *)

Definition prefixwise (F : list float → float) (xs : list float) : list float :=
  map (λ i, F (take (S i) xs)) (seq 0 (length xs)).

Lemma prefixwise_windowed F : windowed (λ xs, Ok (prefixwise F xs)).
Proof.
  split.
  - intros xs ys [= <-]. unfold prefixwise. by rewrite List.length_map, length_seq.
  - intros k xs xs' ys ys' Ha [= <-] [= <-] i Hi. unfold prefixwise.
    change (map ?f ?l) with (f <$> l). rewrite !list_lookup_fmap.
    destruct (decide (i < length xs)%nat) as [Hl|Hl]; destruct (decide (i < length xs')%nat) as [Hl'|Hl'].
    + rewrite !lookup_seq_lt by done. simpl. f_equal. f_equal.
      change (take (S i) xs = take (S i) xs'). apply agree_take. by apply (agree_le k).
    + specialize (Ha i Hi). rewrite (lookup_ge_None_2 xs') in Ha by lia. apply lookup_ge_None in Ha. lia.
    + specialize (Ha i Hi). rewrite (lookup_ge_None_2 xs) in Ha by lia. symmetry in Ha.
      apply lookup_ge_None in Ha. lia.
    + by rewrite !lookup_seq_ge by lia.
Qed.

(** [agg] of the last [w] elements, missing before there are that many. *)
Definition rolling (agg : list float → float) (w : Z) (xs : list float) : res exn (list float) :=
  if w <? 0 then Raise (ValueError "window must be an integer 0 or greater")
  else Ok (prefixwise (λ seen, if Z.of_nat (length seen) <? w then fnan
                               else agg (drop (length seen - Z.to_nat w) seen)) xs).

Lemma rolling_windowed agg w : windowed (rolling agg w).
Proof.
  unfold rolling. destruct (w <? 0); [split; done|]. apply prefixwise_windowed.
Qed.

Definition mean_of (xs : list float) : float := fdiv (fsum xs) (of_Z (Z.of_nat (length xs))).

(** Sample standard deviation. *)
Definition std_of (xs : list float) : float :=
  let m := mean_of xs in
  SFsqrt prec emax (fdiv (fsum (map (λ x, fmul (fsub x m) (fsub x m)) xs))
                      (of_Z (Z.of_nat (length xs) - 1))).

Definition max_of (xs : list float) : float :=
  foldl (λ m x, if is_nan x then m else if is_nan m || fltb m x then x else m) fnan xs.

Definition min_of (xs : list float) : float :=
  foldl (λ m x, if is_nan x then m else if is_nan m || fltb x m then x else m) fnan xs.

Definition ewm_of (span : Z) (xs : list float) : float :=
  let alpha := ftruediv 2 (span + 1) in
  match xs with
  | [] => fnan
  | x :: xs => foldl (λ y x, fadd (fmul (fsub fone alpha) y) (fmul alpha x)) x xs
  end.

Definition change_of (xs : list float) : float :=
  match last xs, last (removelast xs) with
  | Some x, Some p => fsub (fdiv x p) fone
  | _, _ => fnan
  end.

Definition ref_reindex (s : pseries) (idx : list Z) : res exn (list float) :=
  if decide (NoDup (s_index s)) then Ok (map (value_at s) idx)
  else Raise (ValueError "cannot reindex on an axis with duplicate labels").

Definition pandas_ref : Pandas :=
  {| rolling_mean := rolling mean_of; rolling_std := rolling std_of;
     rolling_max := rolling max_of; rolling_min := rolling min_of;
     ewm_mean := λ w xs, Ok (prefixwise (ewm_of w) xs);
     pct_change := prefixwise change_of; reindex := ref_reindex |}.

#[export] Instance pandas_ref_laws : @PandasLaws pandas_ref.
Proof.
  split; simpl; intros; try apply rolling_windowed; try apply prefixwise_windowed.
  unfold ref_reindex. by rewrite decide_True.
Qed.
