(* ===== verification/Performance.v ===== *)
(** * Performance of a strategy

    [quant/strategy/performance.py]: positions from frames, profit and loss per
    bar, and the metrics of a backtest; [compute_latest_position] of
    [quant/strategy/live_service.py].  The reductions of numpy and pandas and the
    power function are parameters. *)
From S2P Require Import Prelude PyFloat PyData Errors PyValue Signals StrategyConfig Frames.
Local Open Scope string_scope.
Local Open Scope Z_scope.

Class Reductions := {
  (** [.cumprod()], [.cummax()], [.prod()] and [.max()] of a series *)
  cumprod : list float → list float;
  cummax : list float → list float;
  prod : list float → float;
  series_max : list float → float;
  (** [.mean()] and [.std(ddof=1)] of an array *)
  np_mean : list float → float;
  np_std : list float → float;
  (** [x ** y] *)
  fpow : float → float → float
}.

(** ** Profit and loss *)

(** An elementwise operation on two arrays: equal lengths, or one element
    stretched over the other. *)
Definition np_map2 (f : float → float → float) (a b : list float) : res exn (list float) :=
  if (length a =? length b)%nat then Ok (zip_with f a b)
  else if (length a =? 1)%nat then Ok (map (f (nth 0 a fnan)) b)
  else if (length b =? 1)%nat then Ok (map (λ x, f x (nth 0 b fnan)) a)
  else Raise (ValueError "operands could not be broadcast together").

(** [strategy_pnl]: prior position, turnover and profit per bar. *)
Definition strategy_pnl (position chg : list float) (transaction_cost : float)
    : res exn (list float * list float * list float) :=
  match position with
  | [] => Raise (plain CIndexError "index 0 is out of bounds for axis 0 with size 0")
  | _ =>
      let prior := fnan :: removelast position in
      let turnover := zip_with (λ p q, if is_nan p then fnan
                                       else if is_nan q then fzero
                                       else fabs (fsub p q)) position prior in
      gross ← np_map2 fmul prior chg;
      let fee := map (λ t, fmul t transaction_cost) turnover in
      pnl ← np_map2 fsub gross fee;
      mret (prior, turnover, pnl)
  end.

(** [xs.clip(lower=v)] *)
Definition clip_lower (v : float) (xs : list float) : list float :=
  map (λ x, if fltb x v then v else x) xs.

Section metrics.
Context `{Reductions}.

(** [_compound] *)
Definition _compound (pnl : list float) : list float * list float :=
  let equity := cumprod (clip_lower fzero (map (fadd fone) pnl)) in
  let peak := clip_lower fone (cummax equity) in
  (map (λ e, fsub e fone) equity, map (fsub fone) (zip_with fdiv equity peak)).

Definition count_known (xs : list float) : Z := Z.of_nat (length (numbers_of xs)).

(** [_cagr] *)
Definition _cagr (pnl : list float) (trading_period : Z) : float :=
  let n := count_known pnl in
  if n =? 0 then fnan
  else
    let equity := prod (clip_lower fzero (map (fadd fone) pnl)) in
    fsub (fpow equity (ftruediv trading_period n)) fone.

(** [np.sqrt] of an integer *)
Definition fsqrt (x : float) : float := SFsqrt prec emax x.

(** [sharpe_ratio] *)
Definition sharpe_ratio (pnl : list float) (trading_period min_obs : Z) : float :=
  let finite := numbers_of pnl in
  if Z.of_nat (length finite) <? min_obs then fnan
  else
    let std := np_std finite in
    if feqb std fzero || is_nan std then fnan
    else fmul (fdiv (np_mean finite) std) (fsqrt (of_Z trading_period)).
End metrics.

(** [_latest_final_position], [str_stamp] the text of a label. *)
Definition latest_final_position (str_stamp : Z → string) (s : pseries) : res exn (float * string) :=
  match last (zip (s_index (dropna s)) (s_values (dropna s))) with
  | None => Raise (ValueError "insufficient data to compute signal")
  | Some (stamp, v) => Ok (v, str_stamp stamp)
  end.

(** ** The engine *)

Record Performance := mkPerformance {
  pf_config : StrategyConfig;
  pf_transaction_cost : float;
  pf_min_metric_obs : Z;
  pf_subs : list SubStrategy;
  pf_all_data : all_frames;
  pf_main : frame;
  pf_windows : list Z;
  pf_signals : list float;
  pf_metric_window : Z
}.

Definition is_multi (p : Performance) : bool := (1 <? length (pf_subs p))%nat.

Definition DEFAULT_FEE_BPS : float := of_Z 10.

(** [fee_bps / 10_000] *)
Definition transaction_cost_of (fee_bps : option float) : float :=
  fdiv (default DEFAULT_FEE_BPS fee_bps) (of_Z 10000).

(** [max(windows)] *)
Definition py_max (ws : list Z) : res exn Z :=
  match ws with
  | [] => Raise (ValueError "max() iterable argument is empty")
  | w :: ws => Ok (foldl Z.max w ws)
  end.

(** [Performance.__init__], with both of window and signal or neither.  A tuple
    for a single-factor strategy is refused here; Python fails on it at the
    first window it opens. *)
Definition new_performance (data : all_frames) (config : StrategyConfig) (p : option params)
    (fee_bps : option float) (min_metric_obs : Z) : res exn Performance :=
  let subs := get_substrategies config in
  main ← main_frame data config;
  ws ← match p with
       | Some (Scalar w s) => Ok (repeat w (length subs), repeat s (length subs))
       | Some (PerFactor ws ss) =>
           if (1 <? length subs)%nat then Ok (ws, ss)
           else Raise (TypeError "window must be an integer 0 or greater")
       | None => Ok (map ss_window subs, map ss_signal subs)
       end;
  metric_window ← py_max ws.1;
  mret (mkPerformance config (transaction_cost_of fee_bps) min_metric_obs subs data main ws.1 ws.2
          metric_window).

(** [xs[i]] of a tuple *)
Definition tuple_item {A} (i : nat) (xs : list A) : res exn A :=
  match xs !! i with Some x => Ok x | None => Raise (plain CIndexError "tuple index out of range") end.

Section engine.
Context `{Pandas} `{Numpy}.

(** [_indicator_and_position] *)
Definition indicator_and_position (index : list Z) (sub : SubStrategy) (factor_vals : list float)
    (window : Z) (signal : float) : res exn (list float * list float) :=
  data ← technical_analysis (mkFrame index [("factor", factor_vals)]);
  indicator_vals ← indicator data (ss_indicator_name sub) window;
  f ← resolve_sub_signal sub;
  mret (indicator_vals, call_signal f indicator_vals signal).

(** [_compute_single_factor_outputs]: the frame with its columns, and the final
    position. *)
Definition compute_single_factor_outputs (p : Performance) : res exn (frame * list float) :=
  data ← single_factor_frame (pf_all_data p) (pf_config p) (pf_main p);
  ta ← technical_analysis data;
  factor1 ← get_column data "factor";
  let data := set_column data "factor1" factor1 in
  window ← tuple_item 0 (pf_windows p);
  indicator1 ← indicator data (sc_indicator_name (pf_config p)) window;
  let data := set_column data "indicator1" indicator1 in
  signal ← tuple_item 0 (pf_signals p);
  let position1 := call_signal (sc_signal_func (pf_config p)) indicator1 signal in
  mret (set_column data "position1" position1, position1).

(** One factor's series: values, indicator and position. *)
Definition factor_outputs (p : Performance) (i : nat) (sub : SubStrategy)
    : res exn (list float * list float * list float) :=
  factor_vals ← factor (pf_all_data p) (pf_config p) (pf_main p) sub;
  window ← tuple_item i (pf_windows p);
  signal ← tuple_item i (pf_signals p);
  ip ← indicator_and_position (f_index (pf_main p)) sub factor_vals window signal;
  mret (factor_vals, ip.1, ip.2).

(** [_compute_multi_factor_outputs] *)
Definition compute_multi_factor_outputs (p : Performance)
    : res exn (frame * list (list float * list float * list float) * list float) :=
  data ← technical_analysis (pf_main p);
  outputs ← mapM (λ s, factor_outputs p s.1 s.2) (imap pair (pf_subs p));
  combined ← combine_positions (map snd outputs) (sc_conjunction (pf_config p))
               (Some (map (λ o, o.1.2) outputs));
  mret (data, outputs, combined).

(** The frame [enrich] starts from, with the factor columns, and [FinalPosition]. *)
Definition final_position (p : Performance) : res exn (frame * list float) :=
  if is_multi p then
    o ← compute_multi_factor_outputs p;
    let '(data, outputs, combined) := o in
    mret (foldl (λ d q, let i := str_Z (Z.of_nat (S q.1)) in
                        let '(factor_vals, indicator_vals, pos) := q.2 in
                        set_column (set_column (set_column d ("factor" +:+ i) factor_vals)
                                      ("indicator" +:+ i) indicator_vals) ("position" +:+ i) pos)
            data (imap pair outputs), combined)
  else compute_single_factor_outputs p.

(** [compute_latest_position] *)
Definition compute_latest_position (str_stamp : Z → string) (p : Performance) : res exn (float * string) :=
  final ← (if is_multi p then o ← compute_multi_factor_outputs p; mret o.2
           else o ← compute_single_factor_outputs p; mret o.2);
  latest_final_position str_stamp (mkSeries (f_index (pf_main p)) final).

(** The columns [enrich_performance] adds. *)
Record enriched := mkEnriched {
  en_chg : list float;
  en_final_position : list float;
  en_prior : list float;
  en_trade : list float;
  en_pnl : list float;
  en_cumu : list float;
  en_dd : list float;
  en_buy_hold : list float;
  en_buy_hold_cumu : list float;
  en_buy_hold_dd : list float
}.

Context `{Reductions}.

(** [enrich_performance] *)
Definition enrich_performance (p : Performance) : res exn enriched :=
  fp ← final_position p;
  let '(data, final) := fp in
  price ← get_column data "price";
  let chg := pct_change price in
  ptp ← strategy_pnl final chg (pf_transaction_cost p);
  let '(prior, turnover, pnl) := ptp in
  let '(cumu, dd) := _compound pnl in
  let buy_hold := zip_with (λ c q, if is_nan q then fnan else c) chg prior in
  let '(bh_cumu, bh_dd) := _compound buy_hold in
  mret (mkEnriched chg final prior turnover pnl cumu dd buy_hold bh_cumu bh_dd).

(** [xs.iloc[k:]] *)
Definition iloc_from (k : Z) (xs : list float) : list float :=
  if k <? 0 then drop (Z.to_nat (Z.max 0 (Z.of_nat (length xs) + k))) xs else drop (Z.to_nat k) xs.

(** [xs.iloc[-1]] *)
Definition iloc_last (xs : list float) : res exn float :=
  match last xs with
  | Some x => Ok x
  | None => Raise (plain CIndexError "single positional indexer is out-of-bounds")
  end.

Definition get_sharpe_ratio (p : Performance) (e : enriched) : float :=
  sharpe_ratio (iloc_from (pf_metric_window p) (en_pnl e)) (sc_trading_period (pf_config p))
    (pf_min_metric_obs p).

(** [get_metric_n_obs] *)
Definition get_metric_n_obs (p : Performance) (e : enriched) : Z :=
  count_known (iloc_from (pf_metric_window p) (en_pnl e)).

Definition annualized_return_of (p : Performance) (e : enriched) (col : list float) : float :=
  if get_metric_n_obs p e <? pf_min_metric_obs p then fnan
  else _cagr (iloc_from (pf_metric_window p) col) (sc_trading_period (pf_config p)).

Definition calmar_of (max_dd annualized : float) : float :=
  if feqb max_dd fzero || is_nan max_dd then fnan else fdiv annualized max_dd.

(** The five metrics of [get_strategy_performance], in its order. *)
Definition get_strategy_performance (p : Performance) (e : enriched) : res exn (list float) :=
  total ← iloc_last (en_cumu e);
  let annualized := annualized_return_of p e (en_pnl e) in
  let max_dd := series_max (en_dd e) in
  mret [total; annualized; get_sharpe_ratio p e; max_dd; calmar_of max_dd annualized].

(** [get_buy_hold_performance] *)
Definition get_buy_hold_performance (p : Performance) (e : enriched) : res exn (list float) :=
  total ← iloc_last (en_buy_hold_cumu e);
  let annualized := annualized_return_of p e (en_buy_hold e) in
  let max_dd := series_max (en_buy_hold_dd e) in
  let sharpe := sharpe_ratio (iloc_from (pf_metric_window p) (en_buy_hold e))
                  (sc_trading_period (pf_config p)) (pf_min_metric_obs p) in
  mret [total; annualized; sharpe; max_dd; calmar_of max_dd annualized].
End engine.

(** ** No look-ahead *)

(** Running totals look back. *)
Class ReductionLaws `{Reductions} := {
  cumprod_windowed : windowed (λ xs, Ok (cumprod xs));
  cummax_windowed : windowed (λ xs, Ok (cummax xs))
}.

Lemma both_mapM {A B C} (R : B → C → Prop) (F : A → res exn B) (F' : A → res exn C) l :
  (∀ x, both R (F x) (F' x)) → both (Forall2 R) (mapM F l) (mapM F' l).
Proof.
  intros HF. induction l as [|x l IH]; [by apply both_ret|]. cbn [mapM].
  eapply both_bind; [apply HF|]. intros b c Hbc. eapply both_bind; [apply IH|]. intros bs cs Hs.
  apply both_ret. by constructor.
Qed.

Lemma imap_pair_Forall2 {A B} (R : A → B → Prop) l l' (h : nat → nat) : Forall2 R l l' →
  Forall2 (λ x y, x.1 = y.1 ∧ R x.2 y.2) (imap (λ i x, (h i, x)) l) (imap (λ i x, (h i, x)) l').
Proof.
  intros Hl. revert h. induction Hl as [|x y l l' Hx Hl IH]; intros h; [constructor|].
  constructor; [done|]. apply (IH (λ i, h (S i))).
Qed.

(** A signal direction acts on one reading at a time. *)
Lemma call_signal_map f x : ∃ h, ∀ xs, call_signal f xs x = map h xs.
Proof.
  destruct f; unfold call_signal, _long_only, momentum_band, reversion_band, momentum_bounded,
    reversion_bounded, unless_nan; eexists; intros xs; rewrite ?map_map; reflexivity.
Qed.

(** The other products' columns read the same at the labels of [idx]. *)
Definition frames_seen (idx : list Z) (f g : frame) : Prop :=
  ∀ name c d, dict_get name (f_columns f) = Some c → dict_get name (f_columns g) = Some d →
    ∀ x, x ∈ idx → value_at (mkSeries (f_index f) c) x = value_at (mkSeries (f_index g) d) x.

(** Two histories that are the same up to the [k]-th bar of the traded product:
    its first [k] rows, and what the other products show at those bars.  Later
    rows, and rows of other products between those bars, may be anything. *)
Record same_past (k : nat) (config : StrategyConfig) (data data' : all_frames) (main main' : frame) : Prop := {
  sp_main : main_frame data config = Ok main;
  sp_main' : main_frame data' config = Ok main';
  sp_ok : frame_ok main;
  sp_ok' : frame_ok main';
  sp_agree : frames_agree k main main';
  sp_columns name : has_column main name = has_column main' name;
  sp_other cusip f g : cusip ≠ sc_internal_cusip config →
    dict_get cusip data = Some f → dict_get cusip data' = Some g →
    frame_ok f ∧ frame_ok g ∧ frames_seen (take k (f_index main)) f g
}.

Section no_look_ahead.
Context `{PandasLaws} `{NumpyLaws} `{ReductionLaws}.
Context (k : nat) (config : StrategyConfig) (data data' : all_frames) (main main' : frame).
Context (Hpast : same_past k config data data' main main').

Lemma reindex_agree f g c d : frame_ok f → frame_ok g →
  length c = length (f_index f) → length d = length (f_index g) →
  (∀ x, x ∈ take k (f_index main) → value_at (mkSeries (f_index f) c) x = value_at (mkSeries (f_index g) d) x) →
  both (cols_agree k main main') (reindex (mkSeries (f_index f) c) (f_index main))
    (reindex (mkSeries (f_index g) d) (f_index main')).
Proof.
  intros [Hn _] [Hn' _] Hc Hd Hx. rewrite !reindex_unique by done. apply both_ret.
  split_and!; [|by rewrite List.length_map..]. intros i Hi.
  change (map (value_at ?s) ?l) with (value_at s <$> l).
  rewrite !list_lookup_fmap, <-(proj1 (sp_agree _ _ _ _ _ _ Hpast) i Hi).
  destruct (f_index main !! i) as [lab|] eqn:Hl; [|done]. simpl. f_equal. apply Hx.
  apply list_elem_of_lookup. exists i. by rewrite lookup_take_lt.
Qed.

Lemma factor_agree sub : both (cols_agree k main main')
  (factor data config main sub) (factor data' config main' sub).
Proof.
  pose proof (sp_main _ _ _ _ _ _ Hpast) as Hm. pose proof (sp_main' _ _ _ _ _ _ Hpast) as Hm'.
  pose proof (sp_ok _ _ _ _ _ _ Hpast) as Hok. pose proof (sp_ok' _ _ _ _ _ _ Hpast) as Hok'.
  unfold factor, main_frame, get_frame in *. destruct (String.eqb_spec (sub_cusip config sub) (sc_internal_cusip config)) as [->|Hne].
  - rewrite Hm, Hm'. res_simpl.
    eapply both_bind; [apply (get_columns k main main' Hok Hok' (sp_agree _ _ _ _ _ _ Hpast))|].
    intros c d (Hcd & Hc & Hd). rewrite !reindex_unique by (done || apply Hok || apply Hok'). apply both_ret.
    rewrite !values_at_own by (done || apply Hok || apply Hok'). done.
  - destruct (dict_get (sub_cusip config sub) data) as [f|] eqn:Hf; [|apply both_raise].
    destruct (dict_get (sub_cusip config sub) data') as [g|] eqn:Hg; [|by intros a b _].
    res_simpl. destruct (require_coverage main f _ _); [|apply both_raise].
    destruct (require_coverage main' g _ _); [|by intros ? ? _]. res_simpl.
    destruct (sp_other _ _ _ _ _ _ Hpast _ f g Hne Hf Hg) as (Hfo & Hgo & Hseen).
    unfold get_column. destruct (dict_get (ss_data_column sub) (f_columns f)) as [c|] eqn:Hc; [|apply both_raise].
    destruct (dict_get (ss_data_column sub) (f_columns g)) as [d|] eqn:Hd; [|by intros ? ? _].
    res_simpl. apply reindex_agree; try done; [by eapply Hfo|by eapply Hgo|by eapply Hseen].
Qed.

Abbreviation cols := (cols_agree k main main').

(** Frames built on the two histories. *)
Definition in_step (h h' : frame) : Prop :=
  frame_ok h ∧ frame_ok h' ∧ frames_agree k h h' ∧ f_index h = f_index main ∧ f_index h' = f_index main'.

Lemma main_in_step : in_step main main'.
Proof. destruct Hpast. by split_and!. Qed.

Lemma set_column_in_step h h' name c d : in_step h h' → cols c d →
  in_step (set_column h name c) (set_column h' name d).
Proof.
  intros ((Hn & Hl) & (Hn' & Hl') & (Hi & Ha) & Hx & Hx') (Hc & Hcl & Hdl).
  split_and!; try done; (split; [done|]).
  - intros m e. simpl. destruct (decide (m = name)) as [->|].
    + rewrite dict_get_set. intros [= <-]. by rewrite Hcl, Hx.
    + rewrite dict_get_set_ne by done. apply Hl.
  - intros m e. simpl. destruct (decide (m = name)) as [->|].
    + rewrite dict_get_set. intros [= <-]. by rewrite Hdl, Hx'.
    + rewrite dict_get_set_ne by done. apply Hl'.
  - intros m e e'. simpl. destruct (decide (m = name)) as [->|].
    + rewrite !dict_get_set. by intros [= <-] [= <-].
    + rewrite !dict_get_set_ne by done. apply Ha.
Qed.

Lemma in_step_cols h h' c d : in_step h h' → cols_agree k h h' c d → cols c d.
Proof. intros (_ & _ & _ & Hx & Hx') (Hc & Hl & Hl'). by rewrite Hx, Hx' in *. Qed.

Lemma in_step_column h h' name : in_step h h' → both cols (get_column h name) (get_column h' name).
Proof.
  intros Hs. eapply both_impl; [intros c d; by apply (in_step_cols h h')|].
  destruct Hs as (Hh & Hh' & Ha & _). by apply get_columns.
Qed.

Lemma in_step_indicator h h' name w : in_step h h' → both cols (indicator h name w) (indicator h' name w).
Proof.
  intros Hs. eapply both_impl; [intros c d; by apply (in_step_cols h h')|].
  destruct Hs as (Hh & Hh' & Ha & _). by apply indicator_agree.
Qed.

Lemma call_signal_cols f c d x : cols c d → cols (call_signal f c x) (call_signal f d x).
Proof. intros Hc. destruct (call_signal_map f x) as [h Hh]. rewrite !Hh. by apply map_cols. Qed.

Lemma single_factor_frame_in_step :
  both in_step (single_factor_frame data config main) (single_factor_frame data' config main').
Proof.
  unfold single_factor_frame. destruct (get_substrategies config) as [|sub subs]; [apply both_raise|].
  eapply (both_bind eq).
  - destruct (String.eqb_spec (sub_cusip config sub) (sc_internal_cusip config)) as [->|]; [|by apply both_ret].
    pose proof (sp_main _ _ _ _ _ _ Hpast) as Hm. pose proof (sp_main' _ _ _ _ _ _ Hpast) as Hm'.
    unfold main_frame in *. rewrite Hm, Hm'. res_simpl. apply both_ret. apply (sp_columns _ _ _ _ _ _ Hpast).
  - intros own ? <-. destruct own; [|apply both_ret, main_in_step].
    eapply both_bind; [apply factor_agree|]. intros c d Hc. apply both_ret.
    apply set_column_in_step; [apply main_in_step|done].
Qed.

(** Combining is causal: a bar's position depends on the factors' positions at
    that bar and on their readings up to it. *)
Lemma row_at_agree ps ps' i : (i < k)%nat → Forall2 cols ps ps' → row_at ps i = row_at ps' i.
Proof.
  intros Hi Hps. induction Hps as [|c d ps ps' (Ha & _) Hps IH]; [done|]. unfold row_at in *. simpl.
  rewrite IH. f_equal. by rewrite !nth_lookup, (Ha i Hi).
Qed.

Lemma convictions_at_agree ss ss' i : (i < k)%nat → Forall2 cols ss ss' →
  convictions_at ss i = convictions_at ss' i.
Proof.
  intros Hi Hps. induction Hps as [|c d ps ps' (Ha & _) Hps IH]; [done|]. unfold convictions_at in *. simpl.
  rewrite IH. f_equal. unfold conviction_at. rewrite !nth_lookup, (Ha i Hi).
  by rewrite (proj1 (agree_take _ _ _) (agree_le k i _ _ ltac:(lia) Ha)).
Qed.

Lemma seq_agree : agree k (seq 0 (length (f_index main))) (seq 0 (length (f_index main'))).
Proof.
  intros i Hi. pose proof (proj1 (sp_agree _ _ _ _ _ _ Hpast) i Hi) as He.
  destruct (decide (i < length (f_index main))%nat) as [Hl|Hl].
  - assert (i < length (f_index main'))%nat as Hl'.
    { apply lookup_lt_is_Some. rewrite <-He. by apply lookup_lt_is_Some. }
    by rewrite !lookup_seq_lt.
  - assert (f_index main !! i = None) as Hno by (apply lookup_ge_None; lia).
    rewrite Hno in He. symmetry in He. apply lookup_ge_None in He.
    rewrite !lookup_seq_ge; [done|done|lia].
Qed.

Lemma cols_lengths ps ps' : Forall2 cols ps ps' →
  Forall (λ c, length c = length (f_index main)) ps ∧ Forall (λ c, length c = length (f_index main')) ps'.
Proof. induction 1 as [|c d ps ps' (_ & ? & ?) _ [? ?]]; split; by constructor. Qed.

Lemma combine_agree ps ps' ss ss' conj : (2 <= length ps)%nat → length ss = length ps →
  Forall2 cols ps ps' → Forall2 cols ss ss' →
  both cols (combine_positions ps conj (Some ss)) (combine_positions ps' conj (Some ss')).
Proof.
  intros Hl Hls Hps Hss.
  destruct (existsb (String.eqb (upper conj)) ["AND"; "OR"; "FILTER"]) eqn:Hconj.
  2: { intros a b Ha. exfalso. destruct ps as [|p [|q ps]]; simpl in Hl; try lia.
       unfold combine_positions in Ha. cbv zeta in Ha. by rewrite Hconj in Ha. }
  destruct (cols_lengths _ _ Hps) as [Hn Hn']. destruct (cols_lengths _ _ Hss) as [Hm Hm'].
  pose proof (Forall2_length _ _ _ Hps) as El. pose proof (Forall2_length _ _ _ Hss) as Els.
  rewrite (combine_positions_rows (length (f_index main))), (combine_positions_rows (length (f_index main')));
    try done; try (split_and!; try done; lia).
  apply both_ret. split_and!; [|by rewrite List.length_map, length_seq..].
  intros i Hi. change (map ?f ?l) with (f <$> l). rewrite !list_lookup_fmap, <-(seq_agree i Hi).
  destruct (seq 0 (length (f_index main)) !! i) as [j|] eqn:Hj; [|done]. apply lookup_seq in Hj as [-> _].
  simpl. by rewrite (row_at_agree ps ps'), (convictions_at_agree ss ss').
Qed.

(** Two engines over the two histories, with the same parameters. *)
Context (cost : float) (obs : Z) (subs : list SubStrategy) (ws : list Z) (xs : list float) (mw : Z).
Abbreviation p := (mkPerformance config cost obs subs data main ws xs mw).
Abbreviation p' := (mkPerformance config cost obs subs data' main' ws xs mw).

Definition outputs_agree (o o' : list float * list float * list float) : Prop :=
  cols o.1.1 o'.1.1 ∧ cols o.1.2 o'.1.2 ∧ cols o.2 o'.2.

Lemma both_refl {A} (m : res exn A) : both eq m m.
Proof. intros a b -> [= ->]. done. Qed.

Lemma factor_frame_in_step c d : cols c d →
  in_step (mkFrame (f_index main) [("factor", c)]) (mkFrame (f_index main') [("factor", d)]).
Proof.
  intros Hcd. apply (set_column_in_step (mkFrame (f_index main) []) (mkFrame (f_index main') []) "factor"); [|done].
  split_and!; try done; split; try done; [apply (sp_ok _ _ _ _ _ _ Hpast)|apply (sp_ok' _ _ _ _ _ _ Hpast)|].
  apply (sp_agree _ _ _ _ _ _ Hpast).
Qed.

Lemma factor_outputs_agree i sub : both outputs_agree (factor_outputs p i sub) (factor_outputs p' i sub).
Proof.
  unfold factor_outputs. cbn [pf_all_data pf_config pf_main pf_windows pf_signals].
  eapply both_bind; [apply factor_agree|]. intros c d Hcd. cbv beta.
  eapply both_bind; [apply both_refl|]. intros w ? <-.
  eapply both_bind; [apply both_refl|]. intros x ? <-.
  eapply (both_bind (λ ip ip', cols ip.1 ip'.1 ∧ cols ip.2 ip'.2)).
  - unfold indicator_and_position, technical_analysis.
    change (has_column (mkFrame ?i [("factor", ?c)]) "factor") with true. cbv iota. res_simpl.
    eapply both_bind; [by apply in_step_indicator, factor_frame_in_step|]. intros v v' Hv. cbv beta.
    eapply both_bind; [apply both_refl|]. intros f ? <-. apply both_ret. split; [done|].
    by apply call_signal_cols.
  - intros ip ip' [Hi Hs]. by apply both_ret.
Qed.

Lemma Forall2_outputs {B} (f : list float * list float * list float → B) (R : B → B → Prop) os os' :
  (∀ o o', outputs_agree o o' → R (f o) (f o')) → Forall2 outputs_agree os os' →
  Forall2 R (map f os) (map f os').
Proof. intros Hf. induction 1; constructor; auto. Qed.

Lemma mapM_length {A B} (F : A → res exn B) l ys : mapM F l = Ok ys → length ys = length l.
Proof.
  revert ys. induction l as [|x l IH]; intros ys; cbn [mapM]; [by intros [= <-]|].
  intros (y & Hy & (zs & Hzs & [= <-])%bind_Ok)%bind_Ok. simpl. by rewrite (IH zs).
Qed.

(** The columns set for each factor keep the frames in step. *)
Lemma set_outputs_in_step h h' os os' : in_step h h' →
  Forall2 (λ x y, x.1 = y.1 ∧ outputs_agree x.2 y.2) os os' →
  let set d (q : nat * (list float * list float * list float)) :=
    let i := str_Z (Z.of_nat (S q.1)) in
    let '(factor_vals, indicator_vals, pos) := q.2 in
    set_column (set_column (set_column d ("factor" +:+ i) factor_vals) ("indicator" +:+ i) indicator_vals)
      ("position" +:+ i) pos in
  in_step (foldl set h os) (foldl set h' os').
Proof.
  intros Hh Hos. cbv zeta. revert h h' Hh.
  induction Hos as [|[i [[a b] c]] [? [[a' b'] c']] os os' [Hi (Ha & Hb & Hc)] Hos IH]; intros h h' Hh; [done|].
  simpl in *. subst. apply IH. by repeat apply set_column_in_step.
Qed.

Lemma final_position_agree :
  both (λ o o', in_step o.1 o'.1 ∧ cols o.2 o'.2) (final_position p) (final_position p').
Proof.
  unfold final_position, is_multi. cbn [pf_subs]. destruct (Nat.ltb_spec 1 (length subs)) as [Hm|_].
  - eapply (both_bind (λ o o', in_step o.1.1 o'.1.1 ∧ Forall2 outputs_agree o.1.2 o'.1.2 ∧ cols o.2 o'.2)).
    + unfold compute_multi_factor_outputs. cbn [pf_main pf_subs pf_config].
      eapply (both_bind in_step).
      { unfold technical_analysis. rewrite (sp_columns _ _ _ _ _ _ Hpast). destruct (has_column main' _); [|apply both_raise].
        apply both_ret, main_in_step. }
      intros h h' Hh. cbv beta. intros o o' Ho Ho'.
      apply bind_Ok in Ho as (os & Hos & Ho). apply bind_Ok in Ho' as (os' & Hos' & Ho').
      pose proof (both_mapM outputs_agree _ _ _ (λ s, factor_outputs_agree s.1 s.2) os os' Hos Hos') as Hag.
      apply bind_Ok in Ho as (c & Hc & [= <-]). apply bind_Ok in Ho' as (c' & Hc' & [= <-]). simpl.
      split_and!; [done|done|].
      apply mapM_length in Hos. rewrite length_imap in Hos.
      eapply combine_agree; [| | | |exact Hc|exact Hc'].
      * rewrite List.length_map. lia.
      * by rewrite !List.length_map.
      * eapply Forall2_outputs; [|exact Hag]. by intros o o' (_ & _ & ?).
      * eapply Forall2_outputs; [|exact Hag]. by intros o o' (_ & ? & _).
    + intros [[h os] c] [[h' os'] c'] (Hh & Hos & Hc). apply both_ret. split; [|done].
      apply set_outputs_in_step; [done|]. by apply (imap_pair_Forall2 outputs_agree _ _ id).
  - unfold compute_single_factor_outputs. cbn [pf_all_data pf_config pf_main pf_windows pf_signals].
    eapply both_bind; [apply single_factor_frame_in_step|]. intros h h' Hh. cbv beta.
    eapply (both_bind (λ _ _, True)); [done|]. intros _ _ _.
    eapply both_bind; [by apply in_step_column|]. intros c d Hc. cbv beta zeta.
    eapply both_bind; [apply both_refl|]. intros w ? <-.
    eapply both_bind; [apply in_step_indicator; by apply set_column_in_step|]. intros v v' Hv. cbv beta zeta.
    eapply both_bind; [apply both_refl|]. intros x ? <-. apply both_ret.
    pose proof (call_signal_cols (sc_signal_func config) v v' x Hv).
    split; [|done]. by repeat apply set_column_in_step.
Qed.

Lemma shift_agree c d : cols c d → (0 < length c)%nat → (0 < length d)%nat →
  cols (fnan :: removelast c) (fnan :: removelast d).
Proof.
  intros (Ha & Hc & Hd) H0c H0d.
  assert (∀ l : list float, (0 < length l)%nat → length (fnan :: removelast l) = length l ∧
    ∀ i, (S i < length l)%nat → removelast l !! i = l !! i) as Hrl.
  { intros l Hl. destruct (exists_last (l:=l)) as (l' & x & ->); [by destruct l; simpl in Hl; [lia|]|].
    rewrite removelast_last, length_app. simpl. split; [lia|]. intros i Hi. by rewrite lookup_app_l by lia. }
  destruct (Hrl c H0c) as [Lc Ic]. destruct (Hrl d H0d) as [Ld Id].
  split_and!; [|lia|lia]. intros [|i] Hi; [done|]. simpl in *.
  destruct (decide (S i < length c)%nat) as [Hic|Hic]; destruct (decide (S i < length d)%nat) as [Hid|Hid].
  - rewrite Ic, Id by done. apply Ha. lia.
  - specialize (Ha (S i) Hi). rewrite (lookup_ge_None_2 d) in Ha by lia. apply lookup_ge_None in Ha. lia.
  - specialize (Ha (S i) Hi). rewrite (lookup_ge_None_2 c) in Ha by lia. symmetry in Ha. apply lookup_ge_None in Ha. lia.
  - rewrite !lookup_ge_None_2; [done|lia|lia].
Qed.

Lemma map2_agree op c c' d d' : cols c d → cols c' d' → both cols (np_map2 op c c') (np_map2 op d d').
Proof.
  intros Hc Hc'. unfold np_map2. destruct Hc as (Ha & Hl & Hr) eqn:E. destruct Hc' as (Ha' & Hl' & Hr').
  rewrite Hl, Hl', Hr, Hr', !Nat.eqb_refl. apply both_ret. by apply zip_with_cols.
Qed.

Lemma pnl_agree c c' d d' : cols c d → cols c' d' →
  both (λ o o', cols o.1.1 o'.1.1 ∧ cols o.1.2 o'.1.2 ∧ cols o.2 o'.2)
    (strategy_pnl c c' cost) (strategy_pnl d d' cost).
Proof.
  intros Hc Hc'. unfold strategy_pnl. destruct c as [|x c]; [apply both_raise|].
  destruct d as [|y d]; [by intros ? ? _|].
  assert (cols (fnan :: removelast (x :: c)) (fnan :: removelast (y :: d))) as Hprior
    by (apply shift_agree; simpl; [done|lia|lia]).
  set (P := fnan :: removelast (x :: c)) in *. set (P' := fnan :: removelast (y :: d)) in *. cbv zeta.
  assert (∀ f : float → float → float, cols (zip_with f (x :: c) P) (zip_with f (y :: d) P')) as Ht
    by (intros f; by apply zip_with_cols).
  eapply both_bind; [by apply map2_agree|]. intros g g' Hg. cbv beta zeta.
  eapply both_bind; [apply map2_agree; [done|by apply map_cols]|].
  intros r r' Hr. apply both_ret. split_and!; [done|apply Ht|done].
Qed.

Lemma total_agree op c d : windowed (λ xs, Ok (op xs)) → cols c d → cols (op c) (op d).
Proof. intros Hw Hc. exact (windows k main main' (λ xs, Ok (op xs)) c d Hw Hc _ _ eq_refl eq_refl). Qed.

Lemma compound_agree c d : cols c d →
  cols (_compound c).1 (_compound d).1 ∧ cols (_compound c).2 (_compound d).2.
Proof.
  intros Hc. unfold _compound. cbn [fst snd].
  assert (cols (cumprod (clip_lower fzero (map (fadd fone) c)))
               (cumprod (clip_lower fzero (map (fadd fone) d)))) as He.
  { apply total_agree; [apply cumprod_windowed|]. by do 2 apply map_cols. }
  split; [by apply map_cols|]. apply map_cols, zip_with_cols; [done|].
  apply map_cols, total_agree; [apply cummax_windowed|done].
Qed.

Lemma enrich_agree : both (λ e e', cols (en_final_position e) (en_final_position e') ∧
    cols (en_pnl e) (en_pnl e') ∧ cols (en_cumu e) (en_cumu e') ∧ cols (en_dd e) (en_dd e'))
  (enrich_performance p) (enrich_performance p').
Proof.
  unfold enrich_performance. eapply both_bind; [apply final_position_agree|].
  intros [h c] [h' d] [Hh Hcd]. simpl in *. eapply both_bind; [by apply in_step_column|].
  intros price price' Hprice. cbv beta zeta.
  eapply both_bind; [apply pnl_agree; [done|]|].
  { apply total_agree; [apply pct_change_windowed|done]. }
  intros [[q t] r] [[q' t'] r'] (_ & _ & Hr). simpl in *.
  destruct (compound_agree _ _ Hr) as [Hcu Hdd]. unfold _compound in *. cbn [fst snd] in *.
  apply both_ret. by split_and!.
Qed.
End no_look_ahead.

(** C4. No look-ahead: over two histories with the same first [k] bars of the
    traded product, and the same readings of the other products at those bars,
    one strategy takes the same positions and earns the same profit, equity and
    drawdown on each of those bars, whatever follows them. *)
Theorem no_look_ahead `{PandasLaws} `{NumpyLaws} `{ReductionLaws} k config data data' main main'
    params fee_bps min_obs p p' e e' :
  same_past k config data data' main main' →
  new_performance data config params fee_bps min_obs = Ok p →
  new_performance data' config params fee_bps min_obs = Ok p' →
  enrich_performance p = Ok e → enrich_performance p' = Ok e' →
  agree k (en_final_position e) (en_final_position e') ∧ agree k (en_pnl e) (en_pnl e') ∧
  agree k (en_cumu e) (en_cumu e') ∧ agree k (en_dd e) (en_dd e').
Proof.
  intros Hpast Hp Hp' He He'. unfold new_performance in Hp, Hp'.
  rewrite (sp_main _ _ _ _ _ _ Hpast), Ok_bind in Hp. rewrite (sp_main' _ _ _ _ _ _ Hpast), Ok_bind in Hp'.
  apply bind_Ok in Hp as (wx & Hwx & (mw & Hmw & [= <-])%bind_Ok).
  rewrite Hwx in Hp'. rewrite Ok_bind, Hmw, Ok_bind in Hp'. injection Hp' as <-.
  destruct (enrich_agree _ _ _ _ _ _ Hpast _ _ _ _ _ _ e e' He He') as ((? & _) & (? & _) & (? & _) & (? & _)).
  done.
Qed.

(** ** A run *)

Definition running_max (xs : list float) : float := max_of xs.

Definition running_prod (xs : list float) : float :=
  match last xs with
  | Some x => if is_nan x then fnan else foldl fmul fone (numbers_of xs)
  | None => fnan
  end.

Definition reductions_ref : Reductions :=
  {| cumprod := prefixwise running_prod; cummax := prefixwise running_max;
     prod := λ xs, foldl fmul fone (numbers_of xs); series_max := max_of;
     np_mean := mean_of; np_std := std_of;
     fpow := λ x _, x |}.

#[export] Instance reductions_ref_laws : @ReductionLaws reductions_ref.
Proof. split; apply prefixwise_windowed. Qed.

Lemma no_look_ahead_witness :
  let bars idx (xs : list Z) := mkFrame idx [("price", of_Z <$> xs); ("factor", of_Z <$> xs)] in
  let vix idx (xs : list Z) := mkFrame idx [("v", of_Z <$> xs)] in
  let sub1 := mkSubStrategy "get_sma" "momentum_band_signal" 2 (of_Z 10) "factor" None in
  let sub2 := mkSubStrategy "get_rsi" "reversion_bounded_signal" 2 (of_Z 60) "v" (Some "vix") in
  let config := mkStrategyConfig "btc" "get_sma" momentum_band_signal 365 "id" "" "OR" [sub1; sub2] in
  let data := [("btc", bars [1; 2; 3; 4] [9; 12; 11; 30]); ("vix", vix [1; 2; 3; 4] [5; 6; 4; 2])] in
  let data' := [("btc", bars [1; 2; 3; 5; 6] [9; 12; 11; 2; 1]); ("vix", vix [0; 1; 2; 3; 5; 6] [7; 5; 6; 4; 9; 9])] in
  ∃ p p' e e',
    @enrich_performance pandas_ref numpy_ref reductions_ref p = Ok e ∧
    @enrich_performance pandas_ref numpy_ref reductions_ref p' = Ok e' ∧
    agree 3 (en_final_position e) (en_final_position e') ∧ agree 3 (en_pnl e) (en_pnl e') ∧
    agree 3 (en_cumu e) (en_cumu e') ∧ agree 3 (en_dd e) (en_dd e').
Proof.
  intros bars vix sub1 sub2 config data data'.
  pose (main := bars [1; 2; 3; 4] [9; 12; 11; 30]). pose (main' := bars [1; 2; 3; 5; 6] [9; 12; 11; 2; 1]).
  assert (∀ idx xs, NoDup idx → length xs = length idx → frame_ok (bars idx xs) ∧ frame_ok (vix idx xs)) as Hok.
  { intros idx xs Hn Hl. split; (split; [done|]); intros name c; simpl; repeat case_decide;
      intros [= <-]; by rewrite length_fmap. }
  assert (same_past 3 config data data' main main') as Hpast.
  { split; [reflexivity|reflexivity|apply Hok; [by apply (bool_decide_unpack _)|done]|apply Hok; [by apply (bool_decide_unpack _)|done]| | |].
    - split; [apply agree_take; reflexivity|]. intros name c d. simpl.
      repeat case_decide; intros [= <-] [= <-]; apply agree_take; reflexivity.
    - intros name. unfold has_column. simpl. repeat case_decide; done.
    - intros cusip f g Hne. simpl. destruct (decide (cusip = "btc")); [done|]. case_decide; [|done].
      intros [= <-] [= <-]. split_and!; try (apply Hok; [by apply (bool_decide_unpack _)|done]).
      intros name c d. simpl. case_decide; [|done]. intros [= <-] [= <-] x.
      rewrite !elem_of_cons. intros [->|[->|[->|[]%elem_of_nil]]]; vm_compute; reflexivity. }
  destruct (new_performance data config None None 0) as [p|] eqn:Hp; [|vm_compute in Hp; discriminate].
  destruct (new_performance data' config None None 0) as [p'|] eqn:Hp'; [|vm_compute in Hp'; discriminate].
  destruct (@enrich_performance pandas_ref numpy_ref reductions_ref p) as [e|] eqn:He.
  2: { exfalso. vm_compute in Hp. injection Hp as <-. vm_compute in He. discriminate. }
  destruct (@enrich_performance pandas_ref numpy_ref reductions_ref p') as [e'|] eqn:He'.
  2: { exfalso. vm_compute in Hp'. injection Hp' as <-. vm_compute in He'. discriminate. }
  exists p, p', e, e'. split; [exact He|]. split; [exact He'|].
  exact (@no_look_ahead pandas_ref pandas_ref_laws numpy_ref numpy_ref_laws reductions_ref reductions_ref_laws
           3 config data data' main main' None None 0 p p' e e' Hpast Hp Hp' He He').
Defined.
