(* ===== verification/Optimize.v ===== *)
(** * Parameter search and walk-forward

    [quant/strategy/objective.py], [optimizer.py] and [walk_forward.py].  The
    optuna study is its trials in the order they were added; the sampler of the
    Bayesian search and the sorting of a data frame are parameters. *)
From S2P Require Import Prelude PyFloat PyData Errors PyValue Signals StrategyConfig Frames Performance.
Local Open Scope string_scope.
Local Open Scope Z_scope.

(** ** The objective *)

(** The windows a search opens: one axis, or one per factor. *)
Inductive window_spec := OneAxis (windows : list Z) | AxisPerFactor (windows : list (list Z)).

(** The thresholds beside them. *)
Inductive signal_spec := OneSignalAxis (signals : list float) | SignalsPerFactor (signals : list (list float)).

(** [IndicatorCache]: the indicator for each window. *)
Definition indicator_cache := list (Z * list float).

Inductive factor_caches :=
| SingleFactor (cache : indicator_cache) (f : signal_func)
| MultiFactor (conjunction : string) (caches : list (indicator_cache * signal_func)).

Record Objective := mkObjective {
  ob_transaction_cost : float;
  ob_min_metric_obs : Z;
  ob_trading_period : Z;
  ob_chg : list float;
  ob_caches : factor_caches
}.

Section objective.
Context `{Pandas} `{Numpy} `{Reductions}.

(** [IndicatorCache.__init__] *)
Definition new_cache (data : frame) (indicator_name : string) (windows : list Z) : res exn indicator_cache :=
  ta ← technical_analysis data;
  entries ← mapM (λ w, v ← indicator ta indicator_name w; mret (w, v)) windows;
  mret (dict_comp fst snd entries).

(** [cache[window]] *)
Definition cache_get (cache : indicator_cache) (window : Z) : res exn (list float) :=
  match dict_get window cache with Some v => Ok v | None => Raise (plain CKeyError (str_Z window)) end.

(** [Objective.for_config]: the subclass's constructor after [Objective.__init__]. *)
Definition for_config (data : all_frames) (config : StrategyConfig) (spec : window_spec)
    (fee_bps : option float) (min_metric_obs : Z) : res exn Objective :=
  main ← main_frame data config;
  price ← get_column main "price";
  let build := mkObjective (transaction_cost_of fee_bps) min_metric_obs (sc_trading_period config)
                 (pct_change price) in
  let subs := get_substrategies config in
  if (1 <? length subs)%nat then
    match spec with
    | AxisPerFactor ranges =>
        caches ← mapM (λ sw : SubStrategy * list Z,
          vals ← factor data config main sw.1;
          cache ← new_cache (mkFrame (f_index main) [("factor", vals)]) (ss_indicator_name sw.1) sw.2;
          f ← resolve_sub_signal sw.1;
          mret (cache, f)) (zip subs ranges);
        mret (build (MultiFactor (sc_conjunction config) caches))
    | OneAxis _ => Raise (TypeError "'int' object is not iterable")
    end
  else
    match spec with
    | OneAxis windows =>
        data1 ← single_factor_frame data config main;
        cache ← new_cache data1 (sc_indicator_name config) windows;
        mret (build (SingleFactor cache (sc_signal_func config)))
    | AxisPerFactor _ => Raise (TypeError "window must be an integer 0 or greater")
    end.

(** [Objective._sharpe] *)
Definition objective_sharpe (o : Objective) (position : list float) (metric_window : Z) : res exn float :=
  ptp ← strategy_pnl position (ob_chg o) (ob_transaction_cost o);
  mret (sharpe_ratio (iloc_from metric_window ptp.2) (ob_trading_period o) (ob_min_metric_obs o)).

(** [__call__] of the two subclasses *)
Definition objective_call (o : Objective) (windows : list Z) (signals : list float) : res exn float :=
  match ob_caches o with
  | SingleFactor cache f =>
      window ← tuple_item 0 windows;
      signal ← tuple_item 0 signals;
      ind ← cache_get cache window;
      objective_sharpe o (call_signal f ind signal) window
  | MultiFactor conjunction caches =>
      parts ← mapM (λ ic : nat * (indicator_cache * signal_func),
        w ← tuple_item ic.1 windows;
        ind ← cache_get ic.2.1 w;
        x ← tuple_item ic.1 signals;
        mret (call_signal ic.2.2 ind x, ind)) (imap pair caches);
      combined ← combine_positions (map fst parts) conjunction (Some (map snd parts));
      metric_window ← py_max windows;
      objective_sharpe o combined metric_window
  end.
End objective.

(** ** The search space *)

(** The axes of the search in the order they are walked: one pair, or one pair
    per factor. *)
Inductive SearchSpace :=
| SingleSpace (windows : list Z) (signals : list float)
| MultiSpace (axes : list (list Z * list float)).

(** [SearchSpace.multi] *)
Definition multi_space (window_ranges : list (list Z)) (signal_ranges : list (list float)) : res exn SearchSpace :=
  if (length signal_ranges =? length window_ranges)%nat then Ok (MultiSpace (zip window_ranges signal_ranges))
  else Raise (ValueError ("window_ranges has " +:+ str_Z (Z.of_nat (length window_ranges)) +:+
         " entries but signal_ranges has " +:+ str_Z (Z.of_nat (length signal_ranges)))).

(** [SearchSpace.window_spec] *)
Definition spec_of (s : SearchSpace) : window_spec :=
  match s with
  | SingleSpace ws _ => OneAxis ws
  | MultiSpace axes => AxisPerFactor (map fst axes)
  end.

(** [SearchSpace.total]; a space of one factor is asked for the unnumbered keys. *)
Definition total (s : SearchSpace) : res exn Z :=
  match s with
  | SingleSpace ws xs => Ok (Z.of_nat (length ws) * Z.of_nat (length xs))
  | MultiSpace [_] => Raise (KeyError "window")
  | MultiSpace axes =>
      Ok (foldl (λ n a, n * (Z.of_nat (length a.1) * Z.of_nat (length a.2))) 1 axes)
  end.

(** [SearchSpace.distributions]: optuna refuses an axis without choices. *)
Definition distributions (s : SearchSpace) : res exn () :=
  let axes := match s with SingleSpace ws xs => [(ws, xs)] | MultiSpace axes => axes end in
  if forallb (λ a : list Z * list float, negb (length a.1 =? 0)%nat && negb (length a.2 =? 0)%nat) axes then Ok ()
  else Raise (ValueError "The `choices` must contain one or more elements.").

(** A parameter set: the tuples [windows_signals] makes of a trial's parameters. *)
Definition point : Type := list Z * list float.

(** [itertools.product] over the axes of the factors: the last varies fastest. *)
Fixpoint combos (axes : list (list Z * list float)) : list point :=
  match axes with
  | [] => [([], [])]
  | (ws, xs) :: axes' =>
      flat_map (λ w, flat_map (λ x, map (λ p, (w :: p.1, x :: p.2)) (combos axes')) xs) ws
  end.

Definition grid_of (s : SearchSpace) : list point :=
  match s with
  | SingleSpace ws xs => combos [(ws, xs)]
  | MultiSpace axes => combos axes
  end.

(** The keys of a trial's parameters with their values. *)
Definition params_of (s : SearchSpace) (p : point) : list (string * pyval) :=
  match s with
  | SingleSpace _ _ => [("window", VInt (nth 0 p.1 0)); ("signal", VFloat (nth 0 p.2 fnan))]
  | MultiSpace _ =>
      concat (imap (λ (i : nat) (wx : Z * float),
        [("window_" +:+ str_Z (Z.of_nat i), VInt wx.1); ("signal_" +:+ str_Z (Z.of_nat i), VFloat wx.2)])
        (zip p.1 p.2))
  end.

(** ** Searching *)

(** A completed trial: its parameters and value. *)
Record trial := mkTrial { tr_point : point; tr_value : float }.

(** [SearchStrategy.evaluate] *)
Definition evaluate (objective : list Z → list float → res exn float) (p : point) : float :=
  match objective p.1 p.2 with
  | Ok sharpe => if is_finite sharpe then sharpe else fminus_inf
  | Raise _ => fminus_inf
  end.

(** [ExhaustiveSearch.search] *)
Definition exhaustive_search (objective : list Z → list float → res exn float) (s : SearchSpace)
    : res exn (list trial) :=
  _ ← distributions s;
  mret (map (λ p, mkTrial p (evaluate objective p)) (grid_of s)).

Definition OPTUNA_MAX_TRIALS : Z := 10000.

Inductive search_strategy := ExhaustiveSearch | BayesianSearch.

#[export] Instance search_strategy_eq_dec : EqDecision search_strategy.
Proof. solve_decision. Defined.

(** [_select_search] *)
Definition select_search (tot : Z) (n_trials : option Z) : search_strategy * Z :=
  let n := default (Z.min tot OPTUNA_MAX_TRIALS) n_trials in
  if tot <=? n then (ExhaustiveSearch, tot) else (BayesianSearch, n).

(** A row of the results: the parameters and the Sharpe, missing where undefined. *)
Record result_row := mkRow { row_point : point; row_sharpe : float }.

(** [_rows_from_study] *)
Definition rows_from_study (study : list trial) : list result_row :=
  map (λ t, mkRow (tr_point t) (if fltb fminus_inf (tr_value t) then tr_value t else fnan)) study.

Record OptimizeResult := mkResult {
  op_grid : list result_row;
  op_top10 : list result_row;
  op_best : option result_row;
  op_n_valid : Z
}.

Class Sorting := {
  (** [df.sort_values("sharpe", ascending=False)] *)
  sort_by_sharpe : list result_row → list result_row
}.

Class TPE := {
  (** the trials of [study.optimize] with the TPE sampler, from the objective's
      values *)
  tpe_search : (point → float) → SearchSpace → Z → list trial
}.

Section search.
Context `{Pandas} `{Numpy} `{Reductions} `{Sorting} `{TPE}.

(** [_build_result]; sorting an empty frame without the column raises. *)
Definition build_result (rows : list result_row) : res exn OptimizeResult :=
  match rows with
  | [] => Raise (KeyError "sharpe")
  | _ =>
      let valid := filter (λ r, is_nan (row_sharpe r) = false) rows in
      let top10 := take 10 (sort_by_sharpe valid) in
      mret (mkResult rows top10 (head top10) (Z.of_nat (length valid)))
  end.

(** [ParametersOptimization._run] *)
Definition run_search (data : all_frames) (config : StrategyConfig) (s : SearchSpace)
    (fee_bps : option float) (min_metric_obs : Z) (n_trials : option Z) : res exn OptimizeResult :=
  tot ← total s;
  let '(strategy, n) := select_search tot n_trials in
  o ← for_config data config (spec_of s) fee_bps min_metric_obs;
  study ← match strategy with
          | ExhaustiveSearch => exhaustive_search (objective_call o) s
          | BayesianSearch => mret (tpe_search (evaluate (objective_call o)) s n)
          end;
  build_result (rows_from_study study).

(** [ParametersOptimization.run]; values of the other shape are not iterable. *)
Definition optimization_run (data : all_frames) (config : StrategyConfig) (windows : window_spec)
    (signals : signal_spec) (fee_bps : option float) (min_metric_obs : Z) (n_trials : option Z)
    : res exn (SearchSpace * OptimizeResult) :=
  s ← (if (1 <? length (get_substrategies config))%nat then
         match windows, signals with
         | AxisPerFactor ws, SignalsPerFactor xs => multi_space ws xs
         | _, _ => Raise (TypeError "'int' object is not iterable")
         end
       else
         match windows, signals with
         | OneAxis ws, OneSignalAxis xs => mret (SingleSpace ws xs)
         | _, _ => Raise (TypeError "int() argument must be a number, not 'tuple'")
         end);
  r ← run_search data config s fee_bps min_metric_obs n_trials;
  mret (s, r).

(** [best_params] *)
Definition best_params (s : SearchSpace) (r : OptimizeResult) : res exn params :=
  params_from_best match op_best r with
                   | Some row => params_of s (row_point row) ++ [("sharpe", VFloat (row_sharpe row))]
                   | None => []
                   end.

(** ** Walk-forward *)

(** [df.iloc[:k]] and [df.iloc[k:]] for [0 <= k] *)
Definition iloc_head (k : nat) (f : frame) : frame :=
  mkFrame (take k (f_index f)) (prod_map id (take k) <$> f_columns f).
Definition iloc_tail (k : nat) (f : frame) : frame :=
  mkFrame (drop k (f_index f)) (prod_map id (drop k) <$> f_columns f).

(** [WalkForward.__init__]: the split. *)
Definition walk_forward_split (data : all_frames) (config : StrategyConfig) (split_ratio : float) : res exn nat :=
  if negb (fltb fzero split_ratio && fltb split_ratio fone) then
    Raise (ValueError ("split_ratio must be between 0 and 1, got " +:+ str_float split_ratio))
  else
    main ← main_frame data config;
    let n := Z.of_nat (length (f_index main)) in
    split_idx ← res_map_exn int_exn (trunc_int (fmul (of_Z n) split_ratio));
    if (split_idx <? 2) || (n - 1 <=? split_idx) then
      Raise (ValueError ("Split produces empty partition: split_idx=" +:+ str_Z split_idx +:+
                         ", data length=" +:+ str_Z n))
    else mret (Z.to_nat split_idx).

Record WalkForwardResult := mkWalkForward {
  wf_best : params;
  wf_is_metrics : list float;
  wf_oos_metrics : list float;
  wf_overfitting_ratio : float;
  (** the columns of the full period *)
  wf_full : enriched
}.

(** [WalkForward._evaluate] *)
Definition walk_forward_evaluate (data : all_frames) (config : StrategyConfig) (best : params)
    (fee_bps : option float) (min_metric_obs : Z) : res exn (list float) :=
  p ← new_performance data config (Some best) fee_bps min_metric_obs;
  e ← enrich_performance p;
  get_strategy_performance p e.

(** [_overfitting_ratio] of the third metric *)
Definition overfitting_ratio (is_metrics oos_metrics : list float) : float :=
  let is_sharpe := nth 2 is_metrics fnan in
  let oos_sharpe := nth 2 oos_metrics fnan in
  if is_nan is_sharpe || feqb is_sharpe fzero then fnan
  else fsub fone (fdiv oos_sharpe is_sharpe).

(** [WalkForward.run] *)
Definition walk_forward_run (data : all_frames) (config : StrategyConfig) (split_ratio : float)
    (fee_bps : option float) (min_metric_obs : Z) (windows : window_spec) (signals : signal_spec)
    : res exn WalkForwardResult :=
  split_idx ← walk_forward_split data config split_ratio;
  let is_data := prod_map id (iloc_head split_idx) <$> data in
  let oos_data := prod_map id (iloc_tail split_idx) <$> data in
  opt ← optimization_run is_data config windows signals fee_bps min_metric_obs None;
  best ← best_params opt.1 opt.2;
  is_metrics ← walk_forward_evaluate is_data config best fee_bps min_metric_obs;
  oos_metrics ← walk_forward_evaluate oos_data config best fee_bps min_metric_obs;
  full ← new_performance data config (Some best) fee_bps min_metric_obs;
  full_equity ← enrich_performance full;
  mret (mkWalkForward best is_metrics oos_metrics (overfitting_ratio is_metrics oos_metrics) full_equity).
End search.

(** ** The objective scores what the engine measures *)

Definition windows_of (p : params) : list Z :=
  match p with Scalar w _ => [w] | PerFactor ws _ => ws end.
Definition signals_of (p : params) : list float :=
  match p with Scalar _ x => [x] | PerFactor _ xs => xs end.

(** A parameter set of the axes [spec] for [n] factors. *)
Definition on_axes (n : nat) (spec : window_spec) (p : params) : Prop :=
  match spec, p with
  | OneAxis ws, Scalar w _ => w ∈ ws
  | AxisPerFactor ranges, PerFactor ws xs =>
      length ranges = n ∧ length xs = n ∧ Forall2 (λ w r, w ∈ r) ws ranges
  | _, _ => False
  end.

Section agreement.
Context `{Pandas} `{Numpy} `{Reductions}.

Lemma indicator_columns f g name w : f_index f = f_index g →
  (∀ c, c ∈ ["factor"; "High"; "Low"; "Close"] → get_column f c = get_column g c) →
  indicator f name w = indicator g name w.
Proof.
  intros Hi Hc. unfold indicator, get_sma, get_ema, get_rsi, get_bollinger_band, get_stochastic_oscillator.
  rewrite Hi. rewrite !Hc by (repeat first [by left | right]). done.
Qed.

Lemma get_column_set f n m v : n ≠ m → get_column (set_column f m v) n = get_column f n.
Proof. intros Hn. unfold get_column, set_column. simpl. by rewrite dict_get_set_ne. Qed.

Lemma technical_analysis_same data ta : technical_analysis data = Ok ta → ta = data.
Proof. unfold technical_analysis. destruct (has_column _ _); congruence. Qed.

Lemma mapM_elem {A B} (F : A → res exn B) l ys : mapM F l = Ok ys →
  (∀ x, x ∈ l → ∃ y, F x = Ok y ∧ y ∈ ys) ∧ (∀ y, y ∈ ys → ∃ x, x ∈ l ∧ F x = Ok y).
Proof.
  revert ys. induction l as [|x l IH]; intros ys; cbn [mapM].
  { intros [= <-]. split; intros ? []%elem_of_nil. }
  intros (y & Hy & (zs & Hzs & [= <-])%bind_Ok)%bind_Ok. destruct (IH zs Hzs) as [IH1 IH2]. split.
  - intros x' [->|Hx]%elem_of_cons; [exists y; split; [done|left]|].
    destruct (IH1 x' Hx) as (y' & ? & ?). exists y'. split; [done|by right].
  - intros y' [->|Hy']%elem_of_cons; [exists x; split; [left|done]|].
    destruct (IH2 y' Hy') as (x' & ? & ?). exists x'. split; [by right|done].
Qed.

(** A cache holds the indicator of each of its windows. *)
Lemma cache_get_indicator data name ws cache w : new_cache data name ws = Ok cache → w ∈ ws →
  has_column data "factor" = true ∧ cache_get cache w = indicator data name w ∧
  ∃ v, indicator data name w = Ok v.
Proof.
  unfold new_cache. intros (ta & Hta & (es & Hes & [= <-])%bind_Ok)%bind_Ok Hw.
  assert (has_column data "factor" = true) as Hf.
  { unfold technical_analysis in Hta. by destruct (has_column _ _). }
  apply technical_analysis_same in Hta as ->. split; [done|].
  destruct (mapM_elem _ _ _ Hes) as [H1' H2']. destruct (H1' w Hw) as ([w' v] & Hv & Hin).
  apply bind_Ok in Hv as (v0 & Hv & [= <- <-]). unfold cache_get. rewrite dict_get_comp.
  assert ((w, v0) ∈ filter (λ x, x.1 = w) es) as Hfil by (by apply list_elem_of_filter).
  destruct (last (filter (λ x, x.1 = w) es)) as [[w' v']|] eqn:Hlast.
  2: { apply last_None in Hlast. rewrite Hlast in Hfil. by apply elem_of_nil in Hfil. }
  apply last_Some in Hlast as [l Hl].
  assert ((w', v') ∈ filter (λ x, x.1 = w) es) as Hin' by (rewrite Hl; apply elem_of_app; right; left).
  apply list_elem_of_filter in Hin' as [Hw' Hin']. simpl in Hw'. subst w'.
  destruct (H2' _ Hin') as (x & _ & Hx). apply bind_Ok in Hx as (v2 & Hx & [= <- <-]).
  simpl. rewrite Hx. split; [done|by exists v2].
Qed.

Lemma not_price s : "factor" +:+ s ≠ "price" ∧ "indicator" +:+ s ≠ "price" ∧ "position" +:+ s ≠ "price".
Proof. split_and!; intros E; apply (f_equal (String.get 1)) in E; discriminate. Qed.

Lemma single_factor_frame_price data config main data1 : single_factor_frame data config main = Ok data1 →
  get_column data1 "price" = get_column main "price".
Proof.
  unfold single_factor_frame. destruct (get_substrategies config) as [|sub subs]; [done|].
  intros (own & _ & H2)%bind_Ok. destruct own; [|by injection H2 as <-].
  apply bind_Ok in H2 as (v & _ & [= <-]). by apply get_column_set.
Qed.

(** The engine's Sharpe is the objective's, once the final position is known. *)
Lemma sharpe_of_final p o data final price :
  final_position p = Ok (data, final) → get_column data "price" = Ok price →
  ob_chg o = pct_change price → ob_transaction_cost o = pf_transaction_cost p →
  ob_min_metric_obs o = pf_min_metric_obs p → ob_trading_period o = sc_trading_period (pf_config p) →
  objective_sharpe o final (pf_metric_window p)
  = (e ← enrich_performance p; mret (get_sharpe_ratio p e)).
Proof.
  intros Hf Hp Hc Ht Hm Hs. unfold enrich_performance, objective_sharpe.
  rewrite Hf, Ok_bind. cbv beta iota. rewrite Hp, Ok_bind, Hc, Ht, Hm, Hs. cbv zeta.
  destruct (strategy_pnl final (pct_change price) (pf_transaction_cost p)) as [[[prior turnover] pnl]|e]; [|done].
  rewrite !Ok_bind. cbv beta iota. unfold _compound. cbn [snd]. reflexivity.
Qed.

Lemma single_objective data config ws w x fee obs o p : (length (get_substrategies config) <= 1)%nat →
  for_config data config (OneAxis ws) fee obs = Ok o → w ∈ ws →
  new_performance data config (Some (Scalar w x)) fee obs = Ok p →
  objective_call o [w] [x] = (e ← enrich_performance p; mret (get_sharpe_ratio p e)).
Proof.
  intros Hone Ho Hw Hp. unfold for_config in Ho. unfold new_performance in Hp.
  apply bind_Ok in Ho as (main & Hmain & Ho). apply bind_Ok in Ho as (price & Hprice & Ho). cbv zeta in Ho.
  rewrite (proj2 (Nat.ltb_ge _ _) Hone) in Ho.
  apply bind_Ok in Ho as (data1 & Hd1 & Ho). apply bind_Ok in Ho as (cache & Hcache & [= <-]).
  rewrite Hmain, !Ok_bind in Hp.
  assert (length (get_substrategies config) = 1%nat) as Hlen.
  { unfold get_substrategies in *. by destruct (sc_substrategies config) as [|? [|? ?]]; simpl in *; try lia. }
  rewrite Hlen in Hp. apply bind_Ok in Hp as (mw & [= <-] & [= <-]).
  destruct (cache_get_indicator _ _ _ _ _ Hcache Hw) as (Hhas & Hget & v & Hv).
  assert (∃ fac, get_column data1 "factor" = Ok fac) as [fac Hfac].
  { unfold has_column in Hhas. unfold get_column. destruct (dict_get "factor" (f_columns data1)); [by eexists|done]. }
  set (pos := call_signal (sc_signal_func config) v x).
  set (data2 := set_column (set_column data1 "factor1" fac) "indicator1" v).
  unfold objective_call. cbn [ob_caches].
  change (tuple_item 0 [w]) with (Ok (E:=exn) w). change (tuple_item 0 [x]) with (Ok (E:=exn) x).
  res_simpl. rewrite Hget, Hv. res_simpl.
  match goal with |- _ = (e ← enrich_performance ?q; _) =>
    apply (sharpe_of_final q _ (set_column data2 "position1" pos) pos price) end; try done.
  - unfold final_position, is_multi. cbn [pf_subs]. rewrite Hlen. cbn [Nat.ltb Nat.leb].
    unfold compute_single_factor_outputs. cbn [pf_all_data pf_config pf_main pf_windows pf_signals].
    rewrite Hd1, Ok_bind. unfold technical_analysis. rewrite Hhas, Ok_bind, Hfac, Ok_bind. cbv zeta.
    change (tuple_item 0 [w]) with (Ok (E:=exn) w). res_simpl. rewrite (indicator_columns _ data1), Hv; [reflexivity|done|].
    intros c Hc. apply get_column_set. intros ->.
    rewrite !elem_of_cons, elem_of_nil in Hc. destruct Hc as [|[|[|[|[]]]]]; discriminate.
  - unfold data2. rewrite !get_column_set by done. by rewrite (single_factor_frame_price _ _ _ _ Hd1).
Qed.

(** Factor by factor: what the engine computes is what the caches hold. *)
Lemma factors_agree data config main p ws xs subs ranges caches k :
  pf_all_data p = data → pf_config p = config → pf_main p = main → pf_windows p = ws → pf_signals p = xs →
  length ranges = length subs →
  mapM (λ sw : SubStrategy * list Z,
          vals ← factor data config main sw.1;
          cache ← new_cache (mkFrame (f_index main) [("factor", vals)]) (ss_indicator_name sw.1) sw.2;
          f ← resolve_sub_signal sw.1;
          mret (cache, f)) (zip subs ranges) = Ok caches →
  (∀ i r, ranges !! i = Some r → ∃ w x, ws !! (k + i)%nat = Some w ∧ xs !! (k + i)%nat = Some x ∧ w ∈ r) →
  ∃ outs, mapM (λ s, factor_outputs p s.1 s.2) (imap (λ i s, ((k + i)%nat, s)) subs) = Ok outs ∧
    length outs = length subs ∧
    mapM (λ ic : nat * (indicator_cache * signal_func),
        w ← tuple_item ic.1 ws;
        ind ← cache_get ic.2.1 w;
        x ← tuple_item ic.1 xs;
        mret (call_signal ic.2.2 ind x, ind)) (imap (λ i c, ((k + i)%nat, c)) caches)
    = Ok (map (λ o, (o.2, o.1.2)) outs).
Proof.
  intros Hd Hc Hm Hws Hxs. revert ranges caches k.
  induction subs as [|sub subs IH]; intros [|r ranges] caches k Hl Hcaches Hat; simpl in Hl; try lia.
  { injection Hcaches as <-. by exists []. }
  cbn [zip zip_with mapM fst snd] in Hcaches.
  apply bind_Ok in Hcaches as ([cache f] & Hone & (rest & Hrest & [= <-])%bind_Ok).
  apply bind_Ok in Hone as (vals & Hvals & (cache' & Hcache & (f' & Hf & [= -> ->])%bind_Ok)%bind_Ok).
  destruct (Hat 0%nat r eq_refl) as (w & x & Hw & Hx & Hin). rewrite Nat.add_0_r in Hw, Hx.
  destruct (cache_get_indicator _ _ _ _ _ Hcache Hin) as (_ & Hget & v & Hv).
  destruct (IH ranges rest (S k)) as (outs & Houts & Hlen & Hobj); [lia|done| |].
  { intros i r' Hi. destruct (Hat (S i) r' Hi) as (w' & x' & Hw' & Hx' & Hin'). exists w', x'.
    by rewrite !Nat.add_succ_r in *. }
  assert (∀ A (l : list A), imap ((λ i s, ((k + i)%nat, s)) ∘ S) l = imap (λ i s, ((S k + i)%nat, s)) l) as Himap.
  { intros A l. apply imap_ext. intros i y _. simpl. by rewrite Nat.add_succ_r. }
  exists ((vals, v, call_signal f v x) :: outs). cbn [imap mapM map]. rewrite !Himap, Hobj, Houts.
  cbn [fst snd]. rewrite Nat.add_0_r. split_and!; [|simpl; lia|].
  - unfold factor_outputs. rewrite Hd, Hc, Hm, Hws, Hxs, Hvals. unfold tuple_item. rewrite Hw, Hx. res_simpl.
    unfold indicator_and_position, technical_analysis.
    change (has_column (mkFrame ?i [("factor", ?c)]) "factor") with true. cbv iota. res_simpl.
    rewrite Hv. res_simpl. rewrite Hf. by res_simpl.
  - unfold tuple_item. rewrite Hw, Hx. res_simpl. rewrite Hget, Hv. by res_simpl.
Qed.

Lemma set_outputs_price d os :
  let set d (q : nat * (list float * list float * list float)) :=
    let i := str_Z (Z.of_nat (S q.1)) in
    let '(factor_vals, indicator_vals, pos) := q.2 in
    set_column (set_column (set_column d ("factor" +:+ i) factor_vals) ("indicator" +:+ i) indicator_vals)
      ("position" +:+ i) pos in
  get_column (foldl set d os) "price" = get_column d "price".
Proof.
  cbv zeta. revert d. induction os as [|[i [[a b] c]] os IH]; intros d; [done|]. simpl. rewrite IH.
  destruct (not_price (str_Z (Z.of_nat (S i)))) as (H1' & H2' & H3'). by rewrite !get_column_set by done.
Qed.

Lemma multi_objective data config ranges ws xs fee obs o p : (2 <= length (get_substrategies config))%nat →
  for_config data config (AxisPerFactor ranges) fee obs = Ok o →
  length ranges = length (get_substrategies config) → length xs = length (get_substrategies config) →
  Forall2 (λ w r, w ∈ r) ws ranges →
  has_column (pf_main p) "factor" = true →
  new_performance data config (Some (PerFactor ws xs)) fee obs = Ok p →
  objective_call o ws xs = (e ← enrich_performance p; mret (get_sharpe_ratio p e)).
Proof.
  intros Hmany Ho Hlr Hlx Hws Hhas Hp. unfold for_config in Ho. unfold new_performance in Hp.
  apply bind_Ok in Ho as (main & Hmain & Ho). apply bind_Ok in Ho as (price & Hprice & Ho). cbv zeta in Ho.
  assert ((1 <? length (get_substrategies config))%nat = true) as Hlt by (apply Nat.ltb_lt; lia).
  rewrite Hlt in Ho. apply bind_Ok in Ho as (caches & Hcaches & [= <-]).
  rewrite Hmain, Hlt in Hp. rewrite !Ok_bind in Hp. apply bind_Ok in Hp as (mw & Hmw & [= <-]). cbn [fst snd] in *.
  set (p := mkPerformance _ _ _ _ _ _ _ _ _) in *. change (pf_main p) with main in Hhas.
  destruct (factors_agree data config main p ws xs _ _ _ 0 eq_refl eq_refl eq_refl eq_refl eq_refl Hlr Hcaches)
    as (outs & Houts & Hlo & Hobj).
  { intros i r Hr. destruct (Forall2_lookup_r _ _ _ _ _ Hws Hr) as (w & Hw & Hin).
    destruct (lookup_lt_is_Some_2 xs i) as [x Hx].
    { apply lookup_lt_Some in Hr. lia. }
    by exists w, x. }
  change (imap (λ i s, ((0 + i)%nat, s)) (get_substrategies config)) with (imap pair (get_substrategies config)) in Houts.
  change (imap (λ i c, ((0 + i)%nat, c)) caches) with (imap pair caches) in Hobj.
  unfold objective_call. cbn [ob_caches]. rewrite Hobj, Ok_bind, !map_map. cbn [fst snd].
  assert (final_position p = (combined ← combine_positions (map snd outs) (sc_conjunction config)
            (Some (map (λ o, o.1.2) outs));
          mret (foldl (λ d q, let i := str_Z (Z.of_nat (S q.1)) in
                        let '(factor_vals, indicator_vals, pos) := q.2 in
                        set_column (set_column (set_column d ("factor" +:+ i) factor_vals)
                                      ("indicator" +:+ i) indicator_vals) ("position" +:+ i) pos)
            main (imap pair outs), combined))) as Hfinal.
  { unfold final_position, is_multi. cbn [pf_subs p]. rewrite Hlt. unfold compute_multi_factor_outputs.
    cbn [pf_main pf_subs pf_config p]. unfold technical_analysis. rewrite Hhas. res_simpl.
    fold p. rewrite Houts. res_simpl. destruct (combine_positions _ _ _); reflexivity. }
  destruct (combine_positions (map snd outs) (sc_conjunction config) _) as [combined|e] eqn:Hcomb.
  - rewrite Ok_bind, Hmw, Ok_bind.
    rewrite Ok_bind in Hfinal. eapply (sharpe_of_final p _ _ combined price); [exact Hfinal| |done..].
    by rewrite set_outputs_price.
  - unfold enrich_performance. rewrite Hfinal. reflexivity.
Qed.
End agreement.

(** The objective's value is the engine's Sharpe ratio. *)
Lemma objective_matches `{Pandas} `{Numpy} `{Reductions} data config spec fee obs ps o p :
  for_config data config spec fee obs = Ok o →
  new_performance data config (Some ps) fee obs = Ok p →
  on_axes (length (get_substrategies config)) spec ps →
  has_column (pf_main p) "factor" = true →
  objective_call o (windows_of ps) (signals_of ps)
  = (e ← enrich_performance p; mret (get_sharpe_ratio p e)).
Proof.
  intros Ho Hp Hax Hhas. destruct (Nat.ltb_spec 1 (length (get_substrategies config))) as [Hm|Hs].
  - destruct spec as [ws'|ranges], ps as [w x|ws xs]; simpl in Hax; try done.
    + unfold for_config in Ho. exfalso. rewrite (proj2 (Nat.ltb_lt _ _) Hm) in Ho.
      destruct (main_frame data config) as [main|]; [|done]. simpl in Ho. by destruct (get_column main "price").
    + destruct Hax as (Hl & Hx & Hws). by apply (multi_objective data config ranges ws xs fee obs).
  - destruct spec as [ws'|ranges], ps as [w x|ws xs]; simpl in Hax; try done.
    + by apply (single_objective data config ws' w x fee obs).
    + unfold for_config in Ho. exfalso. rewrite (proj2 (Nat.ltb_ge _ _) Hs) in Ho.
      destruct (main_frame data config) as [main|]; [|done]. simpl in Ho. by destruct (get_column main "price").
Qed.

(** C6. The search and the engine agree: on a parameter set of the search's
    axes, the objective's value is the Sharpe ratio of the performance engine
    run with those parameters, and it raises where the engine does. *)
Theorem objective_is_performance `{Pandas} `{Numpy} `{Reductions} data config spec fee obs ps o p :
  for_config data config spec fee obs = Ok o →
  new_performance data config (Some ps) fee obs = Ok p →
  on_axes (length (get_substrategies config)) spec ps →
  has_column (pf_main p) "factor" = true →
  objective_call o (windows_of ps) (signals_of ps)
  = (e ← enrich_performance p; mret (get_sharpe_ratio p e)).
Proof. apply objective_matches. Qed.

Lemma objective_is_performance_witness :
  let bars idx (xs : list Z) := mkFrame idx [("price", of_Z <$> xs); ("factor", of_Z <$> xs)] in
  let vix idx (xs : list Z) := mkFrame idx [("v", of_Z <$> xs)] in
  let sub1 := mkSubStrategy "get_sma" "momentum_band_signal" 2 (of_Z 10) "factor" None in
  let sub2 := mkSubStrategy "get_rsi" "reversion_bounded_signal" 2 (of_Z 60) "v" (Some "vix") in
  let config := mkStrategyConfig "btc" "get_sma" momentum_band_signal 365 "id" "" "OR" [sub1; sub2] in
  let data := [("btc", bars [1; 2; 3; 4] [9; 12; 11; 30]); ("vix", vix [1; 2; 3; 4] [5; 6; 4; 2])] in
  let ps := PerFactor [3; 2] [of_Z 11; of_Z 60] in
  ∃ o p v, @for_config pandas_ref data config (AxisPerFactor [[2; 3]; [1; 2]]) None 0 = Ok o ∧
    @objective_call numpy_ref reductions_ref o (windows_of ps) (signals_of ps) = Ok v ∧
    (e ← @enrich_performance pandas_ref numpy_ref reductions_ref p;
     mret (@get_sharpe_ratio reductions_ref p e)) = Ok v.
Proof.
  intros bars vix sub1 sub2 config data ps.
  destruct (@for_config pandas_ref data config (AxisPerFactor [[2; 3]; [1; 2]]) None 0) as [o|] eqn:Ho.
  2: { exfalso. vm_compute in Ho. discriminate. }
  destruct (new_performance data config (Some ps) None 0) as [p|] eqn:Hp.
  2: { exfalso. vm_compute in Hp. discriminate. }
  destruct (@objective_call numpy_ref reductions_ref o (windows_of ps) (signals_of ps)) as [v|] eqn:Hv.
  2: { exfalso. vm_compute in Ho. injection Ho as <-. vm_compute in Hv. discriminate. }
  exists o, p, v. split; [done|]. split; [done|]. rewrite <-Hv. symmetry.
  apply (@objective_is_performance pandas_ref numpy_ref reductions_ref data config
           (AxisPerFactor [[2; 3]; [1; 2]]) None 0 ps o p Ho Hp).
  - split_and!; [done|done|]. repeat constructor; apply (bool_decide_unpack _); vm_compute; exact I.
  - injection Hp as <-. reflexivity.
Defined.

(** ** The exhaustive search *)

Class SortingLaws `{Sorting} := {
  sort_permutation rs : sort_by_sharpe rs ≡ₚ rs;
  sort_descending rs : Forall (λ r, is_nan (row_sharpe r) = false) rs →
    StronglySorted (λ a b, fltb (row_sharpe a) (row_sharpe b) = false) (sort_by_sharpe rs)
}.

(** The parameter sets of a search space. *)
Definition on_space (s : SearchSpace) (p : point) : Prop :=
  let axes := match s with SingleSpace ws xs => [(ws, xs)] | MultiSpace axes => axes end in
  Forall2 (λ w a, w ∈ a.1) p.1 axes ∧ Forall2 (λ x a, x ∈ a.2) p.2 axes.

Lemma elem_of_combos axes p :
  p ∈ combos axes ↔ Forall2 (λ w a, w ∈ a.1) p.1 axes ∧ Forall2 (λ x a, x ∈ a.2) p.2 axes.
Proof.
  revert p. induction axes as [|[ws xs] axes IH]; intros [pw px]; cbn [combos fst snd].
  - rewrite list_elem_of_singleton. split.
    + intros [= -> ->]. by split.
    + intros [Hw Hx]. by inversion Hw; inversion Hx.
  - rewrite list_elem_of_In, in_flat_map. split.
    + intros (w & Hw & (x & Hx & (q & [= <- <-] & Hq)%in_map_iff)%in_flat_map).
      apply list_elem_of_In, IH in Hq as [? ?]. apply list_elem_of_In in Hw, Hx.
      by split; constructor.
    + intros [Hw Hx]. inversion Hw as [|w ? pw' ? Hw1 Hw2]. inversion Hx as [|x ? px' ? Hx1 Hx2]. subst.
      exists w. split; [by apply list_elem_of_In|]. apply in_flat_map. exists x.
      split; [by apply list_elem_of_In|]. apply in_map_iff. exists (pw', px'). split; [done|].
      apply list_elem_of_In, IH. by split.
Qed.

Lemma elem_of_grid s p : p ∈ grid_of s ↔ on_space s p.
Proof. unfold grid_of, on_space. destruct s; apply elem_of_combos. Qed.

Lemma length_flat_map_const {A B} (f : A → list B) n l : (∀ x, length (f x) = n) →
  length (flat_map f l) = (length l * n)%nat.
Proof. intros Hf. induction l as [|x l IH]; [done|]. simpl. by rewrite length_app, Hf, IH. Qed.

Lemma length_combos ws xs axes :
  length (combos ((ws, xs) :: axes)) = (length ws * (length xs * length (combos axes)))%nat.
Proof.
  cbn [combos]. apply length_flat_map_const. intros w. apply length_flat_map_const. intros x. apply List.length_map.
Qed.

(** The grid has [total] points. *)
Lemma length_grid s tot : total s = Ok tot → Z.of_nat (length (grid_of s)) = tot.
Proof.
  assert (∀ axes n, foldl (λ n (a : list Z * list float), n * (Z.of_nat (length a.1) * Z.of_nat (length a.2))) n axes
            = n * Z.of_nat (length (combos axes))) as Hfold.
  { induction axes as [|[ws xs] axes IH]; intros n; [simpl; lia|].
    rewrite length_combos. cbn [foldl fst snd]. rewrite IH. lia. }
  unfold total, grid_of. destruct s as [ws xs|[|a [|b axes]]]; intros [= <-].
  - rewrite length_combos. simpl. lia.
  - done.
  - transitivity (1 * Z.of_nat (length (combos (a :: b :: axes)))); [lia|].
    symmetry. exact (Hfold (a :: b :: axes) 1).
Qed.

Section exhaustive.
Context `{Pandas} `{Numpy} `{Reductions} `{SortingLaws} `{TPE}.

(** What the search accepts as a value. *)
Definition valid_value (o : Objective) (p : point) (v : float) : Prop :=
  objective_call o p.1 p.2 = Ok v ∧ is_finite v = true.

Lemma fminus_inf_below v : is_finite v = true → fltb fminus_inf v = true.
Proof. by destruct v as [[]|[]| |[] ? ?]. Qed.

Lemma finite_not_nan v : is_finite v = true → is_nan v = false.
Proof. by destruct v. Qed.

Definition rows_of (o : Objective) (s : SearchSpace) : list result_row :=
  rows_from_study (map (λ p, mkTrial p (evaluate (objective_call o) p)) (grid_of s)).

(** A row with a value is a point of the space with the objective's value. *)
Lemma rows_of_valid o s r :
  r ∈ filter (λ r, is_nan (row_sharpe r) = false) (rows_of o s) ↔
  on_space s (row_point r) ∧ valid_value o (row_point r) (row_sharpe r).
Proof.
  rewrite list_elem_of_filter. unfold rows_of, rows_from_study, valid_value. rewrite map_map.
  change (map ?f ?l) with (f <$> l). rewrite list_elem_of_fmap. unfold evaluate. split.
  - intros (Hn & p & -> & Hp). cbn [row_point row_sharpe tr_point tr_value] in *. apply elem_of_grid in Hp.
    split; [done|]. destruct (objective_call o p.1 p.2) as [v|]; [|done].
    destruct (is_finite v) eqn:Hv; [|done]. by rewrite fminus_inf_below.
  - intros (Hp & Hv & Hf). split; [by apply finite_not_nan|]. exists (row_point r).
    split; [|by apply elem_of_grid]. cbn [tr_point tr_value]. rewrite Hv, Hf, fminus_inf_below by done. by destruct r.
Qed.

Lemma head_descending rs r : Forall (λ r, is_nan (row_sharpe r) = false) rs →
  head (take 10 (sort_by_sharpe rs)) = Some r →
  r ∈ rs ∧ ∀ q, q ∈ rs → fltb (row_sharpe r) (row_sharpe q) = false.
Proof.
  intros Hn Hr. pose proof (sort_permutation rs) as Hp. pose proof (sort_descending rs Hn) as Hs.
  destruct (sort_by_sharpe rs) as [|r' l]; [done|]. injection Hr as ->.
  split; [rewrite <-Hp; left|]. intros q. rewrite <-Hp. intros [->|Hq]%elem_of_cons; [apply fltb_irrefl|].
  apply StronglySorted_inv in Hs as [_ Hall]. rewrite Forall_forall in Hall. by apply Hall.
Qed.

Lemma build_result_spec rows : rows ≠ [] → ∃ r, build_result rows = Ok r ∧ op_grid r = rows ∧
  let valid := filter (λ r, is_nan (row_sharpe r) = false) rows in
  op_n_valid r = Z.of_nat (length valid) ∧
  match op_best r with
  | Some best => best ∈ valid ∧ ∀ q, q ∈ valid → fltb (row_sharpe best) (row_sharpe q) = false
  | None => valid = []
  end.
Proof.
  intros Hne. unfold build_result. destruct rows as [|row rows]; [done|]. cbv zeta. eexists. split; [reflexivity|].
  cbn [op_grid op_best op_n_valid]. split_and!; [done|done|].
  set (valid := filter _ _). assert (Forall (λ r, is_nan (row_sharpe r) = false) valid) as Hn.
  { apply Forall_forall. by intros r [? _]%list_elem_of_filter. }
  destruct (head _) as [best|] eqn:Hb; [by apply head_descending|].
  destruct valid as [|v l] eqn:Hv; [done|]. pose proof (sort_permutation (v :: l)) as Hp.
  destruct (sort_by_sharpe (v :: l)); [|done]. by apply Permutation_nil_cons in Hp.
Qed.

(** When the trials cover the space, the search is the exhaustive one. *)
Lemma run_search_exhaustive data config s fee obs n_trials tot o :
  total s = Ok tot → tot <= default (Z.min tot OPTUNA_MAX_TRIALS) n_trials →
  distributions s = Ok () → for_config data config (spec_of s) fee obs = Ok o →
  run_search data config s fee obs n_trials = build_result (rows_of o s).
Proof.
  intros Ht Hn Hd Ho. unfold run_search, select_search. rewrite Ht, Ok_bind. cbv zeta.
  rewrite (proj2 (Z.leb_le _ _) Hn), Ho, Ok_bind. unfold exhaustive_search. by rewrite Hd, !Ok_bind.
Qed.

Lemma distributions_nonempty s : distributions s = Ok () → grid_of s ≠ [].
Proof.
  assert (∀ axes, forallb (λ a : list Z * list float,
    negb (length a.1 =? 0)%nat && negb (length a.2 =? 0)%nat) axes = true → combos axes ≠ []) as Hc.
  { induction axes as [|[[|w ws] [|x xs]] axes IH]; try done. cbn [forallb fst snd length]. intros Hall.
    specialize (IH Hall). cbn [combos flat_map]. by destruct (combos axes). }
  unfold distributions. destruct s as [ws xs|axes]; destruct (forallb _ _) eqn:E; intros [=]; by apply Hc.
Qed.
End exhaustive.

(** C10. The exhaustive search is exhaustive: when the trials asked for cover
    the space and no axis is empty, the search returns one row for each of the
    [total] parameter sets, and the best row is a parameter set of the axes
    whose value is defined, finite and not below that of any other; there is no
    best row exactly when no parameter set has such a value. *)
Theorem exhaustive_finds_best `{Pandas} `{Numpy} `{Reductions} `{SortingLaws} `{TPE}
    data config s fee obs n_trials tot o :
  total s = Ok tot → tot <= default (Z.min tot OPTUNA_MAX_TRIALS) n_trials →
  distributions s = Ok () → for_config data config (spec_of s) fee obs = Ok o →
  ∃ r, run_search data config s fee obs n_trials = Ok r ∧ Z.of_nat (length (op_grid r)) = tot ∧
    match op_best r with
    | Some best => on_space s (row_point best) ∧ valid_value o (row_point best) (row_sharpe best) ∧
        ∀ p v, on_space s p → valid_value o p v → fltb (row_sharpe best) v = false
    | None => ∀ p v, on_space s p → ¬ valid_value o p v
    end.
Proof.
  intros Ht Hn Hd Ho. destruct (build_result_spec (rows_of o s)) as (r & Hr & Hgrid & Hvalid & Hbest).
  { intros E. apply (distributions_nonempty s Hd). unfold rows_of, rows_from_study in E.
    by do 2 apply map_eq_nil in E. }
  exists r. split_and!.
  - by rewrite (run_search_exhaustive _ _ _ _ _ _ tot o).
  - rewrite Hgrid. unfold rows_of, rows_from_study. rewrite !List.length_map. by apply length_grid.
  - destruct (op_best r) as [best|].
    + destruct Hbest as [Hin Hmax]. apply rows_of_valid in Hin as [Hs Hv]. split_and!; [done|done|].
      intros p v Hp Hpv. apply (Hmax (mkRow p v)), rows_of_valid. by split.
    + intros p v Hp Hpv. assert (mkRow p v ∈ filter (λ r, is_nan (row_sharpe r) = false) (rows_of o s)) as Hin
        by (apply rows_of_valid; by split).
      rewrite Hbest in Hin. by apply elem_of_nil in Hin.
Qed.

(** ** A run *)

Fixpoint insert_row (r : result_row) (rs : list result_row) : list result_row :=
  match rs with
  | [] => [r]
  | q :: rs' => if fltb (row_sharpe r) (row_sharpe q) then q :: insert_row r rs' else r :: rs
  end.

Definition sorting_ref : Sorting := {| sort_by_sharpe := foldr insert_row [] |}.

Definition tpe_ref : TPE := {| tpe_search := λ _ _ _, [] |}.

Lemma insert_row_permutation r rs : insert_row r rs ≡ₚ r :: rs.
Proof.
  induction rs as [|q rs IH]; [done|]. simpl. destruct (fltb _ _); [|done].
  rewrite IH. apply perm_swap.
Qed.

Lemma insert_row_descending r rs : Forall (λ r, is_nan (row_sharpe r) = false) (r :: rs) →
  StronglySorted (λ a b, fltb (row_sharpe a) (row_sharpe b) = false) rs →
  StronglySorted (λ a b, fltb (row_sharpe a) (row_sharpe b) = false) (insert_row r rs).
Proof.
  induction rs as [|q rs IH]; intros Hn Hs; simpl; [by repeat constructor|].
  apply Forall_cons in Hn as [Hr [Hq Hrs]%Forall_cons]. apply StronglySorted_inv in Hs as [Hs Hall].
  destruct (fltb (row_sharpe r) (row_sharpe q)) eqn:E.
  - constructor; [by apply IH; [constructor|]|]. rewrite insert_row_permutation. constructor; [by apply fltb_asym|done].
  - constructor; [by constructor|]. constructor; [done|]. rewrite Forall_forall in Hall, Hrs. apply Forall_forall.
    intros x Hx. apply (fltb_false_trans _ (row_sharpe q)); auto.
Qed.

#[export] Instance sorting_ref_laws : @SortingLaws sorting_ref.
Proof.
  assert (∀ rs, foldr insert_row [] rs ≡ₚ rs) as Hp.
  { induction rs as [|r rs IH]; [done|]. simpl. by rewrite insert_row_permutation, IH. }
  split; [exact Hp|]. intros rs Hn. simpl. induction rs as [|r rs IH]; [constructor|]. simpl.
  inversion Hn; subst. apply insert_row_descending; [|by apply IH]. by rewrite Hp.
Qed.

Lemma exhaustive_finds_best_witness :
  let main := mkFrame [1; 2; 3; 4; 5] [("price", of_Z <$> [9; 12; 11; 30; 20]); ("factor", of_Z <$> [9; 12; 11; 30; 20])] in
  let config := mkStrategyConfig "btc" "get_sma" momentum_band_signal 365 "id" "" "AND" [] in
  let data := [("btc", main)] in
  let s := SingleSpace [1; 2] [of_Z 10; of_Z 11] in
  ∃ o r, @for_config pandas_ref data config (spec_of s) None 0 = Ok o ∧
    @run_search pandas_ref numpy_ref reductions_ref sorting_ref tpe_ref data config s None 0 None = Ok r ∧
    Z.of_nat (length (op_grid r)) = 4 ∧
    match op_best r with
    | Some best => on_space s (row_point best) ∧ @valid_value numpy_ref reductions_ref o (row_point best) (row_sharpe best) ∧
        ∀ p v, on_space s p → @valid_value numpy_ref reductions_ref o p v → fltb (row_sharpe best) v = false
    | None => False
    end.
Proof.
  intros main config data s.
  destruct (@for_config pandas_ref data config (spec_of s) None 0) as [o|] eqn:Ho.
  2: { exfalso. vm_compute in Ho. discriminate. }
  destruct (@exhaustive_finds_best pandas_ref numpy_ref reductions_ref sorting_ref sorting_ref_laws tpe_ref
              data config s None 0 None 4 o eq_refl ltac:(vm_compute; discriminate) eq_refl Ho)
    as (r & Hr & Hn & Hb).
  exists o, r. split; [done|]. split; [exact Hr|]. split; [done|].
  destruct (op_best r) eqn:E; [done|]. exfalso. vm_compute in Hr. injection Hr as <-. discriminate.
Defined.

(** ** Walk-forward *)

Lemma walk_forward_split_parts data config ratio k main :
  walk_forward_split data config ratio = Ok k → main_frame data config = Ok main →
  (2 <= k)%nat ∧ (k + 2 <= length (f_index main))%nat.
Proof.
  unfold walk_forward_split. intros Hs Hm. destruct (negb _); [done|]. rewrite Hm, Ok_bind in Hs. cbv zeta in Hs.
  apply bind_Ok in Hs as (i & _ & Hs). destruct ((i <? 2) || _)%Z eqn:E; [done|]. injection Hs as <-.
  apply orb_false_iff in E as [H1%Z.ltb_ge H2%Z.leb_gt]. lia.
Qed.

Section walk_forward.
Context `{Pandas} `{Numpy} `{Reductions} `{Sorting} `{TPE}.

(** A completed run: the search and the in-sample metrics read the rows before
    the split, the out-of-sample metrics those after it. *)
Lemma walk_forward_run_parts data config ratio fee obs ws xs a :
  walk_forward_run data config ratio fee obs ws xs = Ok a → ∃ k opt,
    walk_forward_split data config ratio = Ok k ∧
    optimization_run (prod_map id (iloc_head k) <$> data) config ws xs fee obs None = Ok opt ∧
    best_params opt.1 opt.2 = Ok (wf_best a) ∧
    walk_forward_evaluate (prod_map id (iloc_head k) <$> data) config (wf_best a) fee obs = Ok (wf_is_metrics a) ∧
    walk_forward_evaluate (prod_map id (iloc_tail k) <$> data) config (wf_best a) fee obs = Ok (wf_oos_metrics a).
Proof.
  unfold walk_forward_run. intros (k & Hk & Ha)%bind_Ok. cbv zeta in Ha.
  apply bind_Ok in Ha as (opt & Hopt & Ha). apply bind_Ok in Ha as (best & Hbest & Ha).
  apply bind_Ok in Ha as (im & Him & Ha). apply bind_Ok in Ha as (om & Hom & Ha).
  apply bind_Ok in Ha as (full & _ & Ha). apply bind_Ok in Ha as (eq & _ & [= <-]).
  exists k, opt. by split_and!.
Qed.
End walk_forward.

(** C12. Walk-forward does not train on what it validates: the split leaves two
    bars at least on each side of it, and two histories that differ only in the
    rows after the split get the same best parameters and the same in-sample
    metrics. *)
Theorem walk_forward_trains_before_split `{Pandas} `{Numpy} `{Reductions} `{Sorting} `{TPE}
    data data' config ratio fee obs ws xs k main a b :
  walk_forward_split data config ratio = Ok k → walk_forward_split data' config ratio = Ok k →
  main_frame data config = Ok main →
  prod_map id (iloc_head k) <$> data = prod_map id (iloc_head k) <$> data' →
  walk_forward_run data config ratio fee obs ws xs = Ok a →
  walk_forward_run data' config ratio fee obs ws xs = Ok b →
  (2 <= k)%nat ∧ (k + 2 <= length (f_index main))%nat ∧ wf_best a = wf_best b ∧ wf_is_metrics a = wf_is_metrics b.
Proof.
  intros Hk Hk' Hm Hsame Ha Hb. destruct (walk_forward_split_parts _ _ _ _ _ Hk Hm) as [? ?].
  apply walk_forward_run_parts in Ha as (? & opt & Hka & Ho & Hbest & Him & _).
  apply walk_forward_run_parts in Hb as (? & opt' & Hkb & Ho' & Hbest' & Him' & _).
  rewrite Hk in Hka. rewrite Hk' in Hkb. simplify_eq. rewrite <-Hsame, Ho in Ho'. rewrite <-Hsame in Him'. simplify_eq.
  rewrite Hbest in Hbest'. simplify_eq. rewrite Hbest', Him' in Him. by simplify_eq.
Qed.

Lemma walk_forward_trains_before_split_witness :
  let bars (xs : list Z) :=
    [("btc", mkFrame [1; 2; 3; 4; 5; 6; 7; 8] [("price", of_Z <$> xs); ("factor", of_Z <$> xs)])] in
  let config := mkStrategyConfig "btc" "get_sma" momentum_band_signal 365 "id" "" "AND" [] in
  let ws := OneAxis [1; 2] in let xs := OneSignalAxis [of_Z 10; of_Z 11] in
  let data := bars [9; 12; 11; 30; 20; 40; 10; 9] in
  let data' := bars [9; 12; 11; 30; 70; 20; 10; 39] in
  let run d := @walk_forward_run pandas_ref numpy_ref reductions_ref sorting_ref tpe_ref d config
                 (of_decimal false 5 (-1)) None 0 ws xs in
  ∃ a b, run data = Ok a ∧ run data' = Ok b ∧ wf_best a = wf_best b ∧ wf_is_metrics a = wf_is_metrics b.
Proof.
  intros bars config ws xs data data' run.
  destruct (run data) as [a|] eqn:Ha; [|exfalso; vm_compute in Ha; discriminate].
  destruct (run data') as [b|] eqn:Hb; [|exfalso; vm_compute in Hb; discriminate].
  exists a, b.
  destruct (@walk_forward_trains_before_split pandas_ref numpy_ref reductions_ref sorting_ref tpe_ref data data'
    config (of_decimal false 5 (-1)) None 0 ws xs 4
    (mkFrame [1; 2; 3; 4; 5; 6; 7; 8] [("price", of_Z <$> [9; 12; 11; 30; 20; 40; 10; 9]);
                                        ("factor", of_Z <$> [9; 12; 11; 30; 20; 40; 10; 9])])
    a b ltac:(vm_compute; reflexivity) ltac:(vm_compute; reflexivity) eq_refl eq_refl Ha Hb) as (_ & _ & H1 & H2).
  exact (conj eq_refl (conj eq_refl (conj H1 H2))).
Defined.

(** The split cuts every frame at the row number of the traded product: on
    a history that the engine runs over whole, a factor quoted on more days than
    the product ends before the in-sample part of the product does, and the
    walk-forward test stops with the coverage error. *)
Theorem walk_forward_cuts_by_row :
  let weekdays := filter (λ d, d mod 7 < 5) (seqZ 0 42) in
  let config := mkStrategyConfig "spx" "get_sma" momentum_band_signal 252 "id" "" "AND"
                  [mkSubStrategy "get_sma" "momentum_band_signal" 2 (of_Z 100) "v" (Some "btc")] in
  let data := [("spx", mkFrame weekdays [("price", (λ d, of_Z (200 + d)) <$> weekdays)]);
               ("btc", mkFrame (seqZ 0 42) [("v", (λ d, of_Z (100 + d)) <$> seqZ 0 42)])] in
  let engine := p ← new_performance data config None None 5;
                e ← @enrich_performance pandas_ref numpy_ref reductions_ref p;
                @get_strategy_performance reductions_ref p e in
  (∃ metrics, engine = Ok metrics) ∧
  @walk_forward_run pandas_ref numpy_ref reductions_ref sorting_ref tpe_ref data config
    (of_decimal false 5 (-1)) None 5 (OneAxis [2]) (OneSignalAxis [of_Z 100])
  = Raise (ValueError ("Factor 'btc' covers only 73% of main product 'spx' dates (15 vs 15 trading days). " +:+
      "Cannot use a product with fewer trading days as a factor for a product with more trading days.")).
Proof. intros weekdays config data engine. split; [eexists; vm_compute; reflexivity|vm_compute; reflexivity]. Qed.
