(* ===== verification/Exposure.v ===== *)
(** * The positions a backtest can hold

    What [enrich_performance] of [quant/strategy/performance.py] may put in its
    position and turnover columns, whatever the prices: every signal direction
    and every conjunction stays within long, short, flat and unknown, and a
    strategy of long-only directions is never short. *)
From S2P Require Import Prelude PyFloat PyData Errors PyValue Signals StrategyConfig Frames Performance.
Local Open Scope string_scope.
Local Open Scope Z_scope.

(** A history pandas would accept, with the traded product in it. *)
Record history_ok (data : all_frames) (config : StrategyConfig) (main : frame) : Prop := {
  ho_main : main_frame data config = Ok main;
  ho_frames cusip f : dict_get cusip data = Some f → frame_ok f
}.

Lemma history_main_ok data config main : history_ok data config main → frame_ok main.
Proof.
  intros [Hm Hf]. unfold main_frame, get_frame in Hm.
  destruct (dict_get _ data) as [f|] eqn:E; [|done]. injection Hm as <-. by eapply Hf.
Qed.

(** A history shares its past with itself. *)
Lemma same_past_refl k data config main : history_ok data config main →
  same_past k config data data main main.
Proof.
  intros Ho. pose proof (history_main_ok _ _ _ Ho) as Hok. destruct Ho as [Hm Hf].
  split; try done.
  - split; [done|]. intros name c d Hc Hd. by simplify_eq.
  - intros cusip f g _ Hfc Hgc. simplify_eq. split_and!; [by eapply Hf..|].
    intros name c d Hc Hd. by simplify_eq.
Qed.

Definition long_only (f : signal_func) : bool :=
  match f with
  | momentum_band_signal_long_only | reversion_band_signal_long_only
  | momentum_bounded_signal_long_only | reversion_bounded_signal_long_only => true
  | _ => false
  end.

(** All the directions the strategy signals with are long-only. *)
Definition all_long_only (p : Performance) : Prop :=
  if is_multi p then Forall (λ s, ∃ f, resolve_sub_signal s = Ok f ∧ long_only f = true) (pf_subs p)
  else long_only (sc_signal_func (pf_config p)) = true.

(** The turnover of one bar. *)
Definition turnover_value (t : float) : Prop := t ∈ [fzero; fone; of_Z 2; fnan].

Lemma position_cases x : position_value x → x = fone ∨ x = fminus_one ∨ x = fzero ∨ x = fnan.
Proof. unfold position_value. rewrite !elem_of_cons, elem_of_nil. tauto. Qed.

Lemma position_values : position_value fone ∧ position_value fminus_one ∧ position_value fzero ∧ position_value fnan.
Proof. split_and!; by repeat constructor. Qed.

Lemma unless_nan_values f xs : (∀ x, position_value (f x)) → Forall position_value (unless_nan f xs).
Proof.
  intros Hf. apply Forall_map, Forall_forall. intros x _. destruct (is_nan x); [apply position_values|apply Hf].
Qed.

Lemma long_only_values xs : Forall position_value xs →
  Forall position_value (_long_only xs) ∧ fminus_one ∉ _long_only xs.
Proof.
  intros Hx. assert (Forall (λ x, position_value x ∧ x ≠ fminus_one) (_long_only xs)) as Hl.
  { apply Forall_map. eapply Forall_impl; [exact Hx|]. intros x Hv. cbv beta.
    apply position_cases in Hv as [->|[->|[->| ->]]]; (split; [apply position_values|discriminate]). }
  split; [eapply Forall_impl; [exact Hl|]; by intros x []|].
  intros Hin. rewrite Forall_forall in Hl. by destruct (Hl _ Hin).
Qed.

(** Every signal direction produces positions, a long-only one no short. *)
Lemma call_signal_values f xs x : Forall position_value (call_signal f xs x) ∧
  (long_only f = true → fminus_one ∉ call_signal f xs x).
Proof.
  assert (∀ (b b' : bool) (u v w : float), position_value u → position_value v → position_value w →
    position_value (if b then u else if b' then v else w)) as Hif by (by intros [] []).
  pose proof position_values as (H1 & Hm & Hz & Hn).
  assert (Forall position_value (momentum_band xs x) ∧ Forall position_value (reversion_band xs x) ∧
          Forall position_value (momentum_bounded xs x) ∧ Forall position_value (reversion_bounded xs x))
    as (A & B & C & D) by (split_and!; apply unless_nan_values; intros y; by apply Hif).
  destruct f; simpl; try done; destruct (long_only_values _ A), (long_only_values _ B),
    (long_only_values _ C), (long_only_values _ D); by split.
Qed.

(** ** Combined positions *)

Lemma strongest_in r c v : strongest_of r c v → v ∈ r.
Proof. intros (i & ci & Hr & _). by eapply list_elem_of_lookup_2. Qed.

Lemma agreement_value r c v : Forall position_value r → r ≠ [] → agreement r c v →
  position_value v ∧ (fminus_one ∉ r → v ≠ fminus_one).
Proof.
  intros Hr Hne Hv. rewrite Forall_forall in Hr. pose proof position_values as (H1 & Hm & Hz & Hn).
  destruct Hv as [[_ ->]|[[Hall ->]|[[_ ->]|(_ & Ho & Hmi & Hc)]]]; try (split; [done|discriminate]).
  - split; [done|]. intros Hno. destruct r as [|x r]; [done|].
    apply Forall_cons in Hall as [-> _]. destruct Hno. by left.
  - split; [|done]. destruct c as [c|]; [|by subst]. by apply Hr, (strongest_in _ c).
Qed.

Lemma combined_value conj r c v : Forall position_value r → (2 <= length r)%nat → combined conj r c v →
  position_value v ∧ (fminus_one ∉ r → v ≠ fminus_one).
Proof.
  intros Hr Hl Hv. pose proof position_values as (H1 & Hm & Hz & Hn). unfold combined in Hv.
  case_decide; [subst; split; [done|discriminate]|].
  destruct (String.eqb conj "FILTER"); [|destruct (String.eqb conj "AND")].
  - destruct r as [|g r]; [done|]. apply Forall_cons in Hr as [_ Hr].
    destruct Hv as [[_ ->]|[_ Hv]]; [split; [done|discriminate]|].
    destruct r as [|d [|e r]]; [simpl in Hl; lia| |].
    + subst. apply Forall_cons in Hr as [Hd _]. split; [done|]. intros Hno ->. apply Hno. right. left.
    + destruct (agreement_value _ _ _ Hr ltac:(done) Hv) as [? Hs]. split; [done|].
      intros Hno. apply Hs. intros Hin. apply Hno. by right.
  - apply (agreement_value r c v Hr); [by destruct r; simpl in Hl; [lia|]|done].
  - destruct Hv as [(_ & _ & ->)|[(_ & Hi & ->)|[(_ & _ & ->)|(_ & Hi & Hc)]]]; try (split; [done|done || discriminate]).
    rewrite Forall_forall in Hr. split; [|done]. destruct c as [c|]; [|by subst]. by apply Hr, (strongest_in _ c).
Qed.

Lemma turnover_of_positions x y : position_value x → position_value y →
  turnover_value (if is_nan x then fnan else if is_nan y then fzero else fabs (fsub x y)).
Proof.
  intros Hx Hy. apply (bool_decide_unpack _).
  by apply position_cases in Hx as [->|[->|[->| ->]]]; apply position_cases in Hy as [->|[->|[->| ->]]].
Qed.

(** ** The engine's positions *)

Section engine.
Context `{PandasLaws} `{NumpyLaws} `{ReductionLaws}.
Context (data : all_frames) (config : StrategyConfig) (main : frame).
Context (Ho : history_ok data config main).
Context (cost : float) (obs : Z) (subs : list SubStrategy) (ws : list Z) (xs : list float) (mw : Z).
Abbreviation p := (mkPerformance config cost obs subs data main ws xs mw).
Abbreviation n := (length (f_index main)).

(** One factor's columns have a reading per bar, its positions are positions. *)
Lemma factor_outputs_values i sub o : factor_outputs p i sub = Ok o →
  length o.1.2 = n ∧ length o.2 = n ∧ Forall position_value o.2 ∧
  ((∃ f, resolve_sub_signal sub = Ok f ∧ long_only f = true) → fminus_one ∉ o.2).
Proof.
  intros Hok.
  destruct (factor_outputs_agree 0 config data data main main (same_past_refl 0 data config main Ho)
              cost obs subs ws xs mw i sub o o Hok Hok) as (_ & (_ & Hi & _) & (_ & Hs & _)).
  split; [done|]. split; [done|].
  unfold factor_outputs in Hok. apply bind_Ok in Hok as (vals & _ & Hok).
  apply bind_Ok in Hok as (w & _ & Hok). apply bind_Ok in Hok as (x & _ & Hok).
  apply bind_Ok in Hok as (ip & Hip & [= <-]). unfold indicator_and_position in Hip.
  apply bind_Ok in Hip as (d & _ & Hip). apply bind_Ok in Hip as (v & _ & Hip).
  apply bind_Ok in Hip as (f & Hf & [= <-]). cbn [snd].
  destruct (call_signal_values f v x) as [Hv Hl]. split; [done|].
  intros (f' & Hf' & Hlo). rewrite Hf in Hf'. simplify_eq. by apply Hl.
Qed.

Lemma outputs_values l outs : mapM (λ s, factor_outputs p s.1 s.2) l = Ok outs →
  Forall (λ o, length o.1.2 = n ∧ length o.2 = n ∧ Forall position_value o.2) outs ∧
  (Forall (λ s, ∃ f, resolve_sub_signal s.2 = Ok f ∧ long_only f = true) l →
   Forall (λ o, fminus_one ∉ o.2) outs).
Proof.
  revert outs. induction l as [|[i s] l IH]; intros outs; cbn [mapM]; [by intros [= <-]|].
  intros (o & Hoo & (os & Hos & [= <-])%bind_Ok)%bind_Ok.
  destruct (factor_outputs_values _ _ _ Hoo) as (H1' & H2' & H3' & H4'). destruct (IH os Hos) as [IH1 IH2].
  split; [by constructor|]. intros [Hs Hl]%Forall_cons. constructor; auto.
Qed.

Lemma combine_positions_values positions conj ss out :
  (2 <= length positions)%nat → length ss = length positions →
  Forall (λ c, length c = n) positions → Forall (λ c, length c = n) ss →
  Forall (Forall position_value) positions →
  combine_positions positions conj (Some ss) = Ok out →
  length out = n ∧ Forall position_value out ∧
  (Forall (λ c, fminus_one ∉ c) positions → fminus_one ∉ out).
Proof.
  intros Hl Hls Hp Hs Hv Hout.
  destruct (existsb (String.eqb (upper conj)) ["AND"; "OR"; "FILTER"]) eqn:Hconj.
  2: { exfalso. destruct positions as [|a [|b ps]]; simpl in Hl; try lia.
       unfold combine_positions in Hout. cbv zeta in Hout. by rewrite Hconj in Hout. }
  rewrite (combine_positions_rows n) in Hout by done. injection Hout as <-.
  rewrite List.length_map, length_seq. split; [done|].
  assert (∀ i, i ∈ seq 0 n → let v := combine_row (upper conj) (row_at positions i) (Some (convictions_at ss i)) in
    position_value v ∧ (Forall (λ c, fminus_one ∉ c) positions → v ≠ fminus_one)) as Hrow.
  { intros i [_ Hi]%elem_of_seq. cbv zeta.
    assert (Forall (λ c, nth i c fnan ∈ c) positions) as Hnth.
    { eapply Forall_impl; [exact Hp|]. intros c Hc. cbv beta in Hc.
      apply list_elem_of_In, nth_In. lia. }
    assert (Forall position_value (row_at positions i)) as Hr.
    { apply Forall_map, Forall_forall. intros c Hc. rewrite Forall_forall in Hv, Hnth.
      specialize (Hv c Hc). rewrite Forall_forall in Hv. by apply Hv, Hnth. }
    assert (2 <= length (row_at positions i))%nat as Hlen by (unfold row_at; by rewrite List.length_map).
    destruct (combined_value (upper conj) (row_at positions i) (Some (convictions_at ss i))
      (combine_row (upper conj) (row_at positions i) (Some (convictions_at ss i))) Hr Hlen) as [Hval Hsh].
    { apply combine_row_combined; [done|done|]. by apply convictions_convinced. }
    split; [done|]. intros Hno. apply Hsh. intros (c & Hc & Hin)%list_elem_of_fmap.
    rewrite Forall_forall in Hno, Hnth. apply (Hno c Hin). rewrite Hc. by apply Hnth. }
  split.
  - apply Forall_map, Forall_forall. intros i Hi. by apply Hrow.
  - intros Hno (i & Hi & Hin)%list_elem_of_fmap. by destruct (Hrow i Hin) as [_ Hne]; destruct (Hne Hno).
Qed.

Lemma single_outputs_values d out : compute_single_factor_outputs p = Ok (d, out) →
  Forall position_value out ∧ (long_only (sc_signal_func config) = true → fminus_one ∉ out).
Proof.
  unfold compute_single_factor_outputs. intros (d1 & _ & H2')%bind_Ok.
  apply bind_Ok in H2' as (ta & _ & H2'). apply bind_Ok in H2' as (fac & _ & H2').
  apply bind_Ok in H2' as (w & _ & H2'). apply bind_Ok in H2' as (v & _ & H2').
  apply bind_Ok in H2' as (x & _ & H2'). cbv zeta in H2'. unfold mret, res_ret in H2'.
  injection H2' as _ <-. apply call_signal_values.
Qed.

Lemma final_position_values d out : final_position p = Ok (d, out) →
  length out = n ∧ Forall position_value out ∧ (all_long_only p → fminus_one ∉ out).
Proof.
  intros Hf. assert (length out = n) as Hlen.
  { by destruct (final_position_agree 0 config data data main main (same_past_refl 0 data config main Ho)
      cost obs subs ws xs mw (d, out) (d, out) Hf Hf) as [_ (_ & ? & _)]. }
  split; [done|]. unfold final_position, all_long_only in *.
  destruct (is_multi p) eqn:Hm; [|by apply single_outputs_values in Hf].
  apply bind_Ok in Hf as ([[d0 outs] c] & Hc & Hf). injection Hf as _ ->.
  unfold compute_multi_factor_outputs in Hc. apply bind_Ok in Hc as (d1 & _ & Hc).
  apply bind_Ok in Hc as (outs' & Houts & Hc). apply bind_Ok in Hc as (c & Hcomb & Hc).
  injection Hc as _ -> ->. cbn [pf_subs pf_config] in *.
  pose proof (mapM_length _ _ _ Houts) as Hl. rewrite length_imap in Hl.
  destruct (outputs_values _ _ Houts) as [Hvals Hlong].
  unfold is_multi in Hm. apply Nat.ltb_lt in Hm. cbn [pf_subs] in Hm.
  destruct (combine_positions_values (map snd outs) (sc_conjunction config) (map (λ o, o.1.2) outs) out)
    as (_ & Hv & Hno); rewrite ?List.length_map; try done; try lia.
  1-3: apply Forall_map; eapply Forall_impl; [exact Hvals|]; by intros o (? & ? & ?).
  split; [done|]. intros Hall. apply Hno, Forall_map, Hlong.
  apply Forall_forall. intros q (j & s & -> & Hj)%elem_of_lookup_imap_1. cbn [snd].
  rewrite Forall_forall in Hall. apply Hall. by eapply list_elem_of_lookup_2.
Qed.

Lemma enrich_position e : enrich_performance p = Ok e →
  ∃ d, final_position p = Ok (d, en_final_position e) ∧
    ∃ x l, en_final_position e = x :: l ∧ en_prior e = fnan :: removelast (x :: l) ∧
    en_trade e = zip_with (λ p q, if is_nan p then fnan else if is_nan q then fzero else fabs (fsub p q))
                   (x :: l) (fnan :: removelast (x :: l)).
Proof.
  unfold enrich_performance. intros ([d out] & Hf & He)%bind_Ok.
  apply bind_Ok in He as (price & _ & He). cbv zeta in He. apply bind_Ok in He as ([[q t] r] & Hpnl & He).
  unfold strategy_pnl in Hpnl. destruct out as [|x l]; [done|]. cbv zeta in Hpnl.
  apply bind_Ok in Hpnl as (g & _ & Hpnl). apply bind_Ok in Hpnl as (r' & _ & [= <- <- <-]).
  unfold _compound in He. injection He as <-. exists d. split; [done|]. by exists x, l.
Qed.
End engine.

(** C11. The exposure of a backtest is bounded: over any history pandas accepts,
    the position column has one entry per bar of the traded product, each long,
    short, flat or unknown, and a strategy whose directions are all long-only is
    never short. *)
Theorem position_states `{PandasLaws} `{NumpyLaws} `{ReductionLaws} data config main ps fee obs p e :
  history_ok data config main → new_performance data config ps fee obs = Ok p → enrich_performance p = Ok e →
  length (en_final_position e) = length (f_index main) ∧ Forall position_value (en_final_position e) ∧
  (all_long_only p → fminus_one ∉ en_final_position e).
Proof.
  intros Hok Hp He. unfold new_performance in Hp. rewrite (ho_main _ _ _ Hok), Ok_bind in Hp.
  apply bind_Ok in Hp as (wx & _ & Hp). apply bind_Ok in Hp as (mw & _ & [= <-]).
  apply enrich_position in He as (d & Hf & _). by apply (final_position_values _ _ _ Hok) in Hf.
Qed.

(** Turnover is bounded and lags by one bar: the position that earns a bar's
    return is the one decided on the bar before, unknown on the first, and the
    turnover fees are charged on is zero, one or two, or unknown. *)
Theorem turnover_bounds `{PandasLaws} `{NumpyLaws} `{ReductionLaws} data config main ps fee obs p e :
  history_ok data config main → new_performance data config ps fee obs = Ok p → enrich_performance p = Ok e →
  Forall turnover_value (en_trade e) ∧ length (en_trade e) = length (f_index main) ∧
  head (en_prior e) = Some fnan ∧
  ∀ i, (S i < length (f_index main))%nat → en_prior e !! S i = en_final_position e !! i.
Proof.
  intros Hok Hp He. unfold new_performance in Hp. rewrite (ho_main _ _ _ Hok), Ok_bind in Hp.
  apply bind_Ok in Hp as (wx & _ & Hp). apply bind_Ok in Hp as (mw & _ & [= <-]).
  apply enrich_position in He as (d & Hf & x & l & Hx & Hprior & Htrade).
  apply (final_position_values _ _ _ Hok) in Hf as (Hlen & Hv & _). rewrite Hx in Hlen, Hv.
  destruct (exists_last (l:=x :: l) ltac:(done)) as (l' & y & Hl). rewrite Hprior, Htrade, Hx.
  rewrite Hl, removelast_last in *. rewrite length_app in Hlen. simpl in Hlen. split_and!.
  - eapply (Forall_zip_with_fst _ position_value); [exact Hv|]. apply Forall_app in Hv as [Hv _].
    constructor; [intros q Hq; by apply turnover_of_positions; [|apply position_values]|].
    eapply Forall_impl; [exact Hv|]. intros q Hq r Hr. by apply turnover_of_positions.
  - rewrite length_zip_with, length_app. simpl. lia.
  - done.
  - intros i Hi. simpl. by rewrite lookup_app_l by lia.
Qed.

(** A long-only strategy of two factors over one history. *)
Section run.
Definition run_bars : frame :=
  mkFrame [1; 2; 3; 4] [("price", of_Z <$> [9; 12; 11; 30]); ("factor", of_Z <$> [9; 12; 11; 30])].
Definition run_config : StrategyConfig :=
  mkStrategyConfig "btc" "get_sma" momentum_band_signal 365 "id" "" "OR"
    [mkSubStrategy "get_sma" "momentum_band_signal_long_only" 2 (of_Z 11) "factor" None;
     mkSubStrategy "get_ema" "reversion_band_signal_long_only" 2 (of_Z 60) "price" None].

Lemma run_history : history_ok [("btc", run_bars)] run_config run_bars.
Proof.
  split; [reflexivity|]. intros cusip f. simpl. case_decide; [|done]. intros [= <-].
  split; [by apply (bool_decide_unpack _)|]. intros name c. simpl. repeat case_decide; intros [= <-]; reflexivity.
Qed.

Lemma run_enriched : ∃ p e, new_performance [("btc", run_bars)] run_config None None 0 = Ok p ∧
  @enrich_performance pandas_ref numpy_ref reductions_ref p = Ok e ∧
  bool_decide (fone ∈ en_final_position e) = true ∧ all_long_only p.
Proof.
  assert (match new_performance [("btc", run_bars)] run_config None None 0 with
          | Ok p => match @enrich_performance pandas_ref numpy_ref reductions_ref p with
                    | Ok e => bool_decide (fone ∈ en_final_position e)
                    | Raise _ => false
                    end
          | Raise _ => false
          end = true) as Hrun by (vm_compute; reflexivity).
  destruct (new_performance [("btc", run_bars)] run_config None None 0) as [p|] eqn:Hp; [|discriminate Hrun].
  destruct (@enrich_performance pandas_ref numpy_ref reductions_ref p) as [e|] eqn:He; [|discriminate Hrun].
  exists p, e. split; [reflexivity|]. split; [exact He|]. split; [exact Hrun|].
  injection Hp as <-. unfold all_long_only.
  match goal with |- if ?b then _ else _ => change b with true end. cbn [pf_subs].
  constructor; [|constructor; [|constructor]].
  - exists momentum_band_signal_long_only. split; reflexivity.
  - exists reversion_band_signal_long_only. split; reflexivity.
Qed.
End run.

Lemma position_states_witness : ∃ p e, @enrich_performance pandas_ref numpy_ref reductions_ref p = Ok e ∧
  length (en_final_position e) = 4%nat ∧ Forall position_value (en_final_position e) ∧
  fminus_one ∉ en_final_position e.
Proof.
  destruct run_enriched as (p & e & Hp & He & _ & Hl). exists p, e. split; [exact He|].
  destruct (@position_states pandas_ref pandas_ref_laws numpy_ref numpy_ref_laws reductions_ref reductions_ref_laws
              _ _ _ None None 0 p e run_history Hp He) as (Hn & Hv & Hs).
  split; [exact Hn|]. split; [exact Hv|]. exact (Hs Hl).
Defined.

Lemma turnover_bounds_witness : ∃ p e, @enrich_performance pandas_ref numpy_ref reductions_ref p = Ok e ∧
  Forall turnover_value (en_trade e) ∧ length (en_trade e) = 4%nat.
Proof.
  destruct run_enriched as (p & e & Hp & He & _). exists p, e. split; [exact He|].
  destruct (@turnover_bounds pandas_ref pandas_ref_laws numpy_ref numpy_ref_laws reductions_ref reductions_ref_laws
              _ _ _ None None 0 p e run_history Hp He) as (Hv & Hn & _).
  split; [exact Hv|]. exact Hn.
Defined.
