(* ===== verification/BacktestCache.v ===== *)
(** * The dataset cache

    [quant/data/backtest_cache.py]: provider series kept as versions of
    [MARKET_DATA.API_REQUEST].  The stored procedures and the conversions of
    pandas between records and frames are parameters; labels are UTC instants in
    microseconds. *)
From S2P Require Import Prelude PyFloat PyData Errors PyValue Intervals RefData BarFetcher BarService.
From S2P Require Import Signals StrategyConfig Frames.
Local Open Scope string_scope.
Local Open Scope Z_scope.

(** A row of the current version. *)
Record api_row := mkApiRow {
  aq_id : option string; aq_start : option Z; aq_end : option Z; aq_payload : pyval
}.

(** The key of a cached series. *)
Record api_key := mkApiKey {
  ak_app_id : Z; ak_app_metric_id : Z; ak_tm_interval_id : Z; ak_cusip : string
}.

Record api_write := mkApiWrite {
  aw_id : string; aw_key : api_key; aw_product_grp_id : option Z; aw_start : Z; aw_end : Z;
  aw_payload : pyval
}.

Class CacheDb (W : Type) := {
  sp_get_api_request : api_key → prog W exn (list api_row);
  sp_reserve_api_call : Z → prog W exn unit;
  sp_ins_api_request : api_write → prog W exn unit;
  (** [str(uuid.uuid4())] *)
  new_uuid : prog W exn string;
  (** [refdata.setting_int("default_tm_interval_id")] *)
  default_tm_interval_id : prog W exn Z;
  (** [refdata.get(table)] of the cache's own reader *)
  cache_table : string → prog W exn (list pyval)
}.

Class PandasIO := {
  (** [pd.Timestamp(text)], a naive one read as UTC *)
  pd_timestamp : string → res exn Z;
  (** [pd.DataFrame(payload)] indexed by its [datetime] column in order of time;
      nothing without that column *)
  frame_of_records : pyval → res exn (option frame);
  (** [reset_index().to_dict(orient="records")] with the index as text *)
  records_of_frame : frame → pyval
}.

(** ** Rows of a frame *)

(** The rows at the given places. *)
Definition pick_rows (keep : list nat) (f : frame) : frame :=
  mkFrame (map (λ i, nth i (f_index f) 0) keep)
    (map (λ nc, (nc.1, map (λ i, nth i nc.2 fnan) keep)) (f_columns f)).

(** [df.loc[a:b]] *)
Definition loc_between (a b : Z) (f : frame) : frame :=
  pick_rows (filter (λ i, a <= nth i (f_index f) 0 ∧ nth i (f_index f) 0 <= b) (seq 0 (length (f_index f)))) f.

(** [df.empty] *)
Definition frame_empty (f : option frame) : bool :=
  match f with
  | None => true
  | Some f => (length (f_index f) =? 0)%nat || (length (f_columns f) =? 0)%nat
  end.

(** [strftime] to the second *)
Definition to_second (us : Z) : Z := us - us mod SECOND.

Definition labels_to_second (f : frame) : frame := mkFrame (map to_second (f_index f)) (f_columns f).

(** [CacheMissError]: a missing end of the cached range has no date. *)
Definition CacheMissError (cusip req_start req_end : string) (cached : option (Z * option Z)) : exn :=
  match cached with
  | None => plain CCacheMissError
      ("No cached data for " +:+ repr_str cusip +:+ " covering [" +:+ req_start +:+ ", " +:+ req_end +:+
       "]. Tick 'Refresh dataset' to fetch from the provider.")
  | Some (lo, Some hi) => plain CCacheMissError
      ("Cached range for " +:+ repr_str cusip +:+ " is [" +:+ str_date lo +:+ ", " +:+ str_date hi +:+
       "] which does not cover requested [" +:+ req_start +:+ ", " +:+ req_end +:+
       "]. Tick 'Refresh dataset' to fetch from the provider.")
  | Some (_, None) => AttributeError "'NoneType' object has no attribute 'date'"
  end.

Section cache.
Context {W : Type} `{CacheDb W} `{PandasIO}.

(** [_to_utc] of a request's bound *)
Definition to_utc (text : string) : res exn (option Z) :=
  match text with "" => Ok None | _ => t ← pd_timestamp text; mret (Some t) end.

(** [_payload_to_df]; nothing stands for a frame without the time index. *)
Definition payload_to_df (payload : pyval) : res exn (option frame) :=
  if truthy payload then frame_of_records payload else Ok None.

(** [_lookup_current] *)
Definition lookup_current (k : api_key) : prog W exn (option string * option Z * option Z * option frame) :=
  existing ← sp_get_api_request k;
  match existing with
  | [] => mret (None, None, None, None)
  | row :: _ => df ← lift_res (payload_to_df (aq_payload row)); mret (aq_id row, aq_start row, aq_end row, df)
  end.

(** [tm_interval_id or default_tm_interval_id()] *)
Definition interval_or_default (i : option Z) : prog W exn Z :=
  match i with Some i => mret i | None => default_tm_interval_id end.

(** [x <= y] with a bound that may be missing *)
Definition le_bound (x : Z) (y : option Z) : res exn bool :=
  match y with
  | Some y => Ok (x <=? y)
  | None => Raise (TypeError "'<=' not supported between instances of 'Timestamp' and 'NoneType'")
  end.
Definition ge_bound (x : Z) (y : option Z) : res exn bool :=
  match y with
  | Some y => Ok (y <=? x)
  | None => Raise (TypeError "'>=' not supported between instances of 'Timestamp' and 'NoneType'")
  end.

(** [df.loc[a:b]] of a frame that may lack the time index *)
Definition loc_time (df : option frame) (a b : Z) : res exn (option frame) :=
  match df with
  | Some f => Ok (Some (loc_between a b f))
  | None => Raise (TypeError "cannot do slice indexing on RangeIndex with these indexers of type Timestamp")
  end.

(** [read_payload] *)
Definition read_payload (app_id app_metric_id : Z) (cusip range_start range_end : string)
    (tm_interval_id : option Z) : prog W exn (option frame) :=
  interval ← interval_or_default tm_interval_id;
  req_start ← lift_res (to_utc range_start);
  req_end ← lift_res (to_utc range_end);
  cached ← catch
    (c ← lookup_current (mkApiKey app_id app_metric_id interval cusip);
     mret (c.1.1.2, c.1.2, c.2))
    (λ e, if isinstance e CRuntimeError then mret (None, None, None) else raise e);
  let '(cached_start, cached_end, cached_df) := cached in
  covers ← lift_res
    match cached_start, cached_end with
    | Some lo, Some hi =>
        b ← le_bound lo req_start;
        if (b : bool) then ge_bound hi req_end else mret false
    | _, _ => mret false
    end;
  if (covers : bool) then
    match req_start, req_end with
    | Some a, Some b => lift_res (loc_time cached_df a b)
    | _, _ => mret None
    end
  else raise (CacheMissError cusip range_start range_end ((λ lo, (lo, cached_end)) <$> cached_start)).

(** [refresh_payload] *)
Definition refresh_payload (app_id app_metric_id : Z) (cusip range_start range_end : string)
    (fetcher : string → string → prog W exn (option frame))
    (product_grp_id tm_interval_id : option Z) : prog W exn (option frame) :=
  interval ← interval_or_default tm_interval_id;
  req_start ← lift_res (to_utc range_start);
  req_end ← lift_res (to_utc range_end);
  let k := mkApiKey app_id app_metric_id interval cusip in
  cached ← lookup_current k;
  fetched ← fetcher range_start range_end;
  if frame_empty fetched then mret None
  else
    match fetched with
    | None => mret None
    | Some f =>
        api_req_id ← match cached.1.1.1 with Some i => mret i | None => new_uuid end;
        match req_start, req_end with
        | Some a, Some b =>
            _ ← sp_ins_api_request (mkApiWrite api_req_id k product_grp_id (to_second a) (to_second b)
                                      (records_of_frame (labels_to_second f)));
            lift_res (loc_time (Some f) a b)
        | _, _ => raise (AttributeError "'NoneType' object has no attribute 'strftime'")
        end
    end.
End cache.

(** ** Slices *)

Lemma filter_fmap_list {A B} (f : A → B) (P : B → Prop) `{!∀ x, Decision (P x)} (l : list A) :
  filter P (f <$> l) = f <$> filter (λ x, P (f x)) l.
Proof.
  induction l as [|x l IH]; [done|]. rewrite fmap_cons, !filter_cons, IH.
  by destruct (decide (P (f x))).
Qed.

(** Picking by position from mapped columns is filtering the places. *)
Lemma pick_places {B} (g : nat → Z) (h : nat → B) (P : Z → Prop) `{!∀ x, Decision (P x)} d (keep : list nat) :
  map (λ j, nth j (map h keep) d) (filter (λ j, P (nth j (map g keep) 0)) (seq 0 (length keep)))
  = map h (filter (λ i, P (g i)) keep).
Proof.
  induction keep as [|i keep IH]; [done|]. cbn [length seq map]. rewrite <-seq_shift.
  change (map S ?l) with (S <$> l). rewrite !filter_cons. cbn [nth].
  assert (map (λ j, nth j (h i :: map h keep) d)
            (filter (λ j, P (nth j (g i :: map g keep) 0)) (S <$> seq 0 (length keep)))
          = map h (filter (λ i, P (g i)) keep)) as Htail.
  { rewrite filter_fmap_list. change (map ?f (S <$> ?l)) with (f <$> (S <$> l)).
    rewrite <-list_fmap_compose. exact IH. }
  destruct (decide (P (g i))); simpl; [f_equal|]; exact Htail.
Qed.

(** A slice of a slice is the inner slice. *)
Lemma loc_between_nested a b c d f : a <= c → d <= b →
  loc_between c d (loc_between a b f) = loc_between c d f.
Proof.
  intros Hac Hdb. unfold loc_between at 1. set (idx := f_index f). set (g := λ i, nth i idx 0).
  set (Q := λ i, a <= g i ∧ g i <= b). set (keep := filter Q (seq 0 (length idx))).
  assert (filter (λ i, c <= g i ∧ g i <= d) keep = filter (λ i, c <= g i ∧ g i <= d) (seq 0 (length idx))) as Hk.
  { unfold keep. apply list_filter_filter_l. unfold Q. lia. }
  unfold loc_between, pick_rows. fold idx. cbn [f_index f_columns].
  change (filter (λ i, a <= nth i idx 0 ∧ nth i idx 0 <= b) (seq 0 (length idx))) with keep.
  rewrite !List.length_map. f_equal.
  - etransitivity; [exact (pick_places g g (λ z, c <= z ∧ z <= d) 0 keep)|]. exact (f_equal (map g) Hk).
  - rewrite map_map. apply map_ext. intros [name col]. cbn [fst snd]. f_equal.
    etransitivity; [exact (pick_places g (λ i, nth i col fnan) (λ z, c <= z ∧ z <= d) fnan keep)|].
    exact (f_equal (map (λ i, nth i col fnan)) Hk).
Qed.

(** ** What is refreshed is what is read *)

(** A frame a payload can hold: labels once each, in order and to the second,
    full columns of numbers. *)
Definition storable (f : frame) : Prop :=
  f_index f ≠ [] ∧ f_columns f ≠ [] ∧ StronglySorted Z.lt (f_index f) ∧
  Forall (λ t, t mod SECOND = 0) (f_index f) ∧
  Forall (λ nc, length nc.2 = length (f_index f) ∧ Forall (λ x, is_nan x = false) nc.2) (f_columns f).

Class PandasIOLaws `{PandasIO} := {
  records_roundtrip f : storable f → truthy (records_of_frame f) = true ∧
    frame_of_records (records_of_frame f) = Ok (Some f)
}.

(** The insert procedure makes its row the current version of its key. *)
Class CacheLaws (W : Type) `{CacheDb W} := {
  insert_is_current k g i a b payload s s' :
    sp_ins_api_request (mkApiWrite i k g a b payload) s = (Ok tt, s') →
    ∃ rest s'', sp_get_api_request k s' = (Ok (mkApiRow (Some i) (Some a) (Some b) payload :: rest), s'')
}.

Section laws.
Context {W : Type} `{CacheLaws W} `{PandasIOLaws}.

Lemma labels_to_second_id f : storable f → labels_to_second f = f.
Proof.
  intros (_ & _ & _ & Hs & _). destruct f as [idx cols]. unfold labels_to_second. f_equal. simpl in *.
  induction Hs as [|t idx Ht _ IH]; [done|]. simpl. rewrite IH. f_equal. unfold to_second. lia.
Qed.

Lemma frame_empty_storable f : storable f → frame_empty (Some f) = false.
Proof. intros (Hi & Hc & _). unfold frame_empty. by destruct (f_index f), (f_columns f). Qed.
End laws.

(** What a refresh returns is what the cache serves afterwards: once a
    refresh of a range has stored the provider's answer, every range within it
    is read back as the slice of the frame the refresh returned, without the
    provider. *)
Theorem refresh_then_read {W} `{CacheLaws W} `{PandasIOLaws} app metric cusip rs re a b fetcher g i f s s' :
  to_utc rs = Ok (Some a) → to_utc re = Ok (Some b) → a mod SECOND = 0 → b mod SECOND = 0 →
  (∀ t d t', fetcher rs re t = (Ok (Some d), t') → storable d) →
  refresh_payload app metric cusip rs re fetcher g (Some i) s = (Ok (Some f), s') →
  ∀ rs' re' a' b', to_utc rs' = Ok (Some a') → to_utc re' = Ok (Some b') → a <= a' → b' <= b →
  ∃ s'', read_payload app metric cusip rs' re' (Some i) s' = (Ok (Some (loc_between a' b' f)), s'').
Proof.
  intros Ha Hb Ha0 Hb0 Hfetch Hr rs' re' a' b' Ha' Hb' Hlo Hhi. unfold refresh_payload in Hr.
  unfold interval_or_default in Hr. cbv iota in Hr. rewrite mret_bind, lift_bind, Ha, lift_bind, Hb in Hr. cbv zeta in Hr.
  apply bind_inv in Hr as (cached & s1 & _ & Hr). apply bind_inv in Hr as (d & s2 & Hd & Hr).
  destruct (frame_empty d); [done|]. destruct d as [d|]; [|done]. specialize (Hfetch _ _ _ Hd).
  apply bind_inv in Hr as (id & s3 & _ & Hr). apply bind_inv in Hr as ([] & s4 & Hins & Hr).
  unfold lift_res, loc_time in Hr. injection Hr as <- <-.
  destruct (insert_is_current _ _ _ _ _ _ _ _ Hins) as (rest & s5 & Hget). exists s5.
  rewrite (labels_to_second_id d Hfetch) in Hget. destruct (records_roundtrip d Hfetch) as [Ht Hrec].
  assert (to_second a = a ∧ to_second b = b) as [Ea Eb] by (unfold to_second; lia).
  unfold read_payload, interval_or_default. cbv iota. rewrite mret_bind, lift_bind, Ha', lift_bind, Hb'.
  erewrite bind_ok.
  2: { unfold catch. erewrite bind_ok.
       2: { unfold lookup_current. rewrite (bind_ok _ _ _ _ _ Hget). rewrite lift_bind.
            cbn [aq_payload]. unfold payload_to_df. by rewrite Ht, Hrec. }
       reflexivity. }
  cbn [fst snd aq_id aq_start aq_end]. rewrite Ea, Eb, lift_bind. unfold le_bound, ge_bound. res_simpl.
  rewrite (proj2 (Z.leb_le a a') Hlo), (proj2 (Z.leb_le b' b) Hhi). cbn.
  unfold lift_res, loc_time. by rewrite loc_between_nested.
Qed.

(** ** A run *)

Section run.
Definition ints_of (v : pyval) : list Z :=
  match v with VList l => omap (λ x, match x with VInt z => Some z | _ => None end) l | _ => [] end.
Definition floats_of (v : pyval) : list float :=
  match v with VList l => omap (λ x, match x with VFloat f => Some f | _ => None end) l | _ => [] end.

(** Frames kept column by column. *)
Definition columnar_io : PandasIO := {|
  pd_timestamp text := match int_of_str text with
                       | Some z => Ok z
                       | None => Raise (ValueError "Unknown datetime string format")
                       end;
  frame_of_records v :=
    match v with
    | VList [idx; VDict cols] => Ok (Some (mkFrame (ints_of idx) (prod_map id floats_of <$> cols)))
    | _ => Ok None
    end;
  records_of_frame f :=
    VList [VList (VInt <$> f_index f); VDict (prod_map id (λ c, VList (VFloat <$> c)) <$> f_columns f)]
|}.

#[export] Instance columnar_io_laws : @PandasIOLaws columnar_io.
Proof.
  assert (∀ l : list Z, omap (λ x, match x with VInt z => Some z | _ => None end) (VInt <$> l) = l) as Hi
    by (induction l as [|x l IH]; [done|]; simpl; f_equal; exact IH).
  assert (∀ l : list float, omap (λ x, match x with VFloat f => Some f | _ => None end) (VFloat <$> l) = l) as Hf
    by (induction l as [|x l IH]; [done|]; simpl; f_equal; exact IH).
  split. intros [idx cols] _. split; [done|].
  unfold frame_of_records, records_of_frame, columnar_io, ints_of. rewrite Hi. do 3 f_equal. cbn [f_columns].
  rewrite <-list_fmap_compose. transitivity (id <$> cols); [|by rewrite list_fmap_id].
  apply list_fmap_ext. intros i [name c] _. unfold compose, prod_map, floats_of, id. cbn [fst snd]. by rewrite Hf.
Qed.

(** The table: the current rows by key, and how many ids were drawn. *)
Definition table : Type := list (api_key * api_row) * nat.

#[export] Instance api_key_eq_dec : EqDecision api_key.
Proof. solve_decision. Defined.

Definition table_db : CacheDb table := {|
  sp_get_api_request k s := (Ok (match dict_get k s.1 with Some r => [r] | None => [] end), s);
  sp_reserve_api_call _ s := (Ok tt, s);
  sp_ins_api_request w s :=
    (Ok tt, (dict_set (aw_key w) (mkApiRow (Some (aw_id w)) (Some (aw_start w)) (Some (aw_end w)) (aw_payload w)) s.1, s.2));
  new_uuid s := (Ok (str_Z (Z.of_nat s.2)), (s.1, S s.2));
  default_tm_interval_id s := (Ok 1, s);
  cache_table _ s := (Ok [], s)
|}.

#[export] Instance table_db_laws : @CacheLaws table table_db.
Proof.
  split. intros k g i a b payload s s' Hins. injection Hins as <-. exists [], (dict_set k (mkApiRow (Some i) (Some a) (Some b) payload) s.1, s.2).
  cbn. by rewrite dict_get_set.
Qed.
End run.

Lemma refresh_then_read_witness :
  let d := mkFrame [0; 1000000; 2000000; 3000000] [("price", of_Z <$> [7; 8; 9; 6])] in
  let provider (_ _ : string) : prog table exn (option frame) := λ s, (Ok (Some d), s) in
  ∃ f s, @refresh_payload table table_db columnar_io 1 2 "btc" "0" "2000000" provider None (Some 3) ([], O)
         = (Ok (Some f), s) ∧
    ∃ s', @read_payload table table_db columnar_io 1 2 "btc" "1000000" "2000000" (Some 3) s
          = (Ok (Some (loc_between 1000000 2000000 f)), s').
Proof.
  intros d provider. eexists _, _. split; [vm_compute; reflexivity|].
  eapply (@refresh_then_read table table_db table_db_laws columnar_io columnar_io_laws 1 2 "btc" "0" "2000000"
           0 2000000 provider None 3 _ ([], O) _ eq_refl eq_refl eq_refl eq_refl).
  - intros t e t' [= <- <-]. split_and!; try discriminate.
    + repeat (constructor; [|repeat (constructor; [lia|]); constructor]); constructor.
    + repeat constructor.
    + repeat constructor.
  - vm_compute. reflexivity.
  - reflexivity.
  - reflexivity.
  - lia.
  - lia.
Defined.
