(* ===== verification/BacktestData.v ===== *)
(** * The series a backtest runs on

    The fetching half of [quant/strategy/backtest_service.py]: where each series
    comes from, an exchange's own bars or a provider through the dataset cache,
    and the coverage every run needs.  Providers are parameters; the stored bars
    are read through what [PriceBarService] offers. *)
From S2P Require Import Prelude PyFloat PyData Order Errors PyValue Instruments Intervals RefData TradeRepo.
From S2P Require Import BarFetcher BarService LiveApply Signals StrategyConfig Frames BacktestCache.
Local Open Scope string_scope.
Local Open Scope Z_scope.

(** What a backtest asks of the reference data it is handed: the rows of the
    catalog and of the policy tables, and the path of a provider's metric. *)
Class Catalog (W : Type) := {
  cat_table : string → prog W exn (list pyval);
  cat_config : string → prog W exn (list pyval);
  cat_metric_path : Z → string → prog W exn (option string)
}.

#[export] Instance snapshot_catalog {X} `{RedisRows X} : Catalog (refdata * X) := {|
  cat_table := rd_table;
  cat_config := rd_config;
  cat_metric_path app_id metric :=
    rows ← attempt (rd_table "app_metric"); lift_res (resolve_metric_path rows app_id metric)
|}.

(** What a backtest reads of a price bar service. *)
Class ExchangeBars (W : Type) := {
  bars_for_app : Z → prog W exn unit;
  bars_bounds : series → prog W exn (option (Z * Z));
  bars_read : series → Z → Z → prog W exn (list frame_row)
}.

#[export] Instance service_bars {W} `{BarStore W} `{ReferenceData W} : ExchangeBars W := {|
  bars_for_app := for_app;
  bars_bounds := stored_bounds;
  bars_read := read_bars
|}.

(** The provider classes of [quant.data.sources]. *)
Class Providers (W : Type) := {
  (** [getattr(_data_module, name)()], as the API key the object keeps *)
  provider_open : string → prog W exn string;
  (** whether [get_historical_price] takes a [metric_path] *)
  provider_takes_path : string → bool;
  (** the object's answer for a ticker and range: labels parsed from [t], the other columns *)
  provider_price : string → string → string → string → string → option string → prog W exn frame
}.

Definition empty_frame : frame := mkFrame [] [].

(** The canonical frame of stored bars. *)
Definition frame_of_rows (rows : list frame_row) : frame :=
  mkFrame (map fr_datetime rows)
    [("price", map fr_price rows); ("factor", map fr_factor rows); ("Open", map fr_open rows);
     ("High", map fr_high rows); ("Low", map fr_low rows); ("Close", map fr_close rows);
     ("Volume", map fr_volume rows)].

(** [df.sort_index()] *)
Definition sort_frame (f : frame) : frame :=
  pick_rows (sorted_by (λ i j, nth i (f_index f) 0 <=? nth j (f_index f) 0) (seq 0 (length (f_index f)))) f.

(** The frame built of a provider's answer. *)
Definition provider_frame (price : frame) : res exn frame :=
  v ← get_column price "v";
  mret (sort_frame (mkFrame (f_index price)
    ([("price", v); ("factor", v)] ++
     omap (λ col, (λ c, (col, c)) <$> dict_get col (f_columns price)) ["Open"; "High"; "Low"; "Close"; "Volume"]))).

(** [_stamp] *)
Definition stamp (us period : Z) : string :=
  if DAY <=? period then str_date us
  else str_date us +:+ " " +:+ pad_digits 2 (us mod DAY / HOUR) +:+ ":" +:+ pad_digits 2 (us mod HOUR / MINUTE).

(** [{row["name"]: row for row in rows}.get(name)] *)
Definition app_named (name : string) (rows : list pyval) : res exn (option pyval) :=
  names ← mapM (λ r, n ← getitem "name" r; mret (n, r)) rows;
  mret (snd <$> last (filter (λ nr, is_str name nr.1 = true) names)).

Section fetch.
Context {W : Type} `{Catalog W} `{ExchangeBars W} `{Providers W} `{CacheDb W} `{PandasIO}.
(** the instrument cache, whether a dataset cache and price bars are wired *)
Context (inst : option InstrumentCache) (bt_cache bar_services : bool).

(** [_interval_period] *)
Definition interval_period (tm_interval_id : Z) : prog W exn Z :=
  catch (rows ← cat_table "tm_interval"; lift_res (get_interval_period rows tm_interval_id))
    (λ _, raise (BacktestError ("REFDATA.TM_INTERVAL has no interval " +:+ str_Z tm_interval_id) 400)).

(** [_fetch_exchange_df] *)
Definition fetch_exchange_df (internal_cusip start end_ : string) (app : pyval) (vendor_symbol : option string)
    (tm_interval_id : Z) : prog W exn frame :=
  name ← lift_res (n ← getitem "name" app; mret (str_val n));
  if negb bar_services then
    raise (BacktestError (name +:+ " is an exchange, so its bars come from MARKET_DATA.PRICE_BAR, " +:+
      "but no price bar source is configured") 400)
  else
  match vendor_symbol with
  | None =>
      raise (BacktestError (internal_cusip +:+ " is not listed on " +:+ name +:+ " — no " +:+
        "INST.PRODUCT_XREF row maps it there, so that venue has no bars for it. Give this factor its own " +:+
        "data source; only the traded product has to follow the venue it executes on") 400)
  | Some _ =>
      app_id ← lift_res (v ← getitem "app_id" app; int_val v);
      period ← interval_period tm_interval_id;
      range_start ← lift_res (pd_timestamp start);
      range_end ← lift_res (pd_timestamp end_);
      _ ← catch (bars_for_app app_id) (λ e,
            raise (BacktestError (name +:+ " does not resolve to a venue this platform can read bars from: " +:+
                     exn_msg e) 400));
      let k := BarService.mkSeries internal_cusip tm_interval_id app_id in
      bounds ← bars_bounds k;
      match bounds with
      | None =>
          raise (BacktestError ("no " +:+ name +:+ " bars captured for " +:+ internal_cusip +:+ " at interval " +:+
            str_Z tm_interval_id +:+ " — subscribe to the series on the Data page and backfill it, then re-run") 400)
      | Some (first_bar, last_bar) =>
          if (range_start <? first_bar) || (last_bar + period <? range_end) then
            raise (BacktestError (name +:+ " bars for " +:+ internal_cusip +:+ " cover " +:+
              stamp first_bar period +:+ " to " +:+ stamp last_bar period +:+
              ", which does not span the requested " +:+ stamp range_start period +:+ " to " +:+
              stamp range_end period +:+ " — backfill the missing history on the Data page, or narrow the " +:+
              "range. A venue cannot serve history from before the pair listed there") 400)
          else
            rows ← bars_read k range_start range_end;
            match rows with
            | [] => raise (BacktestError ("no " +:+ name +:+ " bars for " +:+ internal_cusip +:+ " between " +:+
                      stamp range_start period +:+ " and " +:+ stamp range_end period) 400)
            | _ => mret (frame_of_rows rows)
            end
      end
  end.

(** [_provider_fetch] *)
Definition provider_fetch (app : pyval) (app_id : Z) (class_name src ticker metric_nm s e : string)
    : prog W exn frame :=
  metric_path ← cat_metric_path app_id metric_nm;
  let takes_path := provider_takes_path class_name in
  _ ← (if takes_path && negb (truthy_text metric_path) then
         name ← lift_res (n ← getitem "name" app; mret (str_val n));
         raise (BacktestError (name +:+ " has no METRIC_PATH for " +:+ repr_str metric_nm +:+
           ". The path is the REFDATA.APP_METRIC row for this data source.") 400)
       else mret tt);
  _ ← (if bt_cache then sp_reserve_api_call app_id else mret tt);
  price ← provider_price class_name src ticker s e (if takes_path then metric_path else None);
  lift_res (provider_frame price).

(** [fetch_df] *)
Definition fetch_df (symbol start end_ data_source : string) (refresh : bool) (tm_interval_id : option Z)
    (metric_nm : string) : prog W exn frame :=
  rows ← cat_table "app";
  app ← lift_res (app_named data_source rows);
  match app with
  | None => raise (ValueError ("Unknown data source: " +:+ repr_str data_source +:+ ". Check REFDATA.APP."))
  | Some app =>
      app_id ← lift_res (v ← getitem "app_id" app; int_val v);
      let vendor_symbol := match inst with Some c => resolve_internal_cusip c symbol app_id | None => None end in
      let ticker := default symbol (text_or vendor_symbol (Some symbol)) in
      ind ← lift_res (get "is_exchange_ind" app);
      name ← lift_res (n ← getitem "name" app; mret (str_val n));
      if is_str "Y" ind then
        match tm_interval_id with
        | None => raise (BacktestError (name +:+ " is an exchange, so a bar interval is required to say which " +:+
                           "captured series to read") 400)
        | Some i => fetch_exchange_df symbol start end_ app vendor_symbol i
        end
      else
        _ ← match tm_interval_id with
            | None => mret tt
            | Some i =>
                period ← interval_period i;
                if period <? DAY then
                  raise (BacktestError (name +:+ " is a data provider and only serves daily bars, so it cannot " +:+
                    "run a backtest on interval " +:+ str_Z i +:+ ". Pick the exchange that prints the series " +:+
                    "at this cadence, or run daily") 400)
                else mret tt
            end;
        class_name ← lift_res (n ← getitem "class_name" app; mret (str_val n));
        src ← provider_open class_name;
        let fetcher s e := provider_fetch app app_id class_name src ticker metric_nm s e in
        cached ← (if bt_cache then
                    metrics ← attempt (cache_table "app_metric");
                    lift_res (resolve_app_metric_id metrics app_id metric_nm)
                  else mret None);
        match cached with
        | Some metric_id =>
            df ← (if refresh
                  then refresh_payload app_id metric_id symbol start end_
                         (λ s e, f ← fetcher s e; mret (Some f)) None None
                  else read_payload app_id metric_id symbol start end_ None);
            mret (default empty_frame df)
        | None => fetcher start end_
        end
  end.

(** [_app_allows_refresh] *)
Fixpoint allows_refresh (rows : list pyval) (data_source : string) : res exn bool :=
  match rows with
  | [] => mret false
  | row :: rows' =>
      n ← get "name" row;
      if is_str data_source n then (v ← get "refresh_dataset_ind" row; mret (is_str "Y" v))
      else allows_refresh rows' data_source
  end.

(** The [_fetch] of [_build_data_dict] *)
Definition fetch_for (req : OptimizeRequest) (sym ds : string) : prog W exn frame :=
  source_refresh ← (if rq_refresh_dataset req
                    then rows ← cat_table "app"; lift_res (allows_refresh rows ds) else mret false);
  catch (fetch_df sym (rq_start req) (rq_end req) ds source_refresh (Some (rq_tm_interval_id req)) "price")
    (λ e, if isinstance e CCacheMissError then raise (BacktestError (exn_msg e) 400) else raise e).

(** The factors' series, those already loaded skipped. *)
Fixpoint fetch_factors (req : OptimizeRequest) (factors : list FactorConfig) (data : all_frames)
    : prog W exn all_frames :=
  match factors with
  | [] => mret data
  | f :: factors' =>
      match factor_cusip f with
      | Some cusip =>
          if nonempty cusip && negb (bool_decide (is_Some (dict_get cusip data))) then
            df ← fetch_for req cusip (default (rq_data_source req) (text_or (fc_data_source f) (Some (rq_data_source req))));
            fetch_factors req factors' (dict_set cusip df data)
          else fetch_factors req factors' data
      | None => fetch_factors req factors' data
      end
  end.
End fetch.

(** ** Date coverage *)

(** [idx.min()], [idx.max()] *)
Definition first_label (f : frame) : option Z :=
  match f_index f with [] => None | x :: xs => Some (foldl Z.min x xs) end.
Definition last_label (f : frame) : option Z :=
  match f_index f with [] => None | x :: xs => Some (foldl Z.max x xs) end.

(** The bounds of each frame, refusing one without rows. *)
Definition frame_bounds (data : all_frames) : res exn (list (string * (Z * Z))) :=
  mapM (λ nf : string * frame,
    match first_label nf.2, last_label nf.2 with
    | Some lo, Some hi =>
        if frame_empty (Some nf.2) then Raise (BacktestError ("No data returned for " +:+ repr_str nf.1 +:+ ".") 400)
        else Ok (nf.1, (lo, hi))
    | _, _ => Raise (BacktestError ("No data returned for " +:+ repr_str nf.1 +:+ ".") 400)
    end) data.

(** [max(d, key=d.get)]: the first of the greatest; [better x y] that [x] beats [y]. *)
Definition arg_best (better : Z → Z → bool) (d : list (string * Z)) : option (string * Z) :=
  match d with
  | [] => None
  | kv :: d => Some (foldl (λ best kv, if better kv.2 best.2 then kv else best) kv d)
  end.

(** [_enforce_date_sync] *)
Definition enforce_date_sync `{PandasIO} (data : all_frames) (req_start req_end : string) : res exn unit :=
  if (length data <=? 1)%nat then Ok tt
  else
    req_s ← pd_timestamp req_start;
    req_e ← pd_timestamp req_end;
    bounds ← frame_bounds data;
    let starts := prod_map id fst <$> bounds in
    let ends := prod_map id snd <$> bounds in
    match arg_best Z.gtb starts, arg_best Z.ltb ends with
    | Some (limiting_start, common_start), Some (limiting_end, common_end) =>
        if (req_s <? common_start) || (common_end <? req_e) then
          Raise (BacktestError ("Date ranges across products+factors do not align with requested [" +:+ req_start +:+
            ", " +:+ req_end +:+ "]. Common coverage = [" +:+ str_date common_start +:+ ", " +:+ str_date common_end +:+
            "]. Latest start: " +:+ repr_str limiting_start +:+ " (" +:+ str_date common_start +:+
            "); earliest end: " +:+ repr_str limiting_end +:+ " (" +:+ str_date common_end +:+
            "). Tick 'Refresh dataset' to fetch matching ranges.") 400)
        else Ok tt
    | _, _ => Raise (ValueError "max() iterable argument is empty")
    end.

(** [_build_data_dict] *)
Definition build_data_dict {W} `{Catalog W} `{ExchangeBars W} `{Providers W} `{CacheDb W} `{PandasIO}
    (inst : option InstrumentCache) (bt_cache bar_services : bool) (req : OptimizeRequest)
    : prog W exn all_frames :=
  main_df ← fetch_for inst bt_cache bar_services req (rq_symbol req) (rq_data_source req);
  data ← fetch_factors inst bt_cache bar_services req (rq_factors req) [(rq_symbol req, main_df)];
  _ ← lift_res (enforce_date_sync data (rq_start req) (rq_end req));
  mret data.

(** ** What the checks promise *)

Lemma foldl_best (better : Z → Z → bool) (kv : string * Z) d :
  (∀ x y z, better x y = false → better y z = false → better x z = false) →
  (∀ x y, better x y = true → better y x = false) → (∀ x, better x x = false) →
  let r := foldl (λ best kv, if better kv.2 best.2 then kv else best) kv d in
  r ∈ kv :: d ∧ ∀ k v, (k, v) ∈ kv :: d → better v r.2 = false.
Proof.
  intros Ht Ha Hi. cbv zeta. revert kv. induction d as [|[kq q] d IH]; intros [k0 v0]; simpl.
  { split; [left|]. intros k v Hk. apply elem_of_cons in Hk as [[= -> ->]|[]%elem_of_nil]. apply Hi. }
  destruct (IH (if better q v0 then (kq, q) else (k0, v0))) as [Hin Hmax]. clear IH.
  set (r := foldl _ _ d) in *. destruct (better q v0) eqn:E.
  - split; [by right|]. intros k v Hk. rewrite !elem_of_cons in Hk. destruct Hk as [[= -> ->]|[[= -> ->]|Hd]].
    + apply (Ht _ q); [by apply Ha|]. apply (Hmax kq). left.
    + apply (Hmax kq). left.
    + apply (Hmax k). by right.
  - split.
    { apply elem_of_cons in Hin as [->|Hin]; [left|do 2 right; done]. }
    intros k v Hk. rewrite !elem_of_cons in Hk. destruct Hk as [[= -> ->]|[[= -> ->]|Hd]].
    + apply (Hmax k0). left.
    + apply (Ht _ v0); [done|]. apply (Hmax k0). left.
    + apply (Hmax k). by right.
Qed.

Lemma arg_best_some better d : d ≠ [] →
  (∀ x y z, better x y = false → better y z = false → better x z = false) →
  (∀ x y, better x y = true → better y x = false) → (∀ x, better x x = false) →
  ∃ r, arg_best better d = Some r ∧ r ∈ d ∧ ∀ k v, (k, v) ∈ d → better v r.2 = false.
Proof.
  intros Hne Ht Ha Hi. destruct d as [|kv d]; [done|].
  destruct (foldl_best better kv d Ht Ha Hi) as [Hin Hmax]. eexists. split; [reflexivity|]. by split.
Qed.

(** A frame that spans a range. *)
Definition spans (lo hi : Z) (f : frame) : Prop :=
  frame_empty (Some f) = false ∧ ∃ a b, first_label f = Some a ∧ last_label f = Some b ∧ a <= lo ∧ hi <= b.

Lemma frame_bounds_ok data bounds : frame_bounds data = Ok bounds ↔
  Forall2 (λ nf nb, frame_empty (Some nf.2) = false ∧ nb.1 = nf.1 ∧
             first_label nf.2 = Some nb.2.1 ∧ last_label nf.2 = Some nb.2.2) data bounds.
Proof.
  unfold frame_bounds. revert bounds. induction data as [|[n f] data IH]; intros bounds; cbn [mapM fst snd].
  { split; [intros [= <-]; constructor|]. by inversion 1. }
  split.
  - intros (nb & Hnb & (bs & Hbs & [= <-])%bind_Ok)%bind_Ok. constructor; [|by apply IH].
    cbn [fst snd]. destruct (first_label f), (last_label f); try done. destruct (frame_empty (Some f)); [done|].
    by injection Hnb as <-.
  - inversion 1 as [|? [n' [a b]] ? bs (He & Hn & Ha & Hb) Hbs]; subst. cbn [fst snd] in *. subst.
    rewrite Ha, Hb, He, Ok_bind. apply IH in Hbs. by rewrite Hbs.
Qed.

Lemma frame_bounds_total data : (∀ nf, nf ∈ data → ∃ a b, first_label nf.2 = Some a ∧ last_label nf.2 = Some b ∧
  frame_empty (Some nf.2) = false) → ∃ bounds, frame_bounds data = Ok bounds.
Proof.
  intros Hd. unfold frame_bounds. induction data as [|[n f] data IH]; [by eexists|]. cbn [mapM].
  destruct (Hd (n, f)) as (a & b & Ha & Hb & He); [left|]. cbn [fst snd] in *. rewrite Ha, Hb, He, Ok_bind.
  destruct IH as [bs Hbs]; [intros nf Hin; apply Hd; by right|]. rewrite Hbs. by eexists.
Qed.

Section sync.
Context `{PandasIO}.

(** The two comparisons decide whether every series spans the range. *)
Lemma limits_span data bounds lo hi : bounds ≠ [] → frame_bounds data = Ok bounds →
  ∃ s e, arg_best Z.gtb (prod_map id fst <$> bounds) = Some s ∧ arg_best Z.ltb (prod_map id snd <$> bounds) = Some e ∧
    ((s.2 <= lo ∧ hi <= e.2) ↔ Forall (λ nf, spans lo hi nf.2) data).
Proof.
  intros Hne Hb. apply frame_bounds_ok in Hb.
  destruct (arg_best_some Z.gtb (prod_map id fst <$> bounds)) as (s & Hs & Hsin & Hsmax); try lia;
    [by destruct bounds|].
  destruct (arg_best_some Z.ltb (prod_map id snd <$> bounds)) as (e & He & Hein & Hemin); try lia;
    [by destruct bounds|].
  exists s, e. split; [done|]. split; [done|]. split.
  - intros [Hlo Hhi]. apply Forall_lookup. intros i nf Hnf.
    destruct (Forall2_lookup_l _ _ _ _ _ Hb Hnf) as ([n [a b]] & Hi & (Hemp & Hn & Ha & Hl)). cbn [fst snd] in *.
    split; [done|]. exists a, b. split_and!; [done|done| |].
    + assert ((n, a) ∈ prod_map id fst <$> bounds) as Hin
        by (apply list_elem_of_fmap; exists (n, (a, b)); split; [done|by eapply list_elem_of_lookup_2]).
      specialize (Hsmax n a Hin). lia.
    + assert ((n, b) ∈ prod_map id snd <$> bounds) as Hin
        by (apply list_elem_of_fmap; exists (n, (a, b)); split; [done|by eapply list_elem_of_lookup_2]).
      specialize (Hemin n b Hin). lia.
  - intros Hall. rewrite Forall_lookup in Hall.
    apply list_elem_of_fmap in Hsin as ([n [a b]] & -> & [i Hi]%list_elem_of_lookup).
    apply list_elem_of_fmap in Hein as ([m [c d]] & -> & [j Hj]%list_elem_of_lookup). cbn.
    destruct (Forall2_lookup_r _ _ _ _ _ Hb Hi) as ([? f] & Hf & (_ & _ & Ha & _)).
    destruct (Forall2_lookup_r _ _ _ _ _ Hb Hj) as ([? g] & Hg & (_ & _ & _ & Hd)). cbn [fst snd] in *.
    destruct (Hall _ _ Hf) as (_ & a' & b' & Ha' & _ & ? & _). destruct (Hall _ _ Hg) as (_ & c' & d' & _ & Hd' & _ & ?).
    cbn [fst snd] in *. simplify_eq. lia.
Qed.
End sync.

(** The coverage check is exact: two or more series pass it just when each
    has rows and reaches from the requested start to the requested end. *)
Theorem enforce_date_sync_exact `{PandasIO} data rs re lo hi : (2 <= length data)%nat →
  pd_timestamp rs = Ok lo → pd_timestamp re = Ok hi →
  enforce_date_sync data rs re = Ok tt ↔ Forall (λ nf, spans lo hi nf.2) data.
Proof.
  intros Hlen Hlo Hhi. unfold enforce_date_sync. rewrite (proj2 (Nat.leb_gt _ _)) by lia.
  rewrite Hlo, Hhi, !Ok_bind. destruct (frame_bounds data) as [bounds|x] eqn:Hb.
  - rewrite Ok_bind. cbv zeta. assert (bounds ≠ []) as Hne.
    { apply frame_bounds_ok, Forall2_length in Hb. intros ->. simpl in Hb. lia. }
    destruct (limits_span data bounds lo hi Hne Hb) as ([ls cs] & [le ce] & -> & -> & Hiff). cbn [snd] in Hiff.
    rewrite <-Hiff. destruct ((lo <? cs) || (ce <? hi)) eqn:E; (split; [|]); try done; lia.
  - split; [done|]. intros Hall. exfalso. rewrite Forall_forall in Hall.
    destruct (frame_bounds_total data) as [bs Hbs]; [|congruence]. intros nf Hnf.
    destruct (Hall nf Hnf) as (He & a & b & Ha & Hl & _). by exists a, b.
Qed.

(** An exchange's series is never substituted: when the named source is an
    exchange, what fetching does and returns is the same whatever the providers,
    the dataset cache and the refresh flag are. *)
Theorem exchange_never_substituted {W} `{Catalog W} `{ExchangeBars W} `{PandasIO}
    (P P' : Providers W) (C C' : CacheDb W) inst bt bt' services symbol s e ds refresh refresh' i metric metric'
    w rows app w' :
  cat_table "app" w = (Ok rows, w') → app_named ds rows = Ok (Some app) →
  get "is_exchange_ind" app = Ok (VStr "Y") →
  @fetch_df W _ _ P C _ inst bt services symbol s e ds refresh i metric w
  = @fetch_df W _ _ P' C' _ inst bt' services symbol s e ds refresh' i metric' w.
Proof.
  intros Hrows Happ Hind. unfold fetch_df. rewrite !(bind_ok _ _ _ _ _ Hrows), !lift_bind, Happ, !lift_bind.
  destruct (v ← getitem "app_id" app; int_val v) as [app_id|]; [|done]. rewrite !lift_bind, Hind, !lift_bind.
  destruct (n ← getitem "name" app; mret (str_val n)); [|done].
  change (is_str "Y" (VStr "Y")) with true. cbv iota. by destruct i.
Qed.

(** C13. A series read from an exchange is never quietly short: it is the stored
    bars of the requested range, not empty, and the store reaches back to the
    start of the range and to within one bar of its end. *)
Theorem exchange_series_covers {W} `{Catalog W} `{ExchangeBars W} `{PandasIO} services cusip s e app vendor i w f w' :
  fetch_exchange_df services cusip s e app vendor i w = (Ok f, w') →
  ∃ app_id period lo hi first last rows w1 w2,
    (v ← getitem "app_id" app; int_val v) = Ok app_id ∧ pd_timestamp s = Ok lo ∧ pd_timestamp e = Ok hi ∧
    (∃ w0 w0', interval_period i w0 = (Ok period, w0')) ∧
    bars_bounds (BarService.mkSeries cusip i app_id) w1 = (Ok (Some (first, last)), w2) ∧
    first <= lo ∧ hi <= last + period ∧
    bars_read (BarService.mkSeries cusip i app_id) lo hi w2 = (Ok rows, w') ∧ rows ≠ [] ∧ f = frame_of_rows rows.
Proof.
  unfold fetch_exchange_df. intros (name & w0 & _ & Hf)%bind_inv.
  destruct services; [|done]. cbv [negb] in Hf. destruct vendor as [v|]; [|done].
  apply bind_inv in Hf as (app_id & wa & Happ & Hf). apply bind_inv in Hf as (period & wb & Hp & Hf).
  apply bind_inv in Hf as (lo & wc & Hlo & Hf). apply bind_inv in Hf as (hi & wd & Hhi & Hf).
  apply bind_inv in Hf as ([] & we & _ & Hf). cbv zeta in Hf. apply bind_inv in Hf as (bounds & wf & Hb & Hf).
  destruct bounds as [[first last]|]; [|done].
  destruct ((lo <? first) || (last + period <? hi)) eqn:Hr; [done|].
  apply bind_inv in Hf as (rows & wg & Hrows & Hf). destruct rows as [|r rows]; [done|]. injection Hf as <- <-.
  unfold lift_res in Happ, Hlo, Hhi. injection Happ as Happ <-. injection Hlo as Hlo <-. injection Hhi as Hhi <-.
  exists app_id, period, lo, hi, first, last, (r :: rows), we, wf.
  split_and!; try done; try lia. by eexists _, _.
Qed.

(** ** A run *)

Section run.
(** Rows of the catalog: one exchange, daily bars. *)
Definition run_tables (table : string) : list pyval :=
  if String.eqb table "app" then
    [VDict [("name", VStr "bybit"); ("app_id", VInt 7); ("is_exchange_ind", VStr "Y")]]
  else if String.eqb table "tm_interval" then
    [VDict [("tm_interval_id", VInt 1); ("period_length", VStr "1 day, 0:00:00")]]
  else [].

Definition run_catalog : Catalog unit := {|
  cat_table t s := (Ok (run_tables t), s);
  cat_config t s := (Ok (run_tables t), s);
  cat_metric_path _ _ s := (Ok None, s)
|}.

Definition day_row (d : Z) : frame_row :=
  mkFrameRow (d * DAY) (of_Z 100) (of_Z 100) (of_Z 100) (of_Z 100) (of_Z 100) (of_Z 100) (of_Z 1).

(** Every series has the days 0 to 9. *)
Definition run_bars : ExchangeBars unit := {|
  bars_for_app _ s := (Ok tt, s);
  bars_bounds _ s := (Ok (Some (0, 9 * DAY)), s);
  bars_read _ a b s := (Ok (filter (λ r, a <= fr_datetime r ∧ fr_datetime r <= b) (day_row <$> seqZ 0 10)), s)
|}.

Definition no_providers : Providers unit := {|
  provider_open _ s := (Ok "", s);
  provider_takes_path _ := false;
  provider_price _ _ _ _ _ _ s := (Raise (RuntimeError "offline"), s)
|}.

Definition no_cache : CacheDb unit := {|
  sp_get_api_request _ s := (Ok [], s);
  sp_reserve_api_call _ s := (Ok tt, s);
  sp_ins_api_request _ s := (Ok tt, s);
  new_uuid s := (Ok "id", s);
  default_tm_interval_id s := (Ok 1, s);
  cache_table t s := (Ok (run_tables t), s)
|}.

Definition run_inst : InstrumentCache :=
  cache_of [mkProduct 1 "btc" None None None; mkProduct 2 "eth" None None None]
           [mkXref 1 7 "BTCUSDT"; mkXref 2 7 "ETHUSDT"].

Definition run_request (factor : option string) : OptimizeRequest :=
  mkOptimize "btc" (str_Z 0) (str_Z (10 * DAY)) 365 (of_Z 10) "bybit" 1 false
    [mkFactor factor None None "price" "get_sma" "Momentum"
       (mkRange (of_Z 2) (of_Z 3) (of_Z 1)) (mkRange (of_Z 1) (of_Z 2) (of_Z 1))]
    None false fhalf.

Definition run_data (factor : option string) : res exn all_frames :=
  (@build_data_dict unit run_catalog run_bars no_providers no_cache columnar_io (Some run_inst) false true
     (run_request factor) tt).1.
End run.

(** The bar of slack is lost with a second product: an exchange series that
    ends one bar before the requested end is accepted on its own, and two such
    series, each accepted, are refused together by the coverage check. *)
Theorem tail_slack_lost :
  (∃ f, run_data None = Ok [("btc", f)]) ∧
  run_data (Some "eth") = Raise (BacktestError
    ("Date ranges across products+factors do not align with requested [0, 864000000000]. " +:+
     "Common coverage = [1970-01-01, 1970-01-10]. Latest start: 'btc' (1970-01-01); earliest end: 'btc' " +:+
     "(1970-01-10). Tick 'Refresh dataset' to fetch matching ranges.") 400).
Proof. split; [eexists; vm_compute; reflexivity|vm_compute; reflexivity]. Qed.

Lemma enforce_date_sync_exact_witness :
  let f n := mkFrame [0; 1; 2; n] [("price", of_Z <$> [1; 2; 3; 4])] in
  @enforce_date_sync columnar_io [("btc", f 8); ("eth", f 9)] "1" "8" = Ok tt ↔
  Forall (λ nf : string * frame, spans 1 8 nf.2) [("btc", f 8); ("eth", f 9)].
Proof.
  intros f. apply (@enforce_date_sync_exact columnar_io); [simpl; lia|reflexivity|reflexivity].
Defined.

Lemma exchange_never_substituted_witness :
  let fetch bt refresh metric := @fetch_df unit run_catalog run_bars no_providers no_cache columnar_io (Some run_inst)
    bt true "btc" "0" "1000" "bybit" refresh (Some 1) metric tt in
  fetch true true "price" = fetch false false "volume" ∧ ∃ f, fetch true true "price" = (Ok f, tt).
Proof.
  intros fetch. split; [|eexists; vm_compute; reflexivity].
  exact (@exchange_never_substituted unit run_catalog run_bars columnar_io no_providers no_providers no_cache no_cache
    (Some run_inst) true false true "btc" "0" "1000" "bybit" true false (Some 1) "price" "volume" tt
    (run_tables "app") _ tt eq_refl eq_refl eq_refl).
Defined.

Lemma exchange_series_covers_witness :
  let app := VDict [("name", VStr "bybit"); ("app_id", VInt 7); ("is_exchange_ind", VStr "Y")] in
  ∃ f first last, @fetch_exchange_df unit run_catalog run_bars columnar_io true "btc" "0" "864000000000" app
      (Some "BTCUSDT") 1 tt = (Ok f, tt) ∧
    @bars_bounds unit run_bars (BarService.mkSeries "btc" 1 7) tt = (Ok (Some (first, last)), tt) ∧
    first <= 0 ∧ 864000000000 <= last + DAY.
Proof.
  intros app.
  destruct (@fetch_exchange_df unit run_catalog run_bars columnar_io true "btc" "0" "864000000000" app
      (Some "BTCUSDT") 1 tt) as [[f|] []] eqn:Hf; [|vm_compute in Hf; discriminate].
  destruct (@exchange_series_covers unit run_catalog run_bars columnar_io true "btc" "0" "864000000000" app
      (Some "BTCUSDT") 1 tt f tt Hf) as (i & p & lo & hi & first & last & rows & w1 & w2 & _ & Hlo & Hhi & (w0 & w0' & Hp) &
      Hb & Hfirst & Hlast & _).
  vm_compute in Hlo, Hhi, Hp, Hb. injection Hlo as <-. injection Hhi as <-. injection Hp as <- _.
  injection Hb as <- <- _. exists f, 0, (9 * DAY). split; [reflexivity|]. split; [reflexivity|]. split; [lia|].
  vm_compute. discriminate.
Defined.
