(* ===== verification/BacktestService.v ===== *)
(** * Running a backtest

    [run_optimize], [run_performance] and [run_walk_forward] of
    [quant/strategy/backtest_service.py]: the data, the search, and the reports
    of the best parameters.  The plots of the search and the CSV text of a frame
    are not modelled. *)
From S2P Require Import Prelude PyFloat PyData Order Errors PyValue Instruments Intervals RefData TradeRepo.
From S2P Require Import BarFetcher BarService LiveApply Signals StrategyConfig Frames Performance Optimize.
From S2P Require Import BacktestCache BacktestData.
Local Open Scope string_scope.
Local Open Scope Z_scope.

(** A point of the equity curve. *)
Record EquityPoint := mkEquity {
  ep_datetime : string; ep_cumu : float; ep_buy_hold_cumu : float; ep_dd : float; ep_buy_hold_dd : float
}.

Record PerformanceResponse := mkPerfResponse {
  pr_strategy_metrics : list (string * pyval);
  pr_buy_hold_metrics : list (string * pyval);
  pr_equity_curve : list EquityPoint
}.

Record WalkForwardResponse := mkWfResponse {
  wr_best : params;
  wr_is_metrics : list (string * pyval);
  wr_oos_metrics : list (string * pyval);
  wr_overfitting_ratio : option float;
  wr_equity_curve : list EquityPoint;
  wr_split_date : string
}.

Record OptimizeResponse := mkOptimizeResponse {
  or_total_trials : Z;
  or_valid : Z;
  or_best : list (string * pyval);
  or_top10 : list (list (string * pyval));
  or_grid : list (list (string * pyval));
  or_performance : option PerformanceResponse;
  or_walk_forward : option WalkForwardResponse;
  or_walk_forward_error : option string
}.

(** The labels of the metric series, in its order. *)
Definition METRICS : list string :=
  ["Total Return"; "Annualized Return"; "Sharpe Ratio"; "Max Drawdown"; "Calmar Ratio"].

(** [NaN] read as [None] *)
Definition none_if_nan (x : float) : pyval := if is_nan x then VNone else VFloat x.

(** [series.replace({np.nan: None}).to_dict()] *)
Definition metrics_dict (xs : list float) : list (string * pyval) := zip METRICS (map none_if_nan xs).

(** A row of the grid as a dictionary. *)
Definition row_dict (s : SearchSpace) (r : result_row) : list (string * pyval) :=
  params_of s (row_point r) ++ [("sharpe", none_if_nan (row_sharpe r))].

(** The window and signal [_build_perf_response] reads from a row of the search
    or an explicit pair. *)
Definition perf_params (n_subs : nat) (best : list (string * pyval)) : res exn (option params) :=
  let w := default VNone (dict_get "window" best) in
  let s := default VNone (dict_get "signal" best) in
  match w with
  | VList ws =>
      match s with
      | VList ss => ws ← mapM int_val ws; ss ← mapM float_val ss; mret (Some (PerFactor ws ss))
      | _ => Raise (TypeError ("'" +:+ type_name s +:+ "' object is not iterable"))
      end
  | _ =>
      if (1 <? n_subs)%nat then
        let item k d i := default d (dict_get (k +:+ str_Z (Z.of_nat i)) best) in
        ws ← mapM (λ i, int_val (item "window_" w i)) (seq 0 n_subs);
        ss ← mapM (λ i, float_val (item "signal_" s i)) (seq 0 n_subs);
        mret (Some (PerFactor ws ss))
      else
        match w, s with
        | VNone, VNone => mret None
        | _, _ => w ← int_val w; s ← float_val s; mret (Some (Scalar w s))
        end
  end.

Section reports.
Context `{Pandas} `{Numpy} `{Reductions}.
(** [str] of a label *)
Context (str_stamp : Z → string).

(** The curve of the rows where the strategy's equity is known. *)
Definition equity_curve (index : list Z) (e : enriched) : list EquityPoint :=
  omap (λ r : Z * (float * float * (float * float)),
    let '(t, (cumu, bh, (dd, bh_dd))) := r in
    if is_nan cumu then None else Some (mkEquity (str_stamp t) cumu bh dd bh_dd))
  (zip index (zip (zip (en_cumu e) (en_buy_hold_cumu e)) (zip (en_dd e) (en_buy_hold_dd e)))).

(** [evaluate_performance] *)
Definition evaluate_performance (data : all_frames) (config : StrategyConfig) (ps : option params)
    (fee_bps : option float) (min_metric_obs : Z) : res exn (Performance * enriched) :=
  p ← new_performance data config ps fee_bps min_metric_obs;
  e ← enrich_performance p;
  mret (p, e).

(** [_build_perf_response] *)
Definition build_perf_response (data : all_frames) (config : StrategyConfig) (best : list (string * pyval))
    (fee_bps : option float) (min_metric_obs : Z) : res exn PerformanceResponse :=
  ps ← perf_params (length (get_substrategies config)) best;
  pe ← evaluate_performance data config ps fee_bps min_metric_obs;
  let '(p, e) := pe in
  strat ← get_strategy_performance p e;
  bh ← get_buy_hold_performance p e;
  mret (mkPerfResponse (metrics_dict strat ++ [("n_obs", VInt (get_metric_n_obs p e))]) (metrics_dict bh)
          (equity_curve (f_index (pf_main p)) e)).

Context `{Sorting} `{TPE}.

(** [_build_wf_response] *)
Definition build_wf_response (data : all_frames) (config : StrategyConfig) (windows : window_spec)
    (signals : signal_spec) (split_ratio : float) (fee_bps : option float) (min_metric_obs : Z)
    : res exn WalkForwardResponse :=
  split_idx ← walk_forward_split data config split_ratio;
  main ← main_frame data config;
  result ← walk_forward_run data config split_ratio fee_bps min_metric_obs windows signals;
  mret (mkWfResponse (wf_best result) (metrics_dict (wf_is_metrics result)) (metrics_dict (wf_oos_metrics result))
    (if is_nan (wf_overfitting_ratio result) then None else Some (wf_overfitting_ratio result))
    (equity_curve (f_index main) (wf_full result))
    (match f_index main !! split_idx with Some t => str_stamp t | None => "" end)).
End reports.

(** [_build_param_ranges]: the axes of one factor, or a list for each of several. *)
Definition param_specs (np_arange : float → float → float → list float) (req : OptimizeRequest)
    : res exn (window_spec * signal_spec) :=
  axes ← build_param_ranges np_arange (rq_factors req);
  match axes with
  | [(ws, xs)] => mret (OneAxis ws, OneSignalAxis xs)
  | _ => mret (AxisPerFactor (map fst axes), SignalsPerFactor (map snd axes))
  end.

(** [max(int(f.window_range.max) for f in req.factors)] *)
Definition longest_window (factors : list FactorConfig) : res exn Z :=
  ws ← mapM (λ f, res_map_exn int_exn (trunc_int (rp_max (fc_window_range f)))) factors;
  py_max ws.

Section service.
Context {W : Type} `{Catalog W} `{ExchangeBars W} `{Providers W} `{CacheDb W} `{PandasIO}.
Context `{Pandas} `{Numpy} `{Reductions} `{Sorting} `{TPE}.
Context (inst : option InstrumentCache) (bt_cache bar_services : bool).
(** [str] of a label, [type(exc).__name__], [np.arange] and the id of a configuration *)
Context (str_stamp : Z → string) (exn_name : exn → string).
Context (np_arange : float → float → float → list float) (strategy_id : string).

(** [cache.setting_int(name)] *)
Definition config_int (name : string) : prog W exn Z :=
  rows ← cat_config "setting"; lift_res (setting_int rows name).

(** [require_scoreable_sample] *)
Definition require_scoreable_sample (data : all_frames) (req : OptimizeRequest) : prog W exn unit :=
  f ← lift_res (get_frame data (rq_symbol req));
  let n := Z.of_nat (length (f_index f)) in
  w ← lift_res (longest_window (rq_factors req));
  min_metric_obs ← config_int "min_metric_obs";
  let need := w + min_metric_obs in
  if need <=? n then mret tt
  else
    rows ← cat_table "tm_interval";
    interval ← lift_res (interval_name rows (rq_tm_interval_id req));
    raise (BacktestError ("series has " +:+ str_Z n +:+ " " +:+ interval +:+ " bars; the grid needs at least " +:+
      str_Z need +:+ " (window " +:+ str_Z w +:+ " + " +:+ str_Z min_metric_obs +:+ " finite pnl bars)") 400).

(** [build_config(req, cache)] *)
Definition build_request_config (req : OptimizeRequest) : prog W exn StrategyConfig :=
  indicator_rows ← cat_table "indicator";
  signal_type_rows ← cat_table "signal_type";
  lift_res (build_config strategy_id indicator_rows signal_type_rows req).

(** What the search of [run_optimize] starts from. *)
Definition optimize_inputs (req : OptimizeRequest)
    : prog W exn (all_frames * StrategyConfig * (window_spec * signal_spec) * Z) :=
  data ← build_data_dict inst bt_cache bar_services req;
  _ ← require_scoreable_sample data req;
  config ← build_request_config req;
  specs ← lift_res (param_specs np_arange req);
  min_metric_obs ← config_int "min_metric_obs";
  mret (data, config, specs, min_metric_obs).

(** [str(exc).strip() or type(exc).__name__] *)
Definition error_text (e : exn) : string :=
  match strip (exn_msg e) with "" => exn_name e | t => t end.

(** The reports [run_optimize] adds to a search. *)
Definition optimize_response (data : all_frames) (config : StrategyConfig) (specs : window_spec * signal_spec)
    (req : OptimizeRequest) (min_metric_obs : Z) (s : SearchSpace) (result : OptimizeResult) : OptimizeResponse :=
  let best := match op_best result with Some row => row_dict s row | None => [] end in
  let fee := Some (rq_fee_bps req) in
  let performance :=
    if (0 <? op_n_valid result) && negb (bool_decide (best = [] :> list (string * pyval))) then
      match build_perf_response str_stamp data config best fee min_metric_obs with
      | Ok r => Some r
      | Raise _ => None
      end
    else None in
  let walk_forward :=
    if rq_walk_forward req && (0 <? op_n_valid result) then
      Some (build_wf_response str_stamp data config specs.1 specs.2 (rq_split_ratio req) fee min_metric_obs)
    else None in
  mkOptimizeResponse (Z.of_nat (length (op_grid result))) (op_n_valid result) best
    (map (row_dict s) (op_top10 result)) (map (row_dict s) (op_grid result)) performance
    (match walk_forward with Some (Ok r) => Some r | _ => None end)
    (match walk_forward with Some (Raise e) => Some (error_text e) | _ => None end).

(** [run_optimize] *)
Definition run_optimize (req : OptimizeRequest) : prog W exn OptimizeResponse :=
  inputs ← optimize_inputs req;
  let '(data, config, specs, min_metric_obs) := inputs in
  sr ← lift_res (optimization_run data config specs.1 specs.2 (Some (rq_fee_bps req)) min_metric_obs None);
  mret (optimize_response data config specs req min_metric_obs sr.1 sr.2).

(** [run_performance], the windows and signals of the request beside it *)
Definition run_performance (req : OptimizeRequest) (windows : list Z) (signals : list float)
    : prog W exn PerformanceResponse :=
  data ← build_data_dict inst bt_cache bar_services req;
  config ← build_request_config req;
  let n := length (rq_factors req) in
  if negb ((n =? length windows)%nat && (n =? length signals)%nat) then
    raise (BacktestError ("factors / windows / signals length mismatch: " +:+ str_Z (Z.of_nat n) +:+ " factors, " +:+
      str_Z (Z.of_nat (length windows)) +:+ " windows, " +:+ str_Z (Z.of_nat (length signals)) +:+ " signals.") 422)
  else
    let best := match windows, signals with
                | [w], [s] => [("window", VInt w); ("signal", VFloat s)]
                | _, _ => [("window", VList (map VInt windows)); ("signal", VList (map VFloat signals))]
                end in
    min_metric_obs ← config_int "min_metric_obs";
    lift_res (build_perf_response str_stamp data config best (Some (rq_fee_bps req)) min_metric_obs).

(** [run_walk_forward] *)
Definition run_walk_forward (req : OptimizeRequest) : prog W exn WalkForwardResponse :=
  data ← build_data_dict inst bt_cache bar_services req;
  config ← build_request_config req;
  specs ← lift_res (param_specs np_arange req);
  min_metric_obs ← config_int "min_metric_obs";
  lift_res (build_wf_response str_stamp data config specs.1 specs.2 (rq_split_ratio req) (Some (rq_fee_bps req))
              min_metric_obs).
End service.

(** ** The report of the best row *)

(** The dictionary of several factors' parameters from factor [k] on. *)
Definition numbered (k : nat) (wxs : list (Z * float)) : list (string * pyval) :=
  concat (imap (λ (i : nat) (wx : Z * float),
    [("window_" +:+ str_Z (Z.of_nat (k + i)), VInt wx.1); ("signal_" +:+ str_Z (Z.of_nat (k + i)), VFloat wx.2)]) wxs).

Lemma numbered_cons k w x wxs : numbered k ((w, x) :: wxs)
  = ("window_" +:+ str_Z (Z.of_nat k), VInt w) :: ("signal_" +:+ str_Z (Z.of_nat k), VFloat x) :: numbered (S k) wxs.
Proof.
  unfold numbered. cbn [imap concat app fst snd]. rewrite Nat.add_0_r. do 3 f_equal. apply imap_ext.
  intros i wx _. unfold compose. by rewrite Nat.add_succ_r.
Qed.

Lemma key_eq pre a b : pre +:+ a = pre +:+ b → a = b.
Proof. intros E. induction pre as [|c pre IH]; [done|]. injection E as E. by apply IH. Qed.

Lemma numbered_get k wxs i w x rest : wxs !! i = Some (w, x) →
  dict_get ("window_" +:+ str_Z (Z.of_nat (k + i))) (numbered k wxs ++ rest) = Some (VInt w) ∧
  dict_get ("signal_" +:+ str_Z (Z.of_nat (k + i))) (numbered k wxs ++ rest) = Some (VFloat x).
Proof.
  assert (∀ a b, "window_" +:+ a ≠ "signal_" +:+ b) as Hne by done.
  revert k i. induction wxs as [|[w0 x0] wxs IH]; intros k i Hi; [done|]. rewrite numbered_cons.
  destruct i as [|i]; simpl in Hi.
  - simplify_eq. rewrite Nat.add_0_r. cbn [app dict_get].
    rewrite decide_True by done. split; [done|]. rewrite decide_False by done. by rewrite decide_True.
  - rewrite Nat.add_succ_r, <-Nat.add_succ_l. destruct (IH (S k) i Hi) as [IH1 IH2].
    assert (str_Z (Z.of_nat (S k + i)) ≠ str_Z (Z.of_nat k)) as Hk
      by (intros E%str_Z_inj; lia).
    cbn [app dict_get]. split.
    + rewrite decide_False by (intros E%key_eq; congruence). by rewrite decide_False by done.
    + rewrite decide_False by (intros E; by apply (Hne _ _ (eq_sym E))).
      by rewrite decide_False by (intros E%key_eq; congruence).
Qed.

Lemma mapM_seq {A B} (F : nat → res exn B) (f : A → B) l :
  (∀ i x, l !! i = Some x → F i = Ok (f x)) → mapM F (seq 0 (length l)) = Ok (map f l).
Proof.
  revert F. induction l as [|x l IH]; intros F HF; [done|]. cbn [length seq map].
  rewrite <-seq_shift. cbn [mapM]. rewrite (HF 0%nat x eq_refl). res_simpl.
  assert (∀ js, mapM F (map S js) = mapM (λ i, F (S i)) js) as Hshift.
  { induction js as [|j js IHj]; [done|]. cbn [map mapM]. by rewrite IHj. }
  rewrite Hshift.
  rewrite (IH (λ i, F (S i))); [done|]. intros i y Hi. by apply (HF (S i) y).
Qed.

(** The parameters [point] stands for. *)
Definition point_params (s : SearchSpace) (p : point) : params :=
  match s with
  | SingleSpace _ _ => Scalar (nth 0 p.1 0) (nth 0 p.2 fnan)
  | MultiSpace _ => PerFactor p.1 p.2
  end.

(** The shape of a space for a number of factors. *)
Definition space_for (n : nat) (s : SearchSpace) : Prop :=
  match s with SingleSpace _ _ => n = 1%nat | MultiSpace axes => n = length axes ∧ (2 <= n)%nat end.

Lemma perf_params_row n s row : space_for n s → on_space s (row_point row) →
  perf_params n (row_dict s row) = Ok (Some (point_params s (row_point row))).
Proof.
  destruct row as [[ws xs] sharpe]. unfold row_dict, perf_params, point_params. cbn [row_point row_sharpe fst snd].
  destruct s as [aw ax|axes].
  - intros Hn [Hw Hx]. simpl in Hn. subst n. cbn [fst snd] in *. inversion Hw as [|w ? ws' ? _ Hw']; subst. inversion Hw'; subst. reflexivity.
  - intros [Hl Hn] [Hw Hx]. subst n. cbn [fst snd] in *. apply Forall2_length in Hw, Hx.
    change (params_of (MultiSpace axes) (ws, xs)) with (numbered 0 (zip ws xs)).
    set (d := (numbered 0 (zip ws xs) ++ [("sharpe", none_if_nan sharpe)])%list).
    assert (length (zip ws xs) = length axes) as Hz by (rewrite length_zip_with; lia).
    assert (∀ k, "window_" +:+ k ≠ "window" ∧ "signal_" +:+ k ≠ "window" ∧ "window_" +:+ k ≠ "signal" ∧
                 "signal_" +:+ k ≠ "signal") as Hne by (intros k; split_and!; discriminate).
    assert (∀ key k wxs, key = "window" ∨ key = "signal" →
      dict_get key (numbered k wxs ++ [("sharpe", none_if_nan sharpe)]) = None) as Hno.
    { intros key k wxs Hkey. revert k. induction wxs as [|[w x] wxs IH]; intros k.
      - by destruct Hkey as [->| ->].
      - rewrite numbered_cons. cbn [app dict_get]. destruct (Hne (str_Z (Z.of_nat k))) as (? & ? & ? & ?).
        rewrite !decide_False by (destruct Hkey as [->| ->]; congruence). apply IH. }
    unfold d. rewrite (Hno "window") by auto. rewrite (Hno "signal") by auto. cbn [default].
    rewrite (proj2 (Nat.ltb_lt 1 (length axes))) by lia. cbv zeta. rewrite <-Hz.
    rewrite (mapM_seq _ fst), (mapM_seq _ snd).
    + res_simpl. change (map ?f ?l) with (f <$> l). by rewrite fst_zip, snd_zip by lia.
    + intros i [w x] Hi. destruct (numbered_get 0 _ _ _ _ [("sharpe", none_if_nan sharpe)] Hi) as [_ H2].
      change (0 + i)%nat with i in H2. by rewrite H2.
    + intros i [w x] Hi. destruct (numbered_get 0 _ _ _ _ [("sharpe", none_if_nan sharpe)] Hi) as [H1 _].
      change (0 + i)%nat with i in H1. by rewrite H1.
Qed.

Lemma point_on_axes n s p : space_for n s → on_space s p → on_axes n (spec_of s) (point_params s p).
Proof.
  destruct p as [ws xs]. destruct s as [aw ax|axes]; cbn [point_params spec_of].
  - intros _ [Hw _]. cbn [fst snd] in *. inversion Hw as [|w ? ws' ? Hin Hw']; subst. by inversion Hw'; subst.
  - intros [Hl _] [Hw Hx]. cbn [fst snd] in *. split_and!.
    + by rewrite List.length_map.
    + by apply Forall2_length in Hx as ->.
    + apply Forall2_fmap_r. exact Hw.
Qed.

Lemma windows_of_point s p n : space_for n s → on_space s p →
  windows_of (point_params s p) = p.1 ∧ signals_of (point_params s p) = p.2.
Proof.
  destruct p as [ws xs]. destruct s as [aw ax|axes]; [|done]. intros _ [Hw Hx]. cbn [fst snd] in *.
  inversion Hw as [|w ? ws' ? _ Hw']; subst. inversion Hw'; subst.
  by inversion Hx as [|x ? xs' ? _ Hx']; subst; inversion Hx'; subst.
Qed.

(** C7. The headline is the search's: the Sharpe ratio in the report
    [_build_perf_response] makes of the best row of an exhaustive search is the
    Sharpe that row won with. *)
Theorem headline_sharpe `{Pandas} `{Numpy} `{Reductions} `{SortingLaws} `{TPE} str_stamp
    data config s fee obs n_trials tot o r best main resp :
  main_frame data config = Ok main → has_column main "factor" = true →
  space_for (length (get_substrategies config)) s →
  total s = Ok tot → tot <= default (Z.min tot OPTUNA_MAX_TRIALS) n_trials → distributions s = Ok () →
  for_config data config (spec_of s) fee obs = Ok o →
  run_search data config s fee obs n_trials = Ok r → op_best r = Some best →
  build_perf_response str_stamp data config (row_dict s best) fee obs = Ok resp →
  dict_get "Sharpe Ratio" (pr_strategy_metrics resp) = Some (VFloat (row_sharpe best)).
Proof.
  intros Hmain Hhas Hsp Ht Hn Hd Ho Hr Hbest Hresp.
  rewrite (run_search_exhaustive _ _ _ _ _ _ _ _ Ht Hn Hd Ho) in Hr.
  destruct (build_result_spec (rows_of o s)) as (r' & Hr' & _ & _ & Hb).
  { intros E. by rewrite E in Hr. }
  rewrite Hr in Hr'. injection Hr' as <-. rewrite Hbest in Hb. destruct Hb as [Hin _].
  apply rows_of_valid in Hin as [Hon [Hval Hfin]]. unfold build_perf_response in Hresp.
  rewrite (perf_params_row _ _ _ Hsp Hon), Ok_bind in Hresp. unfold evaluate_performance in Hresp.
  apply bind_Ok in Hresp as ([p e] & (p' & Hp & (e' & He & [= -> ->])%bind_Ok)%bind_Ok & Hresp).
  assert (pf_main p = main) as Hpm.
  { unfold new_performance in Hp. rewrite Hmain, Ok_bind in Hp. apply bind_Ok in Hp as (wx & _ & Hp).
    by apply bind_Ok in Hp as (mw & _ & [= <-]). }
  pose proof (objective_matches _ _ _ _ _ _ _ _ Ho Hp (point_on_axes _ _ _ Hsp Hon) ltac:(by rewrite Hpm)) as Hsh.
  destruct (windows_of_point _ _ _ Hsp Hon) as [Ew Ex]. rewrite Ew, Ex, Hval, He, Ok_bind in Hsh.
  injection Hsh as Hsh. unfold get_strategy_performance in Hresp.
  apply bind_Ok in Hresp as (strat & (total_return & _ & [= <-])%bind_Ok & Hresp).
  apply bind_Ok in Hresp as (bh & _ & [= <-]). cbn. rewrite <-Hsh. unfold none_if_nan.
  by rewrite (finite_not_nan _ Hfin).
Qed.

Lemma headline_sharpe_witness :
  let main := mkFrame [1; 2; 3; 4; 5] [("price", of_Z <$> [9; 12; 11; 30; 20]); ("factor", of_Z <$> [9; 12; 11; 30; 20])] in
  let config := mkStrategyConfig "btc" "get_sma" momentum_band_signal 365 "id" "" "AND" [] in
  let data := [("btc", main)] in
  let s := SingleSpace [1; 2] [of_Z 10; of_Z 11] in
  ∃ r best resp,
    @run_search pandas_ref numpy_ref reductions_ref sorting_ref tpe_ref data config s None 0 None = Ok r ∧
    op_best r = Some best ∧
    @build_perf_response pandas_ref numpy_ref reductions_ref str_Z data config (row_dict s best) None 0 = Ok resp ∧
    dict_get "Sharpe Ratio" (pr_strategy_metrics resp) = Some (VFloat (row_sharpe best)).
Proof.
  intros main config data s.
  destruct (@run_search pandas_ref numpy_ref reductions_ref sorting_ref tpe_ref data config s None 0 None) as [r|] eqn:Hr.
  2: { exfalso. vm_compute in Hr. discriminate. }
  destruct (op_best r) as [best|] eqn:Hb.
  2: { exfalso. vm_compute in Hr. injection Hr as <-. discriminate. }
  destruct (@build_perf_response pandas_ref numpy_ref reductions_ref str_Z data config (row_dict s best) None 0)
    as [resp|] eqn:Hresp.
  2: { exfalso. vm_compute in Hr. injection Hr as <-. injection Hb as <-. vm_compute in Hresp. discriminate. }
  destruct (@for_config pandas_ref data config (spec_of s) None 0) as [o|] eqn:Ho.
  2: { exfalso. vm_compute in Ho. discriminate. }
  exists r, best, resp. split; [reflexivity|]. split; [exact Hb|]. split; [exact Hresp|].
  exact (@headline_sharpe pandas_ref numpy_ref reductions_ref sorting_ref sorting_ref_laws tpe_ref str_Z
           data config s None 0 None 4 o r best main resp eq_refl eq_refl eq_refl eq_refl
           ltac:(vm_compute; discriminate) eq_refl Ho Hr Hb Hresp).
Defined.

(** ** A sample that passes the check *)

Section run.
(** Prices of ten days, none repeated. *)
Definition price_row (d : Z) : frame_row :=
  let p := of_Z (100 + (d * d * 7) mod 23 + d) in mkFrameRow (d * DAY) p p p p p p (of_Z 1).

Definition priced_bars : ExchangeBars unit := {|
  bars_for_app _ s := (Ok tt, s);
  bars_bounds _ s := (Ok (Some (0, 9 * DAY)), s);
  bars_read _ a b s := (Ok (filter (λ r, a <= fr_datetime r ∧ fr_datetime r <= b) (price_row <$> seqZ 0 10)), s)
|}.

Definition strategy_tables (table : string) : list pyval :=
  if String.eqb table "indicator" then
    [VDict [("method_name", VStr "get_sma"); ("is_bounded_ind", VStr "N")];
     VDict [("method_name", VStr "get_rsi"); ("is_bounded_ind", VStr "Y")]]
  else if String.eqb table "signal_type" then
    [VDict [("name", VStr "Momentum"); ("func_name_bounded", VStr "momentum_bounded_signal");
            ("func_name_band", VStr "momentum_band_signal")]]
  else if String.eqb table "setting" then
    [VDict [("setting_nm", VStr "min_metric_obs"); ("setting_value", VStr "5")]]
  else run_tables table.

Definition strategy_catalog : Catalog unit := {|
  cat_table t s := (Ok (strategy_tables t), s);
  cat_config t s := (Ok (strategy_tables t), s);
  cat_metric_path _ _ s := (Ok None, s)
|}.

Definition scored_request (indicator : string) (signal : Z) : OptimizeRequest :=
  mkOptimize "btc" (str_Z 0) (str_Z (9 * DAY)) 365 (of_Z 10) "bybit" 1 false
    [mkFactor None None None "price" indicator "Momentum"
       (mkRange (of_Z 5) (of_Z 5) (of_Z 1)) (mkRange (of_Z signal) (of_Z signal) (of_Z 1))]
    None false fhalf.

Definition run_scored (indicator : string) (signal : Z) : res exn OptimizeResponse :=
  (@run_optimize unit strategy_catalog priced_bars no_providers no_cache columnar_io
     pandas_ref numpy_ref reductions_ref sorting_ref tpe_ref (Some run_inst) false true
     str_Z (λ _, "Exception") (λ a _ _, [a]) "id" (scored_request indicator signal) tt).1.
End run.

Definition outcome_of (r : res exn OptimizeResponse) : option (Z * Z) :=
  match r with Ok o => Some (or_total_trials o, or_valid o) | Raise _ => None end.

(** The sample check counts one bar too few for the relative strength
    index: on ten bars, a window of five and five observations the request is
    accepted, and a search that can score its one cell with a moving average
    has no cell it can score with the index, whose first reading comes one bar
    later. *)
Theorem scoreable_sample_misses_rsi :
  outcome_of (run_scored "get_sma" 105) = Some (1, 1) ∧ outcome_of (run_scored "get_rsi" 60) = Some (1, 0).
Proof. split; vm_compute; reflexivity. Qed.
