(* ===== verification/LiveSignal.v ===== *)
(** * The signal of a live deployment

    [quant/strategy/live_service.py]: the frozen configuration, a window of recent
    bars from the venue or from the provider, and the latest position the engine
    takes on it. *)
From S2P Require Import Prelude PyFloat PyData Order Errors PyValue Instruments Intervals RefData TradeRepo.
From S2P Require Import BarFetcher BarService LiveApply Signals StrategyConfig Frames Performance.
From S2P Require Import BacktestCache BacktestData BacktestService.
Local Open Scope string_scope.
Local Open Scope Z_scope.

(** The dictionary of rows [compute_latest_position] passes where the backtest
    passes the reference data: it has [get] and nothing else. *)
Definition dict_catalog {W} (tables : list (string * list pyval)) : Catalog W := {|
  cat_table t := match dict_get t tables with
                 | Some rows => mret rows
                 | None => raise (TypeError "'NoneType' object is not iterable")
                 end;
  cat_config _ := raise (AttributeError "'dict' object has no attribute 'get_config'");
  cat_metric_path _ _ := raise (AttributeError "'dict' object has no attribute 'resolve_metric_path'")
|}.

Section live.
Context {W : Type} `{Catalog W} `{ExchangeBars W} `{Providers W} `{CacheDb W} `{PandasIO}.
Context `{Pandas} `{Numpy}.
(** pydantic's validation, [json.loads], [date.today()] in days, [str] of a label *)
Context (validate : pyval → res exn OptimizeRequest) (json_loads : string → res exn pyval) (today : prog W exn Z).
Context (str_stamp : Z → string) (inst : option InstrumentCache) (bt_cache : bool) (strategy_id : string).

(** [live_date_range] *)
Definition live_date_range (p : params) (trading_period : Z) : prog W exn (string * string) :=
  w ← lift_res (max_window p);
  end_ ← today;
  mret (str_date ((end_ - live_lookback_days w trading_period) * DAY), str_date (end_ * DAY)).

(** The [load] of [provider_loader]; what the refresh raises is not caught. *)
Definition provider_load (tables : list (string * list pyval)) (sources : list (string * string))
    (start end_ cusip : string) : prog W exn frame :=
  let fetch ds refresh :=
    @fetch_df W (dict_catalog tables) _ _ _ _ inst bt_cache false cusip start end_ ds refresh None "price" in
  match dict_get cusip sources with
  | None => raise (LiveEvaluationError ("strategy names no data_source for " +:+ repr_str cusip))
  | Some ds =>
      catch (fetch ds false) (λ e,
        if isinstance e CCacheMissError then fetch ds true
        else if isinstance e CBacktestError then raise (LiveEvaluationError (exn_msg e))
        else raise e)
  end.

(** [build_data_dict_for_signal] *)
Definition build_data_dict_for_signal (config : StrategyConfig) (load : string → prog W exn frame)
    : prog W exn all_frames :=
  let symbols := symbols_to_load config in
  frames ← for_each load symbols;
  let data := zip symbols frames in
  match filter (λ nf, frame_empty (Some nf.2) = true) data with
  | (cusip, _) :: _ => raise (LiveEvaluationError ("No data returned for " +:+ repr_str cusip))
  | [] => mret data
  end.

(** The document [CONFIG_JSON] holds; a text that is no object fails where its
    fields are read. *)
Definition config_document (config_json : pyval) : res exn (list (string * pyval)) :=
  match config_json with
  | VStr text =>
      v ← json_loads text;
      match v with
      | VDict d => mret d
      | v => _ ← config_from_json v; Raise (TypeError ("'" +:+ type_name v +:+ "' object is not a mapping"))
      end
  | VDict d => mret d
  | _ => Raise (LiveEvaluationError "strategy CONFIG_JSON must be a JSON object")
  end.

(** The load of every symbol: the venue's bars by count, or the provider's by date. *)
Definition symbol_loader (tables : list (string * list pyval)) (config : StrategyConfig) (p : params)
    (req : option OptimizeRequest) (bar_loader : option (string → Z → prog W exn frame))
    : prog W exn (string → prog W exn frame) :=
  match bar_loader with
  | Some bars => lookback ← lift_res (live_lookback_bars p); mret (λ cusip, bars cusip lookback)
  | None =>
      range ← live_date_range p (sc_trading_period config);
      sources ← lift_res (data_sources config req);
      mret (provider_load tables sources range.1 range.2)
  end.

(** [compute_latest_position] *)
Definition live_position (config_json : pyval) (result_payload : option pyval)
    (bar_loader : option (string → Z → prog W exn frame)) : prog W exn (float * string) :=
  doc ← lift_res (config_document config_json);
  app ← cat_table "app";
  indicator_rows ← cat_table "indicator";
  signal_type_rows ← cat_table "signal_type";
  let tables := [("app", app); ("indicator", indicator_rows); ("signal_type", signal_type_rows)] in
  resolved ← lift_res (resolve_config_and_params validate indicator_rows signal_type_rows strategy_id doc result_payload);
  let '(config, p, req) := resolved in
  load ← symbol_loader tables config p req bar_loader;
  data ← build_data_dict_for_signal config load;
  catch
    (obs ← config_int "min_metric_obs";
     perf ← lift_res (new_performance data config (Some p) None obs);
     lift_res (compute_latest_position str_stamp perf))
    (λ e, if isinstance e CValueError then raise (LiveEvaluationError (exn_msg e)) else raise e).
End live.

(** ** Live evaluation and backtest *)

(** The latest position is read off the final positions of an enrichment. *)
Lemma latest_of_final `{Pandas} `{Numpy} str_stamp p :
  compute_latest_position str_stamp p
  = (o ← final_position p; latest_final_position str_stamp (mkSeries (f_index (pf_main p)) o.2)).
Proof.
  unfold compute_latest_position, final_position. destruct (is_multi p).
  - destruct (compute_multi_factor_outputs p) as [[[d os] c]|e]; reflexivity.
  - destruct (compute_single_factor_outputs p) as [o|e]; reflexivity.
Qed.

(** Costs and the observation floor do not move positions. *)
Lemma final_position_costs `{Pandas} `{Numpy} c cost obs cost' obs' subs data main ws xs mw :
  final_position (mkPerformance c cost obs subs data main ws xs mw)
  = final_position (mkPerformance c cost' obs' subs data main ws xs mw).
Proof. reflexivity. Qed.

(** Two engines on the same frames and parameters take the same last position,
    whatever their fees and observation floors. *)
Lemma costs_same_latest `{Pandas} `{Numpy} `{R : Reductions} str_stamp data config p fee obs fee0 obs0 perf0 perf dates final e pos as_of :
  new_performance data config p fee0 obs0 = Ok perf0 → final_position perf0 = Ok (dates, final) →
  latest_final_position str_stamp (mkSeries (f_index (pf_main perf0)) final) = Ok (pos, as_of) →
  new_performance data config p fee obs = Ok perf → enrich_performance perf = Ok e →
  latest_final_position str_stamp (mkSeries (f_index (pf_main perf)) (en_final_position e)) = Ok (pos, as_of).
Proof.
  intros Hperf0 Hfinal E Hperf He.
  assert (final_position perf0 = final_position perf ∧ pf_main perf0 = pf_main perf) as [Hfin Hmain].
  { clear E He Hfinal. unfold new_performance in Hperf, Hperf0. destruct (main_frame _ config); [|done].
    rewrite Ok_bind in Hperf, Hperf0. apply bind_Ok in Hperf as (ws & Hws & Hperf), Hperf0 as (ws0 & Hws0 & Hperf0).
    rewrite Hws in Hws0. injection Hws0 as <-.
    apply bind_Ok in Hperf as (mw & Hmw & [= <-]), Hperf0 as (mw0 & Hmw0 & [= <-]). by split. }
  rewrite Hmain in E. rewrite Hfin in Hfinal. unfold enrich_performance in He. apply bind_Ok in He as ([dt fin] & Hf & He).
  rewrite Hf in Hfinal. injection Hfinal as -> ->.
  apply bind_Ok in He as (price & _ & He). apply bind_Ok in He as ([[a b] c] & _ & He).
  destruct (_compound c), (_compound _). injection He as <-. exact E.
Qed.

(** The frames of the run of a live evaluation from [w], whose configuration,
    parameters and request resolved on these tables, and the world they leave:
    one frame per symbol of the configuration, each the venue's last
    [live_lookback_bars] bars, or the provider's series of the date range. *)
Definition frames_of_run {W} `{ExchangeBars W} `{Providers W} `{CacheDb W} `{PandasIO}
    (today : prog W exn Z) inst bt_cache (tables : list (string * list pyval)) (config : StrategyConfig)
    (p : params) req (loader : option (string → Z → prog W exn frame)) (w : W)
    (frames : list frame) (w' : W) : Prop :=
  match loader with
  | Some bars =>
      ∃ n, live_lookback_bars p = Ok n ∧
        for_each (λ cusip, bars cusip n) (symbols_to_load config) w = (Ok frames, w')
  | None =>
      ∃ start end_ sources w1,
        live_date_range today p (sc_trading_period config) w = (Ok (start, end_), w1) ∧
        data_sources config req = Ok sources ∧
        for_each (provider_load inst bt_cache tables sources start end_) (symbols_to_load config) w1 = (Ok frames, w')
  end.

Lemma symbol_loader_frames {W} `{ExchangeBars W} `{Providers W} `{CacheDb W} `{PandasIO}
    today inst bt_cache tables config p req loader (w w1 w' : W) load frames :
  symbol_loader today inst bt_cache tables config p req loader w = (Ok load, w1) →
  for_each load (symbols_to_load config) w1 = (Ok frames, w') →
  frames_of_run today inst bt_cache tables config p req loader w frames w'.
Proof.
  unfold symbol_loader, frames_of_run. destruct loader as [bars|].
  - intros (n & v & Hn & E)%bind_inv Hl. injection E as <- <-.
    unfold lift_res in Hn. injection Hn as Hn <-. by exists n.
  - intros ([start end_] & v & Hr & E)%bind_inv Hl. apply bind_inv in E as (sources & v2 & Hs & E).
    unfold lift_res in Hs. injection Hs as Hs <-. injection E as <- <-. by exists start, end_, sources, v.
Qed.

(** C5. The signal a deployment trades is the backtest's.  The run reads the
    three tables, resolves the frozen configuration and parameters, loads one
    non-empty frame per symbol (the venue's last bars, or the provider's series
    of the date range) and reads the observation floor; the position and its date
    are the last known ones of the final positions the performance engine
    computes on exactly those frames with those parameters, and a backtest on
    them ends with the same position whatever its fee and observation floor. *)
Theorem live_is_backtest {W} `{Catalog W} `{ExchangeBars W} `{Providers W} `{CacheDb W} `{PandasIO} `{Pandas} `{Numpy}
    validate json_loads today str_stamp inst bt_cache strategy_id doc payload loader (w w' : W) pos as_of :
  live_position validate json_loads today str_stamp inst bt_cache strategy_id doc payload loader w = (Ok (pos, as_of), w') →
  ∃ d app indicators signal_types config p req frames obs0 w1 w2 w3 w4,
    config_document json_loads doc = Ok d ∧
    cat_table "app" w = (Ok app, w1) ∧ cat_table "indicator" w1 = (Ok indicators, w2) ∧
    cat_table "signal_type" w2 = (Ok signal_types, w3) ∧
    resolve_config_and_params validate indicators signal_types strategy_id d payload = Ok (config, p, req) ∧
    frames_of_run today inst bt_cache [("app", app); ("indicator", indicators); ("signal_type", signal_types)]
      config p req loader w3 frames w4 ∧
    Forall (λ f, frame_empty (Some f) = false) frames ∧
    config_int "min_metric_obs" w4 = (Ok obs0, w') ∧
    (∃ perf dates final,
      new_performance (zip (symbols_to_load config) frames) config (Some p) None obs0 = Ok perf ∧
      final_position perf = Ok (dates, final) ∧
      latest_final_position str_stamp (mkSeries (f_index (pf_main perf)) final) = Ok (pos, as_of)) ∧
    ∀ R fee obs perf e, new_performance (zip (symbols_to_load config) frames) config (Some p) fee obs = Ok perf →
      @enrich_performance _ _ R perf = Ok e →
      latest_final_position str_stamp (mkSeries (f_index (pf_main perf)) (en_final_position e)) = Ok (pos, as_of).
Proof.
  unfold live_position. intros (d & w1 & Hdoc & Hp)%bind_inv. apply bind_inv in Hp as (app & w2 & Happ & Hp).
  apply bind_inv in Hp as (ind & w3 & Hind & Hp). apply bind_inv in Hp as (sig & w4 & Hsig & Hp).
  apply bind_inv in Hp as ([[config p] req] & w5 & Hres & Hp). apply bind_inv in Hp as (load & w6 & Hload & Hp).
  apply bind_inv in Hp as (data & w7 & Hd & Hp).
  unfold build_data_dict_for_signal in Hd. apply bind_inv in Hd as (frames & wl' & Hl & Hd).
  unfold lift_res in Hdoc, Hres. injection Hdoc as Hdoc <-. injection Hres as Hres <-.
  pose proof (for_each_length _ _ _ _ _ Hl) as Hlen.
  destruct (filter _ _) as [|[c f] rest] eqn:Ef; [|done]. injection Hd as <- <-.
  assert (Forall (λ f, frame_empty (Some f) = false) frames) as Hne.
  { apply Forall_forall. intros f Hf. destruct (frame_empty (Some f)) eqn:E; [exfalso|done].
    apply list_elem_of_lookup in Hf as [i Hi].
    destruct (lookup_lt_is_Some_2 (symbols_to_load config) i) as [s Hs].
    { rewrite <-Hlen. by eapply lookup_lt_Some. }
    assert ((s, f) ∈ filter (λ nf : string * frame, frame_empty (Some nf.2) = true) (zip (symbols_to_load config) frames)) as Hin.
    { apply list_elem_of_filter. split; [done|]. apply (list_elem_of_lookup_2 _ i). by rewrite lookup_zip_with, Hs; simpl; rewrite Hi. }
    rewrite Ef in Hin. by apply not_elem_of_nil in Hin. }
  unfold catch in Hp.
  match type of Hp with match ?m ?s with _ => _ end = _ => destruct (m s) as [[r|x] w8] eqn:E end;
    [|by destruct (isinstance x CValueError)].
  injection Hp as -> ->.
  apply bind_inv in E as (obs0 & w9 & Hobs & E). rewrite lift_bind in E.
  destruct (new_performance _ config (Some p) None obs0) as [perf0|] eqn:Hperf0; [|done].
  unfold lift_res in E. injection E as E <-. rewrite latest_of_final in E.
  apply bind_Ok in E as ([dates final] & Hfinal & E).
  exists d, app, ind, sig, config, p, req, frames, obs0. eexists _, _, _, _.
  split_and!; [exact Hdoc|exact Happ|exact Hind|exact Hsig|exact Hres|exact (symbol_loader_frames _ _ _ _ _ _ _ _ _ _ _ _ _ Hload Hl)|exact Hne|exact Hobs|by exists perf0, dates, final|].
  intros R fee obs perf e Hperf He. eapply (costs_same_latest (R:=R)); [exact Hperf0|exact Hfinal|exact E|exact Hperf|exact He].
Qed.

(** ** The provider path *)

Section provider.
Context {W : Type} `{ExchangeBars W} `{Providers W} `{CacheDb W} `{PandasIO}.
Context (inst : option InstrumentCache) (bt_cache : bool) (tables : list (string * list pyval)).

(** No provider is asked: the path of its metric is looked up on a dictionary
    first. *)
Lemma provider_fetch_dict app app_id cls src ticker m s e w f w' :
  @provider_fetch W (dict_catalog tables) _ _ bt_cache app app_id cls src ticker m s e w ≠ (Ok f, w').
Proof. done. Qed.

Lemma refresh_fetch_dict cusip start end_ ds m w f w' :
  @fetch_df W (dict_catalog tables) _ _ _ _ inst bt_cache false cusip start end_ ds true None m w ≠ (Ok f, w').
Proof.
  unfold fetch_df. intros (rows & w1 & _ & (app & w2 & _ & Hp)%bind_inv)%bind_inv.
  destruct app as [app|]; [|done]. apply bind_inv in Hp as (app_id & w3 & _ & Hp).
  apply bind_inv in Hp as (ind & w4 & _ & Hp). apply bind_inv in Hp as (name & w5 & _ & Hp).
  destruct (is_str "Y" ind); [done|]. apply bind_inv in Hp as ([] & w6 & _ & Hp).
  apply bind_inv in Hp as (cls & w7 & _ & Hp). apply bind_inv in Hp as (src & w8 & _ & Hp).
  apply bind_inv in Hp as (cached & w9 & _ & Hp). destruct cached as [metric_id|]; [|done].
  apply bind_inv in Hp as (df & w10 & Hr & _). unfold refresh_payload in Hr.
  apply bind_inv in Hr as (i & v1 & _ & Hr). apply bind_inv in Hr as (a & v2 & _ & Hr).
  apply bind_inv in Hr as (b & v3 & _ & Hr). apply bind_inv in Hr as (c & v4 & _ & Hr).
  apply bind_inv in Hr as (g & v5 & Hg & _). apply bind_inv in Hg as (q & v6 & Hq & _).
  by apply provider_fetch_dict in Hq.
Qed.
End provider.

(** A live signal read from a provider depends on the dataset cache alone: a
    series that is loaded came from the first, cached read.  The refresh that
    follows a cache miss never returns, because the dictionary it is handed
    cannot resolve the metric's path. *)
Theorem live_refresh_never_returns {W} `{ExchangeBars W} `{Providers W} `{CacheDb W} `{PandasIO}
    inst bt_cache tables sources start end_ cusip (w w' : W) f :
  provider_load inst bt_cache tables sources start end_ cusip w = (Ok f, w') →
  ∃ ds, dict_get cusip sources = Some ds ∧
    @fetch_df W (dict_catalog tables) _ _ _ _ inst bt_cache false cusip start end_ ds false None "price" w = (Ok f, w').
Proof.
  unfold provider_load. destruct (dict_get cusip sources) as [ds|]; [|done]. intros Hp. exists ds. split; [done|].
  unfold catch in Hp. destruct (fetch_df _ _ _ _ _ _ _ false _ _ w) as [[g|e] w1]; [exact Hp|].
  destruct (isinstance e CCacheMissError); [by apply refresh_fetch_dict in Hp|].
  by destruct (isinstance e CBacktestError).
Qed.

(** A cache that holds three seconds of one provider's series. *)
Module Cached.
Definition tables : list (string * list pyval) :=
  [("app", [VDict [("name", VStr "yahoo"); ("app_id", VInt 2); ("is_exchange_ind", VStr "N");
                   ("class_name", VStr "YahooFinance")]])].

Definition prices : frame := mkFrame [0; 1000000; 2000000] [("price", of_Z <$> [7; 8; 9])].

#[global] Instance db : CacheDb unit := {|
  sp_get_api_request _ s :=
    (Ok [mkApiRow (Some "id") (Some 0) (Some 2000000) (@records_of_frame columnar_io prices)], s);
  sp_reserve_api_call _ s := (Ok tt, s);
  sp_ins_api_request _ s := (Ok tt, s);
  new_uuid s := (Ok "id", s);
  default_tm_interval_id s := (Ok 1, s);
  cache_table _ s := (Ok [VDict [("app_id", VInt 2); ("metric_nm", VStr "price"); ("app_metric_id", VInt 5)]], s)
|}.
End Cached.

Lemma live_refresh_never_returns_witness :
  let load end_ := @provider_load unit priced_bars no_providers Cached.db columnar_io None true Cached.tables
                     [("spy", "yahoo")] "0" end_ "spy" tt in
  (load "3000000").1 = Raise (AttributeError "'dict' object has no attribute 'resolve_metric_path'") ∧
  load "2000000" = (Ok Cached.prices, tt) ∧
  ∃ ds, dict_get "spy" [("spy", "yahoo")] = Some ds ∧
    @fetch_df unit (dict_catalog Cached.tables) priced_bars no_providers Cached.db columnar_io None true false
      "spy" "0" "2000000" ds false None "price" tt = (Ok Cached.prices, tt).
Proof.
  intros load. split; [vm_compute; reflexivity|]. assert (load "2000000" = (Ok Cached.prices, tt)) as E by (vm_compute; reflexivity).
  split; [exact E|]. exact (@live_refresh_never_returns unit priced_bars no_providers Cached.db columnar_io None true
    Cached.tables [("spy", "yahoo")] "0" "2000000" "spy" tt tt Cached.prices E).
Defined.

(** A saved strategy evaluated on the bars of its venue. *)
Module Saved.
Definition bars : frame :=
  mkFrame [1; 2; 3; 4; 5] [("price", of_Z <$> [9; 12; 11; 30; 20]); ("factor", of_Z <$> [9; 12; 11; 30; 20])].
Definition config : StrategyConfig :=
  mkStrategyConfig "btc" "get_sma" momentum_band_signal 365 "id" "" "AND"
    [mkSubStrategy "get_sma" "momentum_band_signal" 2 (of_Z 10) "factor" None].
Definition doc : pyval := match strategy_to_json "now" config (None, None) with Ok d => d | Raise _ => VNone end.

Definition position : res exn (float * string) * unit :=
  @live_position unit strategy_catalog priced_bars no_providers Cached.db columnar_io pandas_ref numpy_ref
    (λ _, Raise (ValueError "no factors")) (λ _, Raise (ValueError "text")) (mret 0) str_Z None true "id"
    doc None (Some (λ _ _, mret bars)) tt.
End Saved.

Lemma live_is_backtest_witness :
  ∃ pos as_of, Saved.position = (Ok (pos, as_of), tt) ∧ as_of = "5" ∧
    ∃ d app indicators signal_types config p req frames obs0 w1 w2 w3 w4,
      config_document (λ _, Raise (ValueError "text")) Saved.doc = Ok d ∧
      @cat_table unit strategy_catalog "app" tt = (Ok app, w1) ∧
      @cat_table unit strategy_catalog "indicator" w1 = (Ok indicators, w2) ∧
      @cat_table unit strategy_catalog "signal_type" w2 = (Ok signal_types, w3) ∧
      resolve_config_and_params (λ _, Raise (ValueError "no factors")) indicators signal_types "id" d None
        = Ok (config, p, req) ∧
      @frames_of_run unit priced_bars no_providers Cached.db columnar_io (mret 0) None true
        [("app", app); ("indicator", indicators); ("signal_type", signal_types)] config p req
        (Some (λ _ _, mret Saved.bars)) w3 frames w4 ∧
      Forall (λ f, frame_empty (Some f) = false) frames ∧
      @config_int unit strategy_catalog "min_metric_obs" w4 = (Ok obs0, tt) ∧
      (∃ perf dates final,
        new_performance (zip (symbols_to_load config) frames) config (Some p) None obs0 = Ok perf ∧
        @final_position pandas_ref numpy_ref perf = Ok (dates, final) ∧
        latest_final_position str_Z (mkSeries (f_index (pf_main perf)) final) = Ok (pos, as_of)) ∧
      ∀ R fee obs perf e, new_performance (zip (symbols_to_load config) frames) config (Some p) fee obs = Ok perf →
        @enrich_performance pandas_ref numpy_ref R perf = Ok e →
        latest_final_position str_Z (mkSeries (f_index (pf_main perf)) (en_final_position e)) = Ok (pos, as_of).
Proof.
  destruct Saved.position as [[[pos as_of]|x] []] eqn:E.
  2: { exfalso. vm_compute in E. discriminate. }
  exists pos, as_of. split; [reflexivity|]. split; [vm_compute in E; by injection E as _ <-|].
  exact (@live_is_backtest unit strategy_catalog priced_bars no_providers Cached.db columnar_io pandas_ref numpy_ref
    (λ _, Raise (ValueError "no factors")) (λ _, Raise (ValueError "text")) (mret 0) str_Z None true "id"
    Saved.doc None (Some (λ _ _, mret Saved.bars)) tt tt pos as_of E).
Defined.
