(* ===== verification/VenueLimits.v ===== *)
(** * The cached order-size rules of a venue

    [quant/trade/venue_limits.py]: the publisher that snapshots every broker
    app's limits into Redis, and the reader the edit forms ask.  Redis and JSON
    text are parameters; the publisher's sessions are the gateway's. *)
From S2P Require Import Prelude PyFloat PyData Order Errors PyValue Ccxt Gateway RefData LiveApply Signals.
Local Open Scope string_scope.
Local Open Scope Z_scope.

(** Symbol, then default type, then rules. *)
Definition app_limits := list (string * list (string * MarketLimits)).

Definition VENUE_LIMITS_KEY_PREFIX : string := "venue_limits:".
Definition VENUE_LIMITS_VERSION_KEY : string := "venue_limits:version".

(** [_key] *)
Definition limits_key (app_id : Z) : string := VENUE_LIMITS_KEY_PREFIX +:+ str_Z app_id.

(** The Redis client, and [json.loads] and [json.dumps]. *)
Class RedisText (X : Type) := {
  text_get : string → prog X exn (option string);
  (** a transaction of [set]s and one [incr] *)
  set_all_and_incr : list (string * string) → string → prog X exn unit;
  json_loads : string → res exn pyval;
  json_dumps : pyval → string
}.

(** ** Encoding *)

Definition opt_val (x : option float) : pyval := match x with Some f => VFloat f | None => VNone end.

(** [_encode] *)
Definition encode_limits (limits : app_limits) : pyval :=
  VDict (prod_map id (λ by_type : list (string * MarketLimits),
    VDict (prod_map id (λ r, VDict [("min_qty", opt_val (min_qty r)); ("min_notional", opt_val (min_notional r))])
             <$> by_type)) <$> limits).

(** A rule's number, as JSON holds it. *)
Definition number_of (v : pyval) : option float :=
  match v with VFloat f => Some f | VInt z => Some (of_Z z) | _ => None end.

Definition is_dict (v : pyval) : bool := match v with VDict _ => true | _ => false end.

(** One symbol of [_decode] *)
Definition decode_symbol (symbol : string) (by_type : list (string * pyval)) : list (string * MarketLimits) :=
  omap (λ tr : string * pyval,
    match tr.2 with
    | VDict rule => Some (tr.1, mkMarketLimits symbol
                           (number_of (default VNone (dict_get "min_qty" rule)))
                           (number_of (default VNone (dict_get "min_notional" rule))))
    | _ => None
    end) by_type.

(** [_decode]; a payload that is no object has no [items]. *)
Definition decode_limits (payload : pyval) : res exn app_limits :=
  match payload with
  | VDict symbols =>
      Ok (omap (λ sb : string * pyval,
        match sb.2 with VDict by_type => Some (sb.1, decode_symbol sb.1 by_type) | _ => None end) symbols)
  | v => Raise (AttributeError ("'" +:+ type_name v +:+ "' object has no attribute 'items'"))
  end.

(** ** The reader *)

(** [RedisVenueLimits]: the snapshots held and the stamp they were read under. *)
Record venue_cache := mkVenueCache { vl_by_app : list (Z * app_limits); vl_version : option string }.

Definition fresh_venue_cache : venue_cache := mkVenueCache [] None.

Section reader.
Context {X : Type} `{RedisText X}.
Abbreviation V := (venue_cache * X)%type.

Definition on_text {A} (m : prog X exn A) : prog V exn A := λ s, let '(r, x) := m s.2 in (r, (s.1, x)).
Definition set_venue_cache (c : venue_cache) : prog V exn unit := λ s, (Ok tt, (c, s.2)).
Definition get_venue_cache : prog V exn venue_cache := λ s, (Ok s.1, s).

(** [_check_version]; an unreachable cache leaves everything as it is. *)
Definition check_limits_version : prog V exn unit :=
  try_else (on_text (text_get VENUE_LIMITS_VERSION_KEY))
    (λ version,
      c ← get_venue_cache;
      if bool_decide (version = vl_version c) then mret tt else set_venue_cache (mkVenueCache [] version))
    (λ e, if isinstance e CRedisError then mret tt else raise e).

(** [_load] *)
Definition load_limits (app_id : Z) : prog V exn app_limits :=
  try_else (on_text (text_get (limits_key app_id)))
    (λ raw,
      match raw with
      | None | Some "" => mret []
      | Some text =>
          match (v ← json_loads text; decode_limits v) with
          | Ok l => mret l
          | Raise e => if isinstance e CValueError || isinstance e CTypeError then mret [] else raise e
          end
      end)
    (λ e, if isinstance e CRedisError then mret [] else raise e).

(** The rule a snapshot gives a symbol and default type. *)
Definition rule_for (snapshot : app_limits) (vendor_symbol : string) (default_type : option string) : MarketLimits :=
  match default [] (dict_get vendor_symbol snapshot) with
  | [] => no_limits vendor_symbol
  | by_type =>
      match default_type with
      | Some t => default (no_limits vendor_symbol) (dict_get t by_type)
      | None => match by_type with [(_, r)] => r | _ => no_limits vendor_symbol end
      end
  end.

(** [get] *)
Definition limits_get (app_id : Z) (vendor_symbol : string) (default_type : option string)
    : prog V exn MarketLimits :=
  _ ← check_limits_version;
  c ← get_venue_cache;
  snapshot ← match dict_get app_id (vl_by_app c) with
             | Some s => mret s
             | None =>
                 s ← load_limits app_id;
                 c ← get_venue_cache;
                 _ ← set_venue_cache (mkVenueCache (dict_set app_id s (vl_by_app c)) (vl_version c));
                 mret s
             end;
  mret (rule_for snapshot vendor_symbol default_type).
End reader.

(** ** The publisher *)

Section publisher.
Context {H X : Type} `{Ccxt H X} `{RedisText X} `{ReferenceData X}.

(** [list(dict.fromkeys(values)) or [None]] *)
Definition default_types (p : CcxtExchangePreset) : list (option string) :=
  match dict_comp id (λ _, tt) (map snd (default_type_by_issue p)) with
  | [] => [None]
  | ts => map (λ t, Some t.1) ts
  end.

(** [merged.setdefault(symbol, {})[label] = limits] for the symbols of one type *)
Definition merge_type (label : string) (merged : app_limits) (found : list (string * MarketLimits)) : app_limits :=
  foldl (λ m sl, dict_set sl.1 (dict_set label sl.2 (default [] (dict_get sl.1 m))) m) merged found.

Fixpoint fetch_types (config : CcxtSessionConfig) (types : list (option string)) (merged : app_limits)
    : prog (gateway H X) exn app_limits :=
  match types with
  | [] => mret merged
  | t :: types' =>
      _ ← gw_pin_default_type t;
      found ← fetch_all_market_limits config;
      fetch_types config types' (merge_type (match t with Some "" | None => "default" | Some t => t end) merged found)
  end.

(** [_fetch] *)
Definition fetch_limits (p : CcxtExchangePreset) : prog X exn app_limits := λ x,
  let config := public_session p in
  let m := _ ← gw_connect config DIRECT;
           finally (fetch_types config (default_types p) []) gw_disconnect in
  let '(r, g) := m (mkGateway None DIRECT None x) in (r, gw_world g).

(** The loop of [publish_all]: an unreachable venue is skipped. *)
Fixpoint fetch_snapshots (apps : list (Z * CcxtExchangePreset)) (snapshots : list (Z * app_limits))
    : prog X exn (list (Z * app_limits)) :=
  match apps with
  | [] => mret snapshots
  | (app_id, p) :: apps' =>
      r ← attempt (fetch_limits p);
      fetch_snapshots apps' (match r with Ok l => dict_set app_id l snapshots | Raise _ => snapshots end)
  end.

(** [publish_all] *)
Definition publish_limits : prog X exn Z :=
  apps ← ccxt_apps CCXT_PRESETS;
  snapshots ← fetch_snapshots apps [];
  match snapshots with
  | [] => mret 0
  | _ =>
      _ ← set_all_and_incr (map (λ al, (limits_key al.1, json_dumps (encode_limits al.2))) snapshots)
            VENUE_LIMITS_VERSION_KEY;
      mret (Z.of_nat (length snapshots))
  end.
End publisher.

(** ** What a reader sees *)

(** Snapshots as the publisher builds them: a rule names its symbol, keys occur
    once. *)
Definition well_keyed (l : app_limits) : Prop :=
  Forall (λ sb, Forall (λ tr, ml_symbol tr.2 = sb.1) sb.2) l.

Lemma decode_encode l : well_keyed l → decode_limits (encode_limits l) = Ok l.
Proof.
  intros Hl. unfold encode_limits, decode_limits. f_equal. induction Hl as [|[s by_type] l Hs Hl IH]; [done|].
  cbn. f_equal; [|exact IH]. f_equal. clear IH Hl. cbn [fst snd] in Hs. unfold decode_symbol.
  induction Hs as [|[t [sym q n]] by_type Ht Hs IH]; [done|]. cbn in *. subst sym. f_equal; [|exact IH].
  by destruct q, n.
Qed.

Section reading.
Context {X : Type} `{RedisText X}.

(** Redis reachable and holding [db]. *)
Definition text_holds (db : string → option string) (x : X) : Prop :=
  ∀ key, text_get key x = (Ok (db key), x).

(** Redis out of reach. *)
Definition text_down (x : X) : Prop :=
  ∀ key, ∃ msg, text_get key x = (Raise (plain CRedisError msg), x).

Lemma check_version_holds db c x : text_holds db x →
  check_limits_version (c, x)
  = (Ok tt, (if decide (db VENUE_LIMITS_VERSION_KEY = vl_version c) then c
             else mkVenueCache [] (db VENUE_LIMITS_VERSION_KEY), x)).
Proof.
  intros Hdb. unfold check_limits_version, try_else, on_text. cbn [snd fst]. rewrite Hdb.
  unfold get_venue_cache, mbind, prog_bind. cbn [fst snd].
  destruct (decide _) as [E|E]; [by rewrite bool_decide_eq_true_2|by rewrite bool_decide_eq_false_2].
Qed.

Lemma check_version_down c x : text_down x → check_limits_version (c, x) = (Ok tt, (c, x)).
Proof.
  intros Hd. destruct (Hd VENUE_LIMITS_VERSION_KEY) as [msg Hm].
  unfold check_limits_version, try_else, on_text. cbn [fst snd]. by rewrite Hm.
Qed.

Lemma load_limits_down app c x : text_down x → load_limits app (c, x) = (Ok [], (c, x)).
Proof.
  intros Hd. destruct (Hd (limits_key app)) as [msg Hm]. unfold load_limits, try_else, on_text. cbn [fst snd].
  by rewrite Hm.
Qed.

(** A reader that holds a snapshot under the current stamp answers from it. *)
Lemma limits_get_cached db app s c x sym t : text_holds db x → db VENUE_LIMITS_VERSION_KEY = vl_version c →
  dict_get app (vl_by_app c) = Some s →
  limits_get app sym t (c, x) = (Ok (rule_for s sym t), (c, x)).
Proof.
  intros Hdb Hv Hs. unfold limits_get. rewrite (bind_ok _ _ _ _ _ (check_version_holds db c x Hdb)).
  rewrite decide_True by done. unfold get_venue_cache, mbind, prog_bind. cbn [fst snd]. by rewrite Hs.
Qed.
End reading.

(** A publication reaches every reader: once Redis holds a snapshot an app's
    limits were encoded into, under a stamp the reader has not seen, the reader
    answers by that snapshot, from its next question on and whatever it held. *)
Theorem limits_follow_publication {X} `{RedisText X} db app l v c x :
  text_holds db x → db VENUE_LIMITS_VERSION_KEY = Some v → vl_version c ≠ Some v → well_keyed l →
  (∃ text, db (limits_key app) = Some text ∧ text ≠ "" ∧ json_loads text = Ok (encode_limits l)) →
  ∃ c', ∀ sym t, limits_get app sym t (c, x) = (Ok (rule_for l sym t), (c', x)) ∧
    ∀ sym' t', limits_get app sym' t' (c', x) = (Ok (rule_for l sym' t'), (c', x)).
Proof.
  intros Hdb Hv Hc Hl (text & Htext & Hne & Hloads). exists (mkVenueCache [(app, l)] (Some v)). intros sym t. split.
  - unfold limits_get. rewrite (bind_ok _ _ _ _ _ (check_version_holds db c x Hdb)).
    rewrite decide_False by congruence. rewrite Hv.
    rewrite (bind_ok get_venue_cache _ (mkVenueCache [] (Some v), x) (mkVenueCache [] (Some v)) _ eq_refl). cbn [vl_by_app dict_get].
    erewrite bind_ok; [reflexivity|].
    erewrite bind_ok.
    2: { unfold load_limits, try_else, on_text. cbn [fst snd]. rewrite Hdb, Htext, Hloads, Ok_bind, decode_encode by done.
         destruct text; [by exfalso|reflexivity]. }
    reflexivity.
  - intros sym' t'. apply (limits_get_cached db); [done|done|]. cbn. by rewrite decide_True.
Qed.

(** An outage sticks: a reader asked about an app it has not loaded while
    Redis is out of reach answers that nothing is enforced, and goes on
    answering so for every symbol of that app after Redis is back, until the
    next publication moves the stamp, whatever limits the snapshot holds. *)
Theorem outage_sticks {X} `{RedisText X} db app c down up sym t :
  text_down down → text_holds db up → db VENUE_LIMITS_VERSION_KEY = vl_version c →
  dict_get app (vl_by_app c) = None →
  ∃ c', limits_get app sym t (c, down) = (Ok (no_limits sym), (c', down)) ∧
    ∀ sym' t', limits_get app sym' t' (c', up) = (Ok (no_limits sym'), (c', up)).
Proof.
  intros Hdown Hup Hv Hnone. exists (mkVenueCache (dict_set app [] (vl_by_app c)) (vl_version c)). split.
  - unfold limits_get. rewrite (bind_ok _ _ _ _ _ (check_version_down c down Hdown)).
    rewrite (bind_ok get_venue_cache _ (c, down) c _ eq_refl). rewrite Hnone.
    erewrite (bind_ok _ _ _ ([] : app_limits)); [reflexivity|].
    rewrite (bind_ok _ _ _ _ _ (load_limits_down app c down Hdown)). reflexivity.
  - intros sym' t'. by rewrite (limits_get_cached db app []) by (done || by cbn; rewrite dict_get_set).
Qed.


(** ** Two limits, published *)

Module Sample.
Definition spot : MarketLimits := mkMarketLimits "BTC/USDT" (Some (of_decimal false 1 (-3))) (Some (of_Z 5)).
Definition swap : MarketLimits := mkMarketLimits "BTC/USDT" (Some (of_decimal false 1 (-2))) None.
Definition limits : app_limits := [("BTC/USDT", [("spot", spot); ("swap", swap)])].

Definition db (key : string) : option string :=
  if decide (key = VENUE_LIMITS_VERSION_KEY) then Some "7"
  else if decide (key = limits_key 3) then Some "{..}" else None.

(** Redis, up or down; the one text it holds is the snapshot's. *)
#[global] Instance redis : RedisText bool := {
  text_get := λ key up, (if up then Ok (db key) else Raise (plain CRedisError "refused"), up);
  set_all_and_incr := λ _ _, mret tt;
  json_loads := λ text, if decide (text = "{..}") then Ok (encode_limits limits) else Raise (ValueError "json");
  json_dumps := λ _, "{..}"
}.
End Sample.

Lemma limits_follow_publication_witness :
  ∃ c', ∀ sym t,
    limits_get 3 sym t (mkVenueCache [(3, [])] (Some "6"), true) = (Ok (rule_for Sample.limits sym t), (c', true)) ∧
    ∀ sym' t', limits_get 3 sym' t' (c', true) = (Ok (rule_for Sample.limits sym' t'), (c', true)).
Proof.
  apply (@limits_follow_publication bool Sample.redis Sample.db 3 Sample.limits "7").
  - intros key. reflexivity.
  - reflexivity.
  - discriminate.
  - repeat constructor.
  - exists "{..}". split; [reflexivity|]. split; [discriminate|reflexivity].
Defined.

Lemma outage_sticks_witness :
  ∃ c', limits_get 3 "BTC/USDT" (Some "spot") (mkVenueCache [] (Some "7"), false)
        = (Ok (no_limits "BTC/USDT"), (c', false)) ∧
    ∀ sym t, limits_get 3 sym t (c', true) = (Ok (no_limits sym), (c', true)).
Proof.
  apply (@outage_sticks bool Sample.redis Sample.db 3 (mkVenueCache [] (Some "7")) false true "BTC/USDT" (Some "spot")).
  - intros key. exists "refused". reflexivity.
  - intros key. reflexivity.
  - reflexivity.
  - reflexivity.
Defined.
