(* ===== verification/Worker.v ===== *)
(** * The backtest worker

    [quant/queue/worker.py]: the process that runs one queued job, from its
    arguments to its exit code.  The search and the promotion are the ones of
    [BacktestService] and [Promotion]; the stored procedures, standard output and
    pydantic's reading of a request are parameters. *)
From S2P Require Import Prelude PyFloat PyData Order Errors PyValue Instruments Intervals RefData TradeRepo.
From S2P Require Import BarFetcher BarService LiveApply Queue Promotion Signals StrategyConfig Frames Performance.
From S2P Require Import Optimize BacktestCache BacktestData BacktestService.
Local Open Scope string_scope.
Local Open Scope Z_scope.

(** The row of [SP_GET_QUEUE_LATEST] the worker reads. *)
Record job_row := mkJob {
  jr_config_json : pyval;
  jr_strategy_id : string;
  jr_strategy_vid : Z;
  jr_priority : Z;
  jr_user_id : string
}.

(** The process's surroundings: configuration, the pool, Redis, standard output,
    the clock, [uuid.uuid4], and the two procedures only the worker calls. *)
Class WorkerEnv (W : Type) := {
  load_config : prog W exn unit;
  open_pool : prog W exn unit;
  close_pools : prog W exn unit;
  redis_ping : prog W exn bool;
  emit : pyval → prog W exn unit;
  utc_now_iso : prog W exn string;
  result_uuid : prog W exn string;
  sp_get_queue_latest : string → prog W exn (option job_row);
  sp_ins_result : string → string → pyval → list (option float) * list (option float) → prog W exn unit
}.

(** ** A response as a dictionary *)

Definition opt_pyval {A} (f : A → pyval) (x : option A) : pyval := match x with Some a => f a | None => VNone end.

Definition dump_point (p : EquityPoint) : pyval :=
  VDict [("datetime", VStr (ep_datetime p)); ("cumu", VFloat (ep_cumu p));
         ("buy_hold_cumu", VFloat (ep_buy_hold_cumu p)); ("dd", VFloat (ep_dd p));
         ("buy_hold_dd", VFloat (ep_buy_hold_dd p))].

(** The CSV text and the plots, which the model does not compute, come as
    arguments. *)
Definition dump_performance (perf_csv : PerformanceResponse → string) (p : PerformanceResponse) : pyval :=
  VDict [("strategy_metrics", VDict (pr_strategy_metrics p)); ("buy_hold_metrics", VDict (pr_buy_hold_metrics p));
         ("equity_curve", VList (map dump_point (pr_equity_curve p))); ("perf_csv", VStr (perf_csv p))].

Definition dump_walk_forward (r : WalkForwardResponse) : pyval :=
  let best := match wr_best r with
              | Scalar w s => (VInt w, VFloat s)
              | PerFactor ws ss => (VList (map VInt ws), VList (map VFloat ss))
              end in
  VDict [("best_window", best.1); ("best_signal", best.2); ("is_metrics", VDict (wr_is_metrics r));
         ("oos_metrics", VDict (wr_oos_metrics r)); ("overfitting_ratio", opt_pyval VFloat (wr_overfitting_ratio r));
         ("equity_curve", VList (map dump_point (wr_equity_curve r))); ("split_date", VStr (wr_split_date r))].

(** [response.model_dump()] *)
Definition dump_response (perf_csv : PerformanceResponse → string) (optuna_plots : OptimizeResponse → pyval)
    (r : OptimizeResponse) : pyval :=
  VDict [("total_trials", VInt (or_total_trials r)); ("valid", VInt (or_valid r)); ("best", VDict (or_best r));
         ("top10", VList (map VDict (or_top10 r))); ("grid", VList (map VDict (or_grid r)));
         ("optuna_plots", optuna_plots r); ("performance", opt_pyval (dump_performance perf_csv) (or_performance r));
         ("walk_forward", opt_pyval dump_walk_forward (or_walk_forward r));
         ("walk_forward_error", opt_pyval VStr (or_walk_forward_error r))].

(** ** Events and rows *)

Definition started_event (queue_id ts : string) : pyval :=
  VDict [("type", VStr "started"); ("queue_id", VStr queue_id); ("ts", VStr ts)].
Definition failed_event (queue_id ts : string) : pyval :=
  VDict [("type", VStr "terminal"); ("queue_id", VStr queue_id); ("status", VStr "FAILED"); ("ts", VStr ts)].
Definition completed_event (queue_id result_id ts : string) : pyval :=
  VDict [("type", VStr "terminal"); ("queue_id", VStr queue_id); ("status", VStr "COMPLETED");
         ("result_id", VStr result_id); ("ts", VStr ts)].

(** The row that ends a job. *)
Definition terminal_row (queue_id : string) (job : job_row) (status : Z) (error : option string) : queue_write :=
  mkQueueWrite queue_id (jr_strategy_id job) (jr_strategy_vid job) status (jr_priority job) (jr_user_id job) error.

Section worker.
Context {W : Type} `{WorkerEnv W} `{Catalog W} `{QueueDb W} `{InstDb W}.
(** pydantic's validation, [traceback.format_exc] and the Redis address *)
Context (validate : pyval → res exn OptimizeRequest) (format_exc : exn → string) (redis_url : string).
Context (perf_csv : PerformanceResponse → string) (optuna_plots : OptimizeResponse → pyval).
(** [run_optimize] over the caches, and [PromotionRepo.run] *)
Context (optimize : InstrumentCache → OptimizeRequest → prog W exn OptimizeResponse).
Context (promote : job_row → pyval → string → prog W exn unit).

(** [DataCaches.require_redis] *)
Definition require_redis : prog W exn unit :=
  up ← redis_ping;
  if (up : bool) then mret tt else raise (RuntimeError ("Redis at " +:+ redis_url +:+ " is not reachable")).

(** [DataCaches.load_instruments(soft_fail=True)]: what was loaded before a failure stays. *)
Definition load_instruments : prog W exn InstrumentCache := λ w,
  let '(_, (c, w')) := load_all (empty_cache, w) in (Ok c, w').

(** [refdata.resolve_queue_status_id(name)] *)
Definition queue_status (name : string) : prog W exn Z :=
  rows ← cat_table "queue_status"; lift_res (resolve_queue_status_id rows name).

(** [WorkerRepo.fetch_job] *)
Definition fetch_job (queue_id : string) : prog W exn job_row :=
  row ← sp_get_queue_latest queue_id;
  match row with
  | None => raise (plain CLookupError
      ("no active BT.QUEUE row (or missing frozen STRATEGY) for queue_id=" +:+ queue_id))
  | Some row => mret row
  end.

(** The failure branch of [run]. *)
Definition fail_job (queue_id : string) (job : job_row) (failed_id : Z) (e : exn) : prog W exn Z :=
  let err := if isinstance e CBacktestError then exn_msg e else format_exc e in
  _ ← sp_ins_queue (terminal_row queue_id job failed_id (Some err));
  ts ← utc_now_iso;
  _ ← emit (failed_event queue_id ts);
  mret 0.

(** What [run] does with a response. *)
Definition complete_job (queue_id : string) (job : job_row) (completed_id : Z) (response : OptimizeResponse)
    : prog W exn Z :=
  result_id ← result_uuid;
  let payload := dump_response perf_csv optuna_plots response in
  metrics ← lift_res (extract_shredded_metrics payload);
  _ ← sp_ins_result result_id queue_id payload metrics;
  _ ← catch (promote job payload queue_id) (λ _, mret tt);
  _ ← sp_ins_queue (terminal_row queue_id job completed_id None);
  ts ← utc_now_iso;
  _ ← emit (completed_event queue_id result_id ts);
  mret 0.

(** [BacktestWorker.run] *)
Definition worker_run (queue_id : string) : prog W exn Z :=
  _ ← require_redis;
  instrument_cache ← load_instruments;
  completed_id ← queue_status "COMPLETED";
  failed_id ← queue_status "FAILED";
  job ← fetch_job queue_id;
  ts ← utc_now_iso;
  _ ← emit (started_event queue_id ts);
  req ← lift_res (match validate (jr_config_json job) with
                  | Ok req => Ok req
                  | Raise e => Raise (ValueError ("CONFIG_JSON failed OptimizeRequest validation: " +:+ exn_msg e))
                  end);
  response ← attempt (optimize instrument_cache req);
  match response with
  | Raise e => fail_job queue_id job failed_id e
  | Ok response => complete_job queue_id job completed_id response
  end.

(** [main]; [parse_uuid] is [str(uuid.UUID(text))]. *)
Definition worker_main (parse_uuid : string → option string) (argv : list string) : prog W exn Z :=
  _ ← load_config;
  match argv with
  | [_; arg] =>
      match parse_uuid arg with
      | None => mret 2
      | Some queue_id =>
          finally
            (catch (_ ← open_pool; worker_run queue_id)
               (λ e, mret (if isinstance e CLookupError then 2 else 1)))
            close_pools
      end
  | _ => mret 2
  end.
End worker.

(** The worker with the service's search and the promotion it calls. *)
Definition backtest_worker {W} `{WorkerEnv W} `{Catalog W} `{QueueDb W} `{InstDb W} `{ExchangeBars W} `{Providers W}
    `{CacheDb W} `{PandasIO} `{Pandas} `{Numpy} `{Reductions} `{Sorting} `{TPE} `{PromotionDb W}
    (validate : pyval → res exn OptimizeRequest) (format_exc : exn → string) (redis_url : string)
    (perf_csv : PerformanceResponse → string) (optuna_plots : OptimizeResponse → pyval)
    (str_stamp : Z → string) (exn_name : exn → string) (np_arange : float → float → float → list float)
    (strategy_id queue_id : string) : prog W exn Z :=
  worker_run validate format_exc redis_url perf_csv optuna_plots
    (λ c req, run_optimize (Some c) true true str_stamp exn_name np_arange strategy_id req)
    (λ job payload qid,
       _ ← promotion_run (jr_strategy_id job) (jr_strategy_vid job) (jr_user_id job) payload qid; mret tt)
    queue_id.

(** ** The log of a run *)

(** What a run reads, computes, writes and announces, each call with its
    outcome. *)
Inductive worker_event :=
| ETable (name : string) (r : res exn (list pyval))
| EFetch (queue_id : string) (r : res exn (option job_row))
| EOptimize (req : OptimizeRequest) (r : res exn OptimizeResponse)
| EPromote (job : job_row) (payload : pyval) (queue_id : string) (r : res exn unit)
| EClose (r : res exn unit)
| EResult (result_id queue_id : string) (payload : pyval) (metrics : list (option float) * list (option float))
    (r : res exn unit)
| EQueue (x : queue_write) (r : res exn unit)
| EEmit (e : pyval) (r : res exn unit).

Section traced.
Context {W : Type} `{WorkerEnv W} `{Catalog W} `{QueueDb W} `{InstDb W}.
Abbreviation T := (W * list worker_event)%type.

#[local] Instance traced_worker_env : WorkerEnv T := {|
  load_config := unlogged load_config;
  open_pool := unlogged open_pool;
  close_pools := logged EClose close_pools;
  redis_ping := unlogged redis_ping;
  emit e := logged (EEmit e) (emit e);
  utc_now_iso := unlogged utc_now_iso;
  result_uuid := unlogged result_uuid;
  sp_get_queue_latest q := logged (EFetch q) (sp_get_queue_latest q);
  sp_ins_result i q p m := logged (EResult i q p m) (sp_ins_result i q p m)
|}.

#[local] Instance traced_catalog : Catalog T := {|
  cat_table t := logged (ETable t) (cat_table t);
  cat_config t := unlogged (cat_config t);
  cat_metric_path a m := unlogged (cat_metric_path a m)
|}.

#[local] Instance traced_job_queue : QueueDb T := {|
  sp_get_queue f := unlogged (sp_get_queue f);
  sp_ins_queue x := logged (EQueue x) (sp_ins_queue x);
  sp_ins_strategy n c u := unlogged (sp_ins_strategy n c u);
  sp_get_queued_count u i := unlogged (sp_get_queued_count u i);
  sp_get_result q s := unlogged (sp_get_result q s)
|}.

#[local] Instance quiet_instruments : InstDb T := {|
  sp_get_product := unlogged sp_get_product;
  sp_get_product_xref := unlogged sp_get_product_xref;
  sp_ins_product p := unlogged (sp_ins_product p);
  sp_ins_product_xref p a s := unlogged (sp_ins_product_xref p a s)
|}.

Context (validate : pyval → res exn OptimizeRequest) (format_exc : exn → string) (redis_url : string).
Context (perf_csv : PerformanceResponse → string) (optuna_plots : OptimizeResponse → pyval).
Context (optimize : InstrumentCache → OptimizeRequest → prog W exn OptimizeResponse).
Context (promote : job_row → pyval → string → prog W exn unit).

(** The worker over the log: the search and the promotion are one event each. *)
Definition traced_run : string → prog T exn Z :=
  worker_run validate format_exc redis_url perf_csv optuna_plots
    (λ c req, logged (EOptimize req) (optimize c req)) (λ job p q, logged (EPromote job p q) (promote job p q)).

Definition traced_main : (string → option string) → list string → prog T exn Z :=
  worker_main validate format_exc redis_url perf_csv optuna_plots
    (λ c req, logged (EOptimize req) (optimize c req)) (λ job p q, logged (EPromote job p q) (promote job p q)).

(** What a run that reached the queue row read: the identifiers of the two
    final statuses, each from its own reading of the status table, and the job. *)
Definition read_job (queue_id : string) (completed_id failed_id : Z) (job : job_row)
    (evs : list worker_event) : Prop :=
  ∃ rows1 rows2, resolve_queue_status_id rows1 "COMPLETED" = Ok completed_id ∧
    resolve_queue_status_id rows2 "FAILED" = Ok failed_id ∧
    evs = [ETable "queue_status" (Ok rows1); ETable "queue_status" (Ok rows2); EFetch queue_id (Ok (Some job))].

(** The logs of a job that was settled.  The job fetched was announced and its
    own configuration searched.  A search that raised failed it with its text,
    under the FAILED identifier; one that answered completed it under the
    COMPLETED identifier after its response was stored with its ten columns. *)
Inductive settled (queue_id : string) : list worker_event → Prop :=
| settled_failed read job completed_id failed_id req e ts ts' :
    read_job queue_id completed_id failed_id job read →
    validate (jr_config_json job) = Ok req →
    settled queue_id
      (read ++
       [EEmit (VDict [("type", VStr "started"); ("queue_id", VStr queue_id); ("ts", VStr ts)]) (Ok tt);
        EOptimize req (Raise e);
        EQueue (mkQueueWrite queue_id (jr_strategy_id job) (jr_strategy_vid job) failed_id (jr_priority job)
                  (jr_user_id job) (Some (if isinstance e CBacktestError then exn_msg e else format_exc e))) (Ok tt);
        EEmit (VDict [("type", VStr "terminal"); ("queue_id", VStr queue_id); ("status", VStr "FAILED");
                      ("ts", VStr ts')]) (Ok tt)])
| settled_completed read job completed_id failed_id req response result_id metrics promoted ts ts' :
    read_job queue_id completed_id failed_id job read →
    validate (jr_config_json job) = Ok req →
    extract_shredded_metrics (dump_response perf_csv optuna_plots response) = Ok metrics →
    settled queue_id
      (read ++
       [EEmit (VDict [("type", VStr "started"); ("queue_id", VStr queue_id); ("ts", VStr ts)]) (Ok tt);
        EOptimize req (Ok response);
        EResult result_id queue_id (dump_response perf_csv optuna_plots response) metrics (Ok tt);
        EPromote job (dump_response perf_csv optuna_plots response) queue_id promoted;
        EQueue (mkQueueWrite queue_id (jr_strategy_id job) (jr_strategy_vid job) completed_id (jr_priority job)
                  (jr_user_id job) None) (Ok tt);
        EEmit (VDict [("type", VStr "terminal"); ("queue_id", VStr queue_id); ("status", VStr "COMPLETED");
                      ("result_id", VStr result_id); ("ts", VStr ts')]) (Ok tt)]).

(** Whether the queue accepted a row. *)
Definition accepted (ev : worker_event) : bool := match ev with EQueue _ (Ok _) => true | _ => false end.

(** The logs of a run that broke off: no row accepted, or everything of a
    settled job but its last announcement. *)
Definition unsettled (queue_id : string) (evs : list worker_event) : Prop :=
  forallb (λ ev, negb (accepted ev)) evs = true ∨
  ∃ evs' e, settled queue_id (evs' ++ [EEmit e (Ok tt)])%list ∧
    (evs = evs' ∨ ∃ err, evs = (evs' ++ [EEmit e (Raise err)])%list).

(** Where a run from the log [tr] may end. *)
Definition broke_off (queue_id : string) (tr : list worker_event) (_ : exn) (s : T) : Prop :=
  ∃ evs, s.2 = (tr ++ evs)%list ∧ unsettled queue_id evs.

Lemma broke_here q tr evs e w : unsettled q evs → broke_off q tr e (w, (tr ++ evs)%list).
Proof. by exists evs. Qed.

Lemma broke_now q tr e w : broke_off q tr e (w, tr).
Proof. exists []. split; [by rewrite app_nil_r|by left]. Qed.

(** No row accepted so far, and none by this event. *)
Lemma unsettled_snoc q evs ev :
  forallb (λ ev, negb (accepted ev)) evs = true → accepted ev = false → unsettled q (evs ++ [ev])%list.
Proof. intros Hevs Hev. left. rewrite forallb_app, Hevs. simpl. by rewrite Hev. Qed.

(** All but the last announcement of a settled job. *)
Lemma unsettled_last q evs e r :
  settled q (evs ++ [EEmit e (Ok tt)])%list → r = [] ∨ (∃ err, r = [EEmit e (Raise err)]) →
  unsettled q (evs ++ r)%list.
Proof. intros Hs [->|[err ->]]; right; exists evs, e; split; [done|rewrite app_nil_r; by left|done|right; by exists err]. Qed.

Definition settles (queue_id : string) (tr : list worker_event) (code : Z) (s : T) : Prop :=
  code = 0 ∧ ∃ evs, s.2 = (tr ++ evs)%list ∧ settled queue_id evs.

(** What was read and announced before the branches. *)
Definition opening (queue_id ts : string) (read : list worker_event) (req : OptimizeRequest)
    (r : res exn OptimizeResponse) : list worker_event :=
  read ++ [EEmit (started_event queue_id ts) (Ok tt); EOptimize req r].

Lemma opening_quiet q ts read req r c f job :
  read_job q c f job read → forallb (λ ev, negb (accepted ev)) (opening q ts read req r) = true.
Proof. by intros (rows1 & rows2 & _ & _ & ->). Qed.

(** The failure branch. *)
Lemma fail_job_settles q read job completed_id failed_id req e ts w tr :
  read_job q completed_id failed_id job read → validate (jr_config_json job) = Ok req →
  wp (fail_job format_exc q job failed_id e) (settles q tr) (broke_off q tr)
     (w, (tr ++ opening q ts read req (Raise e))%list).
Proof.
  intros Hread Hval. pose proof (opening_quiet q ts read req (Raise e) _ _ _ Hread) as Hq.
  pose proof (λ ts', settled_failed q read job completed_id failed_id req e ts ts' Hread Hval) as Hset.
  unfold fail_job. rewrite wp_bind. apply wp_event; [intros [] w1|intros x w1]; rewrite <-app_assoc.
  2: { apply broke_here. by apply unsettled_snoc. }
  rewrite wp_bind. apply wp_unlogged; [intros ts' w2 _|intros x w2].
  2: { apply broke_here. rewrite <-(app_nil_r (opening _ _ _ _ _ ++ _)).
       eapply unsettled_last; [|by left]. unfold opening. rewrite <-!app_assoc. exact (Hset ts). }
  rewrite wp_bind. apply wp_event; [intros [] w3|intros x w3]; rewrite <-app_assoc.
  2: { apply broke_here. eapply unsettled_last; [|right; by eexists].
       unfold opening. rewrite <-!app_assoc. exact (Hset ts'). }
  rewrite wp_ret. split; [done|]. eexists. split; [reflexivity|].
  unfold opening. rewrite <-!app_assoc. exact (Hset ts').
Qed.

(** The success branch. *)
Lemma complete_job_settles q read job completed_id failed_id req response ts w tr :
  read_job q completed_id failed_id job read → validate (jr_config_json job) = Ok req →
  wp (complete_job perf_csv optuna_plots (λ job p q, logged (EPromote job p q) (promote job p q))
        q job completed_id response)
     (settles q tr) (broke_off q tr) (w, (tr ++ opening q ts read req (Ok response))%list).
Proof.
  intros Hread Hval. pose proof (opening_quiet q ts read req (Ok response) _ _ _ Hread) as Hq.
  unfold complete_job. rewrite wp_bind. apply wp_unlogged; [intros rid w1 _|intros x w1].
  2: { apply broke_here. by left. }
  rewrite wp_bind, wp_lift_res. destruct (extract_shredded_metrics _) as [metrics|e] eqn:Hm.
  2: { apply broke_here. by left. }
  rewrite wp_bind. apply wp_event; [intros [] w2|intros x w2]; rewrite <-app_assoc.
  2: { apply broke_here. by apply unsettled_snoc. }
  pose proof (λ p ts', settled_completed q read job completed_id failed_id req response rid metrics p ts ts'
    Hread Hval Hm) as Hset.
  rewrite wp_bind, wp_catch.
  eassert (∀ p w3, wp _ (settles q tr) (broke_off q tr) (w3, ((tr ++ _) ++ [EPromote job _ q p])%list)) as Hrest.
  2: { apply wp_event; [intros [] w3; apply Hrest|intros x w3; rewrite wp_ret; apply Hrest]. }
  intros p w3. cbv beta. rewrite wp_bind. rewrite <-!app_assoc.
  set (mid := (opening _ _ _ _ _ ++ _ ++ _)%list).
  assert (forallb (λ ev, negb (accepted ev)) mid = true) as Hmid
    by (unfold mid; by rewrite forallb_app, Hq).
  apply wp_event; [intros [] w4|intros x w4]; rewrite <-app_assoc.
  2: { apply broke_here. by apply unsettled_snoc. }
  rewrite wp_bind. apply wp_unlogged; [intros ts' w5 _|intros x w5].
  2: { apply broke_here. rewrite <-(app_nil_r (mid ++ _)).
       eapply unsettled_last; [|by left]. unfold mid, opening. rewrite <-!app_assoc. exact (Hset p ts). }
  rewrite wp_bind. apply wp_event; [intros [] w6|intros x w6]; rewrite <-app_assoc.
  2: { apply broke_here. eapply unsettled_last; [|right; by eexists].
       unfold mid, opening. rewrite <-!app_assoc. exact (Hset p ts'). }
  rewrite wp_ret. split; [done|]. eexists. split; [reflexivity|].
  unfold mid, opening. rewrite <-!app_assoc. exact (Hset p ts').
Qed.

(** Reading a status is one event. *)
Lemma queue_status_reads name Q R w tr :
  (∀ rows i w', resolve_queue_status_id rows name = Ok i →
     Q i (w', (tr ++ [ETable "queue_status" (Ok rows)])%list)) →
  (∀ r e w', R e (w', (tr ++ [ETable "queue_status" r])%list)) → wp (queue_status name) Q R (w, tr).
Proof.
  intros HQ HR. unfold queue_status. rewrite wp_bind. apply wp_event; [|intros; apply HR]. intros rows w'.
  rewrite wp_lift_res. destruct (resolve_queue_status_id rows name) eqn:E; auto.
Qed.

Lemma load_instruments_quiet w tr : ∃ c w', load_instruments (w, tr) = (Ok c, (w', tr)).
Proof.
  unfold load_instruments, load_all, db, set_cache, get_cache, mbind, prog_bind, sp_get_product, sp_get_product_xref,
    quiet_instruments, unlogged. cbn [fst snd].
  destruct (Instruments.sp_get_product w) as [[ps|e] w1]; [|by eexists _, _]. cbn [fst snd].
  destruct (Instruments.sp_get_product_xref w1) as [[xs|e] w2]; by eexists _, _.
Qed.

(** Everything up to the announcement, of a run that gets there with [K]. *)
Lemma opening_wp {A} q (K : InstrumentCache → Z → Z → job_row → prog T exn A) Q R w tr :
  (∀ c i f job w' read, read_job q i f job read → wp (K c i f job) Q R (w', (tr ++ read)%list)) →
  (∀ e w' evs, forallb (λ ev, match ev with ETable _ _ | EFetch _ _ => true | _ => false end) evs = true →
     R e (w', (tr ++ evs)%list)) →
  wp (_ ← require_redis redis_url; c ← load_instruments; i ← queue_status "COMPLETED"; f ← queue_status "FAILED";
      job ← fetch_job q; K c i f job) Q R (w, tr).
Proof.
  intros HK HR. assert (∀ e w', R e (w', tr)) as HR0 by (intros; rewrite <-(app_nil_r tr); by apply HR).
  unfold require_redis. rewrite !wp_bind.
  apply wp_unlogged; [intros up w1 _|done]. destruct up; [|apply HR0].
  rewrite wp_ret, wp_bind. destruct (load_instruments_quiet w1 tr) as (c & w2 & E). unfold wp at 1. rewrite E. clear E.
  rewrite wp_bind. apply queue_status_reads; [intros rows1 i w3 Hi|intros; by apply HR].
  rewrite wp_bind. apply queue_status_reads; [intros rows2 f w4 Hf|intros; rewrite <-app_assoc; by apply HR].
  unfold fetch_job. rewrite !wp_bind. rewrite <-app_assoc.
  apply wp_event; [intros row w5|intros]; rewrite <-app_assoc; [|by apply HR].
  destruct row as [job|]; [|by apply HR]. rewrite wp_ret. apply HK. by exists rows1, rows2.
Qed.

Lemma reads_unaccepted evs :
  forallb (λ ev, match ev with ETable _ _ | EFetch _ _ => true | _ => false end) evs = true →
  forallb (λ ev, negb (accepted ev)) evs = true.
Proof. rewrite !forallb_forall. intros Hall ev Hin. specialize (Hall ev Hin). by destruct ev. Qed.

Lemma traced_run_settles q w tr : wp (traced_run q) (settles q tr) (broke_off q tr) (w, tr).
Proof.
  unfold traced_run, worker_run. apply opening_wp.
  2: { intros. apply broke_here. left. by apply reads_unaccepted. }
  intros c i f job w5 read Hread.
  assert (forallb (λ ev, negb (accepted ev)) read = true) as Hq by by destruct Hread as (? & ? & _ & _ & ->).
  rewrite wp_bind. apply wp_unlogged; [intros ts w6 _|intros; apply broke_here; by left].
  rewrite wp_bind. apply wp_event; [intros [] w7|intros e w7]; rewrite <-app_assoc;
    [|apply broke_here; by apply unsettled_snoc].
  rewrite wp_bind, wp_lift_res. destruct (validate _) as [req|e] eqn:Hval;
    [|apply broke_here; by apply unsettled_snoc].
  rewrite wp_bind. unfold wp at 1, attempt, logged. cbn [fst snd].
  destruct (optimize c req w7) as [[response|e] w8]; rewrite <-!app_assoc;
    [by eapply complete_job_settles|by eapply fail_job_settles].
Qed.
End traced.

(** C8. The exit code tells what the queue holds.  With code 0 the job of the
    command line was settled: its row was fetched and announced, its own
    configuration searched, and it was failed with the text of the search's
    exception under the FAILED identifier, or completed under the COMPLETED one
    after the search's response was stored; then the pools were closed.  With
    code 1 or 2 no row of it was accepted, save one whose announcement broke
    off; arguments that name no job leave no trace and give 2.  Nothing escapes
    but what reading the configuration or closing the pools raised. *)
Theorem worker_exit_code {W} `{WorkerEnv W} `{Catalog W} `{QueueDb W} `{InstDb W}
    validate format_exc redis_url perf_csv plots optimize promote parse_uuid argv w tr :
  match traced_main (W:=W) validate format_exc redis_url perf_csv plots optimize promote parse_uuid argv (w, tr) with
  | (Ok code, (_, tr')) =>
      code = 2 ∧ tr' = tr ∧ (∀ prog_name arg, argv = [prog_name; arg] → parse_uuid arg = None) ∨
      ∃ prog_name arg q evs, argv = [prog_name; arg] ∧ parse_uuid arg = Some q ∧
        tr' = (tr ++ evs ++ [EClose (Ok tt)])%list ∧
        (code = 0 ∧ settled validate format_exc perf_csv plots q evs ∨
         (code = 1 ∨ code = 2) ∧ unsettled validate format_exc perf_csv plots q evs)
  | (Raise e, (w', tr')) =>
      load_config w = (Raise e, w') ∧ tr' = tr ∨
      ∃ q evs, tr' = (tr ++ evs ++ [EClose (Raise e)])%list ∧
        (settled validate format_exc perf_csv plots q evs ∨ unsettled validate format_exc perf_csv plots q evs)
  end.
Proof.
  unfold traced_main, worker_main, mbind at 1, prog_bind at 1. cbn [load_config traced_worker_env]. unfold unlogged at 1.
  cbn [fst snd]. destruct (Worker.load_config w) as [[[]|e] w1] eqn:Hl; [|by left].
  destruct argv as [|prog_name [|arg [|? ?]]]; try (left; split_and!; [done|done|by intros]).
  destruct (parse_uuid arg) as [q|] eqn:Hq; [|left; split_and!; [done|done|by intros ? ? [= <- <-]]].
  set (m := catch _ _).
  assert (wp m (λ code s, ∃ evs, s.2 = (tr ++ evs)%list ∧
    (code = 0 ∧ settled validate format_exc perf_csv plots q evs ∨
     (code = 1 ∨ code = 2) ∧ unsettled validate format_exc perf_csv plots q evs)) (λ _ _, False) (w1, tr)) as Hm.
  { unfold m. rewrite wp_catch, wp_bind. apply wp_unlogged.
    - intros [] w2 _. eapply wp_mono; [apply (traced_run_settles validate format_exc redis_url perf_csv plots optimize
        promote q w2 tr)| |].
      + intros code s [-> (evs & Hs & Hset)]. exists evs. split; [done|]. by left.
      + intros e s (evs & Hs & Hun). rewrite wp_ret. exists evs. split; [done|]. right. split; [|done].
        destruct (isinstance e CLookupError); auto.
    - intros e w2. rewrite wp_ret. exists []. split; [by rewrite app_nil_r|]. right. split; [|by left].
      destruct (isinstance e CLookupError); auto. }
  unfold finally. destruct (m (w1, tr)) as [[code|e] [w2 tr2]] eqn:E; apply (wp_elim _ _ _ _ Hm) in E; [|done].
  cbn [close_pools traced_worker_env]. unfold logged. cbn [fst snd].
  destruct E as (evs & Hs & Hcode). simpl in Hs. subst tr2.
  destruct (Worker.close_pools w2) as [[[]|e] w3]; right; rewrite <-app_assoc.
  - by exists prog_name, arg, q, evs.
  - exists q, evs. split; [done|]. destruct Hcode as [[_ ?]|[_ ?]]; auto.
Qed.

(** ** What is stored with a result *)

(** Lookups at literal keys. *)
Ltac dict_simpl :=
  cbn [dict_get fst snd]; repeat first [rewrite decide_True by reflexivity | rewrite decide_False by discriminate].

(** A metric as a result column holds it. *)
Definition column_of (x : float) : option float := if is_finite x then Some x else None.

Lemma metric_value_reported x : metric_value (none_if_nan x) = Ok (column_of x).
Proof. by destruct x. Qed.

Lemma read_metrics_dict xs rest : length xs = length METRICS →
  read_metrics (VDict (metrics_dict xs ++ rest)%list) = Ok (column_of <$> xs).
Proof.
  intros Hlen. do 5 (destruct xs as [|? xs]; [done|]). destruct xs; [|done].
  unfold read_metrics. cbn -[metric_value column_of none_if_nan]. dict_simpl.
  unfold default, id. by rewrite !metric_value_reported.
Qed.

(** The ten numbers stored beside a finished job are the metrics the engine
    computed for the report, five of the strategy and five of buying and holding,
    an unknown or infinite one stored as null. *)
Theorem result_columns `{Pandas} `{Numpy} `{Reductions} str_stamp perf_csv plots data config best fee obs p response :
  build_perf_response str_stamp data config best fee obs = Ok p → or_performance response = Some p →
  ∃ ps pe strat bh,
    perf_params (length (get_substrategies config)) best = Ok ps ∧
    evaluate_performance data config ps fee obs = Ok pe ∧
    get_strategy_performance pe.1 pe.2 = Ok strat ∧ get_buy_hold_performance pe.1 pe.2 = Ok bh ∧
    extract_shredded_metrics (dump_response perf_csv plots response) = Ok (column_of <$> strat, column_of <$> bh).
Proof.
  intros Hp Hr. unfold build_perf_response in Hp. apply bind_Ok in Hp as (ps & Hps & Hp).
  apply bind_Ok in Hp as ([perf e] & Hpe & Hp). apply bind_Ok in Hp as (strat & Hs & Hp).
  apply bind_Ok in Hp as (bh & Hb & [= <-]). exists ps, (perf, e), strat, bh. do 4 (split; [done|]).
  unfold extract_shredded_metrics, get_dict_or, dump_response. cbn [get]. dict_simpl. rewrite Hr.
  assert (length strat = length METRICS) as Ls.
  { unfold get_strategy_performance in Hs. by apply bind_Ok in Hs as (t & _ & [= <-]). }
  assert (length bh = length METRICS) as Lb.
  { unfold get_buy_hold_performance in Hb. by apply bind_Ok in Hb as (t & _ & [= <-]). }
  pose proof (read_metrics_dict bh [] Lb) as Hbh. rewrite app_nil_r in Hbh.
  cbn -[read_metrics metrics_dict column_of dict_get]. dict_simpl. unfold default, id. rewrite (read_metrics_dict strat _ Ls), Ok_bind.
  by rewrite Hbh.
Qed.

(** A log without a search, a result or a row. *)
Definition untouched (evs : list worker_event) : Prop :=
  forallb (λ ev, match ev with EOptimize _ _ | EResult _ _ _ _ _ | EQueue _ _ | EPromote _ _ _ _ => false
                 | _ => true end) evs = true.

(** A run whose configuration does not validate raises before it has written
    anything, after its start event with a [ValueError]. *)
Lemma traced_run_invalid {W} `{WorkerEnv W} `{Catalog W} `{QueueDb W} `{InstDb W}
    validate format_exc redis_url perf_csv plots optimize promote q w tr :
  (∀ v, ∃ e, validate v = Raise e) →
  wp (traced_run (W:=W) validate format_exc redis_url perf_csv plots optimize promote q) (λ _ _, False)
     (λ e s, ∃ evs, s.2 = (tr ++ evs)%list ∧ untouched evs ∧
        ((∃ ev, EEmit ev (Ok tt) ∈ evs) → ∃ m, e = ValueError m)) (w, tr).
Proof.
  intros Hv. unfold traced_run, worker_run. apply opening_wp.
  2: { intros e w' evs Hevs. exists evs. unfold untouched. rewrite !forallb_forall in *. split_and!; [done| |].
    - intros ev Hin. specialize (Hevs ev Hin). by destruct ev.
    - intros [ev Hin]. apply list_elem_of_In, Hevs in Hin. done. }
  intros c i f job w5 read (rows1 & rows2 & _ & _ & ->).
  rewrite wp_bind. apply wp_unlogged; [intros ts w6 _|intros e w6; eexists; split_and!; [done|done|]].
  2: { intros [ev Hin]. set_solver. }
  rewrite wp_bind. apply wp_event; [intros [] w7|intros e w7]; rewrite <-app_assoc.
  2: { eexists. split_and!; [done|done|]. intros [ev Hin]. set_solver. }
  rewrite wp_bind, wp_lift_res. destruct (Hv (jr_config_json job)) as [e He]. rewrite He.
  eexists. split_and!; [done|done|]. by eexists.
Qed.

(** A configuration that does not validate leaves its job as it was: nothing is
    searched, no row and no result is written for it, and a worker that announced
    the job exits with code 1, not with the code of a configuration error. *)
Theorem invalid_config_exits_1 {W} `{WorkerEnv W} `{Catalog W} `{QueueDb W} `{InstDb W}
    validate format_exc redis_url perf_csv plots optimize promote parse_uuid prog_name arg q w tr code w' tr' :
  (∀ v, ∃ e, validate v = Raise e) → parse_uuid arg = Some q →
  traced_main (W:=W) validate format_exc redis_url perf_csv plots optimize promote parse_uuid [prog_name; arg] (w, tr)
    = (Ok code, (w', tr')) →
  ∃ evs, tr' = (tr ++ evs ++ [EClose (Ok tt)])%list ∧ untouched evs ∧ (code = 1 ∨ code = 2) ∧
    ((∃ ev, EEmit ev (Ok tt) ∈ evs) → code = 1).
Proof.
  intros Hv Hq. unfold traced_main, worker_main. intros ([] & [w1 tr1] & Hl & Hm)%bind_inv. rewrite Hq in Hm.
  assert (tr1 = tr) as ->.
  { unfold load_config, traced_worker_env, unlogged in Hl. cbn [fst snd] in Hl.
    destruct (Worker.load_config w). by injection Hl. }
  unfold finally in Hm. destruct (catch _ _ (w1, tr)) as [r [w2 tr2]] eqn:E.
  cbn [close_pools traced_worker_env] in Hm. unfold logged in Hm. cbn [fst snd] in Hm.
  destruct (Worker.close_pools w2) as [[[]|?] w3]; [|done]. injection Hm as -> <- <-.
  eapply (wp_elim _ (λ code s, ∃ evs, s.2 = (tr ++ evs)%list ∧ untouched evs ∧ (code = 1 ∨ code = 2) ∧
    ((∃ ev, EEmit ev (Ok tt) ∈ evs) → code = 1)) (λ _ _, False)) in E.
  { destruct E as (evs & Hs & Hrest). simpl in Hs. subst tr2. exists evs. by rewrite <-app_assoc. }
  assert (∀ e : exn, (if isinstance e CLookupError then 2 else 1) = 1 ∨ (if isinstance e CLookupError then 2 else 1) = 2)
    as Hcode by (intros e; destruct (isinstance e CLookupError); auto).
  rewrite wp_catch, wp_bind. apply wp_unlogged.
  - intros [] w4 _. eapply wp_mono; [by apply traced_run_invalid|done|].
    intros e s (evs & Hs & Hun & He). rewrite wp_ret. exists evs. split_and!; [done|done|auto|].
    intros Hev. by destruct (He Hev) as [m ->].
  - intros e w4. rewrite wp_ret. exists []. rewrite app_nil_r. split_and!; [done|done|auto|]. intros [ev Hin]. set_solver.
Qed.

(** ** A worker without surroundings *)

Module Bare.
Definition job : job_row := mkJob VNone "s" 1 5 "u".

#[global] Instance env : WorkerEnv unit := {|
  load_config s := (Ok tt, s); open_pool s := (Ok tt, s); close_pools s := (Ok tt, s);
  redis_ping s := (Ok true, s); emit _ s := (Ok tt, s); utc_now_iso s := (Ok "now", s);
  result_uuid s := (Ok "r", s); sp_get_queue_latest _ s := (Ok (Some job), s);
  sp_ins_result _ _ _ _ s := (Ok tt, s)
|}.

Definition statuses : list pyval :=
  [VDict [("name", VStr "COMPLETED"); ("queue_status_id", VInt 3)];
   VDict [("name", VStr "FAILED"); ("queue_status_id", VInt 4)]].

#[global] Instance tables : Catalog unit := {|
  cat_table _ s := (Ok statuses, s); cat_config _ s := (Ok [], s);
  cat_metric_path _ _ s := (Ok None, s)
|}.

#[global] Instance queue : QueueDb unit := {|
  sp_get_queue _ s := (Ok [], s); sp_ins_queue _ s := (Ok tt, s); sp_ins_strategy _ _ _ s := (Ok ("s", 1), s);
  sp_get_queued_count _ _ s := (Ok 0, s); sp_get_result _ _ s := (Ok None, s)
|}.

#[global] Instance products : InstDb unit := {|
  sp_get_product s := (Ok [], s); sp_get_product_xref s := (Ok [], s);
  sp_ins_product _ s := (Ok (1, 1), s); sp_ins_product_xref _ _ _ s := (Ok (1, 1), s)
|}.

(** No configuration validates. *)
Definition main : prog (unit * list worker_event) exn Z :=
  traced_main (λ _, Raise (ValueError "missing")) exn_msg "redis" (λ _, "") (λ _, VNone)
    (λ _ _, raise (ValueError "unused")) (λ _ _ _, mret tt) Some ["worker"; "q"].
End Bare.

Lemma invalid_config_exits_1_witness :
  let evs := [ETable "queue_status" (Ok Bare.statuses); ETable "queue_status" (Ok Bare.statuses);
              EFetch "q" (Ok (Some Bare.job)); EEmit (started_event "q" "now") (Ok tt); EClose (Ok tt)] in
  Bare.main (tt, []) = (Ok 1, (tt, evs)) ∧
  ∃ evs', evs = ([] ++ evs' ++ [EClose (Ok tt)])%list ∧ untouched evs' ∧ (1 = 1 ∨ 1 = 2) ∧
    ((∃ ev, EEmit ev (Ok tt) ∈ evs') → 1 = 1).
Proof.
  intros evs. assert (Bare.main (tt, []) = (Ok 1, (tt, evs))) as E by reflexivity. split; [exact E|].
  exact (@invalid_config_exits_1 unit Bare.env Bare.tables Bare.queue Bare.products (λ _, Raise (ValueError "missing"))
    exn_msg "redis" (λ _, "") (λ _, VNone) (λ _ _, raise (ValueError "unused")) (λ _ _ _, mret tt) Some "worker" "q" "q"
    tt [] 1 tt evs (λ _, ex_intro _ _ eq_refl) eq_refl E).
Defined.

Lemma result_columns_witness :
  let main := mkFrame [1; 2; 3; 4; 5] [("price", of_Z <$> [9; 12; 11; 30; 20]); ("factor", of_Z <$> [9; 12; 11; 30; 20])] in
  let config := mkStrategyConfig "btc" "get_sma" momentum_band_signal 365 "id" "" "AND" [] in
  let data := [("btc", main)] in
  let best := [("window", VInt 1); ("signal", VFloat (of_Z 10))] in
  ∃ p, @build_perf_response pandas_ref numpy_ref reductions_ref str_Z data config best None 0 = Ok p ∧
    ∃ ps pe strat bh,
      perf_params (length (get_substrategies config)) best = Ok ps ∧
      @evaluate_performance pandas_ref numpy_ref reductions_ref data config ps None 0 = Ok pe ∧
      @get_strategy_performance reductions_ref pe.1 pe.2 = Ok strat ∧
      @get_buy_hold_performance reductions_ref pe.1 pe.2 = Ok bh ∧
      extract_shredded_metrics
        (dump_response (λ _, "") (λ _, VNone) (mkOptimizeResponse 1 1 best [] [] (Some p) None None))
      = Ok (column_of <$> strat, column_of <$> bh).
Proof.
  intros main config data best.
  destruct (@build_perf_response pandas_ref numpy_ref reductions_ref str_Z data config best None 0) as [p|] eqn:Hp.
  2: { exfalso. vm_compute in Hp. discriminate. }
  exists p. split; [reflexivity|].
  exact (@result_columns pandas_ref numpy_ref reductions_ref str_Z (λ _, "") (λ _, VNone) data config best None 0 p
           (mkOptimizeResponse 1 1 best [] [] (Some p) None None) Hp eq_refl).
Defined.
