(* ===== verification/Capture.v ===== *)
(** * Capturing market data

    [quant/market_data/warm.py], [subscriptions.py] and [series_subscr.py]: the
    pass that fetches bars before anybody asks for them, and the standing requests
    it serves.  The price bar service of each venue is an interface, which
    [BarService] implements; the stored procedures are parameters. *)
From S2P Require Import Prelude PyFloat PyData Order Errors PyValue Instruments Intervals RefData.
From S2P Require Import BarFetcher BarService.
Local Open Scope string_scope.
Local Open Scope Z_scope.

(** What capture asks of the price bar service of an app. *)
Class BarServices (W : Type) := {
  svc_for_app : Z → prog W exn unit;
  svc_sync : Z → list (string * Z) → Z → Z → option datetime → prog W exn SyncResult;
  svc_bounds : Z → series → prog W exn (option (Z * Z));
  svc_gaps : Z → series → Z → Z → prog W exn (list Z);
  svc_depth : Z → series → prog W exn (option Z * option Z);
  svc_plan : Z → series → datetime → prog W exn BackfillPlan;
  svc_backfill : Z → series → datetime → option datetime → prog W exn BackfillResult
}.

(** The services over one table, each app with the source of its exchange. *)
Definition bar_services {W} `{BarStore W} `{ReferenceData W} (source : Z → BarSource W)
    (for_app : Z → prog W exn unit) (instruments : InstrumentCache)
    (default_type_for : Z → option (string → res exn (option string))) : BarServices W := {|
  svc_for_app := for_app;
  svc_sync app := @sync W _ (source app) _ instruments (default_type_for app);
  svc_bounds _ := stored_bounds;
  svc_gaps _ := find_gaps;
  svc_depth app k := @venue_depth W (source app) _ instruments (default_type_for app) k None;
  svc_plan app k target := @plan_backfill W _ (source app) _ k target None;
  svc_backfill app k start end_ := @backfill W _ (source app) _ instruments (default_type_for app) k start end_ None
|}.

(** ** Warming *)

(** A row an instrument source names. *)
Record warm_row := mkWarmRow { wr_tm_interval_id : Z; wr_internal_cusip : string; wr_app_id : Z }.

Record WarmResult := mkWarmResult {
  wm_tm_interval_id : Z;
  wm_app_id : Z;
  wm_instruments : Z;
  wm_inserted : Z;
  wm_failures : list (string * string)
}.

Definition zsum (xs : list Z) : Z := foldr Z.add 0 xs.

(** [WarmReport] *)
Definition report_instruments (results : list WarmResult) : Z := zsum (map wm_instruments results).
Definition report_inserted (results : list WarmResult) : Z := zsum (map wm_inserted results).
Definition report_failed (results : list WarmResult) : Z :=
  zsum (map (λ r, Z.of_nat (length (wm_failures r))) results).

(** [grouped[key].append(cusip)], group by group in order of arrival *)
Definition group_rows (rows : list warm_row) : list ((Z * Z) * list string) :=
  foldl (λ grouped row,
    let key := (wr_tm_interval_id row, wr_app_id row) in
    dict_set key (default [] (dict_get key grouped) ++ [wr_internal_cusip row])%list grouped) [] rows.

(** The order of the keys of a group. *)
Definition key_le (a b : Z * Z) : bool := (a.1 <? b.1) || (a.1 =? b.1) && (a.2 <=? b.2).

Section warm.
Context {W : Type} `{BarServices W}.
(** [time.sleep] and the clock *)
Context (sleep : float → prog W exn unit) (clock : prog W exn Z) (lookback : Z) (settle_s : float).

(** [_warm_group] *)
Definition warm_group (tm_interval_id app_id : Z) (cusips : list string) (now : option datetime)
    : prog W exn WarmResult :=
  service ← attempt (svc_for_app app_id);
  match service with
  | Raise e =>
      let failures := dict_comp id (λ _, exn_msg e) cusips in
      mret (mkWarmResult tm_interval_id app_id (Z.of_nat (length failures)) 0 failures)
  | Ok _ =>
      outcome ← svc_sync app_id (map (λ cusip, (cusip, app_id)) cusips) tm_interval_id lookback now;
      mret (mkWarmResult tm_interval_id app_id (sy_instruments outcome) (sy_inserted outcome) (sy_failures outcome))
  end.

(** [BarWarmer.run] *)
Definition warm_run (sources : list (prog W exn (list warm_row))) (now : option datetime)
    : prog W exn (list WarmResult) :=
  now ← match now with
        | Some now => mret now
        | None => _ ← sleep settle_s; us ← clock; mret (Utc us)
        end;
  rows ← for_each id sources;
  for_each (λ g, warm_group g.1.1 g.1.2 g.2 (Some now))
    (sorted_by (λ a b, key_le a.1 b.1) (group_rows (concat rows))).
End warm.

(** ** Standing requests *)

(** A current row of [SERIES_SUBSCR]; a row without a metric is a venue's bars. *)
Record subscr_row := mkSubscr {
  ss_id : string; ss_vid : Z; ss_internal_cusip : string; ss_app_id : Z; ss_app_metric_id : option Z;
  ss_tm_interval_id : Z; ss_is_enabled_ind : string; ss_backfill_from_ts : option Z; ss_transact_from_ts : Z
}.

(** The arguments of [SP_INS_SERIES_SUBSCR]. *)
Record subscr_write := mkSubscrWrite {
  sw_id : string; sw_internal_cusip : string; sw_app_id : Z; sw_app_metric_id : option Z;
  sw_tm_interval_id : Z; sw_is_enabled_ind : string; sw_backfill_from_ts : option Z
}.

Class SubscrDb (W : Type) := {
  sp_ins_subscr : subscr_write → prog W exn unit;
  sp_get_series_subscr : prog W exn (list subscr_row);
  sp_get_active_bar_subscriptions : prog W exn (list warm_row);
  subscr_uuid : prog W exn string
}.

(** A venue row as capture names it. *)
Record bar_subscr := mkBarSubscr {
  bs_id : string; bs_vid : Z; bs_internal_cusip : string; bs_tm_interval_id : Z; bs_source_app_id : Z;
  bs_is_enabled_ind : string; bs_backfill_from_ts : option Z; bs_transact_from_ts : Z
}.

(** [_bar_row] *)
Definition bar_row_of (r : subscr_row) : bar_subscr :=
  mkBarSubscr (ss_id r) (ss_vid r) (ss_internal_cusip r) (ss_tm_interval_id r) (ss_app_id r)
    (ss_is_enabled_ind r) (ss_backfill_from_ts r) (ss_transact_from_ts r).

Record coverage_info := mkCoverage {
  cv_first_bar : option Z; cv_last_bar : option Z; cv_gaps : option Z; cv_error : option string
}.

Definition SubscriptionError : string → exn := plain CSubscriptionError.

Section subscriptions.
Context {W : Type} `{SubscrDb W} `{BarServices W}.
Context (instruments : InstrumentCache).

(** [SeriesSubscrRepo.sp_ins_series_subscr] *)
Definition sp_ins_series_subscr (x : subscr_write) : prog W exn subscr_row :=
  _ ← (if String.eqb (strip (sw_id x)) "" then raise (ValueError "series_subscr_id is required") else mret tt);
  _ ← (if String.eqb (strip (sw_internal_cusip x)) "" then raise (ValueError "internal_cusip is required") else mret tt);
  if negb (String.eqb (sw_is_enabled_ind x) "Y" || String.eqb (sw_is_enabled_ind x) "N") then
    raise (ValueError ("is_enabled_ind must be Y or N, got " +:+ repr_str (sw_is_enabled_ind x)))
  else
    _ ← sp_ins_subscr x;
    rows ← sp_get_series_subscr;
    match filter (λ r, ss_id r = sw_id x) rows with
    | [] => raise (RuntimeError ("SP_INS_SERIES_SUBSCR succeeded but SP_GET returned no row for " +:+ sw_id x))
    | r :: _ => mret r
    end.

(** [_open_provider_id] *)
Definition open_provider_id (internal_cusip : string) (app_id app_metric_id tm_interval_id : Z)
    : prog W exn (option string) :=
  rows ← sp_get_series_subscr;
  mret (ss_id <$> head (filter (λ r,
    ss_internal_cusip r = internal_cusip ∧ ss_app_id r = app_id ∧ ss_app_metric_id r = Some app_metric_id ∧
    ss_tm_interval_id r = tm_interval_id) rows)).

(** [SeriesSubscrRepo.subscribe] *)
Definition provider_subscribe (internal_cusip : string) (app_id app_metric_id tm_interval_id : Z)
    (is_enabled_ind : string) (backfill_from_ts : option Z) (series_subscr_id : option string)
    : prog W exn subscr_row :=
  chosen ← match series_subscr_id with
           | Some i => mret (Some i)
           | None => open_provider_id internal_cusip app_id app_metric_id tm_interval_id
           end;
  i ← match chosen with Some i => mret i | None => subscr_uuid end;
  sp_ins_series_subscr
    (mkSubscrWrite i internal_cusip app_id (Some app_metric_id) tm_interval_id is_enabled_ind backfill_from_ts).

(** [_bar_service] *)
Definition bar_service (source_app_id : Z) : prog W exn unit :=
  catch (svc_for_app source_app_id) (λ _,
    raise (SubscriptionError ("app " +:+ str_Z source_app_id +:+
             " is not an exchange this platform can read bars from"))).

(** [vendor_symbol] *)
Definition vendor_symbol (internal_cusip : string) (source_app_id : Z) : option string :=
  resolve_internal_cusip instruments internal_cusip source_app_id.

(** [_reject_unwarmable] *)
Definition reject_unwarmable (internal_cusip : string) (source_app_id : Z) : prog W exn unit :=
  _ ← bar_service source_app_id;
  match vendor_symbol internal_cusip source_app_id with
  | None => raise (SubscriptionError ("no INST.PRODUCT_XREF row maps " +:+ repr_str internal_cusip +:+
      " to a symbol on app " +:+ str_Z source_app_id +:+
      " — the venue would be asked for a symbol it does not know"))
  | Some _ => mret tt
  end.

(** [BarSubscriptionService.subscribe] *)
Definition bar_subscribe (internal_cusip : string) (tm_interval_id source_app_id : Z) (is_enabled_ind : string)
    (backfill_from_ts : option Z) (series_subscr_id : option string) : prog W exn bar_subscr :=
  _ ← reject_unwarmable internal_cusip source_app_id;
  row ← catch
    (i ← match series_subscr_id with Some i => mret i | None => subscr_uuid end;
     sp_ins_series_subscr
       (mkSubscrWrite i internal_cusip source_app_id None tm_interval_id is_enabled_ind backfill_from_ts))
    (λ e,
      if bool_decide (exn_sqlstate e = Some UNIQUE_VIOLATION) then
        raise (SubscriptionError (internal_cusip +:+ " on interval " +:+ str_Z tm_interval_id +:+ " from app " +:+
          str_Z source_app_id +:+ " is already being captured — edit that subscription instead of creating a second one"))
      else raise e);
  mret (bar_row_of row).

(** [venue_rows] *)
Definition venue_rows : prog W exn (list bar_subscr) :=
  rows ← sp_get_series_subscr;
  mret (bar_row_of <$> filter (λ r, ss_app_metric_id r = None) rows).

(** [_coverage]; the count of holes is outside its [try]. *)
Definition subscr_coverage (k : series) : prog W exn coverage_info :=
  bounds ← attempt (_ ← bar_service (s_app k); svc_bounds (s_app k) k);
  match bounds with
  | Raise e => mret (mkCoverage None None None (Some (exn_msg e)))
  | Ok None => mret (mkCoverage None None None None)
  | Ok (Some (first_bar, last_bar)) =>
      gaps ← svc_gaps (s_app k) k first_bar last_bar;
      mret (mkCoverage (Some first_bar) (Some last_bar) (Some (Z.of_nat (length gaps))) None)
  end.

Definition subscr_series (r : bar_subscr) : series :=
  mkSeries (bs_internal_cusip r) (bs_tm_interval_id r) (bs_source_app_id r).

(** [list_subscriptions] *)
Definition list_subscriptions : prog W exn (list (bar_subscr * coverage_info * option string)) :=
  rows ← venue_rows;
  for_each (λ r, c ← subscr_coverage (subscr_series r);
                 mret (r, c, vendor_symbol (bs_internal_cusip r) (bs_source_app_id r))) rows.

(** [venue_depth]: the floor, the bars available and the ceiling of one fill *)
Definition subscr_depth (k : series) : prog W exn (option Z * option Z * Z) :=
  _ ← bar_service (s_app k);
  d ← svc_depth (s_app k) k;
  mret (d.1, d.2, MAX_BACKFILL_BARS).

(** [plan_backfill] *)
Definition subscr_plan (k : series) (target : datetime) : prog W exn BackfillPlan :=
  _ ← bar_service (s_app k); svc_plan (s_app k) k target.

(** [backfill] *)
Definition subscr_backfill (k : series) (start : datetime) (end_ : option datetime) : prog W exn BackfillResult :=
  _ ← bar_service (s_app k); svc_backfill (s_app k) k start end_.
End subscriptions.

(** ** What a pass leaves behind *)

(** The contract of the services a pass relies on: a batch never raises, settles
    each of its instruments, and undoes nothing an earlier batch left fresh. *)
Class SyncLaws (W : Type) `{BarServices W} := {
  sync_fresh : series → Z → Z → W → Prop;
  sync_period : Z → Z;
  svc_sync_settles app i lookback us cusips w : 0 < sync_period i →
    ∃ r w', svc_sync app (map (λ c, (c, app)) cusips) i lookback (Some (Utc us)) w = (Ok r, w') ∧
      ∀ c, c ∈ cusips → is_Some (dict_get c (sy_failures r)) ∨ sync_fresh (mkSeries c i app) lookback us w';
  svc_sync_keeps app i lookback now pairs k lb us :
    preserves (sync_fresh k lb us) (svc_sync app pairs i lookback now);
  svc_for_app_keeps app k lb us : preserves (sync_fresh k lb us) (svc_for_app app)
}.

Section pass.
Context {W : Type} `{SyncLaws W}.
Context (lookback : Z).

(** A result answers for the instruments of its group. *)
Definition answers (us : Z) (w : W) (g : (Z * Z) * list string) (r : WarmResult) : Prop :=
  wm_tm_interval_id r = g.1.1 ∧ wm_app_id r = g.1.2 ∧
  ∀ c, c ∈ g.2 → is_Some (dict_get c (wm_failures r)) ∨ sync_fresh (mkSeries c g.1.1 g.1.2) lookback us w.

Lemma warm_group_answers us g w : 0 < sync_period g.1.1 →
  ∃ r w', warm_group lookback g.1.1 g.1.2 g.2 (Some (Utc us)) w = (Ok r, w') ∧ answers us w' g r ∧
    ∀ k lb us', sync_fresh k lb us' w → sync_fresh k lb us' w'.
Proof.
  intros Hp. destruct g as [[i app] cusips]. cbn [fst snd] in *. unfold warm_group, attempt.
  unfold mbind at 1, prog_bind at 1. destruct (svc_for_app app w) as [[[]|e] w1] eqn:Hf.
  - destruct (svc_sync_settles app i lookback us cusips w1 Hp) as (r & w' & Hr & Hall).
    unfold mbind, prog_bind. rewrite Hr. eexists _, w'. split; [reflexivity|]. split; [by split_and!|].
    intros k lb us' Hk. pose proof (svc_for_app_keeps app k lb us' w Hk) as H1. rewrite Hf in H1.
    pose proof (svc_sync_keeps app i lookback (Some (Utc us)) (map (λ c, (c, app)) cusips) k lb us' w1 H1) as H2.
    by rewrite Hr in H2.
  - eexists _, w1. split; [reflexivity|]. split.
    + split_and!; [done..|]. intros c Hc. left. cbn [wm_failures]. rewrite dict_get_comp.
      destruct (last _) eqn:El; [by eexists|]. apply last_None in El.
      assert (c ∈ filter (λ x, id x = c) cusips) as Hin by (by apply list_elem_of_filter).
      rewrite El in Hin. by apply not_elem_of_nil in Hin.
    + intros k lb us' Hk. pose proof (svc_for_app_keeps app k lb us' w Hk) as H1. by rewrite Hf in H1.
Qed.

Lemma warm_groups_answer us gs w : (∀ g, g ∈ gs → 0 < sync_period g.1.1) →
  ∃ rs w', for_each (λ g, warm_group lookback g.1.1 g.1.2 g.2 (Some (Utc us))) gs w = (Ok rs, w') ∧
    Forall2 (answers us w') gs rs ∧ ∀ k lb us', sync_fresh k lb us' w → sync_fresh k lb us' w'.
Proof.
  revert w. induction gs as [|g gs IH]; intros w Hp; cbn [for_each].
  { exists [], w. split; [done|]. by split; [constructor|]. }
  destruct (warm_group_answers us g w) as (r & w1 & Hr & Ha & Hk1). { apply Hp. left. }
  destruct (IH w1) as (rs & w2 & Hrs & Has & Hk2). { intros g' Hg'. apply Hp. by right. }
  exists (r :: rs), w2. rewrite (bind_ok _ _ _ _ _ Hr), (bind_ok _ _ _ _ _ Hrs). split; [done|]. split; [|auto].
  constructor; [|done]. destruct Ha as (Hi & Happ & Hc). split_and!; [done..|].
  intros c Hin. destruct (Hc c Hin); auto.
Qed.
End pass.

(** Grouping keeps each row under its key, each key once. *)
Lemma group_rows_spec rows :
  NoDup (group_rows rows).*1 ∧
  (∀ row, row ∈ rows → ∃ cusips, ((wr_tm_interval_id row, wr_app_id row), cusips) ∈ group_rows rows ∧
     wr_internal_cusip row ∈ cusips) ∧
  ∀ g, g ∈ group_rows rows → ∃ row, row ∈ rows ∧ g.1 = (wr_tm_interval_id row, wr_app_id row).
Proof.
  unfold group_rows. induction rows as [|row rows (Hnd & Hrows & Hkeys)] using rev_ind.
  { split_and!; [apply NoDup_nil_2|by intros r ?%not_elem_of_nil|by intros g ?%not_elem_of_nil]. }
  rewrite foldl_snoc. set (d := foldl _ [] rows) in *. set (key := (wr_tm_interval_id row, wr_app_id row)).
  set (v := (default [] (dict_get key d) ++ [wr_internal_cusip row])%list). split_and!.
  - by apply dict_set_nodup.
  - intros r [Hr|[->|?%not_elem_of_nil]%elem_of_cons]%elem_of_app; [|exists v|done].
    + destruct (Hrows r Hr) as (cusips & Hin & Hc).
      destruct (decide ((wr_tm_interval_id r, wr_app_id r) = key)) as [E|Hne].
      * exists v. split; [rewrite E; apply dict_get_Some_elem, dict_get_set|]. unfold v.
        rewrite E in Hin. assert (dict_get key d = Some cusips) as -> by (by apply dict_get_nodup_elem).
        apply elem_of_app. by left.
      * exists cusips. split; [|done]. apply dict_get_Some_elem. rewrite dict_get_set_ne by done.
        by apply dict_get_nodup_elem.
    + split; [apply dict_get_Some_elem, dict_get_set|]. apply elem_of_app. right. left.
  - intros g Hg. assert (g.1 ∈ (dict_set key v d).*1) as Hk by (apply list_elem_of_fmap; by exists g).
    apply dict_set_keys in Hk as [->|Hk]; [exists row; split; [apply elem_of_app; right; left|done]|].
    apply list_elem_of_fmap in Hk as (g' & E & Hg'). destruct (Hkeys g' Hg') as (r & Hr & Er).
    exists r. split; [apply elem_of_app; by left|congruence].
Qed.

(** The contract met by [PriceBarService]: the services of one table, whose
    exchanges' sources all leave its bars alone. *)
Section implementation.
Context {W : Type} `{BarStore W} `{ReferenceData W} (source : Z → BarSource W) (for_app : Z → prog W exn unit).
Context (instruments : InstrumentCache) (default_type_for : Z → option (string → res exn (option string))).
Context (laws : ∀ app, @StoreLaws W _ (source app) _).
Context (one_table : ∀ app app' w k t, @stored _ _ _ _ (laws app) w k t → @stored _ _ _ _ (laws app') w k t).
Context (one_period : ∀ app i, @period_of _ _ _ _ (laws app) i = @period_of _ _ _ _ (laws 0) i).
Context (for_app_keeps : ∀ app app' k t, preserves (λ w, @stored _ _ _ _ (laws app) w k t) (for_app app')).

#[local] Instance impl : BarServices W := bar_services source for_app instruments default_type_for.

Definition service_fresh (k : series) (lookback us : Z) (w : W) : Prop :=
  @window_fresh W _ _ _ (laws (s_app k)) k lookback us w.

Definition bar_services_settle : SyncLaws W.
Proof.
  refine {| sync_fresh := service_fresh; sync_period := @period_of _ _ _ _ (laws 0) |}.
  - intros app i lookback us cusips w Hp. rewrite <-(one_period app) in Hp.
    destruct (@sync_settles W _ (source app) _ (laws app) instruments (default_type_for app) i lookback us
      (map (λ c, (c, app)) cusips) w Hp) as (r & w' & Hr & Hall).
    exists r, w'. split; [exact Hr|]. intros c Hc. apply Hall. apply list_elem_of_fmap. by exists c.
  - intros app i lookback now pairs k lb us w Hf. unfold service_fresh in *.
    eapply (@window_fresh_keeps W _ _ _ (laws (s_app k))); [|exact Hf]. intros t Ht. apply (one_table app).
    apply (one_table _ app) in Ht. exact (@sync_keeps W _ (source app) _ (laws app) instruments (default_type_for app)
      i lookback now pairs k t w Ht).
  - intros app k lb us w Hf. unfold service_fresh in *.
    eapply (@window_fresh_keeps W _ _ _ (laws (s_app k))); [|exact Hf]. intros t Ht. by apply for_app_keeps.
Defined.
End implementation.

(** A warming pass returns whatever the venues do, once its sources have
    answered, and accounts for every row they named: the result of its interval
    and venue either reports the failure of the instrument or leaves its window
    fresh when the pass ends, later batches included. *)
Theorem warm_pass_accounts {W} `{SyncLaws W} sleep clock lookback settle sources us (w : W) rows w1 :
  for_each id sources w = (Ok rows, w1) →
  (∀ row, row ∈ concat rows → 0 < sync_period (wr_tm_interval_id row)) →
  ∃ results w', warm_run sleep clock lookback settle sources (Some (Utc us)) w = (Ok results, w') ∧
    (∀ row, row ∈ concat rows → ∃ r, r ∈ results ∧
       wm_tm_interval_id r = wr_tm_interval_id row ∧ wm_app_id r = wr_app_id row ∧
       (is_Some (dict_get (wr_internal_cusip row) (wm_failures r)) ∨
        sync_fresh (mkSeries (wr_internal_cusip row) (wr_tm_interval_id row) (wr_app_id row)) lookback us w')) ∧
    NoDup ((λ r, (wm_tm_interval_id r, wm_app_id r)) <$> results).
Proof.
  intros Hsrc Hper. destruct (group_rows_spec (concat rows)) as (Hnd & Hrows & Hkeys).
  set (gs := sorted_by (λ a b : (Z * Z) * list string, key_le a.1 b.1) (group_rows (concat rows))).
  assert (gs ≡ₚ group_rows (concat rows)) as Hperm by apply sorted_by_perm.
  destruct (warm_groups_answer lookback us gs w1) as (rs & w' & Hrs & Hall & _).
  { intros g Hg. rewrite Hperm in Hg. destruct (Hkeys g Hg) as (row & Hrow & ->). by apply Hper. }
  exists rs, w'. split; [|split].
  - unfold warm_run. rewrite mret_bind, (bind_ok _ _ _ _ _ Hsrc). exact Hrs.
  - intros row Hrow. destruct (Hrows row Hrow) as (cusips & Hin & Hc). rewrite <-Hperm in Hin.
    apply list_elem_of_lookup in Hin as [n Hn]. destruct (Forall2_lookup_l _ _ _ _ _ Hall Hn) as (r & Hr & Hi & Ha & Hf).
    exists r. split; [by eapply list_elem_of_lookup_2|]. split; [done|]. split; [done|]. by apply Hf.
  - replace ((λ r, (wm_tm_interval_id r, wm_app_id r)) <$> rs) with gs.*1; [by rewrite Hperm|].
    clear -Hall. induction Hall as [|g r gs rs (Hi & Ha & _) Hall IH]; [done|]. rewrite !fmap_cons, IH.
    f_equal. rewrite Hi, Ha. by destruct g as [[]].
Qed.

(** The day table, two venues over it, and one app without a venue. *)
Module Days.
Definition for_app (app : Z) : prog (list Z) exn unit :=
  if app =? 99 then raise (ValueError "no market data venue") else mret tt.

#[global] Instance services : BarServices (list Z) :=
  @bar_services (list Z) day_store daily (λ _, day_venue) for_app btc_listed (λ _, None).

#[global] Instance laws : SyncLaws (list Z).
Proof.
  refine (@bar_services_settle (list Z) day_store daily (λ _, day_venue) for_app btc_listed (λ _, None)
            (λ _, day_laws) _ _ _); [done|done|].
  intros app app' k t w Hw. unfold for_app. by destruct (app' =? 99).
Defined.

Definition rows : list warm_row :=
  [mkWarmRow 1 "BTC.crypto" 11; mkWarmRow 1 "BTC.crypto" 99; mkWarmRow 1 "BTC.crypto" 11].
End Days.

Lemma warm_pass_accounts_witness :
  let us := 19005 * DAY in
  let sources : list (prog (list Z) exn (list warm_row)) := [mret Days.rows] in
  ∃ results w',
    warm_run (λ _, mret tt) (mret 0) 3 (of_Z 10) sources (Some (Utc us)) [] = (Ok results, w') ∧
    map wm_instruments results = [1; 1] ∧ map (λ r, length (wm_failures r)) results = [0%nat; 1%nat] ∧
    ∀ row, row ∈ concat [Days.rows] → ∃ r, r ∈ results ∧
      wm_tm_interval_id r = wr_tm_interval_id row ∧ wm_app_id r = wr_app_id row ∧
      (is_Some (dict_get (wr_internal_cusip row) (wm_failures r)) ∨
       sync_fresh (mkSeries (wr_internal_cusip row) (wr_tm_interval_id row) (wr_app_id row)) 3 us w').
Proof.
  intros us sources. assert (for_each id sources [] = (Ok [Days.rows], [])) as Hs by reflexivity.
  destruct (@warm_pass_accounts (list Z) Days.services Days.laws (λ _, mret tt) (mret 0) 3 (of_Z 10)
    sources us [] [Days.rows] [] Hs (λ _ _, eq_refl)) as (results & w' & Hr & Hall & _).
  exists results, w'. split; [exact Hr|].
  assert (map wm_instruments results = [1; 1] ∧ map (λ r, length (wm_failures r)) results = [0%nat; 1%nat]) as [H1 H2].
  { vm_compute in Hr. injection Hr as <- _. by split. }
  split; [exact H1|]. split; [exact H2|exact Hall].
Defined.

(** ** One open row per provider series *)

Definition written_row (x : subscr_write) (vid ts : Z) : subscr_row :=
  mkSubscr (sw_id x) vid (sw_internal_cusip x) (sw_app_id x) (sw_app_metric_id x) (sw_tm_interval_id x)
    (sw_is_enabled_ind x) (sw_backfill_from_ts x) ts.

(** The table: reading lists the current rows, an accepted insert replaces the row
    of its id by a new version, a refused one changes nothing, and a fresh id is
    no row's. *)
Class SubscrLaws (W : Type) `{SubscrDb W} := {
  current : W → list subscr_row;
  current_read w : sp_get_series_subscr w = (Ok (current w), w);
  ins_versions x w w' : sp_ins_subscr x w = (Ok tt, w') →
    ∃ vid ts, ∀ r, r ∈ current w' ↔ r = written_row x vid ts ∨ r ∈ current w ∧ ss_id r ≠ sw_id x;
  ins_refused x w e w' : sp_ins_subscr x w = (Raise e, w') → current w' = current w;
  uuid_keeps w r w' : subscr_uuid w = (r, w') → current w' = current w;
  uuid_new w i w' : subscr_uuid w = (Ok i, w') → ∀ r, r ∈ current w → ss_id r ≠ i
}.

Definition series_key (r : subscr_row) : string * Z * option Z * Z :=
  (ss_internal_cusip r, ss_app_id r, ss_app_metric_id r, ss_tm_interval_id r).

(** No two current rows are the same series of a provider. *)
Definition one_open (rows : list subscr_row) : Prop :=
  ∀ r r', r ∈ rows → r' ∈ rows → ss_app_metric_id r ≠ None → series_key r = series_key r' → ss_id r = ss_id r'.

Section unique.
Context {W : Type} `{SubscrLaws W}.

(** Writing a row, validation and reading back included. *)
Lemma ins_series_cases x w r w' : sp_ins_series_subscr x w = (r, w') →
  (current w' = current w ∧ ∃ e, r = Raise e) ∨
  ∃ vid ts, (∀ q, q ∈ current w' ↔ q = written_row x vid ts ∨ q ∈ current w ∧ ss_id q ≠ sw_id x) ∧
    r = Ok (written_row x vid ts).
Proof.
  unfold sp_ins_series_subscr. destruct (String.eqb (strip (sw_id x)) ""); [intros [= <- <-]; left; eauto|].
  rewrite mret_bind. destruct (String.eqb _ ""); [intros [= <- <-]; left; eauto|]. rewrite mret_bind.
  destruct (negb _); [intros [= <- <-]; left; eauto|]. unfold mbind at 1, prog_bind at 1.
  destruct (sp_ins_subscr x w) as [[[]|e] w1] eqn:E.
  2: { intros [= <- <-]. left. split; [by eapply ins_refused|eauto]. }
  destruct (ins_versions _ _ _ E) as (vid & ts & Hin). rewrite (bind_ok _ _ _ _ _ (current_read w1)).
  set (P := λ r : subscr_row, ss_id r = sw_id x).
  assert (∀ q, q ∈ filter P (current w1) → q = written_row x vid ts) as Hall.
  { intros q [Hq Hc]%list_elem_of_filter. apply Hin in Hc as [?|[_ Hne]]; [done|by destruct Hne]. }
  assert (written_row x vid ts ∈ filter P (current w1)) as Hself.
  { apply list_elem_of_filter. split; [done|]. apply Hin. by left. }
  destruct (filter P (current w1)) as [|q rest]; [by apply not_elem_of_nil in Hself|].
  intros [= <- <-]. right. exists vid, ts. split; [done|]. f_equal. apply Hall. left.
Qed.
End unique.

(** C28. A provider series is open once: whatever [subscribe] answers when it is
    asked without an id, no series has two current rows afterwards if none had
    before, and the row it returns is current, is that series, and versions the
    row that was open for it. *)
Theorem provider_series_open_once {W} `{SubscrLaws W} cusip app m i ind from (w : W) r w' :
  one_open (current w) → provider_subscribe cusip app m i ind from None w = (r, w') →
  one_open (current w') ∧
  ∀ row, r = Ok row → row ∈ current w' ∧ series_key row = (cusip, app, Some m, i) ∧ ss_is_enabled_ind row = ind ∧
    ∀ q, q ∈ current w → series_key q = (cusip, app, Some m, i) → ss_id q = ss_id row.
Proof.
  intros Hone. unfold provider_subscribe, open_provider_id. unfold mbind at 1, prog_bind at 1.
  rewrite (bind_ok _ _ _ _ _ (current_read w)). cbn [mret prog_ret].
  set (P := λ q : subscr_row, _). set (found := filter P (current w)).
  assert (∀ q, q ∈ found ↔ q ∈ current w ∧ series_key q = (cusip, app, Some m, i)) as Hfound.
  { intros q. unfold found, P, series_key. rewrite list_elem_of_filter. split.
    - intros ((-> & -> & -> & ->) & Hq). done.
    - intros (Hq & [= -> -> -> ->]). done. }
  assert (∀ id w1 r1 w2, current w1 = current w →
    (∀ q, q ∈ current w → series_key q = (cusip, app, Some m, i) → ss_id q = id) →
    sp_ins_series_subscr (mkSubscrWrite id cusip app (Some m) i ind from) w1 = (r1, w2) →
    one_open (current w2) ∧ ∀ row, r1 = Ok row → row ∈ current w2 ∧ series_key row = (cusip, app, Some m, i) ∧
      ss_is_enabled_ind row = ind ∧ ∀ q, q ∈ current w → series_key q = (cusip, app, Some m, i) → ss_id q = ss_id row)
    as Hwrite.
  { intros id w1 r1 w2 Hw1 Hid [[E [e ->]]|(vid & ts & Hin & ->)]%ins_series_cases; rewrite Hw1 in *.
    { split; [by rewrite E|done]. }
    split.
    - intros q q' Hq Hq' Hm Hk. apply Hin in Hq as [->|[Hq Hne]], Hq' as [->|[Hq' Hne']]; [done|..].
      + destruct Hne'. by apply Hid.
      + destruct Hne. by apply Hid.
      + by apply Hone.
    - intros row [= <-]. split; [apply Hin; by left|]. split; [done|]. split; [done|exact Hid]. }
  destruct found as [|q0 rest] eqn:Ef; cbn [head fmap option_fmap option_map].
  - unfold mbind at 1, prog_bind at 1. destruct (subscr_uuid w) as [[id|e] w1] eqn:Eu.
    + apply Hwrite; [by eapply uuid_keeps|]. intros q Hq Hk.
      assert (q ∈ []) as ?%not_elem_of_nil by (by apply Hfound). done.
    + intros [= <- <-]. split; [by rewrite (uuid_keeps _ _ _ Eu)|done].
  - rewrite mret_bind. apply Hwrite; [done|]. intros q Hq Hk.
    assert (q0 ∈ q0 :: rest) as [Hq0 Hk0]%Hfound by left. apply Hone; [done..| |congruence].
    injection Hk as _ _ -> _. done.
Qed.

Module Rows.
Definition row (id : string) (vid app metric : Z) : subscr_row :=
  mkSubscr id vid "btcusdt.crypto" app (Some metric) 1 "Y" None 0.

(** An id longer than every one in use. *)
Definition fresh_id (rows : list subscr_row) : string := foldr (λ r acc, ss_id r +:+ acc) "x" rows.

Lemma fresh_id_longer rows r : r ∈ rows → (String.length (ss_id r) < String.length (fresh_id rows))%nat.
Proof.
  assert (∀ s t, String.length (s +:+ t) = (String.length s + String.length t)%nat) as Happ.
  { intros s t. induction s as [|c s IH]; [done|]. change (String c s +:+ t) with (String c (s +:+ t)).
    cbn [String.length]. by rewrite IH. }
  assert (∀ l, (0 < String.length (fresh_id l))%nat) as Hpos.
  { induction l as [|q l IH]; cbn [fresh_id foldr]; [simpl; lia|]. rewrite Happ. fold (fresh_id l). lia. }
  induction rows as [|q rows IH]; [by intros ?%not_elem_of_nil|].
  cbn [fresh_id foldr]. fold (fresh_id rows). rewrite Happ. specialize (Hpos rows).
  intros [->|Hr]%elem_of_cons; [lia|]. specialize (IH Hr). lia.
Qed.

#[global] Instance db : SubscrDb (list subscr_row) := {|
  sp_ins_subscr x w := (Ok tt, written_row x 2 0 :: filter (λ r, ss_id r ≠ sw_id x) w);
  sp_get_series_subscr w := (Ok w, w);
  sp_get_active_bar_subscriptions w := (Ok [], w);
  subscr_uuid w := (Ok (fresh_id w), w)
|}.

#[global] Instance laws : SubscrLaws (list subscr_row).
Proof.
  refine {| current := λ w, w |}; [done|..].
  - intros x w w' [= <-]. exists 2, 0. intros r. rewrite elem_of_cons, list_elem_of_filter. tauto.
  - done.
  - by intros w r w' [= _ <-].
  - intros w i w' [= <- _] r Hr E. pose proof (fresh_id_longer w r Hr). rewrite E in H. lia.
Defined.
End Rows.

Lemma provider_series_open_once_witness :
  let w := [Rows.row "a" 1 7 40; Rows.row "b" 1 7 41] in
  one_open w ∧ ∃ row w', provider_subscribe "btcusdt.crypto" 7 41 1 "N" None None w = (Ok row, w') ∧
    one_open w' ∧ ss_id row = "b".
Proof.
  intros w. assert (one_open w) as Hone.
  { intros r r' Hr Hr'. unfold w in *. rewrite !elem_of_cons in Hr, Hr'.
    destruct Hr as [->|[->|?%not_elem_of_nil]], Hr' as [->|[->|?%not_elem_of_nil]]; done. }
  split; [exact Hone|]. eexists _, _. split; [reflexivity|].
  destruct (@provider_series_open_once (list subscr_row) Rows.db Rows.laws "btcusdt.crypto" 7 41 1 "N" None w _ _ Hone eq_refl) as [H1 H2].
  destruct (H2 _ eq_refl) as (_ & _ & _ & H3). split; [exact H1|]. symmetry.
  apply (H3 (Rows.row "b" 1 7 41)); [right; left|reflexivity].
Defined.
