(* ===== verification/Auth.v ===== *)
(** * Authentication

    [quant/api/auth]: password checks, session tokens, the cache of resolved
    users and who a maintenance route admits.  The account procedures, the
    Argon2 and JWT libraries, the process environment and the clocks are
    parameters; a UUID is its canonical text and the monotonic clock counts
    nanoseconds. *)
From S2P Require Import Prelude PyFloat PyData Errors PyValue Intervals RefData.
Local Open Scope string_scope.
Local Open Scope Z_scope.

(** The columns of an [APP_USER] row. *)
Record app_user := mkAppUser {
  au_id : string; au_username : string; au_password_hash : string;
  au_is_active_ind : option string; au_session_gen : Z
}.

Record CurrentUser := mkCurrentUser { cu_id : string; cu_username : string; cu_session_gen : Z }.

(** [AuthRepo] *)
Class AuthDb (W : Type) := {
  get_user_by_username : string → prog W exn (option app_user);
  get_user_by_id : string → prog W exn (option app_user);
  update_last_login : string → prog W exn unit
}.

(** [time.monotonic()] *)
Class Monotonic (W : Type) := { monotonic : prog W exn Z }.

(** [os.environ] *)
Class Environ (W : Type) := {
  getenv : string → prog W exn (option string);
  putenv : string → string → prog W exn unit
}.

(** What the libraries offer. *)
Class AuthLib (W : Type) := {
  (** [PasswordHasher.verify(hash, password)]: raises unless they match *)
  argon_verify : string → string → prog W exn unit;
  argon_hash : string → prog W exn string;
  check_needs_rehash : string → prog W exn bool;
  (** [jwt.encode], [jwt.decode] with the service's algorithm, issuer and required claims *)
  jwt_encode : pyval → string → prog W exn string;
  jwt_decode : string → string → prog W exn pyval;
  (** [int(time.time())] *)
  epoch_now : prog W exn Z;
  (** [secrets.token_urlsafe(32)] *)
  token_urlsafe : prog W exn string
}.

(** [AuthService] *)
Record AuthService := mkAuthService {
  as_jwt_secret : string;
  as_dummy_hash : string;
  as_cache : list (string * (Z * app_user))
}.

(** Texts whose length a request body bounds. *)
Definition length_between (lo hi : nat) (s : string) : bool :=
  (lo <=? String.length s)%nat && (String.length s <=? hi)%nat.

(** [LoginRequest]: the bounds of the fields are checked on what was sent, the
    validators then trim it; nothing stands for a refused body. *)
Definition login_request (username password : string) : option (string * string) :=
  if length_between 1 64 username && length_between 12 128 password then
    let name := lower (strip username) in
    if String.eqb name "" then None else Some (name, strip password)
  else None.

Definition HTTPException (status_code : Z) (detail : string) : exn :=
  mkExn COther detail (Some status_code) None None.
Definition UNAUTHORIZED : exn := HTTPException 401 "Not authenticated".
Definition GENERIC_LOGIN_FAILURE : exn := HTTPException 401 "Invalid username or password.".

Definition JWT_TTL_SECONDS : Z := 7 * 24 * 60 * 60.
(** five seconds of the monotonic clock *)
Definition CACHE_TTL : Z := 5 * 1000000000.

(** [_app_user_row_is_active] *)
Definition is_active (u : app_user) : bool :=
  match au_is_active_ind u with
  | None => false
  | Some v => String.eqb (upper (strip v)) "Y"
  end.

(** ** [UUID(text)] *)

Definition hex_val (c : ascii) : option Z :=
  let n := Z.of_N (N_of_ascii (lower_char c)) in
  if (48 <=? n) && (n <=? 57) then Some (n - 48)
  else if (97 <=? n) && (n <=? 102) then Some (n - 87)
  else None.

(** Digits with single underscores between them. *)
Fixpoint hex_run (s : string) (acc : Z) (after_digit : bool) : option Z :=
  match s with
  | EmptyString => if after_digit then Some acc else None
  | String c s' =>
      if Ascii.eqb c "_" then (if after_digit then hex_run s' acc false else None)
      else match hex_val c with Some d => hex_run s' (16 * acc + d) true | None => None end
  end.

(** [int(s, 16)] *)
Definition int_of_hex (s : string) : option Z :=
  let unsigned t :=
    match t with
    | String "0" (String x t') =>
        if Ascii.eqb (lower_char x) "x"
        then match t' with String "_" t'' => hex_run t'' 0 false | _ => hex_run t' 0 false end
        else hex_run t 0 false
    | _ => hex_run t 0 false
    end in
  match strip s with
  | String "-" t => Z.opp <$> unsigned t
  | String "+" t => unsigned t
  | t => unsigned t
  end.

(** [s.replace(old, "")] for a non-empty [old] *)
Fixpoint remove_all (old s : string) (skip : nat) : string :=
  match s with
  | EmptyString => EmptyString
  | String c s' =>
      match skip with
      | S k => remove_all old s' k
      | O => if String.prefix old s then remove_all old s' (String.length old - 1)
             else String c (remove_all old s' O)
      end
  end.

(** [s.strip("{}")] *)
Fixpoint lstrip_braces (s : string) : string :=
  match s with
  | String c s' => if Ascii.eqb c "{" || Ascii.eqb c "}" then lstrip_braces s' else s
  | EmptyString => s
  end.
Definition str_rev (s : string) : string := String.string_of_list_ascii (rev (String.list_ascii_of_string s)).
Definition strip_braces (s : string) : string := str_rev (lstrip_braces (str_rev (lstrip_braces s))).

Fixpoint hex_text (digits : nat) (z : Z) : string :=
  match digits with
  | O => EmptyString
  | S k => hex_text k (z / 16) +:+ String (hex_digit (Z.to_N (z mod 16))) EmptyString
  end.

(** [str(UUID(int=z))] *)
Definition uuid_text (z : Z) : string :=
  hex_text 8 (z / 2 ^ 96) +:+ "-" +:+ hex_text 4 (z / 2 ^ 80) +:+ "-" +:+ hex_text 4 (z / 2 ^ 64) +:+ "-" +:+
  hex_text 4 (z / 2 ^ 48) +:+ "-" +:+ hex_text 12 z.

(** [UUID(v)] *)
Definition uuid_of (v : pyval) : res exn string :=
  match v with
  | VNone => Raise (TypeError "one of the hex, bytes, bytes_le, fields, or int arguments must be given")
  | VStr s =>
      let hex := remove_all "-" (strip_braces (remove_all "uuid:" (remove_all "urn:" s 0) 0)) 0 in
      if negb (Nat.eqb (String.length hex) 32) then Raise (ValueError "badly formed hexadecimal UUID string")
      else match int_of_hex hex with
           | None => Raise (ValueError ("invalid literal for int() with base 16: " +:+ repr_str hex))
           | Some z => if (0 <=? z) && (z <? 2 ^ 128) then Ok (uuid_text z)
                       else Raise (ValueError "int is out of range (need a 128-bit value)")
           end
  | _ => Raise (AttributeError ("'" +:+ type_name v +:+ "' object has no attribute 'replace'"))
  end.

(** ** The service *)

Section service.
Context {W : Type} `{AuthDb W} `{Monotonic W} `{AuthLib W} `{Environ W}.

Definition outside {A} (m : prog W exn A) : prog (AuthService * W) exn A := λ s,
  let '(r, w) := m s.2 in (r, (s.1, w)).
Definition service : prog (AuthService * W) exn AuthService := λ s, (Ok s.1, s).
Definition set_cache (f : list (string * (Z * app_user)) → list (string * (Z * app_user)))
    : prog (AuthService * W) exn unit := λ s,
  (Ok tt, (mkAuthService (as_jwt_secret s.1) (as_dummy_hash s.1) (f (as_cache s.1)), s.2)).

(** [_resolve_jwt_secret] *)
Definition resolve_jwt_secret (explicit : option string) : prog W exn string :=
  secret ← match explicit with Some s => mret (Some s) | None => getenv "JWT_SECRET" end;
  match secret with
  | Some (String c s) => mret (String c s)
  | _ =>
      env ← getenv "APP_ENV";
      if String.eqb (lower (default "dev" env)) "prod"
      then raise (RuntimeError ("JWT_SECRET is not set. Generate one with `openssl rand -base64 32` " +:+
                                "and add it to .env (or SSM /quant/<env>/JWT_SECRET)."))
      else secret ← token_urlsafe; _ ← putenv "JWT_SECRET" secret; mret secret
  end.

(** [AuthService(jwt_secret)] *)
Definition new_service (jwt_secret : option string) : prog W exn AuthService :=
  secret ← resolve_jwt_secret jwt_secret;
  dummy ← argon_hash "not-a-real-password-xyz";
  mret (mkAuthService secret dummy []).

(** the payload of [create_token] *)
Definition session_claims (app_user_id : string) (session_gen now : Z) : pyval :=
  VDict [("sub", VStr app_user_id); ("ver", VInt session_gen); ("iat", VInt now);
         ("exp", VInt (now + JWT_TTL_SECONDS)); ("iss", VStr "quant-strategies")].

(** [create_token] *)
Definition create_token (app_user_id : string) (session_gen : Z) : prog (AuthService * W) exn string :=
  now ← outside epoch_now;
  svc ← service;
  outside (jwt_encode (session_claims app_user_id session_gen now) (as_jwt_secret svc)).

(** [decode_token] *)
Definition decode_token (token : string) : prog (AuthService * W) exn pyval :=
  svc ← service; outside (jwt_decode token (as_jwt_secret svc)).

(** [verify_credentials] *)
Definition verify_credentials (username password : string) : prog (AuthService * W) exn (option app_user) :=
  user ← outside (get_user_by_username username);
  svc ← service;
  let hash_to_verify := match user with Some u => au_password_hash u | None => as_dummy_hash svc end in
  matches ← catch (_ ← outside (argon_verify hash_to_verify password); mret true) (λ _, mret false);
  match user with
  | Some u =>
      if (matches : bool) && is_active u then
        _ ← catch (_ ← outside (check_needs_rehash (au_password_hash u)); mret tt) (λ _, mret tt);
        mret (Some u)
      else mret None
  | None => mret None
  end.

(** [_cache_get]: one section under the cache's lock *)
Definition cache_get (app_user_id : string) : prog (AuthService * W) exn (option app_user) :=
  svc ← service;
  match dict_get app_user_id (as_cache svc) with
  | None => mret None
  | Some (expires_at, user) =>
      now ← outside monotonic;
      if expires_at <? now then _ ← set_cache (dict_del app_user_id); mret None else mret (Some user)
  end.

(** [cache_user]: another *)
Definition cache_user (user : app_user) : prog (AuthService * W) exn unit :=
  now ← outside monotonic;
  set_cache (dict_set (au_id user) (now + CACHE_TTL, user)).

(** [invalidate_cache]: the third *)
Definition invalidate_cache (app_user_id : string) : prog (AuthService * W) exn unit :=
  set_cache (dict_del app_user_id).

(** [resolve_current_user] *)
Definition resolve_current_user (app_user_id : string) (claim_session_gen : Z)
    : prog (AuthService * W) exn (option CurrentUser) :=
  cached ← cache_get app_user_id;
  user ← match cached with
         | Some u => mret (Some u)
         | None =>
             row ← outside (get_user_by_id app_user_id);
             match row with
             | None => mret None
             | Some u => _ ← cache_user u; mret (Some u)
             end
         end;
  match user with
  | Some u =>
      if is_active u && (au_session_gen u =? claim_session_gen)
      then mret (Some (mkCurrentUser app_user_id (au_username u) (au_session_gen u)))
      else mret None
  | None => mret None
  end.

(** ** Who is admitted: [quant/api/auth/dependencies.py] *)

(** [require_user]; [is_invalid] tells [jwt.InvalidTokenError] among what the
    library raises. *)
Definition require_user (is_invalid : exn → bool) (qs_token : option string)
    : prog (AuthService * W) exn CurrentUser :=
  match qs_token with
  | None | Some EmptyString => raise UNAUTHORIZED
  | Some token =>
      claims ← catch (decode_token token) (λ e, if is_invalid e then raise UNAUTHORIZED else raise e);
      app_user_id ← catch (lift_res (sub ← getitem "sub" claims; uuid_of sub))
        (λ e, if isinstance e CKeyError || isinstance e CValueError then raise UNAUTHORIZED else raise e);
      ver ← lift_res (v ← getitem "ver" claims; int_val v);
      user ← resolve_current_user app_user_id ver;
      match user with Some u => mret u | None => raise UNAUTHORIZED end
  end.

Definition MIN_SERVICE_TOKEN_LEN : nat := 16.
Definition SERVICE_CALLER : string := "scheduler".

(** [_configured_service_token] *)
Definition configured_service_token : prog W exn (option string) :=
  value ← getenv "TRADE_SERVICE_TOKEN";
  let token := strip (default "" value) in
  if String.eqb token "" then mret None
  else if (String.length token <? MIN_SERVICE_TOKEN_LEN)%nat then mret None
  else mret (Some token).

Definition is_ascii_text (s : string) : bool :=
  forallb (λ c, (N_of_ascii c <? 128)%N) (String.list_ascii_of_string s).

(** [secrets.compare_digest] on texts, which have to be ASCII *)
Definition compare_digest (a b : string) : res exn bool :=
  if is_ascii_text a && is_ascii_text b then Ok (String.eqb a b)
  else Raise (TypeError "comparing strings with non-ASCII characters is not supported").

(** [_presents_service_token] *)
Definition presents_service_token (authorization : option string) : prog W exn bool :=
  match authorization with
  | None | Some EmptyString => mret false
  | Some header =>
      let '(scheme, _, credential) := partition_on " " header in
      if negb (String.eqb (lower scheme) "bearer") || String.eqb credential "" then mret false
      else
        expected ← configured_service_token;
        match expected with
        | None => mret false
        | Some token => lift_res (compare_digest credential token)
        end
  end.

(** [require_user_or_service] *)
Definition require_user_or_service (is_invalid : exn → bool) (authorization qs_token : option string)
    : prog (AuthService * W) exn string :=
  service_call ← outside (presents_service_token authorization);
  if (service_call : bool) then mret SERVICE_CALLER
  else u ← require_user is_invalid qs_token; mret (cu_username u).

(** ** The routes: [quant/api/auth/router.py] *)

Record cookie := mkCookie {
  ck_value : string; ck_max_age : Z; ck_path : string; ck_httponly : bool; ck_secure : bool; ck_samesite : string
}.

(** [_cookie_secure] *)
Definition cookie_secure : prog W exn bool :=
  flag ← getenv "COOKIE_SECURE";
  let flag := strip (default "" flag) in
  if negb (String.eqb flag "") then mret (String.eqb flag "1")
  else env ← getenv "APP_ENV"; mret (String.eqb (lower (default "dev" env)) "prod").

(** [_set_session_cookie] *)
Definition session_cookie (token : string) : prog W exn cookie :=
  secure ← cookie_secure;
  mret (mkCookie token JWT_TTL_SECONDS "/api" true secure (if (secure : bool) then "strict" else "lax")).

(** [login]: the name and id of the answer, and the cookie set with it *)
Definition login (username password : string) : prog (AuthService * W) exn (string * string * cookie) :=
  user ← verify_credentials username password;
  match user with
  | None => raise GENERIC_LOGIN_FAILURE
  | Some u =>
      token ← create_token (au_id u) (au_session_gen u);
      ck ← outside (session_cookie token);
      _ ← cache_user u;
      _ ← catch (outside (update_last_login (au_id u))) (λ _, mret tt);
      mret (au_username u, au_id u, ck)
  end.

(** [logout] *)
Definition logout (is_invalid : exn → bool) (qs_token : option string) : prog (AuthService * W) exn unit :=
  u ← require_user is_invalid qs_token;
  _ ← outside cookie_secure;
  invalidate_cache (cu_id u).
End service.

(** ** What was asked of the outside *)

Inductive auth_event :=
| EVerify (hash password : string) (r : res exn unit)
| EReadName (username : string) (r : res exn (option app_user))
| EReadId (app_user_id : string) (r : res exn (option app_user))
| EClock (r : res exn Z).

Definition traced_auth_db {W} (D : AuthDb W) : AuthDb (W * list auth_event) := {|
  get_user_by_username n := logged (EReadName n) (get_user_by_username n);
  get_user_by_id i := logged (EReadId i) (get_user_by_id i);
  update_last_login i := unlogged (update_last_login i)
|}.
Definition traced_monotonic {W} (C : Monotonic W) : Monotonic (W * list auth_event) := {|
  monotonic := logged EClock monotonic
|}.
Definition traced_auth_lib {W} (L : AuthLib W) : AuthLib (W * list auth_event) := {|
  argon_verify h p := logged (EVerify h p) (argon_verify h p);
  argon_hash p := unlogged (argon_hash p);
  check_needs_rehash h := unlogged (check_needs_rehash h);
  jwt_encode c k := unlogged (jwt_encode c k);
  jwt_decode t k := unlogged (jwt_decode t k);
  epoch_now := unlogged epoch_now;
  token_urlsafe := unlogged token_urlsafe
|}.

Definition unlogged_environ {W} (Env : Environ W) : Environ (W * list auth_event) := {|
  getenv n := unlogged (getenv n);
  putenv n v := unlogged (putenv n v)
|}.

(** The password checks of a trace. *)
Definition verifies (tr : list auth_event) : list (string * string) :=
  omap (λ e, match e with EVerify h p _ => Some (h, p) | _ => None end) tr.

Definition auth_state (W : Type) : Type := AuthService * (W * list auth_event).

Section traced.
Context {W : Type} (D : AuthDb W) (C : Monotonic W) (L : AuthLib W).
#[local] Existing Instance traced_auth_db.
#[local] Existing Instance traced_monotonic.
#[local] Existing Instance traced_auth_lib.

(** A row the procedures answered. *)
Definition answered (u : app_user) (tr : list auth_event) : Prop :=
  (∃ n, EReadName n (Ok (Some u)) ∈ tr) ∨ (∃ i, EReadId i (Ok (Some u)) ∈ tr).

(** One section under the cache's lock, or one read of a row, of whichever
    request runs next: a request caches only a row it was answered with.
    Anything may happen outside between them. *)
Inductive auth_step : auth_state W → auth_state W → Prop :=
| step_get i s : auth_step s (cache_get i s).2
| step_put u s : answered u s.2.2 → auth_step s (cache_user u s).2
| step_pop i s : auth_step s (invalidate_cache i s).2
| step_read_id i s : auth_step s (outside (get_user_by_id i) s).2
| step_read_name n s : auth_step s (outside (get_user_by_username n) s).2
| step_outside w' s : auth_step s (s.1, (w', s.2.2)).

(** A cached row was answered before the clock reading its deadline is from. *)
Definition justified (tr : list auth_event) (i : string) (entry : Z * app_user) : Prop :=
  au_id entry.2 = i ∧
  ∃ before t after, tr = (before ++ EClock (Ok t) :: after)%list ∧ answered entry.2 before ∧
    entry.1 = t + CACHE_TTL.

Definition cache_justified (s : auth_state W) : Prop :=
  NoDup (as_cache s.1).*1 ∧ ∀ i entry, dict_get i (as_cache s.1) = Some entry → justified s.2.2 i entry.

Lemma answered_app u tr tr' : answered u tr → answered u (tr ++ tr')%list.
Proof. intros [[n Hn]|[i Hi]]; [left; exists n|right; exists i]; apply elem_of_app; by left. Qed.

Lemma justified_app tr tr' i entry : justified tr i entry → justified (tr ++ tr')%list i entry.
Proof.
  intros (Hi & before & t & after & -> & Ha & He). split; [done|]. exists before, t, (after ++ tr')%list.
  by rewrite <-app_assoc.
Qed.

(** Only what a cache keeps of the old one, and a longer trace, matter. *)
Lemma justified_extends (s s' : auth_state W) tr :
  cache_justified s → s'.2.2 = (s.2.2 ++ tr)%list → NoDup (as_cache s'.1).*1 →
  (∀ i entry, dict_get i (as_cache s'.1) = Some entry →
     dict_get i (as_cache s.1) = Some entry ∨ justified s'.2.2 i entry) → cache_justified s'.
Proof.
  intros [_ Hs] Htr Hnd Hc. split; [done|]. intros i entry He. destruct (Hc i entry He) as [Hold|]; [|done].
  rewrite Htr. by apply justified_app, Hs.
Qed.

Lemma justified_outside (s s' : auth_state W) tr :
  cache_justified s → s'.1 = s.1 → s'.2.2 = (s.2.2 ++ tr)%list → cache_justified s'.
Proof.
  intros Hs Hsvc Htr. apply (justified_extends s s' tr Hs Htr); rewrite Hsvc; [apply Hs|by left].
Qed.

Lemma cache_user_justified u s : answered u s.2.2 → cache_justified s → cache_justified (cache_user u s).2.
Proof.
  destruct s as [svc [w tr]]. cbn [fst snd]. intros Hu Hs.
  unfold cache_user, outside, set_cache, monotonic, traced_monotonic, logged, mbind, prog_bind. cbn [fst snd].
  destruct (@monotonic W C w) as [[t|e] w'] eqn:Et; cbn [fst snd].
  - apply (justified_extends (svc, (w, tr)) _ [EClock (Ok t)]); [done|done|by apply dict_set_nodup, Hs|].
    cbn [fst snd as_cache]. intros i entry. destruct (decide (i = au_id u)) as [->|Hne].
    + rewrite dict_get_set. intros [= <-]. right. split; [done|]. by exists tr, t, [].
    + rewrite dict_get_set_ne by done. by left.
  - by apply (justified_outside (svc, (w, tr)) _ [EClock (Raise e)]).
Qed.

Lemma invalidate_justified i s : cache_justified s → cache_justified (invalidate_cache i s).2.
Proof.
  intros Hs. apply (justified_extends s _ []); [done|by rewrite app_nil_r|by apply NoDup_dict_del, Hs|].
  cbn. intros j entry Hj. left. destruct (decide (j = i)) as [->|Hne].
  - by rewrite dict_get_del in Hj by apply Hs.
  - by rewrite dict_get_del_ne in Hj.
Qed.

(** What a look into the cache does: the state it leaves, and a hit's reasons. *)
Lemma cache_get_cases i s : cache_justified s →
  let '(r, s') := cache_get i s in
  cache_justified s' ∧ (∃ tr, s'.2.2 = (s.2.2 ++ tr)%list) ∧
  (∀ u, r = Ok (Some u) → ∃ expires now, dict_get i (as_cache s.1) = Some (expires, u) ∧
     s'.2.2 = (s.2.2 ++ [EClock (Ok now)])%list ∧ now <= expires).
Proof.
  destruct s as [svc [w tr]]. intros Hs. unfold cache_get, service, mbind, prog_bind. cbn [fst snd].
  destruct (dict_get i (as_cache svc)) as [[expires u]|] eqn:Ei.
  - unfold outside, monotonic, traced_monotonic, logged. cbn [fst snd].
    destruct (@monotonic W C w) as [[now|e] w'] eqn:Et; cbn [fst snd].
    + assert (cache_justified (svc, (w', (tr ++ [EClock (Ok now)])%list))) as Hs'
        by by apply (justified_outside (svc, (w, tr)) _ [EClock (Ok now)]).
      destruct (expires <? now) eqn:Ex; cbn [fst snd].
      * split; [by apply (invalidate_justified i)|]. split; [by eexists|done].
      * split; [done|]. split; [by eexists|]. intros ? [= <-]. exists expires, now. by split_and!; [| |lia].
    + split; [by apply (justified_outside (svc, (w, tr)) _ [EClock (Raise e)])|]. split; [by eexists|done].
  - split; [done|]. split; [exists []; by rewrite app_nil_r|done].
Qed.

Lemma auth_step_justified s s' : auth_step s s' → cache_justified s → cache_justified s'.
Proof.
  intros Hstep Hs. destruct Hstep as [i s|u s Hu|i s|i s|n s|w' s].
  - specialize (cache_get_cases i s Hs). by destruct (cache_get i s) as [r s'], 1.
  - by apply cache_user_justified.
  - by apply invalidate_justified.
  - destruct s as [svc [w tr]]. unfold outside, get_user_by_id, traced_auth_db, logged. cbn [fst snd].
    destruct (@get_user_by_id W D i w) as [r w'] eqn:Er.
    by apply (justified_outside (svc, (w, tr)) _ [EReadId i r]).
  - destruct s as [svc [w tr]]. unfold outside, get_user_by_username, traced_auth_db, logged. cbn [fst snd].
    destruct (@get_user_by_username W D n w) as [r w'] eqn:Er.
    by apply (justified_outside (svc, (w, tr)) _ [EReadName n r]).
  - apply (justified_outside s _ []); [done|done|]. by rewrite app_nil_r.
Qed.

Lemma reachable_justified s s' : rtc auth_step s s' → cache_justified s → cache_justified s'.
Proof. induction 1; [done|]. intros. eauto using auth_step_justified. Qed.

(** The row a session was judged by: read while judging it, or cached under a
    clock reading after the row was read, at most the lifetime before the reading
    of this look into the cache. *)
Definition recent_row (i : string) (u : app_user) (tr new : list auth_event) : Prop :=
  EReadId i (Ok (Some u)) ∈ new ∨
  au_id u = i ∧ ∃ before t after now, tr = (before ++ EClock (Ok t) :: after)%list ∧ answered u before ∧
    new = [EClock (Ok now)] ∧ now <= t + CACHE_TTL.

Lemma cache_user_trace u s r s' : cache_user u s = (r, s') → ∃ tr, s'.2.2 = (s.2.2 ++ tr)%list.
Proof.
  destruct s as [svc [w tr]]. unfold cache_user, outside, set_cache, monotonic, traced_monotonic, logged, mbind, prog_bind.
  cbn [fst snd]. destruct (@monotonic W C w) as [[t|e] w']; cbn [fst snd]; intros [= <- <-]; by eexists.
Qed.

Lemma resolve_current_user_some i gen s cu s' : cache_justified s →
  resolve_current_user i gen s = (Ok (Some cu), s') →
  ∃ u tr, cu = mkCurrentUser i (au_username u) gen ∧ is_active u = true ∧ au_session_gen u = gen ∧
    s'.2.2 = (s.2.2 ++ tr)%list ∧ recent_row i u s.2.2 tr.
Proof.
  intros Hs Hr. unfold resolve_current_user in Hr. apply bind_inv in Hr as (cached & s1 & Hget & Hr).
  specialize (cache_get_cases i s Hs). rewrite Hget. intros (Hs1 & [tr1 Htr1] & Hhit).
  apply bind_inv in Hr as (user & s2 & Huser & Hr).
  destruct user as [u|]; [|done].
  destruct (is_active u && (au_session_gen u =? gen)) eqn:E; [|done]. injection Hr as <- <-.
  apply andb_true_iff in E as [Ha Hg%Z.eqb_eq]. exists u. rewrite Hg.
  destruct cached as [u'|].
  - injection Huser as <- <-. destruct (Hhit u' eq_refl) as (expires & now & Hin & Hlog & Hle).
    destruct Hs as [_ Hs]. destruct (Hs _ _ Hin) as (Hi & before & t & after & Hb & Hans & Hexp). cbn [fst snd] in *.
    exists [EClock (Ok now)]. split_and!; try done. right. split; [done|]. exists before, t, after, now.
    split_and!; try done. lia.
  - apply bind_inv in Huser as (row & s3 & Hrow & Huser). destruct row as [u'|]; [|done].
    apply bind_inv in Huser as (? & s4 & Hput & [= -> <-]). apply cache_user_trace in Hput as [tr3 Htr3].
    destruct s1 as [svc [w1 log1]]. unfold outside, get_user_by_id, traced_auth_db, logged in Hrow. cbn [fst snd] in *.
    destruct (@get_user_by_id W D i w1) as [row w2] eqn:Er. cbn [fst snd] in *. injection Hrow as -> <-. cbn [fst snd] in *.
    exists (tr1 ++ [EReadId i (Ok (Some u))] ++ tr3)%list. split_and!; try done.
    + rewrite Htr3, Htr1, <-!app_assoc. done.
    + left. rewrite !elem_of_app. right. left. left.
Qed.

(** What a request admitted as a user had to show. *)
Lemma require_user_inv is_invalid qs s cu s' : require_user is_invalid qs s = (Ok cu, s') →
  ∃ token claims gen s1, qs = Some token ∧ token ≠ "" ∧ decode_token token s = (Ok claims, s1) ∧
    (sub ← getitem "sub" claims; uuid_of sub) = Ok (cu_id cu) ∧ (v ← getitem "ver" claims; int_val v) = Ok gen ∧
    resolve_current_user (cu_id cu) gen s1 = (Ok (Some cu), s').
Proof.
  intros Hr. unfold require_user in Hr. destruct qs as [[|c token]|]; [done| |done].
  apply bind_inv in Hr as (claims & s1 & Hd & Hr).
  apply catch_inv in Hd; [|intros e ???; by destruct (is_invalid e)].
  apply bind_inv in Hr as (i & s2 & Hi & Hr).
  apply catch_inv in Hi; [|intros e ???; by destruct (isinstance e CKeyError || isinstance e CValueError)].
  injection Hi as Hi <-. apply bind_inv in Hr as (gen & s3 & Hg & Hr). injection Hg as Hg <-.
  apply bind_inv in Hr as (user & s4 & Hres & Hr). destruct user as [u|]; [|done]. injection Hr as <- <-.
  assert (cu_id u = i) as Hu.
  { unfold resolve_current_user in Hres. apply bind_inv in Hres as (c1 & ? & _ & Hres).
    apply bind_inv in Hres as (c2 & ? & _ & Hres). destruct c2 as [u2|]; [|done].
    destruct (is_active u2 && (au_session_gen u2 =? gen)); [|done]. by injection Hres as <- _. }
  exists (String c token), claims, gen, s1. rewrite Hu. by split_and!.
Qed.

Lemma decode_token_trace token s claims s' : decode_token token s = (Ok claims, s') →
  s'.2.2 = s.2.2 ∧ s'.1 = s.1 ∧ ∃ w', jwt_decode token (as_jwt_secret s.1) s.2.1 = (Ok claims, w').
Proof.
  destruct s as [svc [w tr]]. unfold decode_token, service, outside, jwt_decode at 1, traced_auth_lib, unlogged, mbind, prog_bind.
  cbn [fst snd]. destruct (@jwt_decode W L token (as_jwt_secret svc) w) as [r w'] eqn:E. cbn [fst snd].
  intros [= -> <-]. cbn [fst snd]. split_and!; try done. by exists w'.
Qed.
End traced.

(** C18. Whoever a request is admitted as holds a live session: whichever
    requests ran before and in whatever interleaving, a user is admitted only on a
    token that verifies under the service's secret, whose subject and generation are
    those of a row that is active; and that row was read in this very request, or
    was cached after it was read and no more than the cache's lifetime ago. *)
Theorem admitted_session_is_live {W} (D : AuthDb W) (C : Monotonic W) (L : AuthLib W) is_invalid qs svc w s cu s' :
  as_cache svc = [] → rtc (auth_step D C) (svc, (w, [])) s →
  @require_user _ (traced_auth_db D) (traced_monotonic C) (traced_auth_lib L) is_invalid qs s = (Ok cu, s') →
  ∃ token claims u new, qs = Some token ∧
    (∃ w', jwt_decode token (as_jwt_secret s.1) s.2.1 = (Ok claims, w')) ∧
    (sub ← getitem "sub" claims; uuid_of sub) = Ok (cu_id cu) ∧
    (v ← getitem "ver" claims; int_val v) = Ok (au_session_gen u) ∧
    cu = mkCurrentUser (cu_id cu) (au_username u) (au_session_gen u) ∧ is_active u = true ∧
    s'.2.2 = (s.2.2 ++ new)%list ∧ recent_row (cu_id cu) u s.2.2 new.
Proof.
  intros Hc Hrtc Hr. apply require_user_inv in Hr as (token & claims & gen & s1 & -> & _ & Hd & Hi & Hg & Hres).
  assert (cache_justified s) as Hs.
  { apply (reachable_justified D C _ _ Hrtc). split; cbn [fst as_cache]; rewrite Hc; [constructor|done]. }
  apply decode_token_trace in Hd as (Htr & Hsvc & Hdec).
  apply resolve_current_user_some in Hres as (u & new & Hcu & Ha & Hgen & Hnew & Hrec).
  - rewrite Htr in Hnew, Hrec. exists token, claims, u, new. subst gen. by split_and!.
  - apply (justified_outside s s1 [] Hs Hsvc). by rewrite app_nil_r.
Qed.

(** ** One password check per login *)

Section login_facts.
Context {W : Type} (D : AuthDb W) (C : Monotonic W) (L : AuthLib W) (Env : Environ W).
#[local] Existing Instance traced_auth_db.
#[local] Existing Instance traced_monotonic.
#[local] Existing Instance traced_auth_lib.
#[local] Existing Instance unlogged_environ.

(** What a trace's password checks are left at. *)
Definition checked (v : list (string * string)) (s : auth_state W) : Prop := verifies s.2.2 = v.

Lemma verifies_app tr tr' : verifies (tr ++ tr')%list = (verifies tr ++ verifies tr')%list.
Proof. apply omap_app. Qed.

Lemma unlogged_checks {A} v (m : prog W exn A) : preserves (λ x, verifies x.2 = v) (unlogged m).
Proof. intros [w tr] Hs. unfold unlogged. cbn [fst snd]. by destruct (m w). Qed.

Lemma outside_checks {A} v (m : prog (W * list auth_event) exn A) :
  preserves (λ x, verifies x.2 = v) m → preserves (checked v) (outside m).
Proof.
  intros Hm [svc x] Hs. unfold outside. cbn [snd]. specialize (Hm x Hs). by destruct (m x).
Qed.

Lemma outside_logged {A} (ev : res exn A → auth_event) (m : prog W exn A) svc w tr :
  outside (logged ev m) (svc, (w, tr)) = let '(r, w') := m w in (r, (svc, (w', (tr ++ [ev r])%list))).
Proof. unfold outside, logged. cbn [fst snd]. by destruct (m w). Qed.

Lemma service_checks v : preserves (checked v) service.
Proof. by intros s. Qed.

Lemma cache_user_checks v u : preserves (checked v) (cache_user u).
Proof.
  intros [svc [w tr]] Hs. unfold cache_user, outside, set_cache, monotonic, traced_monotonic, logged, mbind, prog_bind.
  cbn [fst snd]. unfold checked in *. cbn [fst snd] in Hs.
  destruct (@monotonic W C w) as [[t|e] w']; cbn [fst snd]; by rewrite verifies_app, Hs, app_nil_r.
Qed.

Ltac checks_kept :=
  repeat first
    [ apply cache_user_checks | apply service_checks | apply unlogged_checks
    | apply preserves_bind; [|intros ?] | apply preserves_catch; [|intros ?] | apply outside_checks
    | apply preserves_ret | case_match ].

(** The checks of a run of [verify_credentials], and what it answers. *)
Lemma verify_credentials_checks username password svc w tr user w1 :
  get_user_by_username username w = (Ok user, w1) →
  let h := match user with Some u => au_password_hash u | None => as_dummy_hash svc end in
  let '(r, s') := verify_credentials username password (svc, (w, tr)) in
  checked (verifies tr ++ [(h, password)])%list s' ∧
  (r = Ok user ∧ is_Some user ∨ r = Ok None) ∧
  (match user with
   | Some u => is_active u = false ∨ ∃ e w2, argon_verify h password w1 = (Raise e, w2)
   | None => True
   end → r = Ok None).
Proof.
  intros Hu h. unfold verify_credentials.
  assert (outside (get_user_by_username username) (svc, (w, tr))
          = (Ok user, (svc, (w1, tr ++ [EReadName username (Ok user)])%list))) as H1 
    by (etransitivity; [apply outside_logged|by rewrite Hu]).
  rewrite (bind_ok _ _ _ _ _ H1), (bind_ok service _ (svc, (w1, (tr ++ [EReadName username (Ok user)])%list)) svc _ eq_refl). cbv zeta. fold h.
  set (tr1 := (tr ++ [EReadName username (Ok user)])%list).
  set (tr2 := λ r2, (tr1 ++ [EVerify h password r2])%list).
  assert (∀ r2, verifies (tr2 r2) = (verifies tr ++ [(h, password)])%list) as Hv.
  { intros r2. unfold tr2, tr1. rewrite !verifies_app. cbn. by rewrite app_nil_r. }
  destruct (argon_verify h password w1) as [r2 w2] eqn:Ev.
  assert (outside (argon_verify h password) (svc, (w1, tr1)) = (r2, (svc, (w2, tr2 r2)))) as H2
    by (etransitivity; [apply outside_logged|by rewrite Ev]).
  assert (catch (_ ← outside (argon_verify h password); mret true) (λ _, mret false) (svc, (w1, tr1))
          = (Ok match r2 with Ok _ => true | Raise _ => false end, (svc, (w2, tr2 r2)))) as H3.
  { unfold catch, mbind, prog_bind. rewrite H2. by destruct r2. }
  rewrite (bind_ok _ _ _ _ _ H3). destruct user as [u|]; [|by split_and!; [apply Hv|right|]].
  destruct r2 as [?|e]; simpl; [|by split_and!; [apply Hv|right|]].
  destruct (is_active u) eqn:Ea; [|by split_and!; [apply Hv|right|]].
  unfold catch, outside, unlogged, mbind, prog_bind. cbn [fst snd].
  destruct (@check_needs_rehash W L _ w2) as [[?|?] w3]; cbn [fst snd].
  all: (split_and!; [apply Hv|by left|by intros [?|(? & ? & ?)]]).
Qed.

(** The rest of a login checks no password. *)
Lemma login_rest_checks v u s : checked v s →
  checked v ((token ← create_token (au_id u) (au_session_gen u);
              ck ← outside (session_cookie token);
              _ ← cache_user u;
              _ ← catch (outside (update_last_login (au_id u))) (λ _, mret tt);
              mret (au_username u, au_id u, ck)) s).2.
Proof.
  revert s. change (preserves (checked v) (token ← create_token (au_id u) (au_session_gen u);
              ck ← outside (session_cookie token);
              _ ← cache_user u;
              _ ← catch (outside (update_last_login (au_id u))) (λ _, mret tt);
              mret (au_username u, au_id u, ck))).
  unfold create_token, session_cookie, cookie_secure. checks_kept.
Qed.
End login_facts.

(** A login costs one password check whatever the username: the hash on file,
    or the stand-in hash when there is none, is verified exactly once.  An unknown
    user, a wrong password and an inactive account are refused with the same error. *)
Theorem login_pays_one_check {W} (D : AuthDb W) (C : Monotonic W) (L : AuthLib W) (Env : Environ W) username password svc w tr user w1 :
  get_user_by_username username w = (Ok user, w1) →
  let h := match user with Some u => au_password_hash u | None => as_dummy_hash svc end in
  let '(r, s') := @login _ (traced_auth_db D) (traced_monotonic C) (traced_auth_lib L) (unlogged_environ Env)
                    username password (svc, (w, tr)) in
  verifies s'.2.2 = (verifies tr ++ [(h, password)])%list ∧
  (match user with
   | Some u => is_active u = false ∨ ∃ e w2, argon_verify h password w1 = (Raise e, w2)
   | None => True
   end → r = Raise GENERIC_LOGIN_FAILURE).
Proof.
  intros Hu h. pose proof (verify_credentials_checks D L username password svc w tr user w1 Hu) as Hv.
  cbv zeta in Hv. fold h in Hv. unfold login, mbind at 1, prog_bind at 1.
  destruct (@verify_credentials _ _ _ username password _) as [r s1]. destruct Hv as (Hc & Hr & Hbad).
  destruct Hr as [[-> [u ->]]| ->]; [|by split].
  pose proof (login_rest_checks D C L Env _ u s1 Hc) as Hrest.
  match goal with |- let '(_, _) := ?m s1 in _ => destruct (m s1) as [r s'] end.
  split; [exact Hrest|by intros ?%Hbad].
Qed.

(** ** The service token *)

Section gate.
Context {W : Type} `{AuthDb W} `{Monotonic W} `{AuthLib W} `{Environ W}.

Lemma presents_true header w w' : presents_service_token header w = (Ok true, w') →
  ∃ h value scheme found credential, header = Some h ∧ partition_on " " h = (scheme, found, credential) ∧
    lower scheme = "bearer" ∧ getenv "TRADE_SERVICE_TOKEN" w = (Ok value, w') ∧
    credential = strip (default "" value) ∧ (MIN_SERVICE_TOKEN_LEN <= String.length credential)%nat.
Proof.
  unfold presents_service_token. intros Hp. destruct header as [[|c h]|]; [done| |done].
  destruct (partition_on " " (String c h)) as [[scheme found] credential] eqn:Ep.
  destruct (String.eqb_spec (lower scheme) "bearer") as [Hs|]; [|done].
  destruct (String.eqb_spec credential "") as [|Hne]; [done|]. cbv [negb orb] in Hp.
  apply bind_inv in Hp as (expected & w1 & He & Hp). unfold configured_service_token in He.
  apply bind_inv in He as (value & w2 & Hv & He). cbv zeta in He.
  destruct (String.eqb_spec (strip (default "" value)) ""); [by injection He as <- <-|].
  destruct (Nat.ltb_spec (String.length (strip (default "" value))) MIN_SERVICE_TOKEN_LEN) as [|Hlen];
    [by injection He as <- <-|]. injection He as <- <-.
  unfold compare_digest in Hp. destruct (is_ascii_text _ && _); [|done].
  injection Hp as Heq%String.eqb_eq <-. exists (String c h), value, scheme, found, credential. subst. done.
Qed.
End gate.

(** A maintenance route admits the scheduler or a signed-in user and nobody
    else: the label of the scheduler is given without a session only to a bearer
    credential equal to the configured token, stripped, and at least sixteen
    characters long; any other caller is admitted under the name of the user his
    session resolves to. *)
Theorem maintenance_admits {W} `{AuthDb W} `{Monotonic W} `{AuthLib W} `{Environ W} is_invalid header qs svc w label s' :
  require_user_or_service is_invalid header qs (svc, w) = (Ok label, s') →
  (∃ h value scheme found credential w', header = Some h ∧ label = "scheduler" ∧
     partition_on " " h = (scheme, found, credential) ∧ lower scheme = "bearer" ∧
     getenv "TRADE_SERVICE_TOKEN" w = (Ok value, w') ∧ credential = strip (default "" value) ∧
     (16 <= String.length credential)%nat ∧ s' = (svc, w')) ∨
  (∃ cu w', presents_service_token header w = (Ok false, w') ∧
     require_user is_invalid qs (svc, w') = (Ok cu, s') ∧ label = cu_username cu).
Proof.
  unfold require_user_or_service. intros (b & s1 & Hb & Hr)%bind_inv. unfold outside in Hb. cbn [fst snd] in Hb.
  destruct (presents_service_token header w) as [r w'] eqn:Ep. injection Hb as -> <-. destruct b.
  - left. injection Hr as <- <-. apply presents_true in Ep as (h & value & scheme & found & cred & ? & ? & ? & ? & ? & ?).
    by exists h, value, scheme, found, cred, w'.
  - right. apply bind_inv in Hr as (cu & s2 & Hr & Heq). injection Heq as <- <-. by exists cu, w'.
Qed.

(** A bearer credential with a character outside ASCII is not refused: once a
    token is configured the comparison raises, and no route catches it. *)
Theorem non_ascii_credential_raises {W} `{AuthLib W} `{Environ W} h scheme found credential w token w' :
  partition_on " " h = (scheme, found, credential) → lower scheme = "bearer" →
  is_ascii_text credential = false → configured_service_token w = (Ok (Some token), w') →
  ∃ msg, presents_service_token (Some h) w = (Raise (TypeError msg), w').
Proof.
  intros Hp Hs Ha Ht. unfold presents_service_token. destruct h as [|c h]; [by injection Hp as <- <- <-|].
  rewrite Hp, Hs, String.eqb_refl. destruct (String.eqb_spec credential "") as [->|]; [done|]. cbn [negb orb].
  eexists. rewrite (bind_ok _ _ _ _ _ Ht). unfold compare_digest. by rewrite Ha.
Qed.

(** The bounds on a password hold of what was sent: twelve blanks are accepted,
    as the empty password. *)
Theorem blank_password_accepted : login_request "ann" "            " = Some ("ann", "").
Proof. reflexivity. Qed.

(** ** The signing secret *)

(** The service signs with a secret that is not empty: the one it was given or the
    environment's; without one it does not start in production and elsewhere makes
    one up and leaves it in the environment. *)
Theorem secret_not_empty {W} `{AuthLib W} `{Environ W} explicit w secret w' :
  (∀ u s u', token_urlsafe u = (Ok s, u') → s ≠ "") →
  resolve_jwt_secret explicit w = (Ok secret, w') → secret ≠ "".
Proof.
  intros Htok. unfold resolve_jwt_secret. intros (s0 & w1 & _ & Hr)%bind_inv.
  assert ((env ← getenv "APP_ENV";
      if String.eqb (lower (default "dev" env)) "prod"
      then raise (RuntimeError ("JWT_SECRET is not set. Generate one with `openssl rand -base64 32` " +:+
                                "and add it to .env (or SSM /quant/<env>/JWT_SECRET)."))
      else secret ← token_urlsafe; _ ← putenv "JWT_SECRET" secret; mret secret) w1 = (Ok secret, w') → secret ≠ "") as Hmade.
  { intros (env & w2 & _ & He)%bind_inv. destruct (String.eqb _ "prod"); [done|].
    apply bind_inv in He as (s & w3 & Hs & He). apply bind_inv in He as (? & w4 & _ & He). injection He as <- <-. by eapply Htok. }
  destruct s0 as [[|c s]|]; [by apply Hmade| |by apply Hmade]. by injection Hr as <- <-.
Qed.

(** ** A UUID and its text *)

Fixpoint all_chars (P : ascii → Prop) (s : string) : Prop :=
  match s with EmptyString => True | String c s' => P c ∧ all_chars P s' end.

Lemma all_chars_app P s t : all_chars P (s +:+ t) ↔ all_chars P s ∧ all_chars P t.
Proof. induction s as [|c s IH]; [by intuition|]. simpl. rewrite IH. by intuition. Qed.

Lemma all_chars_impl (P Q : ascii → Prop) s : (∀ c, P c → Q c) → all_chars P s → all_chars Q s.
Proof. intros HPQ. induction s as [|c s IH]; simpl; [done|]. by intros [? ?]; auto. Qed.

(** The digits [hex_digit] writes, and the characters of a UUID's text. *)
Definition is_hex (c : ascii) : Prop := ∃ n, (n < 16)%N ∧ c = hex_digit n.
Definition is_uuid_char (c : ascii) : Prop := is_hex c ∨ c = "-"%char.

Lemma is_hex_ind (P : ascii → Prop) : Forall P (map hex_digit (map N.of_nat (seq 0 16))) → ∀ c, is_hex c → P c.
Proof.
  intros HP c (n & Hn & ->). rewrite Forall_forall in HP. apply HP, list_elem_of_fmap. exists n. split; [done|].
  apply list_elem_of_fmap. exists (N.to_nat n). split; [lia|]. apply elem_of_seq. lia.
Qed.

(** A fact of each of finitely many characters, by evaluation. *)
Ltac each_char := vm_compute; repeat (apply Forall_cons_2; [by (try split)|]); apply Forall_nil_2.

Lemma hex_text_length k z : String.length (hex_text k z) = k.
Proof. revert z. induction k as [|k IH]; intros z; [done|]. simpl. rewrite length_append, IH. simpl. lia. Qed.

Lemma hex_text_hex k z : all_chars is_hex (hex_text k z).
Proof.
  revert z. induction k as [|k IH]; intros z; [done|]. simpl. apply all_chars_app. split; [apply IH|]. simpl. split; [|done].
  exists (Z.to_N (z mod 16)). split; [|done]. pose proof (Z.mod_pos_bound z 16). lia.
Qed.

Lemma hex_text_app m n z : hex_text m (z / 16 ^ Z.of_nat n) +:+ hex_text n z = hex_text (m + n) z.
Proof.
  revert z. induction n as [|n IH]; intros z.
  - rewrite Nat.add_0_r, Z.pow_0_r, Z.div_1_r. apply string_app_empty.
  - rewrite Nat.add_succ_r. simpl hex_text at 2 3. rewrite <-string_app_assoc. f_equal.
    rewrite <-IH. do 2 f_equal. rewrite Z.div_div by lia. f_equal. rewrite <-Z.pow_succ_r by lia. f_equal. lia.
Qed.

(** Removing a word that starts with a character a text lacks. *)
Lemma remove_all_absent c old s : all_chars (λ d, d ≠ c) s → remove_all (String c old) s 0 = s.
Proof.
  induction s as [|d s IH]; [done|]. intros [Hd Hs]. cbn [remove_all String.prefix].
  destruct (ascii_dec c d); [by subst|]. by rewrite IH.
Qed.

Lemma prefix_empty s : String.prefix "" s = true.
Proof. by destruct s. Qed.

Lemma remove_all_char c s t : remove_all (String c "") (s +:+ t) 0 = remove_all (String c "") s 0 +:+ remove_all (String c "") t 0.
Proof.
  induction s as [|d s IH]; [done|]. cbn [remove_all String.prefix String.append String.length Nat.sub].
  change (String d s +:+ t) with (String d (s +:+ t)). cbn [remove_all String.prefix String.length Nat.sub].
  destruct (ascii_dec c d); rewrite ?prefix_empty, IH; done.
Qed.

Lemma str_rev_involutive s : str_rev (str_rev s) = s.
Proof.
  unfold str_rev. by rewrite String.list_ascii_of_string_of_list_ascii, rev_involutive, String.string_of_list_ascii_of_string.
Qed.

Lemma all_chars_list P s : all_chars P s ↔ Forall P (String.list_ascii_of_string s).
Proof. induction s as [|c s IH]; simpl; [done|]. by rewrite Forall_cons, IH. Qed.

Lemma lstrip_braces_absent s : all_chars (λ c, c ≠ "{"%char ∧ c ≠ "}"%char) s → lstrip_braces s = s.
Proof.
  destruct s as [|c s]; [done|]. intros [[H1 H2] _]. cbn. apply Ascii.eqb_neq in H1, H2. by rewrite H1, H2.
Qed.

Lemma strip_braces_absent s : all_chars (λ c, c ≠ "{"%char ∧ c ≠ "}"%char) s → strip_braces s = s.
Proof.
  intros Hs. unfold strip_braces. rewrite (lstrip_braces_absent s Hs), lstrip_braces_absent; [apply str_rev_involutive|].
  apply all_chars_list. unfold str_rev. rewrite String.list_ascii_of_string_of_list_ascii.
  by apply Forall_rev, all_chars_list.
Qed.

Lemma strip_absent s : all_chars (λ c, is_space c = false) s → strip s = s.
Proof.
  intros Hs. assert (rstrip s = s) as Hr.
  { induction s as [|c s IH]; [done|]. destruct Hs as [Hc Hs]. simpl. rewrite IH by done. rewrite Hc. by destruct s. }
  unfold strip. rewrite Hr. destruct s as [|c s]; [done|]. destruct Hs as [Hc _]. simpl. by rewrite Hc.
Qed.

Lemma hex_val_digit n : (n < 16)%N → hex_val (hex_digit n) = Some (Z.of_N n) ∧ Ascii.eqb (hex_digit n) "_" = false.
Proof.
  intros Hn. destruct n as [|p]; [by split|]. do 4 (destruct p as [p|p|]; try by split); lia.
Qed.

(** The number a text of digits continues [acc] to. *)
Fixpoint hex_fold (s : string) (acc : Z) : Z :=
  match s with
  | EmptyString => acc
  | String c s' => hex_fold s' (16 * acc + default 0 (hex_val c))
  end.

Lemma hex_run_fold s acc : all_chars is_hex s → hex_run s acc true = Some (hex_fold s acc).
Proof.
  revert acc. induction s as [|c s IH]; intros acc; [done|]. intros [(n & Hn & ->) Hs].
  destruct (hex_val_digit n Hn) as [Hv Hu]. simpl. rewrite Hu, Hv. simpl. auto.
Qed.

Lemma hex_fold_app s t acc : hex_fold (s +:+ t) acc = hex_fold t (hex_fold s acc).
Proof. revert acc. induction s as [|c s IH]; intros acc; [done|]. simpl. apply IH. Qed.

Lemma hex_fold_text k z acc : hex_fold (hex_text k z) acc = acc * 16 ^ Z.of_nat k + z mod 16 ^ Z.of_nat k.
Proof.
  revert z. induction k as [|k IH]; intros z.
  { rewrite Z.pow_0_r, Z.mod_1_r. simpl. lia. }
  simpl hex_text. rewrite hex_fold_app, IH. simpl hex_fold.
  pose proof (Z.mod_pos_bound z 16 ltac:(lia)).
  destruct (hex_val_digit (Z.to_N (z mod 16)) ltac:(lia)) as [-> _]. simpl default.
  rewrite Nat2Z.inj_succ, Z.pow_succ_r, Z.rem_mul_r by lia. rewrite Z2N.id by lia. ring.
Qed.

Lemma hex_run_text k z : 0 <= z < 16 ^ Z.of_nat (S k) → hex_run (hex_text (S k) z) 0 false = Some z.
Proof.
  intros Hz. pose proof (hex_text_hex (S k) z) as Hh. pose proof (hex_fold_text (S k) z 0) as Hf.
  pose proof (hex_text_length (S k) z) as Hl.
  destruct (hex_text (S k) z) as [|c s]; [done|]. destruct Hh as [(n & Hn & ->) Hs].
  destruct (hex_val_digit n Hn) as [Hv Hu]. simpl hex_run. rewrite Hu, Hv, hex_run_fold by done.
  f_equal. cbn [hex_fold] in Hf. rewrite Hv in Hf. cbn [default from_option id] in Hf.
  etransitivity; [exact Hf|]. rewrite Z.mod_small by lia. lia.
Qed.

Lemma uuid_chars z : all_chars is_uuid_char (uuid_text z).
Proof.
  unfold uuid_text. rewrite !all_chars_app. cbn [all_chars].
  assert (∀ k y, all_chars is_uuid_char (hex_text k y)) as Hk
    by (intros k y; eapply all_chars_impl; [|apply hex_text_hex]; by left).
  split_and!; try apply Hk; try done; by right.
Qed.

Lemma uuid_char_ind (P : ascii → Prop) : Forall P ("-"%char :: map hex_digit (map N.of_nat (seq 0 16))) →
  ∀ c, is_uuid_char c → P c.
Proof. intros [H1 H2]%Forall_cons c [Hc| ->]; [by eapply is_hex_ind|done]. Qed.

(** Without its hyphens the text is the number's digits. *)
Lemma uuid_digits z : 0 <= z < 2 ^ 128 → remove_all "-" (uuid_text z) 0 = hex_text 32 z.
Proof.
  intros Hz. assert (∀ k y, remove_all "-" (hex_text k y) 0 = hex_text k y) as Hk.
  { intros k y. apply remove_all_absent. eapply all_chars_impl; [|apply hex_text_hex].
    apply is_hex_ind. each_char. }
  unfold uuid_text. rewrite !remove_all_char, !Hk. cbn [remove_all String.prefix String.length Nat.sub ascii_dec].
  change (remove_all "-" "-" 0) with "". change ("" +:+ ?s) with s.
  change 32%nat with (8 + (4 + (4 + (4 + 12))))%nat. rewrite <-!hex_text_app.
  repeat f_equal; rewrite ?Z.div_div by lia; done.
Qed.

(** Parsing the text of a UUID gives it back. *)
Theorem uuid_roundtrip z : 0 <= z < 2 ^ 128 → uuid_of (VStr (uuid_text z)) = Ok (uuid_text z).
Proof.
  intros Hz. unfold uuid_of. pose proof (uuid_chars z) as Hc.
  rewrite (remove_all_absent "u" "rn:"), (remove_all_absent "u" "uid:"), strip_braces_absent
    by (eapply all_chars_impl; [|exact Hc]; apply uuid_char_ind; each_char).
  rewrite uuid_digits by done.
  cbv zeta. rewrite hex_text_length, Nat.eqb_refl. cbn [negb].
  assert (int_of_hex (hex_text 32 z) = Some z) as ->.
  { pose proof (hex_run_text 31 z Hz) as Hr. pose proof (hex_text_hex 32 z) as Hh. unfold int_of_hex.
    rewrite strip_absent by (eapply all_chars_impl; [|exact Hh]; apply is_hex_ind; each_char).
    destruct (hex_text 32 z) as [|c1 s1]; [done|]. destruct Hh as [(n & Hn & ->) Hs1].
    destruct n as [|p]; [|do 4 (destruct p as [p|p|]; try exact Hr); lia].
    destruct s1 as [|c2 s2]; [exact Hr|]. destruct Hs1 as [(n & Hn2 & ->) _].
    destruct n as [|p]; [exact Hr|]. do 4 (destruct p as [p|p|]; try exact Hr); lia. }
  rewrite (proj2 (Z.leb_le 0 z)), (proj2 (Z.ltb_lt z _)) by lia. done.
Qed.

(** ** From login to the next request *)

Section session.
Context {W : Type} `{AuthDb W} `{Monotonic W} `{AuthLib W} `{Environ W}.

(** When a token is in force: what the library then makes of one it encoded. *)
Class JwtLaws (unexpired : pyval → W → Prop) := {
  token_not_empty c k w t w' : jwt_encode c k w = (Ok t, w') → t ≠ "";
  decode_encoded c k w t w' v : jwt_encode c k w = (Ok t, w') → unexpired c v →
    ∃ v', jwt_decode t k v = (Ok c, v')
}.

Lemma outside_ok {A} (m : prog W exn A) svc w r w' : m w = (r, w') → outside m (svc, w) = (r, (svc, w')).
Proof. intros Hm. unfold outside. cbn [fst snd]. by rewrite Hm. Qed.

Lemma outside_inv {A} (m : prog W exn A) svc w a s' : outside m (svc, w) = (Ok a, s') →
  ∃ w', m w = (Ok a, w') ∧ s' = (svc, w').
Proof. unfold outside. cbn [fst snd]. destruct (m w) as [r w']. intros [= -> <-]. by exists w'. Qed.

(** What is swallowed leaves the service as it was. *)
Lemma swallowed_service {A} (m : prog W exn A) (a b : A) svc w r s' :
  catch (outside m) (λ _, mret b) (svc, w) = (r, s') → s'.1 = svc.
Proof. unfold catch, outside. cbn [fst snd]. destruct (m w) as [[?|?] w']; by intros [= _ <-]. Qed.

(** A cached row answers until its deadline. *)
Lemma cache_hit i svc w expires u now w' : dict_get i (as_cache svc) = Some (expires, u) →
  monotonic w = (Ok now, w') → now <= expires → cache_get i (svc, w) = (Ok (Some u), (svc, w')).
Proof.
  intros Hi Hm Hle. unfold cache_get. rewrite (bind_ok service _ (svc, w) svc (svc, w) eq_refl), Hi.
  rewrite (bind_ok _ _ _ _ _ (outside_ok _ _ _ _ _ Hm)). by rewrite (proj2 (Z.ltb_ge _ _)).
Qed.

(** What a successful check leaves: the active row of that name. *)
Lemma verify_credentials_some username password svc w u s' :
  verify_credentials username password (svc, w) = (Ok (Some u), s') →
  is_active u = true ∧ s'.1 = svc ∧ ∃ w', get_user_by_username username w = (Ok (Some u), w').
Proof.
  unfold verify_credentials. intros (user & s1 & (w1 & Hu & ->)%outside_inv & Hr)%bind_inv.
  apply bind_inv in Hr as (? & s2 & Hsvc & Hr). injection Hsvc as <- <-. cbv zeta in Hr. cbn [fst] in Hr.
  apply bind_inv in Hr as (matches & s3 & Hm & Hr).
  assert (s3.1 = svc) as H3.
  { unfold catch, outside, mbind, prog_bind in Hm. cbn [fst snd] in Hm.
    destruct (argon_verify _ password w1) as [[?|?] w2]; by injection Hm as <- <-. }
  destruct user as [u'|]; [|done]. destruct (matches && is_active u') eqn:E; [|done].
  apply andb_true_iff in E as [_ Ha]. apply bind_inv in Hr as (? & s4 & Hn & Hr). injection Hr as -> <-.
  split; [done|]. split; [|by exists w1]. destruct s3 as [svc3 w3]. cbn [fst] in H3. subst svc3.
  unfold catch, outside, mbind, prog_bind in Hn. cbn [fst snd] in Hn.
  destruct (check_needs_rehash _ w3) as [[?|?] w4]; by injection Hn as _ <-.
Qed.

(** What a login leaves. *)
Lemma login_inv username password svc w name i ck s' :
  login username password (svc, w) = (Ok (name, i, ck), s') →
  ∃ u wu issued stamp v v', get_user_by_username username w = (Ok (Some u), wu) ∧ is_active u = true ∧
    name = au_username u ∧ i = au_id u ∧
    jwt_encode (session_claims i (au_session_gen u) issued) (as_jwt_secret svc) v = (Ok (ck_value ck), v') ∧
    s'.1 = mkAuthService (as_jwt_secret svc) (as_dummy_hash svc) (dict_set i (stamp + CACHE_TTL, u) (as_cache svc)).
Proof.
  unfold login. intros (user & [svc1 w1] & Hv & Hr)%bind_inv.
  destruct user as [u|]; [|done]. apply verify_credentials_some in Hv as (Hact & Hs1 & wu & Hrow). cbn [fst] in Hs1. subst svc1.
  apply bind_inv in Hr as (token & s2 & Ht & Hr). unfold create_token in Ht.
  apply bind_inv in Ht as (issued & s3 & (w3 & _ & ->)%outside_inv & Ht).
  apply bind_inv in Ht as (? & s4 & Hsvc & Ht). injection Hsvc as <- <-. cbn [fst] in Ht.
  apply outside_inv in Ht as (w4 & Htok & ->).
  apply bind_inv in Hr as (ck' & s5 & (w5 & Hck & ->)%outside_inv & Hr).
  unfold session_cookie in Hck. apply bind_inv in Hck as (secure & ? & _ & Hck). injection Hck as <- _.
  apply bind_inv in Hr as (? & s6 & Hput & Hr). unfold cache_user in Hput.
  apply bind_inv in Hput as (stamp & s7 & (w7 & _ & ->)%outside_inv & Hput). injection Hput as _ <-.
  apply bind_inv in Hr as (? & s8 & Hlast & Hr). injection Hr as <- <- <- <-.
  exists u, wu, issued, stamp, w3, w4. split_and!; try done.
  by eapply (swallowed_service _ tt tt).
Qed.

(** A session whose row is cached resolves without the database. *)
Lemma require_user_cached is_invalid token i gen issued svc v v' expires u now v'' : token ≠ "" →
  jwt_decode token (as_jwt_secret svc) v = (Ok (session_claims i gen issued), v') → uuid_of (VStr i) = Ok i →
  dict_get i (as_cache svc) = Some (expires, u) → is_active u = true → au_session_gen u = gen →
  monotonic v' = (Ok now, v'') → now <= expires →
  require_user is_invalid (Some token) (svc, v) = (Ok (mkCurrentUser i (au_username u) gen), (svc, v'')).
Proof.
  intros Hne Hdec Hid Hin Ha Hg Hnow Hle. unfold require_user. destruct token as [|c token]; [done|].
  set (claims := session_claims i gen issued) in *.
  assert (catch (decode_token (String c token)) (λ e, if is_invalid e then raise UNAUTHORIZED else raise e) (svc, v)
          = (Ok claims, (svc, v'))) as Hclaims.
  { unfold catch, decode_token. rewrite (bind_ok service _ (svc, v) svc (svc, v) eq_refl).
    by rewrite (outside_ok _ _ _ _ _ Hdec). }
  rewrite (bind_ok _ _ _ _ _ Hclaims). clear Hclaims.
  assert (catch (lift_res (sub ← getitem "sub" claims; uuid_of sub))
            (λ e, if isinstance e CKeyError || isinstance e CValueError then raise UNAUTHORIZED else raise e) (svc, v')
          = (Ok i, (svc, v'))) as Hsub.
  { unfold catch, lift_res. change (sub ← getitem "sub" claims; uuid_of sub) with (uuid_of (VStr i)). by rewrite Hid. }
  rewrite (bind_ok _ _ _ _ _ Hsub). clear Hsub. rewrite lift_bind.
  change (v0 ← getitem "ver" claims; int_val v0) with (Ok gen : res exn Z). cbv iota.
  assert (resolve_current_user i gen (svc, v') = (Ok (Some (mkCurrentUser i (au_username u) gen)), (svc, v''))) as Hres.
  { unfold resolve_current_user. rewrite (bind_ok _ _ _ _ _ (cache_hit _ _ _ _ _ _ _ Hin Hnow Hle)), mret_bind.
    by rewrite Ha, Hg, Z.eqb_refl. }
  by rewrite (bind_ok _ _ _ _ _ Hres).
Qed.
End session.

(** A login carries over to the next request: the cookie it sets, presented
    while the token is in force and the cached row has not expired, resolves to the
    user who logged in, under his generation, and without reading the database. *)
Theorem login_then_request {W} `{AuthDb W} `{Monotonic W} `{AuthLib W} `{Environ W} unexpired
    `{!JwtLaws unexpired} is_invalid username password svc w name i ck svc' w' :
  (∀ n v u v', get_user_by_username n v = (Ok (Some u), v') → ∃ z, 0 <= z < 2 ^ 128 ∧ au_id u = uuid_text z) →
  login username password (svc, w) = (Ok (name, i, ck), (svc', w')) →
  ∃ issued gen stamp, ∀ v, unexpired (session_claims i gen issued) v →
    ∃ v', jwt_decode (ck_value ck) (as_jwt_secret svc') v = (Ok (session_claims i gen issued), v') ∧
      ∀ now v'', monotonic v' = (Ok now, v'') → now <= stamp + CACHE_TTL →
        require_user is_invalid (Some (ck_value ck)) (svc', v) = (Ok (mkCurrentUser i name gen), (svc', v'')).
Proof.
  intros Hids Hlogin. apply login_inv in Hlogin as (u & wu & issued & stamp & v1 & v2 & Hrow & Ha & -> & -> & Htok & Hsvc).
  cbn [fst] in Hsvc. exists issued, (au_session_gen u), stamp. intros v Hun. subst svc'.
  destruct (decode_encoded _ _ _ _ _ v Htok Hun) as [v' Hdec]. exists v'. split; [exact Hdec|].
  intros now v'' Hnow Hle. destruct (Hids _ _ _ _ Hrow) as (z & Hz & Hid).
  eapply require_user_cached; [by eapply token_not_empty|exact Hdec| |apply dict_get_set|done|done|done|done].
  rewrite Hid. by apply uuid_roundtrip.
Qed.

(** ** A small world *)

Module Toy.

(** A clock that moves with each reading, and the tokens issued, under one key. *)
Definition world : Type := Z * list (string * pyval).

Definition ann : app_user := mkAppUser (uuid_text 7) "ann" "hash:secret" (Some "Y") 3.

#[export] Instance users : AuthDb world := {|
  get_user_by_username n w := (Ok (if String.eqb n "ann" then Some ann else None), w);
  get_user_by_id i w := (Ok (if String.eqb i (uuid_text 7) then Some ann else None), w);
  update_last_login i w := (Raise (RuntimeError "no such procedure"), w)
|}.
#[export] Instance clock : Monotonic world := {| monotonic w := (Ok w.1, (w.1 + 1, w.2)) |}.
#[export] Instance library : AuthLib world := {|
  argon_verify h p w := (if String.eqb h ("hash:" +:+ p) then Ok tt else Raise (ValueError "mismatch"), w);
  argon_hash p w := (Ok ("hash:" +:+ p), w);
  check_needs_rehash h w := (Ok false, w);
  jwt_encode c k w :=
    if String.eqb k "key" then (Ok ("token" +:+ repr_val c), (w.1, ("token" +:+ repr_val c, c) :: w.2))
    else (Raise (ValueError "key"), w);
  jwt_decode t k w :=
    (match dict_get t w.2 with
     | Some c => if String.eqb k "key" then Ok c else Raise (ValueError "signature")
     | None => Raise (ValueError "token")
     end, w);
  epoch_now w := (Ok 1700000000, w);
  token_urlsafe w := (Ok "made-up", w)
|}.
#[export] Instance environ : Environ world := {|
  getenv n w := (Ok (if String.eqb n "TRADE_SERVICE_TOKEN" then Some " 0123456789abcdef " else None), w);
  putenv n v w := (Ok tt, w)
|}.

Definition service : AuthService := mkAuthService "key" "hash:dummy" [].
Definition start : world := (0, []).

(** What a login answers and leaves. *)
Definition logged_in : res exn (string * string * cookie) * (AuthService * world) :=
  login "ann" "secret" (service, start).

(** Claims in force: those of the token the world knows them by. *)
Definition unexpired (c : pyval) (w : world) : Prop := dict_get ("token" +:+ repr_val c) w.2 = Some c.

#[export] Instance laws : JwtLaws unexpired.
Proof.
  split.
  - intros c k w t w'. cbn. destruct (String.eqb k "key"); [|done]. by intros [= <- _].
  - intros c k w t w' v. cbn. destruct (String.eqb k "key"); [|done]. intros [= <- _] Hv. rewrite Hv. by exists v.
Qed.

(** Requests in turn: a row is read, cached, and another reads the clock. *)
Definition after_caching : auth_state world :=
  (@cache_user _ (traced_monotonic clock) ann
     (@outside _ _ (@get_user_by_username _ (traced_auth_db users) "ann")
        (service, ((0, [("tok", session_claims (uuid_text 7) 3 1700000000)]), []))).2).2.
End Toy.

#[local] Existing Instances Toy.users Toy.clock Toy.library Toy.environ Toy.laws.

Lemma login_then_request_witness : ∃ ck svc' w',
  login "ann" "secret" (Toy.service, Toy.start) = (Ok ("ann", uuid_text 7, ck), (svc', w')) ∧
  ∃ issued gen stamp, ∀ v, Toy.unexpired (session_claims (uuid_text 7) gen issued) v →
    ∃ v', jwt_decode (ck_value ck) (as_jwt_secret svc') v = (Ok (session_claims (uuid_text 7) gen issued), v') ∧
      ∀ now v'', monotonic v' = (Ok now, v'') → now <= stamp + CACHE_TTL →
        require_user (λ _, false) (Some (ck_value ck)) (svc', v)
        = (Ok (mkCurrentUser (uuid_text 7) "ann" gen), (svc', v'')).
Proof.
  exists (mkCookie ("token" +:+ repr_val (session_claims (uuid_text 7) 3 1700000000)) JWT_TTL_SECONDS "/api" true false "lax"),
    Toy.logged_in.2.1, Toy.logged_in.2.2.
  assert (login "ann" "secret" (Toy.service, Toy.start)
    = (Ok ("ann", uuid_text 7, mkCookie ("token" +:+ repr_val (session_claims (uuid_text 7) 3 1700000000))
             JWT_TTL_SECONDS "/api" true false "lax"), (Toy.logged_in.2.1, Toy.logged_in.2.2))) as Hl
    by (vm_compute; reflexivity).
  split; [exact Hl|]. refine (login_then_request Toy.unexpired (λ _, false) "ann" "secret" _ _ _ _ _ _ _ _ Hl).
  intros n v u v'. cbn. destruct (String.eqb n "ann"); [|done]. intros [= <- _]. exists 7. split; [lia|reflexivity].
Defined.

Lemma admitted_session_is_live_witness :
  rtc (auth_step Toy.users Toy.clock)
    (Toy.service, ((0, [("tok", session_claims (uuid_text 7) 3 1700000000)]), [])) Toy.after_caching ∧
  ∃ s', @require_user _ (traced_auth_db Toy.users) (traced_monotonic Toy.clock) (traced_auth_lib Toy.library)
          (λ _, false) (Some "tok") Toy.after_caching = (Ok (mkCurrentUser (uuid_text 7) "ann" 3), s') ∧
  ∃ token claims u new, Some "tok" = Some token ∧
    (∃ w', jwt_decode token "key" Toy.after_caching.2.1 = (Ok claims, w')) ∧
    (sub ← getitem "sub" claims; uuid_of sub) = Ok (uuid_text 7) ∧
    (v ← getitem "ver" claims; int_val v) = Ok (au_session_gen u) ∧
    mkCurrentUser (uuid_text 7) "ann" 3 = mkCurrentUser (uuid_text 7) (au_username u) (au_session_gen u) ∧
    is_active u = true ∧ s'.2.2 = (Toy.after_caching.2.2 ++ new)%list ∧
    recent_row (uuid_text 7) u Toy.after_caching.2.2 new.
Proof.
  assert (rtc (auth_step Toy.users Toy.clock)
    (Toy.service, ((0, [("tok", session_claims (uuid_text 7) 3 1700000000)]), [])) Toy.after_caching) as Hr.
  { eapply rtc_l; [exact (step_read_name _ _ "ann" _)|]. eapply rtc_l; [|apply rtc_refl].
    apply (step_put Toy.users Toy.clock Toy.ann). left. exists "ann". left. }
  split; [exact Hr|]. eexists. split; [vm_compute; reflexivity|].
  exact (admitted_session_is_live Toy.users Toy.clock Toy.library (λ _, false) (Some "tok") Toy.service _
    Toy.after_caching _ _ eq_refl Hr ltac:(vm_compute; reflexivity)).
Defined.

Lemma maintenance_admits_witness : ∃ s',
  require_user_or_service (λ _, true) (Some "Bearer 0123456789abcdef") None (Toy.service, Toy.start) = (Ok "scheduler", s') ∧
  ((∃ h value scheme found credential w', Some "Bearer 0123456789abcdef" = Some h ∧ "scheduler" = "scheduler" ∧
     partition_on " " h = (scheme, found, credential) ∧ lower scheme = "bearer" ∧
     getenv "TRADE_SERVICE_TOKEN" Toy.start = (Ok value, w') ∧ credential = strip (default "" value) ∧
     (16 <= String.length credential)%nat ∧ s' = (Toy.service, w')) ∨
   (∃ cu w', presents_service_token (Some "Bearer 0123456789abcdef") Toy.start = (Ok false, w') ∧
     require_user (λ _, true) None (Toy.service, w') = (Ok cu, s') ∧ "scheduler" = cu_username cu)).
Proof.
  exists (Toy.service, Toy.start). split; [reflexivity|].
  exact (maintenance_admits (λ _, true) (Some "Bearer 0123456789abcdef") None Toy.service Toy.start "scheduler" _ eq_refl).
Defined.

Lemma login_pays_one_check_witness :
  get_user_by_username "bob" Toy.start = (Ok None, Toy.start) ∧
  let '(r, s') := @login _ (traced_auth_db Toy.users) (traced_monotonic Toy.clock) (traced_auth_lib Toy.library) (unlogged_environ Toy.environ)
                    "bob" "secret" (Toy.service, (Toy.start, [])) in
  verifies s'.2.2 = [("hash:dummy", "secret")] ∧ (True → r = Raise GENERIC_LOGIN_FAILURE).
Proof.
  split; [reflexivity|].
  exact (login_pays_one_check Toy.users Toy.clock Toy.library Toy.environ "bob" "secret" Toy.service Toy.start [] None Toy.start eq_refl).
Defined.
