(* ===== verification/Credentials.v ===== *)
(** * Exchange credentials

    [quant/api/credentials], [quant/shared/secrets_crypto.py] and the account
    page of [quant/trade/account.py]: keys kept encrypted, shown masked, and
    handed to a broker session.  The procedures and the Fernet cipher are
    parameters. *)
From S2P Require Import Prelude PyFloat PyData Order Errors PyValue KeyProfile Ccxt Gateway Adapter Auth.
Local Open Scope string_scope.
Local Open Scope Z_scope.

(** A row of [SP_GET_API_CREDENTIAL]; a revoked one has lost its ciphertext. *)
Record cred_row := mkCredRow {
  cr_api_credential_id : Z; cr_api_credential_vid : Z; cr_app_id : Z; cr_label : string;
  cr_key_ciphertext : option string; cr_secret_ciphertext : option string; cr_is_active_ind : string
}.

(** Arguments of [insert_credential]; an id set rotates the credential's keys. *)
Record cred_write := mkCredWrite {
  cw_app_user_id : string; cw_app_id : Z; cw_label : string; cw_key_ciphertext : string;
  cw_secret_ciphertext : string; cw_api_credential_id : option Z
}.

(** [ApiCredentialRepo] *)
Class CredentialDb (W : Type) := {
  sp_list_credentials : string → prog W exn (list cred_row);
  sp_get_credential : string → Z → prog W exn (option cred_row);
  sp_insert_credential : cred_write → prog W exn (Z * Z);
  sp_revoke_credential : string → Z → prog W exn Z
}.

(** [cryptography.fernet] *)
Class Fernet (W : Type) := {
  (** whether [Fernet(key)] takes the key *)
  fernet_open : string → res exn unit;
  fernet_encrypt : string → string → prog W exn string;
  fernet_decrypt : string → string → res exn string;
  generate_key : prog W exn string
}.

(** [CredentialResponse] *)
Record CredentialResponse := mkCredentialResponse {
  cp_api_credential_id : Z; cp_api_credential_vid : Z; cp_app_id : Z; cp_label : string;
  cp_api_key_masked : string; cp_is_active_ind : string
}.

(** [CreateCredentialRequest]: bounds on what was sent, then trimmed; nothing
    stands for a refused body. *)
Definition create_request (app_id : Z) (label api_key api_secret : string) : option (Z * string * string * string) :=
  if (1 <=? app_id) && length_between 1 200 label && length_between 1 500 api_key && length_between 1 500 api_secret then
    if String.eqb (strip label) "" then None
    else Some (app_id, strip label, strip api_key, strip api_secret)
  else None.

(** [RotateCredentialRequest] *)
Definition rotate_request (api_key api_secret : string) : option (string * string) :=
  if length_between 1 500 api_key && length_between 1 500 api_secret then Some (strip api_key, strip api_secret) else None.

(** ** Masking *)

Fixpoint stars (n : nat) : string := match n with O => EmptyString | S k => String "*" (stars k) end.

(** [mask(value, visible=4)] *)
Definition mask_visible (visible : nat) (value : string) : string :=
  let n := String.length value in
  if (n <=? visible)%nat then stars n else stars (n - visible) +:+ str_drop (n - visible) value.
Definition mask : string → string := mask_visible 4.

Section service.
Context {W : Type} `{CredentialDb W} `{Fernet W} `{Environ W}.

(** [_resolve_exchange_secrets_key] *)
Definition resolve_exchange_secrets_key (explicit : option string) : prog W exn string :=
  key ← match explicit with Some s => mret (Some s) | None => getenv "EXCHANGE_SECRETS_KEY" end;
  match key with
  | Some (String c s) => mret (String c s)
  | _ =>
      env ← getenv "APP_ENV";
      if String.eqb (lower (default "dev" env)) "prod"
      then raise (RuntimeError "EXCHANGE_SECRETS_KEY is not set.")
      else key ← generate_key; _ ← putenv "EXCHANGE_SECRETS_KEY" key; mret key
  end.

(** [CredentialCrypto(key)] *)
Definition CredentialCrypto (key : option string) : prog W exn string :=
  resolved ← resolve_exchange_secrets_key key; _ ← lift_res (fernet_open resolved); mret resolved.

(** The key the app's crypto holds. *)
Context (secrets_key : string).

Definition encrypt (plaintext : string) : prog W exn string := fernet_encrypt secrets_key plaintext.
Definition decrypt (ciphertext : option string) : res exn string :=
  match ciphertext with
  | Some t => fernet_decrypt secrets_key t
  | None => Raise (AttributeError "'NoneType' object has no attribute 'encode'")
  end.

(** [_mask_row] *)
Definition mask_row (row : cred_row) : CredentialResponse :=
  mkCredentialResponse (cr_api_credential_id row) (cr_api_credential_vid row) (cr_app_id row) (cr_label row)
    match cr_key_ciphertext row with
    | Some (String c t) =>
        match fernet_decrypt secrets_key (String c t) with Ok plain => mask plain | Raise _ => "****" end
    | _ => "****"
    end
    (cr_is_active_ind row).

(** [list_credentials] *)
Definition list_credentials (app_user_id : string) : prog W exn (list CredentialResponse) :=
  rows ← sp_list_credentials app_user_id; mret (map mask_row rows).

(** [get_credential] *)
Definition get_credential (app_user_id : string) (api_credential_id : Z) : prog W exn (option CredentialResponse) :=
  row ← sp_get_credential app_user_id api_credential_id; mret (mask_row <$> row).

(** [create_credential] *)
Definition create_credential (app_user_id : string) (app_id : Z) (label api_key api_secret : string)
    : prog W exn CredentialResponse :=
  key_ct ← encrypt api_key;
  secret_ct ← encrypt api_secret;
  idv ← sp_insert_credential (mkCredWrite app_user_id app_id label key_ct secret_ct None);
  mret (mkCredentialResponse idv.1 idv.2 app_id label (mask api_key) "Y").

(** [rotate_credential] *)
Definition rotate_credential (app_user_id : string) (api_credential_id : Z) (api_key api_secret : string)
    : prog W exn (option CredentialResponse) :=
  existing ← sp_get_credential app_user_id api_credential_id;
  match existing with
  | None => mret None
  | Some row =>
      key_ct ← encrypt api_key;
      secret_ct ← encrypt api_secret;
      idv ← sp_insert_credential
              (mkCredWrite app_user_id (cr_app_id row) (cr_label row) key_ct secret_ct (Some api_credential_id));
      mret (Some (mkCredentialResponse idv.1 idv.2 (cr_app_id row) (cr_label row) (mask api_key) "Y"))
  end.

(** [revoke_credential] *)
Definition revoke_credential (app_user_id : string) (api_credential_id : Z) : prog W exn bool :=
  existing ← sp_get_credential app_user_id api_credential_id;
  match existing with
  | None => mret false
  | Some _ => _ ← sp_revoke_credential app_user_id api_credential_id; mret true
  end.

(** [app_id_of] *)
Definition app_id_of (app_user_id : string) (api_credential_id : Z) : prog W exn (option Z) :=
  row ← sp_get_credential app_user_id api_credential_id; mret (cr_app_id <$> row).

(** [decrypt_credential] *)
Definition decrypt_credential (app_user_id : string) (api_credential_id : Z)
    : prog W exn (option (string * string)) :=
  row ← sp_get_credential app_user_id api_credential_id;
  match row with
  | None => mret None
  | Some r =>
      key ← lift_res (decrypt (cr_key_ciphertext r));
      secret ← lift_res (decrypt (cr_secret_ciphertext r));
      mret (Some (key, secret))
  end.

(** ** The routes: [quant/api/credentials/router.py] *)

Definition NOT_FOUND : exn := HTTPException 404 "Not Found".

(** a lookup that found nothing answers 404 *)
Definition or_404 {A} (m : prog W exn (option A)) : prog W exn A :=
  found ← m; match found with Some a => mret a | None => raise NOT_FOUND end.

Definition get_route (u : CurrentUser) (api_credential_id : Z) : prog W exn CredentialResponse :=
  or_404 (get_credential (cu_id u) api_credential_id).
Definition rotate_route (u : CurrentUser) (api_credential_id : Z) (api_key api_secret : string)
    : prog W exn CredentialResponse :=
  or_404 (rotate_credential (cu_id u) api_credential_id api_key api_secret).
Definition revoke_route (u : CurrentUser) (api_credential_id : Z) : prog W exn unit :=
  ok ← revoke_credential (cu_id u) api_credential_id;
  if (ok : bool) then mret tt else raise NOT_FOUND.
End service.

(** ** The account page: [quant/trade/account.py] *)

(** What the page asks of an adapter, beyond a session. *)
Class AccountAdapter (W : Type) := {
  account_session : TradeAdapter W;
  get_balances : prog W exn (list balance_row);
  get_open_positions : prog W exn (list position_row)
}.

(** [AccountSnapshot] *)
Record AccountSnapshot := mkAccountSnapshot {
  sn_api_credential_id : Z; sn_app_id : Z; sn_paper : bool;
  sn_balances : list balance_row; sn_positions : list position_row
}.

Section account.
Context {W : Type} `{CredentialDb W} `{Fernet W} (secrets_key : string).
(** the factories registered by app *)
Context (registry : list (Z * (string → string → bool → prog W exn (AccountAdapter W)))).

Definition not_owned : exn := TradeValidationError "API credential not found or not owned" 404.

(** [with adapter]: both readings in one session *)
Definition account_holdings (adapter : AccountAdapter W) : prog W exn (list balance_row * list position_row) :=
  @with_session W _ (@account_session _ adapter)
    (balances ← @get_balances _ adapter; positions ← @get_open_positions _ adapter; mret (balances, positions)).

(** [fetch_account_snapshot] *)
Definition fetch_account_snapshot (app_user_id : string) (api_credential_id : Z) (paper : bool)
    : prog W exn AccountSnapshot :=
  app ← app_id_of app_user_id api_credential_id;
  match app with
  | None => raise not_owned
  | Some app_id =>
      match dict_get app_id registry with
      | None => raise (AdapterNotFoundError ("no broker adapter registered for app_id=" +:+ str_Z app_id))
      | Some factory =>
          keys ← decrypt_credential secrets_key app_user_id api_credential_id;
          match keys with
          | None => raise not_owned
          | Some (key, secret) =>
              adapter ← factory key secret paper;
              held ← account_holdings adapter;
              mret (mkAccountSnapshot api_credential_id app_id paper held.1 held.2)
          end
      end
  end.
End account.

(** ** Masks *)

Lemma stars_length n : String.length (stars n) = n.
Proof. induction n as [|n IH]; [done|]. simpl. by rewrite IH. Qed.

Lemma mask_length s : String.length (mask s) = String.length s.
Proof.
  unfold mask, mask_visible. destruct (Nat.leb_spec (String.length s) 4); [apply stars_length|].
  rewrite length_append, stars_length, str_drop_length. lia.
Qed.

Lemma append_cancel_l s t u : s +:+ t = s +:+ u → t = u.
Proof. induction s as [|c s IH]; [done|]. simpl. intros [= ?]. auto. Qed.

(** What a masked key gives away is its length and, when it is longer than
    four characters, its last four: two keys look the same masked just when they
    agree on these. *)
Theorem mask_reveals_tail v v' : mask v = mask v' ↔
  String.length v = String.length v' ∧
  (4 < String.length v → str_drop (String.length v - 4) v = str_drop (String.length v' - 4) v')%nat.
Proof.
  split.
  - intros Hm. assert (String.length v = String.length v') as Hl by (by rewrite <-(mask_length v), Hm, mask_length).
    split; [done|]. intros Hlong. unfold mask, mask_visible in Hm. rewrite <-Hl in Hm |- *.
    rewrite (proj2 (Nat.leb_gt _ _) Hlong) in Hm. by apply append_cancel_l in Hm.
  - intros [Hl Ht]. unfold mask, mask_visible. rewrite <-Hl in Ht |- *.
    destruct (Nat.leb_spec (String.length v) 4); [done|]. by rewrite Ht.
Qed.

(** ** What is stored is what is used *)

(** The procedures as the service relies on them: an insert makes its row the
    current, active one of its owner. *)
Class CredentialLaws (W : Type) `{CredentialDb W} `{Fernet W} (key : string) := {
  insert_is_current w s i vid s' : sp_insert_credential w s = (Ok (i, vid), s') →
    ∃ s'', sp_get_credential (cw_app_user_id w) i s'
      = (Ok (Some (mkCredRow i vid (cw_app_id w) (cw_label w) (Some (cw_key_ciphertext w))
                     (Some (cw_secret_ciphertext w)) "Y")), s'');
  rotation_keeps_id w s i j vid s' : cw_api_credential_id w = Some i →
    sp_insert_credential w s = (Ok (j, vid), s') → j = i;
  decrypt_encrypted p s t s' : fernet_encrypt key p s = (Ok t, s') → fernet_decrypt key t = Ok p
}.

Section stored.
Context {W : Type} `{CredentialLaws W key}.

(** After an insert of encrypted keys they are what the broker session gets. *)
Lemma inserted_decrypts u app label k s kt st i j vid w1 w2 w3 w4 w5 :
  encrypt key k w1 = (Ok kt, w2) → encrypt key s w3 = (Ok st, w4) →
  sp_insert_credential (mkCredWrite u app label kt st i) w4 = (Ok (j, vid), w5) →
  (∃ w6, decrypt_credential key u j w5 = (Ok (Some (k, s)), w6)) ∧
  (∃ w6, app_id_of u j w5 = (Ok (Some app), w6)).
Proof.
  intros Hk%decrypt_encrypted Hs%decrypt_encrypted Hi. destruct (insert_is_current _ _ _ _ _ Hi) as [w6 Hg].
  cbn [cw_app_user_id] in Hg.
  split; exists w6; unfold decrypt_credential, app_id_of; rewrite (bind_ok _ _ _ _ _ Hg); [|done].
  cbn [cr_key_ciphertext cr_secret_ciphertext cw_key_ciphertext cw_secret_ciphertext decrypt].
  by rewrite !lift_bind, Hk, lift_bind, Hs.
Qed.
End stored.

(** C19. The keys a credential was created with are the keys a broker session for
    it gets, and its app is the one it was created for. *)
Theorem created_keys_are_used {W} `{CredentialLaws W key} u app label k s w resp w' :
  create_credential key u app label k s w = (Ok resp, w') →
  cp_app_id resp = app ∧ cp_api_key_masked resp = mask k ∧
  (∃ w'', decrypt_credential key u (cp_api_credential_id resp) w' = (Ok (Some (k, s)), w'')) ∧
  (∃ w'', app_id_of u (cp_api_credential_id resp) w' = (Ok (Some app), w'')).
Proof.
  unfold create_credential. intros (kt & w1 & Hk & (st & w2 & Hs & ([i vid] & w3 & Hi & Hr)%bind_inv)%bind_inv)%bind_inv.
  injection Hr as <- <-. cbn [fst snd cp_app_id cp_api_credential_id cp_api_key_masked].
  split; [done|]. split; [done|]. by eapply inserted_decrypts.
Qed.

(** Rotating replaces the keys and nothing else: the credential keeps its id
    and its app, and a session opened afterwards gets the new keys. *)
Theorem rotation_replaces_keys {W} `{CredentialLaws W key} u i k s w resp w' :
  rotate_credential key u i k s w = (Ok (Some resp), w') →
  cp_api_credential_id resp = i ∧
  (∃ row w1, sp_get_credential u i w = (Ok (Some row), w1) ∧ cp_app_id resp = cr_app_id row ∧
     cp_label resp = cr_label row ∧ ∃ w'', app_id_of u i w' = (Ok (Some (cr_app_id row)), w'')) ∧
  ∃ w'', decrypt_credential key u i w' = (Ok (Some (k, s)), w'').
Proof.
  unfold rotate_credential. intros ([row|] & w1 & Hrow & Hr)%bind_inv; [|done].
  apply bind_inv in Hr as (kt & w2 & Hk & (st & w3 & Hs & ([j vid] & w4 & Hi & Hr)%bind_inv)%bind_inv).
  injection Hr as <- <-. cbn [fst snd cp_app_id cp_api_credential_id cp_label].
  assert (j = i) as -> by (by eapply rotation_keeps_id; [|exact Hi]).
  destruct (inserted_decrypts _ _ _ _ _ _ _ _ _ _ _ _ _ _ _ Hk Hs Hi) as [Hd Happ].
  split; [done|]. split; [by exists row, w1|done].
Qed.

(** C20. A credential that is not the caller's is invisible: reading, rotating,
    revoking it or asking for its account answers 404, decrypting answers nothing,
    and nothing is written and no broker is built. *)
Theorem unowned_is_not_found {W} `{CredentialDb W} `{Fernet W} key registry (u : CurrentUser) i k s paper w w' :
  sp_get_credential (cu_id u) i w = (Ok None, w') →
  get_route key u i w = (Raise NOT_FOUND, w') ∧ rotate_route key u i k s w = (Raise NOT_FOUND, w') ∧
  revoke_route u i w = (Raise NOT_FOUND, w') ∧ decrypt_credential key (cu_id u) i w = (Ok None, w') ∧
  fetch_account_snapshot key registry (cu_id u) i paper w = (Raise not_owned, w').
Proof.
  intros Hg. unfold get_route, rotate_route, revoke_route, or_404, get_credential, rotate_credential, revoke_credential,
    decrypt_credential, fetch_account_snapshot, app_id_of, mbind, prog_bind. by rewrite !Hg.
Qed.

(** An account page that answers shows one broker session of the credential's
    own app: the app is the row's, not the caller's, the session is opened with the
    decrypted keys and closed again, and what it held is what is shown. *)
Theorem snapshot_uses_own_app {W} `{CredentialDb W} `{Fernet W} key registry u i paper w sn w' :
  fetch_account_snapshot key registry u i paper w = (Ok sn, w') →
  ∃ row w1 factory k s w2 adapter w3 w4,
    sp_get_credential u i w = (Ok (Some row), w1) ∧ sn_app_id sn = cr_app_id row ∧
    dict_get (cr_app_id row) registry = Some factory ∧
    decrypt_credential key u i w1 = (Ok (Some (k, s)), w2) ∧ factory k s paper w2 = (Ok adapter, w3) ∧
    account_holdings adapter w3 = (Ok (sn_balances sn, sn_positions sn), w4) ∧ w' = w4.
Proof.
  unfold fetch_account_snapshot. intros (app & w1 & Happ & Hr)%bind_inv. unfold app_id_of in Happ.
  apply bind_inv in Happ as (row & w1' & Hrow & Happ). injection Happ as <- <-. destruct row as [row|]; [|done].
  cbn [fmap option_fmap option_map] in Hr. destruct (dict_get (cr_app_id row) registry) as [factory|] eqn:Ef; [|done].
  apply bind_inv in Hr as (keys & w2 & Hkeys & Hr). destruct keys as [[k s]|]; [|done].
  apply bind_inv in Hr as (adapter & w3 & Hfac & Hr). apply bind_inv in Hr as ([b p] & w4 & Hh & Hr).
  injection Hr as <- <-. exists row, w1', factory, k, s, w2, adapter, w3, w4. by split_and!.
Qed.

(** The bounds on keys hold of what was sent: a blank key is accepted and stored
    as the empty one. *)
Theorem blank_keys_accepted : create_request 1 "main" " " " " = Some (1, "main", "", "").
Proof. reflexivity. Qed.

(** ** A table of credentials *)

Module Vault.

(** The rows with their owners, the newest first, and the next id. *)
Definition world : Type := list (string * cred_row).

Definition owned (u : string) (i : Z) (or : string * cred_row) : bool :=
  String.eqb u or.1 && (i =? cr_api_credential_id or.2).

#[export] Instance rows : CredentialDb world := {|
  sp_list_credentials u w := (Ok (map snd (List.filter (λ r, String.eqb u r.1) w)), w);
  sp_get_credential u i w := (Ok (snd <$> find (owned u i) w), w);
  sp_insert_credential c w :=
    let i := default (Z.of_nat (length w)) (cw_api_credential_id c) in
    (Ok (i, 1), (cw_app_user_id c, mkCredRow i 1 (cw_app_id c) (cw_label c) (Some (cw_key_ciphertext c))
                                     (Some (cw_secret_ciphertext c)) "Y") :: w);
  sp_revoke_credential u i w := (Ok 2, List.filter (λ r, negb (owned u i r)) w)
|}.

#[export] Instance cipher : Fernet world := {|
  fernet_open _ := Ok tt;
  fernet_encrypt _ p w := (Ok ("gAAAAA" +:+ p), w);
  fernet_decrypt _ t := Ok (str_drop 6 t);
  generate_key w := (Ok "key", w)
|}.

#[export] Instance laws key : CredentialLaws world key.
Proof.
  split.
  - intros c w i vid w'. cbn. intros [= <- <- <-]. eexists. unfold owned. cbn. by rewrite String.eqb_refl, Z.eqb_refl.
  - intros c w i j vid w' Hi. cbn. rewrite Hi. by intros [= <- <- <-].
  - intros p w t w'. cbn. by intros [= <- <-].
Qed.

Definition anns : world := [("ann", mkCredRow 0 1 11 "main" (Some "gAAAAAold") (Some "gAAAAAolds") "Y")].
Definition ann : CurrentUser := mkCurrentUser "ann" "ann" 0.
Definition bob : CurrentUser := mkCurrentUser "bob" "bob" 0.

(** A broker that holds nothing. *)
Definition idle : AccountAdapter world := {|
  account_session := {|
    connect w := (Ok tt, w); disconnect w := (Ok tt, w);
    place_order _ w := (Raise (RuntimeError "not a trading page"), w);
    cancel_order _ _ w := (Raise (RuntimeError "not a trading page"), w);
    get_position_qty _ w := (Ok fzero, w); get_last_price _ w := (Ok None, w);
    validate_for_dry_run _ _ w := (Ok "", w) |};
  get_balances w := (Ok [], w);
  get_open_positions w := (Ok [], w)
|}.
Definition brokers : list (Z * (string → string → bool → prog world exn (AccountAdapter world))) :=
  [(11, λ _ _ _ w, (Ok idle, w))].
End Vault.

#[local] Existing Instances Vault.rows Vault.cipher Vault.laws.

Lemma created_keys_are_used_witness : ∃ resp w',
  create_credential "key" "ann" 12 "second" "public" "private" Vault.anns = (Ok resp, w') ∧
  cp_app_id resp = 12 ∧ cp_api_key_masked resp = mask "public" ∧
  (∃ w'', decrypt_credential "key" "ann" (cp_api_credential_id resp) w' = (Ok (Some ("public", "private")), w'')) ∧
  (∃ w'', app_id_of "ann" (cp_api_credential_id resp) w' = (Ok (Some 12), w'')).
Proof. do 2 eexists. split; [reflexivity|]. exact (created_keys_are_used "ann" 12 "second" "public" "private" Vault.anns _ _ eq_refl). Defined.

Lemma rotation_replaces_keys_witness : ∃ resp w',
  rotate_credential "key" "ann" 0 "new" "newer" Vault.anns = (Ok (Some resp), w') ∧
  cp_api_credential_id resp = 0 ∧
  (∃ row w1, sp_get_credential "ann" 0 Vault.anns = (Ok (Some row), w1) ∧ cp_app_id resp = cr_app_id row ∧
     cp_label resp = cr_label row ∧ ∃ w'', app_id_of "ann" 0 w' = (Ok (Some (cr_app_id row)), w'')) ∧
  ∃ w'', decrypt_credential "key" "ann" 0 w' = (Ok (Some ("new", "newer")), w'').
Proof. do 2 eexists. split; [reflexivity|]. exact (rotation_replaces_keys "ann" 0 "new" "newer" Vault.anns _ _ eq_refl). Defined.

Lemma unowned_is_not_found_witness :
  sp_get_credential (cu_id Vault.bob) 0 Vault.anns = (Ok None, Vault.anns) ∧
  get_route "key" Vault.bob 0 Vault.anns = (Raise NOT_FOUND, Vault.anns) ∧
  rotate_route "key" Vault.bob 0 "k" "s" Vault.anns = (Raise NOT_FOUND, Vault.anns) ∧
  revoke_route Vault.bob 0 Vault.anns = (Raise NOT_FOUND, Vault.anns) ∧
  decrypt_credential "key" (cu_id Vault.bob) 0 Vault.anns = (Ok None, Vault.anns) ∧
  fetch_account_snapshot "key" Vault.brokers (cu_id Vault.bob) 0 true Vault.anns = (Raise not_owned, Vault.anns).
Proof.
  split; [reflexivity|].
  exact (unowned_is_not_found "key" Vault.brokers Vault.bob 0 "k" "s" true Vault.anns Vault.anns eq_refl).
Defined.

Lemma snapshot_uses_own_app_witness : ∃ sn w',
  fetch_account_snapshot "key" Vault.brokers "ann" 0 true Vault.anns = (Ok sn, w') ∧
  ∃ row w1 factory k s w2 adapter w3 w4,
    sp_get_credential "ann" 0 Vault.anns = (Ok (Some row), w1) ∧ sn_app_id sn = cr_app_id row ∧
    dict_get (cr_app_id row) Vault.brokers = Some factory ∧
    decrypt_credential "key" "ann" 0 w1 = (Ok (Some (k, s)), w2) ∧ factory k s true w2 = (Ok adapter, w3) ∧
    account_holdings adapter w3 = (Ok (sn_balances sn, sn_positions sn), w4) ∧ w' = w4.
Proof. do 2 eexists. split; [reflexivity|]. exact (snapshot_uses_own_app "key" Vault.brokers "ann" 0 true Vault.anns _ _ eq_refl). Defined.
