(* ===== verification/Database.v ===== *)
(** * The database gateway and its errors over HTTP

    [quant/shared/db.py] and [quant/api/exception_handlers.py]: borrowing a
    connection, the protocol of the stored procedures, what the log may show, and
    which status an error becomes.  The driver, its pool and the log sink are
    parameters; a value of a row is a [pyval]. *)
From S2P Require Import Prelude PyFloat PyData Order Errors PyValue Intervals RefData Auth.
Local Open Scope string_scope.
Local Open Scope Z_scope.

(** The driver: a connection lent by the pool and its cursor. *)
Class Driver (W : Type) := {
  pg_borrow : string → prog W exn unit;
  pg_commit : prog W exn unit;
  pg_rollback : prog W exn unit;
  pg_execute : string → list pyval → prog W exn unit;
  pg_fetchone : prog W exn (option (list pyval));
  pg_fetchall : prog W exn (list (list pyval));
  (** [cur.description], the names of the columns *)
  pg_columns : prog W exn (option (list string))
}.

(** [logger]: a message and the parameters shown with it *)
Class Log (W : Type) := { log_line : string → list pyval → prog W exn unit }.

(** ** What the log shows *)

Definition FERNET_PREFIX : string := "gAAAAA".
Definition MAX_LOGGED_PARAM_CHARS : nat := 200.

(** [_redact_one] *)
Definition redact_one (param : pyval) : pyval :=
  match param with
  | VStr s =>
      let n := str_Z (Z.of_nat (String.length s)) in
      if String.prefix FERNET_PREFIX s then VStr ("<encrypted:" +:+ n +:+ " chars>")
      else if (MAX_LOGGED_PARAM_CHARS <? String.length s)%nat
      then VStr (String.substring 0 MAX_LOGGED_PARAM_CHARS s +:+ "...<truncated, " +:+ n +:+ " chars total>")
      else param
  | _ => param
  end.

(** [_redact] *)
Definition redact (params : list pyval) : list pyval := map redact_one params.

(** [[\w.]] and the ASCII letters of the pattern *)
Definition is_word (c : ascii) : bool :=
  let n := N_of_ascii c in
  ((48 <=? n) && (n <=? 57) || (65 <=? n) && (n <=? 90) || (97 <=? n) && (n <=? 122) || (n =? 95) || (n =? 46))%N.

Fixpoint take_while (f : ascii → bool) (s : string) : string * string :=
  match s with
  | String c s' => if f c then let '(run, rest) := take_while f s' in (String c run, rest) else (EmptyString, s)
  | EmptyString => (EmptyString, EmptyString)
  end.

(** the pattern [CALL\s+([\w.]+)\s*\(] at the start of a text; its three runs
    share no character, so it never has to give one back *)
Definition match_call (s : string) : option string :=
  if String.eqb (lower (String.substring 0 4 s)) "call" then
    let '(blanks, rest) := take_while is_space (String.substring 4 (String.length s - 4) s) in
    let '(name, rest') := take_while is_word rest in
    if String.eqb blanks "" || String.eqb name "" then None
    else match (take_while is_space rest').2 with
         | String c _ => if Ascii.eqb c "(" then Some name else None
         | EmptyString => None
         end
  else None.

(** [_proc_name_from_sql] *)
Fixpoint proc_name_from_sql (sql : string) : string :=
  match match_call sql with
  | Some name => name
  | None => match sql with String _ s' => proc_name_from_sql s' | EmptyString => "database" end
  end.

(** [require_arg]: the error it raises is the caller's *)
Definition require_arg (error : string → exn) (value : pyval) (name : string) : res exn unit :=
  match value with
  | VNone => Raise (error (name +:+ " is required"))
  | VStr s => if String.eqb (strip s) "" then Raise (error (name +:+ " is required")) else Ok tt
  | _ => Ok tt
  end.

(** [ProcedureError] with the values of an OUT row *)
Definition procedure_error (sqlstate message : pyval) : exn :=
  mkExn CProcedureError (str_val message) None None match sqlstate with VStr s => Some s | _ => None end.

(** [row[i]] *)
Definition item (row : list pyval) (i : nat) : res exn pyval :=
  match row !! i with Some v => Ok v | None => Raise (plain CIndexError "tuple index out of range") end.

(** [dict(zip(cols, r))] *)
Definition row_dict (cols : list string) (r : list pyval) : pyval :=
  VDict (dict_comp fst snd (zip cols r)).

(** ** Calling procedures *)

Section gateway.
Context {W : Type} `{Driver W} `{Log W} (conninfo : string).

(** [_run]: the pool's context commits what returned and rolls back what raised,
    whose exception it passes on. *)
Definition run_cursor {A} (work : prog W exn A) : prog W exn A :=
  _ ← pg_borrow conninfo;
  r ← attempt work;
  match r with
  | Ok a => _ ← pg_commit; mret a
  | Raise e => _ ← attempt pg_rollback; raise e
  end.

(** the [work] of [_call_get] *)
Definition get_work (sql : string) (params : list pyval) : prog W exn (list pyval) :=
  _ ← pg_execute sql params;
  status ← pg_fetchone;
  match status with
  | None => raise (TypeError "'NoneType' object is not subscriptable")
  | Some row =>
      cursor_name ← lift_res (item row 0);
      sqlstate ← lift_res (item row 1);
      let quoted := String dquote (str_val cursor_name +:+ String dquote "") in
      if negb (is_str "00000" sqlstate) then
        _ ← pg_execute ("CLOSE " +:+ quoted) [];
        message ← lift_res (item row 3);
        _ ← log_line ("_call_get failed (SQLSTATE " +:+ str_val sqlstate +:+ ") proc=" +:+ proc_name_from_sql sql +:+
                      ": " +:+ str_val message) (redact params);
        raise (procedure_error sqlstate message)
      else
        _ ← pg_execute ("FETCH ALL FROM " +:+ quoted) [];
        cols ← pg_columns;
        names ← lift_res match cols with
                         | Some names => Ok names
                         | None => Raise (TypeError "'NoneType' object is not iterable")
                         end;
        fetched ← pg_fetchall;
        _ ← pg_execute ("CLOSE " +:+ quoted) [];
        _ ← log_line ("_call_get returned " +:+ str_Z (Z.of_nat (length fetched)) +:+ " row(s)") (redact params);
        mret (map (row_dict names) fetched)
  end.

(** [_call_get] *)
Definition call_get (sql : string) (params : list pyval) : prog W exn (list pyval) :=
  run_cursor (get_work sql params).

(** [_call_get_one] *)
Definition call_get_one (sql : string) (params : list pyval) : prog W exn (option pyval) :=
  rows ← call_get sql params; mret (head rows).

(** the [work] of [_call_write] *)
Definition write_work (sql : string) (params : list pyval) : prog W exn (list pyval) :=
  _ ← pg_execute sql params;
  row ← pg_fetchone;
  match row with
  | Some (sqlstate :: sqlmsg :: sqlerrmc :: tail) =>
      if negb (is_str "00000" sqlstate) then
        _ ← log_line ("_call_write failed (SQLSTATE " +:+ str_val sqlstate +:+ ") proc=" +:+ proc_name_from_sql sql +:+
                      ": " +:+ str_val sqlerrmc) (redact params);
        raise (procedure_error sqlstate sqlerrmc)
      else mret tail
  | _ =>
      _ ← log_line "_call_write: no row or short OUT" (redact params);
      raise (RuntimeError "Proc returned no row or invalid OUT shape")
  end.

(** [_call_write] *)
Definition call_write (sql : string) (params : list pyval) : prog W exn (list pyval) :=
  tail ← run_cursor (write_work sql params);
  _ ← log_line "_call_write committed" (redact params);
  mret tail.

(** [_query] *)
Definition query (sql : string) (params : list pyval) : prog W exn (list pyval) :=
  run_cursor (
    _ ← pg_execute sql params;
    cols ← pg_columns;
    fetched ← pg_fetchall;
    mret (map (row_dict (default [] cols)) fetched)).
End gateway.

(** ** The pools of a process *)

Record pool_kwargs := mkPoolKwargs {
  pk_min_size : Z; pk_max_size : Z; pk_timeout : float; pk_max_idle : float; pk_max_lifetime : float
}.

(** [ConnectionPool] *)
Class PoolLib (W : Type) := {
  pool_new : string → pool_kwargs → prog W exn Z;
  pool_closed : Z → prog W exn bool;
  pool_close : Z → prog W exn unit;
  pool_wait : Z → prog W exn unit
}.

Section pools.
Context {W : Type} `{PoolLib W} `{Environ W}.

(** [_pool_kwargs] *)
Definition the_pool_kwargs : prog W exn pool_kwargs :=
  let setting name d := v ← getenv name; mret (VStr (default d v)) in
  min_size ← (v ← setting "DB_POOL_MIN" "2"; lift_res (int_val v));
  max_size ← (v ← setting "DB_POOL_MAX" "10"; lift_res (int_val v));
  if (min_size <? 1) || (max_size <? min_size)
  then raise (ValueError "DB_POOL_MIN must be >= 1 and DB_POOL_MAX >= DB_POOL_MIN")
  else
    timeout ← (v ← setting "DB_POOL_TIMEOUT" "30"; lift_res (float_val v));
    max_idle ← (v ← setting "DB_POOL_MAX_IDLE" "600"; lift_res (float_val v));
    max_lifetime ← (v ← setting "DB_POOL_MAX_LIFETIME" "1800"; lift_res (float_val v));
    mret (mkPoolKwargs min_size max_size timeout max_idle max_lifetime).

(** the process's [_pools] and the outside *)
Definition pools : Type := list (string * Z).
Definition in_world {A} (m : prog W exn A) : prog (pools * W) exn A := λ s,
  let '(r, w) := m s.2 in (r, (s.1, w)).

Definition set_pools (f : pools → pools) : prog (pools * W) exn unit := λ s, (Ok tt, (f s.1, s.2)).

(** [pool_for] *)
Definition pool_for (conninfo : string) : prog (pools * W) exn Z :=
  if String.eqb conninfo "" then raise (ValueError "conninfo is required")
  else
    s ← get_state;
    let open_new :=
      kwargs ← in_world the_pool_kwargs;
      pool ← in_world (pool_new conninfo kwargs);
      _ ← set_pools (dict_set conninfo pool);
      mret pool in
    match dict_get conninfo s.1 with
    | None => open_new
    | Some pool =>
        closed ← in_world (pool_closed pool);
        if (closed : bool) then open_new else mret pool
    end.

(** [open_pool] *)
Definition open_pool (conninfo : string) : prog (pools * W) exn Z :=
  pool ← pool_for conninfo; _ ← in_world (pool_wait pool); mret pool.

(** [close_pools] *)
Definition close_pools : prog (pools * W) exn unit :=
  s ← get_state;
  _ ← set_pools (λ _, []);
  _ ← for_each (λ p : string * Z, attempt (in_world (pool_close p.2))) s.1;
  mret tt.
End pools.

(** ** Errors over HTTP: [quant/api/exception_handlers.py] *)

(** [database_error_facts]: the driver's state, its primary message and [str(exc)] *)
Definition database_error_facts (sqlstate message_primary : option string) (text : string) : string * string :=
  (default "" sqlstate, strip match message_primary with Some (String c m) => String c m | _ => text end).

(** [_procedure_status_code] *)
Definition procedure_status_code (sqlstate : string) : Z :=
  if String.prefix "23" sqlstate then 409
  else if String.prefix "22" sqlstate then 400
  else 502.

(** The classes [register] adds a handler for. *)
Definition handled_classes : list exn_class :=
  [CProcedureError; CDatabaseError; CBarFetchError; CTradeValidationError; CDeploymentNotFound; CStaleBarsError;
   CSubscriptionError; CBackfillTooLargeError].

(** The handler the framework finds: the nearest registered class of the
    exception's. *)
Fixpoint nearest (fuel : nat) (c : exn_class) : option exn_class :=
  if bool_decide (c ∈ handled_classes) then Some c
  else match fuel, parent c with
       | S f, Some p => nearest f p
       | _, _ => None
       end.

(** What each handler answers; raising is a failure of the handler itself.  [proc]
    is the attribute only [ProcedureError] has. *)
Definition handle (proc : string) (c : exn_class) (e : exn) : res exn (Z * pyval) :=
  match c with
  | CProcedureError =>
      match exn_sqlstate e with
      | Some s => Ok (procedure_status_code s,
                      VDict [("detail", VDict [("proc", VStr proc); ("sqlstate", VStr s);
                                               ("message", VStr (exn_msg e))])])
      | None => Raise (AttributeError "'NoneType' object has no attribute 'startswith'")
      end
  | CDatabaseError =>
      let '(sqlstate, message) := database_error_facts (exn_sqlstate e) None (exn_msg e) in
      Ok (procedure_status_code sqlstate,
          VDict [("detail", VDict [("sqlstate", VStr sqlstate); ("message", VStr message)])])
  | CBarFetchError => Ok (502, VDict [("detail", VStr ("the exchange could not answer: " +:+ exn_msg e))])
  | CTradeValidationError =>
      match exn_status_code e with
      | Some status => Ok (status, VDict [("detail", VStr (exn_msg e))])
      | None => Raise (AttributeError "status_code")
      end
  | CDeploymentNotFound => Ok (404, VDict [("detail", VStr ("deployment not found: " +:+ exn_msg e))])
  | CStaleBarsError =>
      Ok (503, VDict [("detail", VStr ("price bars unavailable — no signal computed: " +:+ exn_msg e))])
  | _ => Ok (400, VDict [("detail", VStr (exn_msg e))])
  end.

(** What a route that raised answers: its handler's answer, or the framework's
    500 without one. *)
Definition handled_response (proc : string) (e : exn) : Z * option pyval :=
  match nearest 4 (exn_cls e) with
  | None => (500, None)
  | Some c => match handle proc c e with Ok (status, body) => (status, Some body) | Raise _ => (500, None) end
  end.

(** ** What a call did *)

Inductive db_event :=
| EBorrow (r : res exn unit)
| ECommit (r : res exn unit)
| ERollback (r : res exn unit)
| EExec (sql : string) (r : res exn unit)
| ERow (r : res exn (option (list pyval))).

Definition traced_driver {W} (D : Driver W) : Driver (W * list db_event) := {|
  pg_borrow c := logged EBorrow (pg_borrow c);
  pg_commit := logged ECommit pg_commit;
  pg_rollback := logged ERollback pg_rollback;
  pg_execute q ps := logged (EExec q) (pg_execute q ps);
  pg_fetchone := logged ERow pg_fetchone;
  pg_fetchall := unlogged pg_fetchall;
  pg_columns := unlogged pg_columns
|}.
Definition unlogged_log {W} (G : Log W) : Log (W * list db_event) := {|
  log_line t ps := unlogged (log_line t ps)
|}.

(** The ends of transactions in a trace, and its statements. *)
Definition endings (tr : list db_event) : list db_event :=
  List.filter (λ e, match e with ECommit _ | ERollback _ => true | _ => false end) tr.
Definition statements (tr : list db_event) : list string :=
  omap (λ e, match e with EExec q _ => Some q | _ => None end) tr.

Lemma is_str_true s v : is_str s v = true → v = VStr s.
Proof. destruct v; try done. by intros ->%String.eqb_eq. Qed.

Section calls.
Context {W : Type} (D : Driver W) (G : Log W) (conninfo : string).
#[local] Existing Instance traced_driver.
#[local] Existing Instance unlogged_log.

(** A body is run between a borrow and one end: a commit if it returned, a
    rollback if it raised. *)
Lemma run_cursor_ends {A} (work : prog (W * list db_event) exn A) w tr :
  (∀ x, ∃ new, (work x).2.2 = (x.2 ++ new)%list) →
  let '(r, s') := run_cursor conninfo work (w, tr) in
  ∃ new, s'.2 = (tr ++ new)%list ∧
    ((∃ e, r = Raise e ∧ new = [EBorrow (Raise e)]) ∨
     ∃ w1 rw w2 wn, work (w1, (tr ++ [EBorrow (Ok tt)])%list) = (rw, (w2, ((tr ++ [EBorrow (Ok tt)]) ++ wn)%list)) ∧
       match rw with
       | Ok a => ∃ q, new = (EBorrow (Ok tt) :: wn ++ [ECommit q])%list ∧
                   r = match q with Ok _ => Ok a | Raise e => Raise e end
       | Raise e => ∃ q, new = (EBorrow (Ok tt) :: wn ++ [ERollback q])%list ∧ r = Raise e
       end).
Proof.
  intros Hwork. unfold run_cursor. cbn [pg_borrow pg_commit pg_rollback traced_driver].
  rewrite logged_bind. destruct (pg_borrow conninfo w) as [[[]|e] w1].
  2: { exists [EBorrow (Raise e)]. split; [done|]. left. by exists e. }
  destruct (Hwork (w1, (tr ++ [EBorrow (Ok tt)])%list)) as [wn Hn].
  destruct (work (w1, (tr ++ [EBorrow (Ok tt)])%list)) as [rw [w2 tr2]] eqn:Ew. cbn [fst snd] in Hn. subst tr2.
  assert (attempt work (w1, (tr ++ [EBorrow (Ok tt)])%list) = (Ok rw, (w2, ((tr ++ [EBorrow (Ok tt)]) ++ wn)%list))) as Ha
    by (unfold attempt; by rewrite Ew).
  rewrite (bind_ok _ _ _ _ _ Ha). destruct rw as [a|e].
  - rewrite logged_bind. destruct (pg_commit w2) as [[[]|e] w3]; cbn [mret prog_ret fst snd].
    + exists (EBorrow (Ok tt) :: wn ++ [ECommit (Ok tt)])%list. split; [by rewrite <-!app_assoc|].
      right. exists w1, (Ok a), w2, wn. split; [done|]. by exists (Ok tt).
    + exists (EBorrow (Ok tt) :: wn ++ [ECommit (Raise e)])%list. split; [by rewrite <-!app_assoc|].
      right. exists w1, (Ok a), w2, wn. split; [done|]. by exists (Raise e).
  - assert (attempt (logged ERollback pg_rollback) (w2, ((tr ++ [EBorrow (Ok tt)]) ++ wn)%list)
      = let '(q, w3) := pg_rollback w2 in (Ok q, (w3, (((tr ++ [EBorrow (Ok tt)]) ++ wn) ++ [ERollback q])%list))) as Hr
      by (unfold attempt; rewrite logged_eq; by destruct (pg_rollback w2)).
    destruct (pg_rollback w2) as [q w3]. rewrite (bind_ok _ _ _ _ _ Hr).
    exists (EBorrow (Ok tt) :: wn ++ [ERollback q])%list. split; [cbn [raise snd]; by rewrite <-!app_assoc|].
    right. exists w1, (Raise e), w2, wn. split; [done|]. by exists q.
Qed.

(** The body of a write ends no transaction; what it returns follows a row that
    reported success. *)
Lemma write_work_events sql params w tr :
  ∃ new, (write_work sql params (w, tr)).2.2 = (tr ++ new)%list ∧ endings new = [] ∧
    ∀ tail, (write_work sql params (w, tr)).1 = Ok tail →
      ∃ m e, ERow (Ok (Some (VStr "00000" :: m :: e :: tail))) ∈ new.
Proof.
  unfold write_work. cbn [pg_execute pg_fetchone log_line traced_driver unlogged_log].
  rewrite logged_bind. destruct (pg_execute sql params w) as [[[]|e] w1]; cbn [fst snd];
    [|by exists [EExec sql (Raise e)]].
  rewrite logged_bind. destruct (pg_fetchone w1) as [[row|e] w2]; cbn [fst snd];
    rewrite <-app_assoc; [|by exists [EExec sql (Ok tt); ERow (Raise e)]].
  set (new := ([EExec sql (Ok tt)] ++ [ERow (Ok row)])%list).
  assert (∀ (e : exn) t, ∃ n, ((_ ← unlogged (log_line t (redact params)); raise e : prog (W * list db_event) exn (list pyval))
              (w2, (tr ++ new)%list)).2.2 = (tr ++ n)%list ∧ endings n = [] ∧
    ∀ tail, ((_ ← unlogged (log_line t (redact params)); raise e) (w2, (tr ++ new)%list)).1 = Ok tail →
      ∃ m e, ERow (Ok (Some (VStr "00000" :: m :: e :: tail))) ∈ n) as Hfail.
  { intros e t. exists new. rewrite unlogged_bind. by destruct (log_line t (redact params) w2) as [[?|?] w3]. }
  destruct row as [[|st [|m [|x tail]]]|]; try apply Hfail.
  destruct (is_str "00000" st) eqn:Est; cbn [negb]; [|apply Hfail].
  apply is_str_true in Est. subst st. exists new. split_and!; [done|done|]. intros ? [= <-]. exists m, x. unfold new. right. left.
Qed.
(** How a write's transaction ends, and why. *)
Definition write_ended (new : list db_event) (r : res exn (list pyval)) : Prop :=
  (endings new = [] ∨ (∃ q, endings new = [ECommit q]) ∨ ∃ q, endings new = [ERollback q]) ∧
  (∀ q, endings new = [ECommit q] → ∃ m e tail, ERow (Ok (Some (VStr "00000" :: m :: e :: tail))) ∈ new) ∧
  (∀ tail, r = Ok tail → endings new = [ECommit (Ok tt)] ∧
     ∃ m e, ERow (Ok (Some (VStr "00000" :: m :: e :: tail))) ∈ new).

Lemma endings_around wn e : endings wn = [] → endings (EBorrow (Ok tt) :: wn ++ [e])%list = endings [e].
Proof. intros He. unfold endings in *. simpl. by rewrite List.filter_app, He. Qed.

Lemma write_run_ended sql params w tr :
  let '(r, s') := run_cursor conninfo (write_work sql params) (w, tr) in
  ∃ new, s'.2 = (tr ++ new)%list ∧ write_ended new r.
Proof.
  assert (∀ x, ∃ new, (write_work sql params x).2.2 = (x.2 ++ new)%list) as Hw.
  { intros [v t]. destruct (write_work_events sql params v t) as (new & Hn & _). by exists new. }
  pose proof (run_cursor_ends (write_work sql params) w tr Hw) as Hrun.
  destruct (run_cursor conninfo _ (w, tr)) as [r s']. destruct Hrun as (new & Hn & Hcases).
  exists new. split; [done|]. destruct Hcases as [(e & -> & ->)|(w1 & rw & w2 & wn & Hwork & Hend)].
  { split_and!; [by left|done|done]. }
  destruct (write_work_events sql params w1 (tr ++ [EBorrow (Ok tt)])%list) as (wn' & Hwn & He & Hrow).
  rewrite Hwork in Hwn, Hrow. cbn [fst snd] in Hwn, Hrow. apply app_inv_head in Hwn as <-.
  destruct rw as [a|e]; destruct Hend as (q & -> & ->); unfold write_ended; rewrite endings_around by done.
  - destruct (Hrow a eq_refl) as (m & e & Hin).
    assert (ERow (Ok (Some (VStr "00000" :: m :: e :: a))) ∈ EBorrow (Ok tt) :: wn ++ [ECommit q])
      as Hin' by (right; apply elem_of_app; by left).
    split_and!; [right; left; by exists q|intros ? _; by exists m, e, a|].
    intros tail. destruct q as [[]|?]; [|done]. intros [= <-]. split; [done|]. by exists m, e.
  - split_and!; [right; right; by exists q|done|done].
Qed.
End calls.

(** C21. A write is committed just when the procedure reported success: every call
    that got a connection ends its transaction once; a commit follows an OUT row of
    state 00000, anything that raises before it is rolled back, and a call that
    returns has committed and returns what followed that row's status. *)
Theorem write_commits_reported_success {W} (D : Driver W) (G : Log W) conninfo sql params w tr :
  let '(r, s') := @call_write _ (traced_driver D) (unlogged_log G) conninfo sql params (w, tr) in
  ∃ new, s'.2 = (tr ++ new)%list ∧
    (endings new = [] ∨ (∃ q, endings new = [ECommit q]) ∨ ∃ q, endings new = [ERollback q]) ∧
    (∀ q, endings new = [ECommit q] → ∃ m e tail, ERow (Ok (Some (VStr "00000" :: m :: e :: tail))) ∈ new) ∧
    (∀ tail, r = Ok tail → endings new = [ECommit (Ok tt)] ∧
       ∃ m e, ERow (Ok (Some (VStr "00000" :: m :: e :: tail))) ∈ new).
Proof.
  pose proof (write_run_ended D G conninfo sql params w tr) as Hrun. unfold call_write.
  destruct (run_cursor conninfo _ (w, tr)) as [r [w4 tr4]] eqn:Er. destruct Hrun as (new & Hn & H1 & H2 & H3).
  cbn [snd] in Hn. subst tr4. destruct r as [tail|e].
  - rewrite (bind_ok _ _ _ _ _ Er). cbn [log_line unlogged_log]. rewrite unlogged_bind.
    destruct (log_line "_call_write committed" (redact params) w4) as [[?|?] w5]; exists new; by split_and!.
  - rewrite (bind_raise _ _ _ _ _ Er). exists new. by split_and!.
Qed.

(** ** The cursors of a read *)

Section reads.
Context {W : Type} (D : Driver W) (G : Log W) (conninfo : string).
#[local] Existing Instance traced_driver.
#[local] Existing Instance unlogged_log.

Definition quoted (v : pyval) : string := String dquote (str_val v +:+ String dquote "").

(** What the body of a read did, by how it ended. *)
Definition read_did (sql : string) (new : list db_event) (r : res exn (list pyval)) : Prop :=
  (∀ rows, r = Ok rows → ∃ c rest, ERow (Ok (Some (c :: VStr "00000" :: rest))) ∈ new ∧
     statements new = [sql; "FETCH ALL FROM " +:+ quoted c; "CLOSE " +:+ quoted c]) ∧
  (∀ c st rest, ERow (Ok (Some (c :: st :: rest))) ∈ new → st ≠ VStr "00000" →
     statements new = [sql; "CLOSE " +:+ quoted c] ∧ ∃ e, r = Raise e).

Lemma elem_of_pair_ev (x a b : db_event) : x ∈ [a; b] → x = a ∨ x = b.
Proof. rewrite !elem_of_cons. by intros [|[|?%elem_of_nil]]; auto. Qed.

(** The end of one way through the body: what happened is in the trace, and a
    refused row is among it only on the way that closed its cursor. *)
Ltac read_leaf :=
  eexists; split_and!; [reflexivity|done| |
    let Hin := fresh in intros ? ? ? Hin ?; cbn [app] in Hin; rewrite ?elem_of_cons, ?elem_of_nil in Hin;
    repeat (destruct Hin as [Hin|Hin]; simplify_eq); try (split; [done|by eexists])]; try done.

Lemma get_work_did sql params w tr :
  ∃ new, (get_work sql params (w, tr)).2.2 = (tr ++ new)%list ∧ endings new = [] ∧
    read_did sql new (get_work sql params (w, tr)).1.
Proof.
  unfold get_work, read_did. cbn [pg_execute pg_fetchone pg_fetchall pg_columns log_line traced_driver unlogged_log].
  rewrite logged_bind. destruct (pg_execute sql params w) as [[[]|e] w1]; cbn [fst snd].
  2: { exists [EExec sql (Raise e)]. split_and!; [done|done|done|]. by intros c st rest [?|[]%elem_of_nil]%elem_of_cons. }
  rewrite logged_bind. destruct (pg_fetchone w1) as [[row|e] w2]; cbn [fst snd]; rewrite <-app_assoc.
  2: { exists [EExec sql (Ok tt); ERow (Raise e)]. split_and!; [done|done|done|]. by intros c st rest [?|?]%elem_of_pair_ev. }
  destruct row as [[|c [|st rest]]|].
  1,2,4: (eexists; split_and!; [reflexivity|done|done|]; intros ? ? ? [?|?]%elem_of_pair_ev; simplify_eq).
  rewrite lift_bind. cbn [item lookup list_lookup]. rewrite lift_bind. fold (quoted c).
  destruct (is_str "00000" st) eqn:Est; cbn [negb].
  - apply is_str_true in Est. subst st. rewrite logged_bind.
    destruct (pg_execute _ [] w2) as [[[]|e] w3]; cbn [fst snd]; rewrite <-?app_assoc; [|by read_leaf].
    rewrite unlogged_bind. destruct (pg_columns w3) as [[cols|e] w4]; cbn [fst snd]; [|by read_leaf].
    rewrite lift_bind. destruct cols as [names|]; cbn [fst snd]; [|by read_leaf].
    rewrite unlogged_bind. destruct (pg_fetchall w4) as [[fetched|e] w5]; cbn [fst snd]; [|by read_leaf].
    rewrite logged_bind. destruct (pg_execute _ [] w5) as [[[]|e] w6]; cbn [fst snd]; rewrite <-?app_assoc; [|by read_leaf].
    rewrite unlogged_bind. destruct (log_line _ _ w6) as [[?|e] w7]; cbn [fst snd]; [|by read_leaf].
    read_leaf. intros rows _. exists c, rest. split; [right; left|done].
  - rewrite logged_bind.
    destruct (pg_execute _ [] w2) as [[[]|e] w3]; cbn [fst snd]; rewrite <-?app_assoc; [|by read_leaf].
    rewrite lift_bind. destruct (item (c :: st :: rest) 3) as [message|e]; cbn [fst snd]; [|by read_leaf].
    rewrite unlogged_bind. destruct (log_line _ _ w3) as [[?|e] w4]; cbn [fst snd]; by read_leaf.
Qed.
End reads.

(** A read leaves no cursor open and commits only what it answered: when rows
    are returned, the named cursor was fetched from and closed and the transaction
    committed; when the procedure refused, its cursor was closed, nothing fetched,
    and the transaction rolled back. *)
Theorem read_closes_its_cursor {W} (D : Driver W) (G : Log W) conninfo sql params w tr :
  let '(r, s') := @call_get _ (traced_driver D) (unlogged_log G) conninfo sql params (w, tr) in
  ∃ new, s'.2 = (tr ++ new)%list ∧
    (∀ rows, r = Ok rows → endings new = [ECommit (Ok tt)] ∧
       ∃ c rest, ERow (Ok (Some (c :: VStr "00000" :: rest))) ∈ new ∧
         statements new = [sql; "FETCH ALL FROM " +:+ quoted c; "CLOSE " +:+ quoted c]) ∧
    (∀ c st rest, ERow (Ok (Some (c :: st :: rest))) ∈ new → st ≠ VStr "00000" →
       statements new = [sql; "CLOSE " +:+ quoted c] ∧ (∃ q, endings new = [ERollback q]) ∧ ∃ e, r = Raise e).
Proof.
  assert (∀ x, ∃ new, (@get_work _ (traced_driver D) (unlogged_log G) sql params x).2.2 = (x.2 ++ new)%list) as Hw.
  { intros [v t]. destruct (get_work_did D G sql params v t) as (new & Hn & _). by exists new. }
  pose proof (run_cursor_ends D conninfo _ w tr Hw) as Hrun. unfold call_get.
  destruct (run_cursor conninfo _ (w, tr)) as [r s']. destruct Hrun as (new & Hn & Hcases).
  exists new. split; [done|]. destruct Hcases as [(e & -> & ->)|(w1 & rw & w2 & wn & Hwork & Hend)].
  { split; [done|]. by intros c st rest [?|?%elem_of_nil]%elem_of_cons. }
  destruct (get_work_did D G sql params w1 (tr ++ [EBorrow (Ok tt)])%list) as (wn' & Hwn & He & Hok & Hbad).
  rewrite Hwork in Hwn, Hok, Hbad. cbn [fst snd] in Hwn, Hok, Hbad. apply app_inv_head in Hwn as <-.
  assert (∀ e, statements (EBorrow (Ok tt) :: wn ++ [e]) = statements (wn ++ [e])) as Hst by done.
  assert (∀ x e, statements [e] = [] → statements (wn ++ [e]) = x ↔ statements wn = x) as Hst'.
  { intros x e Hx. unfold statements in *. by rewrite omap_app, Hx, app_nil_r. }
  assert (∀ row e, statements [e] = [] → (∀ q, e ≠ ERow q) →
    ERow row ∈ EBorrow (Ok tt) :: wn ++ [e] → ERow row ∈ wn) as Hin.
  { intros row e _ Hne. rewrite elem_of_cons, elem_of_app, list_elem_of_singleton. intros [?|[?|Hx]]; [done|done|].
    by destruct (Hne row). }
  destruct rw as [a|e]; destruct Hend as (q & -> & ->); rewrite endings_around by done.
  - split.
    + intros rows. destruct q as [[]|?]; [|done]. intros [= <-]. split; [done|]. destruct (Hok a eq_refl) as (c & rest & Hc & Hs).
      exists c, rest. split; [right; apply elem_of_app; by left|]. by apply Hst'.
    + intros c st rest Hc Hne. destruct (Hbad c st rest) as [_ [? ?]]; [by eapply Hin; [| |exact Hc]|done|done].
  - split; [done|]. intros c st rest Hc Hne.
    destruct (Hbad c st rest) as [Hs _]; [by eapply Hin; [| |exact Hc]|done|].
    split; [by apply Hst'|]. split; by eexists.
Qed.

(** ** What the log may show *)

Lemma prefix_take p s n : (String.length p <= n)%nat → (n <= String.length s)%nat → ∀ t,
  String.prefix p (String.substring 0 n s +:+ t) = String.prefix p s.
Proof.
  revert s n. induction p as [|c p IH]; intros s n Hp Hs t; [by rewrite !prefix_empty|].
  destruct n as [|n]; [simpl in Hp; lia|]. destruct s as [|d s]; [simpl in Hs; lia|]. simpl in *.
  destruct (ascii_dec c d); [|done]. apply IH; lia.
Qed.

Lemma substring_length s n : (n <= String.length s)%nat → String.length (String.substring 0 n s) = n.
Proof. revert n. induction s as [|c s IH]; intros [|n] Hn; simpl in *; try lia. rewrite IH; lia. Qed.

Lemma prefix_substring s n : (n <= String.length s)%nat → String.prefix (String.substring 0 n s) s = true.
Proof.
  revert n. induction s as [|c s IH]; intros [|n] Hn; simpl in *; try done; try lia.
  destruct (ascii_dec c c); [|done]. apply IH. lia.
Qed.

(** No secret reaches the log: what is shown of a parameter never starts as a
    ciphertext does, two ciphertexts of the same length are shown the same, and of
    any other text at most the first two hundred characters are shown. *)
Theorem log_hides_secrets :
  (∀ p s, redact_one p = VStr s → String.prefix FERNET_PREFIX s = false) ∧
  (∀ s s', String.prefix FERNET_PREFIX s = true → String.prefix FERNET_PREFIX s' = true →
     String.length s = String.length s' → redact_one (VStr s) = redact_one (VStr s')) ∧
  (∀ s, String.prefix FERNET_PREFIX s = false → ∃ shown mark, redact_one (VStr s) = VStr (shown +:+ mark) ∧
     (String.length shown <= 200)%nat ∧ String.prefix shown s = true ∧ (mark = "" ∨ ∃ n, mark = "...<truncated, " +:+ n +:+ " chars total>")).
Proof.
  split_and!.
  - intros p s. destruct p as [| | | |t| |]; try done. cbn [redact_one].
    destruct (String.prefix FERNET_PREFIX t) eqn:Ep; [by intros [= <-]|].
    destruct (Nat.ltb_spec MAX_LOGGED_PARAM_CHARS (String.length t)); intros [= <-]; [|done].
    rewrite prefix_take; [done|by vm_compute; lia|lia].
  - intros s s' Hs Hs' Hl. cbn [redact_one]. by rewrite Hs, Hs', Hl.
  - intros s Hs. cbn [redact_one]. rewrite Hs. destruct (Nat.ltb_spec MAX_LOGGED_PARAM_CHARS (String.length s)) as [Hlt|Hge].
    + exists (String.substring 0 MAX_LOGGED_PARAM_CHARS s), ("...<truncated, " +:+ str_Z (Z.of_nat (String.length s)) +:+ " chars total>").
      split; [done|]. rewrite substring_length by lia. split; [unfold MAX_LOGGED_PARAM_CHARS; lia|].
      split; [apply prefix_substring; lia|]. right. by eexists.
    + exists s, "". rewrite string_app_empty. split; [done|]. split; [done|]. split; [|by left].
      rewrite <-(string_app_empty s) at 2. apply prefix_app.
Qed.

(** ** Statuses *)

(** The handler found is the nearest class's, and there is one just when the
    exception is an instance of a handled class. *)
Lemma nearest_none fuel c : nearest fuel c = None ↔ ∀ d, d ∈ handled_classes → derives fuel c d = false.
Proof.
  revert c. induction fuel as [|fuel IH]; intros c; cbn [nearest derives].
  - case_bool_decide as Hc; [|split; [|done]; intros _ d Hd; by rewrite decide_False by (by intros ->)].
    split; [done|]. intros Hd. specialize (Hd c Hc). by rewrite decide_True in Hd.
  - case_bool_decide as Hc.
    { split; [done|]. intros Hd. specialize (Hd c Hc). by rewrite decide_True in Hd. }
    destruct (parent c) as [p|].
    + rewrite IH. apply forall_proper. intros d. split; intros Hd Hin; specialize (Hd Hin);
        by rewrite decide_False in * by (by intros ->).
    + split; [|done]. intros _ d Hd. by rewrite decide_False by (by intros ->).
Qed.

Lemma nearest_some fuel c d : nearest fuel c = Some d → d ∈ handled_classes ∧ derives fuel c d = true.
Proof.
  revert c. induction fuel as [|fuel IH]; intros c; cbn [nearest derives]; case_bool_decide as Hc.
  1,3: intros [= <-]; by rewrite decide_True.
  - done.
  - destruct (parent c) as [p|]; [|done]. intros [Hin Hd]%IH. split; [done|]. by case_decide.
Qed.

Lemma procedure_status_code_range sqlstate : 400 <= procedure_status_code sqlstate <= 599.
Proof. unfold procedure_status_code. repeat case_match; lia. Qed.

(** Every error has its status: the handler found for an exception is that of
    a registered class it is an instance of; an exception that is an instance of
    none of the eight gets the framework's 500; and what is answered is an error
    status whenever the trade errors carry one. *)
Theorem error_statuses proc e :
  (nearest 4 (exn_cls e) = None ↔ ∀ c, c ∈ handled_classes → isinstance e c = false) ∧
  (∀ c, nearest 4 (exn_cls e) = Some c → c ∈ handled_classes ∧ isinstance e c = true) ∧
  ((∀ status, exn_status_code e = Some status → 400 <= status <= 599) →
     400 <= (handled_response proc e).1 <= 599).
Proof.
  split; [apply nearest_none|]. split; [intros c; apply nearest_some|]. intros Hs. unfold handled_response.
  destruct (nearest 4 (exn_cls e)) as [c|]; [|cbn; lia]. unfold handle.
  destruct c; cbn; repeat case_match; simplify_eq/=; try lia; try apply procedure_status_code_range.
  by apply Hs.
Qed.

(** ** Pools *)

(** A pool is opened once: asking again for the same database answers the pool
    already open, and asking after it was closed opens another under its name. *)
Theorem pool_is_shared {W} `{PoolLib W} `{Environ W} c s p s' :
  pool_for c s = (Ok p, s') →
  dict_get c s'.1 = Some p ∧
  ∀ w w', pool_closed p w = (Ok false, w') → pool_for c (s'.1, w) = (Ok p, (s'.1, w')).
Proof.
  intros Hp. assert (c ≠ "" ∧ dict_get c s'.1 = Some p) as [Hne Hd].
  { unfold pool_for in Hp. destruct (String.eqb_spec c ""); [done|]. split; [done|].
    apply bind_inv in Hp as (? & ? & Hg & Hp). injection Hg as <- <-. cbv zeta in Hp.
    assert (∀ x, (kwargs ← in_world the_pool_kwargs; pool ← in_world (pool_new c kwargs);
                  _ ← set_pools (dict_set c pool); mret pool) x = (Ok p, s') → dict_get c s'.1 = Some p) as Hnew.
    { intros x (k & x1 & _ & (q & x2 & _ & (? & x3 & Hset & Hq)%bind_inv)%bind_inv)%bind_inv.
      unfold set_pools in Hset. injection Hset as <- <-.
      cbv [mret prog_ret] in Hq. injection Hq as -> <-. cbn. apply dict_get_set. }
    match type of Hp with (match ?x with _ => _ end) _ = _ => destruct x as [q|] eqn:Eq end; [|exact (Hnew _ Hp)].
    apply bind_inv in Hp as (closed & s1 & Hc & Hp). destruct closed; [exact (Hnew _ Hp)|].
    injection Hp as -> <-. unfold in_world in Hc. destruct (pool_closed p s.2) as [r w]. by injection Hc as _ <-. }
  split; [done|]. intros w w' Hc. unfold pool_for. destruct (String.eqb_spec c ""); [done|].
  rewrite (bind_ok get_state _ (s'.1, w) (s'.1, w) (s'.1, w) eq_refl). cbn [fst]. rewrite Hd.
  assert (in_world (pool_closed p) (s'.1, w) = (Ok false, (s'.1, w'))) as Hw
    by (unfold in_world; cbn [fst snd]; by rewrite Hc).
  by rewrite (bind_ok _ _ _ _ _ Hw).
Qed.
