(* ===== verification/Sources.v ===== *)
(** * The data providers

    [quant/data/sources.py]: the classes that ask a vendor for a series, as an
    implementation of the interface a backtest fetches through.  Requests, the
    vendors' client libraries and pandas' parsing of their answers are parameters;
    a frame a library answers has the wall clock of its index in microseconds. *)
From S2P Require Import Prelude PyFloat PyData Order Errors PyValue Adapter Intervals RefData TradeRepo BarFetcher BarService LiveApply.
From S2P Require Import Signals StrategyConfig Frames BacktestCache BacktestData Auth.
Local Open Scope string_scope.
Local Open Scope Z_scope.

(** What a request answers. *)
Record response := mkResponse { rs_status : Z; rs_text : string; rs_json : res exn pyval }.

Class Vendors (W : Type) := {
  (** [requests.get(url, params, headers, timeout)] *)
  http_get : string → list (string * pyval) → list (string * string) → prog W exn response;
  (** [pd.read_json(text, convert_dates=["t"])], [t] as the index *)
  read_json : string → res exn frame;
  (** [yf.Ticker(symbol).history(...)] *)
  yf_history : string → string → string → prog W exn frame;
  (** [nasdaqdatalink.get(code, start_date, end_date)] *)
  nasdaq_get : string → string → string → prog W exn frame;
  (** [futu.OpenQuoteContext(host, port)] *)
  futu_open : string → Z → prog W exn unit;
  (** [request_history_kline]: the return code, what came with it, and as rows *)
  futu_kline : string → string → string → string → prog W exn (Z * string * list pyval)
}.

(** ** Days *)

Definition two_digits (s : string) (lo hi : Z) : option (Z * string) :=
  match s with
  | String a s' =>
      d ← digit_of a;
      match s' with
      | String b s'' =>
          match digit_of b with
          | Some e => if (lo <=? 10 * d + e) && (10 * d + e <=? hi) then Some (10 * d + e, s'')
                      else if (lo <=? d) && (d <=? hi) then Some (d, s') else None
          | None => if (lo <=? d) && (d <=? hi) then Some (d, s') else None
          end
      | EmptyString => if (lo <=? d) && (d <=? hi) then Some (d, s') else None
      end
  | EmptyString => None
  end.

Definition is_leap (y : Z) : bool := (y mod 4 =? 0) && (negb (y mod 100 =? 0) || (y mod 400 =? 0)).
Definition days_in_month (y m : Z) : Z :=
  if m =? 2 then (if is_leap y then 29 else 28)
  else if existsb (Z.eqb m) [4; 6; 9; 11] then 30 else 31.

(** Days from the epoch to a date. *)
Definition day_of (y m d : Z) : Z :=
  let y' := if m <=? 2 then y - 1 else y in
  let yoe := y' mod 400 in
  let doy := (153 * (if 2 <? m then m - 3 else m + 9) + 2) / 5 + d - 1 in
  y' / 400 * 146097 + (yoe * 365 + yoe / 4 - yoe / 100 + doy) - 719468.

(** [strptime(text, "%Y-%m-%d")]: four digits, then one or two each for month and
    day *)
Definition parse_day (s : string) : option Z :=
  match s with
  | String a (String b (String c (String e (String "-" s1)))) =>
      y ← (p ← digit_of a; q ← digit_of b; r ← digit_of c; t ← digit_of e; Some (1000 * p + 100 * q + 10 * r + t));
      ms ← two_digits s1 1 12;
      match ms.2 with
      | String "-" s2 =>
          ds ← two_digits s2 1 31;
          if String.eqb ds.2 "" && (1 <=? y) && (ds.1 <=? days_in_month y ms.1) then Some (day_of y ms.1 ds.1) else None
      | _ => None
      end
  | _ => None
  end.

(** [utc_epoch] *)
Definition utc_epoch (day : string) : res exn Z :=
  match parse_day day with
  | Some d => Ok (d * 86400)
  | None => Raise (ValueError ("time data " +:+ repr_str day +:+ " does not match format '%Y-%m-%d'"))
  end.

(** [strftime("%Y-%m-%d")] of an index, read back as a label *)
Definition day_labels (f : frame) : list Z := map (λ us, us / DAY * DAY) (f_index f).

Section classes.
Context {W : Type} `{Vendors W} `{Environ W} `{Clock W} `{PandasIO}.

(** an API key the environment has to hold *)
Definition api_key (variable : string) : prog W exn string :=
  v ← getenv variable;
  match v with
  | Some (String c k) => mret (String c k)
  | _ => raise (ValueError (variable +:+ " is not set"))
  end.

(** [raise_for_status] *)
Definition checked_get (url : string) (params : list (string * pyval)) (headers : list (string * string))
    : prog W exn response :=
  r ← http_get url params headers;
  if (400 <=? rs_status r) && (rs_status r <? 600)
  then raise (plain COther (str_Z (rs_status r) +:+ " Error for url: " +:+ url)) else mret r.

(** ** Glassnode *)

Definition GLASSNODE_URL : string := "https://api.glassnode.com".

(** [Glassnode._get] *)
Definition glassnode_get (key path : string) (params : list (string * pyval)) : prog W exn response :=
  checked_get (GLASSNODE_URL +:+ path) params [("X-Api-Key", key)].

(** [Glassnode.get_historical_price] *)
Definition glassnode_price (key symbol start_date end_date metric_path : string) : prog W exn frame :=
  since ← lift_res (utc_epoch start_date);
  until_ ← lift_res (utc_epoch end_date);
  res ← glassnode_get key ("/v1/metrics/" +:+ metric_path)
          [("a", VStr symbol); ("s", VInt since); ("u", VInt until_); ("i", VStr "24h")];
  lift_res (read_json (rs_text res)).

(** [Glassnode._asset_symbols] *)
Definition asset_symbols (body : pyval) : res exn (list string) :=
  match body with
  | VDict d =>
      match dict_get "data" d with
      | Some (VList rows) =>
          Ok (omap (λ row, match row with
                           | VDict r => match dict_get "symbol" r with
                                        | Some (VStr s) => if String.eqb (strip s) "" then None else Some (strip s)
                                        | _ => None
                                        end
                           | _ => None
                           end) rows)
      | _ => Raise (RuntimeError "Glassnode asset list has no data array")
      end
  | _ => Raise (RuntimeError "Glassnode asset list has no data array")
  end.

(** [Glassnode.list_asset_symbols] *)
Definition list_asset_symbols (key : string) : prog W exn (list string) :=
  res ← glassnode_get key "/v1/metadata/assets" [];
  body ← lift_res (rs_json res);
  lift_res (asset_symbols body).

(** ** Alpha Vantage *)

Definition crypto_symbols : list string :=
  ["BTC"; "ETH"; "LTC"; "XRP"; "DOGE"; "ADA"; "SOL"; "DOT"; "AVAX"; "MATIC"; "LINK"; "UNI"; "BNB"].

(** [AlphaVantage._fetch_daily]: the rows, in the order of the answer *)
Definition av_fetch_daily (key function symbol ts_key close_field : string) (extra : list (string * pyval))
    : prog W exn (list (string * float)) :=
  res ← checked_get "https://www.alphavantage.co/query"
          ([("function", VStr function); ("symbol", VStr symbol); ("apikey", VStr key)] ++ extra)%list [];
  data ← lift_res (rs_json res);
  match data with
  | VDict d =>
      match dict_get ts_key d with
      | Some (VDict days) =>
          for_each (λ dv : string * pyval, v ← lift_res (x ← getitem close_field dv.2; float_val x); mret (dv.1, v)) days
      | Some v => raise (AttributeError ("'" +:+ type_name v +:+ "' object has no attribute 'items'"))
      | None => raise (ValueError ("AlphaVantage error: " +:+ str_val (default data (dict_get "Error Message" d))))
      end
  | _ => raise (TypeError ("argument of type '" +:+ type_name data +:+ "' is not iterable"))
  end.

(** the rows whose date text lies in the range, in order of it *)
Definition av_in_range (start_date end_date : string) (rows : list (string * float)) : list (string * float) :=
  sorted_by (λ a b, String.leb a.1 b.1)
    (List.filter (λ r, String.leb start_date r.1 && String.leb r.1 end_date) rows).

(** [AlphaVantage.get_historical_price]; a frame of no rows has no column [t] *)
Definition av_price (key symbol start_date end_date : string) : prog W exn frame :=
  rows ← (if bool_decide (upper symbol ∈ crypto_symbols)
          then av_fetch_daily key "DIGITAL_CURRENCY_DAILY" symbol "Time Series (Digital Currency Daily)"
                 "4a. close (USD)" [("market", VStr "USD")]
          else av_fetch_daily key "TIME_SERIES_DAILY" symbol "Time Series (Daily)" "4. close" []);
  match rows with
  | [] => raise (KeyError "t")
  | _ =>
      let kept := av_in_range start_date end_date rows in
      labels ← for_each (λ r : string * float, lift_res (pd_timestamp r.1)) kept;
      mret (mkFrame labels [("v", map snd kept)])
  end.

(** ** Yahoo Finance *)

Definition MAX_RETRIES : Z := 3.
Definition RETRY_DELAY : Z := 2.

(** The loop over attempts; [last_err] is the newest failure. *)
Fixpoint yf_attempts (todo : list Z) (symbol start_date end_date : string) (last_err : string) : prog W exn frame :=
  match todo with
  | [] => raise (RuntimeError ("Yahoo Finance failed after " +:+ str_Z MAX_RETRIES +:+ " attempts for '" +:+ symbol +:+
                               "': " +:+ last_err))
  | attempt :: todo' =>
      try_else (yf_history symbol start_date end_date) mret
        (λ exc,
          _ ← (if attempt <? MAX_RETRIES then sleep (of_Z (RETRY_DELAY * attempt)) else mret tt);
          yf_attempts todo' symbol start_date end_date (exn_msg exc))
  end.

(** [YahooFinance.get_historical_price] *)
Definition yahoo_price (symbol start_date end_date : string) : prog W exn frame :=
  hist ← yf_attempts [1; 2; 3] symbol start_date end_date "None";
  if frame_empty (Some hist) then
    raise (ValueError ("Yahoo Finance returned no data for '" +:+ symbol +:+ "' (" +:+ start_date +:+ " to " +:+ end_date +:+ ")"))
  else
    close ← lift_res (get_column hist "Close");
    mret (mkFrame (day_labels hist)
      (("v", close) ::
       omap (λ col, (λ c, (col, c)) <$> dict_get col (f_columns hist)) ["Open"; "High"; "Low"; "Close"; "Volume"])).

(** ** Nasdaq Data Link *)

(** the column taken: the one asked for, whatever its case, else the last *)
Definition nasdaq_column (column : string) (columns : list string) : option string :=
  match dict_get (lower column) (dict_comp lower id columns) with
  | Some c => Some c
  | None => last columns
  end.

(** [NasdaqDataLink.get_historical_price] *)
Definition nasdaq_price (code start_date end_date : string) : prog W exn frame :=
  data ← nasdaq_get code start_date end_date;
  if frame_empty (Some data) then
    raise (ValueError ("Nasdaq Data Link returned no data for '" +:+ code +:+ "' (" +:+ start_date +:+ " to " +:+ end_date +:+ ")"))
  else
    match nasdaq_column "Close" (map fst (f_columns data)) with
    | None => raise (plain CIndexError "index -1 is out of bounds")
    | Some c => v ← lift_res (get_column data c); mret (mkFrame (day_labels data) [("v", v)])
    end.

(** ** Futu *)

(** [FutuOpenD()] *)
Definition futu_connect : prog W exn unit :=
  host ← getenv "FUTU_HOST";
  port ← getenv "FUTU_PORT";
  match host, port with
  | Some (String c h), Some (String d p) =>
      n ← lift_res (int_val (VStr (String d p))); futu_open (String c h) n
  | _, _ => raise (ValueError "FUTU_HOST and FUTU_PORT are not set")
  end.

(** [FutuOpenD.get_historical_data] *)
Definition futu_history (symbol start_date end_date resolution : string) : prog W exn (list pyval) :=
  r ← futu_kline symbol start_date end_date resolution;
  let '(ret, text, data) := r in
  if negb (ret =? 0) then raise (RuntimeError ("Futu API error (ret=" +:+ str_Z ret +:+ "): " +:+ text)) else mret data.

(** ** The module's classes by name *)

Definition no_source (name : string) : exn :=
  AttributeError ("module 'quant.data.sources' has no attribute " +:+ repr_str name).

#[export] Instance sources : Providers W := {|
  provider_open name :=
    if String.eqb name "Glassnode" then api_key "GLASSNODE_API_KEY"
    else if String.eqb name "AlphaVantage" then api_key "ALPHAVANTAGE_API_KEY"
    else if String.eqb name "YahooFinance" then mret ""
    else if String.eqb name "NasdaqDataLink" then api_key "NASDAQ_DATA_LINK_API_KEY"
    else if String.eqb name "FutuOpenD" then _ ← futu_connect; mret ""
    else raise (no_source name);
  provider_takes_path name := String.eqb name "Glassnode";
  provider_price name key ticker s e metric_path :=
    if String.eqb name "Glassnode" then glassnode_price key ticker s e (default "" metric_path)
    else if String.eqb name "AlphaVantage" then av_price key ticker s e
    else if String.eqb name "YahooFinance" then yahoo_price ticker s e
    else if String.eqb name "NasdaqDataLink" then nasdaq_price ticker s e
    else raise (AttributeError ("'" +:+ name +:+ "' object has no attribute 'get_historical_price'"))
|}.
End classes.

(** ** Days and texts *)

#[local] Ltac Zify.zify_post_hook ::= Z.to_euclidean_division_equations.

Lemma digits_end fuel acc : digits_fuel fuel 0 0 acc = acc.
Proof. by destruct fuel. Qed.

Lemma pad_two n : 0 <= n < 100 →
  pad_digits 2 n = String (digit_char (n / 10)) (String (digit_char (n mod 10)) "").
Proof.
  intros Hn. unfold pad_digits. assert (∃ f, Z.to_nat (Z.max 2 (Z.log2 n + 2)) = S (S f)) as [f ->].
  { exists (Z.to_nat (Z.max 2 (Z.log2 n + 2)) - 2)%nat. pose proof (Z.log2_nonneg n). lia. }
  change (Z.max 2 1) with 2. cbn [digits_fuel]. rewrite !andb_false_r. change (2 - 1 - 1) with 0.
  replace (n / 10 / 10) with 0 by lia. rewrite digits_end. by replace (n / 10 mod 10) with (n / 10) by lia.
Qed.

Lemma pad_four n : 0 <= n < 10000 → pad_digits 4 n =
  String (digit_char (n / 1000)) (String (digit_char (n / 100 mod 10))
    (String (digit_char (n / 10 mod 10)) (String (digit_char (n mod 10)) ""))).
Proof.
  intros Hn. unfold pad_digits. assert (∃ f, Z.to_nat (Z.max 4 (Z.log2 n + 2)) = S (S (S (S f)))) as [f ->].
  { exists (Z.to_nat (Z.max 4 (Z.log2 n + 2)) - 4)%nat. pose proof (Z.log2_nonneg n). lia. }
  change (Z.max 4 1) with 4. cbn [digits_fuel]. rewrite !andb_false_r. change (4 - 1 - 1 - 1 - 1) with 0.
  replace (n / 10 / 10 / 10 / 10) with 0 by lia. rewrite digits_end.
  replace (n / 1000) with (n / 10 / 10 / 10 mod 10) by lia. replace (n / 100) with (n / 10 / 10) by lia. done.
Qed.

Ltac some_bind := repeat match goal with |- context [Some ?a ≫= ?f] => change (Some a ≫= f) with (f a); cbv beta end.

Lemma two_digits_pad n lo hi rest : 0 <= n < 100 → lo <= n <= hi → two_digits (pad_digits 2 n +:+ rest) lo hi = Some (n, rest).
Proof.
  intros Hn Hr. rewrite pad_two by done. cbn [two_digits String.append].
  change (String ?a (String ?b "") +:+ rest) with (String a (String b rest)). cbn [two_digits].
  rewrite !digit_of_char by lia. some_bind.
  replace (10 * (n / 10) + n mod 10) with n by lia.
  by rewrite (proj2 (Z.leb_le lo n)), (proj2 (Z.leb_le n hi)) by lia.
Qed.

(** A date's text parses to its day. *)
Lemma parse_day_text y m d : 1 <= y <= 9999 → 1 <= m <= 12 → 1 <= d <= days_in_month y m →
  parse_day (pad_digits 4 y +:+ "-" +:+ pad_digits 2 m +:+ "-" +:+ pad_digits 2 d) = Some (day_of y m d).
Proof.
  intros Hy Hm Hd. assert (d <= 31) as Hd31 by (unfold days_in_month in Hd; repeat case_match; lia).
  rewrite pad_four by lia.
  change (String ?a (String ?b (String ?c (String ?e ""))) +:+ "-" +:+ ?s)
    with (String a (String b (String c (String e (String "-" s))))). cbn [parse_day].
  rewrite !digit_of_char by lia. some_bind.
  rewrite (two_digits_pad m) by lia. some_bind. cbn [snd].
  change ("-" +:+ pad_digits 2 d) with (String "-" (pad_digits 2 d)). cbv iota.
  rewrite <-(string_app_empty (pad_digits 2 d)), (two_digits_pad d) by lia. some_bind. cbn [fst snd].
  replace (1000 * (y / 1000) + 100 * (y / 100 mod 10) + 10 * (y / 10 mod 10) + y mod 10) with y by lia.
  by rewrite (proj2 (Z.leb_le 1 y)), (proj2 (Z.leb_le d _)) by lia.
Qed.

(** ** The calendar *)

Section civil.
Variable day : Z.
Let z := day + 719468.
Let doe := z mod 146097.
Let yoe := (doe - doe / 1460 + doe / 36524 - doe / 146096) / 365.
Let doy := doe - (365 * yoe + yoe / 4 - yoe / 100).

Lemma yoe_bounds : 0 <= yoe < 400.
Proof. assert (0 <= doe < 146097) by (unfold doe; lia). clearbody doe. unfold yoe. Z.to_euclidean_division_equations; lia. Qed.

Lemma doy_bounds : 0 <= doy <= 365.
Proof.
  pose proof yoe_bounds. assert (0 <= doe < 146097) by (unfold doe; lia). clearbody doe. unfold doy, yoe in *.
  Z.to_euclidean_division_equations; lia.
Qed.

(** The last day of a year counted from March is the leap day. *)
Lemma leap_day : doy = 365 → is_leap (z / 146097 * 400 + yoe + 1) = true.
Proof.
  intros Hdoy. assert ((yoe + 1) mod 4 = 0 ∧ ((yoe + 1) mod 100 ≠ 0 ∨ yoe + 1 = 400)) as [H4 H100].
  { pose proof yoe_bounds. assert (0 <= doe < 146097) by (unfold doe; lia). clearbody doe. unfold doy, yoe in *.
    Z.to_euclidean_division_equations; lia. }
  unfold is_leap. generalize dependent yoe. intros. lia.
Qed.

(** The date of a day is a date of the calendar, and its day is that day. *)
Lemma civil_spec : let '(y, m, d) := civil day in
  1 <= m <= 12 ∧ 1 <= d <= days_in_month y m ∧ day_of y m d = day.
Proof.
  pose proof yoe_bounds as Hy. pose proof doy_bounds as Hd. pose proof leap_day as Hl.
  unfold civil. fold z. fold doe. fold yoe. fold doy. cbv zeta.
  assert (z = 146097 * (z / 146097) + doe) as Hz by (unfold doe; lia).
  assert (doe = yoe * 365 + yoe / 4 - yoe / 100 + doy) as Hdoe by (unfold doy; lia).
  assert (day = z - 719468) as Hday by (unfold z; lia). clearbody doy. clearbody yoe. clearbody doe.
  set (era := z / 146097) in *. clearbody era. clearbody z.
  set (mp := (5 * doy + 2) / 153). assert (0 <= mp <= 11) as Hmp by (unfold mp; lia).
  set (y' := yoe + era * 400). assert (y' mod 400 = yoe ∧ y' / 400 = era) as [Hym Hyd] by (unfold y'; lia).
  unfold day_of, days_in_month. destruct (Z.ltb_spec mp 10) as [Hlt|Hge].
  - destruct (Z.leb_spec (mp + 3) 2); [lia|]. rewrite (proj2 (Z.ltb_lt 2 (mp + 3))) by lia.
    destruct (Z.eqb_spec (mp + 3) 2); [lia|]. rewrite Z.add_0_r, Hym, Hyd. replace (mp + 3 - 3) with mp by lia.
    split; [lia|]. split; [|unfold mp; lia]. split; [unfold mp; lia|].
    cbn [existsb]. destruct (Z.eqb_spec (mp + 3) 4); [cbn [orb]; unfold mp in *; lia|].
    destruct (Z.eqb_spec (mp + 3) 6); [cbn [orb]; unfold mp in *; lia|]. destruct (Z.eqb_spec (mp + 3) 9); [cbn [orb]; unfold mp in *; lia|].
    destruct (Z.eqb_spec (mp + 3) 11); [cbn [orb]; unfold mp in *; lia|]. cbn [orb]. unfold mp in *; lia.
  - destruct (Z.leb_spec (mp - 9) 2); [|lia]. rewrite (proj2 (Z.ltb_ge 2 (mp - 9))) by lia.
    rewrite Z.add_simpl_r, Hym, Hyd. replace (mp - 9 + 9) with mp by lia.
    split; [lia|]. split; [|unfold mp; lia]. split; [unfold mp; lia|].
    destruct (Z.eqb_spec (mp - 9) 2).
    + destruct (is_leap (y' + 1)) eqn:El; [unfold mp in *; lia|].
      assert (doy ≠ 365) by (intros Heq; specialize (Hl Heq); replace (era * 400 + yoe + 1) with (y' + 1) in Hl by (unfold y'; lia); congruence).
      unfold mp in *; lia.
    + cbn [existsb]. rewrite (proj2 (Z.eqb_neq (mp - 9) 4)), (proj2 (Z.eqb_neq (mp - 9) 6)), (proj2 (Z.eqb_neq (mp - 9) 9)),
        (proj2 (Z.eqb_neq (mp - 9) 11)) by lia. cbn [orb]. unfold mp in *; lia.
Qed.

(** The years of four digits. *)
Lemma civil_year : -719162 <= day <= 2932896 → 1 <= (civil day).1.1 <= 9999.
Proof.
  intros Hr. unfold civil. fold z. fold doe. fold yoe. fold doy. cbv zeta. cbn [fst snd].
  pose proof yoe_bounds as Hy. pose proof doy_bounds as Hd.
  assert (z = 146097 * (z / 146097) + doe) as Hz by (unfold doe; lia).
  assert (doe = yoe * 365 + yoe / 4 - yoe / 100 + doy) as Hdoe by (unfold doy; lia).
  assert (day = z - 719468) as Hday by (unfold z; lia). clearbody doy. clearbody yoe. clearbody doe.
  set (era := z / 146097) in *. clearbody era. clearbody z.
  set (mp := (5 * doy + 2) / 153). assert (0 <= mp <= 11) as Hmp by (unfold mp; lia).
  destruct (Z.ltb_spec mp 10) as [Hlt|Hge].
  - rewrite (proj2 (Z.leb_gt (mp + 3) 2)) by lia. unfold mp in *. lia.
  - rewrite (proj2 (Z.leb_le (mp - 9) 2)) by lia. unfold mp in *. lia.
Qed.
End civil.

(** Asking a vendor from or to the date of an instant asks for that very day:
    the epoch second of a date's text is the UTC midnight it names, for every day
    of the years 1 to 9999. *)
Theorem utc_epoch_of_date us : -719162 <= us / DAY <= 2932896 → utc_epoch (str_date us) = Ok (us / DAY * 86400).
Proof.
  intros Hus. pose proof (civil_spec (us / DAY)) as Hc. pose proof (civil_year _ Hus) as Hy.
  unfold utc_epoch, str_date. destruct (civil (us / DAY)) as [[y m] d]. cbn [fst snd] in Hy.
  destruct Hc as (Hm & Hd & Hday). by rewrite parse_day_text, Hday.
Qed.

Lemma utc_epoch_of_date_witness :
  -719162 <= 1709164800000000 / DAY <= 2932896 ∧ utc_epoch "2024-02-29" = Ok 1709164800.
Proof. split; [by vm_compute|]. exact (utc_epoch_of_date 1709164800000000 ltac:(by vm_compute)). Defined.

(** ** Alpha Vantage's range *)

(** The rows kept of Alpha Vantage's answer are those whose date lies in the
    range, each once, in order of the date. *)
Theorem av_range_exact start_date end_date rows :
  let kept := av_in_range start_date end_date rows in
  (∀ r, r ∈ kept ↔ r ∈ rows ∧ String.leb start_date r.1 = true ∧ String.leb r.1 end_date = true) ∧
  kept ≡ₚ List.filter (λ r, String.leb start_date r.1 && String.leb r.1 end_date) rows ∧
  StronglySorted (λ a b, String.leb a.1 b.1 = true) kept.
Proof.
  cbv zeta. unfold av_in_range. pose proof (sorted_by_perm (λ a b : string * float, String.leb a.1 b.1)
    (List.filter (λ r, String.leb start_date r.1 && String.leb r.1 end_date) rows)) as Hp.
  split; [|split; [exact Hp|]].
  - intros r. rewrite Hp. rewrite !list_elem_of_In, filter_In, andb_true_iff. done.
  - apply sorted_by_sorted; [intros ??; apply string_leb_total|intros ???; apply string_leb_trans].
Qed.

(** ** The vendors' calls *)

Inductive vendor_event :=
| EHistory (r : res exn frame)
| EPause (seconds : float) (r : res exn unit).

Definition traced_vendors {W} (V : Vendors W) : Vendors (W * list vendor_event) := {|
  http_get u ps hs := unlogged (http_get u ps hs);
  read_json := @read_json W V;
  yf_history t s e := logged EHistory (yf_history t s e);
  nasdaq_get c s e := unlogged (nasdaq_get c s e);
  futu_open h p := unlogged (futu_open h p);
  futu_kline t s e r := unlogged (futu_kline t s e r)
|}.
Definition traced_pause {W} (C : Clock W) : Clock (W * list vendor_event) := {|
  sleep s := logged (EPause s) (sleep s)
|}.

(** The trace of failed attempts: a pause after each but the third, longer each
    time. *)
Fixpoint failed_attempts (attempt : Z) (errors : list exn) : list vendor_event :=
  match errors with
  | [] => []
  | e :: errors' =>
      (EHistory (Raise e) :: (if attempt <? MAX_RETRIES then [EPause (of_Z (RETRY_DELAY * attempt)) (Ok tt)] else []))
      ++ failed_attempts (attempt + 1) errors'
  end%list.

(** Yahoo is asked at most three times: the first answer is the result and
    ends the asking, each failure but the last is followed by a pause of two
    seconds more than the one before, and three failures end in an error that names
    the last.  Only a pause that itself fails ends the loop otherwise. *)
Theorem yahoo_is_retried {W} (V : Vendors W) (C : Clock W) symbol s e w :
  let '(r, x) := @yf_attempts _ (traced_vendors V) (traced_pause C) [1; 2; 3] symbol s e "None" (w, []) in
  (∃ errors f, (length errors < 3)%nat ∧ r = Ok f ∧ x.2 = (failed_attempts 1 errors ++ [EHistory (Ok f)])%list) ∨
  (∃ e1 e2 e3, x.2 = failed_attempts 1 [e1; e2; e3] ∧
     r = Raise (RuntimeError ("Yahoo Finance failed after 3 attempts for '" +:+ symbol +:+ "': " +:+ exn_msg e3))) ∨
  (∃ errors e1 p e', (length errors < 2)%nat ∧ r = Raise e' ∧
     x.2 = (failed_attempts 1 errors ++ [EHistory (Raise e1); EPause p (Raise e')])%list).
Proof.
  cbn [yf_attempts]. cbn [yf_history traced_vendors sleep traced_pause].
  unfold try_else at 1. rewrite logged_eq. destruct (yf_history symbol s e w) as [[f|e1] w1].
  { left. exists [], f. split; [simpl; lia|done]. }
  change (1 <? MAX_RETRIES) with true. cbv iota. rewrite logged_bind.
  destruct (sleep (of_Z (RETRY_DELAY * 1)) w1) as [[[]|p] w2].
  2: { right. right. exists [], e1, (of_Z (RETRY_DELAY * 1)), p. split; [simpl; lia|done]. }
  unfold try_else at 1. rewrite logged_eq. destruct (yf_history symbol s e w2) as [[f|e2] w3].
  { left. exists [e1], f. split; [simpl; lia|done]. }
  change (2 <? MAX_RETRIES) with true. cbv iota. rewrite logged_bind.
  destruct (sleep (of_Z (RETRY_DELAY * 2)) w3) as [[[]|p] w4].
  2: { right. right. exists [e1], e2, (of_Z (RETRY_DELAY * 2)), p. split; [simpl; lia|done]. }
  unfold try_else at 1. rewrite logged_eq. destruct (yf_history symbol s e w4) as [[f|e3] w5].
  { left. exists [e1; e2], f. split; [simpl; lia|done]. }
  right. left. by exists e1, e2, e3.
Qed.

(** ** The assets a provider lists *)

(** The assets listed are the trimmed symbols of the rows that have one; a body
    without a [data] array is no empty list but an error. *)
Theorem asset_symbols_spec body :
  (∀ syms, asset_symbols body = Ok syms ↔ ∃ d rows, body = VDict d ∧ dict_get "data" d = Some (VList rows) ∧
     syms = omap (λ row, match row with
                         | VDict r => match dict_get "symbol" r with
                                      | Some (VStr s) => if String.eqb (strip s) "" then None else Some (strip s)
                                      | _ => None
                                      end
                         | _ => None
                         end) rows) ∧
  (∀ syms s, asset_symbols body = Ok syms → s ∈ syms → s ≠ "" ∧ ∃ raw, s = strip raw).
Proof.
  split.
  - intros syms. unfold asset_symbols. split.
    + destruct body as [| | | | | |d]; try done. destruct (dict_get "data" d) as [[| | | | |rows|]|] eqn:Ed; try done.
      intros [= <-]. by exists d, rows.
    + intros (d & rows & -> & -> & ->). done.
  - intros syms s Hok Hs. unfold asset_symbols in Hok. destruct body as [| | | | | |d]; try done.
    destruct (dict_get "data" d) as [[| | | | |rows|]|] eqn:Ed; try done. injection Hok as <-.
    apply list_elem_of_omap in Hs as (row & _ & Hrow). destruct row as [| | | | | |r]; try done.
    destruct (dict_get "symbol" r) as [[| | | |raw| |]|]; try done.
    destruct (String.eqb_spec (strip raw) ""); [done|]. injection Hrow as <-. split; [done|by exists raw].
Qed.
