(* ===== verification/ProviderFill.v ===== *)
(** * The daily fill of the providers

    [quant/data/provider_fill.py] and the route of [quant/api/admin/router.py] that
    runs it: series of providers the drawer does not refresh are fetched once a
    day, and a product the provider lists is given its symbol first.  The venues'
    market tables are a parameter. *)
From S2P Require Import Prelude PyFloat PyData Order Errors PyValue Adapter Instruments Intervals RefData TradeRepo.
From S2P Require Import BarFetcher BarService LiveApply Signals StrategyConfig Frames BacktestCache BacktestData Auth Sources.
Local Open Scope string_scope.
Local Open Scope Z_scope.

Record FillReport := mkFillReport { fl_filled : Z; fl_failed : Z; fl_errors : list string }.
Definition no_fill : FillReport := mkFillReport 0 0 [].

(** [ExchangeListing]: one venue's mapping after its market table was asked *)
Record ExchangeListing := mkExchangeListing {
  el_vendor_symbol : string; el_base : option string; el_markets_unavailable : bool
}.

Record ProviderSymbolDecision := mkDecision {
  ps_vendor_symbol : option string; ps_write : bool; ps_skip_reason : option string
}.

Definition NOT_A_LISTED_ASSET : string := "not a listed asset".
Definition NO_VENUE_BASE : string := "no venue market base".
Definition BASES_DISAGREE : string := "venue market bases disagree".
Definition MARKETS_UNAVAILABLE : string := "venue markets unavailable".
Definition ASSET_LIST_UNAVAILABLE : string := "provider asset list unavailable".

(** [text.casefold()], of ASCII text its lower case *)
Definition casefold : string → string := lower.

(** [d.setdefault(k, v)] *)
Definition dict_setdefault {V} (k : string) (v : V) (d : list (string * V)) : list (string * V) :=
  match dict_get k d with Some _ => d | None => dict_set k v d end.

(** [_distinct_bases] *)
Definition distinct_bases (bases : list string) : list string :=
  map snd (foldl (λ d b, dict_setdefault (casefold b) b d) [] bases).

(** [_asset_catalog] *)
Definition asset_catalog (listed_symbols : list string) : list (string * string) :=
  foldl (λ d s, let cleaned := strip s in
                if String.eqb cleaned "" then d else dict_setdefault (casefold cleaned) cleaned d) [] listed_symbols.

(** [_skip] *)
Definition skip (reason : string) : ProviderSymbolDecision := mkDecision None false (Some reason).

(** [(x or "").strip()] *)
Definition stripped (x : option string) : string := strip (default "" x).

(** the bases the listings know *)
Definition known_bases (listings : list ExchangeListing) : list string :=
  omap (λ l, if el_markets_unavailable l then None
             else let base := stripped (el_base l) in if String.eqb base "" then None else Some base) listings.

(** [resolve_provider_symbol] *)
Definition resolve_provider_symbol (listings : list ExchangeListing) (listed_symbols : option (list string))
    (existing_symbol : option string) : ProviderSymbolDecision :=
  match existing_symbol with
  | Some (String c s) => mkDecision existing_symbol false None
  | _ =>
      match listings with
      | [] => skip NO_VENUE_BASE
      | _ =>
          match distinct_bases (known_bases listings) with
          | [] => skip (if existsb el_markets_unavailable listings then MARKETS_UNAVAILABLE else NO_VENUE_BASE)
          | [base] =>
              match listed_symbols with
              | None => skip ASSET_LIST_UNAVAILABLE
              | Some listed =>
                  match dict_get (casefold base) (asset_catalog listed) with
                  | None => skip (base +:+ " is " +:+ NOT_A_LISTED_ASSET)
                  | Some symbol => mkDecision (Some symbol) true None
                  end
              end
          | _ => skip BASES_DISAGREE
          end
      end
  end.

(** [scheduled_provider_apps] *)
Fixpoint scheduled_provider_apps (apps : list pyval) : res exn (list pyval) :=
  match apps with
  | [] => mret []
  | app :: apps' =>
      exchange ← get "is_exchange_ind" app;
      keep ← (if is_str "Y" exchange then mret false else r ← get "refresh_dataset_ind" app; mret (is_str "N" r));
      rest ← scheduled_provider_apps apps';
      mret (if (keep : bool) then app :: rest else rest)
  end.

(** [_listing_for] *)
Fixpoint market_base (vendor_symbol : string) (markets : list (string * option string)) : option string :=
  match markets with
  | [] => None
  | (symbol, base) :: markets' =>
      if String.eqb symbol vendor_symbol
      then let cleaned := stripped base in if String.eqb cleaned "" then None else Some cleaned
      else market_base vendor_symbol markets'
  end.
Definition listing_for (vendor_symbol : string) (markets : list (string * option string)) (unavailable : bool)
    : ExchangeListing :=
  if unavailable then mkExchangeListing vendor_symbol None true
  else mkExchangeListing vendor_symbol (market_base vendor_symbol markets) false.

Section fill.
Context {W : Type} `{Catalog W} `{ExchangeBars W} `{Providers W} `{CacheDb W} `{PandasIO} `{InstDb W}.
Context `{Vendors W} `{Environ W}.
(** the venue's [(vendor_symbol, base)] pairs, or nothing when they are unread *)
Context (markets_for_app : Z → prog W exn (option (list (string * option string)))).

(** [listed_asset_symbols] *)
Definition listed_asset_symbols (app : pyval) : prog W exn (option (list string)) :=
  class_name ← lift_res (get "class_name" app);
  if negb (truthy class_name) then mret None
  else
    match class_name with
    | VStr name =>
        if String.eqb name "Glassnode"
        then catch (key ← api_key "GLASSNODE_API_KEY"; listed ← list_asset_symbols key; mret (Some listed))
               (λ _, mret None)
        else mret None
    | _ => raise (TypeError ("attribute name must be string, not '" +:+ type_name class_name +:+ "'"))
    end.

(** [_load_markets]: the tables read and the apps whose table was not *)
Definition load_markets (exchange_app_ids : list Z)
    : prog W exn (list (Z * list (string * option string)) * list Z) :=
  (fix go ids acc :=
     match ids with
     | [] => mret acc
     | i :: ids' =>
         markets ← catch (markets_for_app i) (λ _, mret None);
         go ids' match markets with
                 | Some m => (dict_set i m acc.1, acc.2)
                 | None => (acc.1, i :: acc.2)
                 end
     end) exchange_app_ids ([], []).

(** The product's mappings to the venues, each after its market table. *)
Definition exchange_listings (c : InstrumentCache) (pid : Z) (exchange_ids : list Z)
    (markets_by_app : list (Z * list (string * option string))) (failed_app_ids : list Z) : list ExchangeListing :=
  map (λ x, listing_for (x_vendor_symbol x) (default [] (dict_get (x_app_id x) markets_by_app))
              (bool_decide (x_app_id x ∈ failed_app_ids)))
    (List.filter (λ x, bool_decide (x_app_id x ∈ exchange_ids)) (get_xrefs c (Some pid) None)).

(** The decision for one product, from the mappings the cache holds. *)
Definition decide_symbol (c : InstrumentCache) (app_id pid : Z) (exchange_ids : list Z)
    (markets_by_app : list (Z * list (string * option string))) (failed_app_ids : list Z)
    (listed_symbols : option (list string)) : option ProviderSymbolDecision :=
  match exchange_listings c pid exchange_ids markets_by_app failed_app_ids with
  | [] => None
  | listings => Some (resolve_provider_symbol listings listed_symbols (resolve_vendor_symbol c pid app_id))
  end.

(** The products in turn; whether any was written, or found written by another. *)
Fixpoint write_products (app_id : Z) (exchange_ids : list Z) (markets_by_app : list (Z * list (string * option string)))
    (failed_app_ids : list Z) (listed_symbols : option (list string)) (products : list product)
    : prog (InstrumentCache * W) exn bool :=
  match products with
  | [] => mret false
  | p :: products' =>
      c ← get_cache;
      wrote ← match decide_symbol c app_id (product_id p) exchange_ids markets_by_app failed_app_ids listed_symbols with
              | Some (mkDecision (Some (String a s)) true _) =>
                  try_else (db (sp_ins_product_xref (product_id p) app_id (String a s)))
                    (λ _, mret true)
                    (λ e, if isinstance e CProcedureError
                          then mret match exn_sqlstate e with Some st => String.eqb st "23505" | None => false end
                          else raise e)
              | _ => mret false
              end;
      rest ← write_products app_id exchange_ids markets_by_app failed_app_ids listed_symbols products';
      mret ((wrote : bool) || rest)
  end.

(** [_write_missing_symbols] *)
Definition write_missing_symbols (app : pyval) (exchange_ids : list Z)
    (markets_by_app : list (Z * list (string * option string))) (failed_app_ids : list Z)
    (listed_symbols : option (list string)) : prog (InstrumentCache * W) exn unit :=
  app_id ← lift_res (v ← getitem "app_id" app; int_val v);
  c ← get_cache;
  wrote ← write_products app_id exchange_ids markets_by_app failed_app_ids listed_symbols (ic_products c);
  if (wrote : bool) then load_all else mret tt.

(** One series: fetched, or its failure recorded. *)
Definition fill_series (app : pyval) (cusip start_s end_s metric_nm : string) (report : FillReport)
    : prog (InstrumentCache * W) exn FillReport :=
  c ← get_cache;
  try_else
    (name ← lift_res (n ← getitem "name" app; mret (str_val n));
     i ← db default_tm_interval_id;
     db (fetch_df (Some c) true false cusip start_s end_s name true (Some i) metric_nm))
    (λ _, mret (mkFillReport (fl_filled report + 1) (fl_failed report) (fl_errors report)))
    (λ e,
      name ← lift_res (n ← getitem "name" app; mret (str_val n));
      mret (mkFillReport (fl_filled report) (fl_failed report + 1)
              (fl_errors report ++ [name +:+ " " +:+ metric_nm +:+ " " +:+ cusip +:+ ": " +:+ exn_msg e])%list)).

(** The metrics of one product. *)
Fixpoint fill_metrics (app : pyval) (cusip start_s end_s : string) (metrics : list pyval) (report : FillReport)
    : prog (InstrumentCache * W) exn FillReport :=
  match metrics with
  | [] => mret report
  | m :: metrics' =>
      metric_nm ← lift_res (n ← getitem "metric_nm" m; mret (str_val n));
      report' ← fill_series app cusip start_s end_s metric_nm report;
      fill_metrics app cusip start_s end_s metrics' report'
  end.

(** The products the app has a symbol for. *)
Fixpoint fill_xrefs (app : pyval) (start_s end_s : string) (metrics : list pyval) (xrefs : list xref) (report : FillReport)
    : prog (InstrumentCache * W) exn FillReport :=
  match xrefs with
  | [] => mret report
  | x :: xrefs' =>
      c ← get_cache;
      report' ← match get_product_by_id c (x_product_id x) with
                | None => mret report
                | Some p => fill_metrics app (internal_cusip p) start_s end_s metrics report
                end;
      fill_xrefs app start_s end_s metrics xrefs' report'
  end.

(** the metrics of an app that have a path *)
Definition metrics_of (app_id : Z) (metrics : list pyval) : res exn (list pyval) :=
  (fix go rows :=
     match rows with
     | [] => mret []
     | row :: rows' =>
         i ← (v ← getitem "app_id" row; int_val v);
         keep ← (if i =? app_id then p ← get "metric_path" row; mret (truthy p) else mret false);
         rest ← go rows';
         mret (if (keep : bool) then row :: rest else rest)
     end) metrics.

(** One scheduled app. *)
Definition fill_app (exchange_ids : list Z) (markets_by_app : list (Z * list (string * option string)))
    (failed_app_ids : list Z) (metrics : list pyval) (start_s end_s : string) (app : pyval) (report : FillReport)
    : prog (InstrumentCache * W) exn FillReport :=
  listed ← db (listed_asset_symbols app);
  _ ← write_missing_symbols app exchange_ids markets_by_app failed_app_ids listed;
  app_id ← lift_res (v ← getitem "app_id" app; int_val v);
  app_metrics ← lift_res (metrics_of app_id metrics);
  c ← get_cache;
  fill_xrefs app start_s end_s app_metrics (get_xrefs c None (Some app_id)) report.

Fixpoint fill_apps (exchange_ids : list Z) (markets_by_app : list (Z * list (string * option string)))
    (failed_app_ids : list Z) (metrics : list pyval) (start_s end_s : string) (apps : list pyval) (report : FillReport)
    : prog (InstrumentCache * W) exn FillReport :=
  match apps with
  | [] => mret report
  | app :: apps' =>
      report' ← fill_app exchange_ids markets_by_app failed_app_ids metrics start_s end_s app report;
      fill_apps exchange_ids markets_by_app failed_app_ids metrics start_s end_s apps' report'
  end.

(** [fill_scheduled_providers]; days are their first microsecond. *)
Definition fill_scheduled_providers (utc_today : prog W exn Z) (since : Z) (exchange_app_ids : list Z) (today : option Z)
    : prog (InstrumentCache * W) exn FillReport :=
  end_ ← match today with Some t => mret t | None => db utc_today end;
  metrics ← db (cat_table "app_metric");
  loaded ← db (load_markets exchange_app_ids);
  apps ← db (cat_table "app");
  scheduled ← lift_res (scheduled_provider_apps apps);
  fill_apps exchange_app_ids loaded.1 loaded.2 metrics (str_date since) (str_date end_) scheduled no_fill.
End fill.

(** ** The symbol proposed *)

Lemma setdefault_get {V} k k' (v : V) d :
  dict_get k (dict_setdefault k' v d) =
  match dict_get k d with Some x => Some x | None => if decide (k = k') then Some v else None end.
Proof.
  unfold dict_setdefault. destruct (dict_get k' d) as [x|] eqn:E.
  - destruct (dict_get k d) eqn:Ek; [done|]. case_decide; [by subst; congruence|done].
  - destruct (decide (k = k')) as [->|Hne]; [by rewrite dict_get_set, E|].
    rewrite dict_get_set_ne by done. by destruct (dict_get k d).
Qed.

(** The catalog has the first spelling of each listed asset. *)
Lemma asset_catalog_get k listed :
  dict_get k (asset_catalog listed) = head (filter (λ s, s ≠ "" ∧ casefold s = k) (map strip listed)).
Proof.
  unfold asset_catalog.
  assert (∀ d, dict_get k (foldl (λ d s, let cleaned := strip s in
      if String.eqb cleaned "" then d else dict_setdefault (casefold cleaned) cleaned d) d listed)
    = match dict_get k d with Some x => Some x
      | None => head (filter (λ s, s ≠ "" ∧ casefold s = k) (map strip listed)) end) as Hg; [|by rewrite Hg].
  induction listed as [|s listed IH]; intros d; cbn [foldl map].
  { by destruct (dict_get k d). }
  rewrite IH. cbv zeta. rewrite filter_cons. destruct (String.eqb_spec (strip s) "") as [E|E].
  - rewrite decide_False by (by intros [? _]). done.
  - rewrite setdefault_get. destruct (dict_get k d); [done|]. destruct (decide (k = casefold (strip s))) as [->|Hne].
    + by rewrite decide_True.
    + by rewrite decide_False by (intros [_ ?]; congruence).
Qed.

Lemma setdefault_present {V} k (v x : V) d : dict_get k d = Some x → dict_setdefault k v d = d.
Proof. intros E. unfold dict_setdefault. by rewrite E. Qed.

(** Bases that agree up to case are one, the first. *)
Lemma distinct_same k b bases : casefold b = k → Forall (λ x, casefold x = k) bases →
  distinct_bases (b :: bases) = [b].
Proof.
  intros <- Hall. unfold distinct_bases. cbn [foldl]. change (dict_setdefault (casefold b) b []) with [(casefold b, b)].
  induction Hall as [|x bases Hx Hall IH]; [done|]. cbn [foldl]. rewrite Hx, (setdefault_present _ _ b); [exact IH|].
  cbn. by rewrite decide_True.
Qed.

Lemma setdefault_length {V} k (v : V) d :
  dict_setdefault k v d = d ∧ is_Some (dict_get k d) ∨ length (dict_setdefault k v d) = S (length d).
Proof.
  unfold dict_setdefault. destruct (dict_get k d) eqn:E; [left; by split|]. right.
  induction d as [|[k' v'] d IH]; [done|]. cbn in *. case_decide; [done|]. cbn. by rewrite IH.
Qed.

Lemma distinct_monotone bases d :
  (length d ≤ length (foldl (λ d b, dict_setdefault (casefold b) b d) d bases))%nat.
Proof.
  revert d. induction bases as [|x bases IH]; intros d; [done|]. cbn [foldl].
  destruct (setdefault_length (casefold x) x d) as [[-> _]|Hl]; [apply IH|].
  specialize (IH (dict_setdefault (casefold x) x d)). lia.
Qed.

Lemma distinct_stuck b bases :
  length (foldl (λ d b, dict_setdefault (casefold b) b d) [(casefold b, b)] bases) = 1%nat →
  Forall (λ x, casefold x = casefold b) bases.
Proof.
  induction bases as [|x bases IH]; intros Hl; [constructor|]. cbn [foldl] in Hl.
  destruct (setdefault_length (casefold x) x [(casefold b, b)]) as [[E [y Hy]]|Hs].
  - rewrite E in Hl. cbn in Hy. case_decide as Hx; [|done]. constructor; [by rewrite Hx|auto].
  - pose proof (distinct_monotone bases (dict_setdefault (casefold x) x [(casefold b, b)])). cbn [length] in Hs. lia.
Qed.

(** One base left over means all agreed with it, and it is the first. *)
Lemma distinct_one bases base : distinct_bases bases = [base] →
  head bases = Some base ∧ Forall (λ x, casefold x = casefold base) bases.
Proof.
  destruct bases as [|b bases]; [done|]. intros Hd.
  assert (Forall (λ x, casefold x = casefold b) bases) as Hall.
  { apply distinct_stuck. rewrite <-(length_map snd). change (length (distinct_bases (b :: bases)) = 1%nat). by rewrite Hd. }
  rewrite (distinct_same (casefold b)) in Hd by done. injection Hd as ->. by repeat constructor.
Qed.

Lemma not_some_empty (x : option string) : (∀ c s, x ≠ Some (String c s)) ↔ default "" x = "".
Proof.
  destruct x as [[|c s]|]; cbn; split; try done. intros H. by destruct (H c s).
Qed.

(** The bases of several spellings leave none to choose. *)
Lemma resolve_written listings listed existing sym : default "" existing = "" →
  resolve_provider_symbol listings listed existing = mkDecision (Some sym) true None →
  ∃ l base, listed = Some l ∧ head (known_bases listings) = Some base ∧
    Forall (λ b, casefold b = casefold base) (known_bases listings) ∧
    dict_get (casefold base) (asset_catalog l) = Some sym.
Proof.
  intros He. unfold resolve_provider_symbol.
  assert (existing = None ∨ existing = Some "") as Hx by (destruct existing as [[|]|]; [by right|done|by left]).
  destruct listings as [|x xs]; [by destruct Hx as [->| ->]|]. cbv zeta.
  destruct (distinct_bases (known_bases (x :: xs))) as [|base [|b2 bs]] eqn:Hd.
  1,3: by destruct Hx as [->| ->].
  destruct (distinct_one _ _ Hd) as [Hh Hall]. intros Hr. exists (default [] listed), base.
  destruct listed as [l|]; [|by destruct Hx as [->| ->]]. cbn [default].
  destruct (dict_get (casefold base) (asset_catalog l)) as [y|] eqn:Hc; [|by destruct Hx as [->| ->]].
  assert (y = sym) as ->; [|done]. destruct Hx as [->| ->]; by injection Hr.
Qed.

(** A symbol is written for a product just when the product has none yet,
    the provider's asset list was read, the venues that answered with a base all
    name the same one, case aside, and the list has it; what is written is the
    list's first spelling of it. *)
Theorem provider_symbol_written listings listed existing sym :
  resolve_provider_symbol listings listed existing = mkDecision (Some sym) true None ↔
  default "" existing = "" ∧ ∃ l base, listed = Some l ∧ head (known_bases listings) = Some base ∧
    Forall (λ b, casefold b = casefold base) (known_bases listings) ∧
    head (filter (λ s, s ≠ "" ∧ casefold s = casefold base) (map strip l)) = Some sym.
Proof.
  split.
  - intros Hr. assert (default "" existing = "") as He.
    { apply not_some_empty. intros c s ->. by cbn in Hr. }
    split; [done|]. destruct (resolve_written _ _ _ _ He Hr) as (l & base & ? & ? & ? & Hc).
    exists l, base. by rewrite asset_catalog_get in Hc.
  - intros (He & l & base & -> & Hh & Hall & Hf). rewrite <-asset_catalog_get in Hf.
    destruct listings as [|x xs]; [done|]. unfold resolve_provider_symbol.
    destruct (known_bases (x :: xs)) as [|b bs] eqn:Hk; [done|]. injection Hh as ->.
    rewrite (distinct_same (casefold base)) by (try done; by inversion Hall). rewrite Hf.
    by destruct existing as [[|]|].
Qed.

(** ** Every series is counted *)

Section counted.
Context {W : Type} `{Catalog W} `{ExchangeBars W} `{Providers W} `{CacheDb W} `{PandasIO}.
Context `{Vendors W} `{Environ W}.

(** The cache is only read. *)
Definition reads_cache {A} (m : prog (InstrumentCache * W) exn A) : Prop :=
  ∀ c w, ∃ r w', m (c, w) = (r, (c, w')).

Lemma db_reads_cache {A} (m : prog W exn A) : reads_cache (db m).
Proof. intros c w. unfold db. cbn. destruct (m w) as [r w']. by exists r, w'. Qed.

Lemma lift_reads_cache {A} (r : res exn A) : reads_cache (lift_res r).
Proof. intros c w. by exists r, w. Qed.

Lemma bind_reads_cache {A B} (m : prog (InstrumentCache * W) exn A) (f : A → prog (InstrumentCache * W) exn B) :
  reads_cache m → (∀ a, reads_cache (f a)) → reads_cache (m ≫= f).
Proof.
  intros Hm Hf c w. destruct (Hm c w) as ([a|e] & w1 & E).
  - rewrite (bind_ok _ _ _ _ _ E). apply Hf.
  - rewrite (bind_raise _ _ _ _ _ E). by exists (Raise e), w1.
Qed.

(** [report'] is [report] with [n] more series. *)
Definition counts (n : nat) (report report' : FillReport) : Prop :=
  fl_filled report' + fl_failed report' = fl_filled report + fl_failed report + Z.of_nat n ∧
  fl_filled report <= fl_filled report' ∧
  Z.of_nat (length (fl_errors report')) - fl_failed report' = Z.of_nat (length (fl_errors report)) - fl_failed report.

Lemma counts_trans n m r1 r2 r3 : counts n r1 r2 → counts m r2 r3 → counts (n + m) r1 r3.
Proof. unfold counts. lia. Qed.

Lemma counts_refl r : counts 0 r r.
Proof. unfold counts. lia. Qed.

Lemma fill_series_counts app name cusip start_s end_s metric report c w : getitem "name" app = Ok name →
  ∃ report' w', fill_series app cusip start_s end_s metric report (c, w) = (Ok report', (c, w')) ∧ counts 1 report report'.
Proof.
  intros Hn. unfold fill_series. rewrite (bind_ok _ _ _ _ _ (eq_refl : get_cache (c, w) = (Ok c, (c, w)))).
  unfold try_else. match goal with |- context [match ?m (c, w) with _ => _ end] =>
    assert (reads_cache m) as Hm by (apply bind_reads_cache; [apply lift_reads_cache|intros n];
      apply bind_reads_cache; [apply db_reads_cache|intros k]; apply db_reads_cache) end.
  destruct (Hm c w) as ([f|e] & w1 & E); rewrite E.
  - eexists _, w1. split; [reflexivity|]. unfold counts. cbn. lia.
  - rewrite Hn. eexists _, w1. split; [reflexivity|]. unfold counts. cbn. rewrite length_app. cbn. lia.
Qed.

Lemma fill_metrics_counts app name cusip start_s end_s metrics report c w : getitem "name" app = Ok name →
  Forall (λ m, is_Some (match getitem "metric_nm" m with Ok v => Some v | Raise _ => None end)) metrics →
  ∃ report' w', fill_metrics app cusip start_s end_s metrics report (c, w) = (Ok report', (c, w')) ∧
    counts (length metrics) report report'.
Proof.
  intros Hn Hms. revert report w. induction Hms as [|m ms [v Hv] Hms IH]; intros report w.
  { exists report, w. split; [done|apply counts_refl]. }
  cbn [fill_metrics]. destruct (getitem "metric_nm" m) as [v'|] eqn:E; [|done].
  rewrite (bind_ok _ _ (c, w) (str_val v') (c, w)) by reflexivity.
  destruct (fill_series_counts app name cusip start_s end_s (str_val v') report c w Hn) as (r1 & w1 & E1 & C1).
  rewrite (bind_ok _ _ _ _ _ E1). destruct (IH r1 w1) as (r2 & w2 & E2 & C2). exists r2, w2.
  split; [exact E2|]. exact (counts_trans 1 _ _ _ _ C1 C2).
Qed.

(** the mappings whose product is cached *)
Definition cached_products (c : InstrumentCache) (xrefs : list xref) : list product :=
  omap (λ x, get_product_by_id c (x_product_id x)) xrefs.

(** The pass over one app's products returns whatever the providers do:
    every metric of every product with a symbol counts once, as filled or as
    failed, and each failure leaves one message. *)
Theorem every_series_counted app name start_s end_s metrics c w : getitem "name" app = Ok name →
  Forall (λ m, is_Some (match getitem "metric_nm" m with Ok v => Some v | Raise _ => None end)) metrics →
  ∀ xrefs report, ∃ report' w',
    fill_xrefs app start_s end_s metrics xrefs report (c, w) = (Ok report', (c, w')) ∧
    counts (length metrics * length (cached_products c xrefs)) report report'.
Proof.
  intros Hn Hms xrefs. revert w. induction xrefs as [|x xrefs IH]; intros w report.
  { exists report, w. split; [done|]. rewrite Nat.mul_0_r. apply counts_refl. }
  cbn [fill_xrefs]. rewrite (bind_ok _ _ _ _ _ (eq_refl : get_cache (c, w) = (Ok c, (c, w)))).
  unfold cached_products. cbn [omap list_omap]. destruct (get_product_by_id c (x_product_id x)) as [p|]; [|apply IH].
  destruct (fill_metrics_counts app name (internal_cusip p) start_s end_s metrics report c w Hn Hms) as (r1 & w1 & E1 & C1).
  rewrite (bind_ok _ _ _ _ _ E1). destruct (IH w1 r1) as (r2 & w2 & E2 & C2). exists r2, w2.
  split; [exact E2|]. cbn [length]. rewrite Nat.mul_succ_r, Nat.add_comm. exact (counts_trans _ _ _ _ _ C1 C2).
Qed.
End counted.

(** ** What is written *)

(** Each row asked for, as product, app and symbol. *)
Definition traced_inst {W} (D : InstDb W) : InstDb (W * list (Z * Z * string)) := {|
  sp_get_product := unlogged sp_get_product;
  sp_get_product_xref := unlogged sp_get_product_xref;
  sp_ins_product p := unlogged (sp_ins_product p);
  sp_ins_product_xref pid app sym := logged (λ _, (pid, app, sym)) (sp_ins_product_xref pid app sym)
|}.

Section written.
Context {W : Type} (D : InstDb W).
Context (app_id : Z) (exchange_ids : list Z) (markets_by_app : list (Z * list (string * option string))).
Context (failed_app_ids : list Z) (listed : option (list string)).

(** A row the fill may write: for a product without a symbol, one of the list
    that every venue base known for the product spells, case aside. *)
Definition justified_row (c : InstrumentCache) (products : list product) (row : Z * Z * string) : Prop :=
  row.1.2 = app_id ∧ row.1.1 ∈ map product_id products ∧ default "" (resolve_vendor_symbol c row.1.1 app_id) = "" ∧
  (∃ l, listed = Some l ∧ row.2 ∈ map strip l) ∧ row.2 ≠ "" ∧
  let bases := known_bases (exchange_listings c row.1.1 exchange_ids markets_by_app failed_app_ids) in
  bases ≠ [] ∧ Forall (λ b, casefold b = casefold row.2) bases.

Lemma justified_row_mono c p ps row : justified_row c ps row → justified_row c (p :: ps) row.
Proof. unfold justified_row. intros (? & Hp & ?). split; [done|]. split; [by right|done]. Qed.

Lemma catalog_symbol k l sym : dict_get k (asset_catalog l) = Some sym →
  sym ∈ map strip l ∧ sym ≠ "" ∧ casefold sym = k.
Proof.
  rewrite asset_catalog_get. intros Hh. assert (sym ∈ filter (λ s, s ≠ "" ∧ casefold s = k) (map strip l)) as Hf.
  { destruct (filter _ _); [done|]. injection Hh as ->. by left. }
  apply list_elem_of_filter in Hf as [[? ?] ?]. done.
Qed.

Lemma decided_row c p ps a s k : decide_symbol c app_id (product_id p) exchange_ids markets_by_app failed_app_ids listed
    = Some (mkDecision (Some (String a s)) true k) → justified_row c (p :: ps) (product_id p, app_id, String a s).
Proof.
  unfold decide_symbol. destruct (exchange_listings _ _ _ _ _) as [|x xs] eqn:Hx; [done|]. intros [= Hr].
  assert (default "" (resolve_vendor_symbol c (product_id p) app_id) = "") as He.
  { apply not_some_empty. intros a' s' E. rewrite E in Hr. cbn in Hr. discriminate. }
  assert (k = None) as ->.
  { revert Hr. unfold resolve_provider_symbol. destruct (resolve_vendor_symbol _ _ _) as [[|a' s']|]; [|discriminate|];
      (destruct (distinct_bases _) as [|b [|]]; [discriminate| |discriminate]);
      (destruct listed as [l|]; [|discriminate]);
      (destruct (dict_get (casefold b) (asset_catalog l)); [by intros [= _ ->]|discriminate]). }
  apply (resolve_written _ _ _ _ He) in Hr as (l & base & Hl & Hh & Hall & Hc).
  destruct (catalog_symbol _ _ _ Hc) as (Hin & Hne & Hfold).
  unfold justified_row. cbn [fst snd]. split_and!; [done|by left|done|by exists l|done|by rewrite Hx; intros E; rewrite E in Hh|].
  rewrite Hx, Hfold. done.
Qed.

(** C22. Whatever the database answers, the cache is not changed while symbols are
    written, and every row asked for is justified: its product had no symbol,
    the symbol is on the provider's list and every venue base known for the
    product spells it, case aside. *)
Theorem written_rows_justified products c w tr r s' :
  @write_products _ (traced_inst D) app_id exchange_ids markets_by_app failed_app_ids listed products (c, (w, tr)) = (r, s') →
  s'.1 = c ∧ ∃ rows, s'.2.2 = (tr ++ rows)%list ∧ Forall (justified_row c products) rows.
Proof.
  revert w tr r s'. induction products as [|p ps IH]; intros w tr r s' Hw.
  { injection Hw as _ <-. split; [done|]. exists []. by rewrite app_nil_r. }
  assert (∀ w1 rows (b : bool), Forall (justified_row c (p :: ps)) rows →
    (rest ← @write_products _ (traced_inst D) app_id exchange_ids markets_by_app failed_app_ids listed ps; mret (b || rest))
      (c, (w1, (tr ++ rows)%list)) = (r, s') →
    s'.1 = c ∧ ∃ rows, s'.2.2 = (tr ++ rows)%list ∧ Forall (justified_row c (p :: ps)) rows) as Hrest.
  { intros w1 rows b Hrows Hb. unfold mbind, prog_bind in Hb.
    destruct (@write_products _ _ _ _ _ _ _ ps _) as [r' s2] eqn:E.
    destruct (IH _ _ _ _ E) as (Hc & rows' & Htr & Hall). assert (s' = s2) as -> by (destruct r'; by injection Hb).
    split; [done|]. exists (rows ++ rows')%list. rewrite app_assoc. split; [done|].
    apply Forall_app. split; [done|]. eapply Forall_impl; [exact Hall|]. intros row. apply justified_row_mono. }
  cbn [write_products] in Hw. rewrite (bind_ok _ _ _ _ _ (eq_refl : get_cache (c, (w, tr)) = (Ok c, _))) in Hw.
  destruct (decide_symbol _ _ _ _ _ _ _) as [[[[|a s]|] [|] k]|] eqn:Hd;
    try (rewrite mret_bind in Hw; eapply (Hrest w []); [constructor|by rewrite app_nil_r]).
  pose proof (decided_row c p ps a s k Hd) as Hj. unfold mbind at 1, prog_bind at 1, try_else at 1, db at 1 in Hw.
  cbn [fst snd sp_ins_product_xref traced_inst] in Hw. rewrite logged_eq in Hw.
  destruct (sp_ins_product_xref (product_id p) app_id (String a s) w) as [[v|e] w1].
  - exact (Hrest w1 [_] true (proj2 (Forall_singleton _ _) Hj) Hw).
  - cbv beta in Hw. destruct (isinstance e CProcedureError).
    + exact (Hrest w1 [_] _ (proj2 (Forall_singleton _ _) Hj) Hw).
    + injection Hw as _ <-. split; [done|]. eexists [_]. split; [reflexivity|]. by apply Forall_singleton.
Qed.
End written.

(** ** A day's fill *)

Module Toy.

(** The mappings of bitcoin, and how many series were stored. *)
Definition world : Type := list xref * Z.

Definition btc : product := mkProduct 1 "btc" None None None.
Definition listed_on : list xref := [mkXref 1 7 "BTCUSDT"; mkXref 1 8 "BTC-PERP"].

Definition app_rows : list pyval :=
  [VDict [("name", VStr "bybit"); ("app_id", VInt 7); ("is_exchange_ind", VStr "Y"); ("refresh_dataset_ind", VStr "N")];
   VDict [("name", VStr "glassnode"); ("app_id", VInt 2); ("is_exchange_ind", VStr "N");
          ("refresh_dataset_ind", VStr "N"); ("class_name", VStr "Glassnode")]].
Definition metric_row : pyval :=
  VDict [("app_id", VInt 2); ("metric_nm", VStr "price"); ("metric_path", VStr "market/price"); ("app_metric_id", VInt 3)].
Definition tables (t : string) : list pyval :=
  if String.eqb t "app" then app_rows
  else if String.eqb t "app_metric" then [metric_row]
  else if String.eqb t "tm_interval" then [VDict [("tm_interval_id", VInt 1); ("period_length", VStr "1 day, 0:00:00")]]
  else [].

#[export] Instance catalog : Catalog world := {|
  cat_table t s := (Ok (tables t), s);
  cat_config t s := (Ok [], s);
  cat_metric_path _ _ s := (Ok (Some "market/price"), s)
|}.
#[export] Instance bars : ExchangeBars world := {|
  bars_for_app _ s := (Ok tt, s);
  bars_bounds _ s := (Ok None, s);
  bars_read _ _ _ s := (Ok [], s)
|}.
(** The provider knows the asset and has no rows of it. *)
#[export] Instance provider : Providers world := {|
  provider_open _ s := (Ok "key", s);
  provider_takes_path _ := true;
  provider_price _ _ _ _ _ _ s := (Ok (mkFrame [] [("v", [])]), s)
|}.
#[export] Instance store : CacheDb world := {|
  sp_get_api_request _ s := (Ok [], s);
  sp_reserve_api_call _ s := (Ok tt, s);
  sp_ins_api_request _ s := (Ok tt, (s.1, s.2 + 1));
  new_uuid s := (Ok "id", s);
  default_tm_interval_id s := (Ok 1, s);
  cache_table t s := (Ok (tables t), s)
|}.
#[export] Instance io : PandasIO := {|
  pd_timestamp _ := Ok 0; frame_of_records _ := Ok None; records_of_frame _ := VNone
|}.
#[export] Instance instruments : InstDb world := {|
  sp_get_product s := (Ok [btc], s);
  sp_get_product_xref s := (Ok s.1, s);
  sp_ins_product _ s := (Ok (1, 1), s);
  sp_ins_product_xref p a sym s := (Ok (1, 1), ((s.1 ++ [mkXref p a sym])%list, s.2))
|}.
#[export] Instance vendors : Vendors world := {|
  http_get _ _ _ s := (Ok (mkResponse 200 "" (Ok (VDict [("data",
    VList [VDict [("symbol", VStr "ETH")]; VDict [("symbol", VStr " Btc ")]])]))), s);
  read_json _ := Raise (ValueError "no rows");
  yf_history _ _ _ s := (Raise (RuntimeError "offline"), s);
  nasdaq_get _ _ _ s := (Raise (RuntimeError "offline"), s);
  futu_open _ _ s := (Ok tt, s);
  futu_kline _ _ _ _ s := (Ok (0, "", []), s)
|}.
#[export] Instance environ : Environ world := {|
  getenv _ s := (Ok (Some "key"), s);
  putenv _ _ s := (Ok tt, s)
|}.

(** One venue answers, the other's table cannot be read. *)
Definition markets (app : Z) : prog world exn (option (list (string * option string))) := λ s,
  if app =? 7 then (Ok (Some [("ETHUSDT", Some "ETH"); ("BTCUSDT", Some "BTC")]), s)
  else (Raise (RuntimeError "timeout"), s).

Definition start : InstrumentCache * world := (cache_of [btc] listed_on, (listed_on, 0)).
End Toy.

#[local] Existing Instances Toy.catalog Toy.bars Toy.provider Toy.store Toy.io Toy.instruments Toy.vendors Toy.environ.

(** A fill that stores nothing, the provider having no rows, reports the series
    as filled; the symbol it found is kept. *)
Theorem empty_answer_is_filled : ∃ c,
  fill_scheduled_providers Toy.markets (λ s, (Ok DAY, s)) 0 [7; 8] None Toy.start
  = (Ok (mkFillReport 1 0 []), (c, ((Toy.listed_on ++ [mkXref 1 2 "Btc"])%list, 0))) ∧
  resolve_internal_cusip c "btc" 2 = Some "Btc".
Proof. eexists. split; vm_compute; reflexivity. Qed.

Lemma every_series_counted_witness : ∃ report' w',
  fill_xrefs (nth 1 Toy.app_rows VNone) "a" "b" [Toy.metric_row] Toy.listed_on no_fill Toy.start = (Ok report', (Toy.start.1, w')) ∧
  counts 2 no_fill report'.
Proof.
  apply (@every_series_counted Toy.world _ _ _ _ _ (nth 1 Toy.app_rows VNone) (VStr "glassnode")); [reflexivity|].
  constructor; [by eexists|constructor].
Defined.

Lemma written_rows_justified_witness :
  let tables := [(7, [("BTCUSDT", Some "BTC")])] in
  let run := @write_products _ (traced_inst Toy.instruments) 2 [7; 8] tables [8] (Some ["ETH"; " Btc "]) [Toy.btc]
    (Toy.start.1, (Toy.start.2, [])) in
  run.2.2.2 = [(1, 2, "Btc")] ∧ run.2.1 = Toy.start.1 ∧
  ∃ rows, run.2.2.2 = ([] ++ rows)%list ∧
    Forall (justified_row 2 [7; 8] tables [8] (Some ["ETH"; " Btc "]) Toy.start.1 [Toy.btc]) rows.
Proof.
  intros tables run. split; [vm_compute; reflexivity|].
  exact (written_rows_justified Toy.instruments 2 [7; 8] tables [8] (Some ["ETH"; " Btc "]) [Toy.btc] Toy.start.1 Toy.start.2 []
    run.1 run.2 (surjective_pairing run)).
Defined.
