(* ===== verification/Futu.v ===== *)
(** * Orders through Futu OpenD

    [quant/trade/futu_trader.py]: the connection check, order placement and
    cancelling, the queries, and orders derived from a strategy's signal.  The
    vendor's SDK and the socket are parameters; every SDK call answers a return
    code, and the text or the rows that came with it. *)
From S2P Require Import Prelude PyFloat PyData Order Errors PyValue RefData Auth.
Local Open Scope string_scope.
Local Open Scope Z_scope.

Inductive TrdMarket := MktUS | MktHK | MktCN | MktSG | MktJP.
Inductive TrdEnv := SIMULATE | REAL.

#[export] Instance TrdEnv_eq_dec : EqDecision TrdEnv.
Proof. solve_decision. Defined.

Inductive TrdSide := TrdBUY | TrdSELL.
Inductive TrdOrderType := TrdMARKET | TrdNORMAL.

(** [futu_trader.OrderResult] *)
Record TraderResult := mkTraderResult { tr_success : bool; tr_order_id : option string; tr_message : string }.

(** A row of the position list, as far as it is read. *)
Record held_row := mkHeld { hr_code : string; hr_qty : float }.

(** [futu.OpenSecTradeContext] and [socket] *)
Class FutuSdk (W : Type) := {
  sock_connect : string → Z → Z → prog W exn unit;
  sock_close : prog W exn unit;
  open_context : string → Z → TrdMarket → prog W exn unit;
  ctx_close : prog W exn unit;
  unlock_trade : string → prog W exn (Z * string);
  (** price, qty, code, side, order type, environment; the ids of the rows answered *)
  ctx_place : float → Z → string → TrdSide → TrdOrderType → TrdEnv → prog W exn (Z * string * list string);
  ctx_cancel : string → TrdEnv → prog W exn (Z * string);
  ctx_cancel_all : TrdEnv → prog W exn (Z * string);
  position_list : TrdEnv → prog W exn (Z * string * list held_row);
  order_list : TrdEnv → prog W exn (Z * string * pyval);
  accinfo : TrdEnv → prog W exn (Z * string * pyval)
}.

Record FutuTrader := mkFutuTrader {
  ft_host : string; ft_port : Z; ft_paper : bool; ft_timeout : Z; ft_market : string
}.

Definition DEFAULT_TIMEOUT : Z := 5.

Definition MARKET_MAP : list (string * TrdMarket) :=
  [("US", MktUS); ("HK", MktHK); ("CN", MktCN); ("SG", MktSG); ("JP", MktJP)].

(** [self._trd_env] *)
Definition trd_env (t : FutuTrader) : TrdEnv := if ft_paper t then SIMULATE else REAL.

(** [detect_market] *)
Definition detect_market (symbol : string) : string :=
  match partition_on "." symbol with
  | (prefix, true, _) => upper prefix
  | _ => "US"
  end.

Section trader.
Context {W : Type} `{FutuSdk W} `{Environ W}.
(** whether an exception is an [OSError] *)
Context (is_os_error : exn → bool).

(** [_check_connection] *)
Definition check_connection (host : string) (port timeout : Z) : prog W exn unit :=
  finally
    (catch (sock_connect host port timeout)
       (λ e, if is_os_error e
             then raise (plain COther ("Cannot reach Futu OpenD at " +:+ host +:+ ":" +:+ str_Z port +:+
                    " (timeout=" +:+ str_Z timeout +:+ "s). Is the gateway running?"))
             else raise e))
    sock_close.

(** [FutuTrader()] *)
Definition FutuTrader_init (paper : bool) (timeout : option Z) (market : string) : prog W exn FutuTrader :=
  host ← getenv "FUTU_HOST";
  port_str ← getenv "FUTU_PORT";
  match host, port_str with
  | Some (String a h), Some (String b p) =>
      port ← lift_res (int_val (VStr (String b p)));
      let timeout := default DEFAULT_TIMEOUT timeout in
      match dict_get (upper market) MARKET_MAP with
      | None => raise (ValueError ("Unsupported market '" +:+ market +:+ "'. Choose from: US, HK, CN, SG, JP"))
      | Some trd_market =>
          _ ← check_connection (String a h) port timeout;
          _ ← open_context (String a h) port trd_market;
          mret (mkFutuTrader (String a h) port paper timeout (upper market))
      end
  | _, _ => raise (ValueError "FUTU_HOST and FUTU_PORT are not set")
  end.

(** [close] *)
Definition trader_close : prog W exn unit := ctx_close.

(** [unlock] *)
Definition unlock (trade_password : string) : prog W exn bool :=
  r ← unlock_trade trade_password; mret (r.1 =? 0).

(** [place_order] *)
Definition trader_place_order (t : FutuTrader) (symbol : string) (qty : Z) (side order_type : string)
    (price : option float) : prog W exn TraderResult :=
  let futu_side := if String.eqb (upper side) "BUY" then TrdBUY else TrdSELL in
  let is_market := String.eqb (upper order_type) "MARKET" in
  match is_market, price with
  | false, None => mret (mkTraderResult false None "Limit price required for NORMAL orders")
  | _, _ =>
      let limit := match price with Some p => if ftruthy p then p else fzero | None => fzero end in
      r ← ctx_place limit qty symbol futu_side (if is_market then TrdMARKET else TrdNORMAL) (trd_env t);
      let '(ret, text, ids) := r in
      if negb (ret =? 0) then mret (mkTraderResult false None text)
      else
        match ids with
        | [] => raise (plain CIndexError "single positional indexer is out-of-bounds")
        | order_id :: _ => mret (mkTraderResult true (Some order_id) "Order placed successfully")
        end
  end.

(** [place_order(symbol, qty, side)] *)
Definition market_order_for (t : FutuTrader) (symbol : string) (qty : Z) (side : string) : prog W exn TraderResult :=
  trader_place_order t symbol qty side "MARKET" None.

(** [cancel_order] *)
Definition trader_cancel_order (t : FutuTrader) (order_id : string) : prog W exn bool :=
  r ← ctx_cancel order_id (trd_env t); mret (r.1 =? 0).

(** [cancel_all_orders] *)
Definition trader_cancel_all (t : FutuTrader) : prog W exn bool :=
  r ← ctx_cancel_all (trd_env t); mret (r.1 =? 0).

(** [get_positions] *)
Definition get_positions (t : FutuTrader) : prog W exn (option (list held_row)) :=
  r ← position_list (trd_env t);
  let '(ret, _, data) := r in mret (if negb (ret =? 0) then None else Some data).

(** [get_orders] *)
Definition get_orders (t : FutuTrader) : prog W exn (option pyval) :=
  r ← order_list (trd_env t);
  let '(ret, _, data) := r in mret (if negb (ret =? 0) then None else Some data).

(** [get_account_info] *)
Definition get_account_info (t : FutuTrader) : prog W exn (option pyval) :=
  r ← accinfo (trd_env t);
  let '(ret, _, data) := r in mret (if negb (ret =? 0) then None else Some data).

(** The quantity [apply_signal] takes for held. *)
Definition current_qty (symbol : string) (positions : option (list held_row)) : res exn Z :=
  match List.filter (λ r, String.eqb (hr_code r) symbol) (default [] positions) with
  | [] => mret 0
  | row :: _ => res_map_exn int_exn (trunc_int (hr_qty row))
  end.

(** [apply_signal] *)
Definition apply_signal (t : FutuTrader) (symbol : string) (signal_value : float) (qty : Z)
    : prog W exn (option TraderResult) :=
  positions ← get_positions t;
  held ← lift_res (current_qty symbol positions);
  if feqb signal_value (of_Z 1) && (held <=? 0) then
    _ ← (if held <? 0 then _ ← market_order_for t symbol (Z.abs held) "BUY"; mret tt else mret tt);
    r ← market_order_for t symbol qty "BUY"; mret (Some r)
  else if feqb signal_value (of_Z (-1)) && (0 <=? held) then
    _ ← (if 0 <? held then _ ← market_order_for t symbol held "SELL"; mret tt else mret tt);
    r ← market_order_for t symbol qty "SELL"; mret (Some r)
  else if feqb signal_value fzero && negb (held =? 0) then
    r ← market_order_for t symbol (Z.abs held) (if 0 <? held then "SELL" else "BUY"); mret (Some r)
  else mret None.
End trader.

(** ** The environment of an order *)

(** A call of the SDK that names an environment. *)
Inductive futu_event :=
| FPlace (qty : Z) (code : string) (side : TrdSide) (order_type : TrdOrderType) (env : TrdEnv)
| FCancel (order_id : string) (env : TrdEnv)
| FCancelAll (env : TrdEnv)
| FQuery (env : TrdEnv).

Definition event_env (e : futu_event) : TrdEnv :=
  match e with FPlace _ _ _ _ env | FCancel _ env | FCancelAll env | FQuery env => env end.

Definition traced_futu {W} (S : FutuSdk W) : FutuSdk (W * list futu_event) := {|
  sock_connect h p t := unlogged (sock_connect h p t);
  sock_close := unlogged sock_close;
  open_context h p m := unlogged (open_context h p m);
  ctx_close := unlogged ctx_close;
  unlock_trade p := unlogged (unlock_trade p);
  ctx_place price qty code side type env := logged (λ _, FPlace qty code side type env) (ctx_place price qty code side type env);
  ctx_cancel i env := logged (λ _, FCancel i env) (ctx_cancel i env);
  ctx_cancel_all env := logged (λ _, FCancelAll env) (ctx_cancel_all env);
  position_list env := logged (λ _, FQuery env) (position_list env);
  order_list env := logged (λ _, FQuery env) (order_list env);
  accinfo env := logged (λ _, FQuery env) (accinfo env)
|}.

(** What a holder of a trader can ask of it. *)
Inductive trader_op :=
| OpPlace (symbol : string) (qty : Z) (side order_type : string) (price : option float)
| OpCancel (order_id : string) | OpCancelAll
| OpPositions | OpOrders | OpAccount
| OpSignal (symbol : string) (signal_value : float) (qty : Z).

(** The operations in turn, whichever of them raise. *)
Definition run_op {W} `{FutuSdk W} (t : FutuTrader) (o : trader_op) : prog W exn unit :=
  match o with
  | OpPlace s q sd ty p => _ ← attempt (trader_place_order t s q sd ty p); mret tt
  | OpCancel i => _ ← attempt (trader_cancel_order t i); mret tt
  | OpCancelAll => _ ← attempt (trader_cancel_all t); mret tt
  | OpPositions => _ ← attempt (get_positions t); mret tt
  | OpOrders => _ ← attempt (get_orders t); mret tt
  | OpAccount => _ ← attempt (get_account_info t); mret tt
  | OpSignal s v q => _ ← attempt (apply_signal t s v q); mret tt
  end.
Fixpoint run_ops {W} `{FutuSdk W} (t : FutuTrader) (ops : list trader_op) : prog W exn unit :=
  match ops with [] => mret tt | o :: ops' => _ ← run_op t o; run_ops t ops' end.

Section environment.
Context {W : Type} (S : FutuSdk W) (t : FutuTrader).
#[local] Instance traced : FutuSdk (W * list futu_event) := traced_futu S.

Definition in_env (s : W * list futu_event) : Prop := Forall (λ e, event_env e = trd_env t) s.2.

Lemma logged_in_env {A} (ev : futu_event) (m : prog W exn A) : event_env ev = trd_env t →
  preserves in_env (logged (λ _, ev) m).
Proof.
  intros He [w tr] Hs. rewrite logged_eq. destruct (m w) as [r w']. cbn [snd].
  apply Forall_app. split; [exact Hs|]. by apply Forall_singleton.
Qed.

Lemma attempt_in_env {A} (m : prog (W * list futu_event) exn A) : preserves in_env m → preserves in_env (attempt m).
Proof. intros Hm s Hs. unfold attempt. specialize (Hm s Hs). by destruct (m s). Qed.

#[local] Hint Resolve logged_in_env attempt_in_env : preserves.

Lemma place_in_env s q sd ty p : preserves in_env (trader_place_order t s q sd ty p).
Proof.
  unfold trader_place_order.
  destruct (String.eqb (upper ty) "MARKET"), p as [p|]; cbv zeta; try apply preserves_ret;
    (apply preserves_bind; [by apply logged_in_env|]; intros [[ret text] [|i ids]]; destruct (negb (ret =? 0));
     auto with preserves).
Qed.

Lemma query_in_env {A B} (m : prog (W * list futu_event) exn A) (f : A → B) :
  preserves in_env m → preserves in_env (r ← m; mret (f r)).
Proof. intros Hm. apply preserves_bind; [done|]. intros a. apply preserves_ret. Qed.

Lemma signal_in_env s v q : preserves in_env (apply_signal t s v q).
Proof.
  unfold apply_signal, market_order_for. pose proof place_in_env as Hp.
  apply preserves_bind.
  { unfold get_positions. apply preserves_bind; [by apply logged_in_env|]. intros [[ret text] data]. apply preserves_ret. }
  intros positions. apply preserves_bind; [apply preserves_lift|]. intros held.
  repeat apply preserves_if; auto 6 with preserves; repeat (apply preserves_bind; intros; auto with preserves);
    apply preserves_if; auto 6 with preserves.
Qed.

Lemma op_in_env o : preserves in_env (run_op t o).
Proof.
  destruct o; cbn [run_op]; apply preserves_bind; try (intros; apply preserves_ret); apply attempt_in_env.
  - apply place_in_env.
  - apply query_in_env. by apply logged_in_env.
  - apply query_in_env. by apply logged_in_env.
  - apply preserves_bind; [by apply logged_in_env|]. intros [[? ?] ?]. apply preserves_ret.
  - apply preserves_bind; [by apply logged_in_env|]. intros [[? ?] ?]. apply preserves_ret.
  - apply preserves_bind; [by apply logged_in_env|]. intros [[? ?] ?]. apply preserves_ret.
  - apply signal_in_env.
Qed.
End environment.

(** A trader opened for paper trading never touches the real environment, nor
    the other way round: whatever it is asked, in whatever order and whatever
    fails, each order, cancellation and query names the environment it was opened
    for. *)
Theorem trader_stays_in_environment {W} (S : FutuSdk W) (Env : Environ W) is_os_error paper timeout market w t w1 ops s' :
  FutuTrader_init is_os_error paper timeout market w = (Ok t, w1) →
  @run_ops _ (traced_futu S) t ops (w1, []) = (Ok tt, s') →
  Forall (λ e, event_env e = if paper then SIMULATE else REAL) s'.2.
Proof.
  intros Hi Hr. assert (ft_paper t = paper) as Hp.
  { unfold FutuTrader_init in Hi. apply bind_inv in Hi as (host & w2 & _ & Hi). apply bind_inv in Hi as (port & w3 & _ & Hi).
    destruct host as [[|a h]|], port as [[|b p]|]; try discriminate.
    apply bind_inv in Hi as (n & w4 & _ & Hi). cbv zeta in Hi. destruct (dict_get (upper market) MARKET_MAP); [|done].
    apply bind_inv in Hi as (? & w5 & _ & Hi). apply bind_inv in Hi as (? & w6 & _ & Hi). by injection Hi as <- _. }
  assert (preserves (in_env t) (@run_ops _ (traced_futu S) t ops)) as Hops.
  { clear Hr. induction ops as [|o ops IH]; [apply preserves_ret|]. cbn [run_ops]. apply preserves_bind; [apply op_in_env|done]. }
  specialize (Hops (w1, []) ltac:(constructor)). rewrite Hr in Hops. unfold in_env, trd_env in Hops. by rewrite Hp in Hops.
Qed.

(** ** What a signal leads to *)

(** Holdings a position list can report exactly. *)
Definition exact_holdings (h : string → Z) : Prop := ∀ c, Z.abs (h c) < 2 ^ 53.

(** A broker that keeps the paper and the real account apart, reports the
    positions of the one it is asked for and fills market orders: [held w env c]
    is what is held of [c] there, short positions negative, and [ready w env] that
    the environment takes orders (the real one has been unlocked). *)
Class FutuLaws {W} `{FutuSdk W} (held : W → TrdEnv → string → Z) (ready : W → TrdEnv → Prop) := {
  positions_report env w : exact_holdings (held w env) → ∃ text rows w', position_list env w = (Ok (0, text, rows), w') ∧
    held w' = held w ∧ (∀ e, ready w e → ready w' e) ∧
    Forall (λ r, hr_qty r = of_Z (held w env (hr_code r))) rows ∧
    ∀ c, held w env c ≠ 0 → c ∈ map hr_code rows;
  market_fills price qty code side env w : 0 < qty → ready w env →
    ∃ text i ids w', ctx_place price qty code side TrdMARKET env w = (Ok (0, text, i :: ids), w') ∧
      held w' env code = held w env code + match side with TrdBUY => qty | TrdSELL => - qty end ∧
      (∀ e c, (e, c) ≠ (env, code) → held w' e c = held w e c) ∧ (∀ e, ready w e → ready w' e)
}.

(** What the rows of an account say of a symbol. *)
Lemma current_qty_reported (h : string → Z) rows c : exact_holdings h →
  Forall (λ r, hr_qty r = of_Z (h (hr_code r))) rows → (h c ≠ 0 → c ∈ map hr_code rows) →
  current_qty c (Some rows) = Ok (h c).
Proof.
  intros Hx Hr Hc. unfold current_qty, default, id.
  induction Hr as [|r rows Hq Hr IH]; cbn [List.filter map] in *.
  - destruct (decide (h c = 0)) as [->|Hn]; [done|]. apply Hc in Hn. by apply not_elem_of_nil in Hn.
  - destruct (String.eqb_spec (hr_code r) c) as [<-|Hne].
    + rewrite Hq, trunc_of_Z by apply Hx. done.
    + apply IH. intros Hn. apply Hc in Hn. by apply elem_of_cons in Hn as [->|?].
Qed.

(** The position a signal asks for, from what is held. *)
Definition signal_target (s qty h : Z) : Z :=
  if s =? 1 then (if h <=? 0 then qty else h)
  else if s =? -1 then (if 0 <=? h then - qty else h)
  else 0.

Section signals.
Context {W : Type} `{FutuLaws W held ready} (t : FutuTrader).
Abbreviation env := (trd_env t).

(** Only the trader's own holding of [symbol] differs. *)
Definition only_changes (symbol : string) (w w' : W) : Prop :=
  ∀ e c, (e, c) ≠ (env, symbol) → held w' e c = held w e c.

Lemma market_order_fills symbol qty side w : 0 < qty → ready w env →
  ∃ r w', market_order_for t symbol qty side w = (Ok r, w') ∧ tr_success r = true ∧ ready w' env ∧
    held w' env symbol = held w env symbol + (if String.eqb (upper side) "BUY" then qty else - qty) ∧
    only_changes symbol w w'.
Proof.
  intros Hq Hrd. unfold market_order_for, trader_place_order.
  destruct (market_fills fzero qty symbol (if String.eqb (upper side) "BUY" then TrdBUY else TrdSELL) env w Hq Hrd)
    as (text & i & ids & w' & E & Hh & Ho & Hr').
  change (String.eqb (upper "MARKET") "MARKET") with true. cbn iota. rewrite (bind_ok _ _ _ _ _ E). cbn.
  eexists _, w'. split; [reflexivity|]. split_and!; [done|by apply Hr'| |done]. rewrite Hh. by destruct (String.eqb _ _).
Qed.

Lemma held_read symbol w : exact_holdings (held w env) → ready w env →
  ∃ w', (positions ← get_positions t; lift_res (current_qty symbol positions)) w = (Ok (held w env symbol), w') ∧
  held w' = held w ∧ ready w' env.
Proof.
  intros Hx Hrd. destruct (positions_report env w Hx) as (text & rows & w' & E & Hh & Hr' & Hrows & Hall).
  exists w'. split; [|by auto]. unfold get_positions. unfold mbind, prog_bind. rewrite E. cbn. unfold lift_res.
  by rewrite (current_qty_reported (held w env) rows symbol Hx Hrows (Hall symbol)).
Qed.

Lemma signal_literals s : s = 1 ∨ s = -1 ∨ s = 0 →
  feqb (of_Z s) (of_Z 1) = (s =? 1) ∧ feqb (of_Z s) (of_Z (-1)) = (s =? -1) ∧ feqb (of_Z s) fzero = (s =? 0).
Proof. intros [->|[->| ->]]; vm_compute; auto. Qed.

Lemma apply_signal_eq symbol s qty w : exact_holdings (held w env) → ready w env → s = 1 ∨ s = -1 ∨ s = 0 →
  ∃ w1, held w1 = held w ∧ ready w1 env ∧
  apply_signal t symbol (of_Z s) qty w =
  (let h := held w env symbol in
   if (s =? 1) && (h <=? 0) then
     _ ← (if h <? 0 then _ ← market_order_for t symbol (Z.abs h) "BUY"; mret tt else mret tt);
     r ← market_order_for t symbol qty "BUY"; mret (Some r)
   else if (s =? -1) && (0 <=? h) then
     _ ← (if 0 <? h then _ ← market_order_for t symbol h "SELL"; mret tt else mret tt);
     r ← market_order_for t symbol qty "SELL"; mret (Some r)
   else if (s =? 0) && negb (h =? 0) then
     r ← market_order_for t symbol (Z.abs h) (if 0 <? h then "SELL" else "BUY"); mret (Some r)
   else mret None) w1.
Proof.
  intros Hx Hrd Hs. destruct (held_read symbol w Hx Hrd) as (w1 & E & Hh & Hr1). exists w1. split_and!; [done..|].
  destruct (signal_literals s Hs) as (E1 & E2 & E3). unfold apply_signal.
  apply bind_inv in E as (positions & w2 & Ep & Ec). unfold lift_res in Ec. injection Ec as Ec <-.
  rewrite (bind_ok _ _ _ _ _ Ep), Ec, lift_bind, E1, E2, E3. done.
Qed.

(** Closing what is held, when it is on the other side, then opening. *)
Lemma close_then_open symbol (close : bool) amount qty side w : 0 < qty → (close = true → 0 < amount) → ready w env →
  ∃ r w', (_ ← (if close then _ ← market_order_for t symbol amount side; mret tt else mret tt);
           r ← market_order_for t symbol qty side; mret (Some r)) w = (Ok (Some r), w') ∧ ready w' env ∧
    held w' env symbol = held w env symbol + (if String.eqb (upper side) "BUY" then 1 else -1) * ((if close then amount else 0) + qty) ∧
    only_changes symbol w w'.
Proof.
  intros Hq Ha Hrd.
  assert (∃ w1, (if close then _ ← market_order_for t symbol amount side; mret tt else mret tt) w = (Ok tt, w1) ∧ ready w1 env ∧
    held w1 env symbol = held w env symbol + (if String.eqb (upper side) "BUY" then 1 else -1) * (if close then amount else 0) ∧
    only_changes symbol w w1) as (w1 & E1 & Hr1 & H1 & O1).
  { destruct close; [|exists w; split_and!; [done|done|lia|done]].
    destruct (market_order_fills symbol amount side w (Ha eq_refl) Hrd) as (r & w1 & E & _ & Hr1 & Hh & Ho).
    exists w1. rewrite (bind_ok _ _ _ _ _ E). split_and!; [done|done| |done]. rewrite Hh. destruct (String.eqb _ _); lia. }
  destruct (market_order_fills symbol qty side w1 Hq Hr1) as (r & w2 & E & _ & Hr2 & Hh & Ho).
  exists r, w2. rewrite (bind_ok _ _ _ _ _ E1), (bind_ok _ _ _ _ _ E). split_and!; [done|done| |].
  - rewrite Hh, H1. destruct (String.eqb _ _); lia.
  - intros e c Hc. by rewrite (Ho e c Hc), (O1 e c Hc).
Qed.

Lemma signal_applied symbol s qty w : exact_holdings (held w env) → ready w env → 0 < qty → s = 1 ∨ s = -1 ∨ s = 0 →
  ∃ r w', apply_signal t symbol (of_Z s) qty w = (Ok r, w') ∧ ready w' env ∧
    held w' env symbol = signal_target s qty (held w env symbol) ∧ only_changes symbol w w'.
Proof.
  intros Hx Hrd Hq Hs. destruct (apply_signal_eq symbol s qty w Hx Hrd Hs) as (w1 & Hh & Hr1 & E). rewrite E. cbv zeta.
  unfold only_changes. rewrite <-Hh. clear E Hh Hx Hrd w. set (h := held w1 env symbol). unfold signal_target.
  destruct Hs as [->|[->| ->]]; cbn [Z.eqb Pos.eqb andb negb].
  - destruct (Z.leb_spec h 0) as [Hle|Hgt]; [|by exists None, w1].
    destruct (close_then_open symbol (h <? 0) (Z.abs h) qty "BUY" w1) as (r & w' & E & Hr' & H1 & O1);
      [done|intros ?%Z.ltb_lt; lia|done|]. exists (Some r), w'. split_and!; [exact E|done| |done]. rewrite H1. fold h.
    change (String.eqb (upper "BUY") "BUY") with true. cbv iota.
    destruct (Z.ltb_spec h 0); lia.
  - destruct (Z.leb_spec 0 h) as [Hle|Hgt]; [|by exists None, w1].
    destruct (close_then_open symbol (0 <? h) h qty "SELL" w1) as (r & w' & E & Hr' & H1 & O1);
      [done|intros ?%Z.ltb_lt; lia|done|]. exists (Some r), w'. split_and!; [exact E|done| |done]. rewrite H1. fold h.
    change (String.eqb (upper "SELL") "BUY") with false. cbv iota.
    destruct (Z.ltb_spec 0 h); lia.
  - destruct (Z.eqb_spec h 0) as [Hz|Hn]; [by exists None, w1|]. cbn [negb].
    destruct (market_order_fills symbol (Z.abs h) (if 0 <? h then "SELL" else "BUY") w1)
      as (r & w' & E & _ & Hr' & H1 & O1); [lia|done|]. exists (Some r), w'. rewrite (bind_ok _ _ _ _ _ E).
    split_and!; [done|done| |done]. rewrite H1. fold h. destruct (Z.ltb_spec 0 h).
    + change (String.eqb (upper "SELL") "BUY") with false. cbv iota. lia.
    + change (String.eqb (upper "BUY") "BUY") with true. cbv iota. lia.
Qed.

Lemma signal_settled symbol s qty w : exact_holdings (held w env) → ready w env → 0 < qty → s = 1 ∨ s = -1 ∨ s = 0 →
  (∃ h, held w env symbol = signal_target s qty h) →
  ∃ w', apply_signal t symbol (of_Z s) qty w = (Ok None, w') ∧ held w' = held w.
Proof.
  intros Hx Hrd Hq Hs [h Hh]. destruct (apply_signal_eq symbol s qty w Hx Hrd Hs) as (w1 & Hw & _ & E). exists w1. split; [|done].
  rewrite E. cbv zeta. rewrite Hh. unfold signal_target.
  destruct Hs as [->|[->| ->]]; cbn [Z.eqb Pos.eqb andb negb]; [| |done].
  - destruct (Z.leb_spec h 0); [rewrite (proj2 (Z.leb_gt qty 0)) by lia|rewrite (proj2 (Z.leb_gt h 0)) by lia]; done.
  - destruct (Z.leb_spec 0 h); [rewrite (proj2 (Z.leb_gt 0 (- qty))) by lia|rewrite (proj2 (Z.leb_gt 0 h)) by lia]; done.
Qed.
End signals.

(** C24. With a broker that keeps the paper and the real account apart and fills
    market orders, a signal leads, in the account the trader was opened for, to the
    position it asks for, long, short or none, reversing through flat when it has
    to; it touches no other symbol and nothing of the other account, and asked
    again sends nothing. *)
Theorem signal_reaches_target {W} `{FutuLaws W held ready} t symbol s qty w :
  exact_holdings (held w (trd_env t)) → ready w (trd_env t) → 0 < qty < 2 ^ 53 → s = 1 ∨ s = -1 ∨ s = 0 →
  ∃ r w', apply_signal t symbol (of_Z s) qty w = (Ok r, w') ∧
    held w' (trd_env t) symbol = signal_target s qty (held w (trd_env t) symbol) ∧
    (∀ e c, (e, c) ≠ (trd_env t, symbol) → held w' e c = held w e c) ∧
    ∃ w'', apply_signal t symbol (of_Z s) qty w' = (Ok None, w'') ∧ held w'' = held w'.
Proof.
  intros Hx Hrd Hq Hs. destruct (signal_applied t symbol s qty w Hx Hrd) as (r & w' & E & Hr' & Ht & Ho); [lia|done|].
  exists r, w'. split_and!; [done..|]. apply signal_settled; [|done|lia|done|by eexists]. intros c.
  destruct (decide (c = symbol)) as [->|Hc]; [|rewrite Ho by congruence; apply Hx]. rewrite Ht. pose proof (Hx symbol).
  unfold signal_target. repeat case_match; lia.
Qed.

(** A position query that fails is read as holding nothing: a buy signal then buys
    on top of whatever is held, and a flat signal leaves it. *)
Theorem outage_reads_as_flat {W} `{FutuSdk W} t symbol qty w ret text rows w1 : ret ≠ 0 →
  position_list (trd_env t) w = (Ok (ret, text, rows), w1) →
  apply_signal t symbol (of_Z 1) qty w = (r ← market_order_for t symbol qty "BUY"; mret (Some r)) w1 ∧
  apply_signal t symbol fzero qty w = (Ok None, w1).
Proof.
  intros Hr Hp. assert (∀ s, apply_signal t symbol s qty w =
    (if feqb s (of_Z 1) && (0 <=? 0) then
       _ ← mret tt; r ← market_order_for t symbol qty "BUY"; mret (Some r)
     else if feqb s (of_Z (-1)) && (0 <=? 0) then
       _ ← mret tt; r ← market_order_for t symbol qty "SELL"; mret (Some r)
     else mret None) w1) as E.
  { intros s. assert (get_positions t w = (Ok None, w1)) as Eg.
    { unfold get_positions. rewrite (bind_ok _ _ _ _ _ Hp). cbn. by rewrite (proj2 (Z.eqb_neq ret 0) Hr). }
    unfold apply_signal. rewrite (bind_ok _ _ _ _ _ Eg). unfold current_qty. cbn [default List.filter].
    change (mret 0 : res exn Z) with (Ok 0 : res exn Z). rewrite lift_bind. cbn [Z.eqb negb Z.ltb Z.compare]. rewrite andb_false_r. done. }
  rewrite !E. split; [|done]. reflexivity.
Qed.

(** ** A run *)

Module Toy.

(** The paper account and the real one. *)
Definition account : Type := list (string * Z).
Definition world : Type := account * account.
Definition account_of (w : world) (e : TrdEnv) : account := match e with SIMULATE => w.1 | REAL => w.2 end.
Definition set_account (w : world) (e : TrdEnv) (a : account) : world :=
  match e with SIMULATE => (a, w.2) | REAL => (w.1, a) end.
Definition held (w : world) (e : TrdEnv) (c : string) : Z := default 0 (dict_get c (account_of w e)).
Definition rows (a : account) : list held_row := map (λ cq, mkHeld cq.1 (of_Z (default 0 (dict_get cq.1 a)))) a.

(** OpenD of a broker that fills what it accepts. *)
Definition broker (accepts : Z → bool) : FutuSdk world := {|
  sock_connect _ _ _ w := (Ok tt, w);
  sock_close w := (Ok tt, w);
  open_context _ _ _ w := (Ok tt, w);
  ctx_close w := (Ok tt, w);
  unlock_trade _ w := (Ok (0, ""), w);
  ctx_place _ qty code side _ e w :=
    if accepts qty
    then (Ok (0, "", ["1"]), set_account w e
            (dict_set code (held w e code + match side with TrdBUY => qty | TrdSELL => - qty end) (account_of w e)))
    else (Ok (-1, "order size over limit", []), w);
  ctx_cancel _ _ w := (Ok (0, ""), w);
  ctx_cancel_all _ w := (Ok (0, ""), w);
  position_list e w := (Ok (0, "", rows (account_of w e)), w);
  order_list _ w := (Ok (0, "", VList []), w);
  accinfo _ w := (Ok (0, "", VList []), w)
|}.
Definition environ : Environ world := {|
  getenv n w := (Ok (Some (if String.eqb n "FUTU_PORT" then "11111" else "localhost")), w);
  putenv _ _ w := (Ok tt, w)
|}.
Definition trader : FutuTrader := mkFutuTrader "localhost" 11111 true 5 "US".

#[export] Instance all_filled : FutuSdk world := broker (λ _, true).

Lemma account_set w e a e' : account_of (set_account w e a) e' = if decide (e' = e) then a else account_of w e'.
Proof. by destruct e, e'. Qed.

#[export] Instance laws : FutuLaws held (λ _ _, True).
Proof.
  split.
  - intros env w Hx. exists "", (rows (account_of w env)), w. split_and!; [done..| |].
    + apply Forall_forall. intros r (cq & <- & _)%list_elem_of_In%in_map_iff. done.
    + intros c Hc. unfold held in Hc. destruct (dict_get c (account_of w env)) as [q|] eqn:E; [|done].
      apply dict_get_Some_elem in E. unfold rows. rewrite map_map. cbn.
      apply list_elem_of_In, in_map_iff. exists (c, q). by rewrite <-list_elem_of_In.
  - intros price qty code side env w Hq _. eexists "", "1", [], _. split; [reflexivity|]. unfold held. split_and!; [| |done].
    + rewrite account_set, decide_True by done. by rewrite dict_get_set.
    + intros e c Hc. rewrite account_set. case_decide; [subst|done]. by rewrite dict_get_set_ne by congruence.
Qed.
End Toy.

(** The report of a reversal is that of its second order alone: a short whose
    closing order is refused is bought down by the size of the new position, and
    the answer is a success. *)
Theorem refused_close_is_unreported :
  @apply_signal _ (Toy.broker (λ q, q <=? 5)) Toy.trader "US.WEAT" (of_Z 1) 5 ([("US.WEAT", -10)], []) =
  (Ok (Some (mkTraderResult true (Some "1") "Order placed successfully")), ([("US.WEAT", -5)], [])).
Proof. vm_compute. reflexivity. Qed.

Lemma trader_stays_in_environment_witness :
  let s' := (@run_ops _ (traced_futu (Toy.broker (λ _, true))) Toy.trader
    [OpSignal "US.WEAT" (of_Z 1) 5; OpCancelAll; OpPlace "US.WEAT" 1 "sell" "normal" None] (([("US.WEAT", -10)], []), [])).2 in
  s'.2 = [FQuery SIMULATE; FPlace 10 "US.WEAT" TrdBUY TrdMARKET SIMULATE; FPlace 5 "US.WEAT" TrdBUY TrdMARKET SIMULATE;
          FCancelAll SIMULATE] ∧
  Forall (λ e, event_env e = SIMULATE) s'.2.
Proof.
  intros s'. split; [vm_compute; reflexivity|].
  exact (trader_stays_in_environment (Toy.broker (λ _, true)) Toy.environ (λ _, true) true None "us" ([("US.WEAT", -10)], [])
    Toy.trader ([("US.WEAT", -10)], [])
    [OpSignal "US.WEAT" (of_Z 1) 5; OpCancelAll; OpPlace "US.WEAT" 1 "sell" "normal" None] s' eq_refl eq_refl).
Defined.

#[local] Existing Instance Toy.all_filled.
#[local] Existing Instance Toy.laws.

(** Ten short on paper, seven long for real. *)
Definition two_accounts : Toy.world := ([("US.WEAT", -10)], [("US.WEAT", 7)]).

Lemma signal_reaches_target_witness : ∃ r w',
  apply_signal Toy.trader "US.WEAT" (of_Z 1) 5 two_accounts = (Ok r, w') ∧
  Toy.held w' SIMULATE "US.WEAT" = 5 ∧
  (∀ e c, (e, c) ≠ (SIMULATE, "US.WEAT") → Toy.held w' e c = Toy.held two_accounts e c) ∧
  ∃ w'', apply_signal Toy.trader "US.WEAT" (of_Z 1) 5 w' = (Ok None, w'') ∧ Toy.held w'' = Toy.held w'.
Proof.
  apply (signal_reaches_target (held := Toy.held) Toy.trader "US.WEAT" 1 5 two_accounts); [|done|lia|by left].
  intros c. unfold Toy.held. cbn. case_decide; cbn; lia.
Defined.
