(* ===== verification/Json.v ===== *)
(** * JSON text

    [json.loads] of the standard library: the scanner of [json.scanner] and
    [json.decoder], with the two hooks the code passes it ([parse_int],
    [parse_float]).  A text is its UTF-8 bytes.  The fuel of the scanner is twice
    the length of the text and two more, which [json_fuel] shows is enough. *)
From S2P Require Import Prelude PyFloat PyData Order Errors PyValue.
Local Open Scope string_scope.
Local Open Scope Z_scope.

Definition dquote : ascii := "034"%char.
Definition backslash : ascii := "092"%char.

Definition is_digit (c : ascii) : bool := let n := N_of_ascii c in ((48 <=? n) && (n <=? 57))%N.

(** [WHITESPACE]: blanks, tabs and line ends *)
Definition is_json_space (c : ascii) : bool :=
  let n := N_of_ascii c in ((n =? 32) || (n =? 9) || (n =? 10) || (n =? 13))%N.

Fixpoint skip_space (s : string) : string :=
  match s with
  | String c s' => if is_json_space c then skip_space s' else s
  | EmptyString => s
  end.

(** The digits a text starts with, and the rest. *)
Fixpoint span_digits (s : string) : string * string :=
  match s with
  | String c s' => if is_digit c then let '(d, r) := span_digits s' in (String c d, r) else (EmptyString, s)
  | EmptyString => (EmptyString, s)
  end.

(** [0|[1-9][0-9]*] *)
Definition scan_int (s : string) : option (string * string) :=
  match s with
  | String "0" s' => Some ("0", s')
  | String c s' => if is_digit c then let '(d, r) := span_digits s' in Some (String c d, r) else None
  | EmptyString => None
  end.

(** [(\.[0-9]+)?] *)
Definition scan_frac (s : string) : string * string :=
  match s with
  | String "." s' => match span_digits s' with
                     | (EmptyString, _) => (EmptyString, s)
                     | (d, r) => (String "." d, r)
                     end
  | _ => (EmptyString, s)
  end.

(** [[-+]?[0-9]+] *)
Definition scan_exp_digits (s : string) : option (string * string) :=
  let '(sign, t) := match s with
                    | String "+" t => ("+", t)
                    | String "-" t => ("-", t)
                    | _ => ("", s)
                    end in
  match span_digits t with
  | (EmptyString, _) => None
  | (d, r) => Some (sign +:+ d, r)
  end.

(** [([eE][-+]?[0-9]+)?] *)
Definition scan_exp (s : string) : string * string :=
  match s with
  | String c s' => if bool_decide (c = "e"%char ∨ c = "E"%char)
                   then match scan_exp_digits s' with Some (e, r) => (String c e, r) | None => (EmptyString, s) end
                   else (EmptyString, s)
  | EmptyString => (EmptyString, s)
  end.

(** A number: its literal, whether it is an integer, and the rest. *)
Definition scan_number (s : string) : option (string * bool * string) :=
  let '(sign, t) := match s with String "-" t => ("-", t) | _ => ("", s) end in
  '(i, r1) ← scan_int t;
  let '(f, r2) := scan_frac r1 in
  let '(e, r3) := scan_exp r2 in
  Some (sign +:+ i +:+ f +:+ e, String.eqb (f +:+ e) "", r3).

Definition hex_digit_val (c : ascii) : option Z :=
  let n := Z.of_N (N_of_ascii c) in
  if (48 <=? n) && (n <=? 57) then Some (n - 48)
  else if (97 <=? n) && (n <=? 102) then Some (n - 87)
  else if (65 <=? n) && (n <=? 70) then Some (n - 55)
  else None.

Definition hex4 (s : string) : option (Z * string) :=
  match s with
  | String a (String b (String c (String d r))) =>
      x ← hex_digit_val a; y ← hex_digit_val b; z ← hex_digit_val c; w ← hex_digit_val d;
      Some (4096 * x + 256 * y + 16 * z + w, r)
  | _ => None
  end.

Definition byte (z : Z) : ascii := ascii_of_N (Z.to_N z).

(** The bytes of a code point. *)
Definition utf8 (z : Z) : string :=
  if z <? 128 then String (byte z) ""
  else if z <? 2048 then String (byte (192 + z / 64)) (String (byte (128 + z mod 64)) "")
  else if z <? 65536 then
    String (byte (224 + z / 4096)) (String (byte (128 + z / 64 mod 64)) (String (byte (128 + z mod 64)) ""))
  else String (byte (240 + z / 262144)) (String (byte (128 + z / 4096 mod 64))
         (String (byte (128 + z / 64 mod 64)) (String (byte (128 + z mod 64)) ""))).

(** [\uXXXX], a pair of surrogates taken together *)
Definition scan_unicode (s : string) : option (string * string) :=
  '(hi, r) ← hex4 s;
  if (55296 <=? hi) && (hi <=? 56319) then
    match r with
    | String b (String "u" r') =>
        if bool_decide (b = backslash) then
          match hex4 r' with
          | Some (lo, r'') => if (56320 <=? lo) && (lo <=? 57343)
                              then Some (utf8 (65536 + (hi - 55296) * 1024 + (lo - 56320)), r'')
                              else Some (utf8 hi, r)
          | None => None
          end
        else Some (utf8 hi, r)
    | _ => Some (utf8 hi, r)
    end
  else Some (utf8 hi, r).

Definition simple_escape (c : ascii) : option string :=
  if bool_decide (c = dquote ∨ c = backslash ∨ c = "/"%char) then Some (String c "")
  else if bool_decide (c = "b"%char) then Some (String "008"%char "")
  else if bool_decide (c = "f"%char) then Some (String "012"%char "")
  else if bool_decide (c = "n"%char) then Some (String "010"%char "")
  else if bool_decide (c = "r"%char) then Some (String "013"%char "")
  else if bool_decide (c = "t"%char) then Some (String "009"%char "")
  else None.

(** A string after its opening quote: its value, and what follows the closing one. *)
Fixpoint scan_string (fuel : nat) (s : string) : option (string * string) :=
  match fuel with
  | O => None
  | S fuel =>
      match s with
      | EmptyString => None
      | String c s' =>
          if bool_decide (c = dquote) then Some ("", s')
          else if bool_decide (c = backslash) then
            match s' with
            | EmptyString => None
            | String e r =>
                '(text, r') ← (if bool_decide (e = "u"%char) then scan_unicode r
                               else (λ t, (t, r)) <$> simple_escape e);
                '(rest, r'') ← scan_string fuel r';
                Some (text +:+ rest, r'')
            end
          else if (N_of_ascii c <? 32)%N then None
          else '(rest, r) ← scan_string fuel s'; Some (String c rest, r)
      end
  end.

Section loads.
(** [parse_int] and [parse_float] *)
Context (parse_int parse_float : string → pyval).

Definition scan_constant (s : string) : option (pyval * string) :=
  let rest n v := Some (v, str_drop n s) in
  if String.prefix "null" s then rest 4%nat VNone
  else if String.prefix "true" s then rest 4%nat (VBool true)
  else if String.prefix "false" s then rest 5%nat (VBool false)
  else if String.prefix "NaN" s then rest 3%nat (VFloat S754_nan)
  else if String.prefix "Infinity" s then rest 8%nat (VFloat (S754_infinity false))
  else if String.prefix "-Infinity" s then rest 9%nat (VFloat (S754_infinity true))
  else None.

(** A scalar: a string, a number or a constant. *)
Definition scan_scalar (s : string) : option (pyval * string) :=
  match s with
  | String c s' =>
      if bool_decide (c = dquote)
      then '(t, r) ← scan_string (S (String.length s')) s'; Some (VStr t, r)
      else match scan_number s with
           | Some (literal, true, r) => Some (parse_int literal, r)
           | Some (literal, false, r) => Some (parse_float literal, r)
           | None => scan_constant s
           end
  | EmptyString => None
  end.

(** A member's key, its colon and the blanks around it. *)
Definition scan_key (s : string) : option (string * string) :=
  match s with
  | String c s' =>
      if bool_decide (c = dquote) then
        '(k, r) ← scan_string (S (String.length s')) s';
        match skip_space r with
        | String ":" r' => Some (k, skip_space r')
        | _ => None
        end
      else None
  | EmptyString => None
  end.

(** What follows the character [c]. *)
Definition after (c : ascii) (s : string) : option string :=
  match s with String a s' => if bool_decide (a = c) then Some s' else None | EmptyString => None end.

(** [scan_once]; the elements of an array after its first bracket and blanks, and
    the members of an object with those before them. *)
Fixpoint scan_once (fuel : nat) (s : string) : option (pyval * string) :=
  match fuel with
  | O => None
  | S fuel =>
      match after "[" s, after "{" s with
      | Some s', _ =>
          match after "]" (skip_space s') with
          | Some r => Some (VList [], r)
          | None => '(vs, r) ← scan_elements fuel (skip_space s'); Some (VList vs, r)
          end
      | None, Some s' =>
          match after "}" (skip_space s') with
          | Some r => Some (VDict [], r)
          | None => '(kvs, r) ← scan_members fuel (skip_space s'); Some (VDict (dict_comp fst snd kvs), r)
          end
      | None, None => scan_scalar s
      end
  end
with scan_elements (fuel : nat) (s : string) : option (list pyval * string) :=
  match fuel with
  | O => None
  | S fuel =>
      '(v, r) ← scan_once fuel s;
      match after "]" (skip_space r), after "," (skip_space r) with
      | Some r', _ => Some ([v], r')
      | None, Some r' => '(vs, r'') ← scan_elements fuel (skip_space r'); Some (v :: vs, r'')
      | None, None => None
      end
  end
with scan_members (fuel : nat) (s : string) : option (list (string * pyval) * string) :=
  match fuel with
  | O => None
  | S fuel =>
      '(k, r0) ← scan_key s;
      '(v, r) ← scan_once fuel r0;
      match after "}" (skip_space r), after "," (skip_space r) with
      | Some r', _ => Some ([(k, v)], r')
      | None, Some r' => '(kvs, r'') ← scan_members fuel (skip_space r'); Some ((k, v) :: kvs, r'')
      | None, None => None
      end
  end.

Definition json_fuel (s : string) : nat := 2 * String.length s + 2.

(** [json.loads]: nothing where it raises [JSONDecodeError] *)
Definition json_loads (s : string) : option pyval :=
  let t := skip_space s in
  '(v, r) ← scan_once (json_fuel t) t;
  match skip_space r with EmptyString => Some v | _ => None end.
End loads.

(** ** The fuel is enough *)

Lemma skip_space_le s : (String.length (skip_space s) <= String.length s)%nat.
Proof. induction s as [|c s IH]; [done|]. simpl. destruct (is_json_space c); simpl; lia. Qed.

Lemma span_digits_length s d r : span_digits s = (d, r) → String.length s = (String.length d + String.length r)%nat.
Proof.
  revert d r. induction s as [|c s IH]; intros d r; simpl; [by intros [= <- <-]|].
  destruct (is_digit c); [|by intros [= <- <-]]. destruct (span_digits s) as [d' r']. intros [= <- <-].
  simpl. by rewrite (IH d' r').
Qed.

Lemma scan_int_shorter s i r : scan_int s = Some (i, r) → (String.length r < String.length s)%nat.
Proof.
  destruct s as [|c s]; [done|]. unfold scan_int. intros Hi.
  assert ((i, r) = ("0", s) ∨ ∃ d, span_digits s = (d, r)) as [[= _ ->]|[d Hd]]; [|simpl; lia|].
  - destruct (span_digits s) as [d r'] eqn:E.
    destruct c as [[|] [|] [|] [|] [|] [|] [|] [|]]; simpl in Hi; try discriminate; injection Hi as <- <-; eauto.
  - apply span_digits_length in Hd. simpl. lia.
Qed.

Lemma scan_frac_le s f r : scan_frac s = (f, r) → (String.length r <= String.length s)%nat.
Proof.
  destruct s as [|c s]; [by intros [= <- <-]|]. unfold scan_frac. destruct (span_digits s) as [d r'] eqn:E.
  apply span_digits_length in E. intros Hf.
  assert (r = String c s ∨ r = r') as [->| ->]; [|done|simpl; lia].
  destruct c as [[|] [|] [|] [|] [|] [|] [|] [|]]; try (injection Hf as <- <-; by left).
  destruct d; injection Hf as <- <-; [by left|by right].
Qed.

Lemma scan_exp_digits_le s d r : scan_exp_digits s = Some (d, r) → (String.length r <= String.length s)%nat.
Proof.
  unfold scan_exp_digits.
  assert (∀ sg t, (String.length t <= String.length s)%nat →
    (let '(d, r) := span_digits t in match d with EmptyString => None | _ => Some (sg +:+ d, r) end) = Some (d, r) →
    (String.length r <= String.length s)%nat) as Ht.
  { intros sg t Hl. destruct (span_digits t) as [d' r'] eqn:E. apply span_digits_length in E.
    destruct d'; [done|]. intros [= _ <-]. lia. }
  destruct s as [|a s]; [by apply (Ht "" "")|].
  destruct a as [[|] [|] [|] [|] [|] [|] [|] [|]];
    first [apply (Ht "" (String _ s)); simpl; lia|apply (Ht "+" s); simpl; lia|apply (Ht "-" s); simpl; lia].
Qed.

Lemma scan_exp_le s f r : scan_exp s = (f, r) → (String.length r <= String.length s)%nat.
Proof.
  destruct s as [|c s]; [by intros [= <- <-]|]. unfold scan_exp. case_bool_decide; [|by intros [= <- <-]].
  destruct (scan_exp_digits s) as [[e r']|] eqn:E; [|by intros [= <- <-]]. intros [= <- <-].
  apply scan_exp_digits_le in E. simpl. lia.
Qed.

Lemma scan_number_shorter s l b r : scan_number s = Some (l, b, r) → (String.length r < String.length s)%nat.
Proof.
  unfold scan_number. intros Hn.
  assert (∃ sg t, (String.length t <= String.length s)%nat ∧
    ('(i, r1) ← scan_int t; let '(f, r2) := scan_frac r1 in let '(e, r3) := scan_exp r2 in
     Some (sg +:+ i +:+ f +:+ e, String.eqb (f +:+ e) "", r3)) = Some (l, b, r)) as (sg & t & Ht & E).
  { destruct s as [|c s]; [by eexists "", ""|].
    destruct c as [[|] [|] [|] [|] [|] [|] [|] [|]];
      first [by (eexists "", _; split; [|exact Hn]; simpl; lia)|by (eexists "-", _; split; [|exact Hn]; simpl; lia)]. }
  destruct (scan_int t) as [[i r1]|] eqn:Ei; [|done]. apply scan_int_shorter in Ei. cbn in E.
  destruct (scan_frac r1) as [f r2] eqn:Ef. apply scan_frac_le in Ef.
  destruct (scan_exp r2) as [e r3] eqn:Ee. apply scan_exp_le in Ee. injection E as _ _ <-. lia.
Qed.

Lemma Some_bind {A B} (a : A) (f : A → option B) : Some a ≫= f = f a.
Proof. done. Qed.

Lemma bind_Some_inv {A B} (m : option A) (f : A → option B) b : m ≫= f = Some b → ∃ a, m = Some a ∧ f a = Some b.
Proof. destruct m as [a|]; [|done]. intros E. by exists a. Qed.

Lemma hex4_shorter s z r : hex4 s = Some (z, r) → (String.length r < String.length s)%nat.
Proof.
  destruct s as [|a [|b [|c [|d s]]]]; try done. unfold hex4.
  intros (x & _ & (y & _ & (u & _ & (v & _ & [= _ <-])%bind_Some_inv)%bind_Some_inv)%bind_Some_inv)%bind_Some_inv. simpl. lia.
Qed.

Lemma scan_unicode_shorter s t r : scan_unicode s = Some (t, r) → (String.length r < String.length s)%nat.
Proof.
  unfold scan_unicode. intros ([hi r0] & E & H)%bind_Some_inv. apply hex4_shorter in E.
  destruct ((55296 <=? hi) && (hi <=? 56319)); [|by injection H as _ <-].
  assert (r = r0 ∨ (String.length r < String.length r0)%nat) as [->|]; [|done|lia].
  destruct r0 as [|b r0]; [injection H as _ <-; by left|]. destruct r0 as [|u r0]; [injection H as _ <-; by left|].
  destruct u as [[|] [|] [|] [|] [|] [|] [|] [|]]; try (injection H as _ <-; by left).
  case_bool_decide; [|injection H as _ <-; by left].
  destruct (hex4 r0) as [[lo r1]|] eqn:E1; [|done]. apply hex4_shorter in E1.
  destruct ((56320 <=? lo) && (lo <=? 57343)); injection H as _ <-; [right; simpl; lia|by left].
Qed.

Lemma scan_string_shorter fuel s t r : scan_string fuel s = Some (t, r) → (String.length r < String.length s)%nat.
Proof.
  revert s t r. induction fuel as [|fuel IH]; intros s t r; [done|]. destruct s as [|c s]; [done|]. cbn [scan_string].
  case_bool_decide; [intros [= _ <-]; simpl; lia|]. case_bool_decide.
  - destruct s as [|e s]; [done|]. intros ([u r1] & E & ([v r2] & E2 & [= _ <-])%bind_Some_inv)%bind_Some_inv.
    apply IH in E2. case_bool_decide; [apply scan_unicode_shorter in E; simpl; lia|].
    destruct (simple_escape e); [|done]. injection E as _ <-. simpl. lia.
  - destruct (N_of_ascii c <? 32)%N; [done|]. intros ([v r2] & E2 & [= _ <-])%bind_Some_inv. apply IH in E2. simpl. lia.
Qed.

(** With fuel for each byte, more changes nothing. *)
Lemma scan_string_fuel f g s : (String.length s < f)%nat → (String.length s < g)%nat → scan_string f s = scan_string g s.
Proof.
  revert g s. induction f as [|f IH]; intros [|g] s Hf Hg; try lia. cbn [scan_string]. destruct s as [|c s]; [done|]. simpl in *.
  case_bool_decide; [done|]. case_bool_decide.
  - destruct s as [|e s]; [done|]. simpl in *.
    assert (∀ r, (String.length r <= String.length s)%nat → scan_string f r = scan_string g r) as Hr.
    { intros r Hr. apply IH; lia. }
    case_bool_decide.
    + destruct (scan_unicode s) as [[t r]|] eqn:E; [|done]. apply scan_unicode_shorter in E. cbn. by rewrite Hr by lia.
    + destruct (simple_escape e); [|done]. cbn. by rewrite Hr.
  - destruct (N_of_ascii c <? 32)%N; [done|]. by rewrite (IH g s) by lia.
Qed.

Lemma scan_key_shorter s k r : scan_key s = Some (k, r) → (String.length r < String.length s)%nat.
Proof.
  destruct s as [|c s]; [done|]. unfold scan_key. case_bool_decide; [|done].
  intros ([k' r'] & E & H')%bind_Some_inv. apply scan_string_shorter in E. pose proof (skip_space_le r').
  destruct (skip_space r') as [|a q]; [done|]. simpl in *.
  destruct a as [[|] [|] [|] [|] [|] [|] [|] [|]]; try discriminate H'. injection H' as _ <-.
  pose proof (skip_space_le q). simpl. lia.
Qed.

Section fuel.
Context (parse_int parse_float : string → pyval).
#[local] Abbreviation once := (scan_once parse_int parse_float).
#[local] Abbreviation elements := (scan_elements parse_int parse_float).
#[local] Abbreviation members := (scan_members parse_int parse_float).

Lemma scan_constant_shorter s v r : scan_constant s = Some (v, r) → (String.length r < String.length s)%nat.
Proof.
  destruct s as [|c s]; [done|]. unfold scan_constant.
  assert (∀ n, (String.length (str_drop (S n) (String c s)) < String.length (String c s))%nat) as Hd.
  { intros n. rewrite str_drop_length. simpl. lia. }
  cbv zeta. intros H'. repeat case_match; simplify_eq; apply Hd.
Qed.

Lemma scan_scalar_shorter s v r : scan_scalar parse_int parse_float s = Some (v, r) → (String.length r < String.length s)%nat.
Proof.
  destruct s as [|c s]; [done|]. unfold scan_scalar. case_bool_decide.
  - intros ([t r'] & E & [= _ <-])%bind_Some_inv. apply scan_string_shorter in E. simpl. lia.
  - destruct (scan_number (String c s)) as [[[l b] r']|] eqn:E.
    + apply scan_number_shorter in E. by destruct b; intros [= _ <-].
    + apply scan_constant_shorter.
Qed.

Lemma after_length c s r : after c s = Some r → String.length s = S (String.length r).
Proof. destruct s as [|a s]; [done|]. simpl. case_bool_decide; [|done]. by intros [= <-]. Qed.

Definition shorter {A} (m : option (A * string)) (s : string) : Prop :=
  ∀ a r, m = Some (a, r) → (String.length r < String.length s)%nat.

(** What a bracket or a separator is followed by, blanks skipped. *)
Lemma after_skip c s r : after c (skip_space s) = Some r → (String.length r < String.length s)%nat.
Proof. intros E%after_length. pose proof (skip_space_le s). lia. Qed.

Lemma scan_elements_S f s : elements (S f) s =
  ('(v, r) ← once f s;
   match after "]" (skip_space r), after "," (skip_space r) with
   | Some r', _ => Some ([v], r')
   | None, Some r' => '(vs, r'') ← elements f (skip_space r'); Some (v :: vs, r'')
   | None, None => None
   end).
Proof. done. Qed.

Lemma scan_members_S f s : members (S f) s =
  ('(k, r0) ← scan_key s;
   '(v, r) ← once f r0;
   match after "}" (skip_space r), after "," (skip_space r) with
   | Some r', _ => Some ([(k, v)], r')
   | None, Some r' => '(kvs, r'') ← members f (skip_space r'); Some ((k, v) :: kvs, r'')
   | None, None => None
   end).
Proof. done. Qed.

Lemma scan_shorter fuel :
  (∀ s, shorter (once fuel s) s) ∧ (∀ s, shorter (elements fuel s) s) ∧ (∀ s, shorter (members fuel s) s).
Proof.
  induction fuel as [|fuel (IHo & IHe & IHm)]; [done|]. split_and!; intros s v r; rewrite ?scan_elements_S, ?scan_members_S.
  - cbn [scan_once]. destruct (after "[" s) as [s'|] eqn:E1; [|destruct (after "{" s) as [s'|] eqn:E2].
    + apply after_length in E1. pose proof (skip_space_le s'). destruct (after "]" _) as [r'|] eqn:E.
      * intros [= _ <-]. apply after_skip in E. lia.
      * intros ([vs r'] & E' & [= _ <-])%bind_Some_inv. apply IHe in E'. lia.
    + apply after_length in E2. pose proof (skip_space_le s'). destruct (after "}" _) as [r'|] eqn:E.
      * intros [= _ <-]. apply after_skip in E. lia.
      * intros ([vs r'] & E' & [= _ <-])%bind_Some_inv. apply IHm in E'. lia.
    + apply scan_scalar_shorter.
  - intros ([x r1] & E1 & H)%bind_Some_inv. apply IHo in E1. cbn beta iota in H.
    destruct (after "]" _) as [r'|] eqn:E; [injection H as _ <-; apply after_skip in E; lia|].
    destruct (after "," _) as [r'|] eqn:E'; [|done]. apply bind_Some_inv in H as ([vs r2] & E2 & [= _ <-]).
    apply IHe in E2. apply after_skip in E'. pose proof (skip_space_le r'). lia.
  - intros ([k r0] & E0 & H)%bind_Some_inv. apply scan_key_shorter in E0. cbn beta iota in H.
    apply bind_Some_inv in H as ([x r1] & E1 & H). apply IHo in E1. cbn beta iota in H.
    destruct (after "}" _) as [r'|] eqn:E; [injection H as _ <-; apply after_skip in E; lia|].
    destruct (after "," _) as [r'|] eqn:E'; [|done]. apply bind_Some_inv in H as ([vs r2] & E2 & [= _ <-]).
    apply IHm in E2. apply after_skip in E'. pose proof (skip_space_le r'). lia.
Qed.

(** Two steps of fuel for each byte are enough: more changes nothing. *)
Lemma scan_fuel f g s :
  ((2 * String.length s + 1 <= f)%nat → (2 * String.length s + 1 <= g)%nat → once f s = once g s) ∧
  ((2 * String.length s + 2 <= f)%nat → (2 * String.length s + 2 <= g)%nat → elements f s = elements g s) ∧
  ((2 * String.length s + 2 <= f)%nat → (2 * String.length s + 2 <= g)%nat → members f s = members g s).
Proof.
  revert g s. induction f as [|f IH]; intros [|g] s; [split_and!; lia..|].
  assert (∀ t, (2 * String.length t + 1 <= f)%nat → (2 * String.length t + 1 <= g)%nat → once f t = once g t) as IHo by apply IH.
  assert (∀ t, (2 * String.length t + 2 <= f)%nat → (2 * String.length t + 2 <= g)%nat → elements f t = elements g t) as IHe by apply IH.
  assert (∀ t, (2 * String.length t + 2 <= f)%nat → (2 * String.length t + 2 <= g)%nat → members f t = members g t) as IHm by apply IH.
  split_and!; intros Hf Hg; rewrite ?scan_elements_S, ?scan_members_S.
  - cbn [scan_once]. destruct (after "[" s) as [s'|] eqn:E1; [|destruct (after "{" s) as [s'|] eqn:E2; [|done]].
    + apply after_length in E1. pose proof (skip_space_le s'). by rewrite IHe by lia.
    + apply after_length in E2. pose proof (skip_space_le s'). by rewrite IHm by lia.
  - rewrite IHo by lia. destruct (once g s) as [[x r1]|] eqn:E1; [|done]. apply scan_shorter in E1. cbn.
    destruct (after "]" _); [done|]. destruct (after "," _) as [r'|] eqn:E'; [|done]. apply after_skip in E'.
    pose proof (skip_space_le r'). by rewrite IHe by lia.
  - destruct (scan_key s) as [[k r0]|] eqn:E0; [|done]. apply scan_key_shorter in E0. cbn.
    rewrite IHo by lia. destruct (once g r0) as [[x r1]|] eqn:E1; [|done]. apply scan_shorter in E1. cbn.
    destruct (after "}" _); [done|]. destruct (after "," _) as [r'|] eqn:E'; [|done]. apply after_skip in E'.
    pose proof (skip_space_le r'). by rewrite IHm by lia.
Qed.

(** More fuel than [json_fuel] gives the same value: the scanner never stops for
    want of it. *)
Theorem json_fuel_enough f s : (json_fuel s <= f)%nat → once f s = once (json_fuel s) s.
Proof. unfold json_fuel. intros Hf. apply scan_fuel; lia. Qed.
End fuel.

(** ** Number literals *)

(** Characters a number does not go on with. *)
Definition ends_number (c : ascii) : bool :=
  negb (is_digit c || bool_decide (c ∈ ["."; "e"; "E"; "+"; "-"]%char)).
Definition stops (s : string) : bool := match s with String c _ => ends_number c | EmptyString => true end.

(** A text that is one number literal. *)
Definition is_number (l : string) : bool :=
  match scan_number l with Some (l', _, EmptyString) => String.eqb l' l | _ => false end.

Lemma stops_char c s : stops (String c s) = true →
  is_digit c = false ∧ (c ≠ "." ∧ c ≠ "e" ∧ c ≠ "E" ∧ c ≠ "+" ∧ c ≠ "-")%char.
Proof.
  unfold stops, ends_number. intros [Hd Hc]%negb_true_iff%orb_false_iff. split; [done|].
  apply bool_decide_eq_false in Hc. set_solver.
Qed.

Lemma span_digits_app s d r rest : span_digits s = (d, r) → stops rest = true → span_digits (s +:+ rest) = (d, r +:+ rest).
Proof.
  intros Hs Hr. revert d r Hs. induction s as [|c s IH]; intros d r; simpl.
  - intros [= <- <-]. destruct rest as [|c rest]; [done|]. apply stops_char in Hr as [Hd _]. simpl. by rewrite Hd.
  - destruct (is_digit c); [|by intros [= <- <-]]. destruct (span_digits s) as [d' r'] eqn:E. intros [= <- <-].
    by rewrite (IH _ _ eq_refl).
Qed.

(** Case analysis on a character a definition matches, one case for all others. *)
Ltac other_char c := destruct c as [[|] [|] [|] [|] [|] [|] [|] [|]].

Lemma scan_int_app s i r rest : scan_int s = Some (i, r) → stops rest = true → scan_int (s +:+ rest) = Some (i, r +:+ rest).
Proof.
  destruct s as [|c s]; [done|]. intros Hs Hr. destruct (span_digits s) as [d r'] eqn:E.
  pose proof (span_digits_app s d r' rest E Hr) as E'. change (String c s +:+ rest) with (String c (s +:+ rest)).
  unfold scan_int in *. rewrite E, E' in *.
  other_char c; cbn in Hs |- *; try discriminate; by injection Hs as <- <-.
Qed.

Lemma scan_frac_app s f r rest : scan_frac s = (f, r) → stops rest = true → scan_frac (s +:+ rest) = (f, r +:+ rest).
Proof.
  intros Hs Hr. destruct s as [|c s].
  - injection Hs as <- <-. change ("" +:+ rest) with rest. destruct rest as [|c rest]; [done|].
    apply stops_char in Hr as (_ & Hc & _). unfold scan_frac. other_char c; done.
  - destruct (span_digits s) as [d r'] eqn:E. pose proof (span_digits_app s d r' rest E Hr) as E'.
    change (String c s +:+ rest) with (String c (s +:+ rest)). unfold scan_frac in *. rewrite E, E' in *.
    other_char c; try (by injection Hs as <- <-). destruct d; by injection Hs as <- <-.
Qed.

Lemma scan_exp_digits_app s rest : stops rest = true →
  scan_exp_digits (s +:+ rest) = (λ dr, (dr.1, dr.2 +:+ rest)) <$> scan_exp_digits s.
Proof.
  intros Hr. unfold scan_exp_digits.
  assert (∀ sg t, (let '(d, r) := span_digits (t +:+ rest) in match d with EmptyString => None | _ => Some (sg +:+ d, r) end)
    = (λ dr : string * string, (dr.1, dr.2 +:+ rest)) <$>
      (let '(d, r) := span_digits t in match d with EmptyString => None | _ => Some (sg +:+ d, r) end)) as Ht.
  { intros sg t. destruct (span_digits t) as [d r] eqn:E. rewrite (span_digits_app t d r rest E Hr). by destruct d. }
  destruct s as [|c s].
  - change ("" +:+ rest) with rest. destruct rest as [|c rest]; [done|]. apply stops_char in Hr as (Hd & Hc).
    assert (span_digits (String c rest) = ("", String c rest)) as E by (simpl; by rewrite Hd).
    other_char c; try (rewrite E; done); by destruct Hc as (_ & _ & _ & ? & ?).
  - change (String c s +:+ rest) with (String c (s +:+ rest)).
    other_char c; match goal with
      | |- context [span_digits (String ?a (s +:+ rest))] => exact (Ht "" (String a s))
      | |- context [Some ("+" +:+ _, _)] => exact (Ht "+" s)
      | _ => exact (Ht "-" s)
      end.
Qed.

Lemma scan_exp_app s e r rest : scan_exp s = (e, r) → stops rest = true → scan_exp (s +:+ rest) = (e, r +:+ rest).
Proof.
  intros Hs Hr. destruct s as [|c s].
  - injection Hs as <- <-. change ("" +:+ rest) with rest. destruct rest as [|c rest]; [done|].
    apply stops_char in Hr as (_ & _ & He & HE & _). unfold scan_exp. rewrite bool_decide_false; [done|]. tauto.
  - change (String c s +:+ rest) with (String c (s +:+ rest)). unfold scan_exp in *. case_bool_decide; [|by injection Hs as <- <-].
    rewrite scan_exp_digits_app by done. destruct (scan_exp_digits s) as [[d r']|]; by injection Hs as <- <-.
Qed.

Lemma scan_number_app s l b r rest : scan_number s = Some (l, b, r) → stops rest = true →
  scan_number (s +:+ rest) = Some (l, b, r +:+ rest).
Proof.
  intros Hs Hr. unfold scan_number in *.
  assert (∀ sg t,
    ('(i, r1) ← scan_int t; let '(f, r2) := scan_frac r1 in let '(e, r3) := scan_exp r2 in
     Some (sg +:+ i +:+ f +:+ e, String.eqb (f +:+ e) "", r3)) = Some (l, b, r) →
    ('(i, r1) ← scan_int (t +:+ rest); let '(f, r2) := scan_frac r1 in let '(e, r3) := scan_exp r2 in
     Some (sg +:+ i +:+ f +:+ e, String.eqb (f +:+ e) "", r3)) = Some (l, b, r +:+ rest)) as Ht.
  { intros sg t ([i r1] & Ei & H)%bind_Some_inv. rewrite (scan_int_app _ _ _ _ Ei Hr). cbn.
    destruct (scan_frac r1) as [f r2] eqn:Ef. rewrite (scan_frac_app _ _ _ _ Ef Hr).
    destruct (scan_exp r2) as [e r3] eqn:Ee. rewrite (scan_exp_app _ _ _ _ Ee Hr). by injection H as <- <- <-. }
  destruct s as [|c s]; [discriminate Hs|]. change (String c s +:+ rest) with (String c (s +:+ rest)).
  other_char c; match goal with
    | |- context [scan_int (String ?a (s +:+ rest))] => by apply (Ht "" (String a s))
    | _ => by apply (Ht "-" s)
    end.
Qed.

(** A literal is scanned up to whatever ends it. *)
Lemma scan_literal l rest : is_number l = true → stops rest = true → ∃ b, scan_number (l +:+ rest) = Some (l, b, rest).
Proof.
  unfold is_number. destruct (scan_number l) as [[[l' b] [|]]|] eqn:E; try done. intros ->%String.eqb_eq Hr.
  exists b. by apply (scan_number_app _ _ _ _ _ E).
Qed.

(** A literal starts with a digit or a sign. *)
Lemma number_head l : is_number l = true → ∃ c l', l = String c l' ∧ (is_digit c = true ∨ c = "-"%char).
Proof.
  unfold is_number. destruct (scan_number l) as [[[l' b] r]|] eqn:E; [|done]. intros _. destruct l as [|c l]; [done|].
  exists c, l. split; [done|]. unfold scan_number, scan_int in E.
  destruct (span_digits l) as [d r'] eqn:Ed. destruct (is_digit c) eqn:Hc; [by left|]. right.
  other_char c; cbn in E, Hc; done.
Qed.

Lemma number_head_not c : is_digit c = true ∨ c = "-"%char →
  is_json_space c = false ∧ c ≠ "["%char ∧ c ≠ "{"%char ∧ c ≠ dquote.
Proof. intros Hc. other_char c; destruct Hc as [Hc|Hc]; try discriminate; split_and!; try done; discriminate. Qed.

Lemma skip_number l rest : is_number l = true → skip_space (l +:+ rest) = l +:+ rest.
Proof.
  intros (c & l' & -> & Hc%number_head_not)%number_head. destruct Hc as (Hs & _). simpl. by rewrite Hs.
Qed.

(** A literal kept as text is itself. *)
Lemma once_literal f l rest : is_number l = true → stops rest = true →
  scan_once VStr VStr (S f) (l +:+ rest) = Some (VStr l, rest).
Proof.
  intros Hl Hr. destruct (scan_literal l rest Hl Hr) as [b Hb].
  destruct (number_head l Hl) as (c & l' & -> & Hc%number_head_not). destruct Hc as (_ & H1 & H2 & H3).
  change (String c l' +:+ rest) with (String c (l' +:+ rest)) in *. cbn [scan_once after]. rewrite !bool_decide_false by done.
  unfold scan_scalar. rewrite bool_decide_false, Hb by done. by destruct b.
Qed.

(** ** Text of numbers *)

Definition ascii_only (s : string) : Prop := Forall (λ c, (N_of_ascii c < 128)%N) (String.list_ascii_of_string s).

Lemma ascii_app s t : ascii_only s → ascii_only t → ascii_only (s +:+ t).
Proof. unfold ascii_only. intros Hs Ht. induction s as [|c s IH]; [done|]. simpl in *. inversion Hs. constructor; auto. Qed.

Lemma ascii_cons c s : (N_of_ascii c < 128)%N → ascii_only s → ascii_only (String c s).
Proof. by constructor. Qed.

Lemma is_digit_ascii c : is_digit c = true → (N_of_ascii c < 128)%N.
Proof. unfold is_digit. cbv zeta. rewrite andb_true_iff, !N.leb_le. lia. Qed.

Lemma span_digits_ascii s d r : span_digits s = (d, r) → ascii_only d.
Proof.
  revert d r. induction s as [|c s IH]; intros d r; simpl; [intros [= <- _]; constructor|].
  destruct (is_digit c) eqn:Hc; [|intros [= <- _]; constructor]. destruct (span_digits s) as [d' r'].
  intros [= <- _]. apply ascii_cons; [by apply is_digit_ascii|]. by apply (IH d' r').
Qed.

Lemma scan_int_ascii s i r : scan_int s = Some (i, r) → ascii_only i.
Proof.
  destruct s as [|c s]; [done|]. unfold scan_int. destruct (span_digits s) as [d r'] eqn:E. apply span_digits_ascii in E.
  destruct (is_digit c) eqn:Hc; intros Hs.
  - assert (i = "0" ∨ i = String c d) as [->| ->]; [|by repeat constructor|apply ascii_cons; [by apply is_digit_ascii|done]].
    other_char c; cbn in Hs; injection Hs as <- _; auto.
  - other_char c; try discriminate Hc; discriminate Hs.
Qed.

Lemma scan_frac_ascii s f r : scan_frac s = (f, r) → ascii_only f.
Proof.
  destruct s as [|c s]; [intros [= <- _]; constructor|]. unfold scan_frac. destruct (span_digits s) as [d r'] eqn:E.
  apply span_digits_ascii in E. intros Hs.
  assert (f = "" ∨ f = String "." d) as [->| ->]; [|constructor|by apply ascii_cons].
  other_char c; try (injection Hs as <- _; by left). destruct d; injection Hs as <- _; [by left|by right].
Qed.

Lemma scan_exp_ascii s e r : scan_exp s = (e, r) → ascii_only e.
Proof.
  destruct s as [|c s]; [intros [= <- _]; constructor|]. unfold scan_exp. case_bool_decide as Hc; [|intros [= <- _]; constructor].
  destruct (scan_exp_digits s) as [[d r']|] eqn:E; intros [= <- _]; [|constructor].
  apply ascii_cons; [by destruct Hc as [->| ->]|]. unfold scan_exp_digits in E.
  assert (∀ sg t, ascii_only sg →
    (let '(d, r) := span_digits t in match d with EmptyString => None | _ => Some (sg +:+ d, r) end) = Some (d, r') →
    ascii_only d) as Ht.
  { intros sg t Hsg. destruct (span_digits t) as [d' r0] eqn:Ed. apply span_digits_ascii in Ed. destruct d'; [done|].
    intros [= <- _]. by apply ascii_app. }
  destruct (match s with String "+" t => ("+", t) | String "-" t => ("-", t) | _ => ("", s) end) as [sg t] eqn:Es.
  apply (Ht sg t); [|exact E]. destruct s as [|a s]; [injection Es as <- _; constructor|].
  other_char a; injection Es as <- _; by repeat constructor.
Qed.

(** A number literal is ASCII. *)
Lemma number_ascii l : is_number l = true → ascii_only l.
Proof.
  unfold is_number. destruct (scan_number l) as [[[l' b] [|]]|] eqn:E; try done. intros ->%String.eqb_eq.
  unfold scan_number in E. destruct (match l with String "-" t => ("-", t) | _ => ("", l) end) as [sg t] eqn:Es.
  apply bind_Some_inv in E as ([i r1] & Ei & E). cbn beta iota in E. apply scan_int_ascii in Ei.
  destruct (scan_frac r1) as [f r2] eqn:Ef. apply scan_frac_ascii in Ef.
  destruct (scan_exp r2) as [e r3] eqn:Ee. apply scan_exp_ascii in Ee.
  assert (ascii_only sg) as Hsg.
  { destruct l as [|a s]; [injection Es as <- _; constructor|]. other_char a; injection Es as <- _; by repeat constructor. }
  injection E as <- _ _. by repeat apply ascii_app.
Qed.
