(* ===== verification/SavedCopies.v ===== *)
(** * Saved provider responses

    [quant/data/glassnode_response.py]: a saved HTTP response is parsed into points
    that keep the number literals of its body, and two saved copies of one request
    are compared point by point and header by header.  The files, the hash and the
    texts of the decoders' errors are parameters; texts are their UTF-8 bytes. *)
From S2P Require Import Prelude PyFloat PyData Order Errors PyValue RefData Json.
Local Open Scope string_scope.
Local Open Scope Z_scope.

Definition TRANSPORT_HEADERS : list string := ["x-rate-limit-remaining"; "x-rate-limit-reset"].
Definition QUOTA_HEADERS : list string := ["x-rate-limit-limit"].
Definition COPY_FILES : list string := ["request.json"; "response.meta.json"; "response.body"].

Record RequestIdentity := mkIdentity {
  rid_metric_path : string; rid_asset : string; rid_interval : string; rid_since : Z; rid_until : Z
}.

Record Point := mkPoint { pt_t : Z; pt_v : string }.

Record RateLimitHeaders := mkRateLimit {
  rl_limit : option string; rl_remaining : option string; rl_reset : option string
}.

Record ParsedResponse := mkParsed {
  pr_status : Z; pr_content_type : option string; pr_headers : list (string * string); pr_body : string;
  pr_points : option (list Point); pr_error_text : option string; pr_is_json_array : bool;
  pr_object_keys : list string; pr_unexpected : list string
}.

Record SavedCopy := mkCopy {
  sc_request : RequestIdentity; sc_parsed : ParsedResponse; sc_captured_at : option string; sc_directory : string
}.

Record ValueChange := mkChange { vc_t : Z; vc_earlier : string; vc_later : string }.

Definition header_change : Type := string * option string * option string.

Record RevisionReport := mkReport {
  rr_mismatch : option string;
  rr_changes : list ValueChange;
  rr_only_earlier : list Z; rr_only_later : list Z;
  rr_dups_earlier : list Z; rr_dups_later : list Z;
  rr_error_earlier : option string; rr_error_later : option string;
  rr_status_earlier : Z; rr_status_later : Z;
  rr_type_earlier : option string; rr_type_later : option string;
  rr_sha_earlier : string; rr_sha_later : string;
  rr_quota : list header_change; rr_transport : list header_change; rr_other : list header_change
}.

Definition nonempty_list {A} (l : list A) : bool := match l with [] => false | _ => true end.

(** [value_revision] *)
Definition value_revision (r : RevisionReport) : bool :=
  match rr_mismatch r with
  | Some (String _ _) => false
  | _ => nonempty_list (rr_changes r) || nonempty_list (rr_only_earlier r) || nonempty_list (rr_only_later r)
         || nonempty_list (rr_dups_earlier r) || nonempty_list (rr_dups_later r)
         || negb (bool_decide (rr_error_earlier r = rr_error_later r))
  end.

(** [status_changed] *)
Definition status_changed (r : RevisionReport) : bool := negb (rr_status_earlier r =? rr_status_later r).

(** [content_type_changed] *)
Definition content_type_changed (r : RevisionReport) : bool :=
  negb (bool_decide (rr_type_earlier r = rr_type_later r)).

(** [{str(k).lower(): str(v) for k, v in headers.items()}] *)
Definition lowered (headers : list (string * pyval)) : list (string * string) :=
  dict_comp (λ kv, lower kv.1) (λ kv, str_val kv.2) headers.

(** [rate_limit_from_headers] *)
Definition rate_limit_from_headers (headers : list (string * pyval)) : RateLimitHeaders :=
  let low := lowered headers in
  mkRateLimit (dict_get "x-rate-limit-limit" low) (dict_get "x-rate-limit-remaining" low)
    (dict_get "x-rate-limit-reset" low).

(** [media_type] *)
Definition media_type (content_type : option string) : option string :=
  c ← content_type;
  let base := lower (strip (partition_on ";" c).1.1) in
  if String.eqb base "" then None else Some base.

(** Whether bytes are UTF-8: the shortest form, no surrogates, up to U+10FFFF. *)
Definition in_range (lo hi : N) (c : ascii) : bool := let n := N_of_ascii c in ((lo <=? n) && (n <=? hi))%N.
Definition continues (c : ascii) : bool := in_range 128 191 c.
Fixpoint utf8_ok (s : string) : bool :=
  match s with
  | EmptyString => true
  | String a s1 =>
      if in_range 0 127 a then utf8_ok s1
      else
        match s1 with
        | EmptyString => false
        | String b s2 =>
            if in_range 194 223 a then continues b && utf8_ok s2
            else
              match s2 with
              | EmptyString => false
              | String c s3 =>
                  if in_range 224 239 a then
                    (if in_range 224 224 a then in_range 160 191 b
                     else if in_range 237 237 a then in_range 128 159 b else continues b)
                    && continues c && utf8_ok s3
                  else
                    match s3 with
                    | EmptyString => false
                    | String d s4 =>
                        in_range 240 244 a
                        && (if in_range 240 240 a then in_range 144 191 b
                            else if in_range 244 244 a then in_range 128 143 b else continues b)
                        && continues c && continues d && utf8_ok s4
                    end
              end
        end
  end.

(** [_error_response] *)
Definition error_response (status : Z) (ctype : option string) (headers : list (string * string))
    (body text : string) : ParsedResponse :=
  mkParsed status ctype headers body None (Some text) false [] [].

(** [s.isdigit()] *)
Definition isdigit (s : string) : bool :=
  negb (String.eqb s "") && forallb is_digit (String.list_ascii_of_string s).

(** The points of a list of items from index [i], with the keys they have beside. *)
Fixpoint read_points (i : Z) (items : list pyval) : res exn (list Point * list string) :=
  match items with
  | [] => mret ([], [])
  | VDict item :: items' =>
      let extra := sorted_by String.leb (filter (λ k, k ∉ ["t"; "v"]) (map fst item)) in
      match dict_get "t" item, dict_get "v" item with
      | Some t, Some v =>
          match t with
          | VStr ts =>
              if isdigit ts then
                match v with
                | VStr vs =>
                    n ← int_val (VStr ts);
                    '(points, unexpected) ← read_points (i + 1) items';
                    mret (mkPoint n vs :: points, (extra ++ unexpected)%list)
                | _ => Raise (TypeError ("point " +:+ str_Z i +:+ " v is not a JSON number"))
                end
              else Raise (ValueError ("point " +:+ str_Z i +:+ " t is not an integer literal"))
          | _ => Raise (ValueError ("point " +:+ str_Z i +:+ " t is not an integer literal"))
          end
      | _, _ => Raise (ValueError ("point " +:+ str_Z i +:+ " is missing t or v"))
      end
  | _ :: _ => Raise (TypeError ("point " +:+ str_Z i +:+ " is not an object"))
  end.

(** [tuple(dict.fromkeys(names))] *)
Definition from_keys (names : list string) : list string := map fst (dict_comp id (λ _, tt) names).

(** The texts of [UnicodeDecodeError] and [JSONDecodeError]. *)
Class DecodeTexts := { decode_error : string → string; json_error : string → string }.

Section parse.
Context `{DecodeTexts}.

(** [body.decode("utf-8")] *)
Definition decode_body (body : string) : res exn string :=
  if utf8_ok body then Ok body else Raise (ValueError (decode_error body)).

(** [parse_response] *)
Definition parse_response (status : Z) (headers : list (string * pyval)) (body : string) : res exn ParsedResponse :=
  let norm_headers := lowered headers in
  let ctype := media_type (dict_get "content-type" norm_headers) in
  if match ctype with Some c => String.prefix "text/" c | None => false end
  then text ← decode_body body; mret (error_response status ctype norm_headers body text)
  else
    text ← decode_body body;
    match lstrip text with
    | EmptyString => mret (error_response status ctype norm_headers body text)
    | String c _ =>
        if negb (bool_decide (c = "["%char ∨ c = "{"%char))
        then mret (error_response status ctype norm_headers body text)
        else
          match json_loads VStr VStr text with
          | None => Raise (ValueError ("body is not valid JSON: " +:+ json_error text))
          | Some (VDict d) =>
              mret (mkParsed status ctype norm_headers body None None false (map fst d) [])
          | Some (VList items) =>
              '(points, unexpected) ← read_points 0 items;
              mret (mkParsed status ctype norm_headers body (Some points) None true [] (from_keys unexpected))
          | Some v => Raise (TypeError ("JSON body must be a list or object, got " +:+ type_name v))
          end
    end.
End parse.

(** ** Saved copies *)

(** Files by path; [None] where there is no regular file. *)
Class SavedFiles (W : Type) := { read_file : string → prog W exn (option string) }.

Section load.
Context {W : Type} `{SavedFiles W} `{DecodeTexts}.
(** [float(literal)] of a JSON number *)
Context (float_of_literal : string → float).

(** [json.loads] with its own number types *)
Definition load_json (text : string) : res exn pyval :=
  match json_loads (λ l, match int_of_str l with Some z => VInt z | None => VNone end)
          (λ l, VFloat (float_of_literal l)) text with
  | Some v => Ok v
  | None => Raise (ValueError (json_error text))
  end.

Definition path_of (directory name : string) : string := directory +:+ "/" +:+ name.

Fixpoint missing_files (directory : string) (names : list string) : prog W exn (list string) :=
  match names with
  | [] => mret []
  | n :: names' =>
      f ← read_file (path_of directory n);
      rest ← missing_files directory names';
      mret match f with None => n :: rest | Some _ => rest end
  end.

(** the content of a file that was found *)
Definition read_existing (path : string) : prog W exn string :=
  f ← read_file path;
  match f with Some t => mret t | None => raise (plain COSError ("[Errno 2] No such file or directory: " +:+ repr_str path)) end.

Definition read_text (path : string) : prog W exn string := t ← read_existing path; lift_res (decode_body t).

(** [load_saved_copy] *)
Definition load_saved_copy (directory : string) : prog W exn SavedCopy :=
  missing ← missing_files directory COPY_FILES;
  match missing with
  | _ :: _ => raise (plain COSError ("missing " +:+ String.concat ", " missing +:+ " in " +:+ directory))
  | [] =>
      request_text ← read_text (path_of directory "request.json");
      request_doc ← lift_res (load_json request_text);
      meta_text ← read_text (path_of directory "response.meta.json");
      meta ← lift_res (load_json meta_text);
      body ← read_existing (path_of directory "response.body");
      h ← lift_res (get "headers" meta);
      headers ← lift_res match or_else h (VDict []) with
                         | VDict d => Ok d
                         | _ => Raise (TypeError (path_of directory "response.meta.json" +:+ " headers must be an object"))
                         end;
      metric_path ← lift_res (v ← getitem "metric_path" request_doc; mret (str_val v));
      asset ← lift_res (v ← getitem "asset" request_doc; mret (str_val v));
      interval ← lift_res (v ← getitem "interval" request_doc; mret (str_val v));
      since ← lift_res (v ← getitem "since" request_doc; int_val v);
      until ← lift_res (v ← getitem "until" request_doc; int_val v);
      status ← lift_res (v ← getitem "status" meta; int_val v);
      parsed ← lift_res (parse_response status headers body);
      captured ← lift_res (get "captured_at" request_doc);
      mret (mkCopy (mkIdentity metric_path asset interval since until) parsed
              match captured with VNone => None | v => Some (str_val v) end directory)
  end.
End load.

(** ** Comparing two copies *)

(** [_request_mismatch] *)
Definition request_mismatch (earlier later : RequestIdentity) : option string :=
  let texts : list (string * string * string) :=
    [("metric_path", repr_str (rid_metric_path earlier), repr_str (rid_metric_path later));
     ("asset", repr_str (rid_asset earlier), repr_str (rid_asset later));
     ("interval", repr_str (rid_interval earlier), repr_str (rid_interval later));
     ("since", str_Z (rid_since earlier), str_Z (rid_since later));
     ("until", str_Z (rid_until earlier), str_Z (rid_until later))] in
  let differ : list bool :=
    [negb (String.eqb (rid_metric_path earlier) (rid_metric_path later));
     negb (String.eqb (rid_asset earlier) (rid_asset later));
     negb (String.eqb (rid_interval earlier) (rid_interval later));
     negb (rid_since earlier =? rid_since later); negb (rid_until earlier =? rid_until later)] in
  match map snd (List.filter fst (zip differ (map (λ x, x.1.1 +:+ " " +:+ x.1.2 +:+ " -> " +:+ x.2) texts))) with
  | [] => None
  | diffs => Some ("request identity differs: " +:+ String.concat ", " diffs)
  end.

(** [_index_points]: the last value of each timestamp, and those met again *)
Definition index_points (points : option (list Point)) : list (Z * string) * list Z :=
  foldl (λ acc p, (dict_set (pt_t p) (pt_v p) acc.1,
                   match dict_get (pt_t p) acc.1 with Some _ => (acc.2 ++ [pt_t p])%list | None => acc.2 end))
    ([], []) (default [] points).

(** [_header_diffs], as one list of the headers that differ *)
Definition header_names (earlier later : list (string * string)) : list string :=
  sorted_by String.leb
    (filter (λ n, n ≠ "content-type")
       (map fst earlier ++ filter (λ n, dict_get n earlier = None) (map fst later))%list).
Definition header_rows (earlier later : list (string * string)) : list header_change :=
  omap (λ n, let ev := dict_get n earlier in let lv := dict_get n later in
             if bool_decide (ev = lv) then None else Some (n, ev, lv)) (header_names earlier later).

(** [_header_diffs]: quota, transport and other changes *)
Definition header_diffs (earlier later : list (string * string))
    : list header_change * list header_change * list header_change :=
  let rows := header_rows earlier later in
  (filter (λ r, r.1.1 ∈ QUOTA_HEADERS) rows,
   filter (λ r, (r.1.1 ∉ QUOTA_HEADERS) ∧ (r.1.1 ∈ TRANSPORT_HEADERS)) rows,
   filter (λ r, (r.1.1 ∉ QUOTA_HEADERS) ∧ (r.1.1 ∉ TRANSPORT_HEADERS)) rows).

Section compare.
(** [hashlib.sha256(body).hexdigest()] *)
Context (sha256 : string → string).

(** [_revision_report] *)
Definition revision_report (earlier later : SavedCopy) (mismatch : option string) (changes : list ValueChange)
    (only_earlier only_later dups_earlier dups_later : list Z)
    (headers : list header_change * list header_change * list header_change) : RevisionReport :=
  let e := sc_parsed earlier in
  let l := sc_parsed later in
  mkReport mismatch changes only_earlier only_later dups_earlier dups_later
    (pr_error_text e) (pr_error_text l) (pr_status e) (pr_status l) (pr_content_type e) (pr_content_type l)
    (sha256 (pr_body e)) (sha256 (pr_body l)) headers.1.1 headers.1.2 headers.2.

(** the timestamps of an index, ascending, that satisfy [P] *)
Definition sorted_keys (P : Z → bool) (index : list (Z * string)) : list Z :=
  sorted_by Z.leb (List.filter P (map fst index)).

Definition known (index : list (Z * string)) (t : Z) : bool := bool_decide (is_Some (dict_get t index)).

(** [compare_copies] *)
Definition compare_copies (earlier later : SavedCopy) : RevisionReport :=
  let mismatch := request_mismatch (sc_request earlier) (sc_request later) in
  let headers := header_diffs (pr_headers (sc_parsed earlier)) (pr_headers (sc_parsed later)) in
  match mismatch with
  | Some _ => revision_report earlier later mismatch [] [] [] [] [] headers
  | None =>
      let '(earlier_idx, earlier_dups) := index_points (pr_points (sc_parsed earlier)) in
      let '(later_idx, later_dups) := index_points (pr_points (sc_parsed later)) in
      let changes := omap (λ t, match dict_get t earlier_idx, dict_get t later_idx with
                                | Some a, Some b => if String.eqb a b then None else Some (mkChange t a b)
                                | _, _ => None
                                end) (sorted_keys (known later_idx) earlier_idx) in
      revision_report earlier later None changes
        (sorted_keys (λ t, negb (known later_idx t)) earlier_idx)
        (sorted_keys (λ t, negb (known earlier_idx t)) later_idx)
        earlier_dups later_dups headers
  end.
End compare.

(** ** What a report says of the series *)

Lemma index_snoc pts p : index_points (Some (pts ++ [p])%list) =
  (dict_set (pt_t p) (pt_v p) (index_points (Some pts)).1,
   match dict_get (pt_t p) (index_points (Some pts)).1 with
   | Some _ => ((index_points (Some pts)).2 ++ [pt_t p])%list
   | None => (index_points (Some pts)).2
   end).
Proof. unfold index_points. cbn [default]. unfold id. by rewrite foldl_app. Qed.

(** A timestamp is indexed just when a point has it. *)
Lemma last_of_timestamp pts t : last (filter (λ p, pt_t p = t) pts) = None ↔ t ∉ map pt_t pts.
Proof.
  rewrite last_None. split.
  - intros Hf (q & -> & Hin)%list_elem_of_fmap. apply (not_elem_of_nil q). rewrite <-Hf. by apply list_elem_of_filter.
  - intros Hn. apply elem_of_nil_inv. intros q [<- Hin]%list_elem_of_filter. apply Hn. apply list_elem_of_fmap. by exists q.
Qed.

Lemma index_spec pts :
  (∀ t, dict_get t (index_points (Some pts)).1 = pt_v <$> last (filter (λ p, pt_t p = t) pts)) ∧
  NoDup (index_points (Some pts)).1.*1 ∧
  ((index_points (Some pts)).2 = [] ↔ NoDup (map pt_t pts)).
Proof.
  induction pts as [|p pts (IHg & IHn & IHd)] using rev_ind.
  { split_and!; [done|constructor|split; [constructor|done]]. }
  rewrite index_snoc. cbn [fst snd]. split_and!.
  - intros t. rewrite filter_app, filter_cons, filter_nil. destruct (decide (pt_t p = t)) as [->|Hne].
    + by rewrite dict_get_set, last_snoc.
    + rewrite app_nil_r, dict_get_set_ne by congruence. apply IHg.
  - by apply dict_set_nodup.
  - rewrite map_app, NoDup_app. cbn [map]. pose proof (last_of_timestamp pts (pt_t p)) as Hk.
    rewrite <-(fmap_None pt_v), <-(IHg (pt_t p)) in Hk. destruct (dict_get (pt_t p) _) eqn:E.
    + split; [by intros [_ ?]%app_nil|]. intros (_ & Hd & _). exfalso. destruct (decide (pt_t p ∈ map pt_t pts)) as [Hin|Hn].
      * apply (Hd _ Hin). by left.
      * apply Hk in Hn. congruence.
    + rewrite IHd. split; [|by intros [? _]]. intros Hn. split_and!; [done| |apply NoDup_singleton].
      intros t Ht ->%list_elem_of_singleton. by apply (proj1 Hk eq_refl).
Qed.

Lemma index_point pts t v : NoDup (map pt_t pts) →
  dict_get t (index_points (Some pts)).1 = Some v ↔ mkPoint t v ∈ pts.
Proof.
  intros Hn. destruct (index_spec pts) as (Hg & _ & _). rewrite Hg. split.
  - intros ([t' v'] & E & ->)%fmap_Some. apply last_Some_elem_of in E. by apply list_elem_of_filter in E as [<- ?].
  - intros Hin. assert (∃ q, last (filter (λ p, pt_t p = t) pts) = Some q) as [q Hq].
    { apply not_eq_None_Some. intros E%last_of_timestamp. apply E. apply list_elem_of_fmap. by exists (mkPoint t v). }
    rewrite Hq. apply last_Some_elem_of in Hq. apply list_elem_of_filter in Hq as [Ht Hq].
    assert (q = mkPoint t v) as ->; [|done].
    apply list_elem_of_lookup in Hin as [i Hi]. apply list_elem_of_lookup in Hq as [j Hj].
    assert (i = j) as ->; [|congruence]. apply (NoDup_lookup (map pt_t pts) i j t Hn).
    + by rewrite list_lookup_fmap, Hi.
    + by rewrite list_lookup_fmap, Hj, <-Ht.
Qed.

Lemma sorted_keys_elem P index t : t ∈ sorted_keys P index ↔ P t = true ∧ is_Some (dict_get t index).
Proof.
  unfold sorted_keys. rewrite sorted_by_perm, list_elem_of_In, filter_In, <-list_elem_of_In.
  assert (t ∈ map fst index ↔ is_Some (dict_get t index)) as ->; [|tauto].
  rewrite <-not_eq_None_Some. pose proof (dict_get_key t index) as Hk. change (index.*1) with (map fst index) in Hk.
  destruct (decide (t ∈ map fst index)); tauto.
Qed.

Lemma sorted_keys_sorted P index : StronglySorted (λ a b, (a <=? b) = true) (sorted_keys P index).
Proof. apply sorted_by_sorted; intros; lia. Qed.

Lemma compare_same sha e l : request_mismatch (sc_request e) (sc_request l) = None →
  let E := (index_points (pr_points (sc_parsed e))).1 in
  let L := (index_points (pr_points (sc_parsed l))).1 in
  let r := compare_copies sha e l in
  rr_mismatch r = None ∧
  rr_changes r = omap (λ t, match dict_get t E, dict_get t L with
                            | Some a, Some b => if String.eqb a b then None else Some (mkChange t a b)
                            | _, _ => None
                            end) (sorted_keys (known L) E) ∧
  rr_only_earlier r = sorted_keys (λ t, negb (known L t)) E ∧ rr_only_later r = sorted_keys (λ t, negb (known E t)) L ∧
  rr_dups_earlier r = (index_points (pr_points (sc_parsed e))).2 ∧
  rr_dups_later r = (index_points (pr_points (sc_parsed l))).2 ∧
  rr_error_earlier r = pr_error_text (sc_parsed e) ∧ rr_error_later r = pr_error_text (sc_parsed l).
Proof.
  intros Hm. cbv zeta. unfold compare_copies. rewrite Hm.
  destruct (index_points (pr_points (sc_parsed e))) as [E ed]. by destruct (index_points (pr_points (sc_parsed l))) as [L ld].
Qed.

Lemma changes_exact_aux sha e l : request_mismatch (sc_request e) (sc_request l) = None →
  let E := (index_points (pr_points (sc_parsed e))).1 in
  let L := (index_points (pr_points (sc_parsed l))).1 in
  let r := compare_copies sha e l in
  (∀ t a b, mkChange t a b ∈ rr_changes r ↔ dict_get t E = Some a ∧ dict_get t L = Some b ∧ a ≠ b) ∧
  (∀ t, t ∈ rr_only_earlier r ↔ is_Some (dict_get t E) ∧ dict_get t L = None) ∧
  (∀ t, t ∈ rr_only_later r ↔ is_Some (dict_get t L) ∧ dict_get t E = None).
Proof.
  intros Hm. destruct (compare_same sha e l Hm) as (_ & Hc & He & Hl & _). cbv zeta in *.
  set (E := (index_points (pr_points (sc_parsed e))).1) in *. set (L := (index_points (pr_points (sc_parsed l))).1) in *.
  rewrite Hc, He, Hl. split_and!.
  - intros t a b. rewrite list_elem_of_omap. split.
    + intros (t' & Hin & Heq). destruct (dict_get t' E) as [x|] eqn:Ex; [|done]. destruct (dict_get t' L) as [y|] eqn:Ey; [|done].
      destruct (String.eqb_spec x y); [done|]. by injection Heq as <- <- <-.
    + intros (Ha & Hb & Hne). exists t. rewrite Ha, Hb. split; [|by rewrite (proj2 (String.eqb_neq a b) Hne)].
      apply sorted_keys_elem. rewrite Ha. split; [|done]. unfold known. by rewrite Hb, bool_decide_true by done.
  - intros t. rewrite sorted_keys_elem. unfold known. rewrite negb_true_iff, bool_decide_eq_false, <-eq_None_not_Some. tauto.
  - intros t. rewrite sorted_keys_elem. unfold known. rewrite negb_true_iff, bool_decide_eq_false, <-eq_None_not_Some. tauto.
Qed.

(** The changes reported between two copies of one request are exactly the
    timestamps both copies have with another value, each with both literals, and
    the timestamps only one of them has are listed with that copy, all in order
    of time. *)
Theorem changes_exact sha e l : request_mismatch (sc_request e) (sc_request l) = None →
  let E := (index_points (pr_points (sc_parsed e))).1 in
  let L := (index_points (pr_points (sc_parsed l))).1 in
  let r := compare_copies sha e l in
  (∀ t a b, mkChange t a b ∈ rr_changes r ↔ dict_get t E = Some a ∧ dict_get t L = Some b ∧ a ≠ b) ∧
  (∀ t, t ∈ rr_only_earlier r ↔ is_Some (dict_get t E) ∧ dict_get t L = None) ∧
  (∀ t, t ∈ rr_only_later r ↔ is_Some (dict_get t L) ∧ dict_get t E = None) ∧
  StronglySorted (λ a b, (a <=? b) = true) (rr_only_earlier r) ∧
  StronglySorted (λ a b, (a <=? b) = true) (rr_only_later r) ∧
  StronglySorted (λ a b, (vc_t a <=? vc_t b) = true) (rr_changes r).
Proof.
  intros Hm. destruct (compare_same sha e l Hm) as (_ & Hc & He & Hl & _). cbv zeta in *.
  set (E := (index_points (pr_points (sc_parsed e))).1) in *. set (L := (index_points (pr_points (sc_parsed l))).1) in *.
  pose proof (changes_exact_aux sha e l Hm) as (Xc & Xe & Xl). cbv zeta in *. fold E L in Xc, Xe, Xl.
  split_and!; [exact Xc|exact Xe|exact Xl| | |]; rewrite ?Hc, ?He, ?Hl; try apply sorted_keys_sorted.
  - clear Xc Xe Xl.
    clear Hc He Hl Hm. pose proof (sorted_keys_sorted (known L) E) as Hs. induction Hs as [|t ts Hs IH Ht]; [constructor|]. cbn [omap list_omap].
    destruct (dict_get t E) as [x|]; [|exact IH]. destruct (dict_get t L) as [y|]; [|exact IH].
    destruct (String.eqb x y); [exact IH|]. constructor; [exact IH|].
    apply Forall_forall. intros c (t' & Hin & Hc')%list_elem_of_omap. rewrite Forall_forall in Ht. specialize (Ht t' Hin).
    destruct (dict_get t' E), (dict_get t' L); try done. case_match; [done|]. by injection Hc' as <-.
Qed.

(** No revision is the same points, whatever their order. *)
Lemma no_revision_points sha e l P Q : request_mismatch (sc_request e) (sc_request l) = None →
  pr_points (sc_parsed e) = Some P → pr_points (sc_parsed l) = Some Q →
  value_revision (compare_copies sha e l) = false ↔
  P ≡ₚ Q ∧ NoDup (map pt_t P) ∧ pr_error_text (sc_parsed e) = pr_error_text (sc_parsed l).
Proof.
  intros Hm HP HQ. destruct (compare_same sha e l Hm) as (Hr & Hc & He & Hl & Hde & Hdl & Hee & Hel). cbv zeta in *.
  rewrite HP, HQ in *. set (E := (index_points (Some P)).1) in *. set (L := (index_points (Some Q)).1) in *.
  destruct (index_spec P) as (_ & _ & HdP). destruct (index_spec Q) as (_ & _ & HdQ).
  assert (value_revision (compare_copies sha e l) = false ↔
    rr_changes (compare_copies sha e l) = [] ∧ rr_only_earlier (compare_copies sha e l) = [] ∧
    rr_only_later (compare_copies sha e l) = [] ∧ (index_points (Some P)).2 = [] ∧ (index_points (Some Q)).2 = [] ∧
    pr_error_text (sc_parsed e) = pr_error_text (sc_parsed l)) as ->.
  { unfold value_revision. rewrite Hr, Hde, Hdl, Hee, Hel. rewrite !orb_false_iff, negb_false_iff, bool_decide_eq_true.
    assert (∀ A (x : list A), nonempty_list x = false ↔ x = []) as Hnil by (intros ? []; done). rewrite !Hnil. tauto. }
  destruct (changes_exact_aux sha e l Hm) as (Xc & Xe & Xl). cbv zeta in *. rewrite HP, HQ in Xc, Xe, Xl.
  fold E L in Xc, Xe, Xl. rewrite HdP, HdQ. split.
  - intros (E1 & E2 & E3 & HnP & HnQ & Herr). split_and!; [|done|done].
    apply NoDup_Permutation; [by apply NoDup_fmap_1 in HnP|by apply NoDup_fmap_1 in HnQ|].
    assert (∀ t, dict_get t E = dict_get t L) as Hg.
    { intros t. destruct (dict_get t E) as [a|] eqn:Ea, (dict_get t L) as [b|] eqn:Eb; try done.
      - destruct (decide (a = b)) as [->|Hne]; [done|]. assert (mkChange t a b ∈ rr_changes (compare_copies sha e l)) as Hin
          by (by apply Xc). rewrite E1 in Hin. by apply not_elem_of_nil in Hin.
      - assert (t ∈ rr_only_earlier (compare_copies sha e l)) as Hin by (apply Xe; by rewrite Ea).
        rewrite E2 in Hin. by apply not_elem_of_nil in Hin.
      - assert (t ∈ rr_only_later (compare_copies sha e l)) as Hin by (apply Xl; by rewrite Eb).
        rewrite E3 in Hin. by apply not_elem_of_nil in Hin. }
    intros [t v]. unfold E, L in Hg. by rewrite <-(index_point P), <-(index_point Q), Hg.
  - intros (Hp & HnP & Herr). assert (NoDup (map pt_t Q)) as HnQ by (change (NoDup (pt_t <$> Q)); by rewrite <-Hp).
    assert (∀ t, dict_get t E = dict_get t L) as Hg.
    { intros t. apply option_eq. intros v. unfold E, L. by rewrite (index_point P), (index_point Q), Hp. }
    assert (∀ A (x : list A), (∀ a, a ∉ x) → x = []) as Hnil by (intros; by apply elem_of_nil_inv).
    split_and!; try done; apply Hnil.
    + intros [t a b] (Ha & Hb & Hne)%Xc. rewrite Hg in Ha. congruence.
    + intros t ([x Hx] & Hn)%Xe. rewrite Hg in Hx. congruence.
    + intros t ([x Hx] & Hn)%Xl. rewrite Hg in Hn. congruence.
Qed.

(** Two copies of one request show no revision just when they hold the same
    points, in whatever order, no timestamp twice, and the same error text;
    headers, status and capture time play no part. *)
Theorem no_revision_same_points sha e l P Q : request_mismatch (sc_request e) (sc_request l) = None →
  pr_points (sc_parsed e) = Some P → pr_points (sc_parsed l) = Some Q →
  value_revision (compare_copies sha e l) = false ↔
  P ≡ₚ Q ∧ NoDup (map pt_t P) ∧ pr_error_text (sc_parsed e) = pr_error_text (sc_parsed l).
Proof. apply no_revision_points. Qed.

(** Headers are reported once each: a header other than the content type is in
    exactly one of the three lists just when the copies disagree on it. *)
Theorem header_diffs_exact earlier later :
  let '(quota, transport, other) := header_diffs earlier later in
  (∀ n ev lv, (n, ev, lv) ∈ (quota ++ transport ++ other)%list ↔
     n ≠ "content-type" ∧ ev = dict_get n earlier ∧ lv = dict_get n later ∧ ev ≠ lv) ∧
  (∀ r, r ∈ quota → r.1.1 ∈ QUOTA_HEADERS) ∧ (∀ r, r ∈ transport → r.1.1 ∈ TRANSPORT_HEADERS) ∧
  (∀ r, r ∈ other → (r.1.1 ∉ QUOTA_HEADERS) ∧ (r.1.1 ∉ TRANSPORT_HEADERS)).
Proof.
  unfold header_diffs. split_and!.
  - intros n ev lv. rewrite !elem_of_app, !list_elem_of_filter. cbn [fst snd].
    assert ((n, ev, lv) ∈ header_rows earlier later ↔
      n ≠ "content-type" ∧ ev = dict_get n earlier ∧ lv = dict_get n later ∧ ev ≠ lv) as <-.
    { unfold header_rows. rewrite list_elem_of_omap. cbv zeta. unfold header_names.
      split.
      - intros (m & Hin & Hm). rewrite sorted_by_perm in Hin. apply list_elem_of_filter in Hin as [Hne Hin].
        case_bool_decide; [done|]. by injection Hm as <- <- <-.
      - intros (Hne & -> & -> & Hd). exists n. rewrite bool_decide_false by done. split; [|done].
        rewrite sorted_by_perm, list_elem_of_filter. split; [done|]. rewrite elem_of_app, list_elem_of_filter.
        destruct (decide (dict_get n earlier = None)) as [He|He].
        + right. split; [done|]. destruct (decide (n ∈ (map fst later))) as [?|Hn]; [done|].
          apply dict_get_key in Hn. congruence.
        + left. destruct (decide (n ∈ (map fst earlier))) as [?|Hn]; [done|]. by apply dict_get_key in Hn. }
    destruct (decide (n ∈ QUOTA_HEADERS)), (decide (n ∈ TRANSPORT_HEADERS)); tauto.
  - by intros r [? _]%list_elem_of_filter.
  - by intros r [[_ ?] _]%list_elem_of_filter.
  - by intros r [? _]%list_elem_of_filter.
Qed.

(** ** Literals survive *)

Definition quoted (s : string) : string := String dquote (s +:+ String dquote "").

(** A series as the provider sends it: each point's time and value as literals. *)
Definition print_point (p : string * string) : string :=
  "{" +:+ quoted "t" +:+ ":" +:+ p.1 +:+ "," +:+ quoted "v" +:+ ":" +:+ p.2 +:+ "}".
Fixpoint print_rest (ps : list (string * string)) : string :=
  match ps with [] => "]" | p :: ps' => "," +:+ print_point p +:+ print_rest ps' end.
Definition print_points (ps : list (string * string)) : string :=
  "[" +:+ match ps with [] => "]" | p :: ps' => print_point p +:+ print_rest ps' end.

Definition point_value (p : string * string) : pyval := VDict [("t", VStr p.1); ("v", VStr p.2)].
Definition literals (p : string * string) : Prop := is_number p.1 = true ∧ isdigit p.1 = true ∧ is_number p.2 = true.

Lemma print_point_eq t v rest : print_point (t, v) +:+ rest =
  String "{" (String dquote (String "t" (String dquote (String ":" (t +:+
    String "," (String dquote (String "v" (String dquote (String ":" (v +:+ String "}" rest)))))))))).
Proof. unfold print_point, quoted. cbn [fst snd]. rewrite !string_app_assoc. reflexivity. Qed.

Lemma scan_key_t x : scan_key (String dquote (String "t" (String dquote (String ":" x)))) = Some ("t", skip_space x).
Proof. reflexivity. Qed.
Lemma scan_key_v x : scan_key (String dquote (String "v" (String dquote (String ":" x)))) = Some ("v", skip_space x).
Proof. reflexivity. Qed.

Lemma scan_print_point f p rest : literals p →
  scan_once VStr VStr (S (S (S (S f)))) (print_point p +:+ rest) = Some (point_value p, rest).
Proof.
  intros (H1 & _ & H2). destruct p as [t v]. cbn [fst snd] in *. rewrite print_point_eq.
  set (tail := String dquote (String "v" (String dquote (String ":" (v +:+ String "}" rest))))).
  change (scan_once VStr VStr (S (S (S (S f)))) (String "{" ?s)) with
    ('(kvs, r) ← scan_members VStr VStr (S (S (S f))) s; Some (VDict (dict_comp fst snd kvs), r)).
  rewrite scan_members_S, scan_key_t, Some_bind, skip_number by done. cbv beta iota.
  rewrite once_literal, Some_bind by done. cbv beta iota. fold tail.
  change (after "}" (skip_space (String "," tail))) with (@None string).
  change (after "," (skip_space (String "," tail))) with (Some tail). cbv iota.
  change (skip_space tail) with tail. unfold tail.
  rewrite scan_members_S, scan_key_v, Some_bind, skip_number by done. cbv beta iota.
  rewrite once_literal, Some_bind by done. reflexivity.
Qed.

Lemma scan_rest f p ps : (length ps <= f)%nat → literals p → Forall literals ps →
  scan_elements VStr VStr (S (S (S (S (S f))))) (print_point p +:+ print_rest ps) = Some (map point_value (p :: ps), "").
Proof.
  revert f p. induction ps as [|q ps IH]; intros f p Hf Hp Hps; rewrite scan_elements_S, scan_print_point, Some_bind by done;
    cbv beta iota; [done|]. cbn [print_rest length] in *. inversion Hps as [|? ? Hq Hps']; subst. destruct f as [|f]; [lia|].
  change (after "]" (skip_space ("," +:+ print_point q +:+ print_rest ps))) with (@None string).
  change (after "," (skip_space ("," +:+ print_point q +:+ print_rest ps))) with (Some (print_point q +:+ print_rest ps)).
  cbv iota. replace (skip_space (print_point q +:+ print_rest ps)) with (print_point q +:+ print_rest ps)
    by (destruct q; by rewrite print_point_eq).
  rewrite IH by (done || lia). done.
Qed.

Lemma print_rest_length ps : (length ps <= String.length (print_rest ps))%nat.
Proof.
  induction ps as [|p ps IH]; [simpl; lia|]. cbn [print_rest]. rewrite !length_append. cbn [length]. 
  change (String.length ",") with 1%nat. lia.
Qed.

Lemma loads_points ps : Forall literals ps → json_loads VStr VStr (print_points ps) = Some (VList (map point_value ps)).
Proof.
  intros Hps. unfold json_loads. destruct ps as [|p ps]; [done|]. inversion Hps; subst. unfold print_points.
  change (skip_space ("[" +:+ ?s)) with ("[" +:+ s).
  set (body := print_point p +:+ print_rest ps).
  assert (skip_space body = body) as Eb by (unfold body; destruct p; by rewrite print_point_eq).
  assert (after "]" body = None) as Ea by (unfold body; destruct p; by rewrite print_point_eq).
  unfold json_fuel. destruct (2 * String.length ("[" +:+ body) + 2)%nat as [|k] eqn:Ek; [lia|].
  change (scan_once VStr VStr (S k) ("[" +:+ body)) with
    (match after "]" (skip_space body) with
     | Some r => Some (VList [], r)
     | None => '(vs, r) ← scan_elements VStr VStr k (skip_space body); Some (VList vs, r)
     end).
  rewrite Eb, Ea. pose proof (print_rest_length ps).
  assert (length ps + 5 <= k)%nat.
  { change (String.length ("[" +:+ body)) with (S (String.length body)) in Ek. unfold body in Ek. rewrite length_append in Ek.
    destruct p as [t v]. assert (5 <= String.length (print_point (t, v)))%nat; [|lia].
    rewrite <-(string_app_empty (print_point _)), print_point_eq. simpl. rewrite length_append. simpl. lia. }
  do 5 (destruct k as [|k]; [lia|]). unfold body. rewrite scan_rest by (done || lia). done.
Qed.

Lemma read_point_step i t v items : read_points i (point_value (t, v) :: items) =
  if isdigit t
  then n ← int_val (VStr t);
       '(points, unexpected) ← read_points (i + 1) items;
       mret (mkPoint n v :: points, ([] ++ unexpected)%list)
  else Raise (ValueError ("point " +:+ str_Z i +:+ " t is not an integer literal")).
Proof. reflexivity. Qed.

Lemma read_points_literals ps ts i : Forall2 (λ p n, literals p ∧ int_of_str p.1 = Some n) ps ts →
  read_points i (map point_value ps) = Ok (zip_with (λ p n, mkPoint n p.2) ps ts, []).
Proof.
  intros Hps. revert i. induction Hps as [|[t v] n ps ts [(H1 & H2 & H3) Hn] Hps IH]; intros i; [done|].
  cbn [fst snd] in *. cbn [map]. rewrite read_point_step, H2. unfold int_val. rewrite Hn. change (Ok ?a ≫= ?f) with (f a). cbv beta. rewrite IH. done.
Qed.

(** ASCII is UTF-8. *)
Lemma ascii_utf8 s : ascii_only s → utf8_ok s = true.
Proof.
  unfold ascii_only. induction s as [|c s IH]; [done|]. simpl. intros Hs. inversion Hs as [|? ? Hc Hr]; subst.
  unfold in_range at 1. cbv zeta. rewrite (proj2 (N.leb_le 0 _)) by lia. rewrite (proj2 (N.leb_le _ 127)) by lia. auto.
Qed.

Lemma print_points_ascii ps : Forall literals ps → ascii_only (print_points ps).
Proof.
  intros Hps.
  assert (∀ p, literals p → ascii_only (print_point p)) as Hp.
  { intros p (H1%number_ascii & _ & H3%number_ascii). unfold print_point, quoted. repeat apply ascii_app; auto; by repeat constructor. }
  unfold print_points. apply ascii_app; [by repeat constructor|]. destruct Hps as [|p ps Hl Hps]; [by repeat constructor|].
  apply ascii_app; [auto|]. induction Hps; cbn [print_rest]; [by repeat constructor|].
  apply ascii_app; [by repeat constructor|]. apply ascii_app; [by apply Hp|done].
Qed.

(** A series the provider sends as numbers is read back literal for literal:
    each time as its integer, each value as the very text of the body, so that
    copies compare without a float in between. *)
Theorem literals_survive `{DecodeTexts} status headers ps ts :
  (∀ c, media_type (dict_get "content-type" (lowered headers)) = Some c → String.prefix "text/" c = false) →
  Forall2 (λ p n, literals p ∧ int_of_str p.1 = Some n) ps ts →
  parse_response status headers (print_points ps) =
  Ok (mkParsed status (media_type (dict_get "content-type" (lowered headers))) (lowered headers) (print_points ps)
        (Some (zip_with (λ p n, mkPoint n p.2) ps ts)) None true [] []).
Proof.
  intros Hc Hps. assert (Forall literals ps) as Hl by (eapply Forall2_Forall_l; [exact Hps|]; apply Forall_forall; by intros n _ p [? _]).
  unfold parse_response. cbv zeta.
  replace (match media_type (dict_get "content-type" (lowered headers)) with Some c => String.prefix "text/" c | None => false end)
    with false by (destruct (media_type _) as [c|]; [by rewrite (Hc c)|done]).
  unfold decode_body. rewrite (ascii_utf8 (print_points ps)) by (by apply print_points_ascii).
  change (Ok ?a ≫= ?f) with (f a). cbv beta.
  replace (lstrip (print_points ps)) with (print_points ps) by done.
  unfold print_points at 1. cbn [String.append]. change ("[" +:+ ?x) with (String "[" x). cbv iota.
  rewrite bool_decide_true by (by left). cbn [negb]. rewrite loads_points by done.
  rewrite (read_points_literals ps ts 0) by done. reflexivity.
Qed.

(** ** Two captures *)

Module Toy.
#[export] Instance texts : DecodeTexts := {| decode_error _ := "invalid start byte"; json_error _ := "Expecting value" |}.
Definition request : RequestIdentity := mkIdentity "market/price_usd_close" "BTC" "24h" 0 172800.
Definition capture (ps : list (string * string)) (remaining : string) : res exn SavedCopy :=
  p ← parse_response 200 [("Content-Type", VStr "application/json"); ("X-Rate-Limit-Remaining", VStr remaining)]
        (print_points ps);
  mret (mkCopy request p None "copy").
Definition copy_of (r : res exn SavedCopy) : SavedCopy :=
  match r with Ok c => c | Raise _ => mkCopy request (error_response 0 None [] "" "") None "" end.
Definition earlier : SavedCopy := copy_of (capture [("0", "1.0"); ("86400", "2e3")] "599").
Definition later : SavedCopy := copy_of (capture [("0", "1.0"); ("86400", "2.0e3"); ("172800", "-3")] "598").
End Toy.

#[local] Existing Instance Toy.texts.

(** A value or a time that is a JSON string is taken for a number: the literal and
    the string read the same once numbers are kept as text. *)
Theorem quoted_value_accepted :
  pr_points <$> (match parse_response 200 [] ("[{" +:+ quoted "t" +:+ ":" +:+ quoted "1" +:+ "," +:+ quoted "v" +:+ ":" +:+ quoted "n/a" +:+ "}]")
                 with Ok p => Some p | Raise _ => None end) = Some (Some [mkPoint 1 "n/a"]).
Proof. vm_compute. reflexivity. Qed.

Lemma changes_exact_witness :
  let r := compare_copies id Toy.earlier Toy.later in
  rr_changes r = [mkChange 86400 "2e3" "2.0e3"] ∧ rr_only_later r = [172800] ∧
  (∀ t a b, mkChange t a b ∈ rr_changes r ↔
     dict_get t (index_points (pr_points (sc_parsed Toy.earlier))).1 = Some a ∧
     dict_get t (index_points (pr_points (sc_parsed Toy.later))).1 = Some b ∧ a ≠ b).
Proof.
  intros r. split; [vm_compute; reflexivity|]. split; [vm_compute; reflexivity|].
  exact (proj1 (changes_exact id Toy.earlier Toy.later eq_refl)).
Defined.

Lemma no_revision_same_points_witness :
  let swapped := Toy.copy_of (Toy.capture [("86400", "2e3"); ("0", "1.0")] "12") in
  value_revision (compare_copies id Toy.earlier swapped) = false ∧
  (value_revision (compare_copies id Toy.earlier swapped) = false ↔
   [mkPoint 0 "1.0"; mkPoint 86400 "2e3"] ≡ₚ [mkPoint 86400 "2e3"; mkPoint 0 "1.0"] ∧
   NoDup (map pt_t [mkPoint 0 "1.0"; mkPoint 86400 "2e3"]) ∧
   pr_error_text (sc_parsed Toy.earlier) = pr_error_text (sc_parsed swapped)).
Proof.
  intros swapped. split; [vm_compute; reflexivity|].
  apply (no_revision_same_points id Toy.earlier swapped); vm_compute; reflexivity.
Defined.

Lemma literals_survive_witness :
  parse_response 200 [] (print_points [("0", "1.50"); ("86400", "-2e-3")]) =
  Ok (mkParsed 200 None [] (print_points [("0", "1.50"); ("86400", "-2e-3")])
        (Some [mkPoint 0 "1.50"; mkPoint 86400 "-2e-3"]) None true [] []).
Proof.
  apply (literals_survive 200 [] [("0", "1.50"); ("86400", "-2e-3")] [0; 86400]).
  - intros c. vm_compute. discriminate.
  - repeat constructor.
Defined.
