(* ===== verification/Config.v ===== *)
(** * Which database a process talks to

    [quant/shared/config.py] over [config/db-targets.json]: loading the
    environment, choosing the target, resolving its fields and building the
    connection string.  The environment, the parameter store and the [.env] loader
    are parameters; the targets file is read in its declared shape. *)
From S2P Require Import Prelude PyFloat PyData Order Errors PyValue RefData Auth.
Local Open Scope string_scope.
Local Open Scope Z_scope.

(** One field of a target: its default and the variables that override it. *)
Record field_rule := mkRule { fr_default : option string; fr_env : list string }.
Record target_spec := mkTarget { ts_sslmode : string; ts_fields : list (string * field_rule) }.
Record db_targets := mkTargets { dt_default : string; dt_targets : list (string * target_spec) }.

Definition LOCAL : string := "local".
Definition PROD : string := "prod".
Definition LOOPBACK : list string := ["127.0.0.1"; "localhost"; "::1"].
Definition DEFAULT_REDIS_URL : string := "redis://localhost:6379".

(** [config/db-targets.json]: its targets *)
Definition local_target : target_spec :=
  mkTarget "disable"
    [("host", mkRule (Some "127.0.0.1") ["LOCAL_DB_HOST"]); ("port", mkRule (Some "5432") ["LOCAL_DB_PORT"]);
     ("dbname", mkRule (Some "quantdb") ["LOCAL_DB_NAME"]); ("user", mkRule (Some "quant_admin") ["LOCAL_DB_USER"]);
     ("password", mkRule (Some "LetsGetRich888") ["LOCAL_DB_PASSWORD"])].

Definition prod_target : target_spec :=
  mkTarget "require"
    [("host", mkRule (Some "127.0.0.1") ["QUANTDB_HOST"]);
     ("port", mkRule (Some "5433") ["PROD_DB_PORT"; "QUANTDB_PORT"]);
     ("dbname", mkRule (Some "quantdb") ["QUANTDB_NAME"]); ("user", mkRule (Some "quant_admin") ["QUANTDB_USERNAME"]);
     ("password", mkRule None ["QUANTDB_PASSWORD"])].

Definition shipped_targets : db_targets := mkTargets "prod" [("local", local_target); ("prod", prod_target)].

(** Where the environment is loaded from. *)
Class ConfigSources (W : Type) := {
  (** [SSM.get_parameters_by_path]: the pages of names and values that arrive, and
      the failure that cuts them short, if one does *)
  ssm_pages : string → prog W exn (list (list (string * string)) * option exn);
  load_dotenv : prog W exn unit;
  setup_logging : bool → prog W exn unit
}.

Section config.
Context {W : Type} `{Environ W} `{ConfigSources W}.
(** the targets file, or its absence *)
Context (targets_file : prog W exn (option db_targets)).

(** [os.environ.setdefault] *)
Definition env_setdefault (name value : string) : prog W exn unit :=
  v ← getenv name; match v with Some _ => mret tt | None => putenv name value end.

Fixpoint set_parameters (prefix : string) (params : list (string * string)) : prog W exn unit :=
  match params with
  | [] => mret tt
  | (name, value) :: params' =>
      _ ← env_setdefault (removeprefix prefix name) value; set_parameters prefix params'
  end.

(** [_load_from_ssm] *)
Definition load_from_ssm (env : string) : prog W exn unit :=
  let prefix := "/quant/" +:+ env +:+ "/" in
  pages ← ssm_pages prefix;
  _ ← set_parameters prefix (concat (fst pages));
  match snd pages with Some e => raise e | None => mret tt end.

(** [_ensure_connect_timeout] *)
Definition ensure_connect_timeout (conninfo : string) (seconds : Z) : string :=
  if str_contains "connect_timeout=" (lower conninfo) then conninfo
  else
    let ends_blank := match last (String.list_ascii_of_string conninfo) with
                      | Some c => bool_decide (c ∈ [" "%char; "010"%char; "009"%char])
                      | None => false
                      end in
    conninfo +:+ (if ends_blank then "" else " ") +:+ "connect_timeout=" +:+ str_Z seconds.

(** [_db_targets] *)
Definition the_targets : prog W exn db_targets :=
  spec ← targets_file;
  match spec with
  | Some spec => mret spec
  | None => raise (RuntimeError ("missing config/db-targets.json: it declares the local and prod databases " +:+
                                 "and must ship with the application"))
  end.

(** [db_target] *)
Definition db_target : prog W exn string :=
  spec ← the_targets;
  v ← getenv "DB_TARGET";
  let chosen := lower (strip (default "" v)) in
  let target := if String.eqb chosen "" then dt_default spec else chosen in
  match dict_get target (dt_targets spec) with
  | Some _ => mret target
  | None => raise (ValueError ("DB_TARGET must be one of " +:+
              String.concat ", " (sorted_by String.leb (map fst (dt_targets spec))) +:+ " — got " +:+ repr_str target))
  end.

(** The first variable that is set to something, or the default. *)
Fixpoint first_set (vars : list string) (dflt : option string) : prog W exn (option string) :=
  match vars with
  | [] => mret dflt
  | var :: vars' =>
      v ← getenv var;
      match v with Some (String c s) => mret (Some (String c s)) | _ => first_set vars' dflt end
  end.

Fixpoint resolve_fields (fields : list (string * field_rule)) (resolved : list (string * string))
    : prog W exn (list (string * string)) :=
  match fields with
  | [] => mret resolved
  | (field, rule) :: fields' =>
      value ← first_set (fr_env rule) (fr_default rule);
      resolve_fields fields' (dict_set field (default "" value) resolved)
  end.

(** [d[key]] *)
Definition key_of {V} (d : list (string * V)) (key : string) : res exn V :=
  match dict_get key d with Some v => Ok v | None => Raise (KeyError key) end.

(** [str(None)] is the text of a missing default *)
Definition default_text (rule : field_rule) : string := default "None" (fr_default rule).

(** the default port of a target *)
Definition port_default (spec : db_targets) (target : string) : res exn string :=
  t ← key_of (dt_targets spec) target; rule ← key_of (ts_fields t) "port"; mret (default_text rule).

(** [_reject_local_masquerading_as_prod] *)
Definition reject_local_masquerading_as_prod (resolved : list (string * string)) : prog W exn unit :=
  spec ← the_targets;
  local_port ← lift_res (port_default spec LOCAL);
  host ← lift_res (key_of resolved "host");
  if bool_decide (host ∈ LOOPBACK) then
    port ← lift_res (key_of resolved "port");
    if String.eqb port local_port then
      prod_port ← lift_res (port_default spec PROD);
      raise (ValueError ("DB_TARGET=prod resolved to " +:+ host +:+ ":" +:+ port +:+ ", which is the local database (port " +:+
        local_port +:+ "). Prod on a laptop goes through the SSM tunnel on port " +:+ prod_port +:+
        " — unset QUANTDB_PORT in .env, or set DB_TARGET=local if that is what you meant."))
    else mret tt
  else mret tt.

(** [db_settings] *)
Definition db_settings (target : option string) : prog W exn (list (string * string)) :=
  target ← match target with Some (String c s) => mret (String c s) | _ => db_target end;
  spec ← the_targets;
  t ← lift_res (key_of (dt_targets spec) target);
  resolved ← resolve_fields (ts_fields t) [("target", target); ("sslmode", ts_sslmode t)];
  _ ← (if String.eqb target PROD then reject_local_masquerading_as_prod resolved else mret tt);
  mret resolved.

(** the DSN of resolved settings *)
Definition dsn_of (settings : list (string * string)) : res exn string :=
  host ← key_of settings "host"; port ← key_of settings "port"; dbname ← key_of settings "dbname";
  user ← key_of settings "user"; password ← key_of settings "password"; sslmode ← key_of settings "sslmode";
  mret ("host=" +:+ host +:+ " port=" +:+ port +:+ " dbname=" +:+ dbname +:+ " user=" +:+ user +:+
        " password=" +:+ password +:+ " sslmode=" +:+ sslmode).

(** [_build_db_conninfo]; its log line reads four settings *)
Definition build_db_conninfo : prog W exn string :=
  settings ← db_settings None;
  literal ← getenv "QUANTDB_CONNINFO";
  raw ← match literal with
        | Some (String c s) => mret (String c s)
        | _ => lift_res (dsn_of settings)
        end;
  _ ← lift_res (_ ← key_of settings "target"; _ ← key_of settings "host"; _ ← key_of settings "port";
                _ ← key_of settings "dbname"; key_of settings "sslmode");
  timeout ← getenv "QUANTDB_CONNECT_TIMEOUT";
  sec ← lift_res (int_val (VStr (default "15" timeout)));
  mret (ensure_connect_timeout raw sec).

(** [get_redis_url] *)
Definition get_redis_url : prog W exn string := v ← getenv "REDIS_URL"; mret (default DEFAULT_REDIS_URL v).

(** [load_config] *)
Definition load_config (debug : bool) : prog W exn string :=
  _ ← setup_logging debug;
  use_ssm ← getenv "USE_SSM";
  _ ← (if String.eqb (strip (default "" use_ssm)) "1" then
         env ← getenv "APP_ENV";
         catch (load_from_ssm (default "dev" env)) (λ _, load_dotenv)
       else load_dotenv);
  build_db_conninfo.
End config.

(** ** What the environment resolves to *)

(** [os.environ]: [envs w n] is the variable [n]. *)
Class EnvLaws {W} `{Environ W} (envs : W → string → option string) := {
  getenv_reads n w : getenv n w = (Ok (envs w n), w);
  putenv_sets n v w : ∃ w', putenv n v w = (Ok tt, w') ∧ envs w' n = Some v ∧ ∀ m, m ≠ n → envs w' m = envs w m
}.

(** The first of some variables that is set to something, or the default. *)
Definition override (envs : string → option string) (vars : list string) (dflt : string) : string :=
  default dflt (head (filter (λ v, v ≠ "") (omap envs vars))).

(** The target a process asks for. *)
Definition asked (envs : string → option string) : string :=
  let t := lower (strip (default "" (envs "DB_TARGET"))) in if String.eqb t "" then "prod" else t.

Definition settings_of (target sslmode host port dbname user password : string) : list (string * string) :=
  [("target", target); ("sslmode", sslmode); ("host", host); ("port", port); ("dbname", dbname); ("user", user);
   ("password", password)].

Definition local_settings (envs : string → option string) : list (string * string) :=
  settings_of "local" "disable" (override envs ["LOCAL_DB_HOST"] "127.0.0.1") (override envs ["LOCAL_DB_PORT"] "5432")
    (override envs ["LOCAL_DB_NAME"] "quantdb") (override envs ["LOCAL_DB_USER"] "quant_admin")
    (override envs ["LOCAL_DB_PASSWORD"] "LetsGetRich888").

Definition prod_host (envs : string → option string) : string := override envs ["QUANTDB_HOST"] "127.0.0.1".
Definition prod_port (envs : string → option string) : string := override envs ["PROD_DB_PORT"; "QUANTDB_PORT"] "5433".
Definition prod_settings (envs : string → option string) : list (string * string) :=
  settings_of "prod" "require" (prod_host envs) (prod_port envs) (override envs ["QUANTDB_NAME"] "quantdb")
    (override envs ["QUANTDB_USERNAME"] "quant_admin") (override envs ["QUANTDB_PASSWORD"] "").

Section resolved.
Context {W : Type} `{EnvLaws W envs} `{ConfigSources W} (file : prog W exn (option db_targets)).
Hypothesis file_shipped : ∀ w, file w = (Ok (Some shipped_targets), w).

Lemma targets_read w : the_targets file w = (Ok shipped_targets, w).
Proof. unfold the_targets. by rewrite (bind_ok _ _ _ _ _ (file_shipped w)). Qed.

Lemma getenv_bind {A} n (f : option string → prog W exn A) w : (v ← getenv n; f v) w = f (envs w n) w.
Proof. by rewrite (bind_ok _ _ _ _ _ (getenv_reads n w)). Qed.

Lemma first_set_eq vars dflt w :
  first_set vars dflt w = (Ok (match head (filter (λ v, v ≠ "") (omap (envs w) vars)) with Some v => Some v | None => dflt end), w).
Proof.
  induction vars as [|var vars IH]; [done|]. cbn [first_set omap list_omap]. rewrite getenv_bind.
  destruct (envs w var) as [[|c s]|]; [|done|exact IH]. rewrite filter_cons_False by tauto. exact IH.
Qed.

Lemma resolve_cons field rule fields resolved w : resolve_fields ((field, rule) :: fields) resolved w =
  resolve_fields fields (dict_set field (override (envs w) (fr_env rule) (default "" (fr_default rule))) resolved) w.
Proof.
  cbn [resolve_fields]. rewrite (bind_ok _ _ _ _ _ (first_set_eq _ _ _)). unfold override. by destruct (head _).
Qed.

Lemma db_target_eq w : db_target file w =
  match dict_get (asked (envs w)) (dt_targets shipped_targets) with
  | Some _ => (Ok (asked (envs w)), w)
  | None => (Raise (ValueError ("DB_TARGET must be one of local, prod — got " +:+ repr_str (asked (envs w)))), w)
  end.
Proof.
  unfold db_target. rewrite (bind_ok _ _ _ _ _ (targets_read w)), getenv_bind. unfold asked. cbv zeta.
  change (dt_default shipped_targets) with "prod".
  by destruct (dict_get (if _ : bool then "prod" else _) (dt_targets shipped_targets)).
Qed.

Lemma target_cases t : dict_get t (dt_targets shipped_targets) =
  if decide (t = "local") then Some local_target else if decide (t = "prod") then Some prod_target else None.
Proof. reflexivity. Qed.

Lemma db_target_raises w : asked (envs w) ≠ "local" → asked (envs w) ≠ "prod" → ∃ e, db_target file w = (Raise e, w).
Proof. intros Hl Hp. rewrite db_target_eq, target_cases, !decide_False by done. eauto. Qed.

Lemma resolve_local w : resolve_fields (ts_fields local_target) [("target", "local"); ("sslmode", "disable")] w =
  (Ok (local_settings (envs w)), w).
Proof. unfold local_target, ts_fields. by rewrite !resolve_cons. Qed.

Lemma resolve_prod w : resolve_fields (ts_fields prod_target) [("target", "prod"); ("sslmode", "require")] w =
  (Ok (prod_settings (envs w)), w).
Proof. unfold prod_target, ts_fields. by rewrite !resolve_cons. Qed.

Lemma reject_eq w resolved host port : dict_get "host" resolved = Some host → dict_get "port" resolved = Some port →
  ∃ e, reject_local_masquerading_as_prod file resolved w =
    (if bool_decide (host ∈ LOOPBACK ∧ port = "5432") then Raise e else Ok tt, w).
Proof.
  intros Hh Hp. eexists. unfold reject_local_masquerading_as_prod. rewrite (bind_ok _ _ _ _ _ (targets_read w)).
  unfold key_of. rewrite Hh, Hp, !lift_bind. change (port_default shipped_targets LOCAL) with (Ok (E := exn) "5432").
  cbv iota beta. rewrite lift_bind. case_bool_decide as Hin.
  - rewrite lift_bind. destruct (String.eqb_spec port "5432") as [->|Hne].
    + rewrite bool_decide_true by done. rewrite lift_bind. reflexivity.
    + by rewrite bool_decide_false by tauto.
  - by rewrite bool_decide_false by tauto.
Qed.

Lemma db_settings_local w : asked (envs w) = "local" → db_settings file None w = (Ok (local_settings (envs w)), w).
Proof.
  intros Ht. unfold db_settings. rewrite (bind_ok _ _ w "local" w).
  2: { by rewrite db_target_eq, Ht. }
  rewrite (bind_ok _ _ _ _ _ (targets_read w)), lift_bind.
  change (key_of (dt_targets shipped_targets) "local") with (Ok (E := exn) local_target). cbv iota beta.
  by rewrite (bind_ok _ _ _ _ _ (resolve_local w)).
Qed.

Lemma db_settings_prod w : asked (envs w) = "prod" → ∃ e, db_settings file None w =
  (if bool_decide (prod_host (envs w) ∈ LOOPBACK ∧ prod_port (envs w) = "5432") then Raise e
   else Ok (prod_settings (envs w)), w).
Proof.
  intros Ht. destruct (reject_eq w (prod_settings (envs w)) _ _ eq_refl eq_refl) as [e He]. exists e.
  unfold db_settings. rewrite (bind_ok _ _ w "prod" w).
  2: { by rewrite db_target_eq, Ht. }
  rewrite (bind_ok _ _ _ _ _ (targets_read w)), lift_bind.
  change (key_of (dt_targets shipped_targets) "prod") with (Ok (E := exn) prod_target). cbv iota beta.
  rewrite (bind_ok _ _ _ _ _ (resolve_prod w)). change (String.eqb "prod" PROD) with true. cbv iota.
  case_bool_decide; [by rewrite (bind_raise _ _ _ _ _ He)|by rewrite (bind_ok _ _ _ _ _ He)].
Qed.

Lemma db_settings_unknown w : asked (envs w) ≠ "local" → asked (envs w) ≠ "prod" →
  ∃ e, db_settings file None w = (Raise e, w).
Proof.
  intros Hl Hp. destruct (db_target_raises w Hl Hp) as [e He]. exists e. unfold db_settings. by rewrite (bind_raise _ _ _ _ _ He).
Qed.

(** C23. A process is given settings exactly when its target is declared, and they
    are that target's: for [local] the local entry, for [prod] the prod entry, each
    field the first of its own variables that is set to something or else its
    default.  [prod] is refused precisely when its host is loopback and its port is
    the declared default of the local database, 5432, whatever port the environment
    moved the local database to; any other target is refused, and resolving changes
    nothing. *)
Theorem settings_are_the_targets w r w' : db_settings file None w = (Ok r, w') ↔
  w' = w ∧ ((asked (envs w) = "local" ∧ r = local_settings (envs w)) ∨
            (asked (envs w) = "prod" ∧ r = prod_settings (envs w) ∧
             ¬ (prod_host (envs w) ∈ LOOPBACK ∧ prod_port (envs w) = "5432"))).
Proof.
  destruct (decide (asked (envs w) = "local")) as [Hl|Hl].
  { rewrite (db_settings_local w Hl), Hl. split; [by intros [= <- <-]; auto|]. by intros [-> [[_ ->] | [? _]]]. }
  destruct (decide (asked (envs w) = "prod")) as [Hp|Hp].
  - destruct (db_settings_prod w Hp) as [e ->]. rewrite Hp. case_bool_decide as Hb.
    + split; [done|]. by intros [_ [[? _] | (_ & _ & ?)]].
    + split; [by intros [= <- <-]; auto|]. by intros [-> [[? _] | (_ & -> & _)]].
  - destruct (db_settings_unknown w Hl Hp) as [e ->]. split; [done|]. tauto.
Qed.
End resolved.

Section loading.
Context {W : Type} `{EnvLaws W envs} `{ConfigSources W} (file : prog W exn (option db_targets)).

Lemma env_setdefault_eq name value w : ∃ w', env_setdefault name value w = (Ok tt, w') ∧
  ∀ n, envs w' n = match envs w n with Some v => Some v | None => if decide (n = name) then Some value else None end.
Proof.
  unfold env_setdefault. rewrite (bind_ok _ _ _ _ _ (getenv_reads name w)).
  destruct (envs w name) as [v|] eqn:E.
  - exists w. split; [done|]. intros n. destruct (envs w n) eqn:En; [done|]. case_decide; congruence.
  - destruct (putenv_sets name value w) as (w' & -> & Hn & Hne). exists w'. split; [done|].
    intros n. case_decide as Hd; [subst; by rewrite Hn, E|]. rewrite (Hne n Hd). by destruct (envs w n).
Qed.

Lemma set_parameters_eq prefix params : ∀ w, ∃ w', set_parameters prefix params w = (Ok tt, w') ∧
  ∀ n, envs w' n = match envs w n with
                   | Some v => Some v
                   | None => dict_get n (map (λ kv, (removeprefix prefix kv.1, kv.2)) params)
                   end.
Proof.
  induction params as [|[name value] params IH]; intros w; cbn [set_parameters].
  - exists w. split; [done|]. intros n. by destruct (envs w n).
  - destruct (env_setdefault_eq (removeprefix prefix name) value w) as (w1 & E1 & Hw1).
    destruct (IH w1) as (w2 & E2 & Hw2). exists w2. rewrite (bind_ok _ _ _ _ _ E1). split; [done|].
    intros n. rewrite Hw2, Hw1. cbn. destruct (envs w n); [done|]. by case_decide.
Qed.

(** Loading from the parameter store fills the gaps of the environment and nothing
    else: a variable that is set keeps its value, one that is not takes the first
    parameter of its name among the pages that arrived, also when a later page
    fails. *)
Theorem ssm_fills_gaps env w r w' pages failure w1 :
  ssm_pages ("/quant/" +:+ env +:+ "/") w = (Ok (pages, failure), w1) → envs w1 = envs w →
  load_from_ssm env w = (r, w') →
  r = match failure with Some e => Raise e | None => Ok tt end ∧
  ∀ n, envs w' n = match envs w n with
                   | Some v => Some v
                   | None => dict_get n (map (λ kv, (removeprefix ("/quant/" +:+ env +:+ "/") kv.1, kv.2)) (concat pages))
                   end.
Proof.
  intros Hp Hw1. unfold load_from_ssm. rewrite (bind_ok _ _ _ _ _ Hp). cbn [fst snd].
  destruct (set_parameters_eq ("/quant/" +:+ env +:+ "/") (concat pages) w1) as (w2 & E2 & Hw2).
  rewrite (bind_ok _ _ _ _ _ E2). rewrite Hw1 in Hw2. by destruct failure; intros [= <- <-].
Qed.

Lemma timeout_ensured conninfo sec : str_contains "connect_timeout=" (lower (ensure_connect_timeout conninfo sec)) = true.
Proof.
  unfold ensure_connect_timeout. destruct (str_contains "connect_timeout=" (lower conninfo)) eqn:E; [done|].
  cbv zeta. rewrite (lower_app conninfo). apply str_contains_app_r. rewrite lower_app. apply str_contains_app_r.
  rewrite lower_app. apply (str_contains_prefix "connect_timeout=").
Qed.

(** No connection waits for ever: the string [load_config] hands out names a
    connect timeout, whatever it was built from. *)
Theorem connection_is_bounded debug w conninfo w' : load_config file debug w = (Ok conninfo, w') →
  str_contains "connect_timeout=" (lower conninfo) = true.
Proof.
  unfold load_config, build_db_conninfo. intros Hl.
  repeat (apply bind_inv in Hl as (? & ? & _ & Hl)). injection Hl as <- _. apply timeout_ensured.
Qed.
End loading.

(** ** Concrete environments *)
Module config_example.

Definition world := list (string * string).

#[export] Instance world_env : Environ world := {|
  getenv n := λ w, (Ok (dict_get n w), w);
  putenv n v := λ w, (Ok tt, dict_set n v w)
|}.

#[export] Instance world_laws : EnvLaws (W := world) (λ w n, dict_get n w).
Proof.
  split; [done|]. intros n v w. exists (dict_set n v w). split; [done|]. split; [apply dict_get_set|].
  intros m Hm. by apply dict_get_set_ne.
Qed.

(** Two pages arrive, the third does not. *)
#[export] Instance world_sources : ConfigSources world := {|
  ssm_pages prefix := λ w,
    (Ok ([[(prefix +:+ "QUANTDB_HOST", "db.internal"); (prefix +:+ "DB_TARGET", "local")];
          [(prefix +:+ "QUANTDB_PORT", "5432")]], Some (RuntimeError "throttled")), w);
  load_dotenv := mret tt;
  setup_logging _ := mret tt
|}.

Definition shipped : prog world exn (option db_targets) := mret (Some shipped_targets).

End config_example.
Import config_example.

(** A stale port makes prod the local database: refused; on the host it is not. *)
Example stale_port : ∃ e, db_settings shipped None [("QUANTDB_PORT", "5432")] = (Raise (ValueError e), [("QUANTDB_PORT", "5432")]).
Proof. eexists. vm_compute. reflexivity. Qed.

(** The guard compares with the declared port of the local database, not with
    the one it resolves to: once both ports are overridden alike, settings
    labelled prod are given for the very address of the local database. *)
Example prod_on_a_moved_local_port :
  let env target := [("DB_TARGET", target); ("LOCAL_DB_PORT", "6000"); ("QUANTDB_PORT", "6000")] in
  ∃ prod local, db_settings shipped None (env "prod") = (Ok prod, env "prod") ∧
    db_settings shipped None (env "local") = (Ok local, env "local") ∧
    dict_get "target" prod = Some "prod" ∧
    dict_get "host" prod = dict_get "host" local ∧ dict_get "port" prod = dict_get "port" local ∧
    dict_get "dbname" prod = dict_get "dbname" local.
Proof. do 2 eexists. by split_and!. Qed.

Lemma settings_are_the_targets_witness :
  ∃ r, db_settings shipped None [("QUANTDB_HOST", "db.internal"); ("QUANTDB_PORT", "5432")] =
    (Ok r, [("QUANTDB_HOST", "db.internal"); ("QUANTDB_PORT", "5432")]) ∧ dict_get "host" r = Some "db.internal".
Proof.
  eexists. split; [|shelve].
  apply (settings_are_the_targets shipped (λ w, eq_refl)). split; [done|]. right. split; [reflexivity|].
  split; [reflexivity|]. by apply (bool_decide_unpack _).
  Unshelve. reflexivity.
Defined.

Lemma ssm_fills_gaps_witness : ∃ w', load_from_ssm "prod" [("DB_TARGET", "prod")] = (Raise (RuntimeError "throttled"), w') ∧
  dict_get "DB_TARGET" w' = Some "prod" ∧ dict_get "QUANTDB_PORT" w' = Some "5432".
Proof.
  eexists. split; [reflexivity|].
  edestruct (ssm_fills_gaps (W := world) "prod" [("DB_TARGET", "prod")]) as [_ Hw];
    [cbv; reflexivity|reflexivity|cbv; reflexivity|].
  split; [exact (Hw "DB_TARGET")|exact (Hw "QUANTDB_PORT")].
Defined.

Lemma connection_is_bounded_witness : ∃ s, load_config shipped false [("USE_SSM", "1"); ("APP_ENV", "prod")] = s ∧
  ∃ c w', s = (Ok c, w') ∧ str_contains "connect_timeout=" (lower c) = true.
Proof.
  eexists. split; [reflexivity|]. do 2 eexists. split; [vm_compute; reflexivity|].
  eapply (connection_is_bounded shipped false [("USE_SSM", "1"); ("APP_ENV", "prod")]). vm_compute. reflexivity.
Defined.
