(* ===== verification/Repos.v ===== *)
(** * The repositories over the gateway

    [quant/queue/repo.py], [promotion/repo.py], [api/auth/repo.py],
    [api/credentials/repo.py] and [api/admin/repo.py]: the statement each
    repository sends, the arguments in the order of its placeholders and what is
    read off the answer.  A row is the [pyval] the gateway gives; [uuid4] and
    [json.dumps] are parameters. *)
From S2P Require Import Prelude PyFloat PyData Order Errors PyValue RefData Auth Database.
Local Open Scope string_scope.
Local Open Scope Z_scope.

(** [uuid.uuid4], and [json.dumps] *)
Class RepoLib (W : Type) := {
  uuid4 : prog W exn string;
  dumps : pyval → string
}.

(** [str(v)] and [int(v)] of an argument that may be missing: the [_opt] of the
    queue repository *)
Definition opt_text (v : option string) : pyval := match v with Some s => VStr s | None => VNone end.
Definition opt_int (v : option Z) : pyval := match v with Some z => VInt z | None => VNone end.

(** [int(tail[i])] *)
Definition int_item (tail : list pyval) (i : nat) : res exn Z := v ← item tail i; int_val v.

(** [int(tail[i]) if tail else 0] *)
Definition int_item_or_zero (tail : list pyval) (i : nat) : res exn Z :=
  match tail with [] => Ok 0 | _ => int_item tail i end.

(** [StaleConnectionSweep] *)
Record StaleConnectionSweep := mkSweep { sweep_stale : Z; sweep_terminated : Z }.

Definition DEFAULT_STALE_IDLE_SECONDS : Z := 3600.

Section repos.
Context {W : Type} `{Driver W} `{Log W} `{RepoLib W} (conninfo user_id : string).

(** ** [BtQueueRepo] *)

(** [sp_get_queue] *)
Definition repo_get_queue (queue_id strategy_id : option string) (queue_status_id : option Z) (user : option string)
    (limit : Z) : prog W exn (list pyval) :=
  call_get conninfo
    ("CALL bt.sp_get_queue(" +:+
     "%s::uuid, %s::uuid, %s::integer, %s::text, %s::integer," +:+
     " NULL::refcursor, NULL::text, NULL::text, NULL::text)")
    [opt_text queue_id; opt_text strategy_id; opt_int queue_status_id; opt_text user; VInt limit].

(** [sp_get_queue_latest] *)
Definition repo_get_queue_latest (queue_id : string) : prog W exn (option pyval) :=
  call_get_one conninfo "CALL bt.sp_get_queue_latest(%s::uuid, NULL, NULL, NULL, NULL)" [VStr queue_id].

(** [sp_ins_queue] *)
Definition repo_ins_queue (queue_id strategy_id : string) (strategy_vid status_id priority : Z) (user : string)
    (error_text : option string) : prog W exn unit :=
  _ ← call_write conninfo
    ("CALL bt.sp_ins_queue(" +:+
     "%s::uuid, %s::uuid, %s::integer, %s::integer, %s::integer, %s::text, %s::text," +:+
     " NULL::text, NULL::text, NULL::text)")
    [VStr queue_id; VStr strategy_id; VInt strategy_vid; VInt status_id; VInt priority; opt_text error_text; VStr user];
  mret tt.

(** [(resolved_id, new_vid) = tail] *)
Definition two_of (tail : list pyval) : res exn (pyval * pyval) :=
  match tail with
  | [a; b] => Ok (a, b)
  | [] | [_] => Raise (ValueError ("not enough values to unpack (expected 2, got " +:+
                                   str_Z (Z.of_nat (length tail)) +:+ ")"))
  | _ => Raise (ValueError "too many values to unpack (expected 2)")
  end.

(** [sp_ins_strategy] *)
Definition repo_ins_strategy (strategy_nm : string) (config_json : pyval) (user : string) (strategy_id : option string)
    : prog W exn (string * Z) :=
  tail ← call_write conninfo
    ("CALL bt.sp_ins_strategy(" +:+
     "%s::uuid, %s::text, %s::jsonb, %s::text," +:+
     " NULL::text, NULL::text, NULL::text, NULL::uuid, NULL::integer)")
    [opt_text strategy_id; VStr strategy_nm; VStr (dumps config_json); VStr user];
  lift_res ('(resolved_id, new_vid) ← two_of tail;
            sid ← uuid_of (VStr (str_val resolved_id));
            vid ← int_val new_vid;
            mret (sid, vid)).

(** the [work] of [sp_get_queued_count]: the count comes before the status *)
Definition count_work (sql : string) (params : list pyval) : prog W exn Z :=
  _ ← pg_execute sql params;
  row ← pg_fetchone;
  match row with
  | Some (count :: sqlstate :: _ :: sqlerrmc :: _) =>
      if negb (is_str "00000" sqlstate) then raise (procedure_error sqlstate sqlerrmc)
      else match count with VNone => mret 0 | _ => lift_res (int_val count) end
  | _ => raise (RuntimeError "SP_GET_QUEUED_COUNT returned invalid OUT row")
  end.

(** [sp_get_queued_count] *)
Definition repo_get_queued_count (user : string) (queued_status_id : Z) : prog W exn Z :=
  run_cursor conninfo
    (count_work
       ("CALL bt.sp_get_queued_count(" +:+
        "%s::text, %s::integer," +:+
        " NULL::integer, NULL::text, NULL::text, NULL::text)")
       [VStr user; VInt queued_status_id]).

(** [list_for_user] *)
Definition repo_list_for_user (user : string) (limit : Z) : prog W exn (list pyval) :=
  repo_get_queue None None None (Some user) limit.

(** [get_active] *)
Definition repo_get_active (queue_id : string) (user : option string) : prog W exn (option pyval) :=
  rows ← repo_get_queue (Some queue_id) None None user 50; mret (last rows).

(** [sp_get_result] *)
Definition repo_get_result (queue_id strategy_id : option string) (strategy_vid : option Z)
    : prog W exn (option pyval) :=
  call_get_one conninfo
    ("CALL bt.sp_get_result(" +:+
     "%s::uuid, %s::uuid, %s::integer," +:+
     " NULL::refcursor, NULL::text, NULL::text, NULL::text)")
    [opt_text queue_id; opt_text strategy_id; opt_int strategy_vid].

(** [sp_get_strategy] *)
Definition repo_get_strategy (strategy_id : string) (strategy_vid : option Z) (is_best_ind : option string)
    : prog W exn (list pyval) :=
  call_get conninfo
    ("CALL bt.sp_get_strategy(" +:+
     "%s::uuid, %s::integer, %s::char," +:+
     " NULL::refcursor, NULL::text, NULL::text, NULL::text)")
    [VStr strategy_id; opt_int strategy_vid; opt_text is_best_ind].

(** [sp_get_strategy_list] *)
Definition repo_get_strategy_list (user : string) (limit : Z) (is_best_ind : option string) : prog W exn (list pyval) :=
  call_get conninfo
    ("CALL bt.sp_get_strategy_list(" +:+
     "%s::text, %s::integer, %s::char," +:+
     " NULL::refcursor, NULL::text, NULL::text, NULL::text)")
    [VStr user; VInt limit; opt_text is_best_ind].

(** [sp_upd_strategy_logical_delete] *)
Definition repo_upd_strategy_logical_delete (strategy_id logical_delete_ind user : string) (strategy_vid : option Z)
    : prog W exn unit :=
  _ ← call_write conninfo
    ("CALL bt.sp_upd_strategy_logical_delete(" +:+
     "%s::uuid, %s::integer, %s::char, %s::text," +:+
     " NULL::text, NULL::text, NULL::text)")
    [VStr strategy_id; opt_int strategy_vid; VStr logical_delete_ind; VStr user];
  mret tt.

(** ** [PromotionRepo] *)

(** [sp_get_promotion]; an empty id is the global log *)
Definition repo_get_promotion (strategy_id : option string) (limit : Z) : prog W exn (list pyval) :=
  call_get conninfo
    ("CALL bt.sp_get_promotion(" +:+
     "%s::uuid, %s::integer," +:+
     " NULL::refcursor, NULL::text, NULL::text, NULL::text)")
    [match strategy_id with Some (String c s) => VStr (String c s) | _ => VNone end; VInt limit].

(** [flip_best] *)
Definition repo_flip_best (strategy_id : string) (strategy_vid : option Z) (user : string) : prog W exn unit :=
  _ ← call_write conninfo
    ("CALL bt.sp_upd_promote_strategy(" +:+
     "%s::uuid, %s::integer, %s::text," +:+
     " NULL::text, NULL::text, NULL::text)")
    [VStr strategy_id; opt_int strategy_vid; VStr user];
  mret tt.

(** [ins_promotion] *)
Definition repo_ins_promotion (queue_id strategy_id : string) (strategy_vid : Z) (outcome user : string)
    (compared_vid : option Z) (gate_results : list pyval) : prog W exn unit :=
  fresh ← uuid4;
  _ ← call_write conninfo
    ("CALL bt.sp_ins_promotion(" +:+
     "%s::uuid, %s::uuid, %s::uuid, %s::integer, %s::text," +:+
     " %s::integer, %s::jsonb, %s::text," +:+
     " NULL::text, NULL::text, NULL::text)")
    [VStr fresh; VStr queue_id; VStr strategy_id; VInt strategy_vid; VStr outcome; opt_int compared_vid;
     match gate_results with [] => VNone | _ => VStr (dumps (VList gate_results)) end; VStr user];
  mret tt.

(** ** [AuthRepo] *)

(** [get_user_by_username] *)
Definition repo_get_user_by_username (username : string) : prog W exn (option pyval) :=
  call_get_one conninfo "CALL CORE_ADMIN.SP_GET_APP_USER_BY_USERNAME(%s, NULL, NULL, NULL, NULL)" [VStr username].

(** [get_user_by_id] *)
Definition repo_get_user_by_id (app_user_id : string) : prog W exn (option pyval) :=
  call_get_one conninfo "CALL CORE_ADMIN.SP_GET_APP_USER_BY_ID(%s, NULL, NULL, NULL, NULL)" [VStr app_user_id].

(** [update_last_login] *)
Definition repo_update_last_login (app_user_id : string) : prog W exn unit :=
  _ ← call_write conninfo "CALL CORE_ADMIN.SP_UPD_APP_USER_LAST_LOGIN(%s, NULL, NULL, NULL)" [VStr app_user_id];
  mret tt.

(** ** [ApiCredentialRepo] *)

(** [list_credentials] *)
Definition repo_list_credentials (app_user_id : string) : prog W exn (list pyval) :=
  call_get conninfo "CALL CORE_ADMIN.SP_GET_API_CREDENTIAL(%s, NULL, NULL, NULL, NULL, NULL)" [VStr app_user_id].

(** [get_credential] *)
Definition repo_get_credential (app_user_id : string) (api_credential_id : Z) : prog W exn (option pyval) :=
  call_get_one conninfo "CALL CORE_ADMIN.SP_GET_API_CREDENTIAL(%s, %s, NULL, NULL, NULL, NULL)"
    [VStr app_user_id; VInt api_credential_id].

(** [credential_check] *)
Definition repo_credential_check (api_credential_id : Z) : prog W exn (option pyval) :=
  call_get_one conninfo
    ("CALL CORE_ADMIN.SP_GET_CREDENTIAL_CHECK(" +:+
     "%s::integer, NULL::refcursor, NULL::text, NULL::text, NULL::text)")
    [VInt api_credential_id].

(** [insert_credential] *)
Definition repo_insert_credential (app_user_id : string) (app_id : Z) (label key_ciphertext secret_ciphertext : string)
    (api_credential_id : option Z) : prog W exn (Z * Z) :=
  tail ← call_write conninfo
    ("CALL CORE_ADMIN.SP_INS_API_CREDENTIAL(" +:+
     "%s, %s, %s, %s, %s, %s, NULL, NULL, NULL, NULL, NULL" +:+
     ")")
    [VStr app_user_id; VInt app_id; VStr label; VStr key_ciphertext; VStr secret_ciphertext; opt_int api_credential_id];
  lift_res (i ← int_item tail 0; vid ← int_item tail 1; mret (i, vid)).

(** [revoke_credential] *)
Definition repo_revoke_credential (app_user_id : string) (api_credential_id : Z) : prog W exn Z :=
  tail ← call_write conninfo
    ("CALL CORE_ADMIN.SP_UPD_API_CREDENTIAL_REVOKE(" +:+
     "%s, %s, NULL, NULL, NULL, NULL" +:+
     ")")
    [VStr app_user_id; VInt api_credential_id];
  lift_res (int_item tail 0).

(** ** Maintenance *)

(** [ConnectionMaintenanceRepo.terminate_stale_connections] *)
Definition repo_terminate_stale_connections (idle_seconds : Z) : prog W exn StaleConnectionSweep :=
  tail ← call_write conninfo
    ("CALL CORE_ADMIN.SP_TERM_STALE_CONNECTIONS(" +:+
     "%s::text, %s::integer, NULL::text, NULL::text, NULL::text," +:+
     " NULL::integer, NULL::integer)")
    [VStr user_id; VInt idle_seconds];
  match tail with
  | [] => mret (mkSweep 0 0)
  | _ => lift_res (stale ← int_item tail 0; terminated ← int_item tail 1; mret (mkSweep stale terminated))
  end.

(** [ApiRequestPayloadRepo.detach] *)
Definition repo_detach (retention_days : Z) : prog W exn Z :=
  tail ← call_write conninfo
    ("CALL MARKET_DATA.SP_DETACH_API_REQUEST_PAYLOAD(" +:+
     "%s::integer, NULL::text, NULL::text, NULL::text, NULL::integer)")
    [VInt retention_days];
  lift_res (int_item_or_zero tail 0).

(** [LogProcRepo.summarize] *)
Definition repo_summarize (retention_days : Z) : prog W exn Z :=
  tail ← call_write conninfo
    "CALL CORE_ADMIN.SP_INS_LOG_PROC_SUMMARY(%s, %s, NULL, NULL, NULL, NULL)"
    [VStr user_id; VInt retention_days];
  lift_res (int_item_or_zero tail 0).
End repos.

(** ** The procedures deployed *)

(** The types of a procedure's parameters, those it takes and those it answers. *)
Record procedure := mkProcedure { sp_in : list string; sp_out : list string }.

Definition SP_GET_QUEUE : string * procedure :=
  ("bt.sp_get_queue", mkProcedure ["uuid"; "uuid"; "integer"; "text"; "integer"] ["refcursor"; "text"; "text";
   "text"]).
Definition SP_GET_QUEUE_LATEST : string * procedure :=
  ("bt.sp_get_queue_latest", mkProcedure ["uuid"] ["refcursor"; "text"; "text"; "text"]).
Definition SP_INS_QUEUE : string * procedure :=
  ("bt.sp_ins_queue", mkProcedure ["uuid"; "uuid"; "integer"; "integer"; "integer"; "text"; "text"] ["text";
   "text"; "text"]).
Definition SP_INS_STRATEGY : string * procedure :=
  ("bt.sp_ins_strategy", mkProcedure ["uuid"; "text"; "jsonb"; "text"] ["text"; "text"; "text"; "uuid"; "integer"]).
Definition SP_GET_QUEUED_COUNT : string * procedure :=
  ("bt.sp_get_queued_count", mkProcedure ["text"; "integer"] ["integer"; "text"; "text"; "text"]).
Definition SP_GET_RESULT : string * procedure :=
  ("bt.sp_get_result", mkProcedure ["uuid"; "uuid"; "integer"] ["refcursor"; "text"; "text"; "text"]).
Definition SP_GET_STRATEGY : string * procedure :=
  ("bt.sp_get_strategy", mkProcedure ["uuid"; "integer"; "char"] ["refcursor"; "text"; "text"; "text"]).
Definition SP_GET_STRATEGY_LIST : string * procedure :=
  ("bt.sp_get_strategy_list", mkProcedure ["text"; "integer"; "char"] ["refcursor"; "text"; "text"; "text"]).
Definition SP_UPD_STRATEGY_LOGICAL_DELETE : string * procedure :=
  ("bt.sp_upd_strategy_logical_delete", mkProcedure ["uuid"; "integer"; "char"; "text"] ["text"; "text"; "text"]).
Definition SP_GET_PROMOTION : string * procedure :=
  ("bt.sp_get_promotion", mkProcedure ["uuid"; "integer"] ["refcursor"; "text"; "text"; "text"]).
Definition SP_UPD_PROMOTE_STRATEGY : string * procedure :=
  ("bt.sp_upd_promote_strategy", mkProcedure ["uuid"; "integer"; "text"] ["text"; "text"; "text"]).
Definition SP_INS_PROMOTION : string * procedure :=
  ("bt.sp_ins_promotion", mkProcedure ["uuid"; "uuid"; "uuid"; "integer"; "text"; "integer"; "jsonb";
   "text"] ["text"; "text"; "text"]).
Definition SP_GET_APP_USER_BY_USERNAME : string * procedure :=
  ("core_admin.sp_get_app_user_by_username", mkProcedure ["text"] ["refcursor"; "text"; "text"; "text"]).
Definition SP_GET_APP_USER_BY_ID : string * procedure :=
  ("core_admin.sp_get_app_user_by_id", mkProcedure ["uuid"] ["refcursor"; "text"; "text"; "text"]).
Definition SP_UPD_APP_USER_LAST_LOGIN : string * procedure :=
  ("core_admin.sp_upd_app_user_last_login", mkProcedure ["uuid"] ["text"; "text"; "text"]).
Definition SP_GET_API_CREDENTIAL : string * procedure :=
  ("core_admin.sp_get_api_credential", mkProcedure ["uuid"; "integer"] ["refcursor"; "text"; "text"; "text"]).
Definition SP_GET_CREDENTIAL_CHECK : string * procedure :=
  ("core_admin.sp_get_credential_check", mkProcedure ["integer"] ["refcursor"; "text"; "text"; "text"]).
Definition SP_INS_API_CREDENTIAL : string * procedure :=
  ("core_admin.sp_ins_api_credential", mkProcedure ["uuid"; "integer"; "text"; "text"; "text";
   "integer"] ["text"; "text"; "text"; "integer"; "integer"]).
Definition SP_UPD_API_CREDENTIAL_REVOKE : string * procedure :=
  ("core_admin.sp_upd_api_credential_revoke", mkProcedure ["uuid"; "integer"] ["text"; "text"; "text"; "integer"]).
Definition SP_TERM_STALE_CONNECTIONS : string * procedure :=
  ("core_admin.sp_term_stale_connections", mkProcedure ["text"; "integer"] ["text"; "text"; "text"; "integer";
   "integer"]).
Definition SP_DETACH_API_REQUEST_PAYLOAD : string * procedure :=
  ("market_data.sp_detach_api_request_payload", mkProcedure ["integer"] ["text"; "text"; "text"; "integer"]).
Definition SP_INS_LOG_PROC_SUMMARY : string * procedure :=
  ("core_admin.sp_ins_log_proc_summary", mkProcedure ["text"; "integer"] ["text"; "text"; "text"; "integer"]).

Definition signatures : list (string * procedure) :=
  [SP_GET_QUEUE; SP_GET_QUEUE_LATEST; SP_INS_QUEUE; SP_INS_STRATEGY; SP_GET_QUEUED_COUNT; SP_GET_RESULT;
   SP_GET_STRATEGY; SP_GET_STRATEGY_LIST; SP_UPD_STRATEGY_LOGICAL_DELETE; SP_GET_PROMOTION;
   SP_UPD_PROMOTE_STRATEGY; SP_INS_PROMOTION; SP_GET_APP_USER_BY_USERNAME; SP_GET_APP_USER_BY_ID;
   SP_UPD_APP_USER_LAST_LOGIN; SP_GET_API_CREDENTIAL; SP_GET_CREDENTIAL_CHECK; SP_INS_API_CREDENTIAL;
   SP_UPD_API_CREDENTIAL_REVOKE; SP_TERM_STALE_CONNECTIONS; SP_DETACH_API_REQUEST_PAYLOAD;
   SP_INS_LOG_PROC_SUMMARY].


(** ** What is sent *)

(** The arguments written between the parentheses of a call. *)
Definition call_args (sql : string) : list string :=
  match String.index 0 "(" sql with
  | Some i => map strip (split_on ","%char (String.substring (i + 1) (String.length sql - i - 2) sql))
  | None => []
  end.

(** A placeholder or [NULL], cast to the declared type if it is cast at all. *)
Definition written (text type arg : string) : bool := String.eqb arg text || String.eqb arg (text +:+ "::" +:+ type).
Definition arg_fits (filled : bool) (type arg : string) : bool :=
  written "NULL" type arg || filled && written "%s" type arg.

(** A call fits a procedure: an argument per parameter, in order, placeholders
    for parameters that are taken only, one value per placeholder. *)
Definition call_fits (p : procedure) (sql : string) (values : nat) : bool :=
  let args := call_args sql in
  (length args =? length (sp_in p) + length (sp_out p))%nat
  && forallb id (zip_with (arg_fits true) (sp_in p) args)
  && forallb id (zip_with (arg_fits false) (sp_out p) (drop (length (sp_in p)) args))
  && (length (List.filter (String.prefix "%s") args) =? values)%nat.

(** A statement with the number of its values: a cursor's end without values, or a
    call that fits the deployed procedure of its name. *)
Definition statement_fits (s : string * nat) : bool :=
  ((s.2 =? 0)%nat && (String.prefix "FETCH ALL FROM " s.1 || String.prefix "CLOSE " s.1))
  || match dict_get (lower (proc_name_from_sql s.1)) signatures with
     | Some p => call_fits p s.1 s.2
     | None => false
     end.

(** The driver with what it was asked to execute. *)
Definition sent_driver {W} (D : Driver W) : Driver (W * list (string * nat)) := {|
  pg_borrow c := unlogged (pg_borrow c);
  pg_commit := unlogged pg_commit;
  pg_rollback := unlogged pg_rollback;
  pg_execute q ps := logged (λ _, (q, length ps)) (pg_execute q ps);
  pg_fetchone := unlogged pg_fetchone;
  pg_fetchall := unlogged pg_fetchall;
  pg_columns := unlogged pg_columns
|}.
Definition sent_log {W} (G : Log W) : Log (W * list (string * nat)) := {| log_line t ps := unlogged (log_line t ps) |}.
Definition sent_lib {W} (L : RepoLib W) : RepoLib (W * list (string * nat)) := {| uuid4 := unlogged uuid4; dumps := dumps |}.

(** Any call of a repository. *)
Inductive repo_op :=
| OpGetQueue (queue_id strategy_id : option string) (status : option Z) (user : option string) (limit : Z)
| OpGetQueueLatest (queue_id : string)
| OpInsQueue (queue_id strategy_id : string) (vid status priority : Z) (user : string) (error : option string)
| OpInsStrategy (nm : string) (config : pyval) (user : string) (sid : option string)
| OpQueuedCount (user : string) (status : Z)
| OpGetActive (queue_id : string) (user : option string)
| OpGetResult (queue_id strategy_id : option string) (vid : option Z)
| OpGetStrategy (sid : string) (vid : option Z) (best : option string)
| OpStrategyList (user : string) (limit : Z) (best : option string)
| OpLogicalDelete (sid ind user : string) (vid : option Z)
| OpGetPromotion (sid : option string) (limit : Z)
| OpFlipBest (sid : string) (vid : option Z) (user : string)
| OpInsPromotion (qid sid : string) (vid : Z) (outcome user : string) (compared : option Z) (gates : list pyval)
| OpUserByName (username : string)
| OpUserById (i : string)
| OpLastLogin (i : string)
| OpListCredentials (i : string)
| OpGetCredential (i : string) (c : Z)
| OpCredentialCheck (c : Z)
| OpInsertCredential (i : string) (app : Z) (label key secret : string) (c : option Z)
| OpRevokeCredential (i : string) (c : Z)
| OpTerminateStale (idle : Z)
| OpDetach (days : Z)
| OpSummarize (days : Z).

Definition run_repo_op {W} `{Driver W} `{Log W} `{RepoLib W} (conninfo user_id : string) (o : repo_op) : prog W exn unit :=
  let done {A} (m : prog W exn A) := _ ← m; mret tt in
  match o with
  | OpGetQueue q s st u l => done (repo_get_queue conninfo q s st u l)
  | OpGetQueueLatest q => done (repo_get_queue_latest conninfo q)
  | OpInsQueue q s v st p u e => done (repo_ins_queue conninfo q s v st p u e)
  | OpInsStrategy n c u s => done (repo_ins_strategy conninfo n c u s)
  | OpQueuedCount u s => done (repo_get_queued_count conninfo u s)
  | OpGetActive q u => done (repo_get_active conninfo q u)
  | OpGetResult q s v => done (repo_get_result conninfo q s v)
  | OpGetStrategy s v b => done (repo_get_strategy conninfo s v b)
  | OpStrategyList u l b => done (repo_get_strategy_list conninfo u l b)
  | OpLogicalDelete s i u v => done (repo_upd_strategy_logical_delete conninfo s i u v)
  | OpGetPromotion s l => done (repo_get_promotion conninfo s l)
  | OpFlipBest s v u => done (repo_flip_best conninfo s v u)
  | OpInsPromotion q s v o u c g => done (repo_ins_promotion conninfo q s v o u c g)
  | OpUserByName u => done (repo_get_user_by_username conninfo u)
  | OpUserById i => done (repo_get_user_by_id conninfo i)
  | OpLastLogin i => done (repo_update_last_login conninfo i)
  | OpListCredentials i => done (repo_list_credentials conninfo i)
  | OpGetCredential i c => done (repo_get_credential conninfo i c)
  | OpCredentialCheck c => done (repo_credential_check conninfo c)
  | OpInsertCredential i a l k s c => done (repo_insert_credential conninfo i a l k s c)
  | OpRevokeCredential i c => done (repo_revoke_credential conninfo i c)
  | OpTerminateStale n => done (repo_terminate_stale_connections conninfo user_id n)
  | OpDetach n => done (repo_detach conninfo n)
  | OpSummarize n => done (repo_summarize conninfo user_id n)
  end.

Lemma close_fits (x : string) : statement_fits ("CLOSE " +:+ x, 0%nat) = true.
Proof. unfold statement_fits. cbv beta iota delta [fst snd Nat.eqb]. by rewrite (prefix_app "CLOSE " x), orb_true_r. Qed.

Lemma fetch_fits (x : string) : statement_fits ("FETCH ALL FROM " +:+ x, 0%nat) = true.
Proof. unfold statement_fits. cbv beta iota delta [fst snd Nat.eqb]. by rewrite (prefix_app "FETCH ALL FROM " x). Qed.

Section sent.
Context {W : Type} (D : Driver W) (G : Log W) (L : RepoLib W) (conninfo user_id : string).
#[local] Existing Instance sent_driver.
#[local] Existing Instance sent_log.
#[local] Existing Instance sent_lib.

Definition all_fit (s : W * list (string * nat)) : Prop := Forall (λ x, statement_fits x = true) s.2.

Lemma unlogged_fits {A} (m : prog W exn A) : preserves all_fit (unlogged m).
Proof. intros [w tr]. unfold unlogged. cbn. by destruct (m w). Qed.

Lemma execute_fits sql params : statement_fits (sql, length params) = true → preserves all_fit (pg_execute sql params).
Proof.
  intros Hs [w tr] Htr. cbn. unfold logged, all_fit in *. cbn in *. destruct (pg_execute sql params w) as [r w'].
  cbn. apply Forall_app. split; [done|]. by repeat constructor.
Qed.

Lemma attempt_fits {A} (m : prog (W * list (string * nat)) exn A) : preserves all_fit m → preserves all_fit (attempt m).
Proof. intros Hm w Hw. specialize (Hm w Hw). unfold attempt. by destruct (m w) as [[?|?] w']. Qed.

Lemma cursor_fits {A} (work : prog (W * list (string * nat)) exn A) :
  preserves all_fit work → preserves all_fit (run_cursor conninfo work).
Proof.
  intros Hw. unfold run_cursor. apply preserves_bind; [apply unlogged_fits|]. intros _.
  apply preserves_bind; [by apply attempt_fits|]. intros [a|e]; (apply preserves_bind; [|intros ?; auto with preserves]).
  - apply unlogged_fits.
  - apply attempt_fits, unlogged_fits.
Qed.

Lemma get_fits sql params : statement_fits (sql, length params) = true → preserves all_fit (call_get conninfo sql params).
Proof.
  intros Hs. apply cursor_fits. unfold get_work.
  apply preserves_bind; [by apply execute_fits|intros _]. apply preserves_bind; [apply unlogged_fits|intros [row|]]; [|auto with preserves].
  apply preserves_bind; [auto with preserves|intros c]. apply preserves_bind; [auto with preserves|intros st].
  apply preserves_if.
  - apply preserves_bind; [apply (execute_fits _ []), close_fits|intros _].
    apply preserves_bind; [auto with preserves|intros m]. apply preserves_bind; [apply unlogged_fits|auto with preserves].
  - apply preserves_bind; [apply (execute_fits _ []), fetch_fits|intros _].
    apply preserves_bind; [apply unlogged_fits|intros cols]. apply preserves_bind; [auto with preserves|intros names].
    apply preserves_bind; [apply unlogged_fits|intros rows].
    apply preserves_bind; [apply (execute_fits _ []), close_fits|intros _].
    apply preserves_bind; [apply unlogged_fits|auto with preserves].
Qed.

Lemma get_one_fits sql params : statement_fits (sql, length params) = true →
  preserves all_fit (call_get_one conninfo sql params).
Proof. intros Hs. apply preserves_bind; [by apply get_fits|auto with preserves]. Qed.

Lemma write_fits sql params : statement_fits (sql, length params) = true → preserves all_fit (call_write conninfo sql params).
Proof.
  intros Hs. apply preserves_bind.
  - apply cursor_fits. unfold write_work. apply preserves_bind; [by apply execute_fits|intros _].
    assert (∀ e t, preserves all_fit (_ ← log_line t (redact params); raise e : prog (W * list (string * nat)) exn (list pyval)))
      as Hfail by (intros e t; apply preserves_bind; [apply unlogged_fits|auto with preserves]).
    apply preserves_bind; [apply unlogged_fits|intros [[|st [|m [|x tail]]]|]]; try apply Hfail.
    apply preserves_if; [apply Hfail|auto with preserves].
  - intros tail. apply preserves_bind; [apply unlogged_fits|auto with preserves].
Qed.

Lemma count_fits sql params : statement_fits (sql, length params) = true →
  preserves all_fit (run_cursor conninfo (count_work sql params)).
Proof.
  intros Hs. apply cursor_fits. apply preserves_bind; [by apply execute_fits|intros _].
  apply preserves_bind; [apply unlogged_fits|intros [[|c [|st [|m [|x tail]]]]|]]; try apply preserves_raise.
  apply preserves_if; [auto with preserves|]. destruct c; auto with preserves.
Qed.

Ltac head_of m := lazymatch m with ?f _ => head_of f | _ => m end.

(** Every statement a repository sends fits the procedure deployed under its
    name: one argument for each parameter, placeholders only for those it takes,
    each cast to its declared type, and exactly one value for each placeholder; what
    else is sent fetches from or closes a cursor and carries no value. *)
Theorem calls_fit_procedures o w tr : Forall (λ x, statement_fits x = true) tr →
  Forall (λ x, statement_fits x = true) (run_repo_op conninfo user_id o (w, tr)).2.2.
Proof.
  intros Htr. revert w tr Htr. enough (preserves all_fit (run_repo_op conninfo user_id o)) as Hp.
  { intros w tr Htr. exact (Hp (w, tr) Htr). }
  destruct o; apply preserves_bind; try (intros ?; apply preserves_ret).
  all: repeat match goal with
    | |- preserves _ (call_get _ _ _) => apply get_fits; vm_compute; reflexivity
    | |- preserves _ (call_get_one _ _ _) => apply get_one_fits; vm_compute; reflexivity
    | |- preserves _ (call_write _ _ _) => apply write_fits; vm_compute; reflexivity
    | |- preserves _ (run_cursor _ (count_work _ _)) => apply count_fits; vm_compute; reflexivity
    | |- preserves _ (_ ≫= _) => apply preserves_bind; [|intros ?]
    | |- preserves _ (lift_res _) => apply preserves_lift
    | |- preserves _ (mret _) => apply preserves_ret
    | |- preserves _ uuid4 => apply unlogged_fits
    | |- preserves _ (match _ with _ => _ end) => case_match
    | |- preserves _ ?m => progress (let h := head_of m in unfold h)
    end.
Qed.
End sent.

(** ** The count that precedes its status *)

Section count.
Context {W : Type} (D : Driver W) (conninfo : string).
#[local] Existing Instance traced_driver.

(** What the body of the count did, by how it ended. *)
Definition counted (new : list db_event) (r : res exn Z) : Prop :=
  (∀ n, r = Ok n → ∃ c m e rest, ERow (Ok (Some (c :: VStr "00000" :: m :: e :: rest))) ∈ new ∧
     (c = VNone ∧ n = 0 ∨ c ≠ VNone ∧ int_val c = Ok n)) ∧
  (∀ c st m e rest, ERow (Ok (Some (c :: st :: m :: e :: rest))) ∈ new → st ≠ VStr "00000" →
     r = Raise (procedure_error st e)).

Lemma count_work_did sql params w tr :
  ∃ new, (count_work sql params (w, tr)).2.2 = (tr ++ new)%list ∧ endings new = [] ∧
    counted new (count_work sql params (w, tr)).1.
Proof.
  unfold count_work. cbn [pg_execute pg_fetchone traced_driver]. rewrite logged_bind.
  destruct (pg_execute sql params w) as [[[]|e] w1]; cbn [fst snd].
  2: { exists [EExec sql (Raise e)]. split_and!; [done|done|]. split; [done|]. by intros ? ? ? ? ? [?|[]%elem_of_nil]%elem_of_cons. }
  rewrite logged_bind. destruct (pg_fetchone w1) as [[row|e] w2]; cbn [fst snd]; rewrite <-app_assoc.
  2: { exists [EExec sql (Ok tt); ERow (Raise e)]. split_and!; [done|done|]. split; [done|].
       by intros ? ? ? ? ? [?|?]%elem_of_pair_ev. }
  exists [EExec sql (Ok tt); ERow (Ok row)]. cbn [app].
  destruct row as [[|c [|st [|m [|x tail]]]]|].
  1,2,3,4,6: (split_and!; [done|done|]; split; [done|]; intros ? ? ? ? ? [?|?]%elem_of_pair_ev; simplify_eq).
  destruct (is_str "00000" st) eqn:Est; cbn [negb].
  - apply is_str_true in Est. subst st.
    assert (∀ r, (∀ n, r = Ok n → c = VNone ∧ n = 0 ∨ c ≠ VNone ∧ int_val c = Ok n) →
      counted [EExec sql (Ok tt); ERow (Ok (Some (c :: VStr "00000" :: m :: x :: tail)))] r) as Hc.
    { intros r Hr. split.
      - intros n Hn. exists c, m, x, tail. split; [right; left|by apply Hr].
      - intros ? ? ? ? ? [?|?]%elem_of_pair_ev; simplify_eq. done. }
    destruct c; split_and!; try done; apply Hc; intros n Hn; cbn in Hn; simplify_eq; by auto.
  - split_and!; [done|done|]. split; [done|]. intros ? ? ? ? ? [?|?]%elem_of_pair_ev; simplify_eq. done.
Qed.

(** The count of queued jobs is read before the status, and means something only
    with it: a number is answered and committed just when the procedure reported
    success, a missing count being none, and a refusal is rolled back and raised as
    the procedure's own error. *)
Theorem queued_count_follows_status user status w tr :
  let '(r, s') := repo_get_queued_count conninfo user status (w, tr) in
  ∃ new, s'.2 = (tr ++ new)%list ∧
    (∀ n, r = Ok n → endings new = [ECommit (Ok tt)] ∧
       ∃ c m e rest, ERow (Ok (Some (c :: VStr "00000" :: m :: e :: rest))) ∈ new ∧
         (c = VNone ∧ n = 0 ∨ c ≠ VNone ∧ int_val c = Ok n)) ∧
    (∀ c st m e rest, ERow (Ok (Some (c :: st :: m :: e :: rest))) ∈ new → st ≠ VStr "00000" →
       r = Raise (procedure_error st e) ∧ ∃ q, endings new = [ERollback q]).
Proof.
  unfold repo_get_queued_count. match goal with |- context [count_work ?q ?p] => set (sql := q); set (params := p) end.
  assert (∀ x, ∃ new, (count_work sql params x).2.2 = (x.2 ++ new)%list) as Hw.
  { intros [v t]. destruct (count_work_did sql params v t) as (new & Hn & _). by exists new. }
  pose proof (run_cursor_ends D conninfo _ w tr Hw) as Hrun.
  destruct (run_cursor conninfo _ (w, tr)) as [r s']. destruct Hrun as (new & Hn & Hcases).
  exists new. split; [done|]. destruct Hcases as [(e & -> & ->)|(w1 & rw & w2 & wn & Hwork & Hend)].
  { split; [done|]. by intros ? ? ? ? ? [?|?%elem_of_nil]%elem_of_cons. }
  destruct (count_work_did sql params w1 (tr ++ [EBorrow (Ok tt)])%list) as (wn' & Hwn & He & Hok & Hbad).
  rewrite Hwork in Hwn, Hok, Hbad. cbn [fst snd] in Hwn, Hok, Hbad. apply app_inv_head in Hwn as <-.
  assert (∀ row e, (∀ q, e ≠ ERow q) → ERow row ∈ EBorrow (Ok tt) :: wn ++ [e] → ERow row ∈ wn) as Hin.
  { intros row e Hne. rewrite elem_of_cons, elem_of_app, list_elem_of_singleton. intros [?|[?|Hx]]; [done|done|]. by destruct (Hne row). }
  destruct rw as [a|e]; destruct Hend as (q & -> & ->); rewrite endings_around by done.
  - split.
    + intros n. destruct q as [[]|?]; [|done]. intros [= <-]. split; [done|].
      destruct (Hok a eq_refl) as (c & m & e & rest & Hc & Hv). exists c, m, e, rest. split; [|done].
      right. apply elem_of_app. by left.
    + intros c st m e rest Hc%(Hin _ (ECommit q)) Hne; [|done]. by specialize (Hbad _ _ _ _ _ Hc Hne).
  - split; [done|]. intros c st m e' rest Hc%(Hin _ (ERollback q)) Hne; [|done]. split; [|by eexists].
    by apply (Hbad _ _ _ _ _ Hc Hne).
Qed.
End count.
