(* ===== verification/Strategies.v ===== *)
(** * The strategy catalog and the job routes

    [quant/api/services/strategies.py], [api/services/promotion.py] and the routes of
    [api/routers/strategies.py], [jobs.py] and [promotion.py]: what a user may read
    and change of a strategy, which status each refusal gets, and the stream of a
    job's states.  The catalog is read and written through a class the repositories
    implement; response models are built outside. *)
From S2P Require Import Prelude PyFloat PyData Order Errors PyValue RefData Auth Queue Database Repos.
Local Open Scope string_scope.
Local Open Scope Z_scope.

(** What the service asks of the repositories. *)
Class StrategyStore (W : Type) := {
  (** [sp_get_queue(strategy_id=..., user_id=..., limit=1)] *)
  st_queue_rows : string → string → prog W exn (list pyval);
  st_strategy : string → Z → prog W exn (list pyval);
  st_strategy_list : string → Z → option string → prog W exn (list pyval);
  st_result_payload : string → Z → prog W exn pyval;
  (** [PromotionRepo.flip_best], where the service was given a promotion repository *)
  st_flip_best : option (string → Z → string → prog W exn unit);
  st_logical_delete : string → string → string → option Z → prog W exn unit
}.

Definition StrategyNotFound (msg : string) : exn := plain CStrategyNotFound msg.

(** [json.loads] of a text, with its [JSONDecodeError] *)
Class JsonLoads := { loads : string → res exn pyval }.

(** [_as_object] *)
Definition as_object `{JsonLoads} (value : pyval) : res exn pyval :=
  match value with
  | VStr s => parsed ← loads s; mret match parsed with VDict d => VDict d | _ => VNone end
  | VDict d => mret (VDict d)
  | _ => mret VNone
  end.

Section service.
Context {W : Type} `{StrategyStore W} `{JsonLoads}.

(** [_require_owned_lineage] *)
Definition require_owned_lineage (user strategy_id : string) : prog W exn unit :=
  rows ← st_queue_rows strategy_id user;
  match rows with [] => raise (StrategyNotFound strategy_id) | _ => mret tt end.

(** [get_result] *)
Definition get_result (strategy_id : string) (strategy_vid : Z) : prog W exn pyval :=
  rows ← st_strategy strategy_id strategy_vid;
  match rows with
  | [] => raise (StrategyNotFound ("strategy " +:+ strategy_id +:+ " v" +:+ str_Z strategy_vid +:+ " not found"))
  | row :: _ =>
      sid ← lift_res (getitem "strategy_id" row);
      vid ← lift_res (getitem "strategy_vid" row);
      nm ← lift_res (get "strategy_nm" row);
      config ← lift_res (c ← get "config_json" row; as_object c);
      result ← st_result_payload strategy_id strategy_vid;
      mret (VDict [("strategy_id", sid); ("strategy_vid", vid); ("strategy_nm", nm); ("config_json", config);
                   ("result", result)])
  end.

(** [list_strategies] *)
Definition list_strategies (user : string) (limit : Z) (versions : string) : prog W exn (list pyval) :=
  st_strategy_list user limit (if String.eqb versions "best" then Some "Y" else None).

(** [promote] *)
Definition promote (user strategy_id : string) (strategy_vid : Z) : prog W exn unit :=
  _ ← require_owned_lineage user strategy_id;
  match st_flip_best with
  | None => raise (RuntimeError "PromotionRepo not configured")
  | Some flip_best => flip_best strategy_id strategy_vid user
  end.

(** [set_logical_delete] *)
Definition set_logical_delete (user strategy_id ind : string) (strategy_vid : option Z) : prog W exn unit :=
  _ ← require_owned_lineage user strategy_id;
  st_logical_delete strategy_id ind user strategy_vid.

(** ** The routes over strategies *)

(** [except ... as exc: raise HTTPException(status, detail=str(exc)) from exc], for
    the classes named *)
Definition answer_to (clauses : list (exn_class * Z)) (e : exn) : exn :=
  match List.find (λ c, isinstance e c.1) clauses with
  | Some (_, status) => HTTPException status (exn_msg e)
  | None => e
  end.
Definition answering {A} (clauses : list (exn_class * Z)) (m : prog W exn A) : prog W exn A :=
  catch m (λ e, raise (answer_to clauses e)).

(** [GET /strategies]: the limit is bounded by the query *)
Definition list_strategies_route (user : CurrentUser) (limit : Z) (versions : string) : prog W exn (list pyval) :=
  list_strategies (cu_id user) limit versions.

(** [GET /strategies/{strategy_id}/result]; the user is asked for and not used *)
Definition get_strategy_result_route (_user : CurrentUser) (strategy_id : string) (strategy_vid : Z) : prog W exn pyval :=
  answering [(CStrategyNotFound, 404)] (get_result strategy_id strategy_vid).

(** [POST /backtest/jobs/strategies/{strategy_id}/promote] *)
Definition promote_route (user : CurrentUser) (strategy_id : string) (strategy_vid : Z) : prog W exn pyval :=
  _ ← answering [(CStrategyNotFound, 404)] (promote (cu_id user) strategy_id strategy_vid);
  mret (VDict [("strategy_id", VStr strategy_id); ("promoted_vid", VInt strategy_vid)]).

(** [LogicalDeleteRequest]: nothing stands for a refused body *)
Definition logical_delete_request (ind : string) : option string :=
  if bool_decide (ind ∈ ["Y"; "N"]) then Some ind else None.

(** [POST /backtest/jobs/strategies/{strategy_id}/logical-delete] *)
Definition logical_delete_route (user : CurrentUser) (strategy_id ind : string) (strategy_vid : option Z)
    : prog W exn pyval :=
  _ ← answering [(CStrategyNotFound, 404)] (set_logical_delete (cu_id user) strategy_id ind strategy_vid);
  mret (VDict [("strategy_id", VStr strategy_id); ("logical_delete_ind", VStr ind); ("strategy_vid", opt_int strategy_vid)]).
End service.

Lemma answering_eq {W A} clauses (m : prog W exn A) w : answering clauses m w =
  let '(r, w') := m w in (match r with Ok a => Ok a | Raise e => Raise (answer_to clauses e) end, w').
Proof. unfold answering, catch. by destruct (m w) as [[?|?] w']. Qed.

(** ** The routes over jobs *)

Section jobs.
Context {W : Type} `{QueueDb W} `{JobsEnv W} (int_of : pyval → res exn Z).

(** [EnqueueRequest]: the bounds of its name *)
Definition enqueue_request (strategy_nm : string) (config_json : pyval) (priority : string) : option EnqueueRequest :=
  if length_between 1 200 strategy_nm then Some (mkEnqueue strategy_nm config_json priority) else None.

Definition enqueue_route (user : CurrentUser) (req : EnqueueRequest) : prog W exn EnqueueResponse :=
  answering [(CStrategyNameMismatch, 400); (CUnknownPriority, 400); (CRateLimitError, 429)]
    (enqueue int_of (cu_id user) req).

Definition get_job_route (user : CurrentUser) (queue_id : string) : prog W exn (queue_row * option pyval) :=
  answering [(CJobNotFound, 404)] (get_job (cu_id user) queue_id).

Definition cancel_route (user : CurrentUser) (queue_id : string) : prog W exn queue_row :=
  answering [(CJobNotFound, 404); (CCancelNotAllowed, 409)] (cancel (cu_id user) queue_id).

Definition reenqueue_route (user : CurrentUser) (queue_id : string) : prog W exn EnqueueResponse :=
  answering [(CJobNotFound, 404); (CReenqueueNotAllowed, 409); (CRateLimitError, 429)] (reenqueue (cu_id user) queue_id).
End jobs.

(** ** The stream of a job's states *)

(** What [snapshot_status] answers: id, version, status, its id and the error. *)
Definition snapshot : Type := string * Z * string * Z * option string.
Definition snap_vid (s : snapshot) : Z := s.1.1.1.2.
Definition snap_status (s : snapshot) : string := s.1.1.2.

Definition SSE_POLL_INTERVAL_S : float := of_Z 1.
Definition TERMINAL : list string := ["COMPLETED"; "FAILED"; "CANCELLED"].

Inductive sse_event := SseNotFound | SseStatus (s : snapshot).

(** What is sent for an event; [dumps] is [json.dumps]. *)
Definition sse_text (dumps : pyval → string) (e : sse_event) : string :=
  let text name data := "event: " +:+ name +:+ "
data: " +:+ data +:+ "

" in
  match e with
  | SseNotFound => text "error" (dumps (VDict [("detail", VStr "not_found")]))
  | SseStatus (i, vid, status, sid, error) =>
      text "status" (dumps (VDict [("queue_id", VStr i); ("queue_vid", VInt vid); ("queue_status", VStr status);
                                   ("queue_status_id", VInt sid); ("error_text", opt_text error)]))
  end.

Section stream.
Context {W : Type} (poll : prog W exn (option snapshot)) (sleep : float → prog W exn unit).

(** [gen]: what the first [n] passes of its loop yield, and whether it returned *)
Fixpoint stream_events (n : nat) (last_vid : Z) : prog W exn (list sse_event * bool) :=
  match n with
  | O => mret ([], false)
  | S n' =>
      snap ← poll;
      match snap with
      | None => mret ([SseNotFound], true)
      | Some s =>
          let yielded := if snap_vid s =? last_vid then [] else [SseStatus s] in
          if bool_decide (snap_status s ∈ TERMINAL) then mret (yielded, true)
          else
            _ ← sleep SSE_POLL_INTERVAL_S;
            '(rest, ended) ← stream_events n' (snap_vid s);
            mret ((yielded ++ rest)%list, ended)
      end
  end.
End stream.

(** [stream_events]: the versions start below any *)
Definition job_events {W} `{QueueDb W} (sleep : float → prog W exn unit) (user : CurrentUser) (queue_id : string) (n : nat)
    : prog W exn (list sse_event * bool) :=
  stream_events (snapshot_status (cu_id user) queue_id) sleep n (-1).

(** ** The repositories as the store *)

Section repositories.
Context {W : Type} `{Driver W} `{Log W} `{RepoLib W} `{JsonLoads} (conninfo : string).

(** [fetch_result_payload] *)
Definition repo_result_payload (strategy_id : string) (strategy_vid : Z) : prog W exn pyval :=
  result ← repo_get_result conninfo None (Some strategy_id) (Some strategy_vid);
  match result with
  | None => mret VNone
  | Some r =>
      if negb (truthy r) then mret VNone
      else
        payload ← lift_res (get "payload_json" r);
        if negb (truthy payload) then mret VNone
        else match payload with VStr s => lift_res (loads s) | _ => mret payload end
  end.

(** [get_strategies_service]: both repositories over one database *)
Definition repo_store : StrategyStore W := {|
  st_queue_rows strategy_id user := repo_get_queue conninfo None (Some strategy_id) None (Some user) 1;
  st_strategy strategy_id vid := repo_get_strategy conninfo strategy_id (Some vid) None;
  st_strategy_list user limit best := repo_get_strategy_list conninfo user limit best;
  st_result_payload := repo_result_payload;
  st_flip_best := Some (λ strategy_id vid user, repo_flip_best conninfo strategy_id (Some vid) user);
  st_logical_delete strategy_id ind user vid := repo_upd_strategy_logical_delete conninfo strategy_id ind user vid
|}.

(** [PromotionService.list_promotions], and its route *)
Definition list_promotions (strategy_id : option string) (limit : Z) : prog W exn (list pyval) :=
  repo_get_promotion conninfo strategy_id limit.
Definition list_promotions_route (_user : CurrentUser) (strategy_id : option string) (limit : Z)
    : prog W exn (list pyval) := list_promotions strategy_id limit.
End repositories.

(** ** What the lifecycle routes do *)

(** A call of the store, with its answer. *)
Inductive store_event :=
| ELook (strategy_id user : string) (r : res exn (list pyval))
| EFlip (strategy_id : string) (vid : Z) (user : string) (r : res exn unit)
| EHide (strategy_id ind user : string) (vid : option Z) (r : res exn unit)
| ERead (user : option string).

Definition traced_store {W} (S : StrategyStore W) : StrategyStore (W * list store_event) := {|
  st_queue_rows s u := logged (ELook s u) (st_queue_rows s u);
  st_strategy s v := logged (λ _, ERead None) (st_strategy s v);
  st_strategy_list u l b := logged (λ _, ERead (Some u)) (st_strategy_list u l b);
  st_result_payload s v := logged (λ _, ERead None) (st_result_payload s v);
  st_flip_best := option_map (λ flip s v u, logged (EFlip s v u) (flip s v u)) st_flip_best;
  st_logical_delete s i u v := logged (EHide s i u v) (st_logical_delete s i u v)
|}.

(** The two writes a user may ask for. *)
Inductive lifecycle := Promote (vid : Z) | Hide (ind : string) (vid : option Z).

Definition lifecycle_route {W} `{StrategyStore W} (user : CurrentUser) (sid : string) (c : lifecycle)
    : prog W exn pyval :=
  match c with
  | Promote vid => promote_route user sid vid
  | Hide ind vid => logical_delete_route user sid ind vid
  end.

Definition write_event (user : CurrentUser) (sid : string) (c : lifecycle) (r : res exn unit) : store_event :=
  match c with Promote vid => EFlip sid vid (cu_id user) r | Hide ind vid => EHide sid ind (cu_id user) vid r end.

(** A promotion asked of a service that was built without a promotion repository. *)
Definition unconfigured {W} (S : StrategyStore W) (c : lifecycle) : bool :=
  match c, st_flip_best with Promote _, None => true | _, _ => false end.

Section owned.
Context {W : Type} (S : StrategyStore W).
#[local] Existing Instance traced_store.

(** What follows the ownership query, by its answer: a raised query ends it, no row
    is a 404, and a row lets [after] happen. *)
Definition gated {B} (sid : string) (look : res exn (list pyval)) (rest : list store_event) (r : res exn B)
    (after : Prop) : Prop :=
  match look with
  | Raise e => rest = [] ∧ ∃ e', r = Raise e'
  | Ok [] => rest = [] ∧ r = Raise (HTTPException 404 sid)
  | Ok _ => after
  end.

Lemma gated_run user sid (m : prog (W * list store_event) exn unit) w tr :
  let '(r, s') := answering [(CStrategyNotFound, 404)] (_ ← require_owned_lineage user sid; m) (w, tr) in
  ∃ look w1, let asked := (tr ++ [ELook sid user look])%list in
  (∃ rows, look = Ok rows ∧ rows ≠ [] ∧ (r, s') = answering [(CStrategyNotFound, 404)] m (w1, asked)) ∨
  (s'.2 = asked ∧ ∀ after, gated sid look [] r after) ∧ (∃ e, r = Raise e).
Proof.
  rewrite answering_eq. unfold require_owned_lineage. cbn [st_queue_rows traced_store].
  rewrite bind_assoc, logged_bind. destruct (st_queue_rows sid user w) as [[[|x rows]|e] w1]; cbn [fst snd].
  - rewrite (bind_raise (raise (StrategyNotFound sid)) _ _ _ _ eq_refl). exists (Ok []), w1. right. by split; [|eexists].
  - rewrite mret_bind. destruct (m (w1, _)) as [q s2] eqn:E. exists (Ok (x :: rows)), w1. left. exists (x :: rows).
    split_and!; [done..|]. by rewrite answering_eq, E.
  - exists (Raise e), w1. right. split; [|by eexists]. split; [done|]. split; [done|]. by eexists.
Qed.

Lemma write_answered (ev : res exn unit → store_event) (m : prog W exn unit) w tr :
  ∃ q w', answering [(CStrategyNotFound, 404)] (logged ev m) (w, tr) = 
    (match q with Ok _ => Ok tt | Raise e => Raise (answer_to [(CStrategyNotFound, 404)] e) end, (w', (tr ++ [ev q])%list)).
Proof. rewrite answering_eq, logged_eq. destruct (m w) as [[[]|e] w']; [by exists (Ok tt), w'|by exists (Raise e), w']. Qed.

(** C38. A user changes the lifecycle only of strategies they enqueued: promoting or
    hiding one asks first for a queue row of that strategy under that user; without
    one the answer is 404 and nothing is written, with one exactly the write asked
    for is made in the user's name, and if asking fails nothing is written either.
    An owner's promotion on a service without a promotion repository writes nothing
    and fails with the [RuntimeError] that says so. *)
Theorem lifecycle_needs_ownership user sid c w tr :
  let '(r, s') := lifecycle_route user sid c (w, tr) in
  ∃ look rest, s'.2 = (tr ++ ELook sid (cu_id user) look :: rest)%list ∧
  match look with
  | Raise e => rest = [] ∧ ∃ e', r = Raise e'
  | Ok [] => rest = [] ∧ r = Raise (HTTPException 404 sid)
  | Ok _ =>
      if unconfigured S c then rest = [] ∧ r = Raise (plain CRuntimeError "PromotionRepo not configured")
      else ∃ q, rest = [write_event user sid c q] ∧ ((∃ v, r = Ok v) ↔ q = Ok tt)
  end.
Proof.
  assert (∀ (m : prog (W * list store_event) exn unit) (v : pyval) s,
    (m ≫= λ _, mret v) s = (match (m s).1 with Ok _ => Ok v | Raise e => Raise e end, (m s).2)) as Hb.
  { intros m v s. destruct (m s) as [[[]|e] s'] eqn:Hm; [by rewrite (bind_ok _ _ _ _ _ Hm)|by rewrite (bind_raise _ _ _ _ _ Hm)]. }
  assert (∀ m (v : pyval),
    (∀ w1 tr1, let '(q, s1) := answering [(CStrategyNotFound, 404)] m (w1, tr1) in
      if unconfigured S c then s1.2 = tr1 ∧ q = Raise (plain CRuntimeError "PromotionRepo not configured")
      else ∃ a, s1.2 = (tr1 ++ [write_event user sid c a])%list ∧ (q = Ok tt ↔ a = Ok tt)) →
    let '(r, s') := (answering [(CStrategyNotFound, 404)] (_ ← require_owned_lineage (cu_id user) sid; m) ≫= λ _, mret v) (w, tr) in
    ∃ look rest, s'.2 = (tr ++ ELook sid (cu_id user) look :: rest)%list ∧
      gated sid look rest r (if unconfigured S c then rest = [] ∧ r = Raise (plain CRuntimeError "PromotionRepo not configured")
        else ∃ q, rest = [write_event user sid c q] ∧ ((∃ v, r = Ok v) ↔ q = Ok tt))) as Hgate.
  { intros m v Hm. rewrite Hb. pose proof (gated_run (cu_id user) sid m w tr) as Hg.
    revert Hg. generalize (answering [(CStrategyNotFound, 404)] (_ ← require_owned_lineage (cu_id user) sid; m) (w, tr)).
    intros [r s'] Hg; cbn [fst snd].
    destruct Hg as (look & w1 & [(rows & -> & Hne & Heq)|[[Hs Hl] [e ->]]]).
    - specialize (Hm w1 (tr ++ [ELook sid (cu_id user) (Ok rows)])%list). rewrite <-Heq in Hm. exists (Ok rows).
      destruct rows as [|x rows]; [done|]. cbn [gated]. destruct (unconfigured S c).
      + destruct Hm as [-> ->]. by exists [].
      + destruct Hm as (a & -> & Ha). exists [write_event user sid c a]. split; [by rewrite <-app_assoc|]. exists a. split; [done|].
        rewrite <-Ha. destruct r as [[]|e]; split; try done; [by exists v|by intros [? ?]].
    - exists look, []. split; [done|]. specialize (Hl False). destruct look as [[|x rows]|e']; cbn [gated] in *; [|done|].
      + by destruct Hl as [_ [= ->]].
      + split; [done|]. by eexists. }
  destruct c as [vid|ind vid]; cbn [lifecycle_route]; unfold promote_route, logical_delete_route, promote, set_logical_delete;
    apply Hgate; intros w1 tr1; cbn [st_flip_best st_logical_delete traced_store option_map unconfigured].
  - destruct st_flip_best as [flip|]; cbn [option_map]; [|done].
    destruct (write_answered (EFlip sid vid (cu_id user)) (flip sid vid (cu_id user)) w1 tr1) as (q & w' & ->).
    exists q. split; [done|]. by destruct q as [[]|].
  - destruct (write_answered (EHide sid ind (cu_id user) vid) (st_logical_delete sid ind (cu_id user) vid) w1 tr1) as (q & w' & ->).
    exists q. split; [done|]. by destruct q as [[]|].
Qed.
End owned.

(** ** What the stream tells *)

(** The snapshots whose version differs from the one before. *)
Fixpoint changes (last_vid : Z) (seen : list snapshot) : list snapshot :=
  match seen with
  | [] => []
  | s :: seen' => if snap_vid s =? last_vid then changes (snap_vid s) seen' else s :: changes (snap_vid s) seen'
  end.

Definition is_terminal (s : snapshot) : Prop := snap_status s ∈ TERMINAL.

(** What a stream yields for the answers it was given. *)
Definition told (n : nat) (last_vid : Z) (answers : list (option snapshot)) (events : list sse_event) (ended : bool) : Prop :=
  ∃ live, Forall (λ s, ¬ is_terminal s) live ∧
    ((ended = true ∧ answers = (map Some live ++ [None])%list ∧
        events = (map SseStatus (changes last_vid live) ++ [SseNotFound])%list) ∨
     (ended = true ∧ ∃ s, is_terminal s ∧ answers = map Some (live ++ [s]) ∧
        events = map SseStatus (changes last_vid (live ++ [s]))) ∨
     (ended = false ∧ length live = n ∧ answers = map Some live ∧ events = map SseStatus (changes last_vid live))).

Lemma told_step n last_vid s answers events ended : ¬ is_terminal s → told n (snap_vid s) answers events ended →
  told (S n) last_vid (Some s :: answers) ((if (snap_vid s =? last_vid)%Z then [] else [SseStatus s]) ++ events)%list ended.
Proof.
  intros Hs (live & Hlive & Hcases). exists (s :: live). split; [by constructor|].
  destruct Hcases as [(-> & -> & ->)|[(-> & x & Hx & -> & ->)|(-> & <- & -> & ->)]].
  - left. split_and!; [done..|]. cbn [changes]. by destruct (_ =? _).
  - right. left. split; [done|]. exists x. split_and!; [done..|]. cbn [changes app]. by destruct (_ =? _).
  - right. right. split_and!; [done..|]. cbn [changes]. by destruct (_ =? _).
Qed.

(** A job's stream tells each change once and then stops: it yields the snapshots
    of the user's job whose version differs from the one before, in the order they
    were polled; it ends at the first terminal one, which it tells, or with one
    closing event when the job is not there for the user; and until then it keeps
    polling. *)
Theorem stream_tells_changes {W} (poll : prog W exn (option snapshot)) sleep n last_vid w tr events ended s' :
  stream_events (logged (λ r, r) poll) (λ t, unlogged (sleep t)) n last_vid (w, tr) = (Ok (events, ended), s') →
  ∃ answers, s'.2 = (tr ++ map Ok answers)%list ∧ told n last_vid answers events ended.
Proof.
  revert last_vid w tr events. induction n as [|n IH]; intros last_vid w tr events; cbn [stream_events].
  { intros [= <- <- <-]. exists []. split; [by rewrite app_nil_r|]. exists []. split; [constructor|]. right. by right. }
  rewrite logged_bind. destruct (poll w) as [[[s|]|e] w1]; cbn [fst snd]; [| |done].
  2: { intros [= <- <- <-]. exists [None]. split; [done|]. exists []. split; [constructor|]. by left. }
  case_bool_decide as Ht.
  { intros [= <- <- <-]. exists [Some s]. split; [done|]. exists []. split; [constructor|]. right. left.
    split; [done|]. exists s. split_and!; [done..|]. cbn. by destruct (_ =? _). }
  rewrite unlogged_bind. destruct (sleep SSE_POLL_INTERVAL_S w1) as [[[]|e] w2]; cbn [fst snd]; [|done].
  intros ([rest ended'] & [w3 tr3] & Hrec & Heq)%bind_inv. injection Heq as <- <- <-.
  destruct (IH _ _ _ _ Hrec) as (answers & Hs & Htold). cbn [snd] in *. exists (Some s :: answers).
  split; [by rewrite Hs, <-app_assoc|]. by apply told_step.
Qed.

(** ** A catalog of one strategy *)
Module one_strategy.

(** Alice's strategy; the world counts what is written. *)
#[export] Instance store : StrategyStore Z := {|
  st_queue_rows s u := mret (if String.eqb s "s1" && String.eqb u "alice" then [VDict [("queue_id", VStr "q1")]] else []);
  st_strategy s v := mret (if String.eqb s "s1"
                           then [VDict [("strategy_id", VStr "s1"); ("strategy_vid", VInt v); ("strategy_nm", VStr "mine")]]
                           else []);
  st_strategy_list u l b := mret [];
  st_result_payload s v := mret VNone;
  st_flip_best := Some (λ s v u w, (Ok tt, w + 1));
  st_logical_delete s i u v := λ w, (Ok tt, w + 1)
|}.
#[export] Instance no_json : JsonLoads := {| loads s := Raise (ValueError s) |}.

Definition bob : CurrentUser := mkCurrentUser "bob" "bob" 0.
Definition alice : CurrentUser := mkCurrentUser "alice" "alice" 0.

Definition running : snapshot := ("q1", 2, "RUNNING", 2, None).
Definition completed : snapshot := ("q1", 3, "COMPLETED", 3, None).

(** A job that is running for two polls and then done. *)
Definition polls : prog Z exn (option snapshot) := λ w,
  (Ok (Some (if w <? 2 then running else completed)), w + 1).
End one_strategy.
Import one_strategy.

(** A stored result is served to any user who is signed in, also one who could not
    promote or hide the strategy. *)
Lemma foreign_result_is_served :
  (∃ body, get_strategy_result_route bob "s1" 1 0 = (Ok body, 0) ∧ get_strategy_result_route alice "s1" 1 0 = (Ok body, 0)) ∧
  promote_route bob "s1" 1 0 = (Raise (HTTPException 404 "s1"), 0) ∧ (promote_route alice "s1" 1 0).2 = 1.
Proof. split; [eexists; split; reflexivity|]. split; reflexivity. Qed.

Lemma stream_tells_changes_witness : ∃ events s',
  stream_events (logged (λ r, r) polls) (λ _, unlogged (mret tt)) 5 (-1) (0, []) = (Ok (events, true), s') ∧
  ∃ answers, s'.2 = map Ok answers ∧ told 5 (-1) answers events true.
Proof.
  do 2 eexists. split; [vm_compute; reflexivity|].
  exact (stream_tells_changes polls (λ _, mret tt) 5 (-1) 0 [] [SseStatus running; SseStatus completed] true _ eq_refl).
Defined.
