(* ===== verification/Maintenance.v ===== *)
(** * Scheduled maintenance

    [aws/lambda/scheduled-task/handler.py], [quant/api/admin/] and
    [quant/api/scheduler/router.py]: the function EventBridge calls with a task and
    a path, the routes it reaches, and the alert a sweep of stale connections
    sends.  HTTP, the parameter store and the webhook are parameters. *)
From S2P Require Import Prelude PyFloat PyData Order Errors PyValue RefData Auth Instruments Adapter LiveApply Scheduler.
From S2P Require Import Database Repos Json ProviderFill.
Local Open Scope string_scope.
Local Open Scope Z_scope.

(** ** The function that is scheduled *)

(** What [urlopen] ends in: an answer, [HTTPError] or [URLError]. *)
Inductive http_end :=
| Answered (status : Z) (body : string)
| HttpFailed (code : Z) (body : string)
| Unreachable (text : string).

Record http_request := mkRequest {
  rq_url : string; rq_data : string; rq_bearer : string; rq_timeout : float
}.

Class TaskEnv (W : Type) := {
  urlopen : http_request → prog W exn http_end;
  (** [ssm.get_parameter(Name, WithDecryption=True)] *)
  get_parameter : string → prog W exn string;
  (** [json.dumps] *)
  event_dumps : pyval → string
}.

(** [s.rstrip("/")] *)
Fixpoint rstrip_slashes (s : string) : string :=
  match s with
  | EmptyString => EmptyString
  | String c s' =>
      match rstrip_slashes s' with
      | EmptyString => if Ascii.eqb c "/" then EmptyString else String c EmptyString
      | t => String c t
      end
  end.

(** [not value or not isinstance(value, str)], of a key of the event *)
Definition text_field (value : pyval) : option string :=
  match value with VStr (String c s) => Some (String c s) | _ => None end.

(** [_resolve_task] *)
Definition resolve_task (event : pyval) : res exn (string * string) :=
  match event with
  | VDict d =>
      let task := default VNone (dict_get "task" d) in
      match text_field task with
      | None => Raise (ValueError ("event.task must be a non-empty string, got " +:+ repr_val task))
      | Some task =>
          let path := default VNone (dict_get "path" d) in
          match text_field path with
          | None => Raise (ValueError
              ("event.path must be a non-empty string. sync_schedules.py copies it " +:+
               "from config/scheduler/*.yml, so a schedule created by hand needs it " +:+
               "spelled out; got " +:+ repr_val path))
          | Some path =>
              if negb (String.prefix "/" path) || String.prefix "//" path || str_contains "://" path then
                Raise (ValueError ("event.path must be an absolute path on the API, not a URL: " +:+ repr_str path))
              else Ok (task, path)
          end
      end
  | _ => Raise (ValueError ("event must be an object, got " +:+ repr_val event))
  end.

(** [_safe_json] *)
Definition safe_json (num_int num_float : string → pyval) (raw : string) : pyval :=
  if String.eqb raw "" then VNone
  else match json_loads num_int num_float raw with Some v => v | None => VStr raw end.

Section function.
Context {W : Type} `{Environ W} `{TaskEnv W} (num_int num_float : string → pyval).

(** what [lru_cache] keeps of [_service_token] *)
Definition container : Type := option string * W.
Definition beyond {A} (m : prog W exn A) : prog container exn A := λ s,
  let '(r, w) := m s.2 in (r, (s.1, w)).

(** [os.environ[name]] *)
Definition environ_item (name : string) : prog W exn string :=
  v ← getenv name; match v with Some s => mret s | None => raise (KeyError name) end.

Definition keep_token (token : string) : prog container exn unit := λ s, (Ok tt, (Some token, s.2)).

(** [_service_token] *)
Definition service_token : prog container exn string :=
  s ← get_state;
  match s.1 with
  | Some token => mret token
  | None =>
      path ← beyond (environ_item "TRADE_SERVICE_TOKEN_SSM_PATH");
      token ← beyond (get_parameter path);
      _ ← keep_token token;
      mret token
  end.

(** [handler] *)
Definition handler (event : pyval) : prog container exn pyval :=
  '(task, path) ← lift_res (resolve_task event);
  base ← beyond (environ_item "API_BASE_URL");
  let api_base := rstrip_slashes base in
  timeout ← beyond (getenv "HTTP_TIMEOUT_S");
  timeout_s ← lift_res (float_val (VStr (default "110" timeout)));
  let url := api_base +:+ path in
  payload ← lift_res (p ← get "payload" event; mret (event_dumps (or_else p (VDict []))));
  token ← service_token;
  answer ← beyond (urlopen (mkRequest url payload token timeout_s));
  match answer with
  | HttpFailed code _ => raise (RuntimeError (task +:+ " failed: HTTP " +:+ str_Z code))
  | Unreachable text => raise (RuntimeError (task +:+ " unreachable: " +:+ text))
  | Answered status body =>
      mret (VDict [("task", VStr task); ("statusCode", VInt status); ("body", safe_json num_int num_float body)])
  end.
End function.

(** ** Sweeping connections *)

(** [StaleConnectionSweep] is [Repos.StaleConnectionSweep]. *)

(** [format_stale_connection] *)
Definition format_stale_connection (sweep : StaleConnectionSweep) (idle_seconds : Z) : string :=
  let hours := ftruediv idle_seconds 3600 in
  let threshold := if fltb hours (of_Z 1) then str_Z idle_seconds +:+ "s"
                   else fmt_g hours +:+ "h (" +:+ str_Z idle_seconds +:+ "s)" in
  prefix_alert "DB" (String.concat NL
    (["*Stale Postgres connections detected (quant_app)*";
      "Found: " +:+ str_Z (sweep_stale sweep) +:+ " idle > " +:+ threshold;
      "Terminated: " +:+ str_Z (sweep_terminated sweep)] ++
     (if sweep_stale sweep =? sweep_terminated sweep then []
      else ["Warning: " +:+ str_Z (sweep_stale sweep - sweep_terminated sweep) +:+
            " backend(s) could not be terminated"]))%list).

Section maintenance.
Context {W : Type} `{Environ W} `{ApplyEnv W}.

(** [Notifier.from_env]: the webhook, or the log *)
Definition webhook_from_env : prog W exn (option string) :=
  v ← getenv "SLACK_WEBHOOK_URL";
  let url := strip (default "" v) in
  mret (if String.eqb url "" then None else Some url).

Section sweep.
(** [ConnectionMaintenanceRepo.terminate_stale_connections] *)
Context (terminate : Z → prog W exn StaleConnectionSweep).

(** [ConnectionMaintenanceService.sweep_stale_connections] *)
Definition sweep_stale_connections (webhook : option string) (idle_seconds : Z) : prog W exn StaleConnectionSweep :=
  sweep ← terminate idle_seconds;
  _ ← (if 0 <? sweep_stale sweep then notify webhook (format_stale_connection sweep idle_seconds) else mret tt);
  mret sweep.

(** [TerminateStaleConnectionsRequest]: nothing stands for a refused body *)
Definition terminate_request (idle_seconds : option Z) : option Z :=
  let s := default 3600 idle_seconds in if (60 <=? s) && (s <=? 86400) then Some s else None.

(** [POST /admin/db/terminate-stale-connections] *)
Definition terminate_route (idle_seconds : Z) : prog W exn pyval :=
  webhook ← webhook_from_env;
  sweep ← sweep_stale_connections webhook idle_seconds;
  mret (VDict [("stale", VInt (sweep_stale sweep)); ("terminated", VInt (sweep_terminated sweep));
               ("idle_seconds", VInt idle_seconds)]).
End sweep.

(** [DetachApiRequestPayloadRequest] *)
Definition detach_request (retention_days : option Z) : option Z :=
  let d := default 14 retention_days in if (1 <=? d) && (d <=? 3660) then Some d else None.

(** [POST /admin/db/detach-api-request-payload], over [ApiRequestPayloadRepo.detach] *)
Definition detach_route (detach : Z → prog W exn Z) (retention_days : Z) : prog W exn pyval :=
  dropped ← detach retention_days;
  mret (VDict [("dropped", VInt dropped); ("retention_days", VInt retention_days)]).

(** [POST /admin/log-proc-summary/summarize], over [LogProcRepo.summarize] *)
Definition summarize_route (summarize : Z → prog W exn Z) : prog W exn pyval :=
  rows ← summarize 30; mret (VDict [("rows_affected", VInt rows)]).

(** [_venue_markets]: [venue_symbols] of the service for one app *)
Definition venue_markets (symbols : Z → prog W exn (list (string * option string))) (app_id : Z)
    : prog W exn (option (list (string * option string))) :=
  catch (ms ← symbols app_id; mret (Some ms)) (λ _, mret None).

(** [POST /admin/providers/fill], of the fill it runs; the day is rendered *)
Definition fill_body (report : FillReport) (since : string) : pyval :=
  VDict [("filled", VInt (fl_filled report)); ("failed", VInt (fl_failed report)); ("since", VStr since);
         ("errors", VList (map VStr (fl_errors report)))].
End maintenance.

(** ** The tick *)

(** [TickOutcome]'s values *)
Definition outcome_text (o : TickOutcome) : string :=
  match o with
  | T_APPLIED => "APPLIED" | T_PAUSED => "PAUSED" | T_ABANDONED => "ABANDONED" | T_STUCK => "STUCK"
  end.

(** [outcomes[k] = outcomes.get(k, 0) + 1] *)
Definition count_outcome (outcomes : list (string * Z)) (r : TickResult) : list (string * Z) :=
  let k := outcome_text (tr_outcome r) in dict_set k (default 0 (dict_get k outcomes) + 1) outcomes.

Definition outcome_counts (reports : list TickReport) : list (string * Z) :=
  foldl (λ d rep, foldl count_outcome d (results rep)) [] reports.

Definition result_body (r : TickResult) : pyval :=
  VDict [("deployment_id", VStr (tr_deployment_id r)); ("outcome", VStr (outcome_text (tr_outcome r)));
         ("attempt", VInt (tr_attempt r));
         ("position_qty", match tr_position_qty r with Some f => VFloat f | None => VNone end);
         ("error", opt_text (tr_error r))].

(** The body of [POST /scheduler/tick]. *)
Definition tick_body (reports : list TickReport) : pyval :=
  VDict [("intervals", VInt (Z.of_nat (length reports)));
         ("due", VInt (Z.of_nat (sum_list (map due reports))));
         ("advanced", VInt (Z.of_nat (sum_list (map advanced reports))));
         ("outcomes", VDict (map (λ kn, (kn.1, VInt kn.2)) (outcome_counts reports)));
         ("results", VList (map (λ rep, VDict [("tm_interval_id", VInt (tm_interval_id rep));
                                               ("deployments", VList (map result_body (results rep)))]) reports))].

(** [run_schedule_tick], over the sweeper *)
Definition run_schedule_tick {W} (sweep : prog W exn (list TickReport)) : prog W exn pyval :=
  reports ← sweep; mret (tick_body reports).

(** ** Where the service token goes *)

(** Text after the first [://], as [urlsplit] finds the authority. *)
Fixpoint after_scheme (s : string) : option string :=
  if String.prefix "://" s then Some (str_drop 3 s)
  else match s with EmptyString => None | String _ s' => after_scheme s' end.

Fixpoint until_path (s : string) : string :=
  match s with
  | EmptyString => EmptyString
  | String c s' => if bool_decide (c ∈ ["/"; "?"; "#"]%char) then EmptyString else String c (until_path s')
  end.

(** The host, with its port and user if any, a URL names. *)
Definition authority (url : string) : option string := until_path <$> after_scheme url.

Lemma prefix_of_app (p s t : string) : (String.length p <= String.length s)%nat →
  String.prefix p (s +:+ t) = String.prefix p s.
Proof.
  revert s. induction p as [|c p IH]; intros s Hl; [by rewrite !prefix_empty|]. destruct s as [|d s]; simpl in *; [lia|].
  destruct (ascii_dec c d); [apply IH; lia|done].
Qed.

Lemma str_drop_app n (s t : string) : (n <= String.length s)%nat → str_drop n (s +:+ t) = str_drop n s +:+ t.
Proof. revert s. induction n as [|n IH]; intros [|c s] Hl; simpl in *; try done; [lia|]. apply IH. lia. Qed.

Lemma prefix_length (p s : string) : String.prefix p s = true → (String.length p <= String.length s)%nat.
Proof.
  revert s. induction p as [|c p IH]; intros [|d s]; simpl; try (done || lia).
  destruct (ascii_dec c d); [|done]. intros ?%IH. lia.
Qed.

Lemma after_scheme_length s r : after_scheme s = Some r → (3 <= String.length s)%nat.
Proof.
  induction s as [|c s IH]; cbn [after_scheme]; [done|].
  destruct (String.prefix "://" (String c s)) eqn:Ep; [intros _; exact (prefix_length _ _ Ep)|].
  intros ?%IH. cbn. lia.
Qed.

Lemma after_scheme_app (s r t : string) : after_scheme s = Some r → after_scheme (s +:+ t) = Some (r +:+ t).
Proof.
  revert r. induction s as [|c s IH]; intros r Hs; [done|].
  pose proof (after_scheme_length _ _ Hs) as Hl. change (String c s +:+ t) with (String c (s +:+ t)).
  cbn [after_scheme] in *. change (String c (s +:+ t)) with (String c s +:+ t). rewrite prefix_of_app by done.
  destruct (String.prefix "://" (String c s)); [|by apply IH].
  injection Hs as <-. by rewrite (str_drop_app 3 (String c s) t Hl).
Qed.

Lemma until_path_app (s t : string) : String.prefix "/" t = true → until_path (s +:+ t) = until_path s.
Proof.
  intros Ht. induction s as [|c s IH].
  - by destruct t as [|[[] [] [] [] [] [] [] []] t].
  - simpl. by rewrite IH.
Qed.

(** A path put behind an address leaves its host. *)
Lemma authority_app base path host : String.prefix "/" path = true → authority base = Some host →
  authority (base +:+ path) = Some host.
Proof.
  unfold authority. intros Hp. destruct (after_scheme base) as [r|] eqn:E; [|done]. intros [= <-].
  rewrite (after_scheme_app _ _ path E). cbn. by rewrite until_path_app.
Qed.

Lemma resolve_task_path event task path : resolve_task event = Ok (task, path) → String.prefix "/" path = true.
Proof.
  unfold resolve_task. destruct event; try done. destruct (text_field _) as [t|]; [|done].
  destruct (text_field _) as [p|]; [|done]. destruct (String.prefix "/" p) eqn:Ep; [|done]. cbn [negb orb].
  destruct (String.prefix "//" p || str_contains "://" p); [done|]. by intros [= <- <-].
Qed.

(** The environment with the requests made. *)
Definition traced_task {W} (T : TaskEnv W) : TaskEnv (W * list http_request) := {|
  urlopen rq := logged (λ _, rq) (urlopen rq);
  get_parameter n := unlogged (get_parameter n);
  event_dumps := event_dumps
|}.
Definition environ_beside {W Ev} (E : Environ W) : Environ (W * list Ev) := {|
  getenv n := unlogged (getenv n);
  putenv n v := unlogged (putenv n v)
|}.

Section token.
Context {W : Type} (E : Environ W) (T : TaskEnv W) (num_int num_float : string → pyval).
#[local] Existing Instance traced_task.
#[local] Existing Instance environ_beside.

(** What leaves the trace as it is. *)
Definition silent {A} (m : prog (container (W := W * list http_request)) exn A) : Prop :=
  ∀ s, (m s).2.2.2 = s.2.2.

Lemma silent_beyond {A} (m : prog W exn A) : silent (beyond (unlogged m)).
Proof. intros [c [w tr]]. unfold beyond, unlogged. cbn. by destruct (m w). Qed.

Lemma silent_item name : silent (beyond (environ_item name)).
Proof.
  intros [c [w tr]]. unfold beyond, environ_item. cbn [getenv environ_beside fst snd]. rewrite unlogged_bind.
  by destruct (getenv name w) as [[[v|]|e] w'].
Qed.

Lemma api_base_read (s : container (W := W * list http_request)) base s' : beyond (environ_item "API_BASE_URL") s = (Ok base, s') →
  ∃ w1 w2, getenv "API_BASE_URL" w1 = (Ok (Some base), w2).
Proof.
  destruct s as [c [w tr]]. unfold beyond, environ_item. cbn [getenv environ_beside fst snd]. rewrite unlogged_bind.
  destruct (getenv "API_BASE_URL" w) as [[[v|]|e] w'] eqn:Ew; [|done|done]. intros [= <- _]. by exists w, w'.
Qed.

Lemma silent_token : silent service_token.
Proof.
  intros [c [w tr]]. unfold service_token. rewrite (bind_ok get_state _ (c, (w, tr)) _ _ eq_refl).
  destruct c as [t|]; [done|]. cbn [fst]. pose proof (silent_item "TRADE_SERVICE_TOKEN_SSM_PATH" (None, (w, tr))) as H1.
  destruct (beyond (environ_item "TRADE_SERVICE_TOKEN_SSM_PATH") (None, (w, tr))) as [[path|e] s1] eqn:E1.
  2: { by rewrite (bind_raise _ _ _ _ _ E1). }
  rewrite (bind_ok _ _ _ _ _ E1). pose proof (silent_beyond (get_parameter path) s1) as H2.
  cbn [get_parameter traced_task] in *. destruct (beyond (unlogged (get_parameter path)) s1) as [[t|e] s2] eqn:E2.
  - rewrite (bind_ok _ _ _ _ _ E2). cbn [fst snd keep_token mret prog_ret mbind prog_bind] in *. by rewrite <-H1, <-H2.
  - rewrite (bind_raise _ _ _ _ _ E2). cbn [fst snd] in *. by rewrite <-H1, <-H2.
Qed.

Lemma silent_step {A B} (m : prog container exn A) (f : A → prog container exn B) s (Q : list http_request → Prop) :
  silent m → Q [] → (∀ a s1, m s = (Ok a, s1) → ∃ new, (f a s1).2.2.2 = (s1.2.2 ++ new)%list ∧ Q new) →
  ∃ new, ((m ≫= f) s).2.2.2 = (s.2.2 ++ new)%list ∧ Q new.
Proof.
  intros Hm Hnil Hf. pose proof (Hm s) as Hs. destruct (m s) as [[a|e] s1] eqn:Em; cbn in Hs.
  - rewrite (bind_ok _ _ _ _ _ Em), <-Hs. by apply Hf.
  - rewrite (bind_raise _ _ _ _ _ Em). exists []. by rewrite app_nil_r.
Qed.

(** The service token goes to the API and nowhere else, whatever event the
    function is called with: it sends one request at most, to the configured base
    followed by the path of the event, and that URL names the very host the base
    names. *)
Theorem token_stays_on_api event c w tr :
  ∃ sent, (handler num_int num_float event (c, (w, tr))).2.2.2 = (tr ++ sent)%list ∧ (length sent <= 1)%nat ∧
    ∀ rq, rq ∈ sent → ∃ base task path w1 w2,
      getenv "API_BASE_URL" w1 = (Ok (Some base), w2) ∧ resolve_task event = Ok (task, path) ∧
      rq_url rq = rstrip_slashes base +:+ path ∧
      ∀ host, authority (rstrip_slashes base) = Some host → authority (rq_url rq) = Some host.
Proof.
  pose (Q := λ sent : list http_request, (length sent <= 1)%nat ∧
    ∀ rq, rq ∈ sent → ∃ base task path w1 w2,
      getenv "API_BASE_URL" w1 = (Ok (Some base), w2) ∧ resolve_task event = Ok (task, path) ∧
      rq_url rq = rstrip_slashes base +:+ path ∧
      ∀ host, authority (rstrip_slashes base) = Some host → authority (rq_url rq) = Some host).
  assert (Q []) as Hnil by (split; [cbn; lia|by intros ? ?%elem_of_nil]).
  change (∃ sent, (handler num_int num_float event (c, (w, tr))).2.2.2 = ((c, (w, tr)).2.2 ++ sent)%list ∧ Q sent).
  unfold handler. apply silent_step; [done|done|]. intros [task path] s1 Er. injection Er as Er <-.
  apply silent_step; [apply silent_item|done|]. intros base s2 Eb. apply api_base_read in Eb as (w1 & w2 & Eb).
  apply silent_step; [apply silent_beyond|done|]. intros timeout s3 _.
  apply silent_step; [done|done|]. intros timeout_s s4 _.
  apply silent_step; [done|done|]. intros payload s5 _.
  apply silent_step; [apply silent_token|done|]. intros token [c6 [w6 tr6]] _.
  assert (∀ rq, rq_url rq = rstrip_slashes base +:+ path → Q [rq]) as HQ.
  { intros rq Hrq. split; [cbn; lia|]. intros rq' ->%list_elem_of_singleton. exists base, task, path, w1, w2.
    split_and!; [done..|]. intros host Hh. rewrite Hrq. apply authority_app; [by eapply resolve_task_path|done]. }
  match goal with |- context [urlopen ?r] => set (rq := r) end. exists [rq]. split; [|by apply HQ].
  unfold mbind, prog_bind, beyond. cbn [urlopen traced_task fst snd]. unfold logged. cbn [fst snd].
  destruct (urlopen rq w6) as [[[]|e] w7]; done.
Qed.
End token.

(** ** The alert of a sweep *)

(** A sweep reports what the database did, whatever becomes of the alert; the
    webhook is asked once, with that report, exactly when stale connections were
    found and a webhook is configured. *)
Theorem sweep_alerts_on_stale {W} `{ApplyEnv W} terminate webhook idle w :
  sweep_stale_connections terminate webhook idle w =
  match terminate idle w with
  | (Raise e, w') => (Raise e, w')
  | (Ok sweep, w') =>
      (Ok sweep, match webhook with
                 | Some url => if 0 <? sweep_stale sweep
                               then (post_webhook url (format_stale_connection sweep idle) w').2 else w'
                 | None => w'
                 end)
  end.
Proof.
  unfold sweep_stale_connections. destruct (terminate idle w) as [[sweep|e] w'] eqn:E;
    [|by rewrite (bind_raise _ _ _ _ _ E)].
  rewrite (bind_ok _ _ _ _ _ E). destruct (0 <? sweep_stale sweep); [|by destruct webhook].
  unfold notify. destruct webhook as [url|]; [|done].
  unfold mbind, prog_bind, catch. by destruct (post_webhook url _ w') as [[?|?] ?].
Qed.

(** ** The counts of a tick *)

Definition with_outcome (o : TickOutcome) (rs : list TickResult) : nat :=
  length (List.filter (λ r, bool_decide (tr_outcome r = o)) rs).

Lemma outcome_text_inj o o' : outcome_text o = outcome_text o' → o = o'.
Proof. by destruct o, o'. Qed.

Lemma count_outcomes rs d o :
  default 0 (dict_get (outcome_text o) (foldl count_outcome d rs)) =
  default 0 (dict_get (outcome_text o) d) + Z.of_nat (with_outcome o rs).
Proof.
  revert d. induction rs as [|r rs IH]; intros d; cbn [foldl]; [unfold with_outcome; cbn; lia|].
  rewrite IH. unfold with_outcome, count_outcome. cbn [List.filter]. case_bool_decide as Ho.
  - rewrite Ho, dict_get_set. simpl. lia.
  - rewrite dict_get_set_ne; [lia|]. by intros ?%outcome_text_inj.
Qed.

Lemma count_outcomes_keys rs d k : k ∈ map fst (foldl count_outcome d rs) ↔
  k ∈ map fst d ∨ ∃ r, r ∈ rs ∧ outcome_text (tr_outcome r) = k.
Proof.
  revert d. induction rs as [|r rs IH]; intros d; cbn [foldl].
  { split; [by left|]. intros [?|(? & ?%elem_of_nil & _)]; done. }
  rewrite IH. unfold count_outcome. rewrite (dict_set_keys _ k). split.
  - intros [[->|?]|(x & ? & ?)]; [right; exists r; split; [left|done]|by left|right; exists x; split; [by right|done]].
  - intros [?|(x & [->|Hx]%elem_of_cons & Hk)]; [by left; right|by left; left|right; by exists x].
Qed.

(** The body of a tick adds up: every outcome is counted as often as a deployment
    ended in it, no other is named, and the cursors said to have moved are those of
    the deployments counted as applied or abandoned. *)
Theorem tick_body_adds_up reports :
  let rs := concat (map results reports) in
  (∀ o, default 0 (dict_get (outcome_text o) (outcome_counts reports)) = Z.of_nat (with_outcome o rs)) ∧
  (∀ k, k ∈ map fst (outcome_counts reports) ↔ ∃ r, r ∈ rs ∧ outcome_text (tr_outcome r) = k) ∧
  sum_list (map due reports) = length rs ∧
  sum_list (map advanced reports) = (with_outcome T_APPLIED rs + with_outcome T_ABANDONED rs)%nat.
Proof.
  cbv zeta. assert (∀ d, foldl (λ d rep, foldl count_outcome d (results rep)) d reports =
    foldl count_outcome d (concat (map results reports))) as Hflat.
  { induction reports as [|rep reports IH]; intros d; [done|]. cbn. by rewrite IH, foldl_app. }
  unfold outcome_counts. rewrite Hflat. split_and!.
  - intros o. by rewrite count_outcomes.
  - intros k. rewrite count_outcomes_keys. split; [|by right]. intros [?%elem_of_nil|?]; done.
  - clear Hflat. induction reports as [|rep reports IH]; [done|]. cbn. by rewrite length_app, IH.
  - clear Hflat. assert (∀ rs, length (List.filter (λ t, moved (tr_outcome t)) rs) =
      (with_outcome T_APPLIED rs + with_outcome T_ABANDONED rs)%nat) as Hm.
    { intros rs. unfold with_outcome. induction rs as [|r rs IHr]; [done|]. cbn [List.filter].
      destruct (tr_outcome r); cbn [moved]; repeat case_bool_decide; try done; simpl; lia. }
    rewrite <-Hm. induction reports as [|rep reports IH]; [done|]. cbn.
    rewrite List.filter_app, length_app. unfold advanced at 1. by rewrite IH.
Qed.

(** An alert as it reads. *)
Example alert_reads : format_stale_connection (mkSweep 3 2) 5400 =
  "[DB] *Stale Postgres connections detected (quant_app)*
Found: 3 idle > 1.5h (5400s)
Terminated: 2
Warning: 1 backend(s) could not be terminated".
Proof. vm_compute. reflexivity. Qed.
