(* ===== verification/Routes.v ===== *)
(** * Routes, gates and the life of the process

    [quant/api/main.py] with the decorators of every router: which request reaches
    which route, which dependencies stand before it, and what start-up and shut-down
    do.  Rate limits and the cross-origin middleware are outside. *)
From S2P Require Import Prelude PyFloat PyData Order Errors PyValue RefData Auth Repos Maintenance.
Local Open Scope string_scope.
Local Open Scope Z_scope.

(** ** Routes *)

(** The dependencies that pass_gates a caller. *)
Inductive gate := RequireUser | RequireUserOrService.
#[export] Instance gate_eq_dec : EqDecision gate.
Proof. solve_decision. Defined.

(** A method, a path whose segments in braces are parameters, and the gates in the
    order they are asked. *)
Record route := mkRoute { rt_method : string; rt_path : string; rt_gates : list gate }.
#[export] Instance route_eq_dec : EqDecision route.
Proof. solve_decision. Defined.

(** [APIRouter(prefix=...)] *)
Definition router (prefix : string) (routes : list route) : list route :=
  map (λ r, mkRoute (rt_method r) (prefix +:+ rt_path r) (rt_gates r)) routes.

Definition auth_router : list route := router "/auth"
  [mkRoute "POST" "/login" [];
   mkRoute "POST" "/logout" [RequireUser];
   mkRoute "GET" "/me" [RequireUser]].
Definition backtest_router : list route := router "/backtest"
  [mkRoute "POST" "/optimize" [];
   mkRoute "POST" "/performance" [];
   mkRoute "POST" "/walk-forward" []].
Definition inst_router : list route := router "/inst"
  [mkRoute "GET" "/products" [];
   mkRoute "GET" "/products/{product_id}/xrefs" [];
   mkRoute "GET" "/apps/{app_id}/products" [];
   mkRoute "GET" "/apps/{app_id}/venue-symbols" [];
   mkRoute "POST" "/products" [RequireUser];
   mkRoute "POST" "/refresh" []].
Definition jobs_router : list route := router "/backtest/jobs"
  [mkRoute "POST" "" [RequireUser];
   mkRoute "GET" "" [RequireUser];
   mkRoute "GET" "/{queue_id}" [RequireUser];
   mkRoute "POST" "/{queue_id}/cancel" [RequireUser];
   mkRoute "POST" "/{queue_id}/reenqueue" [RequireUser];
   mkRoute "POST" "/strategies/{strategy_id}/promote" [RequireUser];
   mkRoute "POST" "/strategies/{strategy_id}/logical-delete" [RequireUser];
   mkRoute "GET" "/{queue_id}/events" [RequireUser]].
Definition strategies_router : list route := router "/strategies"
  [mkRoute "GET" "" [RequireUser];
   mkRoute "GET" "/{strategy_id}/result" [RequireUser]].
Definition promotion_router : list route := router "/backtest/promotions"
  [mkRoute "GET" "" [RequireUser]].
Definition refdata_router : list route := router "/refdata"
  [mkRoute "GET" "/{table_name}" [];
   mkRoute "POST" "/refresh" []].
Definition config_router : list route := router "/config"
  [mkRoute "GET" "/{table_name}" [];
   mkRoute "POST" "/refresh" []].
Definition deployments_router : list route := router "/trade"
  [mkRoute "POST" "/deployments/dry-run" [RequireUser];
   mkRoute "GET" "/schedule-options" [RequireUser];
   mkRoute "POST" "/venue-limits/refresh" [RequireUser];
   mkRoute "GET" "/accounts/{api_credential_id}/snapshot" [RequireUser];
   mkRoute "POST" "/deployments" [RequireUser];
   mkRoute "GET" "/deployments" [RequireUser];
   mkRoute "GET" "/deployments/{deployment_id}" [RequireUser];
   mkRoute "PATCH" "/deployments/{deployment_id}" [RequireUser];
   mkRoute "POST" "/deployments/{deployment_id}/stop" [RequireUser];
   mkRoute "POST" "/deployments/{deployment_id}/apply" [RequireUser];
   mkRoute "GET" "/execution-events" [RequireUser];
   mkRoute "GET" "/transactions" [RequireUser];
   mkRoute "GET" "/deployments/{deployment_id}/events" [RequireUser];
   mkRoute "GET" "/deployments/{deployment_id}/transactions" [RequireUser]].
Definition credentials_router : list route := router "/credentials"
  [mkRoute "GET" "" [RequireUser];
   mkRoute "GET" "/{api_credential_id}" [RequireUser];
   mkRoute "POST" "" [RequireUser];
   mkRoute "PUT" "/{api_credential_id}" [RequireUser];
   mkRoute "DELETE" "/{api_credential_id}" [RequireUser]].
Definition admin_router : list route := router "/admin"
  [mkRoute "POST" "/db/terminate-stale-connections" [RequireUserOrService];
   mkRoute "POST" "/db/detach-api-request-payload" [RequireUserOrService];
   mkRoute "POST" "/providers/fill" [RequireUserOrService];
   mkRoute "POST" "/log-proc-summary/summarize" [RequireUserOrService]].
Definition market_data_router : list route := router "/market-data"
  [mkRoute "POST" "/price-bars/sync" [RequireUserOrService];
   mkRoute "POST" "/provider-series" [RequireUser];
   mkRoute "GET" "/provider-series" [RequireUser];
   mkRoute "GET" "/subscriptions" [RequireUser];
   mkRoute "POST" "/subscriptions" [RequireUser];
   mkRoute "GET" "/price-bars/coverage" [RequireUser];
   mkRoute "GET" "/price-bars/venue-depth" [RequireUser];
   mkRoute "GET" "/price-bars/backfill-plan" [RequireUser];
   mkRoute "POST" "/price-bars/backfill" [RequireUser]].
Definition scheduler_router : list route := router "/scheduler"
  [mkRoute "POST" "/tick" [RequireUserOrService]].

(** [app.include_router(router, prefix, dependencies)] *)
Definition include_router (prefix : string) (dependencies : list gate) (routes : list route) : list route :=
  map (λ r, mkRoute (rt_method r) (prefix +:+ rt_path r) (dependencies ++ rt_gates r)%list) routes.

(** the pages FastAPI adds outside production *)
Definition docs_routes (is_prod : bool) : list route :=
  if is_prod then []
  else [mkRoute "GET" "/openapi.json" []; mkRoute "GET" "/docs" []; mkRoute "GET" "/docs/oauth2-redirect" [];
        mkRoute "GET" "/redoc" []].

(** [app], in the order of registration *)
Definition app_routes (is_prod : bool) : list route :=
  docs_routes is_prod ++
  include_router "/api/v1" [] auth_router ++
  include_router "/api/v1" [RequireUser] backtest_router ++
  include_router "/api/v1" [RequireUser] inst_router ++
  include_router "/api/v1" [RequireUser] jobs_router ++
  include_router "/api/v1" [RequireUser] strategies_router ++
  include_router "/api/v1" [RequireUser] promotion_router ++
  include_router "/api/v1" [RequireUser] refdata_router ++
  include_router "/api/v1" [RequireUser] config_router ++
  include_router "/api/v1" [RequireUser] deployments_router ++
  include_router "/api/v1" [RequireUser] credentials_router ++
  include_router "/api/v1" [RequireUserOrService] admin_router ++
  include_router "/api/v1" [RequireUserOrService] market_data_router ++
  include_router "/api/v1" [RequireUserOrService] scheduler_router ++
  [mkRoute "GET" "/health" []; mkRoute "GET" "/health/ready" []].

(** A segment of a template takes any text that is not empty if it is a parameter. *)
Definition is_param (t : string) : bool := String.prefix "{" t.
Definition segment_takes (t s : string) : bool := if is_param t then negb (String.eqb s "") else String.eqb t s.

Fixpoint segments_take (template segments : list string) : bool :=
  match template, segments with
  | [], [] => true
  | t :: template', s :: segments' => segment_takes t s && segments_take template' segments'
  | _, _ => false
  end.

(** Whether a route takes a request. *)
Definition takes (r : route) (method path : string) : bool :=
  String.eqb (rt_method r) method && segments_take (split_on "/"%char (rt_path r)) (split_on "/"%char path).

(** The first route registered that does. *)
Definition dispatch (is_prod : bool) (method path : string) : option route :=
  List.find (λ r, takes r method path) (app_routes is_prod).

(** ** Gates *)

Section gates.
Context {W : Type} `{AuthDb W} `{Monotonic W} `{AuthLib W} `{Environ W} (is_invalid : exn → bool).

Definition ask (authorization qs_token : option string) (g : gate) : prog (AuthService * W) exn unit :=
  match g with
  | RequireUser => _ ← require_user is_invalid qs_token; mret tt
  | RequireUserOrService => _ ← require_user_or_service is_invalid authorization qs_token; mret tt
  end.

(** The gates of a request, each asked once however often it is depended on. *)
Fixpoint pass_gates (authorization qs_token : option string) (asked gates : list gate) : prog (AuthService * W) exn unit :=
  match gates with
  | [] => mret tt
  | g :: gates' =>
      _ ← (if bool_decide (g ∈ asked) then mret tt else ask authorization qs_token g);
      pass_gates authorization qs_token (g :: asked) gates'
  end.
End gates.

(** ** The life of the process *)

(** What start-up calls, in its order; a failure is an exception. *)
Class StartupEnv (W : Type) := {
  open_the_pool : prog W exn unit;
  close_the_pools : prog W exn unit;
  auth_service_new : prog W exn unit;
  credential_crypto_new : prog W exn unit;
  publish_everything : prog W exn Z;
  load_caches : prog W exn unit;
  build_registry : prog W exn unit;
  empty_registry : prog W exn unit;
  publish_limits : prog W exn unit;
  build_services : prog W exn unit
}.

(** [lifespan]; [serve] is what runs between start-up and shut-down *)
Definition lifespan {W} `{StartupEnv W} (serve : prog W exn unit) : prog W exn unit :=
  _ ← open_the_pool;
  finally
    (_ ← auth_service_new;
     _ ← credential_crypto_new;
     _ ← catch publish_everything (λ _, raise (RuntimeError "RefDataPublisher.publish_all() failed; startup aborted"));
     _ ← load_caches;
     _ ← catch build_registry (λ _, empty_registry);
     _ ← catch publish_limits (λ _, mret tt);
     _ ← build_services;
     serve)
    close_the_pools.

(** [readiness]: the status and the body *)
Definition readiness {W} (health_check : prog W exn unit) : prog W exn (Z * pyval) :=
  catch (_ ← health_check; mret (200, VDict [("status", VStr "ok"); ("db", VStr "connected")]))
    (λ e, mret (503, VDict [("status", VStr "degraded"); ("db", VStr (exn_msg e))])).

(** ** Which route takes a request *)

(** Whether some path is an instance of both templates. *)
Fixpoint overlap (t u : list string) : bool :=
  match t, u with
  | [], [] => true
  | a :: t', b :: u' => (is_param a || is_param b || String.eqb a b) && overlap t' u'
  | _, _ => false
  end.

Lemma takes_overlap t u s : segments_take t s = true → segments_take u s = true → overlap t u = true.
Proof.
  revert u s. induction t as [|a t IH]; intros [|b u] [|x s]; cbn [segments_take overlap]; try done.
  unfold segment_takes. intros [Ha Ht]%andb_prop [Hb Hu]%andb_prop. rewrite (IH u s Ht Hu), andb_true_r.
  destruct (is_param a); [done|]. destruct (is_param b); [done|]. apply String.eqb_eq in Ha as ->. by apply String.eqb_eq in Hb as ->; rewrite String.eqb_refl.
Qed.

(** No two routes of the application are in each other's way. *)
Definition clash (r r' : route) : bool :=
  negb (bool_decide (r = r')) && String.eqb (rt_method r) (rt_method r')
  && overlap (split_on "/"%char (rt_path r)) (split_on "/"%char (rt_path r')).

Lemma no_clash is_prod : forallb (λ r, forallb (λ r', negb (clash r r')) (app_routes is_prod)) (app_routes is_prod) = true.
Proof. destruct is_prod; vm_compute; reflexivity. Qed.

Lemma one_route is_prod method path r r' : r ∈ app_routes is_prod → r' ∈ app_routes is_prod →
  takes r method path = true → takes r' method path = true → r = r'.
Proof.
  intros Hr Hr' [Hm Ht]%andb_prop [Hm' Ht']%andb_prop.
  pose proof (no_clash is_prod) as Hc. rewrite forallb_forall in Hc. specialize (Hc r (proj1 (list_elem_of_In _ _) Hr)).
  rewrite forallb_forall in Hc. specialize (Hc r' (proj1 (list_elem_of_In _ _) Hr')). unfold clash in Hc.
  apply String.eqb_eq in Hm, Hm'. rewrite Hm, Hm', String.eqb_refl, (takes_overlap _ _ _ Ht Ht') in Hc.
  destruct (decide (r = r')) as [|Hne]; [done|]. by rewrite bool_decide_false in Hc.
Qed.

(** The order in which routes are registered plays no part: a request is
    answered by a route exactly when that route is registered and takes it, because
    no path is an instance of two templates of one method. *)
Theorem dispatch_is_unambiguous is_prod method path r :
  dispatch is_prod method path = Some r ↔ r ∈ app_routes is_prod ∧ takes r method path = true.
Proof.
  unfold dispatch. split.
  - intros [Hin Ht]%find_some. split; [by apply list_elem_of_In|done].
  - intros [Hin Ht]. destruct (List.find _ _) as [r'|] eqn:E.
    + apply find_some in E as [Hin' Ht']. f_equal. apply (one_route is_prod method path); try done. by apply list_elem_of_In.
    + pose proof (find_none _ _ E r (proj1 (list_elem_of_In _ _) Hin)) as Hn. cbv beta in Hn. congruence.
Qed.

(** ** Who gets in *)

Definition endpoint (r : route) : string * string := (rt_method r, rt_path r).

(** What anybody may call. *)
Definition open_endpoints (is_prod : bool) : list (string * string) :=
  map endpoint (docs_routes is_prod) ++ [("POST", "/api/v1/auth/login"); ("GET", "/health"); ("GET", "/health/ready")].

(** What the scheduler may call. *)
Definition maintenance_endpoints : list (string * string) :=
  [("POST", "/api/v1/admin/db/terminate-stale-connections"); ("POST", "/api/v1/admin/db/detach-api-request-payload");
   ("POST", "/api/v1/admin/providers/fill"); ("POST", "/api/v1/admin/log-proc-summary/summarize");
   ("POST", "/api/v1/market-data/price-bars/sync"); ("POST", "/api/v1/scheduler/tick")].

(** The gates every route has. *)
Definition gated (is_prod : bool) (r : route) : bool :=
  bool_decide (rt_gates r ∈ [[RequireUser]; [RequireUser; RequireUser]; [RequireUserOrService; RequireUser]])
  || bool_decide (rt_gates r = [RequireUserOrService; RequireUserOrService] ∧ endpoint r ∈ maintenance_endpoints)
  || bool_decide (rt_gates r = [] ∧ endpoint r ∈ open_endpoints is_prod).

Lemma all_gated is_prod : forallb (gated is_prod) (app_routes is_prod) = true.
Proof. destruct is_prod; vm_compute; reflexivity. Qed.

Section admitted.
Context {W : Type} (D : AuthDb W) (C : Monotonic W) (L : AuthLib W) (Env : Environ W) (is_invalid : exn → bool).
#[local] Existing Instances traced_auth_db traced_monotonic traced_auth_lib unlogged_environ.

(** A header that carries the configured token, as the environment has it. *)
Definition service_token_shown (authorization : option string) (w : W) : Prop :=
  ∃ h scheme found credential value w', authorization = Some h ∧
    partition_on " " h = (scheme, found, credential) ∧ lower scheme = "bearer" ∧
    @getenv W Env "TRADE_SERVICE_TOKEN" w = (Ok value, w') ∧
    credential = strip (default "" value) ∧ (16 <= String.length credential)%nat.

(** A cookie that decodes under [secret] to the claims of a user whose row is
    active and of that generation, the row being recent in the log. *)
Definition session_shown (qs : option string) (secret : string) (w : W) (tr new : list auth_event) : Prop :=
  ∃ token claims w' i u, qs = Some token ∧ @jwt_decode W L token secret w = (Ok claims, w') ∧
    (sub ← getitem "sub" claims; uuid_of sub) = Ok i ∧
    (v ← getitem "ver" claims; int_val v) = Ok (au_session_gen u) ∧ is_active u = true ∧ recent_row i u tr new.

(** The world a session is checked in: that of the request, or what looking up the
    service token made of it. *)
Definition checked_in (w w1 : W) : Prop := w1 = w ∨ w1 = (@getenv W Env "TRADE_SERVICE_TOKEN" w).2.

Lemma token_check authorization svc w tr b s' :
  outside (presents_service_token authorization) (svc, (w, tr)) = (Ok b, s') →
  ∃ w1, s' = (svc, (w1, tr)) ∧ checked_in w w1 ∧ (b = true → service_token_shown authorization w).
Proof.
  unfold outside. cbn [fst snd]. destruct (presents_service_token authorization (w, tr)) as [r [w1 tr1]] eqn:E.
  intros [= -> <-]. assert (tr1 = tr ∧ checked_in w w1) as [-> Hw].
  { unfold presents_service_token, checked_in in *. destruct authorization as [[|c h]|]; [injection E as _ <- <-; by auto| |injection E as _ <- <-; by auto].
    destruct (partition_on _ _) as [[scheme ?] cred]. destruct (_ || _); [injection E as _ <- <-; by auto|].
    unfold configured_service_token in E. rewrite bind_assoc in E. cbn [getenv unlogged_environ] in E. rewrite unlogged_bind in E.
    destruct (@getenv W Env _ w) as [[v|e] w2]; cbn [fst snd] in *; [|injection E as _ <- <-; by auto].
    destruct (String.eqb _ ""); [|destruct (_ <? _)%nat]; injection E as _ <- <-; by auto. }
  exists w1. split_and!; [done..|]. intros ->.
  apply presents_true in E as (h & value & scheme & found & cred & -> & Hp & Hs & Hv & Hc & Hl).
  cbn [getenv unlogged_environ] in Hv. rewrite unlogged_eq in Hv. cbn [fst snd] in Hv.
  destruct (@getenv W Env _ w) as [v w2] eqn:Ev. injection Hv as -> _. by exists h, scheme, found, cred, value, w2.
Qed.

Lemma session_check qs s cu s' : cache_justified s → require_user is_invalid qs s = (Ok cu, s') →
  ∃ new, s'.2.2 = (s.2.2 ++ new)%list ∧ session_shown qs (as_jwt_secret s.1) s.2.1 s.2.2 new.
Proof.
  intros Hs Hr. apply require_user_inv in Hr as (token & claims & gen & s1 & -> & _ & Hd & Hi & Hg & Hres).
  apply decode_token_trace in Hd as (Htr & Hsvc & [w' Hdec]).
  apply resolve_current_user_some in Hres as (u & new & Hcu & Ha & Hgen & Hnew & Hrec).
  - rewrite Htr in Hnew, Hrec. exists new. split; [done|]. exists token, claims, w', (cu_id cu), u. by rewrite Hgen.
  - apply (justified_outside s s1 [] Hs Hsvc). by rewrite app_nil_r.
Qed.

(** A log that only grows. *)
Lemma session_grows qs tr0 : preserves (λ s : auth_state W, tr0 `prefix_of` s.2.2) (require_user is_invalid qs).
Proof.
  assert (∀ {A} (ev : res exn A → auth_event) (m : prog W exn A), 
    preserves (λ s : auth_state W, tr0 `prefix_of` s.2.2) (outside (logged ev m))) as Hl.
  { intros A ev m [svc [w tr]] Hs. rewrite outside_logged. destruct (m w). cbn in *. by apply prefix_app_r. }
  assert (∀ {A} (m : prog W exn A), preserves (λ s : auth_state W, tr0 `prefix_of` s.2.2) (outside (unlogged m))) as Hu.
  { intros A m [svc [w tr]] Hs. unfold outside, unlogged. cbn [fst snd]. by destruct (m w). }
  assert (preserves (λ s : auth_state W, tr0 `prefix_of` s.2.2) service) as Hsvc by by intros [? ?].
  assert (∀ f, preserves (λ s : auth_state W, tr0 `prefix_of` s.2.2) (set_cache f)) as Hset by by intros ? [? ?].
  unfold require_user, decode_token, resolve_current_user, cache_get, cache_user.
  repeat first [apply Hl | apply Hu | apply Hsvc | apply Hset | apply preserves_bind; [|intros ?]
    | apply preserves_catch; [|intros ?] | apply preserves_lift | apply preserves_ret | apply preserves_raise | case_match].
Qed.

(** C35. Nobody passes the gates of a route without a right to it, whichever requests
    came before: what was let in reached one of the open endpoints; or one of the six
    maintenance endpoints with a bearer credential equal to the configured service
    token, which has at least sixteen characters; or it showed a cookie that decodes,
    in this request and under the service's own secret, to a subject and generation
    of an active row that this request read or that was cached no longer ago than the
    cache's lifetime.  So the service token opens the maintenance endpoints and
    nothing else. *)
Theorem routes_are_gated is_prod r authorization qs svc w0 s s' : r ∈ app_routes is_prod →
  as_cache svc = [] → rtc (auth_step D C) (svc, (w0, [])) s →
  pass_gates is_invalid authorization qs [] (rt_gates r) s = (Ok tt, s') →
  endpoint r ∈ open_endpoints is_prod ∨
  (endpoint r ∈ maintenance_endpoints ∧ service_token_shown authorization s.2.1) ∨
  ∃ w1 new rest, checked_in s.2.1 w1 ∧ s'.2.2 = (s.2.2 ++ new ++ rest)%list ∧
    session_shown qs (as_jwt_secret s.1) w1 s.2.2 new.
Proof.
  intros Hr Hc Hrtc Ha. pose proof (all_gated is_prod) as Hg. rewrite forallb_forall in Hg.
  specialize (Hg r (proj1 (list_elem_of_In _ _) Hr)). unfold gated in Hg. rewrite !orb_true_iff, !bool_decide_eq_true in Hg.
  assert (cache_justified s) as Hs.
  { apply (reachable_justified D C _ _ Hrtc). split; cbn [fst as_cache]; rewrite Hc; [constructor|done]. }
  destruct s as [sv [w tr]]. cbn [fst snd].
  assert (∀ w1 cu s2, checked_in w w1 → require_user is_invalid qs (sv, (w1, tr)) = (Ok cu, s2) → s2.2.2 `prefix_of` s'.2.2 →
    ∃ w1 new rest, checked_in w w1 ∧ s'.2.2 = (tr ++ new ++ rest)%list ∧ session_shown qs (as_jwt_secret sv) w1 tr new) as Hsess.
  { intros w1 cu s2 Hw Hu [rest ->]. apply session_check in Hu as (new & -> & Hsh).
    - exists w1, new, rest. by rewrite <-app_assoc.
    - apply (justified_outside (sv, (w, tr)) _ [] Hs); [done|]. by rewrite app_nil_r. }
  destruct Hg as [[Hu|[Hm Hend]]|[_ Ho]]; [|rewrite Hm in Ha|by left].
  - right. right. rewrite !elem_of_cons, elem_of_nil in Hu. destruct Hu as [Hu|[Hu|[Hu|[]]]]; rewrite Hu in Ha; cbn [pass_gates] in Ha;
      apply bind_inv in Ha as ([] & s1 & Ha & Hrest); cbn [bool_decide] in Ha; rewrite bool_decide_false in Ha by apply not_elem_of_nil;
      cbn [ask] in Ha; apply bind_inv in Ha as (cu & s2 & Ha & [= ->]).
    + injection Hrest as <-. by apply (Hsess w cu s1); [left| |].
    + rewrite bool_decide_true in Hrest by left. injection Hrest as <-. by apply (Hsess w cu s1); [left| |].
    + rewrite bool_decide_false in Hrest by (by rewrite elem_of_cons, elem_of_nil; intros [?|[]]).
      apply bind_inv in Hrest as ([] & s3 & Hrest & [= ->]). cbn [ask] in Hrest. apply bind_inv in Hrest as (cu' & s4 & Hrest & [= ->]).
      unfold require_user_or_service in Ha. apply bind_inv in Ha as (b & s5 & Hb & Ha).
      apply token_check in Hb as (w1 & -> & Hw & _). destruct b.
      * injection Ha as _ <-. by apply (Hsess w1 cu' s').
      * apply bind_inv in Ha as (cu2 & s6 & Ha & [= _ ->]). apply (Hsess w1 cu2 s1); [done..|].
        pose proof (session_grows qs s1.2.2 s1) as Hgr. rewrite Hrest in Hgr. by apply Hgr.
  - cbn [pass_gates] in Ha. apply bind_inv in Ha as ([] & s1 & Ha & Hrest). rewrite bool_decide_false in Ha by apply not_elem_of_nil.
    rewrite bool_decide_true in Hrest by left. injection Hrest as <-.
    cbn [ask] in Ha. apply bind_inv in Ha as (label & s2 & Ha & [= ->]). unfold require_user_or_service in Ha.
    apply bind_inv in Ha as (b & s3 & Hb & Ha). apply token_check in Hb as (w1 & -> & Hw & Htok). destruct b.
    + right. left. split; [done|]. by apply Htok.
    + right. right. apply bind_inv in Ha as (cu & s4 & Ha & [= _ ->]). by apply (Hsess w1 cu s1).
Qed.
End admitted.

(** A gate of the jobs, passed with the cookie of a user whose row another request
    has just cached; the scheduler's request, without a cookie; and the same request
    without its credential. *)
Lemma routes_are_gated_witness :
  let pass := λ authorization qs gates, @pass_gates _ (traced_auth_db Toy.users) (traced_monotonic Toy.clock)
    (traced_auth_lib Toy.library) (unlogged_environ Toy.environ) (λ _, true) authorization qs [] gates Toy.after_caching in
  (∃ r s', dispatch true "GET" "/api/v1/backtest/jobs" = Some r ∧ pass None (Some "tok") (rt_gates r) = (Ok tt, s') ∧
     (endpoint r ∈ open_endpoints true ∨
      (endpoint r ∈ maintenance_endpoints ∧ service_token_shown Toy.environ None Toy.after_caching.2.1) ∨
      ∃ w1 new rest, checked_in Toy.environ Toy.after_caching.2.1 w1 ∧ s'.2.2 = (Toy.after_caching.2.2 ++ new ++ rest)%list ∧
        session_shown Toy.library (Some "tok") "key" w1 Toy.after_caching.2.2 new)) ∧
  (∃ r, dispatch true "POST" "/api/v1/scheduler/tick" = Some r ∧
     (pass (Some "Bearer 0123456789abcdef") None (rt_gates r)).1 = Ok tt ∧ (pass None None (rt_gates r)).1 = Raise UNAUTHORIZED).
Proof.
  cbv zeta. split; [|eexists; split; [vm_compute; reflexivity|]; split; vm_compute; reflexivity].
  assert (rtc (auth_step Toy.users Toy.clock)
    (Toy.service, ((0, [("tok", session_claims (uuid_text 7) 3 1700000000)]), [])) Toy.after_caching) as Hr.
  { eapply rtc_l; [exact (step_read_name _ _ "ann" _)|]. eapply rtc_l; [|apply rtc_refl].
    apply (step_put Toy.users Toy.clock Toy.ann). left. exists "ann". left. }
  exists (mkRoute "GET" "/api/v1/backtest/jobs" [RequireUser; RequireUser]). eexists.
  split; [vm_compute; reflexivity|]. split; [vm_compute; reflexivity|].
  eapply (routes_are_gated Toy.users Toy.clock Toy.library Toy.environ (λ _, true) true _ None (Some "tok") Toy.service
    (0, [("tok", session_claims (uuid_text 7) 3 1700000000)]) Toy.after_caching _ _ eq_refl Hr); vm_compute; reflexivity.
  Unshelve. by apply (bool_decide_unpack _); vm_compute.
Defined.

(** ** Start-up and shut-down *)

Inductive life_event :=
| LOpen (r : res exn unit) | LClose (r : res exn unit) | LPublish (r : res exn Z) | LCaches (r : res exn unit)
| LServe (r : res exn unit).

Definition traced_life {W} (S : StartupEnv W) : StartupEnv (W * list life_event) := {|
  open_the_pool := logged LOpen open_the_pool;
  close_the_pools := logged LClose close_the_pools;
  auth_service_new := unlogged auth_service_new;
  credential_crypto_new := unlogged credential_crypto_new;
  publish_everything := logged LPublish publish_everything;
  load_caches := logged LCaches load_caches;
  build_registry := unlogged build_registry;
  empty_registry := unlogged empty_registry;
  publish_limits := unlogged publish_limits;
  build_services := unlogged build_services
|}.

Section life.
Context {W : Type} (S : StartupEnv W) (serve : prog W exn unit).
#[local] Existing Instance traced_life.

(** What happens between opening the pool and closing the pools. *)
Definition inside (new : list life_event) (r : res exn unit) : Prop :=
  (∀ q, LClose q ∉ new) ∧ (∀ q, LOpen q ∉ new) ∧
  (∀ q, LServe q ∈ new → r = q ∧ ∃ n, new = [LPublish (Ok n); LCaches (Ok tt); LServe q]) ∧
  (r = Ok tt → LServe (Ok tt) ∈ new).

Definition startup_body : prog (W * list life_event) exn unit :=
  _ ← auth_service_new;
  _ ← credential_crypto_new;
  _ ← catch publish_everything (λ _, raise (RuntimeError "RefDataPublisher.publish_all() failed; startup aborted"));
  _ ← load_caches;
  _ ← catch build_registry (λ _, empty_registry);
  _ ← catch publish_limits (λ _, mret tt);
  _ ← build_services;
  logged LServe serve.

Lemma not_served new e : (∀ q, LClose q ∉ new) → (∀ q, LOpen q ∉ new) → (∀ q, LServe q ∉ new) → inside new (Raise e).
Proof. intros Hc Ho Hs. split_and!; [done..| |done]. intros q Hq. by destruct (Hs q). Qed.

Lemma unlogged_catch {A} (m : prog W exn A) (h : exn → prog W exn A) h' w tr :
  (∀ e x, h' e (x, tr) = unlogged (Ev := life_event) (h e) (x, tr)) →
  catch (unlogged m) h' (w, tr) = unlogged (catch m h) (w, tr).
Proof.
  intros Hh. unfold catch. rewrite unlogged_eq. unfold unlogged. cbn [fst snd]. destruct (m w) as [[?|e] w']; [done|].
  rewrite Hh. done.
Qed.

Lemma caught_step {A B} (m : prog W exn A) h h' (f : A → prog (W * list life_event) exn B) w tr :
  (∀ e x, h' e (x, tr) = unlogged (h e) (x, tr)) →
  (catch (unlogged m) h' ≫= f) (w, tr) =
  match catch m h w with (Ok a, w') => f a (w', tr) | (Raise e, w') => (Raise e, (w', tr)) end.
Proof.
  intros Hh. unfold mbind, prog_bind. rewrite (unlogged_catch m h h' w tr Hh), unlogged_eq. cbn [fst snd].
  by destruct (catch m h w) as [[?|?] ?].
Qed.

Lemma caught_logged {A B} (f : res exn A → life_event) (m : prog W exn A) e (g : A → prog (W * list life_event) exn B) w tr :
  (catch (logged f m) (λ _, raise e) ≫= g) (w, tr) =
  match m w with
  | (Ok a, w') => g a (w', (tr ++ [f (Ok a)])%list)
  | (Raise x, w') => (Raise e, (w', (tr ++ [f (Raise x)])%list))
  end.
Proof. unfold mbind, prog_bind, catch. rewrite logged_eq. cbn [fst snd]. by destruct (m w) as [[?|?] ?]. Qed.

Ltac no_event := intros ?; rewrite ?not_elem_of_cons; split_and?; try done; apply not_elem_of_nil.

Lemma startup_events w tr : let '(r, s') := startup_body (w, tr) in ∃ new, s'.2 = (tr ++ new)%list ∧ inside new r.
Proof.
  unfold startup_body. cbn [auth_service_new credential_crypto_new publish_everything load_caches build_registry
    empty_registry publish_limits build_services traced_life].
  assert (∀ (e : exn), ∃ new, tr = (tr ++ new)%list ∧ inside new (Raise e)) as Hnone.
  { intros e. exists []. rewrite app_nil_r. split; [done|]. apply not_served; no_event. }
  rewrite unlogged_bind. destruct (auth_service_new w) as [[[]|e] w1]; cbn [fst snd]; [|apply Hnone].
  rewrite unlogged_bind. destruct (credential_crypto_new w1) as [[[]|e] w2]; cbn [fst snd]; [|apply Hnone].
  rewrite caught_logged.
  destruct (publish_everything w2) as [[n|e] w3].
  2: { exists [LPublish (Raise e)]. split; [done|]. apply not_served; no_event. }
  rewrite logged_bind. destruct (load_caches w3) as [[[]|e] w4]; cbn [fst snd]; rewrite <-app_assoc.
  2: { exists [LPublish (Ok n); LCaches (Raise e)]. split; [done|]. apply not_served; no_event. }
  set (new := ([LPublish (Ok n)] ++ [LCaches (Ok tt)])%list).
  assert (∀ (e : exn), ∃ x, (tr ++ new = tr ++ x)%list ∧ inside x (Raise e)) as Hnew.
  { intros e. exists new. split; [done|]. apply not_served; unfold new; cbn [app]; no_event. }
  rewrite (caught_step build_registry (λ _, empty_registry)) by done.
  destruct (catch build_registry _ w4) as [[[]|e] w5]; cbn [fst snd]; [|apply Hnew].
  rewrite (caught_step publish_limits (λ _, mret tt)) by done.
  destruct (catch publish_limits _ w5) as [[[]|e] w6]; cbn [fst snd]; [|apply Hnew].
  rewrite unlogged_bind. destruct (build_services w6) as [[[]|e] w7]; cbn [fst snd]; [|apply Hnew].
  rewrite logged_eq. cbn [fst snd]. destruct (serve w7) as [r w8]. cbn [fst snd].
  exists (new ++ [LServe r])%list. split; [by rewrite <-app_assoc|]. unfold new. cbn [app]. split_and!.
  - intros q. rewrite !not_elem_of_cons. split_and!; try done. apply not_elem_of_nil.
  - intros q. rewrite !not_elem_of_cons. split_and!; try done. apply not_elem_of_nil.
  - intros q. rewrite !elem_of_cons, elem_of_nil. intros [?|[?|[[= ->]|[]]]]; [done|done|]. split; [done|]. by exists n.
  - intros ->. right. right. left.
Qed.

(** The process serves requests only between a successful start and the closing
    of its pools: it is reached only when the pool opened, every table was published
    and the caches were loaded, in that order; once the pool is open the pools are
    closed exactly once and last, whatever went wrong before; and when the pool does
    not open nothing else happens. *)
Theorem pools_outlive_requests w tr :
  let '(r, s') := lifespan (logged LServe serve) (w, tr) in
  ∃ new, s'.2 = (tr ++ new)%list ∧
    ((∃ e, new = [LOpen (Raise e)] ∧ r = Raise e) ∨
     ∃ mid q, new = (LOpen (Ok tt) :: mid ++ [LClose q])%list ∧ (∀ x, LClose x ∉ mid) ∧
       (∀ x, LServe x ∈ mid → ∃ n, mid = [LPublish (Ok n); LCaches (Ok tt); LServe x]) ∧
       (r = Ok tt → q = Ok tt ∧ LServe (Ok tt) ∈ mid)).
Proof.
  change (lifespan (logged LServe serve))
    with (logged LOpen (open_the_pool (StartupEnv := S)) ≫= λ _, finally startup_body (logged LClose (close_the_pools (StartupEnv := S)))).
  rewrite logged_bind.
  destruct (open_the_pool w) as [[[]|e] w1]; cbn [fst snd].
  2: { exists [LOpen (Raise e)]. split; [done|]. left. by exists e. }
  unfold finally. pose proof (startup_events w1 (tr ++ [LOpen (Ok tt)])%list) as Hs.
  destruct (startup_body (w1, (tr ++ [LOpen (Ok tt)])%list)) as [r [w2 tr2]]. destruct Hs as (mid & Htr & Hc & Ho & Hserve & Hok).
  cbn [snd] in Htr. subst tr2. rewrite logged_eq. cbn [fst snd]. destruct (close_the_pools w2) as [q w3] eqn:Eq. cbn [fst snd].
  destruct q as [[]|e]; cbn [fst snd].
  - exists (LOpen (Ok tt) :: mid ++ [LClose (Ok tt)])%list. split; [by rewrite <-!app_assoc|]. right. exists mid, (Ok tt).
    split_and!; [done|done| |by auto]. intros x Hx. by destruct (Hserve x Hx) as [_ ?].
  - exists (LOpen (Ok tt) :: mid ++ [LClose (Raise e)])%list. split; [by rewrite <-!app_assoc|]. right. exists mid, (Raise e).
    split_and!; [done|done| |done]. intros x Hx. by destruct (Hserve x Hx) as [_ ?].
Qed.
End life.
