(* ===== verification/Schedules.v ===== *)
(** * The schedules of the maintenance jobs

    [scripts/sync_schedules.py] and the jobs under [config/scheduler/]: which files
    are jobs, what a schedule is created with, and which are written.  The directory,
    the YAML reader and the two AWS clients are parameters.  The last part follows a
    shipped job from its file to the endpoint that runs it. *)
From S2P Require Import Prelude PyFloat PyData Order Errors PyValue RefData Auth Database Repos Sources Maintenance Routes.
Local Open Scope string_scope.
Local Open Scope Z_scope.

Class ScheduleEnv (W : Type) := {
  (** [CONFIG_DIR], [CONFIG_DIR.is_dir()] and the names [CONFIG_DIR.glob("*.yml")] finds *)
  config_dir : string;
  config_is_dir : prog W exn bool;
  glob_yml : prog W exn (list string);
  (** [yaml.safe_load] of the file *)
  safe_load : string → prog W exn pyval;
  (** the [Outputs] of each stack [describe_stacks] answers with *)
  describe_stacks : string → prog W exn (list (option (list (string * string))));
  update_schedule : pyval → prog W exn unit;
  create_schedule : pyval → prog W exn unit;
  (** a line on standard output *)
  shown : string → W → W;
  (** [json.dumps] *)
  input_dumps : pyval → string
}.

Definition PROJECT : string := "quant".
Definition SCHEDULER_STACK : string := PROJECT +:+ "-scheduler".

(** ** Reading the jobs *)

Section sync.
Context {W : Type} `{ScheduleEnv W}.

(** [print] *)
Definition print_line (line : string) : prog W exn unit := λ w, (Ok tt, shown line w).

(** [_get_stack_outputs] *)
Definition get_stack_outputs (stack_name : string) : prog W exn (list (string * string)) :=
  stacks ← describe_stacks stack_name;
  match stacks with
  | [] => raise (plain CIndexError "list index out of range")
  | outputs :: _ => mret (dict_comp fst snd (default [] outputs))
  end.

(** [not job or not job.get(key)] *)
Definition lacks (key : string) (job : pyval) : res exn bool :=
  if truthy job then v ← get key job; mret (negb (truthy v)) else mret true.

(** one file of [_load_jobs] *)
Definition load_job (name : string) : prog W exn (option pyval) :=
  job ← safe_load name;
  no_task ← lift_res (lacks "task" job);
  if no_task : bool then
    _ ← print_line ("  SKIP " +:+ name +:+ ": missing 'task' field"); mret None
  else
    path ← lift_res (get "path" job);
    if negb (truthy path) then
      raise (SystemExit
        ("ERROR " +:+ name +:+ ": missing 'path' field. The schedule's event " +:+
         "carries the API path, so each job must declare where it posts " +:+
         "(e.g. path: /api/v1/scheduler/tick)."))
    else
      match job with
      | VDict d => mret (Some (VDict (dict_set "_file" (VStr name) d)))
      | _ => raise (TypeError ("'" +:+ type_name job +:+ "' object does not support item assignment"))
      end.

(** [_load_jobs] *)
Definition load_jobs : prog W exn (list pyval) :=
  names ← glob_yml;
  jobs ← for_each load_job (sorted_by String.leb names);
  mret (omap id jobs).

(** ** Writing the schedules *)

(** The arguments of [_upsert_schedule] that a job gives. *)
Record job_args := mkJobArgs {
  ja_name : string; ja_expression : pyval; ja_timezone : pyval; ja_description : pyval;
  ja_event_input : pyval; ja_enabled : pyval
}.

(** [event_input] *)
Definition event_input (job : pyval) : res exn pyval :=
  task ← getitem "task" job;
  path ← getitem "path" job;
  p ← get "payload" job;
  extra ← (if truthy p then v ← getitem "payload" job; mret [("payload", v)] else mret []);
  mret (VDict ([("task", task); ("path", path)] ++ extra)).

(** [f"{PROJECT}-{job['task'].replace('_', '-')}"] *)
Definition schedule_name (job : pyval) : res exn string :=
  task ← getitem "task" job;
  match task with
  | VStr s => Ok (PROJECT +:+ "-" +:+ str_map (λ c, if Ascii.eqb c "_" then "-"%char else c) s)
  | _ => Raise (AttributeError ("'" +:+ type_name task +:+ "' object has no attribute 'replace'"))
  end.

(** what [main] reads of a job *)
Definition args_of (job : pyval) : res exn job_args :=
  schedule ← get_or "schedule" (VDict []) job;
  name ← schedule_name job;
  expression ← get_or "expression" (VStr "") schedule;
  timezone ← get_or "timezone" (VStr "UTC") schedule;
  description ← get_or "description" (VStr "") job;
  input ← event_input job;
  enabled ← get_or "enabled" (VBool true) job;
  mret (mkJobArgs name expression timezone description input enabled).

Definition state_of (enabled : pyval) : string := if truthy enabled then "ENABLED" else "DISABLED".

(** [kwargs] of [_upsert_schedule] *)
Definition schedule_kwargs (group target_arn role_arn : string) (a : job_args) : pyval :=
  VDict ([("Name", VStr (ja_name a)); ("GroupName", VStr group); ("ScheduleExpression", ja_expression a);
          ("ScheduleExpressionTimezone", ja_timezone a); ("FlexibleTimeWindow", VDict [("Mode", VStr "OFF")]);
          ("State", VStr (state_of (ja_enabled a)));
          ("Target", VDict [("Arn", VStr target_arn); ("RoleArn", VStr role_arn);
                            ("Input", VStr (input_dumps (ja_event_input a)));
                            ("RetryPolicy", VDict [("MaximumRetryAttempts", VInt 0)])])]
         ++ (if truthy (ja_description a) then [("Description", ja_description a)] else [])).

(** The line printed of a schedule. *)
Definition report_line (what : string) (a : job_args) : string :=
  "  " +:+ what +:+ "  " +:+ ja_name a +:+ "  " +:+ str_val (ja_expression a) +:+ "  state=" +:+ state_of (ja_enabled a).

(** [_upsert_schedule] *)
Definition upsert_schedule (group target_arn role_arn : string) (dry_run : bool) (a : job_args) : prog W exn unit :=
  let kwargs := schedule_kwargs group target_arn role_arn a in
  if dry_run then print_line (report_line "DRY RUN" a)
  else
    catch (_ ← update_schedule kwargs; print_line (report_line "UPDATED" a))
      (λ e, if isinstance e CResourceNotFound then _ ← create_schedule kwargs; print_line (report_line "CREATED" a)
            else raise e).

(** one job of [main] *)
Definition sync_job (group target_arn role_arn : string) (dry_run : bool) (job : pyval) : prog W exn unit :=
  a ← lift_res (args_of job); upsert_schedule group target_arn role_arn dry_run a.

(** [main] *)
Definition sync_main (dry_run : bool) : prog W exn unit :=
  is_dir ← config_is_dir;
  if negb is_dir then print_line ("No config directory at " +:+ config_dir +:+ " — nothing to sync.")
  else
    jobs ← load_jobs;
    match jobs with
    | [] => print_line "No job definitions found in config/scheduler/."
    | _ =>
        outputs ← get_stack_outputs SCHEDULER_STACK;
        let out key := default "" (dict_get key outputs) in
        let lambda_arn := out "ScheduledTaskLambdaArn" in
        let role_arn := out "SchedulerInvokeRoleArn" in
        let group_name := out "SystemJobsScheduleGroupName" in
        if existsb (String.eqb "") [lambda_arn; role_arn; group_name] then
          _ ← print_line ("ERROR: Missing CFN outputs from " +:+ SCHEDULER_STACK +:+ ".");
          _ ← print_line ("  Found: " +:+ repr_val (VList (VStr <$> outputs.*1)));
          raise (SystemExit "1")
        else
          _ ← print_line ("Syncing " +:+ str_Z (Z.of_nat (length jobs)) +:+ " schedule(s) → group=" +:+ group_name);
          _ ← for_each (sync_job group_name lambda_arn role_arn dry_run) jobs;
          print_line "Done."
    end.
End sync.

(** ** The jobs that are shipped *)

Definition detach_api_request_payload_yml : pyval :=
  VDict [("task", VStr "detach_api_request_payload");
         ("path", VStr "/api/v1/admin/db/detach-api-request-payload");
         ("description", VStr "Detach API_REQUEST_PAYLOAD partitions older than 14 days");
         ("enabled", VBool true);
         ("payload", VDict [("retention_days", VInt 14)]);
         ("schedule", VDict [("expression", VStr "cron(15 3 * * ? *)"); ("timezone", VStr "UTC")])].
Definition fill_scheduled_providers_yml : pyval :=
  VDict [("task", VStr "fill_scheduled_providers");
         ("path", VStr "/api/v1/admin/providers/fill");
         ("description", VStr "Insert a fresh window for every non-exchange app whose Refresh dataset flag is N");
         ("enabled", VBool true);
         ("payload", VDict [("since", VStr "2010-01-01")]);
         ("schedule", VDict [("expression", VStr "cron(15 6 * * ? *)"); ("timezone", VStr "UTC")])].
Definition log_proc_summary_yml : pyval :=
  VDict [("task", VStr "log_proc_summary");
         ("path", VStr "/api/v1/admin/log-proc-summary/summarize");
         ("description", VStr "Aggregate LOG_PROC_DETAIL into daily per-proc call counts");
         ("enabled", VBool true);
         ("schedule", VDict [("expression", VStr "cron(15 23 * * ? *)"); ("timezone", VStr "UTC")])].
Definition price_bar_sync_yml : pyval :=
  VDict [("task", VStr "price_bar_sync");
         ("path", VStr "/api/v1/market-data/price-bars/sync");
         ("description", VStr "Warm MARKET_DATA.PRICE_BAR for every scheduled deployment's instrument");
         ("enabled", VBool true);
         ("schedule", VDict [("expression", VStr "cron(0 * * * ? *)"); ("timezone", VStr "UTC")])].
Definition term_stale_connections_yml : pyval :=
  VDict [("task", VStr "term_stale_connections");
         ("path", VStr "/api/v1/admin/db/terminate-stale-connections");
         ("description", VStr "Terminate quant_app Postgres sessions idle longer than one hour");
         ("enabled", VBool true);
         ("payload", VDict [("idle_seconds", VInt 3600)]);
         ("schedule", VDict [("expression", VStr "cron(45 * * * ? *)"); ("timezone", VStr "UTC")])].
Definition trade_apply_tick_yml : pyval :=
  VDict [("task", VStr "trade_apply_tick");
         ("path", VStr "/api/v1/scheduler/tick");
         ("description", VStr "Apply all due trade deployments across every interval");
         ("enabled", VBool true);
         ("schedule", VDict [("expression", VStr "cron(55 * * * ? *)"); ("timezone", VStr "UTC")])].

Definition job_files : list (string * pyval) :=
  [("detach_api_request_payload.yml", detach_api_request_payload_yml);
   ("fill_scheduled_providers.yml", fill_scheduled_providers_yml);
   ("log_proc_summary.yml", log_proc_summary_yml);
   ("price_bar_sync.yml", price_bar_sync_yml);
   ("term_stale_connections.yml", term_stale_connections_yml);
   ("trade_apply_tick.yml", trade_apply_tick_yml)].

(** ** What a sync reads and writes *)

Inductive sched_event :=
| SDir (r : res exn bool)
| SGlob (r : res exn (list string))
| SLoad (name : string) (r : res exn pyval)
| SStacks (stack : string) (r : res exn (list (option (list (string * string)))))
| SUpdate (kwargs : pyval) (r : res exn unit)
| SCreate (kwargs : pyval) (r : res exn unit).

Definition traced_sched {W} (S : ScheduleEnv W) : ScheduleEnv (W * list sched_event) := {|
  config_dir := config_dir;
  config_is_dir := logged SDir config_is_dir;
  glob_yml := logged SGlob glob_yml;
  safe_load n := logged (SLoad n) (safe_load n);
  describe_stacks n := logged (SStacks n) (describe_stacks n);
  update_schedule k := logged (SUpdate k) (update_schedule k);
  create_schedule k := logged (SCreate k) (create_schedule k);
  shown t s := (shown t s.1, s.2);
  input_dumps := input_dumps
|}.

(** *** What the files ask for *)

#[local] Abbreviation job_dict := (list (string * pyval)).

Definition field (k : string) (other : pyval) (d : job_dict) : pyval := default other (dict_get k d).

(** A file that is passed over: it is empty, or names no task. *)
Definition skipped (doc : pyval) : Prop :=
  truthy doc = false ∨ ∃ d, doc = VDict d ∧ truthy (field "task" VNone d) = false.

(** A job: it names a task and the path it posts to. *)
Definition is_job (d : job_dict) : Prop := truthy (field "task" VNone d) = true ∧ truthy (field "path" VNone d) = true.

(** The jobs of files read one after the other; a job remembers its file. *)
Inductive files_read : list string → list sched_event → list job_dict → Prop :=
| read_none : files_read [] [] []
| read_skipped n names doc evs jobs : skipped doc → files_read names evs jobs →
    files_read (n :: names) (SLoad n (Ok doc) :: evs) jobs
| read_job n names d evs jobs : is_job d → files_read names evs jobs →
    files_read (n :: names) (SLoad n (Ok (VDict d)) :: evs) (dict_set "_file" (VStr n) d :: jobs).

(** What the stack gives under a key, the last entry of that key. *)
Definition output (key : string) (outputs : option (list (string * string))) : option string :=
  snd <$> last (filter (λ o, o.1 = key) (default [] outputs)).

Definition deployed (stacks : list (option (list (string * string)))) (function role group : string) : Prop :=
  ∃ outputs more, stacks = outputs :: more ∧
    output "ScheduledTaskLambdaArn" outputs = Some function ∧ function ≠ "" ∧
    output "SchedulerInvokeRoleArn" outputs = Some role ∧ role ≠ "" ∧
    output "SystemJobsScheduleGroupName" outputs = Some group ∧ group ≠ "".

(** The schedule a job asks for, of the deployed function. *)
Definition asked (dumps : pyval → string) (function role group : string) (d : job_dict) : option pyval :=
  match dict_get "task" d, field "schedule" (VDict []) d with
  | Some (VStr task), VDict times =>
      let payload := field "payload" VNone d in
      let event := VDict ([("task", VStr task); ("path", field "path" VNone d)]
                          ++ (if truthy payload then [("payload", payload)] else [])) in
      let description := field "description" (VStr "") d in
      Some (VDict ([
        ("Name", VStr ("quant-" +:+ str_map (λ c, if Ascii.eqb c "_" then "-"%char else c) task));
        ("GroupName", VStr group);
        ("ScheduleExpression", field "expression" (VStr "") times);
        ("ScheduleExpressionTimezone", field "timezone" (VStr "UTC") times);
        ("FlexibleTimeWindow", VDict [("Mode", VStr "OFF")]);
        ("State", VStr (if truthy (field "enabled" (VBool true) d) then "ENABLED" else "DISABLED"));
        ("Target", VDict [("Arn", VStr function); ("RoleArn", VStr role); ("Input", VStr (dumps event));
                          ("RetryPolicy", VDict [("MaximumRetryAttempts", VInt 0)])])]
        ++ (if truthy description then [("Description", description)] else [])))
  | _, _ => None
  end.

Section order.
Context (dumps : pyval → string) (function role group : string).
#[local] Abbreviation asks := (asked dumps function role group).

(** The writes of a sync over the jobs it loaded, and how it ends: one schedule per
    job in their order, created with the same arguments when there was none to
    update; the first failure is the last write. *)
Inductive writes : list job_dict → list sched_event → res exn unit → Prop :=
| writes_done : writes [] [] (Ok tt)
| writes_malformed d jobs e : asks d = None → writes (d :: jobs) [] (Raise e)
| writes_updated d jobs kw evs r :
    asks d = Some kw → writes jobs evs r → writes (d :: jobs) (SUpdate kw (Ok tt) :: evs) r
| writes_created d jobs kw e evs r :
    asks d = Some kw → isinstance e CResourceNotFound = true → writes jobs evs r →
    writes (d :: jobs) (SUpdate kw (Raise e) :: SCreate kw (Ok tt) :: evs) r
| writes_refused d jobs kw e :
    asks d = Some kw → isinstance e CResourceNotFound = false → writes (d :: jobs) [SUpdate kw (Raise e)] (Raise e)
| writes_not_created d jobs kw e e' :
    asks d = Some kw → isinstance e CResourceNotFound = true →
    writes (d :: jobs) [SUpdate kw (Raise e); SCreate kw (Raise e')] (Raise e').

(** A whole sync, as it goes. *)
Inductive synced (dry_run : bool) : list sched_event → res exn unit → Prop :=
| synced_no_answer e : synced dry_run [SDir (Raise e)] (Raise e)
| synced_no_directory : synced dry_run [SDir (Ok false)] (Ok tt)
| synced_no_listing e : synced dry_run [SDir (Ok true); SGlob (Raise e)] (Raise e)
| synced_bad_file names before n after evs jobs q e :
    sorted_by String.leb names = (before ++ n :: after)%list → files_read before evs jobs →
    q = Raise e ∨ (∃ doc, q = Ok doc ∧ ¬ skipped doc ∧ ∀ d, doc = VDict d → ¬ is_job d) →
    synced dry_run (SDir (Ok true) :: SGlob (Ok names) :: evs ++ [SLoad n q]) (Raise e)
| synced_no_job names evs : files_read (sorted_by String.leb names) evs [] →
    synced dry_run (SDir (Ok true) :: SGlob (Ok names) :: evs) (Ok tt)
| synced_no_stack names evs jobs q e :
    files_read (sorted_by String.leb names) evs jobs → jobs ≠ [] →
    q = Raise e ∨ (∃ stacks, q = Ok stacks ∧ ∀ f r g, ¬ deployed stacks f r g) →
    synced dry_run (SDir (Ok true) :: SGlob (Ok names) :: evs ++ [SStacks "quant-scheduler" q]) (Raise e)
| synced_preview names evs jobs stacks r : dry_run = true →
    files_read (sorted_by String.leb names) evs jobs → jobs ≠ [] → deployed stacks function role group →
    (r = Ok tt ↔ Forall (λ d, is_Some (asks d)) jobs) →
    synced dry_run (SDir (Ok true) :: SGlob (Ok names) :: evs ++ [SStacks "quant-scheduler" (Ok stacks)]) r
| synced_written names evs jobs stacks written r : dry_run = false →
    files_read (sorted_by String.leb names) evs jobs → jobs ≠ [] → deployed stacks function role group →
    writes jobs written r →
    synced dry_run (SDir (Ok true) :: SGlob (Ok names) :: evs ++ SStacks "quant-scheduler" (Ok stacks) :: written) r.
End order.
#[local] Hint Constructors writes : core.

Section writes.
Context {W : Type} (S : ScheduleEnv W).
#[local] Existing Instance traced_sched.

#[local] Abbreviation dumps := (@input_dumps W S).

Lemma of_run {A B} (p : A * B) (P : A → B → Prop) r s : (let '(r, s) := p in P r s) → p = (r, s) → P r s.
Proof. by intros Hp ->. Qed.

(** *** The files *)

Lemma print_eq line (w : W) (tr : list sched_event) : print_line line (w, tr) = (Ok tt, (shown line w, tr)).
Proof. done. Qed.

Lemma lacks_eq key doc : lacks key doc =
  if truthy doc then match doc with VDict d => Ok (negb (truthy (field key VNone d))) | _ => _ ← get key doc; Ok false end
  else Ok true.
Proof. unfold lacks. by destruct (truthy doc), doc. Qed.

Lemma load_job_events n w tr : let '(r, s') := load_job n (w, tr) in ∃ q, s'.2 = (tr ++ [SLoad n q])%list ∧
  match r with
  | Ok None => ∃ doc, q = Ok doc ∧ skipped doc
  | Ok (Some job) => ∃ d, q = Ok (VDict d) ∧ is_job d ∧ job = VDict (dict_set "_file" (VStr n) d)
  | Raise e => q = Raise e ∨ ∃ doc, q = Ok doc ∧ ¬ skipped doc ∧ ∀ d, doc = VDict d → ¬ is_job d
  end.
Proof.
  unfold load_job. cbn [safe_load traced_sched]. rewrite logged_bind.
  destruct (safe_load n w) as [[doc|e] w1]; cbn [fst snd]; [|exists (Raise e); by split; [|left]].
  rewrite lift_bind, lacks_eq. destruct (truthy doc) eqn:Et.
  2: { unfold mbind, prog_bind. rewrite print_eq. exists (Ok doc). split; [done|]. exists doc. by split; [|left]. }
  destruct doc as [| | | | |l|d];
    try (cbn; eexists (Ok _); split; [done|]; right; eexists; split; [done|]; split; [|done]; intros [Hs|(? & ? & ?)]; congruence).
  destruct (truthy (field "task" VNone d)) eqn:Ek; cbn [negb].
  2: { unfold mbind, prog_bind. rewrite print_eq. exists (Ok (VDict d)). split; [done|]. exists (VDict d). split; [done|].
       right. by exists d. }
  rewrite lift_bind. cbn [get]. fold (field "path" VNone d). destruct (truthy (field "path" VNone d)) eqn:Ep; cbn [negb].
  - exists (Ok (VDict d)). split; [done|]. by exists d.
  - exists (Ok (VDict d)). split; [done|]. right. exists (VDict d). split; [done|]. split.
    + intros [?|(d' & [= <-] & ?)]; congruence.
    + intros d' [= <-] [_ ?]. congruence.
Qed.

Lemma load_files names w tr : let '(r, s') := for_each load_job names (w, tr) in ∃ evs, s'.2 = (tr ++ evs)%list ∧
  match r with
  | Ok js => ∃ jobs, files_read names evs jobs ∧ omap id js = map VDict jobs
  | Raise e => ∃ before n after evs' jobs q, names = (before ++ n :: after)%list ∧ files_read before evs' jobs ∧
      evs = (evs' ++ [SLoad n q])%list ∧
      (q = Raise e ∨ ∃ doc, q = Ok doc ∧ ¬ skipped doc ∧ ∀ d, doc = VDict d → ¬ is_job d)
  end.
Proof.
  revert w tr. induction names as [|n names IH]; intros w tr; cbn [for_each].
  { exists []. rewrite app_nil_r. split; [done|]. exists []. split; [constructor|done]. }
  pose proof (load_job_events n w tr) as Hj. destruct (load_job n (w, tr)) as [[j|e] [w1 tr1]] eqn:Ej; destruct Hj as (q & Hq & Hj).
  2: { rewrite (bind_raise _ _ _ _ _ Ej). exists [SLoad n q]. split; [done|]. exists [], n, names, [], [], q.
       split_and!; [done|constructor|done|done]. }
  rewrite (bind_ok _ _ _ _ _ Ej). cbn [snd] in Hq. subst tr1. specialize (IH w1 (tr ++ [SLoad n q])%list).
  destruct (for_each load_job names _) as [[js|e] s2] eqn:Er; destruct IH as (evs & Hs & Hr).
  - rewrite (bind_ok _ _ _ _ _ Er). exists (SLoad n q :: evs). cbn [snd mret prog_ret]. rewrite <-app_assoc in Hs. split; [exact Hs|].
    destruct Hr as (jobs & Hf & Hjs). destruct j as [job|].
    + destruct Hj as (d & -> & Hd & ->). exists (dict_set "_file" (VStr n) d :: jobs). split; [by constructor|]. cbn. by rewrite Hjs.
    + destruct Hj as (doc & -> & Hd). exists jobs. by split; [constructor|].
  - rewrite (bind_raise _ _ _ _ _ Er). exists (SLoad n q :: evs). rewrite <-app_assoc in Hs. split; [exact Hs|].
    destruct Hr as (before & m & after & evs' & jobs & q' & -> & Hf & -> & Hq').
    assert (∃ jobs, files_read (n :: before) (SLoad n q :: evs') jobs) as [jobs' Hf'].
    { destruct j as [job|]; [destruct Hj as (d & -> & Hd & _)|destruct Hj as (doc & -> & Hd)]; eexists; by constructor. }
    by exists (n :: before), m, after, (SLoad n q :: evs'), jobs', q'.
Qed.

Lemma files_are_jobs names evs jobs : files_read names evs jobs → Forall is_job jobs.
Proof.
  induction 1 as [| |n names d evs jobs [Ht Hp]]; [constructor|done|]. constructor; [|done].
  unfold is_job, field in *. by rewrite !dict_get_set_ne.
Qed.

(** *** The schedules *)

Lemma args_asked function role group d : is_job d →
  match args_of (VDict d) with
  | Ok a => asked dumps function role group d = Some (schedule_kwargs group function role a)
  | Raise _ => asked dumps function role group d = None
  end.
Proof.
  intros [Ht Hp]. unfold args_of, asked, schedule_name, event_input, schedule_kwargs, state_of, field in *.
  unfold get_or, getitem, get. destruct (dict_get "task" d) as [task|]; [|done]. destruct (dict_get "path" d) as [path|]; [|done].
  destruct task; cbn in Ht |- *; try (by destruct (default (VDict []) (dict_get "schedule" d))).
  destruct (default (VDict []) (dict_get "schedule" d)); try done. cbn.
  destruct (dict_get "payload" d) as [v|]; cbn; [|done]. by destruct (truthy v).
Qed.

Lemma sync_job_eq group function role dry d (s : W * list sched_event) :
  sync_job group function role dry (VDict d) s =
  match args_of (VDict d) with Ok a => upsert_schedule group function role dry a s | Raise e => (Raise e, s) end.
Proof. unfold sync_job. rewrite (lift_bind (args_of (VDict d))). by destruct (args_of (VDict d)). Qed.

Lemma upsert_events group function role a w tr :
  let kw := schedule_kwargs group function role a in
  let '(r, s') := upsert_schedule group function role false a (w, tr) in ∃ evs, s'.2 = (tr ++ evs)%list ∧
  ((r = Ok tt ∧ (evs = [SUpdate kw (Ok tt)] ∨
     ∃ e, isinstance e CResourceNotFound = true ∧ evs = [SUpdate kw (Raise e); SCreate kw (Ok tt)])) ∨
   ∃ e, r = Raise e ∧ ((isinstance e CResourceNotFound = false ∧ evs = [SUpdate kw (Raise e)]) ∨
     ∃ e', isinstance e' CResourceNotFound = true ∧ evs = [SUpdate kw (Raise e'); SCreate kw (Raise e)])).
Proof.
  cbv zeta. unfold upsert_schedule, catch. cbn [update_schedule create_schedule traced_sched]. rewrite logged_bind.
  change (@schedule_kwargs _ (traced_sched S) group function role a) with (schedule_kwargs group function role a).
  set (kw := schedule_kwargs group function role a).
  destruct (update_schedule kw w) as [[[]|e] w1]; cbn [fst snd].
  { rewrite print_eq. eexists. split; [done|]. left. by split; [|left]. }
  destruct (isinstance e CResourceNotFound) eqn:Ei; [|eexists; split; [done|]; right; exists e; split; [done|]; by left].
  rewrite logged_bind. destruct (create_schedule kw w1) as [[[]|e'] w2]; cbn [fst snd].
  - rewrite print_eq. eexists. rewrite <-app_assoc. split; [done|]. left. split; [done|]. right. by exists e.
  - eexists. rewrite <-app_assoc. split; [done|]. right. exists e'. split; [done|]. right. by exists e.
Qed.

Lemma sync_jobs_write function role group jobs w tr : Forall is_job jobs →
  let '(r, s') := for_each (sync_job group function role false) (map VDict jobs) (w, tr) in
  ∃ evs, s'.2 = (tr ++ evs)%list ∧ writes dumps function role group jobs evs (_ ← r; Ok tt).
Proof.
  intros Hjobs. revert w tr. induction Hjobs as [|d jobs Hd Hjobs IH]; intros w tr; cbn [map for_each].
  { exists []. by rewrite app_nil_r. }
  pose proof (args_asked function role group d Hd) as Ha. pose proof (sync_job_eq group function role false d (w, tr)) as Hs.
  destruct (args_of (VDict d)) as [a|e]; [|rewrite (bind_raise _ _ _ _ _ Hs); exists []; rewrite app_nil_r; split; [done|by apply writes_malformed]].
  pose proof (upsert_events group function role a w tr) as Hu. cbv zeta in Hu. rewrite <-Hs in Hu.
  destruct (sync_job group function role false (VDict d) (w, tr)) as [[[]|e] [w1 tr1]] eqn:Ej; destruct Hu as (ev & Hev & Hu).
  - rewrite (bind_ok _ _ _ _ _ Ej). cbn [snd] in Hev. subst tr1. specialize (IH w1 (tr ++ ev)%list).
    destruct Hu as [[_ Hu]|(? & ? & _)]; [|done].
    destruct (for_each _ _ _) as [[ys|e] s2] eqn:Er; destruct IH as (evs & Htr & Hw);
      [rewrite (bind_ok _ _ _ _ _ Er)|rewrite (bind_raise _ _ _ _ _ Er)]; exists (ev ++ evs)%list;
      (split; [by rewrite app_assoc|]); destruct Hu as [->|(e0 & He0 & ->)]; cbn [app]; eauto.
  - rewrite (bind_raise _ _ _ _ _ Ej). exists ev. split; [done|].
    destruct Hu as [[? _]|(? & [= <-] & [[? ->]|(? & ? & ->)])]; [done|eauto..].
Qed.

Lemma dry_run_previews function role group jobs w tr : Forall is_job jobs →
  let '(r, s') := for_each (sync_job group function role true) (map VDict jobs) (w, tr) in
  s'.2 = tr ∧ ((∃ ys, r = Ok ys) ↔ Forall (λ d, is_Some (asked dumps function role group d)) jobs).
Proof.
  intros Hjobs. revert w. induction Hjobs as [|d jobs Hd Hjobs IH]; intros w; cbn [map for_each].
  { split; [done|]. split; [constructor|by exists []]. }
  pose proof (args_asked function role group d Hd) as Ha. pose proof (sync_job_eq group function role true d (w, tr)) as Hs.
  destruct (args_of (VDict d)) as [a|e].
  - unfold upsert_schedule in Hs. rewrite print_eq in Hs. rewrite (bind_ok _ _ _ _ _ Hs).
    match type of Hs with _ = (_, (?w1, _)) => specialize (IH w1) end.
    destruct (for_each _ _ _) as [[ys|e] s2] eqn:Er; destruct IH as (Htr & Hiff);
      [rewrite (bind_ok _ _ _ _ _ Er)|rewrite (bind_raise _ _ _ _ _ Er)]; (split; [done|]); rewrite Forall_cons, <-Hiff, Ha.
    + split; [intros _; split; [by eexists|by exists ys]|by eexists].
    + split; [by intros [? ?]|by intros [_ [? ?]]].
  - rewrite (bind_raise _ _ _ _ _ Hs). split; [done|]. rewrite Forall_cons, Ha. split; [by intros [? ?]|by intros [[? ?] _]].
Qed.

(** *** The stack *)

Lemma output_eq key outputs : dict_get key (dict_comp fst snd (default [] outputs)) = output key outputs.
Proof. apply dict_get_comp. Qed.

Lemma outputs_found outputs more :
  let out key := default "" (dict_get key (dict_comp fst snd (default [] outputs))) in
  let all := [out "ScheduledTaskLambdaArn"; out "SchedulerInvokeRoleArn"; out "SystemJobsScheduleGroupName"] in
  if existsb (String.eqb "") all then ∀ f r g, ¬ deployed (outputs :: more) f r g
  else deployed (outputs :: more) (out "ScheduledTaskLambdaArn") (out "SchedulerInvokeRoleArn") (out "SystemJobsScheduleGroupName").
Proof.
  cbv beta zeta. rewrite !output_eq. destruct (existsb _ _) eqn:E.
  - intros f r g (o & m & [= <- <-] & Hf & Hf' & Hr & Hr' & Hg & Hg'). rewrite Hf, Hr, Hg in E. cbn [default existsb] in E.
    rewrite !orb_true_iff, !String.eqb_eq in E. unfold id in E. by intuition congruence.
  - cbn [existsb] in E. rewrite !orb_false_iff, !String.eqb_neq in E. destruct E as (E1 & E2 & E3 & _).
    exists outputs, more. destruct (output "ScheduledTaskLambdaArn" outputs), (output "SchedulerInvokeRoleArn" outputs),
      (output "SystemJobsScheduleGroupName" outputs); cbn [default] in *; done || by split_and!.
Qed.

(** C37. A sync as its log tells it.  It reads the files in the order of their names;
    one without a task is passed over, and one that cannot be read or that has a task
    and no path ends the sync before anything is written, as does a stack that does not
    give the function, the role and the group under their own keys.  Otherwise each
    job that was read is written in turn, with the name, times, state and event its
    file asks for, to that function, role and group: it is updated, or created with
    the same arguments when there is none to update; the first that fails is the last.
    A dry run reads the same and writes nothing; and a sync that succeeds without
    writing was one, or found no directory or no job. *)
Theorem sync_writes_each_job dry w tr :
  let '(r, s') := sync_main dry (w, tr) in
  ∃ new function role group, s'.2 = (tr ++ new)%list ∧ synced dumps function role group dry new r.
Proof.
  unfold sync_main. cbn [config_is_dir traced_sched]. rewrite logged_bind.
  destruct (config_is_dir w) as [[[]|e] w1]; cbn [fst snd negb].
  2: { rewrite print_eq. exists [SDir (Ok false)], "", "", "". split; [done|]. constructor. }
  2: { exists [SDir (Raise e)], "", "", "". split; [done|]. constructor. }
  unfold load_jobs. rewrite bind_assoc. cbn [glob_yml traced_sched]. rewrite logged_bind.
  destruct (glob_yml w1) as [[names|e] w2]; cbn [fst snd]; rewrite <-app_assoc.
  2: { exists [SDir (Ok true); SGlob (Raise e)], "", "", "". split; [done|]. constructor. }
  rewrite bind_assoc. pose proof (load_files (sorted_by String.leb names) w2 (tr ++ [SDir (Ok true)] ++ [SGlob (Ok names)])%list) as Hf.
  destruct (for_each load_job _ _) as [[js|e] [w3 tr3]] eqn:Ef; destruct Hf as (evs & Htr & Hf); cbn [snd] in Htr; subst tr3.
  2: { rewrite (bind_raise _ _ _ _ _ Ef). destruct Hf as (before & n & after & evs' & jobs & q & Hn & Hf & -> & Hq).
       eexists _, "", "", "". split; [by rewrite <-app_assoc|]. by eapply synced_bad_file. }
  rewrite (bind_ok _ _ _ _ _ Ef), mret_bind. destruct Hf as (jobs & Hf & ->). rewrite <-app_assoc. cbn [app].
  pose proof (files_are_jobs _ _ _ Hf) as Hjobs. destruct jobs as [|d jobs]; cbn [map].
  { rewrite print_eq. eexists _, "", "", "". split; [done|]. by constructor. }
  change (VDict d :: map VDict jobs) with (map VDict (d :: jobs)). set (all := d :: jobs) in *.
  assert (all ≠ []) as Hne by done. clearbody all.
  unfold get_stack_outputs. rewrite bind_assoc. cbn [describe_stacks traced_sched]. rewrite logged_bind.
  change SCHEDULER_STACK with "quant-scheduler".
  destruct (describe_stacks "quant-scheduler" w3) as [[stacks|e] w4]; cbn [fst snd]; rewrite <-app_assoc; cbn [app].
  2: { eexists _, "", "", "". split; [done|]. eapply synced_no_stack; eauto. }
  destruct stacks as [|outputs more].
  { eexists _, "", "", "". split; [done|]. eapply synced_no_stack; [done..|]. right. exists []. split; [done|].
    by intros f r g (? & ? & ? & _). }
  rewrite mret_bind. pose proof (outputs_found outputs more) as Ho. cbv beta zeta in Ho |- *.
  destruct (existsb _ _).
  { unfold mbind, prog_bind. rewrite !print_eq. eexists _, "", "", "". split; [done|]. eapply synced_no_stack; eauto. }
  set (function := default "" (dict_get "ScheduledTaskLambdaArn" _)) in *.
  set (role := default "" (dict_get "SchedulerInvokeRoleArn" _)) in *.
  set (group := default "" (dict_get "SystemJobsScheduleGroupName" _)) in *.
  unfold mbind, prog_bind. rewrite print_eq. destruct dry.
  - destruct (for_each (sync_job _ _ _ _) _ _) as [r s6] eqn:E. apply (of_run _ _ _ _ (dry_run_previews function role group all _ _ Hjobs)) in E.
    destruct E as (Htr & Hiff). destruct s6 as [w6 tr6]. cbn [snd] in Htr. subst tr6.
    destruct r as [ys|e]; rewrite ?print_eq; eexists _, function, role, group; (split; [done|]);
      apply synced_preview with all; try done; rewrite <-Hiff; [by split; [exists ys|]|by split; [|intros [? ?]]].
  - destruct (for_each (sync_job _ _ _ _) _ _) as [r s6] eqn:E. apply (of_run _ _ _ _ (sync_jobs_write function role group all _ _ Hjobs)) in E.
    destruct E as (written & Htr & Hw). destruct s6 as [w6 tr6]. cbn [snd] in Htr. subst tr6.
    destruct r as [ys|e]; rewrite ?print_eq; eexists _, function, role, group; (split; [by rewrite <-app_assoc|]); cbn [app];
      rewrite <-app_assoc; by apply synced_written with all.
Qed.
End writes.

(** ** From a file to the endpoint that runs it *)

(** A path of the API, which [resolve_task] takes. *)
Definition api_path (path : string) : bool :=
  String.prefix "/" path && negb (String.prefix "//" path) && negb (str_contains "://" path).

Lemma args_of_input job a : args_of job = Ok a → event_input job = Ok (ja_event_input a).
Proof.
  unfold args_of. intros Ha.
  repeat match type of Ha with (?m ≫= _) = Ok _ => destruct m eqn:?; [cbn [mbind res_bind] in Ha|discriminate Ha] end.
  by injection Ha as <-.
Qed.

(** The body a file gives its endpoint, when it gives one. *)
Definition body_of (d : job_dict) : pyval :=
  let payload := field "payload" VNone d in if truthy payload then payload else VDict [].

Lemma job_event d task path a : dict_get "task" d = Some (VStr task) → dict_get "path" d = Some (VStr path) →
  task ≠ "" → api_path path = true → args_of (VDict d) = Ok a →
  resolve_task (ja_event_input a) = Ok (task, path) ∧
  ∃ p, get "payload" (ja_event_input a) = Ok p ∧ or_else p (VDict []) = body_of d.
Proof.
  intros Ht Hp Hne Hapi Ha. apply args_of_input in Ha. unfold event_input, getitem, get in Ha. rewrite Ht, Hp in Ha.
  cbn [mbind res_bind] in Ha. unfold body_of, field. split.
  - assert (∃ extra, ja_event_input a = VDict (("task", VStr task) :: ("path", VStr path) :: extra)) as [extra ->].
    { destruct (dict_get "payload" d) as [v|]; cbn in Ha; [destruct (truthy v)|]; injection Ha as <-; by eexists. }
    unfold resolve_task. simpl. destruct task as [|c task]; [done|]. unfold api_path in Hapi.
    rewrite !andb_true_iff, !negb_true_iff in Hapi. destruct Hapi as [[H1 H2] H3]. destruct path as [|c' path]; [done|].
    cbn [text_field]. by rewrite H1, H2, H3.
  - destruct (dict_get "payload" d) as [v|]; cbn in Ha |- *; [|injection Ha as <-; by exists VNone].
    destruct (truthy v) eqn:Et; injection Ha as <-; [exists v|by exists VNone]. split; [done|]. unfold or_else. by rewrite Et.
Qed.

Section posting.
Context {W : Type} (E : Environ W) (T : TaskEnv W) (num_int num_float : string → pyval).
#[local] Existing Instances traced_task environ_beside.
#[local] Abbreviation state := (container (W := W * list http_request)).

(** What happens between reading the base and the request. *)
Lemma quiet_then {A B} (m : prog state exn A) (f : A → prog state exn B) s (Q : res exn B → state → Prop) :
  silent m → (∀ e s1, s1.2.2 = s.2.2 → Q (Raise e) s1) →
  (∀ a s1, m s = (Ok a, s1) → s1.2.2 = s.2.2 → let '(r, s') := f a s1 in Q r s') →
  let '(r, s') := (m ≫= f) s in Q r s'.
Proof.
  intros Hm Hr Hf. pose proof (Hm s) as Hs. unfold mbind, prog_bind. destruct (m s) as [[a|e] s1] eqn:Em; cbn in Hs.
  - by apply Hf.
  - by apply Hr.
Qed.

(** One run of the scheduled function: it posts [body] to [path] under the base the
    environment gives it, once, unless it fails before. *)
Definition posts (path : string) (body : pyval) (w : W) (tr : list http_request) (c : option string)
    (r : res exn pyval) (s' : state) : Prop :=
  (s'.2.2 = tr ∧ ∃ e, r = Raise e) ∨
  ∃ base w1 rq, @getenv W E "API_BASE_URL" w = (Ok (Some base), w1) ∧ s'.2.2 = (tr ++ [rq])%list ∧
    rq_url rq = rstrip_slashes base +:+ path ∧ rq_data rq = @event_dumps W T body ∧
    ∀ token, c = Some token → rq_bearer rq = token.

Lemma token_kept token (s s' : state) t : s.1 = Some token → service_token s = (Ok t, s') → t = token.
Proof.
  destruct s as [c w]. cbn [fst]. intros ->. unfold service_token. rewrite (bind_ok get_state _ (Some token, w) _ _ eq_refl).
  by intros [= <- _].
Qed.

Lemma kept_beyond {A} (m : prog (W * list http_request) exn A) (s s' : state) r : beyond m s = (r, s') → s'.1 = s.1.
Proof. unfold beyond. destruct (m s.2). by intros [= <- <-]. Qed.

Lemma handler_posts event task path p c w tr : resolve_task event = Ok (task, path) → get "payload" event = Ok p →
  let '(r, s') := handler num_int num_float event (c, (w, tr)) in posts path (or_else p (VDict [])) w tr c r s'.
Proof.
  intros He Hp. unfold handler. rewrite lift_bind, He. unfold mbind at 1, prog_bind at 1.
  destruct (beyond (environ_item "API_BASE_URL") (c, (w, tr))) as [[base|e] s1] eqn:Eb.
  2: { left. pose proof (silent_item E "API_BASE_URL" (c, (w, tr))) as Hs. rewrite Eb in Hs. split; [exact Hs|by eexists]. }
  assert (∃ w1, @getenv W E "API_BASE_URL" w = (Ok (Some base), w1) ∧ s1 = (c, (w1, tr))) as (w1 & Hb & ->).
  { unfold beyond, environ_item in Eb. cbn [getenv environ_beside fst snd] in Eb. rewrite unlogged_bind in Eb.
    destruct (@getenv W E "API_BASE_URL" w) as [[[v|]|e] w'] eqn:Ew; try done. injection Eb as -> <-. by exists w'. }
  cbv zeta. apply quiet_then; [apply silent_beyond|intros e s1 Hs; left; by split; [|eexists]|].
  intros timeout s2 H2 Hs2. apply kept_beyond in H2.
  apply quiet_then; [done|intros e s Hs; left; split; [by rewrite Hs|by eexists]|]. intros t s3 [= _ <-] _.
  rewrite Hp. rewrite lift_bind. cbn [mbind res_bind mret res_ret].
  apply quiet_then; [apply silent_token|intros e s Hs; left; split; [by rewrite Hs|by eexists]|].
  intros token [c4 [w4 tr4]] Htok Hs4. cbn [snd] in *. rewrite Hs2 in Hs4. subst tr4.
  match goal with |- context [urlopen ?r] => set (rq := r) end.
  assert (∀ r (s' : state), s'.2.2 = (tr ++ [rq])%list → posts path (or_else p (VDict [])) w tr c r s') as Hposts.
  { intros r s' Hs'. right. exists base, w1, rq. split_and!; [done..|]. intros t' ->. by apply (token_kept t' s2) in Htok. }
  unfold mbind, prog_bind, beyond. cbn [urlopen traced_task fst snd]. unfold logged. cbn [fst snd].
  destruct (urlopen rq w4) as [[[]|e] w7]; by apply Hposts.
Qed.
End posting.

(** A request with the configured service token passes the gates of the route. *)
Definition token_opens (r : route) : Prop :=
  ∀ W (D : AuthDb W) (C : Monotonic W) (L : AuthLib W) (Env : Environ W) is_invalid token value svc w w',
    getenv "TRADE_SERVICE_TOKEN" w = (Ok (Some value), w') → strip value = token → (16 <= String.length token)%nat →
    is_ascii_text token = true →
    pass_gates is_invalid (Some ("Bearer " +:+ token)) None [] (rt_gates r) (svc, w) = (Ok tt, (svc, w')).

Lemma maintenance_token_opens r : rt_gates r = [RequireUserOrService; RequireUserOrService] → token_opens r.
Proof.
  intros Hr W D C L Env is_invalid token value svc w w' Hv Hs Hlen Hascii. rewrite Hr. cbn [pass_gates].
  assert (token ≠ "") as Hne by (intros ->; cbn in Hlen; lia).
  assert (presents_service_token (Some ("Bearer " +:+ token)) w = (Ok true, w')) as Hp.
  { unfold presents_service_token. change (partition_on " " ("Bearer " +:+ token)) with ("Bearer", true, token).
    change ("Bearer " +:+ token) with (String "B" ("earer " +:+ token)). cbv beta iota.
    rewrite (proj2 (String.eqb_neq token "") Hne). change (String.eqb (lower "Bearer") "bearer") with true. cbv [negb orb].
    unfold configured_service_token. rewrite bind_assoc, (bind_ok _ _ _ _ _ Hv). cbn [default]. cbv zeta. unfold id. rewrite Hs.
    rewrite (proj2 (String.eqb_neq token "") Hne). unfold MIN_SERVICE_TOKEN_LEN.
    rewrite (proj2 (Nat.ltb_ge _ _) Hlen), mret_bind. unfold compare_digest. rewrite Hascii. cbn [andb].
    by rewrite String.eqb_refl. }
  assert (require_user_or_service is_invalid (Some ("Bearer " +:+ token)) None (svc, w) = (Ok SERVICE_CALLER, (svc, w'))) as Hask.
  { unfold require_user_or_service. erewrite bind_ok; [|unfold outside; cbn [fst snd]; by rewrite Hp]. done. }
  rewrite (bool_decide_false (RequireUserOrService ∈ [])) by apply not_elem_of_nil. cbn [ask]. rewrite bind_assoc, (bind_ok _ _ _ _ _ Hask), mret_bind.
  rewrite bool_decide_true by left. done.
Qed.

(** A field of a request model whose integer is bounded. *)
Definition int_field (model : option Z → option Z) (key : string) (body : job_dict) : bool :=
  match dict_get key body with
  | None => bool_decide (is_Some (model None))
  | Some (VInt n) => bool_decide (is_Some (model (Some n)))
  | Some _ => false
  end.

(** A field that is a date: a day of the calendar as [YYYY-MM-DD]. *)
Definition date_field (key : string) (body : job_dict) : bool :=
  match dict_get key body with
  | Some (VStr s) => (String.length s =? 10)%nat && bool_decide (is_Some (parse_day s))
  | _ => false
  end.

(** Whether the request model of a maintenance route takes a body, of integers and
    dates written in full; the routes without a model do not look at it. *)
Definition body_accepted (path : string) (body : pyval) : bool :=
  match body with
  | VDict b =>
      if String.eqb path "/api/v1/admin/db/terminate-stale-connections" then int_field terminate_request "idle_seconds" b
      else if String.eqb path "/api/v1/admin/db/detach-api-request-payload" then int_field detach_request "retention_days" b
      else if String.eqb path "/api/v1/admin/providers/fill" then date_field "since" b
      else true
  | _ => false
  end.

(** A job whose endpoint is there, and takes what the job sends it. *)
Definition answered_job (is_prod : bool) (file : string) (d : job_dict) (task path : string) (a : job_args) (r : route) : Prop :=
  file = task +:+ ".yml" ∧ dict_get "task" d = Some (VStr task) ∧ dict_get "path" d = Some (VStr path) ∧
  args_of (VDict d) = Ok a ∧ dispatch is_prod "POST" path = Some r ∧ endpoint r ∈ maintenance_endpoints ∧
  body_accepted path (body_of d) = true.

Definition answered_check (is_prod : bool) (file : string) (job : pyval) : bool :=
  match job with
  | VDict d =>
      match dict_get "task" d, dict_get "path" d, args_of job with
      | Some (VStr task), Some (VStr path), Ok a =>
          String.eqb file (task +:+ ".yml") && negb (String.eqb task "") && api_path path && body_accepted path (body_of d) &&
          match dispatch is_prod "POST" path with
          | Some r => bool_decide (endpoint r ∈ maintenance_endpoints)
                      && bool_decide (rt_gates r = [RequireUserOrService; RequireUserOrService])
          | None => false
          end
      | _, _, _ => false
      end
  | _ => false
  end.

Lemma shipped_checked is_prod : forallb (λ fj, answered_check is_prod fj.1 fj.2) job_files = true.
Proof. destruct is_prod; vm_compute; reflexivity. Qed.

(** The endpoint a job posts to. *)
Definition target_of (is_prod : bool) (job : pyval) : option (string * string) :=
  match job with
  | VDict d => match dict_get "path" d with Some (VStr path) => endpoint <$> dispatch is_prod "POST" path | _ => None end
  | _ => None
  end.

