(* ===== verification/Rerun.v ===== *)
(** * Replaying stored results

    [scripts/rerun_results.py]: which strategy versions are stale, how many of a
    user's are queued again under the cap, and the whole command.  The repository's
    readings are parameters as in [Queue]; a timestamp is its instant. *)
From S2P Require Import Prelude PyFloat PyData Order Errors PyValue Intervals Queue.
Local Open Scope string_scope.
Local Open Scope Z_scope.

(** What a row of [sp_get_strategy_list] holds of a version. *)
Record strategy_version := mkVersion { sv_strategy_id : string; sv_strategy_vid : Z; sv_strategy_nm : string }.

Class RerunDb (W : Type) := {
  (** [sp_get_strategy_list(user_id, limit, is_best_ind=None)] *)
  list_versions : string → Z → prog W exn (list strategy_version);
  (** [created_at] of what [sp_get_result(strategy_id, strategy_vid)] gives *)
  result_created_at : string → Z → prog W exn (option Z);
  queued_count : string → Z → prog W exn Z;
  insert_queue : queue_write → prog W exn unit;
  now_utc : prog W exn Z
}.

(** The arguments of the command. *)
Record rerun_args := mkRerunArgs {
  ra_user_id : list string; ra_cutover : option string; ra_priority : string; ra_dry_run : bool
}.

Section rerun.
Context {W : Type} `{RerunDb W} `{JobsEnv W}.

(** ** [stale_versions] *)

Definition stale_version (cutover : Z) (row : strategy_version) : prog W exn (option strategy_version) :=
  result ← result_created_at (sv_strategy_id row) (sv_strategy_vid row);
  mret (match result with
        | None => None
        | Some created_at => if cutover <=? created_at then None else Some row
        end).

Definition stale_versions (user : string) (cutover : Z) : prog W exn (list strategy_version) :=
  rows ← list_versions user 1000;
  stale ← for_each (stale_version cutover) rows;
  mret (omap id stale).

(** ** [rerun_user] *)

Section user.
Context (queued_status_id priority : Z) (user : string) (dry_run : bool).

(** one round of the loop over the batch *)
Definition replay (v : strategy_version) : prog W exn unit :=
  if dry_run then mret tt
  else
    qid ← new_queue_id;
    insert_queue (mkQueueWrite qid (sv_strategy_id v) (sv_strategy_vid v) queued_status_id priority user None).

Definition free_slots (max_queued in_flight : Z) : nat := Z.to_nat (Z.max (max_queued - in_flight) 0).

Definition rerun_user (cutover max_queued : Z) : prog W exn (Z * Z) :=
  stale ← stale_versions user cutover;
  match stale with
  | [] => mret (0, 0)
  | _ =>
      in_flight ← queued_count user queued_status_id;
      let budget := free_slots max_queued in_flight in
      let batch := take budget stale in
      let deferred := drop budget stale in
      _ ← for_each replay batch;
      _ ← (if bool_decide (batch ≠ []) && negb dry_run then publish_wake else mret tt);
      mret (Z.of_nat (length batch), Z.of_nat (length deferred))
  end.
End user.

(** ** [main] *)

Fixpoint rerun_users (queued_status_id priority cutover max_queued : Z) (dry_run : bool) (users : list string)
    (enqueued deferred : Z) : prog W exn (Z * Z) :=
  match users with
  | [] => mret (enqueued, deferred)
  | u :: users' =>
      '(n, later) ← rerun_user queued_status_id priority u dry_run cutover max_queued;
      rerun_users queued_status_id priority cutover max_queued dry_run users' (enqueued + n) (deferred + later)
  end.

(** the instant results are compared with *)
Definition the_cutover (fromisoformat : string → res exn datetime) (arg : option string) : prog W exn Z :=
  match arg with
  | Some (String c s) => t ← lift_res (fromisoformat (String c s)); mret (as_utc t)
  | _ => now_utc
  end.

(** [main], after the configuration is loaded: the counts it logs *)
Definition rerun_main (fromisoformat : string → res exn datetime) (args : rerun_args) : prog W exn (Z * Z) :=
  cutover ← the_cutover fromisoformat (ra_cutover args);
  queued_status_id ← job_status "QUEUED";
  priority ← queue_priority (ra_priority args);
  max_queued ← max_queued_per_user;
  rerun_users queued_status_id priority cutover max_queued (ra_dry_run args) (ra_user_id args) 0 0.
End rerun.

(** ** What is queued again *)

Inductive rerun_event :=
| EList (user : string) (limit : Z) (r : res exn (list strategy_version))
| EResult (strategy_id : string) (strategy_vid : Z) (r : res exn (option Z))
| ECount (user : string) (status : Z) (r : res exn Z)
| EInsert (x : queue_write) (r : res exn unit)
| EWake (r : res exn unit).

Definition traced_rerun {W} (R : RerunDb W) : RerunDb (W * list rerun_event) := {|
  list_versions u n := logged (EList u n) (list_versions u n);
  result_created_at i v := logged (EResult i v) (result_created_at i v);
  queued_count u s := logged (ECount u s) (queued_count u s);
  insert_queue x := logged (EInsert x) (insert_queue x);
  now_utc := unlogged now_utc
|}.

Definition traced_env {W} (J : JobsEnv W) : JobsEnv (W * list rerun_event) := {|
  job_status n := unlogged (job_status n);
  interval_name_of i := unlogged (interval_name_of i);
  max_queued_per_user := unlogged max_queued_per_user;
  queue_priority n := unlogged (queue_priority n);
  new_queue_id := unlogged new_queue_id;
  push_wake := logged EWake push_wake
|}.

(** The rows that were inserted, and the times the loop was woken. *)
Definition inserted (tr : list rerun_event) : list queue_write :=
  omap (λ e, match e with EInsert x (Ok _) => Some x | _ => None end) tr.
Definition wakes (tr : list rerun_event) : nat :=
  length (List.filter (λ e, match e with EWake _ => true | _ => false end) tr).

Section replaying.
Context {W : Type} (R : RerunDb W) (J : JobsEnv W).
#[local] Existing Instances traced_rerun traced_env.
Context (status priority : Z) (user : string).

(** The row that replays a version. *)
Definition replays (v : strategy_version) (x : queue_write) : Prop :=
  qw_strategy_id x = sv_strategy_id v ∧ qw_strategy_vid x = sv_strategy_vid v ∧ qw_status_id x = status ∧
  qw_priority x = priority ∧ qw_user_id x = user ∧ qw_error_text x = None.

(** Of a batch the first versions were inserted, all of them when it returned. *)
Definition replayed (batch : list strategy_version) (new : list rerun_event) (complete : bool) : Prop :=
  wakes new = 0%nat ∧ ∃ k, Forall2 replays (take k batch) (inserted new) ∧
    (complete = true → (length batch <= k)%nat).

Definition row_of (v : strategy_version) (qid : string) : queue_write :=
  mkQueueWrite qid (sv_strategy_id v) (sv_strategy_vid v) status priority user None.

Lemma replay_eq v w tr :
  replay status priority user false v (w, tr) =
  match new_queue_id w with
  | (Raise e, w1) => (Raise e, (w1, tr))
  | (Ok q, w1) => let '(r, w2) := insert_queue (row_of v q) w1 in (r, (w2, tr ++ [EInsert (row_of v q) r])%list)
  end.
Proof.
  unfold replay. cbn [new_queue_id insert_queue traced_env traced_rerun]. rewrite unlogged_bind.
  destruct (new_queue_id w) as [[q|e] w1]; [|done]. apply logged_eq.
Qed.

Lemma replayed_nothing batch tr (s : W * list rerun_event) : s.2 = tr → ∃ new, s.2 = (tr ++ new)%list ∧ replayed batch new false.
Proof. intros Hs. exists []. rewrite app_nil_r. split; [done|]. split; [done|]. exists 0%nat. by split; [constructor|]. Qed.

Lemma replay_batch batch w tr :
  let '(r, s) := for_each (replay status priority user false) batch (w, tr) in
  ∃ new, s.2 = (tr ++ new)%list ∧ replayed batch new (match r with Ok _ => true | Raise _ => false end).
Proof.
  revert w tr. induction batch as [|v batch IH]; intros w tr.
  { exists []. rewrite app_nil_r. split; [done|]. split; [done|]. exists 0%nat. split; [constructor|done]. }
  cbn [for_each]. unfold mbind at 1, prog_bind at 1. rewrite replay_eq.
  destruct (new_queue_id w) as [[q|e] w1]; [|by apply replayed_nothing].
  destruct (insert_queue (row_of v q) w1) as [[[]|e] w2]; cbn [fst snd].
  - specialize (IH w2 (tr ++ [EInsert (row_of v q) (Ok tt)])%list). unfold mbind at 1, prog_bind at 1.
    destruct (for_each _ batch _) as [q' s]. destruct IH as (new & Hs & Hw & k & Hf & Hk).
    assert (∃ new, s.2 = (tr ++ new)%list ∧ replayed (v :: batch) new (match q' with Ok _ => true | Raise _ => false end)) as Hd.
    { exists (EInsert (row_of v q) (Ok tt) :: new). split; [by rewrite Hs, <-app_assoc|]. split; [done|].
      exists (S k). split; [by constructor|]. intros Hc. cbn. specialize (Hk Hc). lia. }
    by destruct q'.
  - exists [EInsert (row_of v q) (Raise e)]. split; [done|]. split; [done|]. exists 0%nat. by split; [constructor|].
Qed.

Lemma inserted_app tr tr' : inserted (tr ++ tr') = (inserted tr ++ inserted tr')%list.
Proof. apply omap_app. Qed.

Lemma wakes_app tr tr' : wakes (tr ++ tr') = (wakes tr + wakes tr')%nat.
Proof. unfold wakes. by rewrite List.filter_app, length_app. Qed.

(** Waking the loop is one event and inserts nothing. *)
Lemma wake_event w tr : let '(r, s) := publish_wake (w, tr) in
  ∃ new, s.2 = (tr ++ new)%list ∧ inserted new = [] ∧ wakes new = 1%nat.
Proof.
  unfold publish_wake, catch. cbn [push_wake traced_env]. rewrite logged_eq.
  destruct (push_wake w) as [[[]|e] w1]; cbn [fst snd]; [by eexists|].
  destruct (isinstance e CRedisError); by eexists.
Qed.

(** *** Which versions are out of date *)

(** The answers to asking each version for the time of its result. *)
Definition dated (rows : list strategy_version) (stamps : list (option Z)) : list rerun_event :=
  zip_with (λ v t, EResult (sv_strategy_id v) (sv_strategy_vid v) (Ok t)) rows stamps.

(** The versions with a result from before the cutover, in their order. *)
Fixpoint outdated (cutover : Z) (rows : list strategy_version) (stamps : list (option Z)) : list strategy_version :=
  match rows, stamps with
  | v :: rows, Some t :: stamps =>
      if bool_decide (t < cutover) then v :: outdated cutover rows stamps else outdated cutover rows stamps
  | _ :: rows, None :: stamps => outdated cutover rows stamps
  | _, _ => []
  end.

Lemma stale_version_eq cutover v w tr : stale_version cutover v (w, tr) =
  let ev := EResult (sv_strategy_id v) (sv_strategy_vid v) in
  match result_created_at (sv_strategy_id v) (sv_strategy_vid v) w with
  | (Ok t, w1) => (Ok match t with Some at_ => if bool_decide (at_ < cutover) then Some v else None | None => None end,
                   (w1, tr ++ [ev (Ok t)])%list)
  | (Raise e, w1) => (Raise e, (w1, tr ++ [ev (Raise e)])%list)
  end.
Proof.
  unfold stale_version. cbn [result_created_at traced_rerun]. rewrite logged_bind.
  destruct (result_created_at _ _ w) as [[[t|]|e] w1]; cbn [fst snd]; [|done..].
  destruct (Z.leb_spec cutover t); [by rewrite bool_decide_false by lia|by rewrite bool_decide_true by lia].
Qed.

Lemma stale_events cutover rows w tr :
  let '(r, s) := for_each (stale_version cutover) rows (w, tr) in
  ∃ new, s.2 = (tr ++ new)%list ∧
    match r with
    | Ok found => ∃ stamps, length stamps = length rows ∧ new = dated rows stamps ∧ omap id found = outdated cutover rows stamps
    | Raise e => ∃ before v after stamps, rows = (before ++ v :: after)%list ∧ length stamps = length before ∧
        new = (dated before stamps ++ [EResult (sv_strategy_id v) (sv_strategy_vid v) (Raise e)])%list
    end.
Proof.
  revert w tr. induction rows as [|v rows IH]; intros w tr; cbn [for_each].
  { exists []. rewrite app_nil_r. split; [done|]. by exists []. }
  unfold mbind at 1, prog_bind at 1. rewrite stale_version_eq. cbv zeta.
  destruct (result_created_at _ _ w) as [[t|e] w1].
  2: { eexists. split; [done|]. by exists [], v, rows, []. }
  set (ev := EResult (sv_strategy_id v) (sv_strategy_vid v) (Ok t)).
  specialize (IH w1 (tr ++ [ev])%list). unfold mbind, prog_bind.
  destruct (for_each (stale_version cutover) rows _) as [[found|e] s]; destruct IH as (new & Hs & Hr); exists (ev :: new);
    rewrite <-app_assoc in Hs; (split; [done|]).
  - destruct Hr as (stamps & Hlen & -> & Hf). exists (t :: stamps). cbn. rewrite Hlen. split_and!; [done..|].
    rewrite <-Hf. destruct t as [t|]; [|done]. by destruct (bool_decide (t < cutover)).
  - destruct Hr as (before & v' & after & stamps & -> & Hlen & ->). exists (v :: before), v', after, (t :: stamps). cbn. by rewrite Hlen.
Qed.

(** *** What a run does then *)

(** What was done about the versions found stale, [n] of the user's jobs being
    queued already. *)
Definition rerun_did (dry : bool) (cap n : Z) (stale : list strategy_version) (acts : list rerun_event)
    (r : res exn (Z * Z)) : Prop :=
  let batch := take (Z.to_nat (cap - n)) stale in
  (dry = true → acts = []) ∧
  (∃ k, Forall2 replays (take k batch) (inserted acts)) ∧
  n + Z.of_nat (length (inserted acts)) <= Z.max cap n ∧
  ∀ queued later, r = Ok (queued, later) →
    queued = Z.min (Z.max 0 (cap - n)) (Z.of_nat (length stale)) ∧ queued + later = Z.of_nat (length stale) ∧
    (dry = false → length (inserted acts) = length batch ∧ wakes acts = if bool_decide (batch = []) then 0%nat else 1%nat).

(** A whole run for one user, as its log tells it. *)
Inductive rerun_run (dry : bool) (cutover cap : Z) : list rerun_event → res exn (Z * Z) → Prop :=
| run_not_listed e : rerun_run dry cutover cap [EList user 1000 (Raise e)] (Raise e)
| run_not_dated rows before v after stamps e :
    rows = (before ++ v :: after)%list → length stamps = length before →
    rerun_run dry cutover cap
      (EList user 1000 (Ok rows) :: dated before stamps ++ [EResult (sv_strategy_id v) (sv_strategy_vid v) (Raise e)]) (Raise e)
| run_fresh rows stamps : length stamps = length rows → outdated cutover rows stamps = [] →
    rerun_run dry cutover cap (EList user 1000 (Ok rows) :: dated rows stamps) (Ok (0, 0))
| run_not_counted rows stamps e : length stamps = length rows → outdated cutover rows stamps ≠ [] →
    rerun_run dry cutover cap (EList user 1000 (Ok rows) :: dated rows stamps ++ [ECount user status (Raise e)]) (Raise e)
| run_acts rows stamps n acts r : length stamps = length rows → outdated cutover rows stamps ≠ [] →
    rerun_did dry cap n (outdated cutover rows stamps) acts r →
    rerun_run dry cutover cap (EList user 1000 (Ok rows) :: dated rows stamps ++ ECount user status (Ok n) :: acts) r.

Lemma free_slots_eq cap n : free_slots cap n = Z.to_nat (cap - n).
Proof. unfold free_slots. lia. Qed.

Lemma under_cap cap n k (stale : list strategy_version) acts :
  Forall2 replays (take k (take (Z.to_nat (cap - n)) stale)) (inserted acts) →
  n + Z.of_nat (length (inserted acts)) <= Z.max cap n.
Proof. intros Hf. apply Forall2_length in Hf. rewrite <-Hf, !length_take. lia. Qed.

Lemma queued_and_later cap n (stale : list strategy_version) : let slots := Z.to_nat (cap - n) in
  Z.of_nat (length (take slots stale)) = Z.min (Z.max 0 (cap - n)) (Z.of_nat (length stale)) ∧
  Z.of_nat (length (take slots stale)) + Z.of_nat (length (drop slots stale)) = Z.of_nat (length stale).
Proof. cbv zeta. rewrite length_take, length_drop. lia. Qed.

Lemma dry_batch batch (s : W * list rerun_event) :
  ∃ ys, for_each (replay status priority user true) batch s = (Ok ys, s).
Proof.
  induction batch as [|v batch [ys IH]]; [by exists []|]. exists (tt :: ys). cbn [for_each].
  unfold mbind at 1, prog_bind at 1. change (replay status priority user true v s) with (@Ok exn unit tt, s).
  unfold mbind, prog_bind. by rewrite IH.
Qed.

(** The batch is written out, or fails on the way. *)
Lemma batch_did dry cap n all w tr : let batch := take (Z.to_nat (cap - n)) all in
  let '(r, s') := (_ ← for_each (replay status priority user dry) batch;
                   _ ← (if bool_decide (batch ≠ []) && negb dry then publish_wake else mret tt);
                   mret (Z.of_nat (length batch), Z.of_nat (length (drop (Z.to_nat (cap - n)) all)))) (w, tr) in
  ∃ acts, s'.2 = (tr ++ acts)%list ∧ rerun_did dry cap n all acts r.
Proof.
  cbv zeta. set (batch := take (Z.to_nat (cap - n)) all). destruct (queued_and_later cap n all) as [Hcount Hlater].
  destruct dry.
  - unfold mbind at 1, prog_bind at 1. destruct (dry_batch batch (w, tr)) as [ys ->]. rewrite andb_false_r, mret_bind.
    exists []. rewrite app_nil_r. split; [done|]. split; [done|]. split; [exists 0%nat; constructor|].
    split; [cbn; lia|]. intros a b [= <- <-]. by split_and!.
  - unfold mbind at 1, prog_bind at 1. pose proof (replay_batch batch w tr) as Hb.
    destruct (for_each _ batch _) as [q [w3 tr3]]. destruct Hb as (acts & Htr & Hw & k & Hf & Hk). cbn [snd] in Htr. subst tr3.
    assert (∀ acts' r, inserted acts' = inserted acts → (∀ x, r ≠ Ok x) → rerun_did false cap n all acts' r) as Hfail.
    { intros acts' r Hi Hr. split; [done|]. rewrite Hi. split; [by exists k|]. split; [by eapply under_cap|].
      intros ? ? ->. by destruct (Hr (queued, later)). }
    destruct q as [ys|e]; [|exists acts; split; [done|]; by apply Hfail]. specialize (Hk eq_refl). rewrite andb_true_r.
    assert (∀ acts', inserted acts' = inserted acts → wakes acts' = (if bool_decide (batch = []) then 0%nat else 1%nat) →
      rerun_did false cap n all acts' (Ok (Z.of_nat (length batch), Z.of_nat (length (drop (Z.to_nat (cap - n)) all))))) as Hdone.
    { intros acts' Hi Hwake. split; [done|]. rewrite Hi. split; [by exists k|]. split; [by eapply under_cap|].
      intros a b [= <- <-]. split; [done|]. split; [done|]. intros _. split; [|done].
      apply Forall2_length in Hf. by rewrite <-Hf, take_ge. }
    destruct (decide (batch ≠ [])) as [Hne|Hne]; [rewrite (bool_decide_true (batch ≠ []) Hne)|rewrite (bool_decide_false (batch ≠ []) Hne)].
    + pose proof (wake_event w3 (tr ++ acts)) as Hwake. unfold mbind, prog_bind.
      destruct (publish_wake (w3, (tr ++ acts)%list)) as [[[]|e] [w4 tr4]];
        destruct Hwake as (new' & Htr & Hi & Hwk); cbn [snd] in Htr; subst tr4; exists (acts ++ new')%list;
        (split; [by rewrite app_assoc|]); [apply Hdone|by apply Hfail; [rewrite inserted_app, Hi, app_nil_r|]].
      * by rewrite inserted_app, Hi, app_nil_r.
      * rewrite wakes_app, Hw, Hwk. by rewrite bool_decide_false.
    + rewrite mret_bind. exists acts. split; [done|]. apply dec_stable in Hne. apply Hdone; [done|]. by rewrite bool_decide_true.
Qed.

(** C39. A user's out-of-date versions are queued again only into the free slots of
    the cap.  A run lists the user's versions and asks each for its result; those with
    a result from before the cutover, and no others, are to be replayed.  It then
    counts the user's queued jobs: the rows inserted replay the first of those
    versions in the order listed, one each and as that user, never so many that the
    queue exceeds the cap; a run that returns has inserted as many as there were free
    slots or versions, woke the loop once if it inserted any, and counts every such
    version as queued or deferred; a dry run writes nothing; and a run that finds
    none, or whose reading fails, does nothing else. *)
Theorem rerun_stays_under_cap dry cutover cap w tr :
  let '(r, s') := rerun_user status priority user dry cutover cap (w, tr) in
  ∃ new, s'.2 = (tr ++ new)%list ∧ rerun_run dry cutover cap new r.
Proof.
  unfold rerun_user, stale_versions. rewrite bind_assoc. cbn [list_versions traced_rerun]. rewrite logged_bind.
  destruct (list_versions user 1000 w) as [[rows|e] w1]; cbn [fst snd].
  2: { eexists. split; [done|]. constructor. }
  rewrite bind_assoc. pose proof (stale_events cutover rows w1 (tr ++ [EList user 1000 (Ok rows)])) as Hf.
  destruct (for_each (stale_version cutover) rows _) as [[found|e] [w2 tr2]] eqn:Ef; destruct Hf as (new & Htr & Hf);
    cbn [snd] in Htr; subst tr2; rewrite <-app_assoc in Ef; cbn [app] in Ef.
  2: { rewrite (bind_raise _ _ _ _ _ Ef). destruct Hf as (before & v & after & stamps & -> & Hlen & ->).
       eexists. split; [done|]. by eapply run_not_dated. }
  rewrite (bind_ok _ _ _ _ _ Ef), mret_bind. destruct Hf as (stamps & Hlen & -> & ->).
  destruct (outdated cutover rows stamps) as [|v stale] eqn:Es; [eexists; split; [done|]; by apply run_fresh|].
  assert (outdated cutover rows stamps ≠ []) as Hne by by rewrite Es. rewrite <-Es. clear Es v stale.
  cbn [queued_count traced_rerun]. rewrite logged_bind.
  destruct (queued_count user status w2) as [[n|e] w3]; cbn [fst snd]; rewrite <-app_assoc; cbn [app].
  2: { eexists. split; [done|]. by apply run_not_counted. }
  cbv zeta. rewrite free_slots_eq.
  match goal with |- context [(w3, ?tr3)] =>
    pose proof (batch_did dry cap n (outdated cutover rows stamps) w3 tr3) as Hb; cbv zeta in Hb end.
  match goal with |- match ?run with _ => _ end => destruct run as [r [w4 tr4]] end. destruct Hb as (acts & Htr & Hb). cbn [snd] in Htr. subst tr4.
  eexists. rewrite <-!app_assoc. split; [done|]. cbn [app]. rewrite <-app_assoc. cbn [app]. by apply run_acts.
Qed.
End replaying.

(** ** A second run *)

(** Without [--cutover] the cutover is the present: every version that has a result
    is stale, those an earlier run already replayed included and first, so the
    versions deferred by the cap are deferred again. *)
Theorem default_cutover_starts_over {W} `{RerunDb W} user now rows (w : W) :
  list_versions user 1000 w = (Ok rows, w) →
  (∀ v, v ∈ rows → ∃ t, result_created_at (sv_strategy_id v) (sv_strategy_vid v) w = (Ok (Some t), w) ∧ t < now) →
  stale_versions user now w = (Ok rows, w).
Proof.
  intros Hl Hr. unfold stale_versions. rewrite (bind_ok _ _ _ _ _ Hl).
  assert (for_each (stale_version now) rows w = (Ok (Some <$> rows), w)) as Hf.
  { clear Hl. induction rows as [|v rows IH]; [done|]. cbn [for_each].
    destruct (Hr v) as (t & Ht & Hlt); [by left|].
    assert (stale_version now v w = (Ok (Some v), w)) as Hv.
    { unfold stale_version. rewrite (bind_ok _ _ _ _ _ Ht). destruct (Z.leb_spec now t); [lia|done]. }
    rewrite (bind_ok _ _ _ _ _ Hv), (bind_ok _ _ _ _ _ (IH ltac:(intros; apply Hr; by right))). done. }
  rewrite (bind_ok _ _ _ _ _ Hf). unfold mret, prog_ret. do 2 f_equal. clear. by induction rows as [|v rows IH]; cbn; rewrite ?IH.
Qed.

#[local] Instance two_versions : RerunDb unit := {|
  list_versions _ _ := mret [mkVersion "s1" 1 "A"; mkVersion "s1" 2 "B"];
  result_created_at _ _ := mret (Some 5);
  queued_count _ _ := mret 0;
  insert_queue _ := mret tt;
  now_utc := mret 9
|}.

Lemma default_cutover_starts_over_witness :
  stale_versions "u" 9 tt = (Ok [mkVersion "s1" 1 "A"; mkVersion "s1" 2 "B"], tt).
Proof.
  apply default_cutover_starts_over; [reflexivity|]. intros v _. exists 5. split; [reflexivity|lia].
Defined.
