(* ===== verification/InstRoutes.v ===== *)
(** * The instrument master

    [schemas/inst.py] and [api/routers/inst.py]: what a new instrument must be
    called, creating it, and the lists the forms read.  Texts are ASCII. *)
From S2P Require Import Prelude PyFloat PyData Order Errors PyValue RefData Ccxt Instruments LiveApply Auth BarFetcher BarService.
Local Open Scope string_scope.
Local Open Scope Z_scope.

(** ** [CreateInstrumentRequest] *)

Definition is_alnum_lower (c : ascii) : bool :=
  let n := N_of_ascii c in (((97 <=? n) && (n <=? 122)) || ((48 <=? n) && (n <=? 57)))%N.
Definition is_symbol_char (c : ascii) : bool := is_alnum_lower c || Ascii.eqb c "_" || Ascii.eqb c "-".

Fixpoint str_all (f : ascii → bool) (s : string) : bool :=
  match s with EmptyString => true | String c s' => f c && str_all f s' end.

(** [[a-z0-9][a-z0-9_-]*] *)
Definition is_symbol (s : string) : bool :=
  match s with EmptyString => false | String c s' => is_alnum_lower c && str_all is_symbol_char s' end.

(** [_CUSIP_RE], on a text without line breaks at its end *)
Definition cusip_re (s : string) : bool :=
  let '(symbol, dotted, suffix) := partition_on "."%char s in dotted && is_symbol symbol && is_symbol suffix.

(** The fields as they are sent. *)
Record instrument_form := mkInstrumentForm {
  if_internal_cusip : string; if_display_nm : string; if_asset_type_id : Z; if_exchange : option string;
  if_ccy : option string; if_description : option string; if_issue_type : option string;
  if_app_id : Z; if_vendor_symbol : string
}.

(** [_normalise_cusip] *)
Definition normalise_cusip (value : string) : option string :=
  let cusip := lower (strip value) in if cusip_re cusip then Some cusip else None.

(** [_strip_required] *)
Definition strip_required (value : string) : option string :=
  let stripped := strip value in if String.eqb stripped "" then None else Some stripped.

(** [_blank_is_absent] *)
Definition blank_is_absent (value : option string) : option string := v ← value; strip_required v.

(** The lengths are checked on the raw text, the validators come after; nothing
    stands for a refused body. *)
Definition create_instrument_request (f : instrument_form) : option (new_product * Z * string) :=
  if (String.length (if_internal_cusip f) <? 3)%nat || (String.length (if_display_nm f) <? 1)%nat
     || (String.length (if_vendor_symbol f) <? 1)%nat
  then None
  else
    cusip ← normalise_cusip (if_internal_cusip f);
    display_nm ← strip_required (if_display_nm f);
    vendor_symbol ← strip_required (if_vendor_symbol f);
    Some (mkNewProduct cusip display_nm (Some (if_asset_type_id f)) (blank_is_absent (if_exchange f))
            (blank_is_absent (if_ccy f)) (blank_is_absent (if_description f)) (blank_is_absent (if_issue_type f)),
          if_app_id f, vendor_symbol).

(** ** The routes *)

(** [GET /inst/products] *)
Definition get_products (c : InstrumentCache) : list product := ic_products c.

(** [GET /inst/products/{product_id}/xrefs] *)
Definition get_product_xrefs (c : InstrumentCache) (pid : Z) : res exn (list xref) :=
  match get_xrefs c (Some pid) None with
  | [] => Raise (HTTPException 404 ("No xrefs for product_id=" +:+ str_Z pid))
  | xrefs => Ok xrefs
  end.

(** [GET /inst/apps/{app_id}/products] *)
Definition get_app_products (c : InstrumentCache) (app : Z) : list (product * string) :=
  omap (λ x, p ← get_product_by_id c (x_product_id x); Some (p, x_vendor_symbol x)) (get_xrefs c None (Some app)).

Section routes.
Context {W : Type} `{ReferenceData W} `{InstDb W}.

(** [GET /inst/apps/{app_id}/venue-symbols]; [for_app] and [source] are the price bar factory *)
Definition get_venue_symbols (for_app : Z → prog W exn unit) (source : Z → BarSource W) (app_id : Z)
    : prog W exn (list VenueMarket) :=
  venue ← exchange_id_for_app app_id;
  match venue with
  | None => mret []
  | Some _ => _ ← for_app app_id; @src_venue_symbols W (source app_id)
  end.

(** [POST /inst/products] *)
Definition create_product (req : new_product * Z * string) : prog (InstrumentCache * W) exn (product * Z * string * Z * Z) :=
  let '(np, app, vendor_symbol) := req in create_instrument np app vendor_symbol.

(** [POST /inst/refresh] *)
Definition refresh_inst : prog (InstrumentCache * W) exn unit :=
  catch load_all (λ _, raise (HTTPException 503 "Failed to refresh INST cache")).
End routes.

(** ** Names *)

Lemma str_all_app f s t : str_all f (s +:+ t) = str_all f s && str_all f t.
Proof. induction s as [|c s IH]; [done|]. simpl. by rewrite IH, andb_assoc. Qed.

Lemma str_all_impl (f g : ascii → bool) s : (∀ c, f c = true → g c = true) → str_all f s = true → str_all g s = true.
Proof. intros Hfg. induction s as [|c s IH]; [done|]. simpl. intros [Hc Hs]%andb_prop. by rewrite (Hfg c Hc), IH. Qed.

Lemma str_map_fixed f s : str_all (λ c, Ascii.eqb (f c) c) s = true → str_map f s = s.
Proof. induction s as [|c s IH]; [done|]. simpl. intros [Hc%Ascii.eqb_eq Hs]%andb_prop. by rewrite Hc, IH. Qed.

Lemma lstrip_fixed s : str_all (λ c, negb (is_space c)) s = true → lstrip s = s.
Proof. destruct s as [|c s]; [done|]. simpl. intros [Hc%negb_true_iff _]%andb_prop. by rewrite Hc. Qed.

Lemma rstrip_fixed s : str_all (λ c, negb (is_space c)) s = true → rstrip s = s.
Proof.
  induction s as [|c s IH]; [done|]. simpl. intros [Hc%negb_true_iff Hs]%andb_prop. rewrite (IH Hs), Hc. by destruct s.
Qed.

Lemma lstrip_idem s : lstrip (lstrip s) = lstrip s.
Proof. induction s as [|c s IH]; [done|]. simpl. destruct (is_space c) eqn:Ec; [done|]. simpl. by rewrite Ec. Qed.

Lemma rstrip_idem s : rstrip (rstrip s) = rstrip s.
Proof.
  induction s as [|c s IH]; [done|]. simpl. destruct (rstrip s) as [|d t] eqn:Er.
  - destruct (is_space c) eqn:Ec; [done|]. simpl. by rewrite Ec.
  - change (rstrip (String c (String d t))) with (match rstrip (String d t) with EmptyString => if is_space c then EmptyString else String c EmptyString | t => String c t end).
    by rewrite IH.
Qed.

Lemma rstrip_lstrip s : rstrip (lstrip s) = lstrip (rstrip s).
Proof.
  induction s as [|c s IH]; [done|]. simpl. destruct (is_space c) eqn:Ec.
  - rewrite IH. destruct (rstrip s) as [|d t]; [done|]. simpl. by rewrite Ec.
  - simpl. rewrite Ec. destruct (rstrip s); simpl; by rewrite Ec.
Qed.

Lemma strip_idem s : strip (strip s) = strip s.
Proof. unfold strip. by rewrite rstrip_lstrip, lstrip_idem, rstrip_idem. Qed.

(** What the characters of a cusip are. *)
Definition cusip_char (c : ascii) : bool := is_symbol_char c || Ascii.eqb c ".".

Definition every_char (P : ascii → bool) : bool := forallb (λ n, P (ascii_of_nat n)) (seq 0 256).
Lemma by_every_char P : every_char P = true → ∀ c, P c = true.
Proof.
  unfold every_char. rewrite forallb_forall. intros HP c. rewrite <-(ascii_nat_embedding c). apply HP.
  rewrite <-list_elem_of_In, elem_of_seq. pose proof (nat_ascii_bounded c). lia.
Qed.

Lemma symbol_char_impl (g : ascii → bool) : every_char (λ c, negb (cusip_char c) || g c) = true →
  ∀ c, cusip_char c = true → g c = true.
Proof. intros Hg c Hc. pose proof (by_every_char _ Hg c) as Hb. cbn beta in Hb. by rewrite Hc in Hb. Qed.

Lemma is_symbol_chars s : is_symbol s = true → str_all cusip_char s = true.
Proof.
  destruct s as [|c s]; [done|]. simpl. intros [Hc Hs]%andb_prop. apply andb_true_intro. split.
  - unfold cusip_char, is_symbol_char. by rewrite Hc.
  - revert Hs. apply str_all_impl. intros d Hd. unfold cusip_char. by rewrite Hd.
Qed.

Lemma partition_on_app c s a b : partition_on c s = (a, true, b) → s = a +:+ String c b.
Proof.
  revert a b. induction s as [|d s IH]; intros a b; [done|]. simpl. destruct (Ascii.eqb d c) eqn:E.
  - apply Ascii.eqb_eq in E as ->. by intros [= <- <-].
  - destruct (partition_on c s) as [[p found] q]. intros [= <- -> <-].
    by rewrite (IH p q eq_refl) at 1.
Qed.

Lemma cusip_re_parts s : cusip_re s = true →
  ∃ symbol suffix, s = symbol +:+ "." +:+ suffix ∧ is_symbol symbol = true ∧ is_symbol suffix = true.
Proof.
  unfold cusip_re. destruct (partition_on _ s) as [[a f] b] eqn:Ep. rewrite !andb_true_iff. intros [[-> Ha] Hb].
  exists a, b. split_and!; [|done..]. by apply partition_on_app.
Qed.

Lemma cusip_re_chars s : cusip_re s = true → str_all cusip_char s = true.
Proof.
  intros (a & b & -> & Ha & Hb)%cusip_re_parts. rewrite !str_all_app, (is_symbol_chars a Ha), (is_symbol_chars b Hb). done.
Qed.

(** An accepted name is left as it is by another pass. *)
Lemma normalise_fixed c : cusip_re c = true → normalise_cusip c = Some c.
Proof.
  intros Hc. pose proof (cusip_re_chars c Hc) as Hs. unfold normalise_cusip.
  assert (strip c = c) as ->.
  { assert (str_all (λ c, negb (is_space c)) c = true) as Hn.
    { revert Hs. apply str_all_impl, symbol_char_impl. vm_compute. reflexivity. }
    unfold strip. by rewrite (rstrip_fixed c Hn), lstrip_fixed. }
  assert (lower c = c) as ->; [|by rewrite Hc].
  apply str_map_fixed. revert Hs. apply str_all_impl, symbol_char_impl. vm_compute. reflexivity.
Qed.

Lemma strip_required_fixed v s : strip_required v = Some s → strip_required s = Some s ∧ (1 <= String.length s)%nat.
Proof.
  unfold strip_required. destruct (strip v) as [|c t] eqn:E; [done|]. intros [= <-].
  rewrite <-E, strip_idem, E. split; [done|]. simpl. lia.
Qed.

Lemma blank_is_absent_fixed v : blank_is_absent (blank_is_absent v) = blank_is_absent v.
Proof.
  destruct v as [v|]; [|done]. cbn. destruct (strip_required v) as [s|] eqn:E; [|done]. cbn.
  by apply strip_required_fixed in E as [-> _].
Qed.

(** The form an accepted instrument would be sent with again. *)
Definition form_of (np : new_product) (app : Z) (vendor_symbol : string) : instrument_form :=
  mkInstrumentForm (np_cusip np) (np_display_nm np) (default 0 (np_asset_type_id np)) (np_exchange np) (np_ccy np)
    (np_description np) (np_issue_type np) app vendor_symbol.

(** What the form accepts is in normal form: the name is a symbol and a suffix
    of lower-case letters, digits, underscores and dashes with one dot between them,
    the names a person and the venue read are not blank, and sending what was stored
    once more stores the same. *)
Theorem accepted_instrument_is_normal f np app vendor_symbol :
  create_instrument_request f = Some (np, app, vendor_symbol) →
  (∃ symbol suffix, np_cusip np = symbol +:+ "." +:+ suffix ∧ is_symbol symbol = true ∧ is_symbol suffix = true) ∧
  np_cusip np = lower (strip (if_internal_cusip f)) ∧ np_display_nm np ≠ "" ∧ vendor_symbol ≠ "" ∧
  create_instrument_request (form_of np app vendor_symbol) = Some (np, app, vendor_symbol).
Proof.
  unfold create_instrument_request at 1. destruct (_ || _ || _); [done|].
  destruct (normalise_cusip _) as [cusip|] eqn:Ec; [|done]. cbn [mbind option_bind].
  destruct (strip_required (if_display_nm f)) as [nm|] eqn:En; [|done]. cbn [mbind option_bind].
  destruct (strip_required (if_vendor_symbol f)) as [vs|] eqn:Ev; [|done]. intros [= <- <- <-]. cbn [np_cusip np_display_nm].
  unfold normalise_cusip in Ec. destruct (cusip_re _) eqn:Er; [|done]. injection Ec as Ec. rewrite Ec in Er.
  destruct (cusip_re_parts _ Er) as (a & b & Hab & Ha & Hb).
  apply strip_required_fixed in En as [Hn Hnl]. apply strip_required_fixed in Ev as [Hv Hvl].
  split; [by exists a, b|]. split; [done|]. split; [by intros ->|]. split; [by intros ->|].
  unfold create_instrument_request, form_of. cbn. rewrite (normalise_fixed _ Er), Hn, Hv, !blank_is_absent_fixed.
  assert (3 <= String.length cusip)%nat as Hl.
  { rewrite Hab, !length_append. destruct a; [done|]. destruct b; [done|]. simpl. lia. }
  rewrite (proj2 (Nat.leb_gt (String.length cusip) 2)), (proj2 (Nat.leb_gt (String.length nm) 0)),
    (proj2 (Nat.leb_gt (String.length vs) 0)) by lia. reflexivity.
Qed.

Lemma accepted_instrument_is_normal_witness : ∃ np,
  create_instrument_request (mkInstrumentForm " BTCUSDT.crypto" "Bitcoin / USDT " 1 (Some " ") (Some "USDT") None None 11 "BTCUSDT")
    = Some (np, 11, "BTCUSDT") ∧ np_cusip np = "btcusdt.crypto" ∧ np_exchange np = None ∧
  create_instrument_request (form_of np 11 "BTCUSDT") = Some (np, 11, "BTCUSDT").
Proof.
  eexists. split; [vm_compute; reflexivity|]. split; [reflexivity|]. split; [reflexivity|].
  eapply (accepted_instrument_is_normal
    (mkInstrumentForm " BTCUSDT.crypto" "Bitcoin / USDT " 1 (Some " ") (Some "USDT") None None 11 "BTCUSDT")).
  vm_compute. reflexivity.
Defined.

(** ** What a venue lists *)

(** C40. With one current row per product and one mapping per product and app, as the
    unique indexes keep them, the list of an app and the resolver agree: a product
    is listed there under a symbol exactly when it is current and that is the symbol
    it resolves to, so nothing is offered that could not be captured or traded. *)
Theorem listed_iff_resolvable products xrefs app p symbol :
  NoDup (product_id <$> products) → NoDup ((λ x, (x_product_id x, x_app_id x)) <$> xrefs) →
  (p, symbol) ∈ get_app_products (cache_of products xrefs) app ↔
  p ∈ products ∧ resolve_vendor_symbol (cache_of products xrefs) (product_id p) app = Some symbol.
Proof.
  intros Hp Hx.
  assert (∀ q, q ∈ products → get_product_by_id (cache_of products xrefs) (product_id q) = Some q) as Hget.
  { intros q Hq. unfold get_product_by_id, cache_of. cbn [ic_by_product_id]. rewrite dict_get_comp.
    rewrite (last_unique _ _ q); [done..|]. intros y Hy He. by apply (NoDup_fmap_inj_on product_id products). }
  assert (∀ x, x ∈ xrefs → resolve_vendor_symbol (cache_of products xrefs) (x_product_id x) (x_app_id x) = Some (x_vendor_symbol x)) as Hres.
  { intros x Hxin. unfold resolve_vendor_symbol, cache_of. cbn [ic_xref_index]. rewrite dict_get_comp.
    rewrite (last_unique _ _ x); [done..|]. intros y Hy He.
    by apply (NoDup_fmap_inj_on (λ x, (x_product_id x, x_app_id x)) xrefs). }
  assert (∀ x, x ∈ get_xrefs (cache_of products xrefs) None (Some app) ↔ x ∈ xrefs ∧ x_app_id x = app) as Hin.
  { intros x. unfold get_xrefs. rewrite !list_elem_of_In, !filter_In, Z.eqb_eq. cbn [ic_xrefs cache_of]. tauto. }
  unfold get_app_products. rewrite list_elem_of_omap. split.
  - intros (x & [Hxin <-]%Hin & Hm). unfold get_product_by_id, cache_of in Hm. cbn [ic_by_product_id] in Hm.
    rewrite dict_get_comp in Hm. destruct (last _) as [q|] eqn:El; [|done]. injection Hm as <- <-.
    apply last_Some_elem_of, list_elem_of_filter in El as [Hq Hqin]. split; [done|].
    cbn [id]. rewrite Hq. by apply Hres.
  - intros [Hpin Hr]. unfold resolve_vendor_symbol, cache_of in Hr. cbn [ic_xref_index] in Hr.
    rewrite dict_get_comp in Hr. destruct (last _) as [x|] eqn:El; [|done]. injection Hr as <-.
    apply last_Some_elem_of, list_elem_of_filter in El as [[= Hpx Happ] Hxin].
    exists x. split; [by apply Hin|]. rewrite Hpx, (Hget p Hpin). done.
Qed.

Lemma listed_iff_resolvable_witness :
  let c := cache_of [mkProduct 1 "btcusdt.crypto" None None None; mkProduct 2 "ibit.nasdaq" None None None] [mkXref 1 11 "BTCUSDT"] in
  (mkProduct 1 "btcusdt.crypto" None None None, "BTCUSDT") ∈ get_app_products c 11.
Proof.
  apply listed_iff_resolvable.
  - apply (bool_decide_unpack _). vm_compute. reflexivity.
  - apply (bool_decide_unpack _). vm_compute. reflexivity.
  - split; [by left|vm_compute; reflexivity].
Defined.

(** What [CreatedInstrument] calls the first venue mapping is the request's: the route
    answers with a mapping even when the reloaded cache has none, as when another
    writer withdrew it in between. *)
Section echo.
#[local] Instance withdrawn : InstDb unit := {|
  sp_get_product := mret [mkProduct 1 "btcusdt.crypto" None None None];
  sp_get_product_xref := mret [];
  sp_ins_product _ := mret (1, 1);
  sp_ins_product_xref _ _ _ := mret (5, 1)
|}.

Theorem mapping_is_echoed np : ∃ c,
  create_product (np, 11, "BTCUSDT") (empty_cache, tt) =
    (Ok (mkProduct 1 "btcusdt.crypto" None None None, 11, "BTCUSDT", 5, 1), (c, tt)) ∧
  get_app_products c 11 = [].
Proof. eexists. split; reflexivity. Qed.
End echo.
