(* ===== verification/TradeRoutes.v ===== *)
(** * Routes of the trading and market data pages

    [api/routers/deployments.py], [api/market_data/router.py], [api/routers/refdata.py],
    [config.py] and [backtest.py]: what each route asks of the service behind it, for
    whom, and how its failure is answered.  The trade routes are written against the
    interface [TradeService], which [build_trade_service] implements over the
    definitions of [Service], [LiveApply] and [Credentials]. *)
From S2P Require Import Prelude PyFloat PyData Order Errors PyValue Ccxt Instruments Intervals RefData CcxtAdapter Adapter OrderPolicy TradeRepo Schedule LiveApply Service BarService Capture Auth Credentials Database Repos Strategies.
Local Open Scope string_scope.
Local Open Scope Z_scope.

(** ** Deployments *)

(** What the routes call; the first argument is the user the call is made for. *)
Class TradeService (W : Type) := {
  ts_dry_run : string → DryRunRequest → prog W exn DryRunReport;
  ts_schedule_options : string → string → Z → prog W exn (list Z);
  ts_account_snapshot : string → Z → bool → prog W exn AccountSnapshot;
  ts_create : string → string → CreateDeploymentRequest → prog W exn DeploymentRow;
  ts_list : string → prog W exn (list DeploymentRow);
  ts_get : string → string → prog W exn DeploymentRow;
  ts_update : string → string → UpdateDeploymentRequest → prog W exn DeploymentRow;
  ts_stop : string → string → prog W exn DeploymentRow;
  ts_apply : string → string → prog W exn ApplyReport;
  ts_events : string → option string → Z → prog W exn (list execution_event);
  ts_transactions : string → option string → Z → prog W exn (list transaction)
}.

Section deployments.
Context {W : Type} `{TradeService W}.

Definition dry_run_deployment (user : CurrentUser) (req : DryRunRequest) : prog W exn DryRunReport :=
  ts_dry_run (cu_id user) req.
Definition schedule_options_route (user : CurrentUser) (strategy_id : string) (strategy_vid : Z) : prog W exn (list Z) :=
  ts_schedule_options (cu_id user) strategy_id strategy_vid.
(** [paper] is true when the query leaves it out. *)
Definition account_snapshot_route (user : CurrentUser) (api_credential_id : Z) (paper : option bool)
    : prog W exn AccountSnapshot :=
  ts_account_snapshot (cu_id user) api_credential_id (default true paper).
Definition create_deployment_route (user : CurrentUser) (req : CreateDeploymentRequest) : prog W exn DeploymentRow :=
  ts_create (cu_id user) (cu_id user) req.
Definition list_deployments_route (user : CurrentUser) : prog W exn (list DeploymentRow) := ts_list (cu_id user).
Definition get_deployment_route (user : CurrentUser) (dep : string) : prog W exn DeploymentRow := ts_get (cu_id user) dep.
Definition update_deployment_route (user : CurrentUser) (dep : string) (req : UpdateDeploymentRequest)
    : prog W exn DeploymentRow := ts_update (cu_id user) dep req.
Definition stop_deployment_route (user : CurrentUser) (dep : string) : prog W exn DeploymentRow := ts_stop (cu_id user) dep.
Definition apply_deployment_route (user : CurrentUser) (dep : string) : prog W exn ApplyReport := ts_apply (cu_id user) dep.

(** The default of [limit] in the four lists. *)
Definition page_limit (limit : option Z) : Z := default 50 limit.
Definition list_execution_events_route (user : CurrentUser) (dep : option string) (limit : option Z)
    : prog W exn (list execution_event) := ts_events (cu_id user) dep (page_limit limit).
Definition list_transactions_route (user : CurrentUser) (dep : option string) (limit : option Z)
    : prog W exn (list transaction) := ts_transactions (cu_id user) dep (page_limit limit).
Definition list_deployment_events (user : CurrentUser) (dep : string) (limit : option Z)
    : prog W exn (list execution_event) := list_execution_events_route user (Some dep) limit.
Definition list_deployment_transactions (user : CurrentUser) (dep : string) (limit : option Z)
    : prog W exn (list transaction) := list_transactions_route user (Some dep) limit.

(** [POST /trade/venue-limits/refresh], of [VenueLimitsPublisher.publish_all] *)
Definition refresh_venue_limits (publish_limits : prog W exn Z) : prog W exn pyval :=
  n ← catch publish_limits (λ e, raise (HTTPException 503 ("refresh failed: " +:+ exn_msg e)));
  mret (VDict [("apps", VInt n)]).
End deployments.

(** [build_trade_service]: the services over one application state *)
Section wiring.
Context {W : Type} `{ServiceEnv W} `{TradeDb W} `{ReferenceData W} `{ApplyEnv W} `{Clock W}.
Context `{CredentialDb W} `{Fernet W} (secrets_key : string).
Context (fromisoformat : string → res exn datetime) (inst : InstrumentCache) (tz : string → zone).
Context (brokers : registry W) (accounts : list (Z * (string → string → bool → prog W exn (AccountAdapter W)))).
Context (has_price_bars : bool) (policy : OrderRetryPolicy) (webhook : option string).

Definition build_trade_service : TradeService W :=
  let live := live_apply_run fromisoformat inst brokers has_price_bars policy webhook in
  {| ts_dry_run := run_dry_run brokers has_price_bars;
     ts_schedule_options := schedule_options;
     ts_account_snapshot := fetch_account_snapshot secrets_key accounts;
     ts_create := create_deployment inst tz;
     ts_list := list_deployments inst;
     ts_get := get_deployment inst;
     ts_update := update_deployment inst tz;
     ts_stop := stop_deployment inst;
     ts_apply := service_apply inst live;
     ts_events := list_execution_events inst;
     ts_transactions := list_transactions inst |}.
End wiring.

(** ** Market data *)

(** [BarSubscriptionRow]: the row, what the venue calls it and what is stored *)
Definition subscription_row : Type := bar_subscr * coverage_info * option string.

(** [Literal["Y", "N"]] of a subscription; nothing stands for a refused body *)
Definition enabled_request (is_enabled_ind : option string) : option string :=
  let v := default "Y" is_enabled_ind in if bool_decide (v ∈ ["Y"; "N"]) then Some v else None.

(** What a warming pass answers. *)
Definition warm_body (results : list WarmResult) : pyval :=
  VDict [("instruments", VInt (report_instruments results)); ("inserted", VInt (report_inserted results));
         ("failed", VInt (report_failed results));
         ("groups", VList (map (λ r, VDict
            [("tm_interval_id", VInt (wm_tm_interval_id r)); ("app_id", VInt (wm_app_id r));
             ("instruments", VInt (wm_instruments r)); ("inserted", VInt (wm_inserted r));
             ("failures", VDict (map (λ f, (f.1, VStr f.2)) (wm_failures r)))]) results))].

Section market_data.
Context {W : Type} `{SubscrDb W} `{BarServices W} (instruments : InstrumentCache).

(** [_get_bar_warmer]: the deployments' instruments, then the standing requests *)
Definition warm_sources (scheduled_instruments : prog W exn (list warm_row)) : list (prog W exn (list warm_row)) :=
  [scheduled_instruments; sp_get_active_bar_subscriptions].

(** [POST /market-data/price-bars/sync] *)
Definition sync_price_bars (sleep : float → prog W exn unit) (clock : prog W exn Z) (lookback : Z) (settle_s : float)
    (scheduled_instruments : prog W exn (list warm_row)) : prog W exn pyval :=
  results ← warm_run sleep clock lookback settle_s (warm_sources scheduled_instruments) None;
  mret (warm_body results).

(** [POST /market-data/provider-series] *)
Definition subscribe_provider_series (internal_cusip : string) (app_id app_metric_id tm_interval_id : Z)
    (is_enabled_ind : string) (backfill_from_ts : option Z) (series_subscr_id : option string) : prog W exn subscr_row :=
  provider_subscribe internal_cusip app_id app_metric_id tm_interval_id is_enabled_ind backfill_from_ts series_subscr_id.

(** [GET /market-data/provider-series] *)
Definition list_provider_series : prog W exn (list subscr_row) :=
  rows ← sp_get_series_subscr; mret (filter (λ r, ss_app_metric_id r ≠ None) rows).

(** [GET /market-data/subscriptions] *)
Definition list_subscriptions_route : prog W exn (list subscription_row) := list_subscriptions instruments.

(** [POST /market-data/subscriptions] *)
Definition subscribe (internal_cusip : string) (tm_interval_id source_app_id : Z) (is_enabled_ind : string)
    (backfill_from_ts : option Z) (series_subscr_id : option string) : prog W exn subscription_row :=
  row ← bar_subscribe instruments internal_cusip tm_interval_id source_app_id is_enabled_ind backfill_from_ts series_subscr_id;
  coverage ← subscr_coverage (mkSeries internal_cusip tm_interval_id source_app_id);
  mret (row, coverage, vendor_symbol instruments internal_cusip source_app_id).

(** [GET /market-data/price-bars/coverage], [/venue-depth] and [/backfill-plan] *)
Definition price_bar_coverage (internal_cusip : string) (tm_interval_id source_app_id : Z) : prog W exn coverage_info :=
  subscr_coverage (mkSeries internal_cusip tm_interval_id source_app_id).
Definition price_bar_venue_depth (internal_cusip : string) (tm_interval_id source_app_id : Z)
    : prog W exn (option Z * option Z * Z) :=
  subscr_depth (mkSeries internal_cusip tm_interval_id source_app_id).
Definition price_bar_backfill_plan (internal_cusip : string) (tm_interval_id source_app_id : Z) (target : datetime)
    : prog W exn BackfillPlan :=
  subscr_plan (mkSeries internal_cusip tm_interval_id source_app_id) target.

(** [POST /market-data/price-bars/backfill]: the result, and whether it is continuous *)
Definition backfill_price_bars (internal_cusip : string) (tm_interval_id source_app_id : Z) (start : datetime)
    (end_ : option datetime) : prog W exn (BackfillResult * bool) :=
  result ← subscr_backfill (mkSeries internal_cusip tm_interval_id source_app_id) start end_;
  mret (result, is_continuous result).
End market_data.

(** ** Snapshots and backtests *)

Section snapshots.
Context {W : Type}.

(** [GET /refdata/{table}] and [GET /config/{table}], of [RedisRefData.get] or [get_config] *)
Definition snapshot_route (read : string → prog W exn (list pyval)) (table : string) : prog W exn (list pyval) :=
  answering [(CValueError, 404)] (read table).

(** [POST /refdata/refresh] and [POST /config/refresh], of [RefDataPublisher.publish] *)
Definition refresh_snapshot (publish : string → prog W exn Z) (schema : string) : prog W exn pyval :=
  n ← catch (publish schema) (λ e, raise (HTTPException 503 ("refresh failed: " +:+ exn_msg e)));
  mret (VDict [("tables", VInt n)]).

(** [_http_error] *)
Definition http_error (e : exn) : exn :=
  if isinstance e CBacktestError then HTTPException (default 500 (exn_status_code e)) (exn_msg e)
  else HTTPException 400 (exn_msg e).

(** The three routes of [backtest.py], of the run each makes. *)
Definition backtest_route {A} (run : prog W exn A) : prog W exn A := catch run (λ e, raise (http_error e)).
End snapshots.

(** ** Both lists of standing requests *)

(** The two pages show each current row once between them: a row with a metric as a
    provider series, a row without as a venue subscription. *)
Theorem series_are_listed_once {W} `{SubscrDb W} rows (w : W) : sp_get_series_subscr w = (Ok rows, w) →
  ∃ providers venues, list_provider_series w = (Ok providers, w) ∧ venue_rows w = (Ok venues, w) ∧
    (map ss_id providers ++ map bs_id venues)%list ≡ₚ map ss_id rows.
Proof.
  intros Hr. eexists _, _. split; [unfold list_provider_series; by rewrite (bind_ok _ _ _ _ _ Hr)|].
  split; [unfold venue_rows; by rewrite (bind_ok _ _ _ _ _ Hr)|]. clear Hr.
  induction rows as [|r rows IH]; [done|]. rewrite !filter_cons.
  destruct (ss_app_metric_id r) as [m|] eqn:E; cbn.
  - by constructor.
  - rewrite <-IH. symmetry. apply Permutation_middle.
Qed.

(** ** Whose deployment *)

(** A route that names a deployment. *)
Inductive deployment_call :=
| CallGet | CallUpdate (req : UpdateDeploymentRequest) | CallStop | CallApply
| CallEvents (limit : option Z) | CallTransactions (limit : option Z).

Definition call_deployment {W} `{TradeService W} (user : CurrentUser) (dep : string) (c : deployment_call)
    : prog W exn unit :=
  match c with
  | CallGet => _ ← get_deployment_route user dep; mret tt
  | CallUpdate req => _ ← update_deployment_route user dep req; mret tt
  | CallStop => _ ← stop_deployment_route user dep; mret tt
  | CallApply => _ ← apply_deployment_route user dep; mret tt
  | CallEvents limit => _ ← list_deployment_events user dep limit; mret tt
  | CallTransactions limit => _ ← list_deployment_transactions user dep limit; mret tt
  end.

Section ownership.
Context {W : Type} (E : ServiceEnv W) (T : TradeDb W) (D : ReferenceData W) (A : ApplyEnv W) (K : Clock W).
Context (C : CredentialDb W) (F : Fernet W) (secrets_key : string).
Context (fromisoformat : string → res exn datetime) (inst : InstrumentCache) (tz : string → zone).
Context (brokers : registry W) (accounts : list (Z * (string → string → bool → prog W exn (AccountAdapter W)))).
Context (has_price_bars : bool) (policy : OrderRetryPolicy) (webhook : option string).
#[local] Instance service_here : TradeService W :=
  build_trade_service secrets_key fromisoformat inst tz brokers accounts has_price_bars policy webhook.

(** A deployment the database does not answer for the caller is not found by any
    route that names one: the reading that misses is the last thing that happens, so
    nothing is written, no broker is reached and no diary is read, and the answer is
    404 whichever route asked. *)
Theorem foreign_deployment_is_404 user dep c w w' :
  sp_get_deployment (cu_id user) (Some dep) None w = (Ok [], w') →
  call_deployment user dep c w = (Raise (DeploymentNotFound dep), w') ∧
  ∀ proc, (handled_response proc (DeploymentNotFound dep)).1 = 404.
Proof.
  intros Hnone. split; [|reflexivity].
  assert (get_deployment inst (cu_id user) dep w = (Raise (DeploymentNotFound dep), w')) as Hg.
  { unfold get_deployment. by rewrite (bind_ok _ _ _ _ _ Hnone). }
  assert (∀ B (f : DeploymentRow → prog W exn B), (get_deployment inst (cu_id user) dep ≫= f) w = (Raise (DeploymentNotFound dep), w')) as Hb.
  { intros B f. exact (bind_raise _ _ _ _ _ Hg). }
  destruct c; cbn [call_deployment]; apply bind_raise.
  1: exact Hg. 1-3: exact (Hb _ _). all: apply bind_raise; exact (Hb _ _).
Qed.
End ownership.

(** A database without deployments. *)
#[local] Instance nothing_deployed : ServiceEnv script := {|
  cached_limits _ s _ w := (Ok (no_limits s), w);
  service_now w := (Ok 0, w);
  Service.uuid4 w := (Ok "new", w)
|}.
#[local] Instance no_credentials : CredentialDb script := {|
  sp_list_credentials _ w := (Ok [], w);
  sp_get_credential _ _ w := (Ok None, w);
  sp_insert_credential _ w := (Raise db_down, w);
  sp_revoke_credential _ _ w := (Raise db_down, w)
|}.
#[local] Instance no_cipher : Fernet script := {|
  fernet_open _ := Ok tt;
  fernet_encrypt _ p w := (Ok p, w);
  fernet_decrypt _ t := Ok t;
  generate_key w := (Ok "key", w)
|}.

#[local] Instance one_of_each : SubscrDb unit := {|
  sp_ins_subscr _ := mret tt;
  sp_get_series_subscr := mret [mkSubscr "v" 1 "btcusdt.crypto" 11 None 2 "Y" None 0; mkSubscr "p" 1 "btc" 5 (Some 7) 1 "Y" None 0];
  sp_get_active_bar_subscriptions := mret [];
  subscr_uuid := mret "new"
|}.

Lemma series_are_listed_once_witness : ∃ providers venues,
  list_provider_series tt = (Ok providers, tt) ∧ venue_rows tt = (Ok venues, tt) ∧
  (map ss_id providers ++ map bs_id venues)%list ≡ₚ ["v"; "p"].
Proof.
  apply (series_are_listed_once
    [mkSubscr "v" 1 "btcusdt.crypto" 11 None 2 "Y" None 0; mkSubscr "p" 1 "btc" 5 (Some 7) 1 "Y" None 0] tt).
  reflexivity.
Defined.

Lemma foreign_deployment_is_404_witness :
  @call_deployment script
    (build_trade_service (H0 := failing_diary) (H1 := two_catalogs) (H2 := long_signal) (H3 := script_clock)
       "key" noon no_instruments utc_zone one_broker [] false three_attempts None)
    (mkCurrentUser "bob" "bob" 0) "ann's" CallStop filling_venue = (Raise (DeploymentNotFound "ann's"), filling_venue).
Proof.
  refine (proj1 (foreign_deployment_is_404 nothing_deployed failing_diary two_catalogs long_signal script_clock
    no_credentials no_cipher "key" noon no_instruments utc_zone one_broker [] false three_attempts None
    (mkCurrentUser "bob" "bob" 0) "ann's" CallStop filling_venue filling_venue _)).
  reflexivity.
Defined.
