(* ===== verification/Wiring.v ===== *)
(** * Wiring: brokers, the poller, the probe

    What [trade/registry.py] builds at start-up, the timed loop of
    [trade/scheduler/poller.py] and the health check of [shared/db.py]. *)
From S2P Require Import Prelude PyFloat PyData Order Errors PyValue RefData Ccxt Instruments Intervals Adapter LiveApply Scheduler Auth Database.
Local Open Scope string_scope.
Local Open Scope Z_scope.

(** ** The registry of brokers *)

Section registry_building.
Context {W : Type} `{ReferenceData W}.
(** [refdata.setting_floats("fill_confirm_delays_s")] and [create_ccxt_adapter] with the router *)
Context (confirm_delays : prog W exn (list float)) (create_ccxt : CcxtExchangePreset → list float → factory W).

(** [_factory_for]: the delays are read at each call *)
Definition factory_for (preset : CcxtExchangePreset) : factory W := λ api_key api_secret paper,
  delays ← confirm_delays; create_ccxt preset delays api_key api_secret paper.

(** [build_default_registry] *)
Definition build_default_registry : prog W exn (registry W) :=
  apps ← ccxt_apps CCXT_PRESETS;
  mret (foldl (λ r a, register r a.1 (factory_for a.2)) [] apps).

Lemma preset_of_apps (apps : list (Z * CcxtExchangePreset)) app : NoDup apps.*1 →
  last (filter (λ a, a.1 = app) apps) = List.find (λ a, a.1 =? app) apps.
Proof.
  induction apps as [|a apps IH]; [done|]. rewrite fmap_cons, NoDup_cons. intros [Hn Hd].
  rewrite filter_cons. cbn [List.find]. destruct (Z.eqb_spec a.1 app) as [He|He].
  - rewrite decide_True by done.
    assert (filter (λ a, a.1 = app) apps = []) as -> .
    { apply filter_none. intros b Hb Hba. destruct Hn. rewrite He, <-Hba. by apply list_elem_of_fmap_2. }
    done.
  - rewrite decide_False by done. by apply IH.
Qed.

(** Where the orders of an app go is where its bars come from: with one app per
    broker name, the registry built at start-up has an adapter for exactly the apps
    whose preset the market data finds, built from that very preset. *)
Theorem orders_go_where_bars_come_from w apps w1 : ccxt_apps CCXT_PRESETS w = (Ok apps, w1) → NoDup apps.*1 →
  ∃ reg, build_default_registry w = (Ok reg, w1) ∧
    ∀ app, ∃ p, preset_for_app app w = (Ok p, w1) ∧ exchange_id_for_app app w = (Ok (exchange_id <$> p), w1) ∧
      dict_get app reg = factory_for <$> p ∧ has_adapter reg app = bool_decide (is_Some p).
Proof.
  intros Ha Hd. eexists. split; [unfold build_default_registry; by rewrite (bind_ok _ _ _ _ _ Ha)|].
  intros app. assert (preset_for_app app w = (Ok (snd <$> List.find (λ a, a.1 =? app) apps), w1)) as Hp.
  { unfold preset_for_app. by rewrite (bind_ok _ _ _ _ _ Ha). }
  eexists. split; [exact Hp|]. split; [unfold exchange_id_for_app; by rewrite (bind_ok _ _ _ _ _ Hp)|].
  assert (dict_get app (foldl (λ r a, register r a.1 (factory_for a.2)) [] apps) =
    factory_for <$> (snd <$> List.find (λ a, a.1 =? app) apps)) as Hg.
  { pose proof (dict_get_comp fst (λ a, factory_for a.2) app apps) as Hc. rewrite (preset_of_apps apps app Hd) in Hc.
    unfold dict_comp in Hc. unfold register. etrans; [exact Hc|]. by destruct (List.find _ apps). }
  split; [exact Hg|]. unfold has_adapter. rewrite Hg. apply bool_decide_ext. by rewrite fmap_is_Some.
Qed.
End registry_building.

(** ** The timed loop *)

Section poller.
Context {W : Type}.
(** one sweep, [asyncio.sleep(poll_interval_s)], and the field [_running], which [stop]
    may clear at any time *)
Context (poll_once : prog W exn (list TickReport)) (nap : prog W exn unit).
Context (running : prog W exn bool) (set_running : bool → prog W exn unit).

(** [n] rounds of the loop of [run]; whether it ended *)
Fixpoint poll_rounds (n : nat) : prog W exn bool :=
  match n with
  | O => mret false
  | S n' =>
      on ← running;
      if negb on then mret true
      else
        _ ← nap;
        on ← running;
        if negb on then mret true
        else _ ← poll_once; poll_rounds n'
  end.

(** [run], followed for [n] rounds *)
Definition poller_run (max_drain_passes : Z) (n : nat) : prog W exn bool :=
  _ ← set_running true;
  finally (_ ← drain poll_once max_drain_passes; poll_rounds n) (set_running false).

(** [stop] *)
Definition poller_stop : prog W exn unit := on ← running; if (on : bool) then set_running false else mret tt.
End poller.

Inductive poller_event := PoRunning (r : res exn bool) | PoNap (r : res exn unit) | PoSweep (r : res exn (list TickReport)).

(** The rounds of the loop: a sweep only after a sleep from which the poller woke
    still running; [ended] tells that it read that it was stopped. *)
Inductive rounds : nat → list poller_event → res exn bool → Prop :=
| rounds_out : rounds 0 [] (Ok false)
| rounds_stopped n : rounds (S n) [PoRunning (Ok false)] (Ok true)
| rounds_stopped_asleep n : rounds (S n) [PoRunning (Ok true); PoNap (Ok tt); PoRunning (Ok false)] (Ok true)
| rounds_swept n reports evs r : rounds n evs r →
    rounds (S n) (PoRunning (Ok true) :: PoNap (Ok tt) :: PoRunning (Ok true) :: PoSweep (Ok reports) :: evs) r
| rounds_unread n e : rounds (S n) [PoRunning (Raise e)] (Raise e)
| rounds_cancelled n e : rounds (S n) [PoRunning (Ok true); PoNap (Raise e)] (Raise e)
| rounds_unread_awake n e : rounds (S n) [PoRunning (Ok true); PoNap (Ok tt); PoRunning (Raise e)] (Raise e)
| rounds_sweep_failed n e :
    rounds (S n) [PoRunning (Ok true); PoNap (Ok tt); PoRunning (Ok true); PoSweep (Raise e)] (Raise e).

(** The steady loop sweeps once per sleep and only while it is running; a sweep that
    raises, or a cancellation, ends it. *)
Theorem steady_loop {W} (poll : prog W exn (list TickReport)) nap running n w tr :
  let '(r, s) := poll_rounds (logged PoSweep poll) (logged PoNap nap) (logged PoRunning running) n (w, tr) in
  ∃ evs, s.2 = (tr ++ evs)%list ∧ rounds n evs r.
Proof.
  revert w tr. induction n as [|n IH]; intros w tr; [exists []; rewrite app_nil_r; split; [done|constructor]|].
  cbn [poll_rounds].
  rewrite logged_bind. destruct (running w) as [[[]|e] w1]; cbn [negb]; [|cbn; eexists; split; [reflexivity|constructor]..].
  rewrite logged_bind. destruct (nap w1) as [[[]|e] w2]; rewrite <-app_assoc;
    [|cbn; eexists; split; [reflexivity|constructor]].
  rewrite logged_bind. destruct (running w2) as [[[]|e] w3]; cbn [negb]; rewrite <-app_assoc;
    [|cbn; eexists; split; [reflexivity|constructor]..].
  rewrite logged_bind. destruct (poll w3) as [[reports|e] w4]; rewrite <-app_assoc;
    [|cbn; eexists; split; [reflexivity|constructor]].
  match goal with |- context [poll_rounds _ _ _ n (w4, ?t)] => specialize (IH w4 t) end.
  destruct (poll_rounds _ _ _ n _) as [r s]. destruct IH as (evs & Hs & Hr). rewrite <-app_assoc in Hs.
  eexists. split; [exact Hs|]. by constructor.
Qed.

(** However it ends, [run] leaves the poller stopped. *)
Theorem run_ends_stopped {W} (poll : prog W exn (list TickReport)) nap running set_running passes n w stopped :
  (∀ b v, ∃ v', set_running b v = (Ok tt, v') ∧ (b = false → stopped v')) →
  stopped (poller_run poll nap running set_running passes n w).2.
Proof.
  intros Hset. unfold poller_run. destruct (Hset true w) as (w1 & Hw & _). rewrite (bind_ok _ _ _ _ _ Hw). unfold finally.
  destruct ((_ ← drain poll passes; poll_rounds poll nap running n) w1) as [r w2]. destruct (Hset false w2) as (w3 & -> & Hst). destruct r; cbn; by apply Hst.
Qed.

Lemma run_ends_stopped_witness :
  (poller_run (W := bool) (mret []) (raise (RuntimeError "cancelled")) (λ w, (Ok w, w)) (λ b _, (Ok tt, b)) 3 5 true).2 = false.
Proof. apply (run_ends_stopped _ _ _ _ _ _ _ (λ w, w = false)). intros b v. exists b. split; [reflexivity|by intros ->]. Defined.

(** ** The probe *)

Section probe.
Context {W : Type} `{PoolLib W} `{Environ W}.
(** [with pool.connection(timeout=...) as conn: conn.execute("SELECT 1")] *)
Context (probe : Z → Z → prog W exn unit).

(** [DbGateway.health_check] *)
Definition health_check (conninfo : string) (timeout : Z) : prog (pools * W) exn unit :=
  pool ← pool_for conninfo; in_world (probe pool timeout).
End probe.
