(* ===== verification/Cli.v ===== *)
(** * The backtest command

    [quant/cli.py]: the catalog rows its arguments name, the configuration made of
    them and the axes of its grid.  Running the engine on them and printing are the
    definitions of [Performance] and [Optimize] and are not repeated here. *)
From S2P Require Import Prelude PyFloat PyData Order Errors PyValue RefData Signals StrategyConfig.
Local Open Scope string_scope.
Local Open Scope Z_scope.

(** The arguments the names and the grid come from. *)
Record cli_args := mkCliArgs {
  ca_symbol : string; ca_asset : string; ca_indicator : string; ca_strategy : string;
  ca_win_min : option Z; ca_win_max : option Z; ca_win_step : option Z;
  ca_sig_min : option float; ca_sig_max : option float; ca_sig_step : option float
}.

(** [_refdata_row] *)
Definition refdata_row (rows : list pyval) (name table : string) : res exn pyval :=
  r ← find_row (col_is "name" name) rows;
  match r with
  | Some r => mret r
  | None =>
      names ← map_res (λ r, v ← getitem "name" r; text_of v) rows;
      Raise (SystemExit ("unknown " +:+ table +:+ " " +:+ repr_str name +:+ "; REFDATA." +:+ upper table +:+ " has: " +:+
                         join ", " (sorted_by String.leb names)))
  end.

(** [_grid_bound] *)
Definition grid_bound {A} (given default : option A) (flag : string) : res exn A :=
  match given, default with
  | Some v, _ => Ok v
  | None, Some v => Ok v
  | None, None => Raise (SystemExit (flag +:+ " has no REFDATA default for this indicator; pass it explicitly"))
  end.

(** a bound of the windows: a flag, or what the catalog holds *)
Definition window_bound (given : option Z) (default : pyval) (flag : string) : res exn pyval :=
  grid_bound (VInt <$> given) (match default with VNone => None | v => Some v end) flag.

(** [_grid_axes], of the rows of REFDATA.INDICATOR *)
Definition grid_axes (np_arange : float → float → float → list float) (args : cli_args) (indicator_method : string)
    (indicator_rows : list pyval) : res exn (list Z * list float) :=
  all ← get_indicator_defaults indicator_rows;
  match dict_get indicator_method all with
  | None => Raise (KeyError indicator_method)
  | Some d =>
      win_min ← window_bound (ca_win_min args) (id_win_min d) "--win-min";
      win_max ← window_bound (ca_win_max args) (id_win_max d) "--win-max";
      win_step ← window_bound (ca_win_step args) (id_win_step d) "--win-step";
      sig_min ← grid_bound (ca_sig_min args) (id_sig_min d) "--sig-min";
      sig_max ← grid_bound (ca_sig_max args) (id_sig_max d) "--sig-max";
      sig_step ← grid_bound (ca_sig_step args) (id_sig_step d) "--sig-step";
      a ← int_val win_min; b ← int_val win_max; s ← int_val win_step;
      if s =? 0 then Raise (ValueError "range() arg 3 must not be zero")
      else mret (py_range a (b + 1) s, np_arange sig_min (fadd sig_max (fdiv sig_step (of_Z 2))) sig_step)
  end.

(** The configuration [main] runs, of the three catalogs. *)
Definition cli_config (args : cli_args) (indicator_rows signal_type_rows asset_type_rows : list pyval) (strategy_id : string)
    : res exn StrategyConfig :=
  ind ← refdata_row indicator_rows (ca_indicator args) "indicator";
  m ← getitem "method_name" ind;
  indicator_method ← text_of m;
  _ ← refdata_row signal_type_rows (ca_strategy args) "signal_type";
  strategy_func ← resolve_signal_func (ca_strategy args) indicator_method indicator_rows signal_type_rows;
  asset ← refdata_row asset_type_rows (ca_asset args) "asset_type";
  p ← getitem "trading_period" asset;
  trading_period ← int_val p;
  mret (mkStrategyConfig (lower (ca_symbol args)) indicator_method strategy_func trading_period strategy_id "" "AND" []).

(** ** The grid *)

(** The defaults of an indicator, as the form of the page sends them. *)
Definition drawer_windows (a b s : Z) : RangeParam := mkRange (of_Z a) (of_Z b) (of_Z s).

(** Without flags the command searches the grid the page searches: the axes are those
    of a request whose ranges are the catalog's bounds. *)
Theorem default_grid_is_the_drawers np_arange args method rows all d a b s lo hi step :
  ca_win_min args = None → ca_win_max args = None → ca_win_step args = None →
  ca_sig_min args = None → ca_sig_max args = None → ca_sig_step args = None →
  get_indicator_defaults rows = Ok all → dict_get method all = Some d →
  id_win_min d = VInt a → id_win_max d = VInt b → id_win_step d = VInt s →
  id_sig_min d = Some lo → id_sig_max d = Some hi → id_sig_step d = Some step →
  Z.abs a < 2 ^ 53 → Z.abs b < 2 ^ 53 → Z.abs s < 2 ^ 53 →
  grid_axes np_arange args method rows =
    (ws ← to_int_values (drawer_windows a b s); Ok (ws, to_float_values np_arange (mkRange lo hi step))).
Proof.
  intros H1 H2 H3 H4 H5 H6 Hall Hd Ha Hb Hs Hlo Hhi Hstep Ba Bb Bs. unfold grid_axes. rewrite Hall. cbn [mbind res_bind].
  rewrite Hd, H1, H2, H3, H4, H5, H6, Ha, Hb, Hs, Hlo, Hhi, Hstep. unfold to_int_values, drawer_windows.
  cbn [rp_min rp_max rp_step]. rewrite !trunc_of_Z by done. cbn. by destruct (s =? 0).
Qed.
