(* ===== verification/Harness.v ===== *)
(** * The offline harness of saved responses

    [scripts/glassnode_local_harness.py]: directories of saved copies are compared
    pair by pair, and a manifest of cases is checked against the copies and the
    contracts beside it.  The file system, the texts of class names and the order
    of a set are parameters; a path is its text. *)
From S2P Require Import Prelude PyFloat PyData Order Errors PyValue RefData Json SavedCopies.
Local Open Scope string_scope.
Local Open Scope Z_scope.

(** ** Equality of JSON values *)

(** [z == f], exactly *)
Definition int_is_float (z : Z) (f : float) : bool :=
  match f with
  | S754_zero _ => z =? 0
  | S754_finite s m e => let '(n, d) := ratio s m e in z * d =? n
  | _ => false
  end.

Definition int_of_bool (b : bool) : Z := if b then 1 else 0.

(** [a == b]: numbers by their value, a boolean being a number, and dictionaries
    whatever the order of their keys *)
Fixpoint py_eq (a b : pyval) : bool :=
  match a with
  | VNone => match b with VNone => true | _ => false end
  | VBool x =>
      match b with
      | VBool y => Bool.eqb x y | VInt z => int_of_bool x =? z | VFloat f => int_is_float (int_of_bool x) f | _ => false
      end
  | VInt z =>
      match b with VBool y => z =? int_of_bool y | VInt z' => z =? z' | VFloat f => int_is_float z f | _ => false end
  | VFloat f =>
      match b with
      | VBool y => int_is_float (int_of_bool y) f | VInt z => int_is_float z f | VFloat g => feqb f g | _ => false
      end
  | VStr s => is_str s b
  | VList l =>
      match b with
      | VList m =>
          (fix go l m := match l, m with
                         | [], [] => true
                         | x :: l', y :: m' => py_eq x y && go l' m'
                         | _, _ => false
                         end) l m
      | _ => false
      end
  | VDict d =>
      match b with
      | VDict e =>
          (length d =? length e)%nat &&
          forallb (λ kv, match dict_get kv.1 e with Some y => py_eq kv.2 y | None => false end) d
      | _ => false
      end
  end.

(** [k in v] *)
Definition py_in (k : string) (v : pyval) : res exn bool :=
  match v with
  | VDict d => Ok (bool_decide (is_Some (dict_get k d)))
  | VList l => Ok (existsb (is_str k) l)
  | VStr s => Ok (str_contains k s)
  | _ => Raise (TypeError ("argument of type '" +:+ type_name v +:+ "' is not iterable"))
  end.

(** [v is False] *)
Definition is_false (v : pyval) : bool := match v with VBool false => true | _ => false end.

Definition repr_tuple (parts : list string) : string :=
  match parts with
  | [p] => "(" +:+ p +:+ ",)"
  | _ => "(" +:+ join ", " parts +:+ ")"
  end.
Definition repr_opt (s : option string) : string := match s with None => "None" | Some s => repr_str s end.
Definition opt_str (s : option string) : pyval := match s with None => VNone | Some s => VStr s end.

(** [if not b: raise AssertionError(msg)], and a check made under a condition *)
Definition require (b : bool) (msg : string) : res exn unit := if b then mret tt else Raise (AssertionError msg).
Definition check_if (b : bool) (m : res exn unit) : res exn unit := if b then m else mret tt.

(** [_eq], and [_eq(actual, expect[key], label)] *)
Definition eq_check (actual expected : pyval) (label : string) : res exn unit :=
  require (py_eq actual expected) (label +:+ ": " +:+ repr_val actual +:+ " != " +:+ repr_val expected).
Definition eq_to (actual expect : pyval) (key label : string) : res exn unit :=
  v ← getitem key expect; eq_check actual v label.

(** ** Reports *)

Inductive StepStatus := PASS | FAIL.
Record StepResult := mkStep { st_step : string; st_status : StepStatus; st_detail : string }.
Definition SuiteReport : Type := list StepResult.

Definition is_fail (s : StepResult) : bool := match st_status s with FAIL => true | PASS => false end.

(** [SuiteReport.failed] *)
Definition suite_failed (r : SuiteReport) : bool := existsb is_fail r.

(** [SuiteReport.summary_line] *)
Definition summary_line (r : SuiteReport) : string :=
  let passed := Z.of_nat (length (List.filter (negb ∘ is_fail) r)) in
  let failed := Z.of_nat (length (List.filter is_fail r)) in
  if negb (failed =? 0) then "[suite] " +:+ str_Z passed +:+ " passed, " +:+ str_Z failed +:+ " failed"
  else "[suite] OK — " +:+ str_Z passed +:+ " passed".

(** the lines [main] prints of one report *)
Definition report_lines (name : string) (r : SuiteReport) : list string :=
  ("[" +:+ name +:+ "]")
  :: map (λ s, "[" +:+ (if is_fail s then "FAIL" else "PASS") +:+ "] " +:+ st_step s +:+
               (if String.eqb (st_detail s) "" then "" else " — " +:+ st_detail s)) r
  ++ [summary_line r].

(** ** What a comparison says *)

(** [_compare_failed] *)
Definition compare_failed (d : RevisionReport) : bool :=
  match rr_mismatch d with
  | Some (String _ _) => true
  | _ => value_revision d || status_changed d || content_type_changed d || nonempty_list (rr_other d)
  end.

Definition part (b : bool) (text : string) : list string := if b then [text] else [].
Definition header_row (h : header_change) : string := repr_tuple [repr_str h.1.1; repr_opt h.1.2; repr_opt h.2].
Definition times (ts : list Z) : string := repr_tuple (map str_Z (take 5 ts)).

Definition changes_text (cs : list ValueChange) : string :=
  let shown := join ", " (map (λ c, "t=" +:+ str_Z (vc_t c) +:+ " " +:+ vc_earlier c +:+ " -> " +:+ vc_later c) (take 5 cs)) in
  let extra := Z.of_nat (length cs) - 5 in
  if 0 <? extra then shown +:+ " (+" +:+ str_Z extra +:+ " more)" else shown.

Definition revision_parts (d : RevisionReport) : list string :=
  (part (negb (bool_decide (rr_error_earlier d = rr_error_later d))) "error body text differs" ++
   part (nonempty_list (rr_changes d)) ("value revisions: " +:+ changes_text (rr_changes d)) ++
   part (nonempty_list (rr_only_earlier d)) ("timestamps removed: " +:+ times (rr_only_earlier d)) ++
   part (nonempty_list (rr_only_later d)) ("timestamps added: " +:+ times (rr_only_later d)) ++
   part (status_changed d) ("status " +:+ str_Z (rr_status_earlier d) +:+ " -> " +:+ str_Z (rr_status_later d)) ++
   part (content_type_changed d)
     ("content-type " +:+ default "None" (rr_type_earlier d) +:+ " -> " +:+ default "None" (rr_type_later d)) ++
   part (nonempty_list (rr_quota d)) ("quota headers changed: " +:+ repr_tuple (map header_row (rr_quota d))) ++
   part (nonempty_list (rr_transport d))
     ("transport headers changed: " +:+ repr_val (VList (map (λ h, VStr h.1.1) (rr_transport d)))) ++
   part (nonempty_list (rr_other d)) ("other headers changed: " +:+ repr_tuple (map header_row (rr_other d))) ++
   part (negb (String.eqb (rr_sha_earlier d) (rr_sha_later d)) && negb (value_revision d))
     "body bytes differ with the same points")%list.

Definition no_difference : string := "no difference in points, status, or content type".

(** [_format_revision] *)
Definition format_revision (d : RevisionReport) : string :=
  match rr_mismatch d with
  | Some (String _ _ as m) => m
  | _ => match revision_parts d with [] => no_difference | parts => join "; " parts end
  end.

(** ** The checks of a case *)

(** [points[0]] and [points[-1]] *)
Definition first_of (points : list Point) : res exn Point :=
  match points with p :: _ => Ok p | [] => Raise (plain CIndexError "tuple index out of range") end.
Definition last_of (points : list Point) : res exn Point :=
  match last points with Some p => Ok p | None => Raise (plain CIndexError "tuple index out of range") end.

(** [{b.t - a.t for a, b in pairwise(points)}], in the order met *)
Fixpoint step_sizes (points : list Point) : list Z :=
  match points with
  | a :: ((b :: _) as rest) => pt_t b - pt_t a :: step_sizes rest
  | _ => []
  end.

(** [{v}]: a list or a dictionary cannot be in a set *)
Definition hashable (v : pyval) : res exn unit :=
  match v with
  | VList _ | VDict _ => Raise (TypeError ("unhashable type: '" +:+ type_name v +:+ "'"))
  | _ => mret tt
  end.

(** [points[1:-1]] *)
Definition middles_of (points : list Point) : list Point := removelast (tl points).

Section checks.
(** the order in which a set of integers is printed *)
Context (set_order : list Z → list Z).

Definition repr_set (s : list Z) : string :=
  match s with [] => "set()" | _ => "{" +:+ join ", " (map str_Z (set_order s)) +:+ "}" end.

(** [_check_points] *)
Definition check_points (points : list Point) (expect : pyval) : res exn unit :=
  with_t ← py_in "first_t" expect;
  _ ← check_if with_t
        (a ← first_of points; _ ← eq_to (VInt (pt_t a)) expect "first_t" "first_t";
         b ← last_of points; eq_to (VInt (pt_t b)) expect "last_t" "last_t");
  with_step ← py_in "step_seconds" expect;
  _ ← check_if with_step
        (let steps := remove_dups (step_sizes points) in
         v ← getitem "step_seconds" expect;
         _ ← hashable v;
         require match steps with [s] => py_eq (VInt s) v | _ => false end
           ("step_seconds: " +:+ repr_set steps +:+ " != {" +:+ repr_val v +:+ "}"));
  with_v ← py_in "first_v" expect;
  _ ← check_if with_v
        (a ← first_of points; _ ← eq_to (VStr (pt_v a)) expect "first_v" "first_v";
         b ← last_of points; eq_to (VStr (pt_v b)) expect "last_v" "last_v");
  let middles := if (with_v : bool) then middles_of points else points in
  with_fill ← py_in "fill_v" expect;
  check_if with_fill
    (v ← getitem "fill_v" expect;
     let bad := map pt_t (List.filter (λ p, negb (is_str (pt_v p) v)) middles) in
     require (negb (nonempty_list bad))
       ("synthetic fill_v mismatch at t=" +:+ repr_val (VList (map VInt (take 3 bad))))).

(** [_response_detail] *)
Definition response_detail (copy : SavedCopy) (expect : pyval) : res exn string :=
  let p := sc_parsed copy in
  match pr_points p with
  | None => mret ("HTTP " +:+ str_Z (pr_status p) +:+ " " +:+ default "None" (pr_content_type p))
  | Some points =>
      values ← get_or "values" (VStr "") expect;
      mret (rstrip ("HTTP " +:+ str_Z (pr_status p) +:+ " " +:+ str_Z (Z.of_nat (length points)) +:+ " points " +:+
                    rid_metric_path (sc_request copy) +:+ " " +:+ rid_asset (sc_request copy) +:+ " " +:+ str_val values))
  end.

(** [copy.parsed.rate_limit.limit] *)
Definition copy_limit (copy : SavedCopy) : option string :=
  rl_limit (rate_limit_from_headers (map (λ h, (h.1, VStr h.2)) (pr_headers (sc_parsed copy)))).

(** the part of [_check_response] about a body of text *)
Definition check_prefix (p : ParsedResponse) (expect : pyval) : res exn unit :=
  let text := default "" (pr_error_text p) in
  prefix ← getitem "body_prefix" expect;
  starts ← match prefix with
           | VStr s => mret (String.prefix s text)
           | v => Raise (TypeError ("startswith first arg must be str or a tuple of str, not " +:+ type_name v))
           end;
  _ ← require starts ("body does not start with " +:+ repr_val prefix);
  _ ← require (match pr_points p with None => true | Some _ => false end) "plain-text body was parsed as points";
  complete ← get "body_complete" expect;
  require (negb (is_false complete && ends_with "]" (rstrip text)))
    "fixture closed the allowed-values list; only a prefix was retained".

(** [_check_response], of a copy that was loaded *)
Definition response_checks (copy : SavedCopy) (expect : pyval) : res exn string :=
  let p := sc_parsed copy in
  let r := sc_request copy in
  _ ← eq_to (VInt (pr_status p)) expect "status" "status";
  _ ← eq_to (VStr (rid_metric_path r)) expect "metric_path" "metric_path";
  _ ← eq_to (VStr (rid_asset r)) expect "asset" "asset";
  _ ← eq_to (VStr (rid_interval r)) expect "interval" "interval";
  _ ← eq_to (VInt (rid_since r)) expect "since" "since";
  _ ← eq_to (VInt (rid_until r)) expect "until" "until";
  with_type ← py_in "content_type" expect;
  _ ← check_if with_type (eq_to (opt_str (pr_content_type p)) expect "content_type" "content_type");
  array ← get "json_array" expect;
  _ ← check_if (truthy array)
        (_ ← require (pr_is_json_array p) "body is not a JSON list";
         require (negb (nonempty_list (pr_object_keys p)))
           ("body has object keys " +:+ repr_tuple (map repr_str (pr_object_keys p))));
  with_count ← py_in "point_count" expect;
  _ ← check_if with_count
        match pr_points p with
        | None => Raise (AssertionError "response has no point list")
        | Some points =>
            _ ← eq_to (VInt (Z.of_nat (length points))) expect "point_count" "point_count";
            check_points points expect
        end;
  with_prefix ← py_in "body_prefix" expect;
  _ ← check_if with_prefix (check_prefix p expect);
  with_limit ← py_in "rate_limit_limit" expect;
  _ ← check_if with_limit (eq_to (opt_str (copy_limit copy)) expect "rate_limit_limit" "x-rate-limit-limit");
  _ ← require (negb (nonempty_list (pr_unexpected p)))
        ("unexpected point keys " +:+ repr_tuple (map repr_str (pr_unexpected p)));
  response_detail copy expect.
End checks.

(** ** The note of the factors *)

(** [SLEEVE_FACTOR_RULE] *)
Definition SLEEVE_FACTOR_RULE : list string :=
  ["The raw point-in-time BTC exchange netflow series (transactions/transfers_volume_exchanges_net_pit) has no exact zeros in the saved copy from 11 Dec 2019 through 1 Oct 2026 (2487 days, 0 nulls, smallest absolute value about 2.56). The 2021-07-01 to 2024-06-30 window is 1096 days and also has no exact zero. A non-zero gate on the raw series never turns the sleeve off, so it is not the child.";
   "The named series, chosen before a result: 1 when that point-in-time value is below zero, and 0 otherwise. No other cut. The 0 must be stored. Dropping zero days is not allowed.";
   "That 0/1 column is factor one. BTC 60/2.25 stays factor two. On a two-factor FILTER the first factor is the gate and the second is the direction. The 0/1 column has to be first if it is meant to turn the sleeve on and off. Put second, the sleeve's direction is thrown away. The gate indicator is an SMA with window 1, so a stored 0 stays off and a 1 stays on. A wider window or a Bollinger is not this series.";
   "In the saved copy the 0/1 column is 0 on 702 days and 1 on 1785 days. That is a count of the named rule, not a backtest result.";
   "The signal threshold on the SMA (window 1) of the 0/1 outflow column has to sit strictly between 0 and 1. Any value in that open range leaves a stored 0 off and a stored 1 on, so the threshold is not a search and do not pick or recommend a specific number inside the range. The sleeve's 2.25 is not the gate's threshold. A threshold of 2.25 would leave the gate off every day, because a 1 is never above 2.25.";
   "SOPR and MVRV z-score stay a from-July-2025 check only."].

(** [_eq(v[key], expected, label)] for each row, and the same with [v.get(key)] *)
Fixpoint items_are (v : pyval) (rows : list (string * pyval * string)) : res exn unit :=
  match rows with
  | [] => mret tt
  | (key, expected, label) :: rows' => x ← getitem key v; _ ← eq_check x expected label; items_are v rows'
  end.
Fixpoint gets_are (v : pyval) (rows : list (string * pyval * string)) : res exn unit :=
  match rows with
  | [] => mret tt
  | (key, expected, label) :: rows' => x ← get key v; _ ← eq_check x expected label; gets_are v rows'
  end.
(** [_eq(v[outer][key], expected, label)] *)
Definition inner_is (v : pyval) (outer key : string) (expected : pyval) (label : string) : res exn unit :=
  x ← getitem outer v; items_are x [(key, expected, label)].

Definition dict_or (v : pyval) (msg : string) : res exn unit :=
  match v with VDict _ => mret tt | _ => Raise (TypeError msg) end.

(** [_check_named_child] *)
Definition check_named_child (child : pyval) : res exn unit :=
  _ ← dict_or child "the named child is missing";
  _ ← gets_are child [("named_before_result", VBool true, "child named before a result");
                      ("raw_metric_path", VStr "transactions/transfers_volume_exchanges_net_pit", "child raw path")];
  saved ← get "saved_copy" child;
  _ ← dict_or saved "saved copy counts are missing";
  _ ← gets_are saved [("from", VStr "2019-12-11", "saved copy start"); ("through", VStr "2026-10-01", "saved copy end");
                      ("days", VInt 2487, "saved copy days"); ("nulls", VInt 0, "saved copy nulls");
                      ("exact_zeros", VBool false, "saved copy exact zeros");
                      ("smallest_absolute_value", VStr "about 2.56", "smallest absolute value")];
  window ← get "window" child;
  _ ← dict_or window "child window counts are missing";
  _ ← gets_are window [("from", VStr "2021-07-01", "child window start"); ("to", VStr "2024-06-30", "child window end");
                       ("days", VInt 1096, "child window days"); ("exact_zeros", VBool false, "child window exact zeros")];
  gets_are child [("below_zero", VInt 1, "below zero"); ("otherwise", VInt 0, "otherwise");
                  ("store_zero", VBool true, "store zero"); ("drop_zero_days", VBool false, "drop zero days");
                  ("days_at_0", VInt 702, "days at 0"); ("days_at_1", VInt 1785, "days at 1");
                  ("factor_one", VStr "0/1 column", "factor one"); ("factor_two", VStr "BTC 60/2.25", "factor two");
                  ("gate_indicator", VStr "SMA", "gate indicator"); ("gate_window", VInt 1, "gate window");
                  ("signal_threshold_open_range", VStr "(0, 1)", "signal threshold range");
                  ("signal_threshold_is_a_search", VBool false, "signal threshold search")].

(** the three series of a contract *)
Definition check_series (netflow pit_indicators bnb : pyval) : res exn unit :=
  _ ← items_are netflow [("metric_path", VStr "transactions/transfers_volume_exchanges_net_pit", "netflow path")];
  assets ← getitem "assets" netflow;
  btc ← getitem "BTC" assets;
  eth ← getitem "ETH" assets;
  bnb_asset ← getitem "BNB" assets;
  _ ← items_are btc [("starts", VStr "2019-12-11", "BTC netflow start");
                     ("covers_2021_to_mid_2024", VBool true, "BTC netflow window")];
  _ ← items_are eth [("starts", VStr "2022-02-15", "ETH netflow start");
                     ("covers_2021_to_mid_2024", VBool false, "ETH netflow window")];
  _ ← items_are bnb_asset [("valid_asset", VBool false, "BNB on netflow")];
  _ ← items_are pit_indicators
        [("starts", VStr "2025-06-27", "SOPR and MVRV z-score PIT start");
         ("check", VStr "from July 2025 only", "SOPR and MVRV z-score check");
         ("metrics", VList [VStr "indicators/sopr_pit"; VStr "market/mvrv_z_score_pit"], "PIT indicator paths")];
  _ ← inner_is pit_indicators "restated" "full_window_sharpe" (VStr "look-ahead") "restated Sharpe";
  _ ← inner_is pit_indicators "restated" "metrics" (VList [VStr "indicators/sopr"; VStr "market/mvrv_z_score"])
        "restated indicator paths";
  _ ← inner_is bnb "restated" "starts" (VStr "2020-08-29") "BNB restated start";
  _ ← inner_is bnb "restated" "backtestable_2021_to_mid_2024" (VBool false) "BNB restated window";
  _ ← inner_is bnb "pit" "starts" (VStr "2025-06-23") "BNB PIT start";
  _ ← inner_is bnb "pit" "covers_2021_to_mid_2024" (VBool false) "BNB PIT window";
  _ ← inner_is bnb "restated" "metric_path" (VStr "distribution/exchange_net_position_change") "BNB restated path";
  inner_is bnb "pit" "metric_path" (VStr "distribution/exchange_net_position_change_pit") "BNB PIT path".

(** [tuple(doc.get("rule") or ()) == SLEEVE_FACTOR_RULE] *)
Definition is_rule (rule : list pyval) : bool := py_eq (VList rule) (VList (map VStr SLEEVE_FACTOR_RULE)).

(** [_check_sleeve_factors], of a contract that was read *)
Definition sleeve_checks (doc : pyval) : res exn string :=
  r ← get "rule" doc;
  rule ← tuple_of (or_else r (VList []));
  _ ← require (is_rule rule) "sleeve factor note does not match the chosen rule";
  series ← get "series" doc;
  match series with
  | VList [netflow; pit_indicators; bnb] =>
      covers ← map_res (get "covers_2021_to_mid_2024") [netflow; pit_indicators; bnb];
      _ ← map_res hashable covers;
      _ ← require (negb match covers with [a; b; c] => py_eq a b && py_eq b c | _ => true end)
            "the three series must not be equally backtestable";
      _ ← require (py_eq (VList covers) (VList [VBool true; VBool false; VBool false]))
            "only point-in-time BTC exchange netflow covers 2021 to mid-2024";
      _ ← check_series netflow pit_indicators bnb;
      child ← get "child" doc;
      _ ← check_named_child child;
      mret "BTC netflow PIT covers 2021 to mid-2024; the child is the stored 0/1 column"
  | _ => Raise (AssertionError "expected three series, each with its own window")
  end.

(** ** The run *)

(** Directories: whether a path exists or is a directory, and the names of the
    directories in one, in the order the file system lists them. *)
Class Tree (W : Type) := {
  exists_at : string → prog W exn bool;
  is_dir : string → prog W exn bool;
  subdirs : string → prog W exn (list string)
}.

Section run.
Context {W : Type} `{SavedFiles W} `{Tree W} `{DecodeTexts}.
(** [float(literal)], the order of a printed set, [type(exc).__name__] *)
Context (float_of_literal : string → float) (set_order : list Z → list Z) (exn_name : exn → string).
(** [hashlib.sha256(body).hexdigest()] *)
Context (sha256 : string → string).

(** [root / relative]: an absolute path replaces the root *)
Definition join_path (root : string) (relative : pyval) : res exn string :=
  match relative with
  | VStr s => mret (if String.prefix "/" s then s else path_of root s)
  | v => Raise (TypeError ("unsupported operand type(s) for /: 'PosixPath' and '" +:+ type_name v +:+ "'"))
  end.

(** [_require_path] *)
Definition require_path (root : string) (relative : pyval) : prog W exn string :=
  path ← lift_res (join_path root relative);
  found ← exists_at path;
  if (found : bool) then mret path else raise (plain COSError path).

(** [_load_json] *)
Definition load_json_object (path : string) : prog W exn pyval :=
  file ← read_file path;
  match file with
  | None => raise (plain COSError path)
  | Some _ =>
      text ← read_text path;
      doc ← lift_res (load_json float_of_literal text);
      match doc with VDict _ => mret doc | _ => raise (TypeError (path +:+ " must be a JSON object")) end
  end.

(** [_load_json(_require_path(root, case[key]))], and a saved copy *)
Definition contract_of (root : string) (case : pyval) : prog W exn pyval :=
  c ← lift_res (getitem "contract" case); path ← require_path root c; load_json_object path.
Definition copy_at (root key : string) (case : pyval) : prog W exn SavedCopy :=
  c ← lift_res (getitem key case); path ← require_path root c; load_saved_copy float_of_literal path.

(** [_check_response] *)
Definition check_response (root : string) (case : pyval) : prog W exn string :=
  copy ← copy_at root "path" case;
  lift_res (expect ← getitem "expect" case; response_checks set_order copy expect).

(** [_check_pagination] *)
Definition check_pagination (root : string) (case : pyval) : prog W exn string :=
  doc ← contract_of root case;
  _ ← lift_res (v ← get "client_paginates" doc; require (is_false v) "client_paginates must be false");
  _ ← lift_res (v ← get "cursor" doc; require (py_eq v VNone) "cursor must be null");
  _ ← lift_res (v ← get "observed_body_shape" doc;
                require (is_str "json_list" v) "observed_body_shape must be json_list");
  sample ← copy_at root "sample" case;
  _ ← lift_res (require (pr_is_json_array (sc_parsed sample)) "sample body is not a single JSON list");
  _ ← lift_res (require (negb (nonempty_list (pr_object_keys (sc_parsed sample)))) "sample body carries a page object");
  mret "single JSON list, no cursor, client issues one GET".

(** one case of the loop of [_check_rate_limit]; whether its limit was checked *)
Definition limit_checked (root : string) (item : pyval) : prog W exn bool :=
  type ← lift_res (get "type" item);
  if negb (is_str "response" type) then mret false
  else
    named ← lift_res (expect ← get_or "expect" (VDict []) item; py_in "rate_limit_limit" expect);
    if negb named then mret false
    else
      copy ← copy_at root "path" item;
      _ ← lift_res (id ← getitem "id" item; eq_check (opt_str (copy_limit copy)) (VStr "600") (str_val id));
      mret true.

(** [root / "manifest.json"] and its cases *)
Definition manifest_cases (root : string) : prog W exn (list pyval) :=
  manifest ← load_json_object (path_of root "manifest.json");
  lift_res (cases ← getitem "cases" manifest; tuple_of cases).

Definition count_true (bs : list bool) : Z := Z.of_nat (length (List.filter id bs)).

(** [_check_rate_limit] *)
Definition check_rate_limit (root : string) (case : pyval) : prog W exn string :=
  doc ← contract_of root case;
  _ ← lift_res (window ← getitem "short_window" doc; limit ← getitem "limit" window;
                require (is_str "600" limit) "short-window limit must be 600");
  _ ← lift_res (v ← get "exhausted_body_saved" doc;
                require (is_false v) "a 429 body was not captured; exhausted_body_saved must be false");
  monthly ← lift_res (getitem "monthly_cap" doc);
  _ ← lift_res (v ← get "calls" monthly;
                require (py_eq v (VInt 160000)) "monthly cap must stay the operator figure 160000");
  _ ← lift_res (v ← get "in_response_headers" monthly;
                require (is_false v) "the monthly cap is not a response header");
  cases ← manifest_cases root;
  done ← for_each (limit_checked root) cases;
  let checked := count_true done in
  _ ← lift_res (require (1 <=? checked) "no successful response carries x-rate-limit-limit");
  mret ("limit 600 on " +:+ str_Z checked +:+ " responses; remaining and reset are described, not stored as absolutes").

(** [_check_sleeve_factors] *)
Definition check_sleeve_factors (root : string) (case : pyval) : prog W exn string :=
  doc ← contract_of root case; lift_res (sleeve_checks doc).

(** one case of the loop of [_check_interval]; whether it is a 24h series *)
Definition series_case (item : pyval) : res exn bool :=
  e ← get "expect" item;
  let expect := or_else e (VDict []) in
  type ← get "type" item;
  if negb (is_str "response" type) then mret false
  else
    counted ← py_in "point_count" expect;
    if negb counted then mret false
    else
      count ← get_or "point_count" (VInt 0) expect;
      if py_eq count (VInt 0) then mret false
      else
        interval ← get "interval" expect;
        if is_str "24h" interval then mret true
        else id ← getitem "id" item; Raise (AssertionError (str_val id +:+ " is not 24h")).

(** [_check_interval] *)
Definition check_interval (root : string) (case : pyval) : prog W exn string :=
  doc ← contract_of root case;
  _ ← lift_res (v ← get "captured_interval" doc; require (is_str "24h" v) "only the 24h interval was captured");
  _ ← lift_res (v ← get "sub_daily_body_saved" doc; require (is_false v) "no sub-daily body was saved");
  cases ← manifest_cases root;
  seen ← lift_res (map_res series_case cases);
  let series := count_true seen in
  _ ← lift_res (require (1 <=? series) "no 24h series cases");
  mret (str_Z series +:+ " series cases are 24h; no other interval body is in the corpus").

(** [_run_case] *)
Definition run_case (root : string) (case : pyval) : prog W exn string :=
  kind ← lift_res (get "type" case);
  if is_str "response" kind then check_response root case
  else if is_str "pagination" kind then check_pagination root case
  else if is_str "rate_limit" kind then check_rate_limit root case
  else if is_str "interval" kind then check_interval root case
  else if is_str "sleeve_factors" kind then check_sleeve_factors root case
  else raise (ValueError ("unknown case type " +:+ repr_val kind)).

(** [except (AssertionError, OSError, ValueError, KeyError, TypeError)], which makes
    the step a failure *)
Definition caught (e : exn) : bool :=
  existsb (isinstance e) [CAssertionError; COSError; CValueError; CKeyError; CTypeError].
Definition failing_step (step : string) (m : prog W exn StepResult) : prog W exn StepResult :=
  catch m (λ e, if caught e then mret (mkStep step FAIL (exn_name e +:+ ": " +:+ exn_msg e)) else raise e).

(** one case of the loop of [run_suite] *)
Definition case_step (root : string) (case : pyval) : prog W exn StepResult :=
  id ← lift_res (get_or "id" (VStr "?") case);
  failing_step (str_val id) (detail ← run_case root case; mret (mkStep (str_val id) PASS detail)).

(** [run_suite] *)
Definition run_suite (root : string) : prog W exn SuiteReport :=
  let manifest_path := path_of root "manifest.json" in
  second ← exists_at (path_of root "later");
  if (second : bool) then
    mret [mkStep "revision" FAIL (path_of root "later" +:+ " is present. The corpus must not contain an invented " +:+
                                  "second copy. Compare external directories with --compare.")]
  else
    file ← read_file manifest_path;
    match file with
    | None => mret [mkStep "manifest" FAIL ("missing " +:+ manifest_path)]
    | Some _ =>
        text ← read_text manifest_path;
        match load_json float_of_literal text with
        | Raise e => mret [mkStep "manifest" FAIL ("manifest is not JSON: " +:+ exn_msg e)]
        | Ok manifest =>
            cases ← lift_res (get "cases" manifest);
            match cases with
            | VList ((_ :: _) as cases) =>
                steps ← for_each (case_step root) cases;
                mret (steps ++ [mkStep "revision" PASS
                  "one copy of each response case; no later copy in the fixture root; no Glassnode revision is recorded here"])%list
            | _ => mret [mkStep "manifest" FAIL "manifest has no cases"]
            end
        end
    end.

(** one directory of the loop of [compare_saved_dirs] *)
Definition compare_step (earlier_dir later_dir name : string) : prog W exn StepResult :=
  there ← is_dir (path_of later_dir name);
  if negb there then mret (mkStep name FAIL ("missing " +:+ path_of later_dir name))
  else
    failing_step name
      (earlier ← load_saved_copy float_of_literal (path_of earlier_dir name);
       later ← load_saved_copy float_of_literal (path_of later_dir name);
       let diff := compare_copies sha256 earlier later in
       mret (mkStep name (if compare_failed diff then FAIL else PASS) (format_revision diff))).

(** [compare_saved_dirs] *)
Definition compare_saved_dirs (earlier_dir later_dir : string) : prog W exn SuiteReport :=
  a ← is_dir earlier_dir;
  if negb a then mret [mkStep "earlier" FAIL ("missing directory " +:+ earlier_dir)]
  else
    b ← is_dir later_dir;
    if negb b then mret [mkStep "later" FAIL ("missing directory " +:+ later_dir)]
    else
      listed ← subdirs earlier_dir;
      match sorted_by String.leb listed with
      | [] => mret [mkStep "earlier" FAIL ("no copy directories in " +:+ earlier_dir)]
      | names => for_each (compare_step earlier_dir later_dir) names
      end.

(** [main], after its arguments are parsed: the reports and the exit status *)
Definition harness_main (suite : bool) (fixture_root : string) (compare : option (string * string))
    : prog W exn (list (string * SuiteReport) * Z) :=
  if negb suite && negb (bool_decide (is_Some compare)) then raise (SystemExit "2")
  else
    a ← (if suite then r ← run_suite fixture_root; mret [("suite", r)] else mret []);
    b ← match compare with
        | Some (e, l) => r ← compare_saved_dirs e l; mret [("compare", r)]
        | None => mret []
        end;
    let reports := (a ++ b)%list in
    mret (reports, if existsb (λ r, suite_failed r.2) reports then 1 else 0).
End run.

(** ** What a comparison accepts *)

Lemma nonempty_false {A} (l : list A) : nonempty_list l = false ↔ l = [].
Proof. by destruct l. Qed.

Lemma request_mismatch_None a b : request_mismatch a b = None ↔ a = b.
Proof.
  split.
  - unfold request_mismatch. destruct a as [a1 a2 a3 a4 a5], b as [b1 b2 b3 b4 b5]. cbn [rid_metric_path rid_asset rid_interval rid_since rid_until].
    destruct (String.eqb_spec a1 b1), (String.eqb_spec a2 b2), (String.eqb_spec a3 b3), (Z.eqb_spec a4 b4), (Z.eqb_spec a5 b5);
      try discriminate; congruence.
  - intros ->. unfold request_mismatch. by rewrite !String.eqb_refl, !Z.eqb_refl.
Qed.

Lemma request_mismatch_text a b m : request_mismatch a b = Some m → ∃ c s, m = String c s.
Proof. unfold request_mismatch. case_match; intros [= <-]. by eexists _, _. Qed.

(** What a comparison looks at: the points as a set of pairs without a repeated
    time, and each header other than the content type and the limits. *)
Definition same_points (P Q : option (list Point)) : Prop :=
  match P, Q with
  | Some P, Some Q => P ≡ₚ Q ∧ NoDup (map pt_t P)
  | None, None => True
  | Some P, None | None, Some P => P = []
  end.

Definition same_copy (a b : SavedCopy) : Prop :=
  sc_request a = sc_request b ∧
  pr_status (sc_parsed a) = pr_status (sc_parsed b) ∧
  pr_content_type (sc_parsed a) = pr_content_type (sc_parsed b) ∧
  pr_error_text (sc_parsed a) = pr_error_text (sc_parsed b) ∧
  same_points (pr_points (sc_parsed a)) (pr_points (sc_parsed b)) ∧
  ∀ n, n ∉ "content-type" :: QUOTA_HEADERS ++ TRANSPORT_HEADERS →
    dict_get n (pr_headers (sc_parsed a)) = dict_get n (pr_headers (sc_parsed b)).

(** A missing list of points counts as an empty one. *)
Lemma value_revision_points sha a b : sc_request a = sc_request b →
  value_revision (compare_copies sha a b) = false ↔
  same_points (pr_points (sc_parsed a)) (pr_points (sc_parsed b)) ∧ pr_error_text (sc_parsed a) = pr_error_text (sc_parsed b).
Proof.
  intros Hr. set (some c := mkCopy (sc_request c)
    (mkParsed (pr_status (sc_parsed c)) (pr_content_type (sc_parsed c)) (pr_headers (sc_parsed c)) (pr_body (sc_parsed c))
       (Some (default [] (pr_points (sc_parsed c)))) (pr_error_text (sc_parsed c)) (pr_is_json_array (sc_parsed c))
       (pr_object_keys (sc_parsed c)) (pr_unexpected (sc_parsed c))) (sc_captured_at c) (sc_directory c)).
  assert (compare_copies sha a b = compare_copies sha (some a) (some b)) as -> by reflexivity.
  rewrite (no_revision_points sha (some a) (some b) _ _ (proj2 (request_mismatch_None _ _) Hr) eq_refl eq_refl).
  cbn [some sc_parsed pr_error_text].
  destruct (pr_points (sc_parsed a)) as [P|], (pr_points (sc_parsed b)) as [Q|]; cbn [default same_points]; unfold id.
  - tauto.
  - split; [|intros [-> ?]; split_and!; [done|constructor|done]]. intros (Hp & _ & ?). by apply Permutation_nil_r in Hp as ->.
  - split; [|intros [-> ?]; split_and!; [done|constructor|done]]. intros (Hp & _ & ?). by apply Permutation_nil_l in Hp as ->.
  - split; [tauto|]. intros [_ ?]. split_and!; [done|constructor|done].
Qed.

Lemma compare_fields sha a b :
  let r := compare_copies sha a b in
  rr_mismatch r = request_mismatch (sc_request a) (sc_request b) ∧
  rr_status_earlier r = pr_status (sc_parsed a) ∧ rr_status_later r = pr_status (sc_parsed b) ∧
  rr_type_earlier r = pr_content_type (sc_parsed a) ∧ rr_type_later r = pr_content_type (sc_parsed b) ∧
  rr_other r = (header_diffs (pr_headers (sc_parsed a)) (pr_headers (sc_parsed b))).2.
Proof.
  unfold compare_copies. destruct (request_mismatch _ _); [done|].
  destruct (index_points (pr_points (sc_parsed a))). by destruct (index_points (pr_points (sc_parsed b))).
Qed.

Lemma other_headers_agree a b : (header_diffs a b).2 = [] ↔
  ∀ n, n ∉ "content-type" :: QUOTA_HEADERS ++ TRANSPORT_HEADERS → dict_get n a = dict_get n b.
Proof.
  pose proof (header_diffs_exact a b) as H. destruct (header_diffs a b) as [[quota transport] other]. cbn [snd].
  destruct H as (Hall & Hq & Ht & Ho). split.
  - intros ->. intros n Hn. destruct (decide (dict_get n a = dict_get n b)) as [|Hne]; [done|exfalso].
    rewrite not_elem_of_cons, not_elem_of_app in Hn. destruct Hn as (Hc & Hnq & Hnt).
    assert ((n, dict_get n a, dict_get n b) ∈ (quota ++ transport ++ [])%list) as Hin by (by apply Hall).
    rewrite app_nil_r, elem_of_app in Hin. destruct Hin as [Hin|Hin]; [by apply Hq in Hin|by apply Ht in Hin].
  - intros Hag. apply elem_of_nil_inv. intros [[n ev] lv] Hin. destruct (Ho _ Hin) as [Hnq Hnt]. cbn [fst] in Hnq, Hnt.
    assert ((n, ev, lv) ∈ (quota ++ transport ++ other)%list) as Hd by (rewrite !elem_of_app; tauto).
    apply Hall in Hd as (Hc & -> & -> & Hne). apply Hne, Hag. by rewrite not_elem_of_cons, not_elem_of_app.
Qed.

(** A comparison passes just the copies that answer one request alike: the same
    status, content type, error text, points and headers but for the limits. *)
Lemma compare_passes sha a b : compare_failed (compare_copies sha a b) = false ↔ same_copy a b.
Proof.
  destruct (compare_fields sha a b) as (Hm & H1 & H2 & H3 & H4 & H5). cbv zeta in *. unfold compare_failed, same_copy. rewrite Hm.
  destruct (request_mismatch _ _) as [m|] eqn:Er.
  - destruct (request_mismatch_text _ _ _ Er) as (c & s & ->). split; [done|]. intros [Hr%request_mismatch_None _]. congruence.
  - apply request_mismatch_None in Er. rewrite !orb_false_iff, nonempty_false, H5, (value_revision_points sha a b Er), other_headers_agree.
    unfold status_changed, content_type_changed. rewrite H1, H2, H3, H4, !negb_false_iff, Z.eqb_eq, bool_decide_eq_true. tauto.
Qed.

(** A copy compared with itself fails when it repeats a timestamp, and what is
    printed is that there is no difference. *)
Theorem duplicate_fails_against_itself sha c P : pr_points (sc_parsed c) = Some P →
  (compare_failed (compare_copies sha c c) = true ↔ ¬ NoDup (map pt_t P)) ∧
  format_revision (compare_copies sha c c) = no_difference.
Proof.
  intros HP. split.
  - rewrite <-not_false_iff_true, compare_passes. unfold same_copy. rewrite HP. cbn [same_points]. split.
    + intros Hn Hd. apply Hn. by split_and!.
    + intros Hn (_ & _ & _ & _ & [_ ?] & _). done.
  - destruct (compare_fields sha c c) as (Hm & H1 & H2 & H3 & H4 & _).
    assert (request_mismatch (sc_request c) (sc_request c) = None) as Er by by apply request_mismatch_None.
    pose proof (changes_exact_aux sha c c Er) as (Xc & Xe & Xl). cbv zeta in *.
    destruct (compare_same sha c c Er) as (_ & _ & _ & _ & _ & _ & He & Hl). cbv zeta in *.
    assert (rr_changes (compare_copies sha c c) = []) as E1.
    { apply elem_of_nil_inv. intros [t x y] (Hx & Hy & Hne)%Xc. congruence. }
    assert (rr_only_earlier (compare_copies sha c c) = []) as E2.
    { apply elem_of_nil_inv. intros t ([x Hx] & Hn)%Xe. congruence. }
    assert (rr_only_later (compare_copies sha c c) = []) as E3.
    { apply elem_of_nil_inv. intros t ([x Hx] & Hn)%Xl. congruence. }
    assert (∀ hs, header_diffs hs hs = ([], [], [])) as Hh.
    { intros hs. unfold header_diffs. assert (header_rows hs hs = []) as -> ; [|done]. unfold header_rows.
      induction (header_names hs hs) as [|n ns IH]; [done|]. cbn [omap list_omap]. by rewrite bool_decide_true by done. }
    unfold format_revision. rewrite Hm, Er. unfold revision_parts, status_changed, content_type_changed.
    rewrite E1, E2, E3, H1, H2, H3, H4, He, Hl, Z.eqb_refl, !bool_decide_true by done.
    unfold compare_copies. rewrite Er, !Hh. destruct (index_points (pr_points (sc_parsed c))). cbn. by rewrite String.eqb_refl.
Qed.

(** ** The exit status *)

Section exit_status.
Context {W : Type} `{SavedFiles W} `{Tree W} `{DecodeTexts}.
Context (float_of_literal : string → float) (set_order : list Z → list Z) (exn_name : exn → string) (sha256 : string → string).
(** a file system that reading does not change *)
Context (w : W) (Hread : ∀ p, preserves (λ w', w' = w) (read_file p)).
Context (Hdir : ∀ p, preserves (λ w', w' = w) (is_dir p)) (Hlist : ∀ p, preserves (λ w', w' = w) (subdirs p)).

Lemma missing_files_still d names : preserves (λ w', w' = w) (missing_files d names).
Proof. induction names as [|n names IH]; cbn [missing_files]; auto with preserves. Qed.

Lemma read_text_still p : preserves (λ w', w' = w) (read_text p).
Proof. unfold read_text, read_existing. apply preserves_bind; [apply preserves_bind; [apply Hread|intros []]|]; auto with preserves. Qed.

Lemma load_still d : preserves (λ w', w' = w) (load_saved_copy float_of_literal d).
Proof.
  unfold load_saved_copy. apply preserves_bind; [apply missing_files_still|]. intros [|m ms]; [|apply preserves_raise].
  apply preserves_bind; [apply read_text_still|intros request_text]. apply preserves_bind; [apply preserves_lift|intros request_doc].
  apply preserves_bind; [apply read_text_still|intros meta_text]. apply preserves_bind; [apply preserves_lift|intros meta].
  apply preserves_bind; [unfold read_existing; apply preserves_bind; [apply Hread|intros []; auto with preserves]|intros body].
  repeat (apply preserves_bind; [apply preserves_lift|intros ?]). apply preserves_ret.
Qed.

Lemma still_run {A} (m : prog W exn A) : preserves (λ w', w' = w) m → ∃ r, m w = (r, w).
Proof. intros Hm. specialize (Hm w eq_refl). destruct (m w) as [r w']. cbn in Hm. subst. by exists r. Qed.

(** One pair of directories: both are there, both load, and the copies agree. *)
Definition accepted (e l n : string) : Prop :=
  is_dir (path_of l n) w = (Ok true, w) ∧
  ∃ a b, load_saved_copy float_of_literal (path_of e n) w = (Ok a, w) ∧
         load_saved_copy float_of_literal (path_of l n) w = (Ok b, w) ∧ same_copy a b.

Lemma step_passes e l n :
  (∃ s, compare_step float_of_literal exn_name sha256 e l n w = (Ok s, w) ∧ is_fail s = false) ↔ accepted e l n.
Proof.
  unfold accepted, compare_step. destruct (still_run _ (Hdir (path_of l n))) as [[there|x] Ht]; rewrite ?(bind_ok _ _ _ _ _ Ht), ?(bind_raise _ _ _ _ _ Ht), Ht.
  2:{ split; [intros (s & [=] & _)|intros ([=] & _)]. }
  destruct there; cbn [negb]; [|split; [intros (s & [= <-] & [=])|intros ([=] & _)]].
  unfold failing_step, catch.
  destruct (still_run _ (load_still (path_of e n))) as [[a|x] Ha]; rewrite ?(bind_ok _ _ _ _ _ Ha), ?(bind_raise _ _ _ _ _ Ha), Ha.
  2:{ split; [|intros (_ & ? & ? & [=] & _)]. destruct (caught x); intros (s & [= <-] & [=]). }
  destruct (still_run _ (load_still (path_of l n))) as [[b|x] Hb]; rewrite ?(bind_ok _ _ _ _ _ Hb), ?(bind_raise _ _ _ _ _ Hb), Hb.
  2:{ split; [|intros (_ & ? & ? & _ & [=] & _)]. destruct (caught x); intros (s & [= <-] & [=]). }
  cbn. pose proof (compare_passes sha256 a b) as Hp. split.
  - intros (s & [= <-] & Hs). split; [done|]. exists a, b. split_and!; [done..|]. apply Hp. by destruct (compare_failed _).
  - intros (_ & ? & ? & [= <-] & [= <-] & Hs%Hp). rewrite Hs. by eexists.
Qed.

Lemma step_still e l n : preserves (λ w', w' = w) (compare_step float_of_literal exn_name sha256 e l n).
Proof.
  unfold compare_step, failing_step. apply preserves_bind; [apply Hdir|intros there]. apply preserves_if; [apply preserves_ret|].
  apply preserves_catch; [|intros x; destruct (caught x); auto with preserves].
  apply preserves_bind; [apply load_still|intros a]. apply preserves_bind; [apply load_still|intros b]. apply preserves_ret.
Qed.

Lemma steps_pass e l names :
  (∃ r, for_each (compare_step float_of_literal exn_name sha256 e l) names w = (Ok r, w) ∧ suite_failed r = false) ↔
  Forall (accepted e l) names.
Proof.
  induction names as [|n names IH]; [split; [constructor|by exists []]|]. rewrite Forall_cons, <-IH, <-step_passes. cbn [for_each].
  destruct (still_run _ (step_still e l n)) as [[s|x] Hs]; rewrite ?(bind_ok _ _ _ _ _ Hs), ?(bind_raise _ _ _ _ _ Hs), Hs.
  2:{ split; [intros (r & [=] & _)|intros [(s & [=] & _) _]]. }
  destruct (still_run _ (preserves_for_each (λ w', w' = w) (compare_step float_of_literal exn_name sha256 e l) names (step_still e l))) as [[r|x] Hr];
    rewrite ?(bind_ok _ _ _ _ _ Hr), ?(bind_raise _ _ _ _ _ Hr), Hr.
  2:{ split; [intros (r & [=] & _)|intros [_ (r & [=] & _)]]. }
  cbn. split.
  - intros (r' & [= <-] & [Hf Hg]%orb_false_iff). split; [by exists s|by exists r].
  - intros [(s' & [= <-] & Hf) (r' & [= <-] & Hg)]. eexists. split; [done|]. cbn. by rewrite Hf.
Qed.

Lemma dirs_pass e l :
  (∃ r, compare_saved_dirs float_of_literal exn_name sha256 e l w = (Ok r, w) ∧ suite_failed r = false) ↔
  is_dir e w = (Ok true, w) ∧ is_dir l w = (Ok true, w) ∧
  ∃ names, subdirs e w = (Ok names, w) ∧ names ≠ [] ∧ Forall (accepted e l) names.
Proof.
  unfold compare_saved_dirs.
  destruct (still_run _ (Hdir e)) as [[a|x] Ha]; rewrite ?(bind_ok _ _ _ _ _ Ha), ?(bind_raise _ _ _ _ _ Ha), Ha.
  2:{ split; [intros (r & [=] & _)|intros ([=] & _)]. }
  destruct a; cbn [negb]; [|split; [intros (r & [= <-] & [=])|intros ([=] & _)]].
  destruct (still_run _ (Hdir l)) as [[b|x] Hb]; rewrite ?(bind_ok _ _ _ _ _ Hb), ?(bind_raise _ _ _ _ _ Hb), Hb.
  2:{ split; [intros (r & [=] & _)|intros (_ & [=] & _)]. }
  destruct b; cbn [negb]; [|split; [intros (r & [= <-] & [=])|intros (_ & [=] & _)]].
  destruct (still_run _ (Hlist e)) as [[names|x] Hn]; rewrite ?(bind_ok _ _ _ _ _ Hn), ?(bind_raise _ _ _ _ _ Hn), Hn.
  2:{ split; [intros (r & [=] & _)|intros (_ & _ & names & [=] & _)]. }
  pose proof (sorted_by_perm String.leb names) as Hp. destruct (sorted_by String.leb names) as [|n ns] eqn:Es.
  - apply Permutation_nil_l in Hp as ->. split; [intros (r & [= <-] & [=])|intros (_ & _ & ? & [= <-] & [] & _); done].
  - rewrite steps_pass, Hp. split.
    + intros Hall. split_and!; [done..|]. exists names. split_and!; [done| |done]. intros ->. by apply Permutation_nil_r in Hp.
    + by intros (_ & _ & ? & [= <-] & _ & Hall).
Qed.

(** C25. The comparison exits with 0 exactly when both directories are there, the
    earlier one holds copies, and each has its counterpart, loads on both sides and
    answers the same request with the same status, content type, error text, points
    and headers, limits aside, no time being repeated among the points; so a copy
    that repeats one fails even against itself. *)
Theorem compare_exits_0 root e l :
  (∃ reports, harness_main float_of_literal set_order exn_name sha256 false root (Some (e, l)) w = (Ok (reports, 0), w)) ↔
  is_dir e w = (Ok true, w) ∧ is_dir l w = (Ok true, w) ∧
  ∃ names, subdirs e w = (Ok names, w) ∧ names ≠ [] ∧
    ∀ n, n ∈ names → is_dir (path_of l n) w = (Ok true, w) ∧
      ∃ a b, load_saved_copy float_of_literal (path_of e n) w = (Ok a, w) ∧
             load_saved_copy float_of_literal (path_of l n) w = (Ok b, w) ∧ same_copy a b.
Proof.
  pose proof (dirs_pass e l) as Hd. unfold accepted in Hd. setoid_rewrite Forall_forall in Hd. rewrite <-Hd. clear Hd.
  unfold harness_main. cbn [negb andb]. rewrite bool_decide_true by done. cbn [negb andb]. unfold mbind, prog_bind, mret, prog_ret.
  destruct (compare_saved_dirs _ _ _ e l w) as [[r|x] w1]; cbn [app existsb snd]; [|split; [intros (? & [=])|intros (? & [=] & _)]].
  rewrite orb_false_r. split.
  - intros (reports & [= <- Hf <-]). exists r. split; [done|]. by destruct (suite_failed r).
  - intros (r' & [= <- ->] & Hf). exists [("compare", r)]. by rewrite Hf.
Qed.
End exit_status.

(** ** What a suite accounts for *)

(** A case that expects the first time of a series whose copy is empty does not fail:
    the index error is none of the exceptions the loop makes a failure of, so it ends
    the whole suite. *)
Theorem empty_series_ends_suite set_order expect : py_in "first_t" expect = Ok true →
  ∃ x, check_points set_order [] expect = Raise x ∧ caught x = false.
Proof. intros Hin. unfold check_points. rewrite Hin. cbn. by eexists. Qed.

Lemma empty_series_ends_suite_witness :
  ∃ x, check_points id [] (VDict [("point_count", VInt 0); ("first_t", VInt 0)]) = Raise x ∧ caught x = false.
Proof. by apply (empty_series_ends_suite id). Defined.

Section suite.
Context {W : Type} `{SavedFiles W} `{Tree W} `{DecodeTexts}.
Context (float_of_literal : string → float) (set_order : list Z → list Z) (exn_name : exn → string).

(** the id a step of a case has *)
Definition case_id (case : pyval) : option string :=
  match get_or "id" (VStr "?") case with Ok v => Some (str_val v) | Raise _ => None end.

Lemma case_step_id root case w s w' : case_step float_of_literal set_order exn_name root case w = (Ok s, w') →
  case_id case = Some (st_step s).
Proof.
  unfold case_id, case_step, failing_step, catch, lift_res, mbind, prog_bind. destruct (get_or _ _ case) as [id|x]; [|done].
  destruct (run_case _ _ root case w) as [[d|x] w1]; [by intros [= <- _]|].
  destruct (caught x); [by intros [= <- _]|done].
Qed.

Lemma case_steps_ids root cases w steps w' :
  for_each (case_step float_of_literal set_order exn_name root) cases w = (Ok steps, w') →
  map case_id cases =
  map (Some ∘ st_step) steps.
Proof.
  revert w steps w'. induction cases as [|c cases IH]; intros w steps w'; cbn [for_each]; [by intros [= <- _]|].
  unfold mbind, prog_bind, mret, prog_ret. destruct (case_step _ _ _ root c w) as [[s|x] w1] eqn:Hs; [|done].
  destruct (for_each _ cases w1) as [[ss|x] w2] eqn:Hss; [|done]. intros [= <- _]. cbn [map].
  by rewrite (case_step_id _ _ _ _ _ Hs), (IH _ _ _ Hss).
Qed.

(** A suite that ends fails, or has answered every case of its manifest in order: one
    step each under the id of the case, and the note that there is one copy. *)
Theorem suite_accounts root w r w' : run_suite float_of_literal set_order exn_name root w = (Ok r, w') →
  suite_failed r = true ∨
  ∃ text cases, load_json float_of_literal text = Ok cases ∧ ∃ c cs, get "cases" cases = Ok (VList (c :: cs)) ∧
    (map case_id (c :: cs) ++ [Some "revision"])%list = map (Some ∘ st_step) r.
Proof.
  unfold run_suite, mbind, prog_bind, mret, prog_ret, lift_res.
  destruct (exists_at _ w) as [[[]|x] w1]; [intros [= <- _]; by left| |done].
  destruct (read_file _ w1) as [[[t|]|x] w2]; [|intros [= <- _]; by left|done].
  destruct (read_text _ w2) as [[text|x] w3]; [|done].
  destruct (load_json float_of_literal text) as [doc|x] eqn:Hl; [|intros [= <- _]; by left].
  destruct (get "cases" doc) as [v|x] eqn:Hg; [|done].
  destruct v as [| | | | |[|c cs]|]; try (intros [= <- _]; by left).
  destruct (for_each (case_step float_of_literal set_order exn_name root) (c :: cs) w3) as [[steps|x] w4] eqn:Hf; [|done]. intros [= <- _]. right.
  exists text, doc. split; [done|]. exists c, cs. split; [done|]. by rewrite map_app, (case_steps_ids _ _ _ _ _ Hf).
Qed.
End suite.

(** ** A file system *)

#[local] Existing Instance Toy.texts.

Module Disk.
(** files by path *)
Definition disk : Type := list (string * string).
Definition parent_of (p : string) (f : string * string) : bool := String.prefix (p +:+ "/") f.1.
#[export] Instance disk_files : SavedFiles disk := {| read_file p := λ d, (Ok (dict_get p d), d) |}.
#[export] Instance disk_tree : Tree disk := {|
  exists_at p := λ d, (Ok (bool_decide (is_Some (dict_get p d)) || existsb (parent_of p) d), d);
  is_dir p := λ d, (Ok (existsb (parent_of p) d), d);
  subdirs p := λ d, (Ok (from_keys (map (λ f, (partition_on "/" (removeprefix (p +:+ "/") f.1)).1.1) (List.filter (parent_of p) d))), d)
|}.
(** a text with every [`] for a double quote *)
Definition json (s : string) : string := str_map (λ c, if Ascii.eqb c "`" then dquote else c) s.
Definition saved (dir remaining body : string) : disk :=
  [(dir +:+ "/request.json",
    json "{`metric_path`: `market/price_usd_close`, `asset`: `BTC`, `interval`: `24h`, `since`: 0, `until`: 172800}");
   (dir +:+ "/response.meta.json",
    json ("{`status`: 200, `headers`: {`content-type`: `application/json`, `x-rate-limit-remaining`: `" +:+ remaining +:+ "`}}"));
   (dir +:+ "/response.body", json body)].
Definition body : string := "[{`t`: 0, `v`: 1.0}, {`t`: 86400, `v`: 2e3}]".
Definition swapped : string := "[{`t`: 86400, `v`: 2e3}, {`t`: 0, `v`: 1.0}]".
Definition two_fetches : disk := (saved "a/btc" "599" body ++ saved "b/btc" "12" swapped)%list.
Definition status_of (d : disk) : option Z :=
  match (harness_main (λ _, fzero) id (λ _, "") id false "" (Some ("a", "b")) d).1 with Ok r => Some r.2 | Raise _ => None end.
End Disk.
Import Disk.

Example points_in_any_order : status_of two_fetches = Some 0.
Proof. vm_compute. reflexivity. Qed.
Example revised_value : status_of (saved "a/btc" "599" body ++ saved "b/btc" "12" "[{`t`: 0, `v`: 1.0}, {`t`: 86400, `v`: 2001}]")%list = Some 1.
Proof. vm_compute. reflexivity. Qed.
Example missing_counterpart : status_of (saved "a/btc" "599" body ++ saved "b/eth" "12" body)%list = Some 1.
Proof. vm_compute. reflexivity. Qed.

Lemma compare_exits_0_witness :
  ∃ names, subdirs "a" two_fetches = (Ok names, two_fetches) ∧ names ≠ [] ∧
    ∀ n, n ∈ names → is_dir (path_of "b" n) two_fetches = (Ok true, two_fetches) ∧
      ∃ a b, load_saved_copy (λ _, fzero) (path_of "a" n) two_fetches = (Ok a, two_fetches) ∧
             load_saved_copy (λ _, fzero) (path_of "b" n) two_fetches = (Ok b, two_fetches) ∧ same_copy a b.
Proof.
  refine (proj2 (proj2 (proj1 (compare_exits_0 (λ _, fzero) id (λ _, "") id two_fetches _ _ _ "" "a" "b") _))).
  1-3: by intros p d ->.
  eexists. vm_compute. reflexivity.
Defined.
